(* ===== verification/_CoqProject ===== *)
-Q . S2P
Prelude.v
OrdTree.v
Rb.v
Bitmap.v
SizeClass.v
BinInfo.v
Chunk.v
ArenaBits.v
ChunkIface.v
Arena.v
ArenaMap.v
ArenaTree.v
ArenaInv.v
ArenaRun.v
ArenaDalloc.v
ArenaPurge.v
ArenaTrim.v
ChunkSpec.v
ChunkSystem.v
Huge.v
ArenaSystem.v
ArenaBin.v
ArenaBinInv.v
ArenaObj.v
ArenaBinOps.v
ArenaBinRun.v
ArenaSmall.v
ArenaFree.v
ArenaLarge.v
ArenaResize.v
ArenaHeap.v
ArenaThreads.v
Malloc.v
MallocInv.v
MallocOps.v
MallocRalloc.v
MallocSpec.v
MallocX.v
MallocProg.v
MallocSystem.v
Util.v
Conf.v
Printf.v
ObjIface.v
Quarantine.v
QuarantineSystem.v
Rtree.v
RtreeSystem.v
Rbtree.v
RbtreeSpec.v
RbtreeDel.v
RbtreeMap.v
Store.v
StoreMem.v
StoreInv.v
StoreOps.v
StoreRecord.v
StoreAdd.v
StoreLoad.v
StoreStart.v
StoreSystem.v
