(* ===== verification/Prelude.v ===== *)
(** * nvmalloc: a verification of its allocator and its object store

    nvmalloc is an allocator for non-volatile memory: a jemalloc 3.0 whose
    entry points serve a persistent object store.  This development follows
    the code of the library that the build makes (allocs/,
    jemalloc/internal/ and the object store of pvmobj/, in the configuration that the build files choose) and proves that its layers
    fit together: every byte that a program gets belongs to it alone until it
    gives it back, and holds what the program wrote; named objects keep
    their contents when the process ends and another one starts.

    ** The program and the files

    The layers, from the bottom up; each is one file of definitions that follow
    the C functions by name, and files of lemmas behind it.

    - [Rb] models rb.h, the red-black trees that all layers use; the trees that
      the generated code works on are what [OrdTree] promises of them.  The
      comparison functions read the nodes, as in the code.
    - [Bitmap] models bitmap.c and bitmap.h, the trees of 64-bit groups that say
      which regions of a run are free.
    - [SizeClass] models the size classes, [s2u], [sa2u] and the map bias;
      [BinInfo] models [bin_info_run_size_calc], [bin_info_init] and
      [arena_run_regind], the layout of the runs of a bin.
    - [Chunk] models extent.c, base.c, chunk_mmap.c and chunk.c, with the base
      allocator and the chunk recycler calling each other; [mmap] is an
      argument of which the documented behaviour is assumed.  [ChunkSpec] has
      its invariant, [ChunkSystem] its theorems, and [ChunkIface] is the
      class of what it promises: arenas and huge objects are verified against
      this class, and [ChunkSystem] gives its instance.
    - [Huge] models huge.c over any chunk layer.
    - [ArenaBits] and [Arena] model the page map and the run level of arena.c
      and arena.h (splitting, coalescing, purging, trimming, chunks that come and
      go).  [ArenaMap], [ArenaTree] and [ArenaInv] state its invariant; [ArenaRun],
      [ArenaDalloc], [ArenaPurge] and [ArenaTrim] have the lemmas of the
      operations, [ArenaSystem] the theorems.
    - [ArenaBin] models the bin level: regions, current and other runs of a bin, small
      and large objects, aligned allocation, resizing in place.  [ArenaBinInv] and
      [ArenaObj] state its invariant; [ArenaBinOps], [ArenaBinRun],
      [ArenaSmall], [ArenaFree], [ArenaLarge], [ArenaResize] and [ArenaHeap]
      have the lemmas, [ArenaThreads] the theorems.
    - [Malloc] models the dispatch of jemalloc_internal.h ([imalloc] to
      [iralloc]), [arena_ralloc] and the entry points of jemalloc.c.  [MallocInv]
      joins the invariants of the arena and of the huge objects over one chunk
      layer and one memory; [MallocOps], [MallocRalloc], [MallocSpec], [MallocX]
      and [MallocProg] have the lemmas, [MallocSystem] the theorems.
    - [Util] models the conversions of numbers of util.c, [Printf] its formatted
      output ([malloc_vsnprintf]), [Conf] the parsing of options of jemalloc.c
      ([malloc_conf_next], [malloc_conf_init]).
    - [Quarantine] models quarantine.c over [ObjIface], the class of what the
      functions of jemalloc_internal.h promise of objects of any size;
      [QuarantineSystem] gives the instance from [Malloc].
    - [Rtree] models rtree.c and rtree.h; [RtreeSystem] puts it over the base
      allocator of [Chunk].
    - [Rbtree] models pvmobj/rbtree.cc, the trees of the object store, node by
      node with their parent pointers; [RbtreeSpec], [RbtreeDel] and
      [RbtreeMap] show that they are finite maps.
    - [Store] models the object store: pvmobj/nv_map.cc, the names and files of
      util_func.cc, the tables of hash_maps.cc, the calls of c_io.cc for
      programs, and the end of [je_malloc_], which records what the allocator returned.
      The state has the files (their records and bytes), the mappings
      of the process, its trees and its global variables; [restart]
      keeps the files only.  [StoreMem] has loads and stores through
      mappings, [StoreInv] the invariant and the searches, [StoreOps] reading, writing,
      committing, deleting and renaming, [StoreRecord] and [StoreAdd] new
      mappings and objects, [StoreLoad] and [StoreStart] the start of a
      process, [StoreSystem] the abstract store and the theorem.

    ** How code is modelled

    Integers are [Z], cut to their width where the code can leave it ([u32],
    [u64]).  A C function that changes state is a function in the
    monad [M] below: state to result and new state, or to [None] when an
    assertion fails, a null pointer is followed or an array is indexed outside
    of its bounds.  Assertions are kept, also where a release build drops them, with these
    exceptions, which the model does not have: the test of equal dirty flags in
    [arena_avail_comp]; the count of pages that [arena_chunk_purge] makes only for its own
    assertions ([ndirty] under [config_debug], arena.c 763 to 773); and the checks of
    [arena_chunk_validate_zeroed] that clean pages hold zeros.  Every theorem about an
    operation says that it has a result; so [None] is never reached from a
    state that keeps the invariant.  Pointers are addresses; a null pointer is
    [None] of an [option].  The contents of memory are a function from
    addresses to bytes.  Records that the code keeps in memory (page maps, run
    headers, extent nodes) are values in finite maps keyed by their address,
    apart from the user's bytes; that the two never overlap is part of the
    invariants.

    Loops that are not structural have fuel: the number of dirty chunks and of the
    pages of a chunk for purging, the number of regions and of pages of the largest run for
    [bin_info_run_size_calc], the length of the string for options, the number of objects for
    draining the quarantine, the number of nodes for searches in the
    trees of the object store.  Running out of fuel is [None], so the theorems
    show that it does not happen.

    ** Other threads

    What runs under one lock is one step.  Where [arena_bin_nonfull_run_get]
    and [arena_dalloc_bin_run] release the lock of a bin and take it again, the
    model calls [others], and the theorems are about [others] being any programs of other
    threads that begin in this window, nested to any depth ([ArenaThreads.interfere]); such a program
    begins without objects, may keep what it allocates for ever, and frees only what it
    allocated in the same window.  The exact theorems ([arena_dalloc_spec], [arena_palloc_spec],
    [quarantine_fifo]) speak of all objects of the arena: there the programs of others free what
    they allocated ([ArenaThreads.tidy]), so that an object that is lost would show.  The lock of an arena is held
    over its steps, also where [arena_chunk_purge] drops it around [madvise].
    Other threads of [Malloc] use the arena only, not huge objects.
    [ArenaInv.Frame] says that an arena never writes to chunks of others.

    ** What the theorems show

    - [MallocSystem]: a program of malloc-family calls and of loads and stores
      sees a store of disjoint objects that keep what it wrote; the behaviour
      of [realloc], [calloc], [posix_memalign] and [rallocm] with all errors; and that of
      [je_malloc_], the entry point of the object store, which is no part of these programs because
      its assertion on the result fails when there is no memory.
    - [ArenaThreads]: the same for the arena alone, with the functional
      behaviour of each operation, errors included, freeing that leaves exactly the other
      objects, and progress when there is room.
    - [ArenaSystem]: the run level is a map of disjoint runs; best fit,
      coalescing, trimming; purging terminates.
    - [ChunkSystem], [Huge]: chunks handed out are disjoint and aligned, the free
      extents are coalesced and lose nothing but what no node can be had for; huge objects are a
      finite map.
    - [StoreSystem]: a program of calls of the object store, with ends and
      starts of the process anywhere between them, sees a finite map of named objects: each
      call has a result, its answer is that of the abstract store, and
      objects keep name, committed size and bytes over restarts.
    - [Quarantine]: freed objects wait in a bounded queue, and the objects left are exactly those
      of the program, the queue, the ring and the rings that growth leaks.  [Rtree], [RbtreeMap]: the radix tree
      and the trees of the object store are maps.  [Conf], [Util]: parsing options ends, with
      every option in its range, and reads back what is printed.  [Printf]: formatted output
      stays inside its buffer and, for the conversions on which the code agrees with
      snprintf(3), is what the format means.
    - [Rb], [Bitmap], [SizeClass], [BinInfo], [ArenaBits]: the data structures
      and the arithmetic below.

    ** Limits

    One arena (arena 0) is modelled.  The programs of [MallocSystem.malloc_refines_store] have no
    [realloc(p, 0)] (the code does not count what it frees there) and no [je_malloc_].  Memory comes
    from [os_mmap], an argument of [Chunk]: in the build with [_USENVRAM] that is [_mmap] of
    nv_map.cc, which [Store] models for itself; its results are taken to be multiples of 8192,
    the allocator's page, while a system page may be smaller.  The counters of chunks
    ([chunk_stats_alloc]) do not wrap around.  What [pages_purge] does to the bytes of a freed
    chunk in [chunk_record] is not modelled; in [arena_chunk_purge] it may change
    the purged pages in any way.  The bound of the path array of rb.h is not modelled.  [BinInfos], the layout of runs, is proved for chunks of at most
    2^31 bytes.  That large objects asked for with zeros hold zeros is not
    proved (the flags of the page map for untouched pages are not tied to the
    contents of memory); small ones do.  Resizing a large object in place with [opt_zero], without
    [zero] and with [extra] bytes is excluded, because the code clears memory
    out of bounds there.  Aligned requests that end within the alignment and a
    chunk of the end of the address space are excluded: an assertion of
    [ipalloc] fails there.  Formats with the flag 0, a precision of a
    number, [%#x] of 0, a negative width or a precision beyond the end of the string are
    outside [malloc_vsnprintf_spec]: the code departs from snprintf(3) there ([Printf] has
    examples).  The quarantine is below 2^57 bytes; a radix tree has 1 to 64 bits.

    The object store is that of one process id (901, the only one the calls
    use).  The address of each new object is given by the caller of the model: any block in a
    mapping of this run that no object uses, which is what the allocator
    promises; so the store is not tied to one allocation policy, and
    blocks that span two mappings are excluded.  Files can be created and mapped ([mmap] never fails),
    [malloc] has memory for the nodes of the trees (the code tests neither), and addresses do not
    wrap around.  At most 15000 objects are recorded over the life of the
    files, because the arrays in the files have no test of their length.
    An object is known by a 32-bit hash of its name: the theorem asks that a new
    name has the hash of no other object, and that a name is not used
    after it was renamed, until the process ends.  Allocating a
    name that exists is excluded: the code deletes the new object.  Only whole
    operations are followed by a restart; a crash within one is not modelled.

    Not modelled: start-up ([malloc_init_hard]), the choice between arenas and
    the forking hooks of jemalloc.c; thread caches (never created in this
    version: [arena_malloc] overrides its argument); the cuckoo hash and the hash function (used
    only by the profiler); the profiler (disabled); ctl.c and stats.c (a name tree over the state of
    the others, and printing); locks and thread-specific data;
    np_malloc.c, a second allocator beside this one; of the object
    store what the Makefile switches off: transactions, logs, shadow copies, caches,
    checkpoints and statistics; third-party allocators and libraries.

    This file has the vocabulary that the others share: stuck and stateful
    computations and their weakest preconditions, and facts about words,
    lists and finite maps. *)

From stdpp Require Export base list numbers gmap.
From Stdlib Require Export ZArith Lia Sorted.

#[global] Open Scope Z_scope.

(** ** Stuck computations

    C code that dereferences a bad pointer, indexes outside an array or fails
    one of its own [assert]s has no result.  The model of such code is a
    partial function into [option]; [None] is "no result", and the theorems of
    the development prove that it is not reached. *)

Definition assert_ (b : bool) : option unit := if b then Some tt else None.

Declare Scope nv_scope.
Delimit Scope nv_scope with nv.
Notation "'assert!' b ; k" := (assert_ b ≫= (λ _ : unit, k))
  (at level 100, b at level 60, k at level 200, only parsing) : nv_scope.
#[global] Open Scope nv_scope.

Lemma assert_Some (b : bool) {A} (k : option A) (x : A) :
  (assert! b; k) = Some x ↔ b = true ∧ k = Some x.
Proof. destruct b; simpl; intuition congruence. Qed.

Lemma assert_true {A} (k : option A) : (assert! true; k) = k.
Proof. reflexivity. Qed.

(** ** Stateful code

    A C function that reads and writes global state is a function from the state
    to its result and the new state, or to no result. *)

Definition M (S A : Type) : Type := S → option (A * S).

#[export] Instance M_ret S : MRet (M S) := λ A x s, Some (x, s).
#[export] Instance M_bind S : MBind (M S) := λ A B k m s,
  match m s with Some (x, s') => k x s' | None => None end.

Definition lift {S A} (o : option A) : M S A := λ s, match o with Some x => Some (x, s) | None => None end.
Definition gets {S A} (f : S → A) : M S A := λ s, Some (f s, s).
Definition modify {S} (f : S → S) : M S unit := λ s, Some (tt, f s).
Definition check {S} (b : bool) : M S unit := lift (assert_ b).

(** Runs the monadic code of the goal up to the next call of an operation. *)
Ltac mrun := cbv beta iota zeta delta [mbind M_bind mret M_ret lift gets modify check assert_ id negb].
Ltac mrun_in H := cbv beta iota zeta delta [mbind M_bind mret M_ret lift gets modify check assert_ id negb] in H.

(** Splits conjunctions only. *)
Ltac conj := repeat match goal with |- _ ∧ _ => split end.

Lemma bind_Some {S A B} (m : M S A) (k : A → M S B) s x s1 :
  m s = Some (x, s1) → (x ← m; k x) s = k x s1.
Proof. intros E. unfold mbind, M_bind. by rewrite E. Qed.

Lemma bind_inv {S A B} (m : M S A) (k : A → M S B) s r :
  (x ← m; k x) s = Some r → ∃ x s1, m s = Some (x, s1) ∧ k x s1 = Some r.
Proof. unfold mbind, M_bind. destruct (m s) as [[x s1]|]; [eauto|done]. Qed.

Lemma check_true {S A} (k : M S A) : (check true;; k) = k.
Proof. done. Qed.

(** ** Machine integers: [size_t] and [uintptr_t] are 64-bit, [unsigned] is 32-bit. *)

Definition u64 (x : Z) : Z := x mod 2 ^ 64.
Definition u32 (x : Z) : Z := x mod 2 ^ 32.

Definition is_u64 (x : Z) : Prop := 0 ≤ x < 2 ^ 64.
Definition is_u32 (x : Z) : Prop := 0 ≤ x < 2 ^ 32.

Create HintDb nv discriminated.
(** Facts about what an operation leaves in place. *)
Create HintDb grows discriminated.

Lemma u64_small x : is_u64 x → u64 x = x.
Proof. apply Z.mod_small. Qed.

Lemma u64_neg x : - 2 ^ 64 ≤ x < 0 → u64 x = x + 2 ^ 64.
Proof. intros Hx. unfold u64. rewrite <- (Z.mod_add x 1) by done. rewrite Z.mod_small; lia. Qed.

Lemma u32_small x : is_u32 x → u32 x = x.
Proof. apply Z.mod_small. Qed.

Lemma u64_range x : is_u64 (u64 x).
Proof. apply Z.mod_pos_bound; lia. Qed.

Lemma u32_range x : is_u32 (u32 x).
Proof. apply Z.mod_pos_bound; lia. Qed.

#[export] Hint Resolve u64_range u32_range : nv.

(** The C idiom for three-way comparison, [(a > b) - (a < b)]. *)
Definition cmp3 (a b : Z) : Z := Z.b2z (b <? a) - Z.b2z (a <? b).

Lemma cmp3_spec a b :
  (a < b ∧ cmp3 a b = -1) ∨ (a = b ∧ cmp3 a b = 0) ∨ (b < a ∧ cmp3 a b = 1).
Proof.
  unfold cmp3. destruct (Z.ltb_spec b a), (Z.ltb_spec a b); simpl; lia.
Qed.

Lemma cmp3_lt a b : cmp3 a b < 0 ↔ a < b.
Proof. destruct (cmp3_spec a b) as [[? ->]|[[? ->]|[? ->]]]; lia. Qed.

Lemma cmp3_gt a b : 0 < cmp3 a b ↔ b < a.
Proof. destruct (cmp3_spec a b) as [[? ->]|[[? ->]|[? ->]]]; lia. Qed.

Lemma cmp3_eq a b : cmp3 a b = 0 ↔ a = b.
Proof. destruct (cmp3_spec a b) as [[? ->]|[[? ->]|[? ->]]]; lia. Qed.

(** ** Powers of two, alignment masks *)

Lemma pow2_pos n : 0 ≤ n → 0 < 2 ^ n.
Proof. intros. apply Z.pow_pos_nonneg; lia. Qed.
#[export] Hint Resolve pow2_pos : nv.

(** [x & (2^n - 1)] is the remainder. *)
Lemma land_mask x n : 0 ≤ n → Z.land x (2 ^ n - 1) = x mod 2 ^ n.
Proof.
  intros. replace (2 ^ n - 1) with (Z.ones n) by (rewrite Z.ones_equiv; lia).
  by apply Z.land_ones.
Qed.

(** [x & ~(2^n - 1)] clears the low bits. *)
Lemma land_lnot_mask x n : 0 ≤ n → Z.land x (Z.lnot (2 ^ n - 1)) = x - x mod 2 ^ n.
Proof.
  intros Hn. rewrite <- land_mask by done.
  replace (Z.lnot (2 ^ n - 1)) with (Z.lnot (Z.ones n)) by (by rewrite Z.ones_equiv; f_equal; lia).
  replace (2 ^ n - 1) with (Z.ones n) by (rewrite Z.ones_equiv; lia).
  rewrite <- Z.ldiff_land.
  assert (Hd : Z.land (Z.land x (Z.ones n)) (Z.ldiff x (Z.ones n)) = 0).
  { apply Z.bits_inj'. intros k Hk.
    rewrite !Z.land_spec, Z.ldiff_spec, Z.bits_0.
    destruct (Z.testbit x k), (Z.testbit (Z.ones n) k); reflexivity. }
  assert (He : x = Z.land x (Z.ones n) + Z.ldiff x (Z.ones n)).
  { rewrite Z.add_nocarry_lxor, Z.lxor_lor by done.
    apply Z.bits_inj'. intros k Hk.
    rewrite Z.lor_spec, Z.land_spec, Z.ldiff_spec.
    destruct (Z.testbit x k), (Z.testbit (Z.ones n) k); reflexivity. }
  lia.
Qed.

(** Rounding up to a multiple of [m]. *)
Definition round_up (x m : Z) : Z := (x + (m - 1)) / m * m.

Lemma round_up_spec x m :
  0 < m → x ≤ round_up x m < x + m ∧ round_up x m mod m = 0.
Proof.
  intros Hm. unfold round_up.
  pose proof (Z.div_mod (x + (m - 1)) m ltac:(lia)).
  pose proof (Z.mod_pos_bound (x + (m - 1)) m Hm).
  split; [nia|]. by rewrite Z.mod_mul by lia.
Qed.

Lemma round_up_least x m y :
  0 < m → x ≤ y → y mod m = 0 → round_up x m ≤ y.
Proof.
  intros Hm Hxy Hy. unfold round_up.
  apply Z.mod_divide in Hy as [k ->]; [|lia].
  apply Z.mul_le_mono_nonneg_r; [lia|].
  apply Z.lt_succ_r, Z.div_lt_upper_bound; lia.
Qed.

Lemma round_up_id x m : 0 < m → x mod m = 0 → round_up x m = x.
Proof.
  intros Hm Hx. pose proof (round_up_spec x m Hm) as [[? ?] ?].
  pose proof (round_up_least x m x Hm ltac:(lia) Hx). lia.
Qed.

Lemma round_up_mask x n :
  0 ≤ n → Z.land (x + (2 ^ n - 1)) (Z.lnot (2 ^ n - 1)) = round_up x (2 ^ n).
Proof.
  intros Hn. rewrite land_lnot_mask by done. unfold round_up.
  pose proof (pow2_pos n Hn).
  pose proof (Z.div_mod (x + (2 ^ n - 1)) (2 ^ n) ltac:(lia)). lia.
Qed.

Lemma u64_wrap x : 2 ^ 64 ≤ x < 2 ^ 65 → u64 x = x - 2 ^ 64.
Proof.
  intros Hx. unfold u64. symmetry. apply (Z.mod_unique_pos x (2 ^ 64) 1); lia.
Qed.

(** Multiples of powers of two. *)
Lemma mod_pow2_le x m n : 0 ≤ m ≤ n → x mod 2 ^ n = 0 → x mod 2 ^ m = 0.
Proof.
  intros Hmn Hx. apply Z.mod_divide in Hx; [|pose proof (pow2_pos n); lia].
  apply Z.mod_divide; [pose proof (pow2_pos m); lia|].
  etransitivity; [|exact Hx]. exists (2 ^ (n - m)). rewrite <- Z.pow_add_r by lia. f_equal. lia.
Qed.

Lemma mod_add_0 x y m : 0 < m → x mod m = 0 → y mod m = 0 → (x + y) mod m = 0.
Proof.
  intros Hm Hx Hy. rewrite Z.add_mod by lia. rewrite Hx, Hy. apply Z.mod_0_l; lia.
Qed.

Lemma mod_sub_0 x y m : 0 < m → x mod m = 0 → y mod m = 0 → (x - y) mod m = 0.
Proof.
  intros Hm Hx Hy. rewrite Zminus_mod, Hx, Hy. apply Z.mod_0_l; lia.
Qed.

Lemma mod_0_lt_add x y m : 0 < m → x mod m = 0 → y mod m = 0 → x < y → x + m ≤ y.
Proof.
  intros Hm Hx Hy Hlt. apply Z.mod_divide in Hx as [a ->]; [|lia].
  apply Z.mod_divide in Hy as [b ->]; [|lia]. assert (a < b) by nia. nia.
Qed.

Lemma mod_0_ge x m : 0 < m → 0 < x → x mod m = 0 → m ≤ x.
Proof. intros Hm Hx Hd. apply Z.divide_pos_le; [done|]. by apply Z.mod_divide; [lia|]. Qed.

Lemma round_up_mono x y m : 0 < m → x ≤ y → round_up x m ≤ round_up y m.
Proof.
  intros Hm Hxy. unfold round_up. apply Z.mul_le_mono_nonneg_r; [lia|].
  apply Z.div_le_mono; lia.
Qed.

(** ** Memory: a byte for every address *)

Definition memset_bytes (a c n : Z) (m : Z → Z) : Z → Z := λ x, if (a <=? x) && (x <? a + n) then c else m x.
Definition memcpy_bytes (d a n : Z) (m : Z → Z) : Z → Z := λ x, if (d <=? x) && (x <? d + n) then m (x - d + a) else m x.

(** ** Loops over a list *)

Fixpoint for_each {S A} (l : list A) (f : A → M S unit) : M S unit :=
  match l with [] => mret tt | x :: l => f x;; for_each l f end.

(** ** Weakest preconditions

    [wp m s Q]: from state [s] the code [m] has a result, and [Q] holds of the
    result and the state it leaves. *)

Definition wp {S A} (m : M S A) (s : S) (Q : A → S → Prop) : Prop :=
  match m s with Some (r, s') => Q r s' | None => False end.

Section wp.
Context {S : Type}.

Lemma wp_Some {A} (m : M S A) s Q : wp m s Q ↔ ∃ r s', m s = Some (r, s') ∧ Q r s'.
Proof. unfold wp. destruct (m s) as [[r s']|]; naive_solver. Qed.

Lemma wp_bind {A B} (m : M S A) (k : A → M S B) s Q :
  wp m s (λ x s', wp (k x) s' Q) → wp (x ← m; k x) s Q.
Proof. unfold wp, mbind, M_bind. by destruct (m s) as [[r s']|]. Qed.

Lemma wp_ret {A} (x : A) s (Q : A → S → Prop) : Q x s → wp (mret x) s Q.
Proof. done. Qed.

Lemma wp_gets {A} (f : S → A) s Q : Q (f s) s → wp (gets f) s Q.
Proof. done. Qed.

Lemma wp_modify (f : S → S) s Q : Q tt (f s) → wp (modify f) s Q.
Proof. done. Qed.

Lemma wp_check b s (Q : unit → S → Prop) : b = true → Q tt s → wp (check b) s Q.
Proof. by intros ->. Qed.

Lemma wp_lift {A} (o : option A) x s (Q : A → S → Prop) : o = Some x → Q x s → wp (lift o) s Q.
Proof. by intros ->. Qed.

Lemma wp_mono {A} (m : M S A) s (Q Q' : A → S → Prop) :
  wp m s Q → (∀ r s', Q r s' → Q' r s') → wp m s Q'.
Proof. unfold wp. destruct (m s) as [[r s']|]; auto. Qed.

(** Two statements, three or four, as one block. *)
Lemma wp_block2 {A B C} (m1 : M S A) (m2 : M S B) (k : M S C) s Q :
  wp (m1;; m2) s (λ _ s', wp k s' Q) → wp m1 s (λ _ s', wp (m2;; k) s' Q).
Proof. unfold wp, mbind, M_bind. destruct (m1 s) as [[? s1]|]; [|done]. by destruct (m2 s1) as [[? ?]|]. Qed.

Lemma wp_block3 {A B C D} (m1 : M S A) (m2 : M S B) (m3 : M S C) (k : M S D) s Q :
  wp (m1;; (m2;; m3)) s (λ _ s', wp k s' Q) → wp m1 s (λ _ s', wp (m2;; (m3;; k)) s' Q).
Proof.
  unfold wp, mbind, M_bind. destruct (m1 s) as [[? s1]|]; [|done]. destruct (m2 s1) as [[? s2]|]; [|done].
  by destruct (m3 s2) as [[? ?]|].
Qed.

Lemma wp_block4 {A B C D E} (m1 : M S A) (m2 : M S B) (m3 : M S C) (m4 : M S D) (k : M S E) s Q :
  wp (m1;; (m2;; (m3;; m4))) s (λ _ s', wp k s' Q) → wp m1 s (λ _ s', wp (m2;; (m3;; (m4;; k))) s' Q).
Proof.
  unfold wp, mbind, M_bind. destruct (m1 s) as [[? s1]|]; [|done]. destruct (m2 s1) as [[? s2]|]; [|done].
  destruct (m3 s2) as [[? s3]|]; [|done]. by destruct (m4 s3) as [[? ?]|].
Qed.

(** A loop over a list keeps an invariant of the part that was done. *)
Lemma wp_for_each {A} (l : list A) (f : A → M S unit) s (I : list A → S → Prop) (Q : unit → S → Prop) :
  I [] s → (∀ l1 x l2 s', l = l1 ++ x :: l2 → I l1 s' → wp (f x) s' (λ _, I (l1 ++ [x]))) →
  (∀ s', I l s' → Q tt s') → wp (for_each l f) s Q.
Proof.
  intros H0 Hstep Hend.
  assert (Hgen : ∀ l2 l1 s', l = l1 ++ l2 → I l1 s' → wp (for_each l2 f) s' Q).
  { induction l2 as [|x l2 IH]; intros l1 s' E Hi; simpl.
    - apply wp_ret, Hend. by rewrite E, app_nil_r.
    - apply wp_bind. eapply wp_mono; [by eapply Hstep|]. intros [] s'' Hi'. simpl.
      apply (IH (l1 ++ [x])); [by rewrite <- app_assoc|done]. }
  by apply (Hgen l []).
Qed.
End wp.

(** One step of the code in a [wp] goal: an operation of the monad itself. *)
Ltac wstep :=
  lazymatch goal with
  | |- wp (mret _) _ _ => apply wp_ret
  | |- wp (gets _) _ _ => apply wp_gets
  | |- wp (modify _) _ _ => apply wp_modify
  | |- wp (mbind _ _) _ _ => apply wp_bind
  end.
Ltac wsteps := repeat wstep; cbv beta.

(** ** Computations that may fail *)

(** A computation that fails only if [P] holds. *)
Definition wpf {S A} (P : Prop) (m : M S A) (s : S) (Q : A → S → Prop) : Prop :=
  match m s with Some (r, s') => Q r s' | None => P end.

Lemma wpf_wp {S A} P (m : M S A) s Q : wp m s Q → wpf P m s Q.
Proof. unfold wp, wpf. by destruct (m s) as [[r s']|]. Qed.

Lemma wpf_mono {S A} (P P' : Prop) (m : M S A) s (Q Q' : A → S → Prop) : wpf P m s Q → (P → P') → (∀ r s', Q r s' → Q' r s') → wpf P' m s Q'.
Proof. unfold wpf. destruct (m s) as [[r s']|]; auto. Qed.

Lemma wpf_bind {S A B} P (m : M S A) (k : A → M S B) s Q : wp m s (λ x s', wpf P (k x) s' Q) → wpf P (m ≫= k) s Q.
Proof. unfold wp, wpf, mbind, M_bind. by destruct (m s) as [[x s']|]. Qed.

Lemma wpf_check {S A} P b (k : M S A) s Q : (b = true → wpf P k s Q) → (b = false → P) → wpf P (check b;; k) s Q.
Proof. intros Ht Hf. destruct b; [by apply Ht|]. unfold wpf. by apply Hf. Qed.
