(* ===== verification/OrdTree.v ===== *)
(** * The ordered-tree interface

    What the generated red-black trees of jemalloc ([rb_gen]) promise to the
    components that use them: [arena_avail_tree_], [arena_run_tree_],
    [extent_tree_szad_] and [extent_tree_ad_].  The elements are node pointers;
    the comparison function reads the nodes through them, so it is an argument
    of every operation and may differ from call to call.  The operations that
    contain an [assert] (or follow a pointer) return an [option]. *)

From S2P Require Import Prelude.

(** A comparison function that is a strict total preorder. *)
Record rb_order {A} (cmp : A → A → Z) : Prop := {
  ro_anti : ∀ a b, cmp a b < 0 ↔ 0 < cmp b a;
  ro_trans : ∀ a b c, cmp a b < 0 → cmp b c < 0 → cmp a c < 0;
  ro_eq : ∀ a b c, cmp a b = 0 → cmp b c < 0 → cmp a c < 0;
}.

(** In-order contents are strictly increasing. *)
Definition increasing {A} (cmp : A → A → Z) : list A → Prop :=
  StronglySorted (λ a b, cmp a b < 0).

(** A search key is compatible with a listing when the elements it is not
    above are exactly a suffix, and at most one of them equals it. *)
Definition key_cut {A} (kcmp : A → Z) : list A → Prop :=
  StronglySorted (λ a b, kcmp a ≤ 0 → kcmp b < 0).

Class OrdTree (T A : Type) := {
  ot_new : T;
  ot_elems : T → list A;
  ot_shape : T → Prop;
  ot_first : T → option A;
  ot_last : T → option A;
  ot_search : (A → Z) → T → option A;
  ot_nsearch : (A → Z) → T → option A;
  ot_psearch : (A → Z) → T → option A;
  ot_next : (A → A → Z) → A → T → option (option A);
  ot_prev : (A → A → Z) → A → T → option (option A);
  ot_insert : (A → A → Z) → A → T → option T;
  ot_remove : (A → A → Z) → A → T → option T;
}.

Class OrdTreeLaws (T A : Type) `{OrdTree T A} : Prop := {
  ot_new_elems : ot_elems ot_new = [];
  ot_new_shape : ot_shape ot_new;
  ot_first_spec t : ot_first t = head (ot_elems t);
  ot_last_spec t : ot_last t = last (ot_elems t);
  ot_search_spec kcmp t :
    key_cut kcmp (ot_elems t) →
    ot_search kcmp t = head (filter (λ e, kcmp e = 0) (ot_elems t));
  ot_nsearch_spec kcmp t :
    key_cut kcmp (ot_elems t) →
    ot_nsearch kcmp t = head (filter (λ e, kcmp e ≤ 0) (ot_elems t));
  ot_psearch_spec kcmp t :
    key_cut kcmp (ot_elems t) →
    ot_psearch kcmp t = last (filter (λ e, 0 ≤ kcmp e) (ot_elems t));
  ot_next_spec cmp l1 x l2 t :
    rb_order cmp → increasing cmp (ot_elems t) → ot_elems t = l1 ++ x :: l2 →
    ot_next cmp x t = Some (head l2);
  ot_prev_spec cmp l1 x l2 t :
    rb_order cmp → increasing cmp (ot_elems t) → ot_elems t = l1 ++ x :: l2 →
    ot_prev cmp x t = Some (last l1);
  ot_insert_spec cmp x t :
    rb_order cmp → ot_shape t → increasing cmp (ot_elems t) →
    (∀ y, y ∈ ot_elems t → cmp x y ≠ 0) →
    ∃ t' l1 l2, ot_insert cmp x t = Some t' ∧ ot_shape t' ∧
      ot_elems t = l1 ++ l2 ∧ ot_elems t' = l1 ++ x :: l2 ∧
      increasing cmp (ot_elems t');
  ot_remove_spec cmp x t :
    rb_order cmp → ot_shape t → increasing cmp (ot_elems t) →
    x ∈ ot_elems t →
    ∃ t' l1 l2, ot_remove cmp x t = Some t' ∧ ot_shape t' ∧
      ot_elems t = l1 ++ x :: l2 ∧ ot_elems t' = l1 ++ l2 ∧
      increasing cmp (ot_elems t');
}.

(** ** Facts about increasing listings, shared by the clients *)

Section increasing.
Context {A : Type}.
Implicit Types (cmp : A → A → Z) (l : list A) (x y : A).

Lemma ro_refl cmp x : rb_order cmp → cmp x x = 0.
Proof. intros H. pose proof (ro_anti _ H x x). lia. Qed.

Lemma ro_gt cmp x y : rb_order cmp → 0 < cmp x y → cmp y x < 0.
Proof. intros H ?. by apply (ro_anti _ H). Qed.

Lemma SSorted_app (R : A → A → Prop) l1 l2 :
  StronglySorted R (l1 ++ l2) ↔
    StronglySorted R l1 ∧ StronglySorted R l2 ∧
    (∀ x y, x ∈ l1 → y ∈ l2 → R x y).
Proof.
  induction l1 as [|a l1 IH]; simpl.
  - split; [|by intros (_&?&_)].
    intros ?. split_and!; [constructor|done|]. intros ??. set_solver.
  - split.
    + intros H. apply StronglySorted_inv in H as [H Ha].
      apply IH in H as (?&?&?). rewrite Forall_app in Ha.
      destruct Ha as [Ha1 Ha2]. split_and!; [by constructor|done|].
      intros x y [->|?]%elem_of_cons ?; [|by auto].
      rewrite Forall_forall in Ha2. by apply Ha2.
    + intros (H1&H2&H3). apply StronglySorted_inv in H1 as [H1 Ha].
      constructor; [apply IH; set_solver|].
      apply Forall_app; split; [done|].
      apply Forall_forall. intros y ?. apply H3; set_solver.
Qed.

Lemma increasing_app cmp l1 l2 :
  increasing cmp (l1 ++ l2) ↔
    increasing cmp l1 ∧ increasing cmp l2 ∧
    (∀ x y, x ∈ l1 → y ∈ l2 → cmp x y < 0).
Proof. apply SSorted_app. Qed.

Lemma SSorted_cons (R : A → A → Prop) x l :
  StronglySorted R (x :: l) ↔ (∀ y, y ∈ l → R x y) ∧ StronglySorted R l.
Proof.
  split.
  - intros [? Hf]%StronglySorted_inv. split; [|done].
    intros y Hy. rewrite Forall_forall in Hf. by apply Hf.
  - intros [Hf ?]. constructor; [done|].
    by apply Forall_forall.
Qed.

Lemma increasing_cons cmp x l :
  increasing cmp (x :: l) ↔ (∀ y, y ∈ l → cmp x y < 0) ∧ increasing cmp l.
Proof. apply SSorted_cons. Qed.

(** The contents keep their order when the comparison changes only on
    nodes that are not in the tree. *)
Lemma increasing_ext cmp cmp' l :
  (∀ x y, x ∈ l → y ∈ l → cmp' x y = cmp x y) →
  increasing cmp l → increasing cmp' l.
Proof.
  induction l as [|a l IH]; intros Heq Hs; [constructor|].
  apply increasing_cons in Hs as [Ha Hs]. apply increasing_cons. split.
  - intros y Hy. rewrite Heq; [by auto|set_solver..].
  - apply IH; [|done]. set_solver.
Qed.

Lemma increasing_NoDup cmp l : rb_order cmp → increasing cmp l → NoDup l.
Proof.
  intros Ho. induction l as [|a l IH]; intros Hs; [constructor|].
  apply increasing_cons in Hs as [Ha Hs]. constructor; [|by auto].
  intros Hin. specialize (Ha _ Hin). rewrite ro_refl in Ha by done. lia.
Qed.

Lemma increasing_neq cmp l x y :
  rb_order cmp → increasing cmp l → x ∈ l → y ∈ l → cmp x y = 0 → x = y.
Proof.
  intros Ho. induction l as [|a l IH]; intros Hs Hx Hy E; [set_solver|].
  apply increasing_cons in Hs as [Ha Hs].
  apply elem_of_cons in Hx as [->|Hx]; apply elem_of_cons in Hy as [->|Hy]; auto.
  - specialize (Ha _ Hy). lia.
  - specialize (Ha _ Hx). apply (ro_anti _ Ho) in Ha. lia.
Qed.

Lemma increasing_split cmp l1 x l2 :
  increasing cmp (l1 ++ x :: l2) → increasing cmp (l1 ++ l2).
Proof.
  rewrite !increasing_app, increasing_cons.
  intros (?&[??]&Hc). split_and!; auto. intros ????. apply Hc; set_solver.
Qed.

(** A key that agrees with some comparison point cuts the listing. *)
Lemma key_cut_of_cmp cmp k l :
  rb_order cmp → increasing cmp l → key_cut (cmp k) l.
Proof.
  intros Ho. induction l as [|a l IH]; intros Hs; [constructor|].
  apply increasing_cons in Hs as [Ha Hs]. apply SSorted_cons. split; [|by apply IH].
  intros y Hy Hk. specialize (Ha _ Hy).
  destruct (Z.eq_dec (cmp k a) 0).
  - by apply (ro_eq _ Ho _ a).
  - apply (ro_trans _ Ho _ a); [lia|done].
Qed.

Lemma key_cut_of_members cmp (kcmp : A → Z) l :
  (∀ a b, a ∈ l → b ∈ l → cmp a b < 0 → kcmp a ≤ 0 → kcmp b < 0) → increasing cmp l → key_cut kcmp l.
Proof.
  induction l as [|a l IH]; intros Hm Hs; [constructor|].
  apply increasing_cons in Hs as [Ha Hs]. apply SSorted_cons. split.
  - intros y Hy. apply Hm; [set_solver..|by apply Ha].
  - apply IH; [|done]. intros x y Hx Hy. apply Hm; set_solver.
Qed.

Lemma key_cut_of_mono cmp (kcmp : A → Z) l :
  (∀ a b, cmp a b < 0 → kcmp a ≤ 0 → kcmp b < 0) → increasing cmp l → key_cut kcmp l.
Proof. intros Hm. apply key_cut_of_members. intros a b _ _. apply Hm. Qed.
End increasing.

Lemma NoDup_split_unique {A} (x : A) (l1 l2 k1 k2 : list A) :
  NoDup (l1 ++ x :: l2) → l1 ++ x :: l2 = k1 ++ x :: k2 → l1 = k1 ∧ l2 = k2.
Proof.
  revert k1. induction l1 as [|a l1 IH]; intros [|b k1] Hnd E; simpl in *;
    apply NoDup_cons in Hnd as [Hn Hnd]; injection E; [done|set_solver..|].
  intros E' ->. by destruct (IH k1 Hnd E') as [-> ->].
Qed.

Lemma filter_none {A} (P : A → Prop) `{∀ x, Decision (P x)} (l : list A) :
  (∀ x, x ∈ l → ¬ P x) → filter P l = [].
Proof.
  induction l as [|a l IH]; intros Hn; [done|].
  rewrite filter_cons_False by (apply Hn; set_solver). apply IH. set_solver.
Qed.

Lemma head_app_default {A} (l1 l2 : list A) :
  head (l1 ++ l2) = match head l1 with Some x => Some x | None => head l2 end.
Proof. by destruct l1. Qed.

Lemma last_app_default {A} (l1 l2 : list A) :
  last (l1 ++ l2) = match last l2 with Some x => Some x | None => last l1 end.
Proof. apply last_app. Qed.

(** ** A tree as the set of its nodes

    What most clients need: which nodes are in the tree, in the order of the
    comparison in force. *)

Section tree_of.
Context {T A : Type} `{OT : OrdTree T A} `{!OrdTreeLaws T A} `{Countable A}.
Implicit Types (cmp : A → A → Z) (t : T) (X : gset A) (x y : A).

Definition tree_of cmp t X : Prop :=
  rb_order cmp ∧ ot_shape t ∧ increasing cmp (ot_elems t) ∧ ∀ y, y ∈ ot_elems t ↔ y ∈ X.

Lemma tree_new cmp : rb_order cmp → tree_of cmp ot_new ∅.
Proof.
  intros Ho. split_and!; [done|apply ot_new_shape|rewrite ot_new_elems; constructor|].
  rewrite ot_new_elems. set_solver.
Qed.

Lemma tree_insert cmp x t X :
  tree_of cmp t X → (∀ y, y ∈ X → cmp x y ≠ 0) →
  ∃ t', ot_insert cmp x t = Some t' ∧ tree_of cmp t' (X ∪ {[x]}).
Proof.
  intros (Ho & Hs & Hi & HX) Hne.
  destruct (ot_insert_spec cmp x t Ho Hs Hi) as (t' & l1 & l2 & E & Hs' & E1 & E2 & Hi').
  { intros y Hy. by apply Hne, HX. }
  exists t'. split; [done|]. split_and!; [done..|]. intros y. rewrite E2.
  specialize (HX y). rewrite E1 in HX. set_solver.
Qed.

Lemma tree_remove cmp x t X :
  tree_of cmp t X → x ∈ X →
  ∃ t', ot_remove cmp x t = Some t' ∧ tree_of cmp t' (X ∖ {[x]}).
Proof.
  intros (Ho & Hs & Hi & HX) Hx.
  destruct (ot_remove_spec cmp x t Ho Hs Hi) as (t' & l1 & l2 & E & Hs' & E1 & E2 & Hi').
  { by apply HX. }
  exists t'. split; [done|]. split_and!; [done..|]. intros y. rewrite E2.
  pose proof (increasing_NoDup _ _ Ho Hi) as Hnd. rewrite E1 in Hnd.
  specialize (HX y). rewrite E1 in HX.
  apply NoDup_app in Hnd as (_ & Hd & [Hn2 _]%NoDup_cons).
  rewrite elem_of_difference, elem_of_singleton, <- HX, !elem_of_app, elem_of_cons.
  split; [|naive_solver]. intros Hy. split; [naive_solver|]. intros ->. naive_solver set_solver.
Qed.

(** The comparison may change as long as it keeps the order of the nodes. *)
Lemma tree_mono cmp cmp' t X :
  rb_order cmp' → (∀ x y, x ∈ X → y ∈ X → cmp x y < 0 → cmp' x y < 0) →
  tree_of cmp t X → tree_of cmp' t X.
Proof.
  intros Ho' Hm (Ho & Hs & Hi & HX). split_and!; [done|done| |done].
  assert (Hm' : ∀ x y, x ∈ ot_elems t → y ∈ ot_elems t → cmp x y < 0 → cmp' x y < 0).
  { intros x y Hx Hy. apply Hm; by apply HX. }
  clear HX Hm. induction (ot_elems t) as [|a l IH]; [constructor|].
  apply increasing_cons in Hi as [Ha Hi]. apply increasing_cons. split.
  - intros y Hy. apply Hm'; [set_solver..|by apply Ha].
  - apply IH; [done|]. intros x y Hx Hy. apply Hm'; set_solver.
Qed.

Lemma tree_eq cmp t X x y : tree_of cmp t X → x ∈ X → y ∈ X → cmp x y = 0 → x = y.
Proof.
  intros (Ho & _ & Hi & HX) Hx Hy. apply (increasing_neq cmp (ot_elems t)); [done..|by apply HX|by apply HX].
Qed.

(** [nsearch]: the first node that the key is not above. *)
Lemma tree_nsearch cmp kcmp t X :
  tree_of cmp t X → key_cut kcmp (ot_elems t) →
  match ot_nsearch kcmp t with
  | None => ∀ y, y ∈ X → 0 < kcmp y
  | Some e => e ∈ X ∧ kcmp e ≤ 0 ∧ ∀ y, y ∈ X → kcmp y ≤ 0 → y = e ∨ cmp e y < 0
  end.
Proof.
  intros (Ho & _ & Hi & HX) Hk. rewrite ot_nsearch_spec by done.
  destruct (head (filter _ _)) as [e|] eqn:E.
  - destruct (filter (λ e, kcmp e ≤ 0) (ot_elems t)) as [|e' l] eqn:Ef; [done|].
    injection E as ->.
    assert (He : e ∈ filter (λ e, kcmp e ≤ 0) (ot_elems t)) by (rewrite Ef; set_solver).
    apply list_elem_of_filter in He as [Hle He]. split_and!; [by apply HX|done|].
    intros y Hy Hyk.
    assert (Hyf : y ∈ filter (λ e, kcmp e ≤ 0) (ot_elems t)) by (apply list_elem_of_filter; split; [done|by apply HX]).
    assert (Hif : increasing cmp (filter (λ e, kcmp e ≤ 0) (ot_elems t))).
    { clear -Hi. induction (ot_elems t) as [|a l IH]; [constructor|].
      apply increasing_cons in Hi as [Ha Hi]. destruct (decide (kcmp a ≤ 0)).
      - rewrite filter_cons_True by done. apply increasing_cons. split; [|by apply IH].
        intros y [_ Hy]%list_elem_of_filter. by apply Ha.
      - rewrite filter_cons_False by done. by apply IH. }
    rewrite Ef in Hyf, Hif. apply increasing_cons in Hif as [He' _].
    apply elem_of_cons in Hyf as [->|Hyf]; [by left|right]. by apply He'.
  - intros y Hy. apply HX in Hy. destruct (Z_lt_ge_dec 0 (kcmp y)); [done|].
    assert (Hyf : y ∈ filter (λ e, kcmp e ≤ 0) (ot_elems t)) by (apply list_elem_of_filter; split; [lia|done]).
    destruct (filter _ _); [|done]. by apply elem_of_nil in Hyf.
Qed.

(** [search] finds the node the key equals. *)
Lemma tree_search cmp kcmp t X x :
  tree_of cmp t X → key_cut kcmp (ot_elems t) → x ∈ X → kcmp x = 0 → ot_search kcmp t = Some x.
Proof.
  intros (Ho & _ & Hi & HX) Hk Hx Hx0. apply HX in Hx. rewrite ot_search_spec by done.
  clear HX Hi. induction (ot_elems t) as [|a l IH]; [set_solver|].
  apply SSorted_cons in Hk as [Ha Hk]. destruct (decide (kcmp a = 0)) as [Ea|Hna].
  - rewrite filter_cons_True by done. simpl. f_equal.
    apply elem_of_cons in Hx as [->|Hx]; [done|]. specialize (Ha x Hx). lia.
  - rewrite filter_cons_False by done. apply elem_of_cons in Hx as [->|Hx]; [done|]. auto.
Qed.

Lemma tree_search_none cmp kcmp t X :
  tree_of cmp t X → key_cut kcmp (ot_elems t) → (∀ y, y ∈ X → kcmp y ≠ 0) → ot_search kcmp t = None.
Proof.
  intros (Ho & _ & Hi & HX) Hk Hn. rewrite ot_search_spec by done.
  rewrite filter_none; [done|]. intros y Hy. apply Hn, HX, Hy.
Qed.

(** [prev]: the greatest node below one. *)
Lemma tree_prev cmp x t X :
  tree_of cmp t X → x ∈ X →
  ∃ r, ot_prev cmp x t = Some r ∧
    match r with
    | None => ∀ y, y ∈ X → y = x ∨ cmp x y < 0
    | Some e => e ∈ X ∧ cmp e x < 0 ∧ ∀ y, y ∈ X → y = e ∨ cmp y e < 0 ∨ y = x ∨ cmp x y < 0
    end.
Proof.
  intros (Ho & _ & Hi & HX) Hx. apply HX in Hx. apply list_elem_of_split in Hx as (l1 & l2 & E).
  exists (last l1). rewrite (ot_prev_spec cmp l1 x l2) by done. split; [done|].
  rewrite E in Hi. apply increasing_app in Hi as (Hi1 & Hi2 & H12).
  apply increasing_cons in Hi2 as [Hx2 Hi2].
  destruct (last l1) as [e|] eqn:El.
  - apply last_Some in El as [l1' ->]. apply increasing_app in Hi1 as (_ & _ & H1).
    split_and!; [apply HX; rewrite E; set_solver|apply H12; set_solver|].
    intros y Hy. apply HX in Hy. rewrite E, <- app_assoc in Hy. simpl in Hy.
    apply elem_of_app in Hy as [Hy|[->|[->|Hy]%elem_of_cons]%elem_of_cons].
    + right; left. apply H1; set_solver.
    + by left.
    + by right; right; left.
    + right; right; right. by apply Hx2.
  - apply last_None in El as ->. intros y Hy. apply HX in Hy. rewrite E in Hy. simpl in Hy.
    apply elem_of_cons in Hy as [->|Hy]; [by left|right]. by apply Hx2.
Qed.

Lemma tree_first cmp t X :
  tree_of cmp t X →
  match ot_first t with
  | None => X = ∅
  | Some e => e ∈ X ∧ ∀ y, y ∈ X → y = e ∨ cmp e y < 0
  end.
Proof.
  intros (Ho & _ & Hi & HX). rewrite ot_first_spec. destruct (ot_elems t) as [|e l]; simpl.
  - apply set_eq. intros y. specialize (HX y). set_solver.
  - apply increasing_cons in Hi as [He _]. split; [apply HX; set_solver|].
    intros y Hy. apply HX in Hy. apply elem_of_cons in Hy as [->|Hy]; [by left|right; by apply He].
Qed.
End tree_of.
