(* ===== verification/Rb.v ===== *)
(** * Left-leaning 2-3 red-black trees ([jemalloc/internal/rb.h])

    [rb_gen] generates, for each node type, search, insertion and removal on
    trees whose colours live in the low bit of the right-child pointer.  The
    model is the tree the pointers form.  The path array the code fills on the
    way down and replays on the way up is the recursion of [insert_path] and
    [remove_path]; a [return] taken while unwinding is the result constructor
    that the levels above pass through unchanged.  The bound of that array (128
    entries) is not part of the model. *)

From S2P Require Import Prelude OrdTree.

(** ** Colour bit packing (the [RB_COMPACT] accessors)

    [rbn_right_red] is one machine word: the right-child pointer (even) with
    the colour in bit 0. *)
Module Compact.
Definition right_get (w : Z) : Z := Z.land w (-2).
Definition red_get (w : Z) : bool := negb (Z.land w 1 =? 0).
Definition right_set (w right : Z) : Z := Z.lor right (Z.land w 1).
Definition color_set (w : Z) (red : bool) : Z := Z.lor (Z.land w (-2)) (Z.b2z red).
Definition red_set (w : Z) : Z := Z.lor w 1.
Definition black_set (w : Z) : Z := Z.land w (-2).
End Compact.

(** ** Trees *)

Inductive rbt (A : Type) :=
  | Nil
  | Node (red : bool) (left : rbt A) (x : A) (right : rbt A).
Arguments Nil {A}.
Arguments Node {A} red left x right.

#[export] Instance rbt_eq_dec {A} `{EqDecision A} : EqDecision (rbt A).
Proof. solve_decision. Defined.

(** Outcome of one unwinding step of [insert]: the loop goes on, or returned. *)
Inductive unwound (A : Type) := Done (t : rbt A) | Continue (t : rbt A).
Arguments Done {A} t.
Arguments Continue {A} t.

(** Outcome of one unwinding step of [remove]: the tree is balanced and the
    function returned; the subtree lost one black level and the loop goes on;
    or the node to prune is this red leaf, which its parent unlinks. *)
Inductive removal (A : Type) := RDone (t : rbt A) | RShort (t : rbt A) | RRed.
Arguments RDone {A} t.
Arguments RShort {A} t.
Arguments RRed {A}.

Section ops.
Context {A : Type} `{EqDecision A}.
Implicit Types (t l r : rbt A) (x y node : A) (cmp : A → A → Z) (kcmp : A → Z).

(** The sentinel [rbt_nil] is black and is its own child. *)
Definition rbtn_left_get t : rbt A := match t with Nil => Nil | Node _ l _ _ => l end.
Definition rbtn_right_get t : rbt A := match t with Nil => Nil | Node _ _ _ r => r end.
Definition rbtn_red_get t : bool := match t with Nil => false | Node c _ _ _ => c end.

Definition rbtn_left_set t l' : option (rbt A) :=
  match t with Nil => None | Node c _ y r => Some (Node c l' y r) end.
Definition rbtn_right_set t r' : option (rbt A) :=
  match t with Nil => None | Node c l y _ => Some (Node c l y r') end.
Definition rbtn_color_set t (c' : bool) : option (rbt A) :=
  match t with Nil => None | Node _ l y r => Some (Node c' l y r) end.
Definition rbtn_red_set t : option (rbt A) := rbtn_color_set t true.
Definition rbtn_black_set t : rbt A :=
  match t with Nil => Nil | Node _ l y r => Node false l y r end.

Definition rbt_node_new node : rbt A := Node true Nil node Nil.

Definition rb_new : rbt A := Nil.

Fixpoint rbtn_first t : option A :=
  match t with
  | Nil => None
  | Node _ Nil y _ => Some y
  | Node _ l _ _ => rbtn_first l
  end.

Fixpoint rbtn_last t : option A :=
  match t with
  | Nil => None
  | Node _ _ y Nil => Some y
  | Node _ _ _ r => rbtn_last r
  end.

Definition rbtn_rotate_left t : option (rbt A) :=
  match t with
  | Node c a x (Node d b y e) => Some (Node d (Node c a x b) y e)
  | _ => None
  end.

Definition rbtn_rotate_right t : option (rbt A) :=
  match t with
  | Node c (Node d a x b) y e => Some (Node d a x (Node c b y e))
  | _ => None
  end.

Definition rb_first t : option A := rbtn_first t.
Definition rb_last t : option A := rbtn_last t.

(** The subtree under the node the caller holds a pointer to. *)
Fixpoint rb_subtree cmp node t : option (rbt A) :=
  match t with
  | Nil => None
  | Node _ l y r =>
      let k := cmp node y in
      if k <? 0 then rb_subtree cmp node l
      else if 0 <? k then rb_subtree cmp node r
      else Some t
  end.

(** The loop of [next] when [node] has no right child. *)
Fixpoint rb_next_walk cmp node t (ret : option A) : option (option A) :=
  match t with
  | Nil => None
  | Node _ l y r =>
      let k := cmp node y in
      if k <? 0 then rb_next_walk cmp node l (Some y)
      else if 0 <? k then rb_next_walk cmp node r ret
      else Some ret
  end.

Definition rb_next cmp node t : option (option A) :=
  s ← rb_subtree cmp node t;
  match rbtn_right_get s with
  | Nil => rb_next_walk cmp node t None
  | r => Some (rbtn_first r)
  end.

Fixpoint rb_prev_walk cmp node t (ret : option A) : option (option A) :=
  match t with
  | Nil => None
  | Node _ l y r =>
      let k := cmp node y in
      if k <? 0 then rb_prev_walk cmp node l ret
      else if 0 <? k then rb_prev_walk cmp node r (Some y)
      else Some ret
  end.

Definition rb_prev cmp node t : option (option A) :=
  s ← rb_subtree cmp node t;
  match rbtn_left_get s with
  | Nil => rb_prev_walk cmp node t None
  | l => Some (rbtn_last l)
  end.

Fixpoint rb_search kcmp t : option A :=
  match t with
  | Nil => None
  | Node _ l y r =>
      let k := kcmp y in
      if k =? 0 then Some y
      else if k <? 0 then rb_search kcmp l else rb_search kcmp r
  end.

Fixpoint rb_nsearch_loop kcmp t (ret : option A) : option A :=
  match t with
  | Nil => ret
  | Node _ l y r =>
      let k := kcmp y in
      if k <? 0 then rb_nsearch_loop kcmp l (Some y)
      else if 0 <? k then rb_nsearch_loop kcmp r ret
      else Some y
  end.

Definition rb_nsearch kcmp t : option A := rb_nsearch_loop kcmp t None.

Fixpoint rb_psearch_loop kcmp t (ret : option A) : option A :=
  match t with
  | Nil => ret
  | Node _ l y r =>
      let k := kcmp y in
      if k <? 0 then rb_psearch_loop kcmp l ret
      else if 0 <? k then rb_psearch_loop kcmp r (Some y)
      else Some y
  end.

Definition rb_psearch kcmp t : option A := rb_psearch_loop kcmp t None.

(** *** Insertion *)

(** [pathp->cmp < 0]: the new subtree is the left child of [cnode]. *)
Definition insert_unwind_left (c : bool) left y right : option (unwound A) :=
  let cnode := Node c left y right in
  if rbtn_red_get left then
    let leftleft := rbtn_left_get left in
    if rbtn_red_get leftleft then
      (* Fix up 4-node. *)
      left ← rbtn_left_set left (rbtn_black_set leftleft);
      cnode ← rbtn_left_set cnode left;
      tnode ← rbtn_rotate_right cnode;
      Some (Continue tnode)
    else Some (Continue cnode)
  else Some (Done cnode).

(** [pathp->cmp > 0]: the new subtree is the right child of [cnode]. *)
Definition insert_unwind_right (c : bool) left y right : option (unwound A) :=
  let cnode := Node c left y right in
  if rbtn_red_get right then
    if rbtn_red_get left then
      (* Split 4-node. *)
      Some (Continue (Node true (rbtn_black_set left) y (rbtn_black_set right)))
    else
      (* Lean left. *)
      let tred := c in
      cnode ← rbtn_red_set cnode;
      tnode ← rbtn_rotate_left cnode;
      tnode ← rbtn_color_set tnode tred;
      Some (Continue tnode)
  else Some (Done cnode).

Fixpoint insert_path cmp node t : option (unwound A) :=
  match t with
  | Nil => Some (Continue (rbt_node_new node))
  | Node c l y r =>
      let k := cmp node y in
      assert! negb (k =? 0);
      if k <? 0 then
        res ← insert_path cmp node l;
        match res with
        | Done l' => Some (Done (Node c l' y r))
        | Continue l' => insert_unwind_left c l' y r
        end
      else
        res ← insert_path cmp node r;
        match res with
        | Done r' => Some (Done (Node c l y r'))
        | Continue r' => insert_unwind_right c l y r'
        end
  end.

Definition rb_insert cmp node t : option (rbt A) :=
  res ← insert_path cmp node t;
  match res with
  | Done t' => Some t'
  | Continue t' => Some (rbtn_black_set t')
  end.

(** *** Removal *)

(** The left child [child] of [pathp->node] lost a black level. [root] says
    that [pathp == path]. *)
Definition remove_unwind_left (root c : bool) child y right : option (removal A) :=
  let pnode := Node c child y right in
  assert! negb (rbtn_red_get child);
  let rightleft := rbtn_left_get right in
  if c then
    tnode ← (if rbtn_red_get rightleft then
               let pnode := rbtn_black_set pnode in
               tnode ← rbtn_rotate_right right;
               pnode ← rbtn_right_set pnode tnode;
               rbtn_rotate_left pnode
             else rbtn_rotate_left pnode);
    assert! negb root;
    Some (RDone tnode)
  else if rbtn_red_get rightleft then
    right ← rbtn_left_set right (rbtn_black_set rightleft);
    tnode ← rbtn_rotate_right right;
    pnode ← rbtn_right_set pnode tnode;
    tnode ← rbtn_rotate_left pnode;
    Some (RDone tnode)
  else
    pnode ← rbtn_red_set pnode;
    tnode ← rbtn_rotate_left pnode;
    Some (RShort tnode).

(** The right child [child] of [pathp->node] lost a black level. *)
Definition remove_unwind_right (root c : bool) left y child : option (removal A) :=
  let pnode := Node c left y child in
  if rbtn_red_get left then
    let leftright := rbtn_right_get left in
    let leftrightleft := rbtn_left_get leftright in
    if rbtn_red_get leftrightleft then
      leftright ← rbtn_left_set leftright (rbtn_black_set leftrightleft);
      left ← rbtn_right_set left leftright;
      pnode ← rbtn_left_set pnode left;
      (* unode = rotate_right(pathp->node); tnode = rotate_right(pathp->node) *)
      unode ← rbtn_rotate_right pnode;
      tnode ← rbtn_rotate_right (rbtn_right_get unode);
      unode ← rbtn_right_set unode tnode;
      tnode ← rbtn_rotate_left unode;
      Some (RDone tnode)
    else
      leftright ← rbtn_red_set leftright;
      left ← rbtn_right_set left leftright;
      pnode ← rbtn_left_set pnode left;
      tnode ← rbtn_rotate_right pnode;
      Some (RDone (rbtn_black_set tnode))
  else
    let leftleft := rbtn_left_get left in
    if c then
      if rbtn_red_get leftleft then
        left ← rbtn_red_set left;
        left ← rbtn_left_set left (rbtn_black_set leftleft);
        pnode ← rbtn_left_set (rbtn_black_set pnode) left;
        tnode ← rbtn_rotate_right pnode;
        assert! negb root;
        Some (RDone tnode)
      else
        left ← rbtn_red_set left;
        pnode ← rbtn_left_set (rbtn_black_set pnode) left;
        Some (RDone pnode)
    else
      if rbtn_red_get leftleft then
        left ← rbtn_left_set left (rbtn_black_set leftleft);
        pnode ← rbtn_left_set pnode left;
        tnode ← rbtn_rotate_right pnode;
        Some (RDone tnode)
      else
        left ← rbtn_red_set left;
        pnode ← rbtn_left_set pnode left;
        Some (RShort pnode).

(** What [pathp->node] does with the outcome of its left subtree. *)
Definition remove_after_left (root c : bool) (res : removal A) y r : option (removal A) :=
  match res with
  | RDone l' => Some (RDone (Node c l' y r))
  | RRed => Some (RDone (Node c Nil y r))
  | RShort l' => remove_unwind_left root c l' y r
  end.

(** ... and of its right subtree; [assert(pathp[-1].cmp < 0)] fails when the
    pruned red node is a right child. *)
Definition remove_after_right (root c : bool) l y (res : removal A) : option (removal A) :=
  match res with
  | RDone r' => Some (RDone (Node c l y r'))
  | RRed => None
  | RShort r' => remove_unwind_right root c l y r'
  end.

(** Unlinks the leftmost node, which is swapped with the node to remove.  Its
    children are dropped with it. *)
Fixpoint remove_successor t : option (A * removal A) :=
  match t with
  | Nil => None
  | Node c l y r =>
      match l with
      | Nil => Some (y, if c then RRed else RShort Nil)
      | _ =>
          '(m, res) ← remove_successor l;
          res' ← remove_after_left false c res y r;
          Some (m, res')
      end
  end.

Fixpoint remove_path (root : bool) cmp node t : option (removal A) :=
  match t with
  | Nil => None
  | Node c l y r =>
      let k := cmp node y in
      if k <? 0 then
        res ← remove_path false cmp node l;
        remove_after_left root c res y r
      else if 0 <? k then
        res ← remove_path false cmp node r;
        remove_after_right root c l y res
      else
        assert! bool_decide (y = node);
        match r with
        | Node _ _ _ _ =>
            (* Swap node with its successor. *)
            '(m, res) ← remove_successor r;
            remove_after_right root c l m res
        | Nil =>
            match l with
            | Node _ _ _ _ =>
                (* node has no successor, but it has a left child. *)
                assert! negb c;
                assert! rbtn_red_get l;
                Some (RDone (rbtn_black_set l))
            | Nil =>
                (* The tree only contained one node, or prune a leaf. *)
                if root then Some (RDone Nil)
                else if c then Some RRed
                else Some (RShort Nil)
            end
        end
  end.

Definition rb_remove cmp node t : option (rbt A) :=
  res ← remove_path true cmp node t;
  match res with
  | RDone t' => Some t'
  | RShort t' => assert! negb (rbtn_red_get t'); Some t'
  | RRed => None
  end.

(** *** Iteration: the callback may stop the walk by returning a node. *)

Section iter.
Context {S : Type} (cb : S → A → S * option A).

Fixpoint rb_iter_recurse t (s : S) : S * option A :=
  match t with
  | Nil => (s, None)
  | Node _ l y r =>
      let '(s, ret) := rb_iter_recurse l s in
      match ret with
      | Some _ => (s, ret)
      | None =>
          let '(s, ret) := cb s y in
          match ret with
          | Some _ => (s, ret)
          | None => rb_iter_recurse r s
          end
      end
  end.

Fixpoint rb_iter_start cmp start t (s : S) : S * option A :=
  match t with
  | Nil => (s, None)
  | Node _ l y r =>
      let k := cmp start y in
      if k <? 0 then
        let '(s, ret) := rb_iter_start cmp start l s in
        match ret with
        | Some _ => (s, ret)
        | None =>
            let '(s, ret) := cb s y in
            match ret with
            | Some _ => (s, ret)
            | None => rb_iter_recurse r s
            end
        end
      else if 0 <? k then rb_iter_start cmp start r s
      else
        let '(s, ret) := cb s y in
        match ret with
        | Some _ => (s, ret)
        | None => rb_iter_recurse r s
        end
  end.

Definition rb_iter cmp (start : option A) t (s : S) : S * option A :=
  match start with
  | Some n => rb_iter_start cmp n t s
  | None => rb_iter_recurse t s
  end.

Fixpoint rb_reverse_iter_recurse t (s : S) : S * option A :=
  match t with
  | Nil => (s, None)
  | Node _ l y r =>
      let '(s, ret) := rb_reverse_iter_recurse r s in
      match ret with
      | Some _ => (s, ret)
      | None =>
          let '(s, ret) := cb s y in
          match ret with
          | Some _ => (s, ret)
          | None => rb_reverse_iter_recurse l s
          end
      end
  end.

Fixpoint rb_reverse_iter_start cmp start t (s : S) : S * option A :=
  match t with
  | Nil => (s, None)
  | Node _ l y r =>
      let k := cmp start y in
      if 0 <? k then
        let '(s, ret) := rb_reverse_iter_start cmp start r s in
        match ret with
        | Some _ => (s, ret)
        | None =>
            let '(s, ret) := cb s y in
            match ret with
            | Some _ => (s, ret)
            | None => rb_reverse_iter_recurse l s
            end
        end
      else if k <? 0 then rb_reverse_iter_start cmp start l s
      else
        let '(s, ret) := cb s y in
        match ret with
        | Some _ => (s, ret)
        | None => rb_reverse_iter_recurse l s
        end
  end.

Definition rb_reverse_iter cmp (start : option A) t (s : S) : S * option A :=
  match start with
  | Some n => rb_reverse_iter_start cmp n t s
  | None => rb_reverse_iter_recurse t s
  end.
End iter.

(** *** Contents and shape *)

Fixpoint elements t : list A :=
  match t with Nil => [] | Node _ l y r => elements l ++ y :: elements r end.

(** [llrb c n t]: colour [c] at the root, [n] black levels on every path, red
    links lean left and are never consecutive. *)
Inductive llrb : bool → nat → rbt A → Prop :=
  | llrb_nil : llrb false 0 Nil
  | llrb_red n l y r : llrb false n l → llrb false n r → llrb true n (Node true l y r)
  | llrb_black c n l y r :
      llrb c n l → llrb false n r → llrb false (S n) (Node false l y r).

Definition rb_shape t : Prop := ∃ n, llrb false n t.
End ops.
#[export] Hint Constructors llrb : nv.

(** ** Correctness of insertion *)

Section insert_facts.
Context {A : Type}.
Implicit Types (t l r : rbt A) (x y node : A) (cmp : A → A → Z).

Definition uelems (u : unwound A) : list A :=
  match u with Done t | Continue t => elements t end.

(** What one level of unwinding leaves: the same colour and black height when
    the loop returned; otherwise a valid tree of either colour, or, only under
    a red node, a red node whose left child is red. *)
Inductive ins_ok (c : bool) (n : nat) : unwound A → Prop :=
  | ins_done t : llrb c n t → ins_ok c n (Done t)
  | ins_continue c' t : llrb c' n t → ins_ok c n (Continue t)
  | ins_4node l y r :
      c = true → llrb true n l → llrb false n r → ins_ok c n (Continue (Node true l y r)).

Lemma llrb_color c n t : llrb c n t → rbtn_red_get t = c.
Proof. by inversion 1. Qed.

Lemma llrb_blacken c n t : llrb c n t → ∃ m, llrb false m (rbtn_black_set t).
Proof. inversion 1; simplify_eq/=; eauto with nv. Qed.

Lemma elements_black_set t : elements (rbtn_black_set t) = elements t.
Proof. by destruct t. Qed.

Lemma insert_unwind_left_elems c l y r res :
  insert_unwind_left c l y r = Some res → uelems res = elements l ++ y :: elements r.
Proof.
  unfold insert_unwind_left. intros H.
  destruct l as [|[] [|[] ll lx lr] z lr']; simplify_eq/=; by rewrite <- ?app_assoc.
Qed.

Lemma insert_unwind_right_elems c l y r res :
  insert_unwind_right c l y r = Some res → uelems res = elements l ++ y :: elements r.
Proof.
  unfold insert_unwind_right. intros H.
  destruct r as [|[] rl rx rr], l as [|[] ll lx lr]; simplify_eq/=; by rewrite <- ?app_assoc.
Qed.

Lemma insert_unwind_left_red n l' y r :
  ins_ok false n (Continue l') → llrb false n r →
  ∃ res, insert_unwind_left true l' y r = Some res ∧ ins_ok true n res.
Proof.
  intros Hl Hr. inversion Hl as [|c' t Ht|]; subst; [|done].
  unfold insert_unwind_left. rewrite (llrb_color _ _ _ Ht). destruct c'.
  - inversion Ht as [|? ll ? ? Hll|]; subst; simpl. rewrite (llrb_color _ _ _ Hll).
    eexists; split; [done|]. by apply ins_4node.
  - eexists; split; [done|]. eauto using ins_ok with nv.
Qed.

Lemma insert_unwind_left_black cl n l' y r :
  ins_ok cl n (Continue l') → llrb false n r →
  ∃ res, insert_unwind_left false l' y r = Some res ∧ ins_ok false (S n) res.
Proof.
  intros Hl Hr. inversion Hl as [|c' t Ht|l0 y0 r0 Ec Hl0 Hr0]; subst.
  - unfold insert_unwind_left. rewrite (llrb_color _ _ _ Ht). destruct c'.
    + inversion Ht as [|? ll ? ? Hll|]; subst; simpl. rewrite (llrb_color _ _ _ Hll).
      eexists; split; [done|]. eauto using ins_ok with nv.
    + eexists; split; [done|]. eauto using ins_ok with nv.
  - unfold insert_unwind_left; simpl. rewrite (llrb_color _ _ _ Hl0).
    inversion Hl0; subst; simpl. eexists; split; [done|]. eauto using ins_ok with nv.
Qed.

Lemma insert_unwind_right_ok c cl n l y r' :
  llrb cl n l → (c = true → cl = false) → ins_ok false n (Continue r') →
  ∃ res, insert_unwind_right c l y r' = Some res ∧
    ins_ok c (if c then n else S n) res.
Proof.
  intros Hl Hc Hr. inversion Hr as [|c' t Ht|]; subst; [|done].
  unfold insert_unwind_right. rewrite (llrb_color _ _ _ Ht), (llrb_color _ _ _ Hl).
  destruct c'; [destruct cl|].
  - assert (c = false) as -> by (destruct c; naive_solver).
    inversion Hl; inversion Ht; subst; simpl. eexists; split; [done|]. eauto using ins_ok with nv.
  - inversion Ht; subst; simpl. eexists; split; [done|].
    destruct c; [apply ins_4node|]; eauto using ins_ok with nv.
  - eexists; split; [done|]. destruct c; [rewrite Hc in Hl by done|]; eauto using ins_ok with nv.
Qed.

Lemma insert_path_ok cmp node c n t :
  llrb c n t → (∀ y, y ∈ elements t → cmp node y ≠ 0) →
  ∃ res, insert_path cmp node t = Some res ∧ ins_ok c n res.
Proof.
  induction 1 as [|n l y r Hl IHl Hr IHr|c n l y r Hl IHl Hr IHr]; intros Hne; simpl in *.
  { eexists; split; [done|]. eauto using ins_ok with nv. }
  all: destruct IHl as (resl & El & Okl); [set_solver|];
    destruct IHr as (resr & Er & Okr); [set_solver|];
    assert (cmp node y ≠ 0) by set_solver;
    destruct (Z.eqb_spec (cmp node y) 0) as [|_]; [done|]; simpl;
    destruct (cmp node y <? 0).
  - rewrite El; simpl. destruct resl as [l'|l'].
    + inversion Okl; subst. eauto using ins_ok with nv.
    + by apply insert_unwind_left_red.
  - rewrite Er; simpl. destruct resr as [r'|r'].
    + inversion Okr; subst. eauto using ins_ok with nv.
    + by apply (insert_unwind_right_ok true false).
  - rewrite El; simpl. destruct resl as [l'|l'].
    + inversion Okl; subst. eauto using ins_ok with nv.
    + by eapply insert_unwind_left_black.
  - rewrite Er; simpl. destruct resr as [r'|r'].
    + inversion Okr; subst. eauto using ins_ok with nv.
    + by apply (insert_unwind_right_ok false c).
Qed.

(** Where the new node lands among the contents. *)
Lemma insert_path_elems cmp node t res :
  rb_order cmp → increasing cmp (elements t) → insert_path cmp node t = Some res →
  ∃ (l1 l2 : list A), elements t = l1 ++ l2 ∧ uelems res = l1 ++ node :: l2 ∧
    (∀ y, y ∈ l1 → cmp y node < 0) ∧ (∀ y, y ∈ l2 → cmp node y < 0).
Proof.
  intros Ho. revert res. induction t as [|c l IHl y r IHr]; intros res Hs H; simpl in *.
  { simplify_eq/=. exists [], []. set_solver. }
  apply increasing_app in Hs as (Hsl & Hsr & Hlr). apply increasing_cons in Hsr as [Hyr Hsr].
  apply assert_Some in H as [Hk H]. destruct (Z.ltb_spec (cmp node y) 0) as [Hlt|Hge].
  - destruct (insert_path cmp node l) as [resl|] eqn:El; [|done]. simpl in H.
    destruct (IHl resl Hsl eq_refl) as (l1 & l2 & E1 & E2 & H1 & H2).
    exists l1, (l2 ++ y :: elements r). rewrite E1, <- app_assoc. split; [done|].
    assert (uelems res = uelems resl ++ y :: elements r) as ->.
    { destruct resl; [by simplify_eq|by apply insert_unwind_left_elems in H]. }
    rewrite E2, <- app_assoc. split_and!; [done|done|].
    intros z [?|[->|Hz]%elem_of_cons]%elem_of_app; [by auto|done|].
    by apply (ro_trans _ Ho _ y); auto.
  - destruct (insert_path cmp node r) as [resr|] eqn:Er; [|done]. simpl in H.
    destruct (IHr resr Hsr eq_refl) as (l1 & l2 & E1 & E2 & H1 & H2).
    exists (elements l ++ y :: l1), l2. rewrite E1, <- app_assoc. split; [done|].
    assert (uelems res = elements l ++ y :: uelems resr) as ->.
    { destruct resr; [by simplify_eq|by apply insert_unwind_right_elems in H]. }
    rewrite E2, <- app_assoc. split_and!; [done| |done].
    assert (cmp y node < 0). { apply ro_gt; [done|]. destruct (Z.eqb_spec (cmp node y) 0); [done|lia]. }
    intros z [Hz|[->|Hz]%elem_of_cons]%elem_of_app; [|done|by auto].
    apply (ro_trans _ Ho _ y); [|done]. apply Hlr; set_solver.
Qed.

Lemma rb_insert_correct cmp x t :
  rb_order cmp → rb_shape t → increasing cmp (elements t) →
  (∀ y, y ∈ elements t → cmp x y ≠ 0) →
  ∃ t' (l1 l2 : list A), rb_insert cmp x t = Some t' ∧ rb_shape t' ∧
    elements t = l1 ++ l2 ∧ elements t' = l1 ++ x :: l2 ∧ increasing cmp (elements t').
Proof.
  intros Ho [n Hn] Hs Hne.
  destruct (insert_path_ok cmp x _ _ _ Hn Hne) as (res & E & Hok).
  destruct (insert_path_elems cmp x t res Ho Hs E) as (l1 & l2 & E1 & E2 & H1 & H2).
  unfold rb_insert. rewrite E; simpl.
  exists (match res with Done t' => t' | Continue t' => rbtn_black_set t' end), l1, l2.
  assert (elements (match res with Done t' => t' | Continue t' => rbtn_black_set t' end)
          = l1 ++ x :: l2) as E3.
  { destruct res; [done|]. by rewrite elements_black_set. }
  split_and!; [by destruct res| |done|done|].
  - inversion Hok as [t' Ht|c' t' Ht|l y r Ec Hl Hr]; subst; [by exists n| |done].
    destruct (llrb_blacken _ _ _ Ht) as [m ?]. by exists m.
  - rewrite E3. rewrite E1 in Hs. apply increasing_app in Hs as (?&?&?).
    apply increasing_app. split_and!; [done|by apply increasing_cons|].
    intros a b Ha [->|?]%elem_of_cons; auto.
Qed.
End insert_facts.

(** ** Correctness of removal *)

Section remove_facts.
Context {A : Type} `{EqDecision A}.
Implicit Types (t l r left right child : rbt A) (x y node : A) (cmp : A → A → Z).
Implicit Types (res : removal A) (root c : bool) (n : nat).

Definition relems res : list A :=
  match res with RDone t | RShort t => elements t | RRed => [] end.

(** What one level of unwinding leaves of a subtree of colour [c] and black
    height [n]. *)
Inductive rem_ok c n : removal A → Prop :=
  | rem_done c' t : (c = false → c' = false) → llrb c' n t → rem_ok c n (RDone t)
  | rem_short m t : c = false → n = S m → llrb false m t → rem_ok c n (RShort t)
  | rem_red : c = true → n = 0%nat → rem_ok c n RRed.
Hint Constructors rem_ok : nv.

Ltac llrb_build :=
  lazymatch goal with
  | |- llrb _ _ Nil => constructor
  | |- llrb _ _ (Node true _ _ _) => apply llrb_red; llrb_build
  | |- llrb _ _ (Node false _ _ _) => eapply llrb_black; llrb_build
  | _ => eassumption
  end.

Ltac rem_build :=
  lazymatch goal with
  | |- rem_ok _ _ (RDone _) => eapply rem_done; [|llrb_build]; done
  | |- rem_ok _ _ (RShort _) => eapply rem_short; [done|done|llrb_build]
  | |- rem_ok _ _ RRed => by constructor
  end.

Ltac rem_solve := eexists; split; [done|]; split; [rem_build|]; simpl;
  repeat (rewrite <- app_assoc; simpl); done.

Lemma remove_unwind_left_ok root c n child y right :
  llrb false n child → llrb false (S n) right → (root = true → c = false) →
  ∃ res, remove_unwind_left root c child y right = Some res ∧
    rem_ok c (if c then S n else S (S n)) res ∧
    relems res = elements child ++ y :: elements right.
Proof.
  intros Hc Hr Hroot. unfold remove_unwind_left. rewrite (llrb_color _ _ _ Hc); simpl.
  inversion Hr as [| |rlc ? rl ry rr Hrl Hrr]; subst; simpl.
  rewrite (llrb_color _ _ _ Hrl).
  destruct c; [destruct root; [by specialize (Hroot eq_refl)|]|]; destruct rlc;
    try (inversion Hrl; subst); simpl; rem_solve.
Qed.

Lemma remove_unwind_right_ok root c cl n left y child :
  llrb cl (S n) left → (c = true → cl = false) → llrb false n child →
  (root = true → c = false) →
  ∃ res, remove_unwind_right root c left y child = Some res ∧
    rem_ok c (if c then S n else S (S n)) res ∧
    relems res = elements left ++ y :: elements child.
Proof.
  intros Hl Hcl Hc Hroot. unfold remove_unwind_right. rewrite (llrb_color _ _ _ Hl).
  destruct cl.
  - (* the left sibling is red *)
    destruct c; [by specialize (Hcl eq_refl)|].
    inversion Hl as [|? ll lx lr Hll Hlr|]; subst; simpl.
    inversion Hlr as [| |lrlc ? lrl lrx lrr Hlrl Hlrr]; subst; simpl.
    rewrite (llrb_color _ _ _ Hlrl). destruct lrlc; [inversion Hlrl; subst|]; simpl; rem_solve.
  - inversion Hl as [| |llc ? ll lx lr Hll Hlr]; subst; simpl.
    rewrite (llrb_color _ _ _ Hll).
    destruct c, llc; try (inversion Hll; subst); simpl;
      try (destruct root; [by specialize (Hroot eq_refl)|]; simpl); rem_solve.
Qed.

Lemma remove_after_left_ok root c cl n res y r :
  rem_ok cl n res → llrb false n r → (c = true → cl = false) → (root = true → c = false) →
  ∃ res', remove_after_left root c res y r = Some res' ∧
    rem_ok c (if c then n else S n) res' ∧ relems res' = relems res ++ y :: elements r.
Proof.
  intros Hres Hr Hc Hroot. destruct Hres as [c' t Hc' Ht|m t -> -> Ht| -> ->]; simpl.
  - eexists; split; [done|]. split; [|done].
    destruct c; [assert (c' = false) as -> by auto|]; eauto with nv.
  - by apply remove_unwind_left_ok.
  - destruct c; [by specialize (Hc eq_refl)|]. eexists; split; [done|]. split; [eauto with nv|done].
Qed.

Lemma remove_after_right_ok root c cl n l y res :
  llrb cl n l → rem_ok false n res → (c = true → cl = false) → (root = true → c = false) →
  ∃ res', remove_after_right root c l y res = Some res' ∧
    rem_ok c (if c then n else S n) res' ∧ relems res' = elements l ++ y :: relems res.
Proof.
  intros Hl Hres Hc Hroot. destruct Hres as [c' t Hc' Ht|m t _ -> Ht|? _]; simpl; [| |done].
  - rewrite Hc' in Ht by done. eexists; split; [done|]. split; [|done].
    destruct c; [rewrite Hc in Hl by done|]; eauto with nv.
  - by eapply remove_unwind_right_ok.
Qed.

Lemma remove_successor_node c l y r :
  l ≠ Nil →
  remove_successor (Node c l y r) =
    '(m, res) ← remove_successor l; res' ← remove_after_left false c res y r; Some (m, res').
Proof. by destruct l. Qed.

Lemma remove_successor_ok c n t :
  llrb c n t → t ≠ Nil →
  ∃ m res, remove_successor t = Some (m, res) ∧ rem_ok c n res ∧ elements t = m :: relems res.
Proof.
  induction 1 as [|n l y r Hl IHl Hr IHr|c n l y r Hl IHl Hr IHr]; intros Hnn; [done|..];
    (destruct (decide (l = Nil)) as [->|Hne];
      [inversion Hl; subst; inversion Hr; subst; simpl; eauto 10 with nv|]);
    destruct (IHl Hne) as (m & res & E & Hok & El);
    rewrite remove_successor_node, E by done; simpl.
  - destruct (remove_after_left_ok false true false n res y r) as (res' & E' & Hok' & El'); auto.
    rewrite E', El. eexists _, _; split; [done|]. split; [done|]. by rewrite El'.
  - destruct (remove_after_left_ok false false c n res y r) as (res' & E' & Hok' & El'); auto; [done|].
    rewrite E', El. eexists _, _; split; [done|]. split; [done|]. by rewrite El'.
Qed.

Lemma remove_path_ok root cmp x c n t :
  rb_order cmp → llrb c n t → increasing cmp (elements t) → x ∈ elements t →
  (root = true → c = false) →
  ∃ res (l1 l2 : list A), remove_path root cmp x t = Some res ∧
    (rem_ok c n res ∨ root = true ∧ res = RDone Nil) ∧
    elements t = l1 ++ x :: l2 ∧ relems res = l1 ++ l2.
Proof.
  intros Ho Ht. revert root.
  induction Ht as [|n l y r Hl IHl Hr IHr|c n l y r Hl IHl Hr IHr]; intros root Hs Hx Hroot;
    simpl in *; [set_solver| |].
  all: apply increasing_app in Hs as (Hsl & Hsr & Hlr); apply increasing_cons in Hsr as [Hyr Hsr].
  all: assert (x ∈ elements l ∧ cmp x y < 0 ∨ x = y ∨ x ∈ elements r ∧ 0 < cmp x y) as Hcase
    by (apply elem_of_app in Hx as [?|[->|?]%elem_of_cons];
        [left; split; [done|]; apply Hlr; set_solver|by auto|
         right; right; split; [done|]; by apply (ro_anti _ Ho), Hyr]).
  - destruct root; [by specialize (Hroot eq_refl)|]. destruct Hcase as [[Hin Hlt]|[->|[Hin Hgt]]].
    + rewrite (proj2 (Z.ltb_lt _ _) Hlt).
      destruct (IHl false) as (res & l1 & l2 & E & [Hok|[? _]] & E1 & E2); auto; [|done].
      rewrite E; simpl.
      destruct (remove_after_left_ok false true false n res y r) as (res' & E' & Hok' & El'); auto.
      exists res', l1, (l2 ++ y :: elements r). rewrite E1, El', E2, <- !app_assoc. auto.
    + rewrite ro_refl by done; simpl. rewrite bool_decide_true by done. simpl.
      destruct r as [|rc rl rx rr].
      * inversion Hr; subst. inversion Hl; subst. exists RRed, [], []. eauto 10 with nv.
      * destruct (remove_successor_ok _ _ _ Hr) as (m & res & E & Hok & Em); [done|].
        rewrite E; cbn [mbind option_bind].
        destruct (remove_after_right_ok false true false n l m res) as (res' & E' & Hok' & El'); auto.
        rewrite E'. exists res', (elements l), (elements (Node rc rl rx rr)).
        split_and!; [done|by left|done|]. by rewrite El', Em.
    + rewrite (proj2 (Z.ltb_ge _ _)) by lia. rewrite (proj2 (Z.ltb_lt _ _) Hgt).
      destruct (IHr false) as (res & l1 & l2 & E & [Hok|[? _]] & E1 & E2); auto; [|done].
      rewrite E; simpl.
      destruct (remove_after_right_ok false true false n l y res) as (res' & E' & Hok' & El'); auto.
      exists res', (elements l ++ y :: l1), l2. rewrite E1, El', E2, <- !app_assoc. auto.
  - destruct Hcase as [[Hin Hlt]|[->|[Hin Hgt]]].
    + rewrite (proj2 (Z.ltb_lt _ _) Hlt).
      destruct (IHl false) as (res & l1 & l2 & E & [Hok|[? _]] & E1 & E2); auto; [done| |done].
      rewrite E; simpl.
      destruct (remove_after_left_ok root false c n res y r) as (res' & E' & Hok' & El'); auto; [done|].
      exists res', l1, (l2 ++ y :: elements r). rewrite E1, El', E2, <- !app_assoc. auto.
    + rewrite ro_refl by done; simpl. rewrite bool_decide_true by done. simpl.
      destruct r as [|rc rl rx rr].
      * inversion Hr; subst. destruct l as [|lc ll lx lr].
        { destruct root.
          - exists (RDone Nil), [], []. auto.
          - exists (RShort Nil), [], []. split_and!; [done|left; rem_build|done|done]. }
        inversion Hl; subst; simpl.
        exists (RDone (Node false ll lx lr)), (elements ll ++ lx :: elements lr), [].
        rewrite app_nil_r. split_and!; [done|left; rem_build|done|done].
      * destruct (remove_successor_ok _ _ _ Hr) as (m & res & E & Hok & Em); [done|].
        rewrite E; cbn [mbind option_bind].
        destruct (remove_after_right_ok root false c n l m res) as (res' & E' & Hok' & El'); auto; [done|].
        rewrite E'. exists res', (elements l), (elements (Node rc rl rx rr)).
        split_and!; [done|by left|done|]. by rewrite El', Em.
    + rewrite (proj2 (Z.ltb_ge _ _)) by lia. rewrite (proj2 (Z.ltb_lt _ _) Hgt).
      destruct (IHr false) as (res & l1 & l2 & E & [Hok|[? _]] & E1 & E2); auto; [|done].
      rewrite E; simpl.
      destruct (remove_after_right_ok root false c n l y res) as (res' & E' & Hok' & El'); auto; [done|].
      exists res', (elements l ++ y :: l1), l2. rewrite E1, El', E2, <- !app_assoc. auto.
Qed.

Lemma rb_remove_correct cmp x t :
  rb_order cmp → rb_shape t → increasing cmp (elements t) → x ∈ elements t →
  ∃ t' (l1 l2 : list A), rb_remove cmp x t = Some t' ∧ rb_shape t' ∧
    elements t = l1 ++ x :: l2 ∧ elements t' = l1 ++ l2 ∧ increasing cmp (elements t').
Proof.
  intros Ho [n Hn] Hs Hx.
  destruct (remove_path_ok true cmp x _ _ _ Ho Hn Hs Hx) as (res & l1 & l2 & E & Hok & E1 & E2);
    [done|].
  unfold rb_remove. rewrite E; simpl.
  assert (increasing cmp (l1 ++ l2)) by (rewrite E1 in Hs; by apply increasing_split in Hs).
  assert (∃ t', match res with RDone t' => Some t'
     | RShort t' => assert! negb (rbtn_red_get t'); Some t' | RRed => None end = Some t' ∧
     rb_shape t' ∧ elements t' = l1 ++ l2) as (t' & Et & Hsh & Ee).
  { revert E2. destruct Hok as [[c' t' Hc Ht|m t' _ -> Ht|? _]|[_ ->]]; simpl; intros E2.
    - exists t'. rewrite Hc in Ht by done. split_and!; [done|by exists n|done].
    - exists t'. rewrite (llrb_color _ _ _ Ht). split_and!; [done|by exists m|done].
    - done.
    - exists Nil. split_and!; [done|exists 0%nat; constructor|done]. }
  exists t', l1, l2. rewrite Ee. auto.
Qed.
End remove_facts.

(** ** Searches *)

Section search_facts.
Context {A : Type}.
Implicit Types (t s : rbt A) (x y node : A) (cmp : A → A → Z) (kcmp : A → Z).

Ltac cut_cases Hk :=
  apply SSorted_app in Hk as (Hkl & Hkr & Hklr); apply SSorted_cons in Hkr as [Hky Hkr].

Lemma rb_nsearch_loop_spec kcmp t ret :
  key_cut kcmp (elements t) →
  rb_nsearch_loop kcmp t ret =
    match head (filter (λ e, kcmp e ≤ 0) (elements t)) with Some e => Some e | None => ret end.
Proof.
  revert ret. induction t as [|c l IHl y r IHr]; intros ret Hk; [done|]; simpl in *.
  cut_cases Hk. rewrite filter_app, head_app_default.
  destruct (Z.ltb_spec (kcmp y) 0).
  - rewrite IHl, filter_cons_True by (done || lia). by destruct (head _).
  - rewrite (filter_none _ (elements l)).
    2:{ intros e He ?. assert (kcmp y < 0) by (apply (Hklr e); set_solver). lia. }
    simpl. destruct (Z.ltb_spec 0 (kcmp y)).
    + rewrite IHr, filter_cons_False by (done || lia). done.
    + rewrite filter_cons_True by lia. done.
Qed.

Lemma rb_psearch_loop_spec kcmp t ret :
  key_cut kcmp (elements t) →
  rb_psearch_loop kcmp t ret =
    match last (filter (λ e, 0 ≤ kcmp e) (elements t)) with Some e => Some e | None => ret end.
Proof.
  revert ret. induction t as [|c l IHl y r IHr]; intros ret Hk; [done|]; simpl in *.
  cut_cases Hk. rewrite filter_app, last_app_default.
  destruct (Z.ltb_spec (kcmp y) 0).
  - rewrite filter_cons_False by lia. rewrite (filter_none _ (elements r)).
    2:{ intros e He ?. assert (kcmp e < 0) by (apply Hky; [done|lia]). lia. }
    by rewrite IHl.
  - rewrite filter_cons_True by lia. destruct (Z.ltb_spec 0 (kcmp y)).
    + rewrite IHr, last_cons by done. by destruct (last (filter _ (elements r))).
    + rewrite (filter_none _ (elements r)); [done|].
      intros e He ?. assert (kcmp e < 0) by (apply Hky; [done|lia]). lia.
Qed.

Lemma rb_search_spec kcmp t :
  key_cut kcmp (elements t) →
  rb_search kcmp t = head (filter (λ e, kcmp e = 0) (elements t)).
Proof.
  induction t as [|c l IHl y r IHr]; intros Hk; [done|]; simpl in *.
  cut_cases Hk. rewrite filter_app, head_app_default.
  destruct (Z.eqb_spec (kcmp y) 0) as [Ey|Ey].
  - rewrite (filter_none _ (elements l)); [by rewrite filter_cons_True|].
    intros e He ?. assert (kcmp y < 0) by (apply (Hklr e); [set_solver..|lia]). lia.
  - rewrite filter_cons_False by done. destruct (Z.ltb_spec (kcmp y) 0).
    + rewrite (filter_none _ (elements r)); [rewrite IHl by done; by destruct (head _)|].
      intros e He ?. assert (kcmp e < 0) by (apply Hky; [done|lia]). lia.
    + rewrite (filter_none _ (elements l)); [by rewrite IHr|].
      intros e He ?. assert (kcmp y < 0) by (apply (Hklr e); [set_solver..|lia]). lia.
Qed.

Lemma elements_nil t : elements t = [] → t = Nil.
Proof. destruct t as [|c l y r]; [done|]. simpl. by destruct (elements l). Qed.

Lemma rbtn_first_spec t : rbtn_first t = head (elements t).
Proof.
  induction t as [|c l IHl y r _]; [done|]. simpl. rewrite head_app_default, <- IHl.
  destruct l as [|lc ll lx lr] eqn:El; [done|]. rewrite <- El in *.
  destruct (rbtn_first l) eqn:Ef; [done|].
  destruct (elements l) eqn:Ee; [|done]. apply elements_nil in Ee. congruence.
Qed.

Lemma rbtn_last_spec t : rbtn_last t = last (elements t).
Proof.
  induction t as [|c l _ y r IHr]; [done|]. simpl. rewrite last_app_default.
  rewrite last_cons, <- IHr. destruct r as [|rc rl rx rr] eqn:Er; [done|].
  rewrite <- Er in *. destruct (rbtn_last r) eqn:Ef; [done|].
  symmetry in IHr. apply last_None, elements_nil in IHr. congruence.
Qed.

Lemma first_or {B} t (f : option A → B) (k : B) :
  match t with Nil => k | Node c l y r => f (rbtn_first (Node c l y r)) end =
  match head (elements t) with Some e => f (Some e) | None => k end.
Proof.
  destruct t as [|c l y r]; [done|]. rewrite rbtn_first_spec.
  destruct (head (elements (Node c l y r))) eqn:E; [done|].
  simpl in E. by destruct (elements l).
Qed.

Lemma last_or {B} t (f : option A → B) (k : B) :
  match t with Nil => k | Node c l y r => f (rbtn_last (Node c l y r)) end =
  match last (elements t) with Some e => f (Some e) | None => k end.
Proof.
  destruct t as [|c l y r]; [done|]. rewrite rbtn_last_spec.
  destruct (last (elements (Node c l y r))) eqn:E; [done|].
  apply last_None, elements_nil in E. done.
Qed.

(** The position of a node in the tree and in the listing. *)
Lemma rb_locate cmp x t :
  rb_order cmp → increasing cmp (elements t) → x ∈ elements t →
  ∃ c sl sr (a b : list A),
    rb_subtree cmp x t = Some (Node c sl x sr) ∧
    elements t = a ++ (elements sl ++ x :: elements sr) ++ b ∧
    (∀ ret, rb_next_walk cmp x t ret = Some (match head b with Some e => Some e | None => ret end)) ∧
    (∀ ret, rb_prev_walk cmp x t ret = Some (match last a with Some e => Some e | None => ret end)).
Proof.
  intros Ho. induction t as [|c l IHl y r IHr]; intros Hs Hx; simpl in *; [set_solver|].
  apply increasing_app in Hs as (Hsl & Hsr & Hlr). apply increasing_cons in Hsr as [Hyr Hsr].
  apply elem_of_app in Hx as [Hx|[->|Hx]%elem_of_cons].
  - assert (cmp x y < 0) as Hlt by (apply Hlr; set_solver).
    rewrite (proj2 (Z.ltb_lt _ _) Hlt).
    destruct (IHl Hsl Hx) as (c' & sl & sr & a & b & E1 & E2 & E3 & E4).
    exists c', sl, sr, a, (b ++ y :: elements r). split_and!; [done| | |].
    + by rewrite E2, <- !app_assoc.
    + intros ret. rewrite E3, head_app_default. by destruct (head b).
    + intros ret. by rewrite E4.
  - rewrite ro_refl by done. simpl. exists c, l, r, [], []. by rewrite app_nil_r.
  - assert (0 < cmp x y) as Hgt by (by apply (ro_anti _ Ho), Hyr).
    rewrite (proj2 (Z.ltb_ge _ _)) by lia. rewrite (proj2 (Z.ltb_lt _ _) Hgt).
    destruct (IHr Hsr Hx) as (c' & sl & sr & a & b & E1 & E2 & E3 & E4).
    exists c', sl, sr, (elements l ++ y :: a), b. split_and!; [done| | |].
    + by rewrite E2, <- !app_assoc.
    + intros ret. by rewrite E3.
    + intros ret. rewrite E4, last_app_default, last_cons. by destruct (last a).
Qed.

Lemma rb_next_spec cmp (l1 : list A) x (l2 : list A) t :
  rb_order cmp → increasing cmp (elements t) → elements t = l1 ++ x :: l2 →
  rb_next cmp x t = Some (head l2).
Proof.
  intros Ho Hs E.
  destruct (rb_locate cmp x t) as (c & sl & sr & a & b & E1 & E2 & E3 & _);
    [done|done|rewrite E; set_solver|].
  assert (l1 = a ++ elements sl ∧ l2 = elements sr ++ b) as [-> ->].
  { apply (NoDup_split_unique x); [rewrite <- E; by eapply increasing_NoDup|].
    rewrite <- E, E2. by rewrite <- !app_assoc. }
  unfold rb_next. rewrite E1; cbn [mbind option_bind rbtn_right_get].
  rewrite (first_or sr Some), head_app_default.
  destruct (head (elements sr)); [done|]. rewrite E3. by destruct (head b).
Qed.

Lemma rb_prev_spec cmp (l1 : list A) x (l2 : list A) t :
  rb_order cmp → increasing cmp (elements t) → elements t = l1 ++ x :: l2 →
  rb_prev cmp x t = Some (last l1).
Proof.
  intros Ho Hs E.
  destruct (rb_locate cmp x t) as (c & sl & sr & a & b & E1 & E2 & _ & E4);
    [done|done|rewrite E; set_solver|].
  assert (l1 = a ++ elements sl ∧ l2 = elements sr ++ b) as [-> ->].
  { apply (NoDup_split_unique x); [rewrite <- E; by eapply increasing_NoDup|].
    rewrite <- E, E2. by rewrite <- !app_assoc. }
  unfold rb_prev. rewrite E1; cbn [mbind option_bind rbtn_left_get].
  rewrite (last_or sl Some), last_app_default.
  destruct (last (elements sl)); [done|]. rewrite E4. by destruct (last a).
Qed.

End search_facts.

(** ** The generated functions implement the interface *)

#[export] Instance rb_OrdTree {A} `{EqDecision A} : OrdTree (rbt A) A := {
  ot_new := rb_new;
  ot_elems := elements;
  ot_shape := rb_shape;
  ot_first := rb_first;
  ot_last := rb_last;
  ot_search := rb_search;
  ot_nsearch := rb_nsearch;
  ot_psearch := rb_psearch;
  ot_next := rb_next;
  ot_prev := rb_prev;
  ot_insert := rb_insert;
  ot_remove := rb_remove;
}.

#[export] Instance rb_OrdTreeLaws {A} `{EqDecision A} : OrdTreeLaws (rbt A) A.
Proof.
  split; simpl; intros.
  - done.
  - exists 0%nat. constructor.
  - apply rbtn_first_spec.
  - apply rbtn_last_spec.
  - by apply rb_search_spec.
  - unfold rb_nsearch. rewrite rb_nsearch_loop_spec by done. by destruct (head _).
  - unfold rb_psearch. rewrite rb_psearch_loop_spec by done. by destruct (last _).
  - by eapply rb_next_spec.
  - by eapply rb_prev_spec.
  - by apply rb_insert_correct.
  - by apply rb_remove_correct.
Qed.

(** ** Iteration order *)

Section iter_facts.
Context {A S : Type} (cb : S → A → S * option A).
Implicit Types (t : rbt A) (s : S) (l : list A).

(** Calls the callback on each listed node until it returns one. *)
Fixpoint visit l s : S * option A :=
  match l with
  | [] => (s, None)
  | y :: l =>
      let '(s, ret) := cb s y in
      match ret with Some _ => (s, ret) | None => visit l s end
  end.

Lemma visit_app l1 l2 s :
  visit (l1 ++ l2) s =
    let '(s, ret) := visit l1 s in
    match ret with Some _ => (s, ret) | None => visit l2 s end.
Proof.
  revert s. induction l1 as [|y l1 IH]; intros s; [done|]. simpl.
  destruct (cb s y) as [s' [z|]]; [done|]. apply IH.
Qed.

Lemma iter_recurse_visit t s : rb_iter_recurse cb t s = visit (elements t) s.
Proof.
  revert s. induction t as [|c l IHl y r IHr]; intros s; [done|]. simpl.
  rewrite IHl, visit_app. destruct (visit (elements l) s) as [s1 [z|]]; [done|]. simpl.
  destruct (cb s1 y) as [s2 [z|]]; [done|]. apply IHr.
Qed.

Lemma reverse_iter_recurse_visit t s :
  rb_reverse_iter_recurse cb t s = visit (reverse (elements t)) s.
Proof.
  revert s. induction t as [|c l IHl y r IHr]; intros s; [done|]. simpl.
  rewrite reverse_app, reverse_cons, <- app_assoc.
  rewrite IHr, visit_app. destruct (visit (reverse (elements r)) s) as [s1 [z|]]; [done|]. simpl.
  destruct (cb s1 y) as [s2 [z|]]; [done|]. apply IHl.
Qed.

(** Where a node of an ordered tree lies, as the comparison tells. *)
Lemma node_place cmp (l1 : list A) x (l2 : list A) c (l : rbt A) y r :
  rb_order cmp → increasing cmp (elements (Node c l y r)) → elements l ++ y :: elements r = l1 ++ x :: l2 →
  increasing cmp (elements l) ∧ increasing cmp (elements r) ∧
  ((∃ k2, cmp x y < 0 ∧ elements l = l1 ++ x :: k2 ∧ l2 = k2 ++ y :: elements r) ∨
   (x = y ∧ l1 = elements l ∧ l2 = elements r) ∨
   (∃ k1, 0 < cmp x y ∧ elements r = k1 ++ x :: l2 ∧ l1 = elements l ++ y :: k1)).
Proof.
  intros Ho Hs E. assert (Hnd : NoDup (l1 ++ x :: l2)) by (rewrite <- E; by eapply increasing_NoDup).
  assert (Hx : x ∈ elements l ++ y :: elements r) by (rewrite E; set_solver).
  apply increasing_app in Hs as (Hsl & Hsr & Hlr). apply increasing_cons in Hsr as [Hyr Hsr]. split_and!; [done..|].
  apply elem_of_app in Hx as [Hx|[->|Hx]%elem_of_cons].
  - left. assert (cmp x y < 0) by (apply Hlr; set_solver). apply list_elem_of_split in Hx as (k1 & k2 & Ek).
    assert (l1 = k1 ∧ l2 = k2 ++ y :: elements r) as [-> ->].
    { apply (NoDup_split_unique x); [done|]. by rewrite <- E, Ek, <- app_assoc. }
    by exists k2.
  - right; left. split; [done|]. apply (NoDup_split_unique y); [done|]. by rewrite <- E.
  - right; right. assert (0 < cmp x y) by (by apply (ro_anti _ Ho), Hyr).
    apply list_elem_of_split in Hx as (k1 & k2 & Ek).
    assert (l1 = elements l ++ y :: k1 ∧ l2 = k2) as [-> ->].
    { apply (NoDup_split_unique x); [done|]. by rewrite <- E, Ek, <- app_assoc. }
    by exists k1.
Qed.

(** Starting at a node of the tree visits it and everything after it. *)
Lemma iter_start_visit cmp (l1 : list A) x (l2 : list A) t s :
  rb_order cmp → increasing cmp (elements t) → elements t = l1 ++ x :: l2 →
  rb_iter_start cb cmp x t s = visit (x :: l2) s.
Proof.
  intros Ho. revert l1 l2 s. induction t as [|c l IHl y r IHr]; intros l1 l2 s Hs E; simpl in E.
  { by destruct l1. }
  cbn [rb_iter_start].
  destruct (node_place cmp l1 x l2 c l y r Ho Hs E) as (Hsl & Hsr & [(k2 & Hlt & Ek & ->)|[(-> & -> & ->)|(k1 & Hgt & Ek & ->)]]).
  - rewrite (proj2 (Z.ltb_lt _ _) Hlt), (IHl l1 k2) by done. rewrite app_comm_cons, visit_app.
    destruct (visit (x :: k2) s) as [s1 [z|]]; [done|]. simpl.
    destruct (cb s1 y) as [s2 [z|]]; [done|]. apply iter_recurse_visit.
  - rewrite ro_refl by done. simpl. destruct (cb s y) as [s2 [z|]]; [done|]. apply iter_recurse_visit.
  - rewrite (proj2 (Z.ltb_ge _ _)) by lia. rewrite (proj2 (Z.ltb_lt _ _) Hgt). by apply (IHr k1 l2).
Qed.

(** Starting at a node of the tree backwards visits it and everything before it. *)
Lemma reverse_iter_start_visit cmp (l1 : list A) x (l2 : list A) t s :
  rb_order cmp → increasing cmp (elements t) → elements t = l1 ++ x :: l2 →
  rb_reverse_iter_start cb cmp x t s = visit (x :: reverse l1) s.
Proof.
  intros Ho. revert l1 l2 s. induction t as [|c l IHl y r IHr]; intros l1 l2 s Hs E; simpl in E.
  { by destruct l1. }
  cbn [rb_reverse_iter_start].
  destruct (node_place cmp l1 x l2 c l y r Ho Hs E) as (Hsl & Hsr & [(k2 & Hlt & Ek & ->)|[(-> & -> & ->)|(k1 & Hgt & Ek & ->)]]).
  - rewrite (proj2 (Z.ltb_ge _ _)) by lia. rewrite (proj2 (Z.ltb_lt _ _) Hlt). by apply (IHl l1 k2).
  - rewrite ro_refl by done. simpl. destruct (cb s y) as [s2 [z|]]; [done|]. apply reverse_iter_recurse_visit.
  - rewrite (proj2 (Z.ltb_lt _ _) Hgt), (IHr k1 l2) by done.
    rewrite reverse_app, reverse_cons, <- app_assoc, app_comm_cons, visit_app.
    destruct (visit (x :: reverse k1) s) as [s1 [z|]]; [done|]. simpl.
    destruct (cb s1 y) as [s2 [z|]]; [done|]. apply reverse_iter_recurse_visit.
Qed.
End iter_facts.

(** ** Properties *)

(** C34: inserting a node that compares equal to none of the tree's nodes never
    fails an assertion, adds exactly that node at its place in the order, and
    leaves a balanced left-leaning red-black tree. *)
Theorem rb_insert_spec {A} `{EqDecision A} (cmp : A → A → Z) (x : A) (t : rbt A) :
  rb_order cmp → rb_shape t → increasing cmp (elements t) →
  (∀ y, y ∈ elements t → cmp x y ≠ 0) →
  ∃ t' l1 l2, rb_insert cmp x t = Some t' ∧ rb_shape t' ∧
    elements t = l1 ++ l2 ∧ elements t' = l1 ++ x :: l2 ∧ increasing cmp (elements t').
Proof. apply rb_insert_correct. Qed.

(** C35: removing a node of the tree never fails an assertion, takes out exactly
    that node, and leaves a balanced left-leaning red-black tree. *)
Theorem rb_remove_spec {A} `{EqDecision A} (cmp : A → A → Z) (x : A) (t : rbt A) :
  rb_order cmp → rb_shape t → increasing cmp (elements t) → x ∈ elements t →
  ∃ t' l1 l2, rb_remove cmp x t = Some t' ∧ rb_shape t' ∧
    elements t = l1 ++ x :: l2 ∧ elements t' = l1 ++ l2 ∧ increasing cmp (elements t').
Proof. apply rb_remove_correct. Qed.

(** C40: iteration calls the callback on the nodes in increasing order (in
    decreasing order for [reverse_iter]), each once, from the start node on if
    one of the tree is given, until the callback returns a node. *)
Theorem rb_iter_order {A S} (cb : S → A → S * option A) (cmp : A → A → Z)
    (l1 : list A) (x : A) (l2 : list A) (t : rbt A) (s : S) :
  rb_order cmp → increasing cmp (elements t) → elements t = l1 ++ x :: l2 →
  rb_iter cb cmp None t s = visit cb (elements t) s ∧
  rb_iter cb cmp (Some x) t s = visit cb (x :: l2) s ∧
  rb_reverse_iter cb cmp None t s = visit cb (reverse (elements t)) s ∧
  rb_reverse_iter cb cmp (Some x) t s = visit cb (x :: reverse l1) s.
Proof.
  intros Ho Hs E. split_and!; simpl.
  - apply iter_recurse_visit.
  - by eapply iter_start_visit.
  - apply reverse_iter_recurse_visit.
  - by eapply reverse_iter_start_visit.
Qed.

(** A comparison function and a tree to evaluate the operations on. *)
Definition zcmp (a b : Z) : Z := cmp3 a b.

Lemma zcmp_order : rb_order zcmp.
Proof.
  split; unfold zcmp; intros.
  - rewrite cmp3_lt, cmp3_gt. lia.
  - rewrite cmp3_lt in *. lia.
  - rewrite cmp3_lt, cmp3_eq in *. lia.
Qed.

Definition rb_of_list (l : list Z) : option (rbt Z) :=
  foldl (λ ot x, t ← ot; rb_insert zcmp x t) (Some rb_new) l.

Definition rb_sample : rbt Z :=
  Node false (Node true (Node false Nil 1 Nil) 2 (Node false Nil 3 Nil)) 4
             (Node false (Node true Nil 5 Nil) 6 Nil).

Example rb_sample_built : rb_of_list [4; 2; 6; 1; 3; 5] = Some rb_sample.
Proof. vm_compute. reflexivity. Qed.

Lemma rb_sample_shape : rb_shape rb_sample.
Proof. exists 2%nat. repeat econstructor. Qed.

Lemma rb_sample_increasing : increasing zcmp (elements rb_sample).
Proof. repeat constructor. Qed.

Lemma rb_insert_spec_witness :
  ∃ t' l1 l2, rb_insert zcmp 7 rb_sample = Some t' ∧ rb_shape t' ∧
    elements rb_sample = l1 ++ l2 ∧ elements t' = l1 ++ 7 :: l2 ∧ increasing zcmp (elements t').
Proof.
  apply (rb_insert_spec zcmp 7 rb_sample zcmp_order rb_sample_shape rb_sample_increasing).
  apply Forall_forall. repeat constructor; vm_compute; discriminate.
Defined.

Lemma rb_remove_spec_witness :
  ∃ t' l1 l2, rb_remove zcmp 3 rb_sample = Some t' ∧ rb_shape t' ∧
    elements rb_sample = l1 ++ 3 :: l2 ∧ elements t' = l1 ++ l2 ∧ increasing zcmp (elements t').
Proof.
  apply (rb_remove_spec zcmp 3 rb_sample zcmp_order rb_sample_shape rb_sample_increasing).
  by apply (list_elem_of_lookup_2 _ 2).
Defined.

Lemma rb_iter_order_witness :
  let cb s y := (s ++ [y], if y =? 5 then Some y else None) in
  rb_iter cb zcmp None rb_sample [] = visit cb (elements rb_sample) [] ∧
  rb_iter cb zcmp (Some 3) rb_sample [] = visit cb [3; 4; 5; 6] [] ∧
  rb_reverse_iter cb zcmp None rb_sample [] = visit cb (reverse (elements rb_sample)) [] ∧
  rb_reverse_iter cb zcmp (Some 3) rb_sample [] = visit cb [3; 2; 1] [].
Proof.
  intros cb.
  apply (rb_iter_order cb zcmp [1; 2] 3 [4; 5; 6] rb_sample [] zcmp_order rb_sample_increasing).
  reflexivity.
Defined.

(** The masks [~1] and [1], bit by bit. *)
Lemma testbit_mask_ptr k : 0 ≤ k → Z.testbit (-2) k = negb (k =? 0).
Proof.
  intros Hk. change (-2) with (Z.lnot (Z.b2z true)). rewrite Z.lnot_spec by done.
  by destruct k.
Qed.

Lemma testbit_b2z b k : 0 ≤ k → Z.testbit (Z.b2z b) k = b && (k =? 0).
Proof.
  intros Hk. destruct (Z.eqb_spec k 0) as [->|].
  - by destruct b.
  - rewrite andb_false_r. destruct b; [apply Z.bits_above_log2; simpl; lia|apply Z.bits_0].
Qed.

Lemma red_get_testbit w : Compact.red_get w = Z.testbit w 0.
Proof.
  unfold Compact.red_get. change 1 with (Z.ones 1). rewrite Z.land_ones by lia.
  change (2 ^ 1) with 2. rewrite <- Z.bit0_mod. by destruct (Z.testbit w 0).
Qed.

(** Compares two words of the compact layout bit by bit. *)
Ltac compact_bits :=
  apply Z.bits_inj'; intros k Hk;
  unfold Compact.right_get, Compact.right_set, Compact.color_set, Compact.red_set,
    Compact.black_set;
  change 1 with (Z.b2z true);
  do 2 rewrite ?Z.land_spec, ?Z.lor_spec;
  rewrite ?testbit_mask_ptr, ?testbit_b2z by done;
  destruct (Z.eqb_spec k 0) as [->|];
  repeat match goal with
  | |- context [Z.testbit ?a ?i] => destruct (Z.testbit a i) eqn:?
  | b : bool |- _ => destruct b
  end; cbn [andb orb negb]; congruence.

(** The colour bit and the right-child pointer share one word without
    disturbing each other: setting one reads back, and keeps the other.
    Node addresses are even. *)
Theorem rb_compact_word (w p : Z) (b : bool) :
  Z.even p = true →
  Compact.right_get (Compact.right_set w p) = p ∧
  Compact.red_get (Compact.right_set w p) = Compact.red_get w ∧
  Compact.red_get (Compact.color_set w b) = b ∧
  Compact.right_get (Compact.color_set w b) = Compact.right_get w ∧
  Compact.red_set w = Compact.color_set w true ∧
  Compact.black_set w = Compact.color_set w false.
Proof.
  intros Hp. assert (Hp0 : Z.testbit p 0 = false).
  { rewrite Z.bit0_odd, <- Z.negb_even. by rewrite Hp. }
  rewrite !red_get_testbit. split_and!; try compact_bits.
  - unfold Compact.right_set. rewrite Z.lor_spec, Z.land_spec, Hp0. apply andb_true_r.
  - unfold Compact.color_set.
    rewrite Z.lor_spec, Z.land_spec, testbit_mask_ptr, testbit_b2z, andb_false_r by done.
    apply andb_true_r.
Qed.

Lemma rb_compact_word_witness :
  Compact.right_get (Compact.right_set 4097 8192) = 8192 ∧
  Compact.red_get (Compact.right_set 4097 8192) = Compact.red_get 4097 ∧
  Compact.red_get (Compact.color_set 4097 false) = false ∧
  Compact.right_get (Compact.color_set 4097 false) = Compact.right_get 4097 ∧
  Compact.red_set 4097 = Compact.color_set 4097 true ∧
  Compact.black_set 4097 = Compact.color_set 4097 false.
Proof. apply (rb_compact_word 4097 8192 false). reflexivity. Defined.
