(* ===== verification/Bitmap.v ===== *)
(** * Bitmaps (bitmap.c, bitmap.h)

    A bitmap is a tree of 64-bit groups in one array.  Level 0 holds the bits,
    inverted (1 is "unset"); bit [k] of level [i+1] is 1 when group [k] of level
    [i] is not zero; the top level is one group.  The file models the layout
    computation, initialisation and the operations, and proves that they
    implement a set of bit numbers. *)

From S2P Require Import Prelude.

(** ** Constants and layout *)

Definition LG_BITMAP_MAXBITS : Z := 11.
Definition LG_SIZEOF_BITMAP : Z := 3.
Definition LG_BITMAP_GROUP_NBITS : Z := LG_SIZEOF_BITMAP + 3.
Definition BITMAP_GROUP_NBITS : Z := Z.shiftl 1 LG_BITMAP_GROUP_NBITS.
Definition BITMAP_GROUP_NBITS_MASK : Z := BITMAP_GROUP_NBITS - 1.
Definition BITMAP_MAX_LEVELS : Z :=
  LG_BITMAP_MAXBITS / LG_SIZEOF_BITMAP + Z.b2z (negb (LG_BITMAP_MAXBITS mod LG_SIZEOF_BITMAP =? 0)).

(** [levels] is the array of the levels' group offsets. *)
Record bitmap_info := BitmapInfo { nbits : Z; nlevels : Z; levels : list Z }.

Definition group_offset (bi : bitmap_info) (i : Z) : option Z := levels bi !! Z.to_nat i.

Definition bits2groups (n : Z) : Z :=
  Z.shiftr n LG_BITMAP_GROUP_NBITS + Z.b2z (negb (Z.land n BITMAP_GROUP_NBITS_MASK =? 0)).

(** The loop of [bitmap_info_init]: [room] is [BITMAP_MAX_LEVELS - i], the
    levels below [i] are filled in, [prev] is the last of their offsets.  The
    result is the number of levels with the offsets. *)
Fixpoint info_loop (room : nat) (i : Z) (filled : list Z) (prev group_count : Z) : option (Z * list Z) :=
  if 1 <? group_count then
    match room with
    | O => None
    | S room =>
        let off := prev + group_count in
        info_loop room (i + 1) (filled ++ [off]) off (bits2groups group_count)
    end
  else Some (i, filled ++ [prev + group_count]).

Definition bitmap_info_init (nbits : Z) : option bitmap_info :=
  assert! (0 <? nbits);
  assert! (nbits <=? Z.shiftl 1 LG_BITMAP_MAXBITS);
  '(i, levels) ← info_loop (Z.to_nat (BITMAP_MAX_LEVELS - 1)) 1 [0] 0 (bits2groups nbits);
  Some (BitmapInfo nbits i levels).

Definition bitmap_info_ngroups (bi : bitmap_info) : option Z :=
  off ← group_offset bi (nlevels bi); Some (Z.shiftl off LG_SIZEOF_BITMAP).

Definition bitmap_size (nbits : Z) : option Z :=
  bi ← bitmap_info_init nbits; bitmap_info_ngroups bi.

(** ** Operations on the array of groups *)

Abbreviation bitmap := (list Z).

Definition load (b : bitmap) (i : Z) : option Z := if 0 <=? i then b !! Z.to_nat i else None.
Definition store (b : bitmap) (i g : Z) : option bitmap :=
  _ ← load b i; Some (<[Z.to_nat i := g]> b).

(** The mask [1LU << (bit & BITMAP_GROUP_NBITS_MASK)]. *)
Definition bit_mask (bit : Z) : Z := Z.shiftl 1 (Z.land bit BITMAP_GROUP_NBITS_MASK).

(** The unused high bits of the last group of a level of [n] bits. *)
Definition extra_bits (n : Z) : Z :=
  Z.land (BITMAP_GROUP_NBITS - Z.land n BITMAP_GROUP_NBITS_MASK) BITMAP_GROUP_NBITS_MASK.

Definition shift_last (b : bitmap) (i extra : Z) : option bitmap :=
  if extra =? 0 then Some b
  else g ← load b i; store b i (Z.shiftr g extra).

(** The loop of [bitmap_init], from level [i] on, [room] iterations. *)
Fixpoint init_loop (bi : bitmap_info) (room : nat) (i : Z) (b : bitmap) : option bitmap :=
  match room with
  | O => Some b
  | S room =>
      off ← group_offset bi i; below ← group_offset bi (i - 1); above ← group_offset bi (i + 1);
      b ← shift_last b (above - 1) (extra_bits (off - below));
      init_loop bi room (i + 1) b
  end.

Definition bitmap_init (b : bitmap) (bi : bitmap_info) : option bitmap :=
  ngroups ← group_offset bi (nlevels bi);
  assert! (ngroups <=? Z.of_nat (length b));
  let b := replicate (Z.to_nat ngroups) (2 ^ 64 - 1) ++ drop (Z.to_nat ngroups) b in
  off1 ← group_offset bi 1;
  b ← shift_last b (off1 - 1) (extra_bits (nbits bi));
  init_loop bi (Z.to_nat (nlevels bi - 1)) 1 b.

Definition bitmap_full (b : bitmap) (bi : bitmap_info) : option bool :=
  off ← group_offset bi (nlevels bi);
  rg ← load b (off - 1);
  Some (rg =? 0).

Definition bitmap_get (b : bitmap) (bi : bitmap_info) (bit : Z) : option bool :=
  assert! (bit <? nbits bi);
  g ← load b (Z.shiftr bit LG_BITMAP_GROUP_NBITS);
  Some (Z.land g (bit_mask bit) =? 0).

(** Propagation of a group that became 0 ([bitmap_set]). *)
Fixpoint set_loop (bi : bitmap_info) (room : nat) (i goff : Z) (b : bitmap) : option bitmap :=
  match room with
  | O => Some b
  | S room =>
      let bit := goff in
      let goff := Z.shiftr bit LG_BITMAP_GROUP_NBITS in
      off ← group_offset bi i;
      g ← load b (off + goff);
      assert! negb (Z.land g (bit_mask bit) =? 0);
      let g := Z.lxor g (bit_mask bit) in
      b ← store b (off + goff) g;
      if negb (g =? 0) then Some b else set_loop bi room (i + 1) goff b
  end.

Definition bitmap_set (b : bitmap) (bi : bitmap_info) (bit : Z) : option bitmap :=
  assert! (bit <? nbits bi);
  got ← bitmap_get b bi bit;
  assert! negb got;
  let goff := Z.shiftr bit LG_BITMAP_GROUP_NBITS in
  g ← load b goff;
  assert! negb (Z.land g (bit_mask bit) =? 0);
  let g := Z.lxor g (bit_mask bit) in
  b ← store b goff g;
  got ← bitmap_get b bi bit;
  assert! (got : bool);
  if g =? 0 then set_loop bi (Z.to_nat (nlevels bi - 1)) 1 goff b else Some b.

(** [ffsl]: one more than the number of the lowest bit set, 0 if none is. *)
Definition ffsl (g : Z) : Z :=
  foldr (λ i r, if Z.testbit g i then i + 1 else r) 0 (seqZ 0 64).

(** The descent of [bitmap_sfu] from level [i] to level 0. *)
Fixpoint sfu_loop (bi : bitmap_info) (i : nat) (bit : Z) (b : bitmap) : option Z :=
  match i with
  | O => Some bit
  | S i =>
      off ← group_offset bi (Z.of_nat i);
      g ← load b (off + bit);
      sfu_loop bi i (u64 (Z.shiftl bit LG_BITMAP_GROUP_NBITS + (ffsl g - 1))) b
  end.

Definition bitmap_sfu (b : bitmap) (bi : bitmap_info) : option (bitmap * Z) :=
  full ← bitmap_full b bi;
  assert! negb full;
  let i := nlevels bi - 1 in
  off ← group_offset bi i;
  g ← load b off;
  bit ← sfu_loop bi (Z.to_nat i) (u64 (ffsl g - 1)) b;
  b ← bitmap_set b bi bit;
  Some (b, bit).

(** Propagation of a group that was 0 ([bitmap_unset]). *)
Fixpoint unset_loop (bi : bitmap_info) (room : nat) (i goff : Z) (b : bitmap) : option bitmap :=
  match room with
  | O => Some b
  | S room =>
      let bit := goff in
      let goff := Z.shiftr bit LG_BITMAP_GROUP_NBITS in
      off ← group_offset bi i;
      g ← load b (off + goff);
      let propagate := g =? 0 in
      assert! (Z.land g (bit_mask bit) =? 0);
      b ← store b (off + goff) (Z.lxor g (bit_mask bit));
      if negb propagate then Some b else unset_loop bi room (i + 1) goff b
  end.

Definition bitmap_unset (b : bitmap) (bi : bitmap_info) (bit : Z) : option bitmap :=
  assert! (bit <? nbits bi);
  got ← bitmap_get b bi bit;
  assert! (got : bool);
  let goff := Z.shiftr bit LG_BITMAP_GROUP_NBITS in
  g ← load b goff;
  let propagate := g =? 0 in
  assert! (Z.land g (bit_mask bit) =? 0);
  b ← store b goff (Z.lxor g (bit_mask bit));
  got ← bitmap_get b bi bit;
  assert! negb got;
  if propagate then unset_loop bi (Z.to_nat (nlevels bi - 1)) 1 goff b else Some b.

Example bitmap_2048 :
  bitmap_info_init 2048 = Some (BitmapInfo 2048 2 [0; 32; 33]).
Proof. reflexivity. Qed.

Example bitmap_130 :
  (bi ← bitmap_info_init 130; b ← bitmap_init (replicate 4 0) bi;
   '(b, i) ← bitmap_sfu b bi; '(b, j) ← bitmap_sfu b bi;
   b ← bitmap_unset b bi i; '(b, k) ← bitmap_sfu b bi; Some (i, j, k, b))
  = Some (0, 1, 0, [2 ^ 64 - 4; 2 ^ 64 - 1; 3; 7]).
Proof. vm_compute. reflexivity. Qed.

(** ** The layout invariant *)

Definition off (bi : bitmap_info) (i : Z) : Z := default 0 (levels bi !! Z.to_nat i).

(** Number of bits of level [i], number of its groups. *)
Definition nb (bi : bitmap_info) (i : Z) : Z :=
  if i =? 0 then nbits bi else off bi i - off bi (i - 1).
Definition cnt (bi : bitmap_info) (i : Z) : Z := off bi (i + 1) - off bi i.

Record info_ok (bi : bitmap_info) : Prop := {
  ok_nbits : 0 < nbits bi ≤ 2048;
  ok_nlevels : 1 ≤ nlevels bi ≤ BITMAP_MAX_LEVELS;
  ok_length : Z.of_nat (length (levels bi)) = nlevels bi + 1;
  ok_off0 : off bi 0 = 0;
  ok_cnt i : 0 ≤ i < nlevels bi → cnt bi i = bits2groups (nb bi i);
  ok_top : cnt bi (nlevels bi - 1) = 1
}.

Lemma mask_64 n : Z.land n BITMAP_GROUP_NBITS_MASK = n mod 64.
Proof. apply (land_mask n 6). lia. Qed.

Lemma shift_64 n : Z.shiftr n LG_BITMAP_GROUP_NBITS = n / 64.
Proof. by rewrite Z.shiftr_div_pow2. Qed.

Lemma bits2groups_eq n : bits2groups n = n / 64 + Z.b2z (negb (n mod 64 =? 0)).
Proof. unfold bits2groups. by rewrite shift_64, mask_64. Qed.

Lemma bits2groups_spec n : n ≤ 64 * bits2groups n < n + 64.
Proof.
  rewrite bits2groups_eq. pose proof (Z.div_mod n 64). pose proof (Z.mod_pos_bound n 64).
  destruct (Z.eqb_spec (n mod 64) 0); simpl; lia.
Qed.

Lemma extra_bits_spec n :
  0 ≤ extra_bits n < 64 ∧ n = 64 * bits2groups n - extra_bits n.
Proof.
  unfold extra_bits. rewrite !mask_64, bits2groups_eq.
  change BITMAP_GROUP_NBITS with 64.
  pose proof (Z.div_mod n 64). pose proof (Z.mod_pos_bound n 64).
  destruct (Z.eqb_spec (n mod 64) 0) as [E|]; simpl.
  - rewrite E in *. change ((64 - 0) mod 64) with 0. lia.
  - rewrite Z.mod_small; lia.
Qed.

Lemma filled_ends (filled : list Z) prev :
  last filled = Some prev →
  (∀ l, default 0 ((filled ++ l) !! Z.to_nat (Z.of_nat (length filled) - 1)) = prev) ∧
  (∀ v l, default 0 ((filled ++ v :: l) !! Z.to_nat (Z.of_nat (length filled))) = v).
Proof.
  intros Hl. assert (length filled ≠ 0%nat) by (by destruct filled).
  rewrite last_lookup in Hl. split; intros.
  - rewrite lookup_app_l by lia.
    replace (Z.to_nat (Z.of_nat (length filled) - 1)) with (pred (length filled)) by lia.
    by rewrite Hl.
  - rewrite lookup_app_r by lia.
    by replace (Z.to_nat (Z.of_nat (length filled)) - length filled)%nat with 0%nat by lia.
Qed.

(** The loop leaves a list of offsets in which every level is large enough
    for the one below, and stops at a level of one group. *)
Lemma info_loop_ok room i filled prev n k levels :
  Z.of_nat (length filled) = i → last filled = Some prev → 0 < n →
  info_loop room i filled prev (bits2groups n) = Some (k, levels) →
  i ≤ k ≤ i + Z.of_nat room ∧ Z.of_nat (length levels) = k + 1 ∧
  (∃ l2, levels = filled ++ l2) ∧
  let at_ j := default 0 (levels !! Z.to_nat j) in
  let bits j := if j =? i - 1 then n else at_ j - at_ (j - 1) in
  (∀ j, i - 1 ≤ j < k → at_ (j + 1) - at_ j = bits2groups (bits j)) ∧
  at_ k - at_ (k - 1) = 1.
Proof.
  revert i filled prev n. induction room as [|room IH]; intros i filled prev n Hi Hl Hn;
    pose proof (bits2groups_spec n); simpl; destruct (Z.ltb_spec 1 (bits2groups n)) as [Hg|Hg];
    [done| | |]; destruct (filled_ends filled prev Hl) as [Hprev Hnext]; rewrite Hi in Hprev, Hnext.
  2: { intros Hk. apply IH in Hk as (Hk & Hlen & [l2 ->] & Hc & Htop); [|..].
       2: { rewrite length_app. simpl. lia. }
       2: { by rewrite last_snoc. }
       2: { lia. }
       rewrite <- app_assoc in Hlen, Hc, Htop |- *. simpl in Hlen, Hc, Htop |- *.
       split_and!; [lia|lia|lia|by eexists|intros j Hj|exact Htop].
       destruct (Z.eq_dec j (i - 1)) as [->|Hne].
       - rewrite Z.eqb_refl. replace (i - 1 + 1) with i by lia. rewrite Hprev, Hnext. lia.
       - rewrite (proj2 (Z.eqb_neq j (i - 1))) by lia.
         specialize (Hc j ltac:(lia)). replace (i + 1 - 1) with i in Hc by lia.
         rewrite Hc. f_equal. destruct (Z.eqb_spec j i) as [Hji|]; [rewrite Hji|done].
         rewrite Hprev, Hnext. lia. }
  all: intros [= <- <-]; rewrite Hprev, Hnext.
  all: split_and!; [lia|lia|rewrite length_app; simpl; lia|by eexists|intros j Hj|lia].
  all: replace j with (i - 1) by lia; rewrite Z.eqb_refl; replace (i - 1 + 1) with i by lia.
  all: rewrite Hprev, Hnext; lia.
Qed.

Lemma info_loop_some room i filled prev n :
  0 < n ≤ 64 ^ (Z.of_nat room + 1) →
  is_Some (info_loop room i filled prev (bits2groups n)).
Proof.
  revert i filled prev n. induction room as [|room IH]; intros i filled prev n Hn;
    pose proof (bits2groups_spec n); simpl; destruct (Z.ltb_spec 1 (bits2groups n)); try by eexists.
  - change (Z.of_nat 0 + 1) with 1 in Hn. lia.
  - apply IH. replace (Z.of_nat (S room) + 1) with (Z.succ (Z.of_nat room + 1)) in Hn by lia.
    rewrite Z.pow_succ_r in Hn by lia. lia.
Qed.

Lemma bitmap_info_init_correct n :
  0 < n ≤ 2048 → ∃ bi, bitmap_info_init n = Some bi ∧ nbits bi = n ∧ info_ok bi.
Proof.
  intros Hn. unfold bitmap_info_init.
  change (Z.shiftl 1 LG_BITMAP_MAXBITS) with 2048.
  rewrite (proj2 (Z.ltb_lt 0 n)), (proj2 (Z.leb_le n _)) by lia. rewrite !assert_true.
  destruct (info_loop_some 3 1 [0] 0 n) as [[k levels] E]; [simpl; lia|].
  change (Z.to_nat (BITMAP_MAX_LEVELS - 1)) with 3%nat. rewrite E. simpl.
  apply info_loop_ok in E as (Hk & Hlen & [l2 ->] & Hc & Htop); [|done|done|lia].
  eexists; split_and!; [done|done|]. split; unfold cnt, nb, off; simpl; try lia.
  - change BITMAP_MAX_LEVELS with 4. lia.
  - done.
  - intros i Hi. rewrite Hc by lia. reflexivity.
  - replace (k - 1 + 1) with k by lia. done.
Qed.

Lemma notin_union (S : gset Z) k k' :
  k ∉ S → bool_decide (k' ∉ S ∪ {[k]}) = xorb (bool_decide (k' ∉ S)) (k' =? k).
Proof.
  intros. destruct (Z.eqb_spec k' k) as [->|]; repeat case_bool_decide; simpl; set_solver.
Qed.

Lemma notin_difference (S : gset Z) k k' :
  k ∈ S → bool_decide (k' ∉ S ∖ {[k]}) = xorb (bool_decide (k' ∉ S)) (k' =? k).
Proof.
  intros. destruct (Z.eqb_spec k' k) as [->|]; repeat case_bool_decide; simpl; set_solver.
Qed.

Section layout.
Context (bi : bitmap_info) (Hbi : info_ok bi).
Implicit Types (b : bitmap) (i j k g : Z).

Lemma group_offset_off i : 0 ≤ i ≤ nlevels bi → group_offset bi i = Some (off bi i).
Proof.
  intros Hi. unfold group_offset, off. pose proof (ok_length _ Hbi).
  destruct (lookup_lt_is_Some_2 (levels bi) (Z.to_nat i)) as [x ->]; [lia|done].
Qed.

Lemma cnt_pos_nb i : 0 ≤ i < nlevels bi → 0 < nb bi i ∧ 0 < cnt bi i ∧ cnt bi i ≤ nb bi i.
Proof.
  intros [Hi0 Hi]. revert Hi. pattern i. apply natlike_ind; [..|done].
  - intros H0. rewrite ok_cnt by (done || lia). pose proof (ok_nbits _ Hbi).
    change (nb bi 0) with (nbits bi). pose proof (bits2groups_spec (nbits bi)). lia.
  - intros j Hj IH Hlt. rewrite ok_cnt by (done || lia).
    replace (nb bi (Z.succ j)) with (cnt bi j).
    + pose proof (bits2groups_spec (cnt bi j)). lia.
    + unfold nb, cnt. rewrite (proj2 (Z.eqb_neq (Z.succ j) 0)) by lia. f_equal; f_equal; lia.
Qed.

Lemma nb_succ i : 0 ≤ i → nb bi (i + 1) = cnt bi i.
Proof.
  intros. unfold nb, cnt. rewrite (proj2 (Z.eqb_neq (i + 1) 0)) by lia. f_equal; f_equal; lia.
Qed.

Lemma nb_cnt i : 0 ≤ i < nlevels bi → nb bi i ≤ 64 * cnt bi i < nb bi i + 64.
Proof. intros. rewrite ok_cnt by done. apply bits2groups_spec. Qed.

Lemma off_nonneg i : 0 ≤ i ≤ nlevels bi → 0 ≤ off bi i.
Proof.
  intros [Hi0 Hi]. revert Hi. pattern i. apply natlike_ind; [..|done].
  - rewrite (ok_off0 _ Hbi). done.
  - intros j Hj IH Hlt. pose proof (cnt_pos_nb j). unfold cnt in *.
    replace (Z.succ j) with (j + 1) by lia. lia.
Qed.

Lemma off_le i j : 0 ≤ i → i ≤ j ≤ nlevels bi → off bi i ≤ off bi j.
Proof.
  intros Hi [Hij Hj]. revert Hj. replace j with (i + (j - i)) by lia.
  pattern (j - i). apply natlike_ind; [..|lia].
  - replace (i + 0) with i by lia. done.
  - intros d Hd IH Hlt. pose proof (cnt_pos_nb (i + d)). unfold cnt in *.
    replace (i + Z.succ d) with (i + d + 1) by lia. lia.
Qed.

(** Every group index of a level is in the array; levels do not overlap. *)
Lemma group_bound i j : 0 ≤ i < nlevels bi → 0 ≤ j < cnt bi i → 0 ≤ off bi i + j < off bi (nlevels bi).
Proof.
  intros Hi Hj. pose proof (off_nonneg i). pose proof (off_le (i + 1) (nlevels bi)).
  unfold cnt in *. lia.
Qed.

Lemma group_inj i j i' j' :
  0 ≤ i < nlevels bi → 0 ≤ j < cnt bi i → 0 ≤ i' < nlevels bi → 0 ≤ j' < cnt bi i' →
  off bi i + j = off bi i' + j' → i = i' ∧ j = j'.
Proof.
  intros Hi Hj Hi' Hj' E. unfold cnt in *.
  destruct (Z.lt_trichotomy i i') as [Hlt|[->|Hlt]]; [|lia|].
  - pose proof (off_le (i + 1) i'). lia.
  - pose proof (off_le (i' + 1) i). lia.
Qed.

(** ** Bits of a level *)

Definition grp b i j : Z := default 0 (b !! Z.to_nat (off bi i + j)).
Definition lbit b i k : bool := Z.testbit (grp b i (k / 64)) (k mod 64).

(** What bit [k] of level [i] is to say, for a bitmap that holds the set [S]. *)
Definition val (S : gset Z) b i k : bool :=
  if i =? 0 then bool_decide (k ∉ S) else negb (grp b (i - 1) k =? 0).

(** All bits are as they are to be, except bit [pk] of level [pi], which is
    inverted; no bit is when [pi] is not a level. *)
Definition pending (S : gset Z) b pi pk : Prop :=
  off bi (nlevels bi) ≤ Z.of_nat (length b) ∧
  (∀ i j, 0 ≤ i < nlevels bi → 0 ≤ j < cnt bi i → is_u64 (grp b i j)) ∧
  (∀ i k, 0 ≤ i < nlevels bi → 0 ≤ k < 64 * cnt bi i →
     lbit b i k = (k <? nb bi i) && xorb (val S b i k) ((i =? pi) && (k =? pk))).

Lemma load_grp b i j :
  off bi (nlevels bi) ≤ Z.of_nat (length b) → 0 ≤ i < nlevels bi → 0 ≤ j < cnt bi i →
  load b (off bi i + j) = Some (grp b i j).
Proof.
  intros Hlen Hi Hj. pose proof (group_bound i j Hi Hj). unfold load, grp.
  rewrite (proj2 (Z.leb_le 0 _)) by lia.
  destruct (lookup_lt_is_Some_2 b (Z.to_nat (off bi i + j))) as [x ->]; [lia|done].
Qed.

Lemma store_grp b i j g :
  off bi (nlevels bi) ≤ Z.of_nat (length b) → 0 ≤ i < nlevels bi → 0 ≤ j < cnt bi i →
  ∃ b', store b (off bi i + j) g = Some b' ∧ length b' = length b ∧
    (∀ i' j', 0 ≤ i' < nlevels bi → 0 ≤ j' < cnt bi i' →
       grp b' i' j' = if (i' =? i) && (j' =? j) then g else grp b i' j').
Proof.
  intros Hlen Hi Hj. unfold store. rewrite load_grp by done. simpl.
  eexists; split_and!; [done|by rewrite length_insert|]. intros i' j' Hi' Hj'. unfold grp.
  pose proof (group_bound i j Hi Hj). pose proof (group_bound i' j' Hi' Hj').
  destruct (Z.eqb_spec i' i) as [->|Hne]; simpl.
  - destruct (Z.eqb_spec j' j) as [->|Hne].
    + rewrite list_lookup_insert_eq by lia. done.
    + rewrite list_lookup_insert_ne by lia. done.
  - rewrite list_lookup_insert_ne; [done|]. intros E.
    destruct (group_inj i j i' j'); [done..|lia|congruence].
Qed.

Lemma testbit_small_zero g : is_u64 g → (∀ n, 0 ≤ n < 64 → Z.testbit g n = false) → g = 0.
Proof.
  intros Hg H0. apply Z.bits_inj'. intros n Hn. rewrite Z.bits_0.
  destruct (Z_lt_ge_dec n 64); [apply H0; lia|].
  rewrite <- (Z.mod_small g (2 ^ 64)) by done. apply Z.mod_pow2_bits_high. lia.
Qed.

Lemma bit_mask_testbit k n : 0 ≤ n → Z.testbit (bit_mask k) n = (n =? k mod 64).
Proof.
  intros Hn. unfold bit_mask. rewrite mask_64, Z.shiftl_1_l.
  pose proof (Z.mod_pos_bound k 64). rewrite Z.pow2_bits_eqb by lia. apply Z.eqb_sym.
Qed.

Lemma land_bit_mask g k : (Z.land g (bit_mask k) =? 0) = negb (Z.testbit g (k mod 64)).
Proof.
  pose proof (Z.mod_pos_bound k 64).
  destruct (Z.testbit g (k mod 64)) eqn:E; simpl.
  - apply Z.eqb_neq. intros H0. apply (f_equal (λ z, Z.testbit z (k mod 64))) in H0.
    rewrite Z.land_spec, bit_mask_testbit, E, Z.eqb_refl, Z.bits_0 in H0 by lia. done.
  - apply Z.eqb_eq, Z.bits_inj'. intros n Hn. rewrite Z.land_spec, bit_mask_testbit, Z.bits_0 by lia.
    destruct (Z.eqb_spec n (k mod 64)) as [->|]; [by rewrite E|apply andb_false_r].
Qed.

Lemma lxor_bit_mask_u64 g k : is_u64 g → is_u64 (Z.lxor g (bit_mask k)).
Proof.
  intros Hg. assert (E : Z.lxor g (bit_mask k) = u64 (Z.lxor g (bit_mask k))).
  { apply Z.bits_inj'. intros n Hn. unfold u64. pose proof (Z.mod_pos_bound k 64).
    destruct (Z_lt_ge_dec n 64).
    - by rewrite Z.mod_pow2_bits_low.
    - rewrite Z.mod_pow2_bits_high, Z.lxor_spec, bit_mask_testbit by lia.
      rewrite <- (Z.mod_small g (2 ^ 64)) by done. rewrite Z.mod_pow2_bits_high by lia.
      by rewrite (proj2 (Z.eqb_neq _ _)) by lia. }
  rewrite E. apply u64_range.
Qed.

(** Inverting the pending bit settles it; if its group became zero, or was
    zero, the bit of the group in the next level is pending. *)
Lemma flip_pending S b i k g :
  pending S b i k → 0 ≤ i < nlevels bi → 0 ≤ k < nb bi i → g = grp b i (k / 64) →
  ∃ b', store b (off bi i + k / 64) (Z.lxor g (bit_mask k)) = Some b' ∧
    grp b' i (k / 64) = Z.lxor g (bit_mask k) ∧
    pending S b' (if eqb (Z.lxor g (bit_mask k) =? 0) (g =? 0) then nlevels bi else i + 1) (k / 64).
Proof.
  intros (Hlen & Hu & Hb) Hi Hk Hg. pose proof (nb_cnt i Hi).
  assert (Hkc : 0 ≤ k / 64 < cnt bi i) by (split; [apply Z.div_pos; lia|apply Z.div_lt_upper_bound; lia]).
  destruct (store_grp b i (k / 64) (Z.lxor g (bit_mask k)) Hlen Hi Hkc) as (b' & Hst & Hlen' & Hgrp).
  exists b'. split_and!; [done|rewrite Hgrp by done; by rewrite !Z.eqb_refl|].
  split_and!; [by rewrite Hlen'|..].
  { intros i' j' Hi' Hj'. rewrite Hgrp by done. destruct (_ && _); [|by apply Hu].
    subst g. by apply lxor_bit_mask_u64, Hu. }
  intros i' k' Hi' Hk'. pose proof (nb_cnt i' Hi').
  assert (Hkc' : 0 ≤ k' / 64 < cnt bi i') by (split; [apply Z.div_pos; lia|apply Z.div_lt_upper_bound; lia]).
  (* the bits of level i change at k only *)
  assert (Hl : lbit b' i' k' = xorb (lbit b i' k') ((i' =? i) && (k' =? k))).
  { unfold lbit. rewrite Hgrp by done. pose proof (Z.mod_pos_bound k' 64).
    destruct (Z.eqb_spec i' i) as [->|]; [|by rewrite xorb_false_r]. simpl.
    destruct (Z.eqb_spec (k' / 64) (k / 64)) as [E|Hne].
    - rewrite Z.lxor_spec, bit_mask_testbit, Hg, E by lia. f_equal.
      pose proof (Z.div_mod k 64). pose proof (Z.div_mod k' 64). apply eq_bool_prop_intro.
      rewrite !Is_true_true, !Z.eqb_eq. lia.
    - rewrite (proj2 (Z.eqb_neq k' k)) by congruence. by rewrite xorb_false_r. }
  (* the values change for the group's bit in the next level only *)
  assert (Hv : k' < nb bi i' → val S b' i' k' =
      xorb (val S b i' k')
        ((i' =? i + 1) && (k' =? k / 64) && negb (eqb (Z.lxor g (bit_mask k) =? 0) (g =? 0)))).
  { intros Hk'n. unfold val. destruct (Z.eqb_spec i' 0) as [->|Hi0].
    - rewrite (proj2 (Z.eqb_neq 0 (i + 1))) by lia. by rewrite xorb_false_r.
    - assert (Hkb : 0 ≤ k' < cnt bi (i' - 1)).
      { rewrite <- nb_succ by lia. replace (i' - 1 + 1) with i' by lia. lia. }
      rewrite Hgrp by (done || lia).
      destruct (Z.eqb_spec (i' - 1) i) as [E|], (Z.eqb_spec i' (i + 1)) as [E'|];
        try lia; [|by rewrite xorb_false_r]. rewrite E. simpl.
      destruct (Z.eqb_spec k' (k / 64)) as [->|]; [|by rewrite xorb_false_r]. simpl. subst g.
      by destruct (Z.lxor _ _ =? 0), (grp b i (k / 64) =? 0). }
  rewrite Hl, Hb by done. destruct (Z.ltb_spec k' (nb bi i')) as [Hkn|Hkn]; simpl.
  - rewrite Hv by done. destruct (eqb (_ =? 0) _); simpl.
    + rewrite (proj2 (Z.eqb_neq i' (nlevels bi))) by lia. rewrite !andb_false_r.
      by destruct (val S b i' k'), (i' =? i), (k' =? k).
    + rewrite andb_true_r. by destruct (val S b i' k'), (i' =? i), (k' =? k), (i' =? i + 1), (k' =? k / 64).
  - destruct (Z.eqb_spec i' i) as [->|]; [|done]. by rewrite (proj2 (Z.eqb_neq k' k)) by lia.
Qed.

(** The bitmap holds the set [S]. *)
Definition holds (S : gset Z) b : Prop :=
  pending S b (nlevels bi) 0 ∧ (∀ k, k ∈ S → 0 ≤ k < nbits bi).

Lemma pending_out S b pi pk pk' :
  nlevels bi ≤ pi → pending S b pi pk → pending S b (nlevels bi) pk'.
Proof.
  intros Hpi (Hlen & Hu & Hb). split_and!; [done..|]. intros i k Hi Hk. rewrite Hb by done.
  by rewrite (proj2 (Z.eqb_neq i pi)), (proj2 (Z.eqb_neq i (nlevels bi))) by lia.
Qed.

Lemma pending_at S b i k :
  pending S b i k → 0 ≤ i < nlevels bi → 0 ≤ k < nb bi i →
  Z.testbit (grp b i (k / 64)) (k mod 64) = negb (val S b i k) ∧
  load b (off bi i + k / 64) = Some (grp b i (k / 64)).
Proof.
  intros (Hlen & Hu & Hb) Hi Hk. pose proof (nb_cnt i Hi). split.
  - specialize (Hb i k Hi ltac:(lia)). unfold lbit in Hb. rewrite Hb.
    rewrite (proj2 (Z.ltb_lt k (nb bi i))), !Z.eqb_refl by lia. by destruct (val S b i k).
  - apply load_grp; [done..|]. split; [apply Z.div_pos; lia|apply Z.div_lt_upper_bound; lia].
Qed.

Lemma bit_step i k :
  0 ≤ i < nlevels bi → 0 ≤ k < nb bi i →
  0 ≤ k / 64 < cnt bi i ∧ (i + 1 < nlevels bi → k / 64 < nb bi (i + 1)).
Proof.
  intros Hi Hk. pose proof (nb_cnt i Hi).
  assert (0 ≤ k / 64 < cnt bi i) by (split; [apply Z.div_pos; lia|apply Z.div_lt_upper_bound; lia]).
  split; [done|]. intros. rewrite nb_succ by lia. lia.
Qed.

(** The propagation loops settle a pending bit of a group that became zero
    ([set_loop]) and of a group that is zero no more ([unset_loop]). *)
Lemma set_loop_ok S b i k :
  pending S b i k → 1 ≤ i ≤ nlevels bi → (i < nlevels bi → 0 ≤ k < nb bi i) →
  (i < nlevels bi → val S b i k = false) →
  ∃ b', set_loop bi (Z.to_nat (nlevels bi - i)) i k b = Some b' ∧ pending S b' (nlevels bi) 0.
Proof.
  remember (Z.to_nat (nlevels bi - i)) as room eqn:Hr. revert b i k Hr.
  induction room as [|room IH]; intros b i k Hr Hp Hi Hk Hv.
  { exists b. split; [done|]. by eapply pending_out; [|exact Hp]; lia. }
  specialize (Hk ltac:(lia)). specialize (Hv ltac:(lia)). assert (Hi' : 0 ≤ i < nlevels bi) by lia.
  destruct (pending_at _ _ _ _ Hp Hi' Hk) as [Ht Hld].
  destruct (flip_pending _ _ _ _ _ Hp Hi' Hk eq_refl) as (b' & Hst & Hg' & Hp').
  destruct (bit_step i k Hi' Hk) as [Hc Hn].
  cbn [set_loop]. rewrite shift_64, group_offset_off by lia. simpl. rewrite Hld. simpl.
  rewrite land_bit_mask, Ht, Hv. simpl. rewrite Hst. simpl.
  assert (Hnz : (grp b i (k / 64) =? 0) = false).
  { apply Z.eqb_neq. intros E. rewrite E, Z.bits_0, Hv in Ht. done. }
  rewrite Hnz in Hp'. destruct (Z.lxor _ _ =? 0) eqn:Ez; simpl in *.
  - apply IH; [lia|done|lia|lia|]. intros Hlt. unfold val.
    rewrite (proj2 (Z.eqb_neq (i + 1) 0)) by lia. replace (i + 1 - 1) with i by lia.
    by rewrite Hg', Ez.
  - exists b'. split; [done|]. by eapply pending_out; [|exact Hp'].
Qed.

Lemma unset_loop_ok S b i k :
  pending S b i k → 1 ≤ i ≤ nlevels bi → (i < nlevels bi → 0 ≤ k < nb bi i) →
  (i < nlevels bi → val S b i k = true) →
  ∃ b', unset_loop bi (Z.to_nat (nlevels bi - i)) i k b = Some b' ∧ pending S b' (nlevels bi) 0.
Proof.
  remember (Z.to_nat (nlevels bi - i)) as room eqn:Hr. revert b i k Hr.
  induction room as [|room IH]; intros b i k Hr Hp Hi Hk Hv.
  { exists b. split; [done|]. by eapply pending_out; [|exact Hp]; lia. }
  specialize (Hk ltac:(lia)). specialize (Hv ltac:(lia)). assert (Hi' : 0 ≤ i < nlevels bi) by lia.
  destruct (pending_at _ _ _ _ Hp Hi' Hk) as [Ht Hld].
  destruct (flip_pending _ _ _ _ _ Hp Hi' Hk eq_refl) as (b' & Hst & Hg' & Hp').
  destruct (bit_step i k Hi' Hk) as [Hc Hn].
  cbn [unset_loop]. rewrite shift_64, group_offset_off by lia. simpl. rewrite Hld. simpl.
  rewrite land_bit_mask, Ht, Hv. simpl. rewrite Hst. simpl.
  assert (Hnz : (Z.lxor (grp b i (k / 64)) (bit_mask k) =? 0) = false).
  { apply Z.eqb_neq. intros E. apply (f_equal (λ z, Z.testbit z (k mod 64))) in E.
    pose proof (Z.mod_pos_bound k 64).
    by rewrite Z.lxor_spec, bit_mask_testbit, Ht, Hv, Z.eqb_refl, Z.bits_0 in E by lia. }
  rewrite Hnz in Hp'. destruct (grp b i (k / 64) =? 0) eqn:Ez; simpl in *.
  - apply IH; [lia|done|lia|lia|]. intros Hlt. unfold val.
    rewrite (proj2 (Z.eqb_neq (i + 1) 0)) by lia. replace (i + 1 - 1) with i by lia.
    by rewrite Hg', Hnz.
  - exists b'. split; [done|]. by eapply pending_out; [|exact Hp'].
Qed.

Lemma bit_step_0 k : 1 < nlevels bi → 0 ≤ k < nbits bi → 0 ≤ k / 64 < nb bi 1.
Proof.
  intros Hn Hk. destruct (bit_step 0 k) as [? H1]; [lia|done|].
  change (0 + 1) with 1 in H1. split; [lia|]. apply H1. lia.
Qed.

Lemma holds_pending (S S' : gset Z) b k :
  holds S b → 0 ≤ k < nbits bi →
  (∀ k', 0 ≤ k' < nbits bi → bool_decide (k' ∉ S') = xorb (bool_decide (k' ∉ S)) (k' =? k)) →
  pending S' b 0 k.
Proof.
  intros [(Hlen & Hu & Hb) HS] Hk HS'. split_and!; [done..|]. intros i k' Hi Hk'.
  rewrite Hb by done. rewrite (proj2 (Z.eqb_neq i (nlevels bi))) by lia. simpl.
  unfold val. destruct (Z.eqb_spec i 0) as [->|]; simpl; [|done].
  destruct (Z.ltb_spec k' (nb bi 0)) as [Hlt|]; simpl; [|done].
  change (nb bi 0) with (nbits bi) in Hlt. rewrite HS' by lia.
  rewrite xorb_false_r. by destruct (bool_decide _), (k' =? k).
Qed.

Lemma holds_bit S b k :
  holds S b → 0 ≤ k < nbits bi →
  load b (k / 64) = Some (grp b 0 (k / 64)) ∧
  Z.testbit (grp b 0 (k / 64)) (k mod 64) = bool_decide (k ∉ S).
Proof.
  intros [(Hlen & Hu & Hb) _] Hk. pose proof (ok_nlevels _ Hbi). pose proof (nb_cnt 0).
  change (nb bi 0) with (nbits bi) in *. split.
  - replace (k / 64) with (off bi 0 + k / 64) at 1 by (rewrite (ok_off0 _ Hbi); lia).
    apply load_grp; [done|lia|]. apply bit_step; [lia|done].
  - specialize (Hb 0 k ltac:(lia) ltac:(lia)). unfold lbit in Hb. rewrite Hb.
    change (nb bi 0) with (nbits bi). rewrite (proj2 (Z.ltb_lt k (nbits bi))) by lia.
    rewrite (proj2 (Z.eqb_neq 0 (nlevels bi))) by lia. simpl. by rewrite xorb_false_r.
Qed.

Lemma get_ok S b k :
  holds S b → 0 ≤ k < nbits bi → bitmap_get b bi k = Some (bool_decide (k ∈ S)).
Proof.
  intros Hh Hk. destruct (holds_bit S b k Hh Hk) as [Hld Ht]. unfold bitmap_get.
  rewrite (proj2 (Z.ltb_lt k (nbits bi))) by lia. rewrite assert_true, shift_64, Hld. simpl.
  rewrite land_bit_mask, Ht. f_equal. by do 2 case_bool_decide.
Qed.

(** Level 0 after its bit was inverted, before the propagation. *)
Lemma get_flipped b k g b' :
  off bi (nlevels bi) ≤ Z.of_nat (length b') → 0 ≤ k < nbits bi →
  grp b' 0 (k / 64) = Z.lxor g (bit_mask k) → grp b 0 (k / 64) = g →
  bitmap_get b' bi k = Some (Z.testbit g (k mod 64)).
Proof.
  intros Hlen Hk Hg' Hg. pose proof (ok_nlevels _ Hbi). unfold bitmap_get.
  rewrite (proj2 (Z.ltb_lt k (nbits bi))) by lia. rewrite assert_true, shift_64.
  replace (k / 64) with (off bi 0 + k / 64) by (rewrite (ok_off0 _ Hbi); lia).
  rewrite load_grp; [|done|lia|apply bit_step; [lia|done]]. simpl.
  rewrite land_bit_mask, Hg', Z.lxor_spec, bit_mask_testbit, Z.eqb_refl; [|apply Z.mod_pos_bound; lia].
  by destruct (Z.testbit g _).
Qed.

Lemma set_ok S b k :
  holds S b → 0 ≤ k < nbits bi → k ∉ S →
  ∃ b', bitmap_set b bi k = Some b' ∧ holds (S ∪ {[k]}) b'.
Proof.
  intros Hh Hk HkS. pose proof (ok_nlevels _ Hbi).
  destruct (holds_bit S b k Hh Hk) as [Hld Ht]. rewrite bool_decide_true in Ht by done.
  assert (Hp : pending (S ∪ {[k]}) b 0 k).
  { eapply holds_pending; [done..|]. intros k' _.
    by apply notin_union. }
  destruct (flip_pending _ _ 0 k _ Hp ltac:(lia) Hk eq_refl) as (b' & Hst & Hg' & Hp').
  rewrite (ok_off0 _ Hbi) in Hst. change (0 + k / 64) with (k / 64) in Hst.
  assert (Hnz : (grp b 0 (k / 64) =? 0) = false).
  { apply Z.eqb_neq. intros E. by rewrite E, Z.bits_0 in Ht. }
  assert (HS : ∀ k', k' ∈ S ∪ {[k]} → 0 ≤ k' < nbits bi).
  { intros k' [Hk'| ->%elem_of_singleton]%elem_of_union; [by apply Hh|done]. }
  unfold bitmap_set. rewrite (get_ok S) by done. rewrite bool_decide_false by done.
  rewrite (proj2 (Z.ltb_lt k (nbits bi))) by lia. rewrite assert_true. simpl.
  rewrite shift_64, Hld. simpl. rewrite land_bit_mask, Ht. simpl. rewrite Hst. simpl.
  rewrite (get_flipped b k (grp b 0 (k / 64)) b'), Ht; [|by apply Hp'|done|done|done]. simpl.
  rewrite Hnz in Hp'. destruct (Z.lxor _ _ =? 0) eqn:Ez; simpl in Hp'.
  - destruct (set_loop_ok _ b' 1 (k / 64) Hp') as (b'' & E & Hp''); [lia|..].
    + intros. by apply bit_step_0.
    + intros. unfold val. change (1 - 1) with 0. by rewrite Hg', Ez.
    + exists b''. rewrite E. done.
  - exists b'. split; [done|]. split; [|exact HS]. by eapply pending_out; [|exact Hp'].
Qed.

Lemma unset_ok S b k :
  holds S b → k ∈ S →
  ∃ b', bitmap_unset b bi k = Some b' ∧ holds (S ∖ {[k]}) b'.
Proof.
  intros Hh HkS. pose proof (ok_nlevels _ Hbi). assert (Hk : 0 ≤ k < nbits bi) by (by apply Hh).
  destruct (holds_bit S b k Hh Hk) as [Hld Ht]. rewrite bool_decide_false in Ht by set_solver.
  assert (Hp : pending (S ∖ {[k]}) b 0 k).
  { eapply holds_pending; [done..|]. intros k' _.
    by apply notin_difference. }
  destruct (flip_pending _ _ 0 k _ Hp ltac:(lia) Hk eq_refl) as (b' & Hst & Hg' & Hp').
  rewrite (ok_off0 _ Hbi) in Hst. change (0 + k / 64) with (k / 64) in Hst.
  assert (HS : ∀ k', k' ∈ S ∖ {[k]} → 0 ≤ k' < nbits bi).
  { intros k' Hk'. apply Hh. set_solver. }
  assert (Hnz : (Z.lxor (grp b 0 (k / 64)) (bit_mask k) =? 0) = false).
  { apply Z.eqb_neq. intros E. apply (f_equal (λ z, Z.testbit z (k mod 64))) in E.
    pose proof (Z.mod_pos_bound k 64).
    by rewrite Z.lxor_spec, bit_mask_testbit, Ht, Z.eqb_refl, Z.bits_0 in E by lia. }
  unfold bitmap_unset. rewrite (get_ok S) by done. rewrite bool_decide_true by done.
  rewrite (proj2 (Z.ltb_lt k (nbits bi))) by lia. rewrite assert_true. simpl.
  rewrite shift_64, Hld. simpl. rewrite land_bit_mask, Ht. simpl. rewrite Hst. simpl.
  rewrite (get_flipped b k (grp b 0 (k / 64)) b'), Ht; [|by apply Hp'|done|done|done]. simpl.
  rewrite Hnz in Hp'. destruct (grp b 0 (k / 64) =? 0) eqn:Ez; simpl in Hp'.
  - destruct (unset_loop_ok _ b' 1 (k / 64) Hp') as (b'' & E & Hp''); [lia|..].
    + intros. by apply bit_step_0.
    + intros. unfold val. change (1 - 1) with 0. by rewrite Hg', Hnz.
    + exists b''. rewrite E. done.
  - exists b'. split; [done|]. split; [|exact HS]. by eapply pending_out; [|exact Hp'].
Qed.

(** ** Fullness and the first unset bit *)

Lemma holds_lbit S b i k :
  holds S b → 0 ≤ i < nlevels bi → 0 ≤ k < 64 * cnt bi i →
  lbit b i k = (k <? nb bi i) && val S b i k.
Proof.
  intros [(_ & _ & Hb) _] Hi Hk. rewrite Hb by done.
  rewrite (proj2 (Z.eqb_neq i (nlevels bi))) by lia. by rewrite xorb_false_r.
Qed.

Lemma holds_load S b i j :
  holds S b → 0 ≤ i < nlevels bi → 0 ≤ j < cnt bi i →
  load b (off bi i + j) = Some (grp b i j) ∧ is_u64 (grp b i j).
Proof. intros [(Hlen & Hu & _) _] Hi Hj. split; [by apply load_grp|by apply Hu]. Qed.

Lemma lbit_split b i j n : 0 ≤ n < 64 → lbit b i (64 * j + n) = Z.testbit (grp b i j) n.
Proof.
  intros Hn. unfold lbit. f_equal.
  - f_equal. symmetry. apply (Z.div_unique_pos _ 64 j n); lia.
  - symmetry. apply (Z.mod_unique_pos _ 64 j n); lia.
Qed.

Lemma group_zero S b i j :
  holds S b → 0 ≤ i < nlevels bi → 0 ≤ j < cnt bi i →
  grp b i j = 0 ↔ ∀ n, 0 ≤ n < 64 → lbit b i (64 * j + n) = false.
Proof.
  intros Hh Hi Hj. destruct (holds_load _ _ _ _ Hh Hi Hj) as [_ Hu]. split.
  - intros E n Hn. rewrite lbit_split, E by done. apply Z.bits_0.
  - intros H0. apply testbit_small_zero; [done|]. intros n Hn. rewrite <- lbit_split by done. auto.
Qed.

Lemma level_zero S b i :
  holds S b → 0 ≤ i < nlevels bi →
  (∀ j, 0 ≤ j < cnt bi i → grp b i j = 0) ↔ (∀ k, 0 ≤ k < nbits bi → k ∈ S).
Proof.
  intros Hh Hi.
  assert (Hlev : ∀ i, 0 ≤ i < nlevels bi →
    (∀ j, 0 ≤ j < cnt bi i → grp b i j = 0) ↔ (∀ k, 0 ≤ k < nb bi i → val S b i k = false)).
  { clear i Hi. intros i Hi. pose proof (nb_cnt i Hi). split.
    - intros H0 k Hk. pose proof (holds_lbit S b i k Hh Hi ltac:(lia)) as Hl.
      rewrite (proj2 (Z.ltb_lt k (nb bi i))) in Hl by lia. simpl in Hl. rewrite <- Hl.
      unfold lbit. rewrite H0 by (by apply bit_step). apply Z.bits_0.
    - intros H0 j Hj. apply (group_zero S); [done..|]. intros n Hn.
      rewrite (holds_lbit S) by (done || lia).
      destruct (Z.ltb_spec (64 * j + n) (nb bi i)); [|done]. simpl. apply H0. lia. }
  destruct Hi as [Hi0 Hi]. revert Hi. pattern i. apply natlike_ind; [..|done].
  - intros Hi. rewrite Hlev by lia. change (nb bi 0) with (nbits bi). unfold val. simpl.
    split; intros H0 k Hk; specialize (H0 k Hk); case_bool_decide; try done.
  - clear i Hi0. intros i Hi0 IH Hi. rewrite <- IH, Hlev by lia.
    change (Z.succ i) with (i + 1). rewrite nb_succ by lia. unfold val.
    rewrite (proj2 (Z.eqb_neq (i + 1) 0)) by lia. replace (i + 1 - 1) with i by lia.
    split; intros H0 j Hj; specialize (H0 j Hj).
    + by apply negb_false_iff, Z.eqb_eq in H0.
    + by rewrite H0.
Qed.

Lemma full_ok S b :
  holds S b → bitmap_full b bi = Some (bool_decide (Forall (.∈ S) (seqZ 0 (nbits bi)))).
Proof.
  intros Hh. pose proof (ok_nlevels _ Hbi). pose proof (ok_top _ Hbi) as Htop.
  unfold bitmap_full. rewrite group_offset_off by lia. simpl.
  replace (off bi (nlevels bi) - 1) with (off bi (nlevels bi - 1) + 0)
    by (unfold cnt in Htop; replace (nlevels bi - 1 + 1) with (nlevels bi) in Htop by lia; lia).
  destruct (holds_load S b (nlevels bi - 1) 0 Hh) as [-> _]; [lia..|]. simpl. f_equal.
  apply eq_bool_prop_intro. rewrite bool_decide_spec, Is_true_true, Z.eqb_eq.
  transitivity (∀ j, 0 ≤ j < cnt bi (nlevels bi - 1) → grp b (nlevels bi - 1) j = 0).
  - split; [intros E j Hj; by replace j with 0 by lia|]. intros H0. apply H0. lia.
  - rewrite (level_zero S), Forall_forall by (done || lia). split; intros H0 k Hk; apply H0.
    + apply elem_of_seqZ in Hk. lia.
    + apply elem_of_seqZ. lia.
Qed.
End layout.

Lemma ffs_fold g m n :
  0 ≤ n → 0 ≤ m →
  let r := foldr (λ i r, if Z.testbit g i then i + 1 else r) 0 (seqZ m n) in
  (r = 0 ∧ ∀ k, m ≤ k < m + n → Z.testbit g k = false) ∨
  (m < r ≤ m + n ∧ Z.testbit g (r - 1) = true ∧ ∀ k, m ≤ k < r - 1 → Z.testbit g k = false).
Proof.
  intros Hn. revert m. pattern n. apply natlike_ind; [..|done].
  - intros m Hm. left. rewrite seqZ_nil by lia. split; [done|lia].
  - clear n Hn. intros n Hn IH m Hm. rewrite seqZ_cons, Z.pred_succ by lia. simpl.
    destruct (Z.testbit g m) eqn:E.
    + right. replace (m + 1 - 1) with m by lia. split_and!; [lia|lia|done|lia].
    + destruct (IH (Z.succ m)) as [[-> H0]|(Hr & Ht & H0)]; [lia|left|right].
      * split; [done|]. intros k Hk. destruct (Z.eq_dec k m) as [->|]; [done|]. apply H0. lia.
      * split_and!; [lia|lia|done|]. intros k Hk.
        destruct (Z.eq_dec k m) as [->|]; [done|]. apply H0. lia.
Qed.

Lemma ffsl_spec g :
  is_u64 g → g ≠ 0 →
  0 < ffsl g ≤ 64 ∧ Z.testbit g (ffsl g - 1) = true ∧
  ∀ n, 0 ≤ n < ffsl g - 1 → Z.testbit g n = false.
Proof.
  intros Hg Hnz. destruct (ffs_fold g 0 64) as [[_ H0]|H0]; [lia|lia| |exact H0].
  exfalso. apply Hnz, testbit_small_zero; [done|]. intros. apply H0. lia.
Qed.

Section operations.
Context (bi : bitmap_info) (Hbi : info_ok bi).
Implicit Types (b : bitmap) (i j k g : Z).

Definition first_set b i k : Prop :=
  0 ≤ k < nb bi i ∧ lbit bi b i k = true ∧ ∀ k', 0 ≤ k' < k → lbit bi b i k' = false.

(** The lowest bit set in the first non-zero group of a level. *)
Lemma first_set_group S b i j :
  holds bi S b → 0 ≤ i < nlevels bi → 0 ≤ j < cnt bi i → grp bi b i j ≠ 0 →
  (∀ j', 0 ≤ j' < j → grp bi b i j' = 0) →
  first_set b i (64 * j + (ffsl (grp bi b i j) - 1)).
Proof.
  intros Hh Hi Hj Hnz Hz. destruct (holds_load bi Hbi _ _ _ _ Hh Hi Hj) as [_ Hu].
  destruct (ffsl_spec _ Hu Hnz) as (Hf & Ht & H0). set (n := ffsl (grp bi b i j) - 1) in *.
  assert (Hl : lbit bi b i (64 * j + n) = true) by (rewrite lbit_split by lia; done).
  split_and!; [lia| |done|].
  - rewrite (holds_lbit bi S) in Hl by (done || lia).
    destruct (Z.ltb_spec (64 * j + n) (nb bi i)); [done|discriminate].
  - intros k' Hk'. pose proof (Z.div_mod k' 64). pose proof (Z.mod_pos_bound k' 64).
    replace k' with (64 * (k' / 64) + k' mod 64) by lia. rewrite lbit_split by lia.
    destruct (Z.eq_dec (k' / 64) j) as [E|]; [rewrite E; apply H0; lia|].
    rewrite Hz by lia. apply Z.bits_0.
Qed.

(** The first bit set in level [i + 1] leads to the first one of level [i]. *)
Lemma first_set_down S b i k :
  holds bi S b → 0 ≤ i → i + 1 < nlevels bi → first_set b (i + 1) k →
  load b (off bi i + k) = Some (grp bi b i k) ∧
  first_set b i (64 * k + (ffsl (grp bi b i k) - 1)).
Proof.
  intros Hh Hi0 Hi (Hk & Ht & H0). rewrite nb_succ in Hk by done.
  pose proof (nb_cnt bi Hbi (i + 1) ltac:(lia)) as Hc. rewrite nb_succ in Hc by done.
  assert (Hv : ∀ k', 0 ≤ k' < cnt bi i → lbit bi b (i + 1) k' = negb (grp bi b i k' =? 0)).
  { intros k' Hk'. rewrite (holds_lbit bi S) by (done || lia). unfold val.
    rewrite nb_succ, (proj2 (Z.ltb_lt k' _)), (proj2 (Z.eqb_neq (i + 1) 0)) by lia.
    by replace (i + 1 - 1) with i by lia. }
  split; [apply (holds_load bi Hbi S); (done || lia)|].
  apply (first_set_group S); [done|lia|lia|..].
  - rewrite Hv in Ht by lia. by apply Z.eqb_neq, negb_true_iff.
  - intros j' Hj'. specialize (H0 j' Hj'). rewrite Hv in H0 by lia.
    by apply Z.eqb_eq, negb_false_iff.
Qed.

Lemma nb_le i : 0 ≤ i < nlevels bi → nb bi i ≤ nbits bi.
Proof.
  intros [Hi0 Hi]. revert Hi. pattern i. apply natlike_ind; [..|done].
  - done.
  - clear i Hi0. intros i Hi0 IH Hi. change (Z.succ i) with (i + 1). rewrite nb_succ by lia.
    pose proof (cnt_pos_nb bi Hbi i). lia.
Qed.

Lemma sfu_loop_ok S b (n : nat) k :
  holds bi S b → Z.of_nat n < nlevels bi → first_set b (Z.of_nat n) k →
  ∃ k', sfu_loop bi n k b = Some k' ∧ first_set b 0 k'.
Proof.
  intros Hh. revert k. induction n as [|n IH]; intros k Hn Hk; [by exists k|].
  rewrite Nat2Z.inj_succ, <- Z.add_1_r in Hn, Hk.
  destruct (first_set_down _ _ (Z.of_nat n) _ Hh ltac:(lia) Hn Hk) as [Hld Hf].
  cbn [sfu_loop]. rewrite (group_offset_off bi Hbi) by lia. simpl. rewrite Hld. simpl.
  rewrite Z.shiftl_mul_pow2 by done. change (2 ^ LG_BITMAP_GROUP_NBITS) with 64.
  rewrite (Z.mul_comm k 64), u64_small; [apply IH; [lia|done]|].
  pose proof (nb_le (Z.of_nat n) ltac:(lia)). pose proof (ok_nbits _ Hbi).
  destruct Hf as [Hf _]. split; lia.
Qed.

Lemma sfu_ok S b :
  holds bi S b → (∃ k, 0 ≤ k < nbits bi ∧ k ∉ S) →
  ∃ b' k, bitmap_sfu b bi = Some (b', k) ∧ 0 ≤ k < nbits bi ∧ k ∉ S ∧
    (∀ k', 0 ≤ k' < k → k' ∈ S) ∧ holds bi (S ∪ {[k]}) b'.
Proof.
  intros Hh [k0 [Hk0 Hk0S]]. pose proof (ok_nlevels _ Hbi). pose proof (ok_top _ Hbi) as Htop.
  set (top := nlevels bi - 1) in *.
  assert (Hg : grp bi b top 0 ≠ 0).
  { intros E. apply Hk0S. apply (level_zero bi Hbi S b top); [done|lia| |done].
    intros j Hj. by replace j with 0 by lia. }
  assert (Hf : first_set b top (64 * 0 + (ffsl (grp bi b top 0) - 1)))
    by (apply (first_set_group S); (done || lia)).
  change (64 * 0) with 0 in Hf. rewrite Z.add_0_l in Hf.
  destruct (sfu_loop_ok S b (Z.to_nat top) (ffsl (grp bi b top 0) - 1) Hh) as (k & Hl & Hk & Ht & H0);
    [lia|by rewrite Z2Nat.id by lia|].
  assert (Hval : ∀ k', 0 ≤ k' < nbits bi → lbit bi b 0 k' = bool_decide (k' ∉ S)).
  { intros k' Hk'. destruct (holds_bit bi Hbi S b k' Hh Hk') as [_ E]. exact E. }
  change (nb bi 0) with (nbits bi) in Hk. rewrite Hval in Ht by done. apply bool_decide_eq_true in Ht.
  destruct (set_ok bi Hbi S b k Hh Hk Ht) as (b' & Hset & Hh').
  exists b', k. split_and!; [|lia|lia|done| |done].
  - unfold bitmap_sfu. rewrite (full_ok bi Hbi S) by done. rewrite bool_decide_false.
    2: { rewrite Forall_forall. intros Hall. apply Ht, Hall, elem_of_seqZ. lia. }
    simpl. fold top. rewrite (group_offset_off bi Hbi) by lia. simpl.
    destruct (holds_load bi Hbi S b top 0 Hh) as [E _]; [lia..|].
    rewrite Z.add_0_r in E. rewrite E. simpl. destruct Hf as [Hf _].
    pose proof (nb_le top ltac:(lia)). pose proof (ok_nbits _ Hbi).
    rewrite u64_small by (split; lia). rewrite Hl. simpl. by rewrite Hset.
  - intros k' Hk'. specialize (H0 k' Hk'). rewrite Hval in H0 by lia.
    apply bool_decide_eq_false in H0. by apply dec_stable.
Qed.
(** ** Initialisation *)

Lemma shiftr_ones e : 0 ≤ e ≤ 64 → Z.shiftr (Z.ones 64) e = Z.ones (64 - e).
Proof.
  intros He. apply Z.bits_inj'. intros n Hn.
  rewrite Z.shiftr_spec, !Z.testbit_ones_nonneg by lia.
  destruct (Z.ltb_spec (n + e) 64), (Z.ltb_spec n (64 - e)); lia || done.
Qed.

(** The last groups of the levels below [n] are shifted, all other groups are
    all ones. *)
Definition inited n b : Prop :=
  off bi (nlevels bi) ≤ Z.of_nat (length b) ∧
  ∀ i j, 0 ≤ i < nlevels bi → 0 ≤ j < cnt bi i →
    grp bi b i j =
      if (i <? n) && (j =? cnt bi i - 1) then Z.ones (64 - extra_bits (nb bi i)) else Z.ones 64.

Lemma shift_last_inited b i :
  inited i b → 0 ≤ i < nlevels bi →
  ∃ b', shift_last b (off bi (i + 1) - 1) (extra_bits (nb bi i)) = Some b' ∧
    length b' = length b ∧ inited (i + 1) b'.
Proof.
  intros [Hlen Hb] Hi. pose proof (cnt_pos_nb bi Hbi i Hi) as (_ & Hc & _).
  destruct (extra_bits_spec (nb bi i)) as [He _].
  assert (Hidx : off bi (i + 1) - 1 = off bi i + (cnt bi i - 1)) by (unfold cnt; lia).
  rewrite Hidx. unfold shift_last. destruct (Z.eqb_spec (extra_bits (nb bi i)) 0) as [E|Hne].
  - exists b. split_and!; [done..|]. split; [done|]. intros i' j' Hi' Hj'. rewrite Hb by done.
    destruct (Z.ltb_spec i' i), (Z.ltb_spec i' (i + 1)); simpl; try lia; try done.
    replace i' with i by lia. rewrite E. by destruct (_ =? _).
  - rewrite (load_grp bi Hbi) by (done || lia). simpl. rewrite Hb by lia.
    rewrite Z.ltb_irrefl. simpl.
    destruct (store_grp bi Hbi b i (cnt bi i - 1) (Z.shiftr (Z.ones 64) (extra_bits (nb bi i))))
      as (b' & -> & Hl & Hg); [done|lia|lia|].
    exists b'. split_and!; [done..|]. split; [by rewrite Hl|]. intros i' j' Hi' Hj'. rewrite Hg by done.
    destruct (Z.eqb_spec i' i) as [->|]; simpl.
    + rewrite (proj2 (Z.ltb_lt i (i + 1))) by lia. simpl.
      destruct (Z.eqb_spec j' (cnt bi i - 1)) as [->|]; [apply shiftr_ones; lia|].
      rewrite Hb, Z.ltb_irrefl by done. done.
    + rewrite Hb by done. destruct (Z.ltb_spec i' i), (Z.ltb_spec i' (i + 1)); simpl; try lia; done.
Qed.

Lemma init_loop_ok b i (n : nat) :
  inited i b → 1 ≤ i → nlevels bi = i + Z.of_nat n →
  ∃ b', init_loop bi n i b = Some b' ∧ length b' = length b ∧ inited (nlevels bi) b'.
Proof.
  revert b i. induction n as [|n IH]; intros b i Hb Hi Hn.
  - exists b. split_and!; [done..|]. by replace (nlevels bi) with i by lia.
  - destruct (shift_last_inited b i Hb ltac:(lia)) as (b' & E & <- & Hb').
    cbn [init_loop]. rewrite !(group_offset_off bi Hbi) by lia. simpl.
    assert (Hnb : off bi i - off bi (i - 1) = nb bi i)
      by (unfold nb; by rewrite (proj2 (Z.eqb_neq i 0)) by lia).
    rewrite Hnb, E. simpl. apply IH; [done|lia|lia].
Qed.

Lemma ones_u64 n : 0 ≤ n ≤ 64 → is_u64 (Z.ones n).
Proof.
  intros Hn. rewrite Z.ones_equiv. pose proof (pow2_pos n ltac:(lia)).
  pose proof (Z.pow_le_mono_r 2 n 64 ltac:(lia) ltac:(lia)). split; lia.
Qed.

Lemma inited_holds b : inited (nlevels bi) b → holds bi ∅ b.
Proof.
  intros [Hlen Hb]. split; [|set_solver].
  assert (Hb' : ∀ i j, 0 ≤ i < nlevels bi → 0 ≤ j < cnt bi i → grp bi b i j =
     Z.ones (if j =? cnt bi i - 1 then 64 - extra_bits (nb bi i) else 64)).
  { intros i j Hi Hj. rewrite Hb by done. rewrite (proj2 (Z.ltb_lt i _)) by lia. simpl.
    by destruct (_ =? _). }
  split_and!; [done|..].
  - intros i j Hi Hj. rewrite Hb' by done. destruct (extra_bits_spec (nb bi i)) as [He _].
    apply ones_u64. destruct (_ =? _); lia.
  - intros i k Hi Hk. pose proof (bit_step bi Hbi i).
    destruct (extra_bits_spec (nb bi i)) as [He Hnb]. rewrite <- (ok_cnt _ Hbi) in Hnb by done.
    pose proof (Z.div_mod k 64). pose proof (Z.mod_pos_bound k 64).
    assert (Hkc : 0 ≤ k / 64 < cnt bi i) by lia.
    rewrite (proj2 (Z.eqb_neq i (nlevels bi))) by lia. simpl. rewrite xorb_false_r.
    assert (Hv : k < nb bi i → val bi ∅ b i k = true).
    { intros Hkn. unfold val. destruct (Z.eqb_spec i 0) as [->|]; [apply bool_decide_true; set_solver|].
      apply negb_true_iff, Z.eqb_neq.
      assert (0 ≤ k < cnt bi (i - 1)).
      { rewrite <- nb_succ by lia. by replace (i - 1 + 1) with i by lia; lia. }
      rewrite Hb' by lia. destruct (extra_bits_spec (nb bi (i - 1))) as [He' _].
      rewrite Z.ones_equiv. intros E.
      pose proof (Z.pow_le_mono_r 2 1 (if k =? cnt bi (i - 1) - 1 then 64 - extra_bits (nb bi (i - 1)) else 64)).
      destruct (k =? _); lia. }
    unfold lbit. rewrite Hb' by done.
    destruct (Z.eqb_spec (k / 64) (cnt bi i - 1)); rewrite Z.testbit_ones_nonneg by lia;
      destruct (Z.ltb_spec k (nb bi i)) as [Hkn|Hkn]; simpl; rewrite ?Hv by done;
      (apply Z.ltb_lt || apply Z.ltb_ge); lia.
Qed.

Lemma init_ok b :
  off bi (nlevels bi) ≤ Z.of_nat (length b) →
  ∃ b', bitmap_init b bi = Some b' ∧ length b' = length b ∧ holds bi ∅ b'.
Proof.
  intros Hlen. pose proof (ok_nlevels _ Hbi). pose proof (off_nonneg bi Hbi (nlevels bi)).
  unfold bitmap_init. rewrite !(group_offset_off bi Hbi) by lia. simpl.
  rewrite (proj2 (Z.leb_le _ _)) by lia. rewrite assert_true.
  set (b0 := replicate _ _ ++ _).
  assert (Hlen0 : length b0 = length b) by (unfold b0; rewrite length_app, length_replicate, length_drop; lia).
  assert (Hb0 : inited 0 b0).
  { split; [by rewrite Hlen0|]. intros i j Hi Hj. rewrite (proj2 (Z.ltb_ge i 0)) by lia. simpl.
    pose proof (group_bound bi Hbi i j Hi Hj). unfold grp, b0.
    rewrite lookup_app_l by (rewrite length_replicate; lia).
    by rewrite lookup_replicate_2 by lia. }
  destruct (shift_last_inited b0 0 Hb0 ltac:(lia)) as (b1 & E1 & Hl1 & Hb1).
  change (0 + 1) with 1 in *. change (nb bi 0) with (nbits bi) in E1. rewrite E1. simpl.
  destruct (init_loop_ok b1 1 (Z.to_nat (nlevels bi - 1)) Hb1) as (b2 & E2 & Hl2 & Hb2); [lia|lia|].
  exists b2. split_and!; [done|congruence|by apply inited_holds].
Qed.
End operations.

(** ** The abstract bitmap: a set of bit numbers below [n] *)

Inductive bitmap_op := Get (bit : Z) | Set_ (bit : Z) | Unset (bit : Z) | Sfu | Full.

Definition spec_step (n : Z) (S : gset Z) (o : bitmap_op) : option (gset Z * Z) :=
  match o with
  | Get k => assert! ((0 <=? k) && (k <? n)); Some (S, Z.b2z (bool_decide (k ∈ S)))
  | Set_ k => assert! ((0 <=? k) && (k <? n) && bool_decide (k ∉ S)); Some (S ∪ {[k]}, 0)
  | Unset k => assert! bool_decide (k ∈ S); Some (S ∖ {[k]}, 0)
  | Sfu => '(_, k) ← list_find (.∉ S) (seqZ 0 n); Some (S ∪ {[k]}, k)
  | Full => Some (S, Z.b2z (bool_decide (Forall (.∈ S) (seqZ 0 n))))
  end.

Definition impl_step (bi : bitmap_info) (b : bitmap) (o : bitmap_op) : option (bitmap * Z) :=
  match o with
  | Get k => r ← bitmap_get b bi k; Some (b, Z.b2z r)
  | Set_ k => b ← bitmap_set b bi k; Some (b, 0)
  | Unset k => b ← bitmap_unset b bi k; Some (b, 0)
  | Sfu => bitmap_sfu b bi
  | Full => r ← bitmap_full b bi; Some (b, Z.b2z r)
  end.

(** A sequence of operations with the results it returns. *)
Fixpoint run {T} (step : T → bitmap_op → option (T * Z)) (s : T) (ops : list bitmap_op) :
    option (T * list Z) :=
  match ops with
  | [] => Some (s, [])
  | o :: ops => '(s, r) ← step s o; '(s, rs) ← run step s ops; Some (s, r :: rs)
  end.

Lemma list_find_seqZ (S : gset Z) n i k :
  list_find (.∉ S) (seqZ 0 n) = Some (i, k) ↔
  i = Z.to_nat k ∧ 0 ≤ k < n ∧ k ∉ S ∧ ∀ k', 0 ≤ k' < k → k' ∈ S.
Proof.
  rewrite list_find_Some. split.
  - intros (Hi & HkS & Hlt). apply lookup_seqZ in Hi as [Hk Hi]. split_and!; [lia|lia|lia|done|].
    intros k' Hk'. apply dec_stable, (Hlt (Z.to_nat k')); [|lia]. apply lookup_seqZ. lia.
  - intros (-> & Hk & HkS & Hlt). split_and!; [apply lookup_seqZ; lia|done|].
    intros j y Hj Hji. apply lookup_seqZ in Hj as [-> Hj]. intros Hn. apply Hn, Hlt. lia.
Qed.

Lemma step_refines bi S b o S' r :
  info_ok bi → holds bi S b → spec_step (nbits bi) S o = Some (S', r) →
  ∃ b', impl_step bi b o = Some (b', r) ∧ holds bi S' b'.
Proof.
  intros Hbi Hh. destruct o as [k|k|k| |]; simpl.
  - rewrite assert_Some, andb_true_iff, Z.leb_le, Z.ltb_lt. intros [Hk [= <- <-]].
    exists b. by rewrite (get_ok bi Hbi S).
  - rewrite assert_Some, !andb_true_iff, Z.leb_le, Z.ltb_lt, bool_decide_eq_true.
    intros [[Hk HkS] [= <- <-]].
    destruct (set_ok bi Hbi S b k Hh Hk HkS) as (b' & -> & Hh'). by exists b'.
  - rewrite assert_Some, bool_decide_eq_true. intros [HkS [= <- <-]].
    destruct (unset_ok bi Hbi S b k Hh HkS) as (b' & -> & Hh'). by exists b'.
  - destruct (list_find _ _) as [[i k]|] eqn:E; [|done]. intros [= <- <-].
    apply list_find_seqZ in E as (-> & Hk & HkS & Hlt).
    destruct (sfu_ok bi Hbi S b Hh) as (b' & k' & -> & Hk' & HkS' & Hlt' & Hh'); [by exists k|].
    assert (k' = k) as ->; [|by exists b'].
    destruct (Z.lt_trichotomy k' k) as [Hl|[->|Hl]]; [|done|].
    + exfalso. apply HkS', Hlt. lia.
    + exfalso. apply HkS, Hlt'. lia.
  - intros [= <- <-]. exists b. by rewrite (full_ok bi Hbi S).
Qed.

(** ** Properties *)

(** The layout computed for [n] bits stays within the level array, ends in
    a level of one group, and [bitmap_size] is the size of all its groups. *)
Theorem bitmap_layout n :
  0 < n ≤ 2 ^ LG_BITMAP_MAXBITS →
  ∃ bi, bitmap_info_init n = Some bi ∧ info_ok bi ∧ nbits bi = n ∧
    bitmap_size n = Some (8 * off bi (nlevels bi)) ∧
    (∀ i, 0 ≤ i < nlevels bi → nb bi i ≤ 64 * cnt bi i < nb bi i + 64).
Proof.
  intros Hn. destruct (bitmap_info_init_correct n Hn) as (bi & E & Hnb & Hok).
  exists bi. split_and!; [done..| |by apply nb_cnt].
  unfold bitmap_size, bitmap_info_ngroups. rewrite E. simpl. pose proof (ok_nlevels _ Hok).
  rewrite (group_offset_off bi Hok) by lia. simpl. rewrite Z.shiftl_mul_pow2 by done.
  f_equal. change (2 ^ LG_SIZEOF_BITMAP) with 8. lia.
Qed.

Lemma bitmap_layout_witness :
  ∃ bi, bitmap_info_init 1000 = Some bi ∧ info_ok bi ∧ nbits bi = 1000 ∧
    bitmap_size 1000 = Some (8 * off bi (nlevels bi)) ∧
    (∀ i, 0 ≤ i < nlevels bi → nb bi i ≤ 64 * cnt bi i < nb bi i + 64).
Proof. apply (bitmap_layout 1000). split; [reflexivity|discriminate]. Defined.

(** C20: a bitmap initialised in memory of any content and driven by any
    sequence of operations that a set of bits allows returns what the set
    returns: no assertion fails, no access leaves the array, [sfu] finds the
    least unset bit, [full] and [get] tell the truth. *)
Theorem bitmap_refines_set n (mem : bitmap) bi ops S rs :
  bitmap_info_init n = Some bi → 0 < n ≤ 2 ^ LG_BITMAP_MAXBITS →
  off bi (nlevels bi) ≤ Z.of_nat (length mem) →
  run (spec_step n) ∅ ops = Some (S, rs) →
  ∃ b b', bitmap_init mem bi = Some b ∧ run (impl_step bi) b ops = Some (b', rs) ∧ holds bi S b'.
Proof.
  intros E Hn Hmem Hrun.
  destruct (bitmap_info_init_correct n Hn) as (bi' & E' & Hnb & Hok).
  assert (bi' = bi) as -> by congruence.
  destruct (init_ok bi Hok mem Hmem) as (b & Hb & _ & Hh). exists b.
  cut (∃ b', run (impl_step bi) b ops = Some (b', rs) ∧ holds bi S b'); [naive_solver|].
  clear mem Hmem Hb E E'. subst n. generalize dependent rs.
  generalize dependent b. generalize (∅ : gset Z).
  induction ops as [|o ops IH]; intros S0 b Hh rs Hrun; simpl in Hrun.
  { simplify_eq. by exists b. }
  destruct (spec_step _ S0 o) as [[S1 r]|] eqn:Es; [|done]. simpl in Hrun.
  destruct (step_refines _ _ _ _ _ _ Hok Hh Es) as (b1 & Ei & Hh1).
  destruct (run _ S1 ops) as [[S2 rs']|] eqn:Er; [|done]. simplify_eq/=.
  destruct (IH _ _ Hh1 _ Er) as (b2 & Eb & Hh2). exists b2. by rewrite Ei; simpl; rewrite Eb.
Qed.

Lemma bitmap_refines_set_witness :
  ∃ b b', bitmap_init (replicate 4 7) (BitmapInfo 130 2 [0; 3; 4]) = Some b ∧
    run (impl_step (BitmapInfo 130 2 [0; 3; 4])) b [Sfu; Sfu; Set_ 129; Unset 0; Get 129; Full; Sfu]
      = Some (b', [0; 1; 0; 0; 1; 0; 0]) ∧
    holds (BitmapInfo 130 2 [0; 3; 4]) (((((∅ ∪ {[0]}) ∪ {[1]}) ∪ {[129]}) ∖ {[0]}) ∪ {[0]}) b'.
Proof.
  apply (bitmap_refines_set 130).
  - reflexivity.
  - split; [reflexivity|discriminate].
  - vm_compute. discriminate.
  - reflexivity.
Defined.
