(* ===== verification/SizeClass.v ===== *)
(** * Size classes

    The arithmetic every allocation goes through: the ceilings of
    jemalloc_internal.h, [pow2_ceil] of util.h, the size-class table of
    size_classes.h with the lookup table of arena.c, [s2u] and [sa2u], and the
    computation of the map bias ([arena_boot]). *)

From S2P Require Import Prelude Bitmap.

(** ** Options and the sizes derived from them *)

Class Config := {
  opt_lg_chunk : Z;
  opt_redzone : bool;
  lg_chunk_range : 15 ≤ opt_lg_chunk ≤ 63
}.

Definition LG_PAGE : Z := 13.
Definition PAGE : Z := Z.shiftl 1 LG_PAGE.
Definition PAGE_MASK : Z := PAGE - 1.
Definition LG_TINY_MIN : Z := 3.
Definition LG_QUANTUM : Z := 4.
Definition LONG_MASK : Z := 7.

(** [(s + mask) & ~mask] in 64-bit arithmetic. *)
Definition ceil_mask (s mask : Z) : Z := Z.land (u64 (s + mask)) (Z.lnot mask).

Definition PAGE_CEILING (s : Z) : Z := ceil_mask s PAGE_MASK.
Definition LONG_CEILING (s : Z) : Z := ceil_mask s LONG_MASK.
Definition ALIGNMENT_CEILING (s alignment : Z) : Z := Z.land (u64 (s + (alignment - 1))) (- alignment).
Definition ALIGNMENT_ADDR2BASE (a alignment : Z) : Z := Z.land a (- alignment).

Definition pow2_ceil (x : Z) : Z :=
  let x := u64 (x - 1) in
  let x := Z.lor x (Z.shiftr x 1) in
  let x := Z.lor x (Z.shiftr x 2) in
  let x := Z.lor x (Z.shiftr x 4) in
  let x := Z.lor x (Z.shiftr x 8) in
  let x := Z.lor x (Z.shiftr x 16) in
  let x := Z.lor x (Z.shiftr x 32) in
  u64 (x + 1).

(** ** Size classes *)

(** [SIZE_CLASS(bin, delta, sz)] for 8 kB pages. *)
Definition SIZE_CLASSES : list (Z * Z * Z) :=
  [(0, 8, 8); (1, 8, 16); (2, 16, 32); (3, 16, 48); (4, 16, 64); (5, 16, 80); (6, 16, 96);
   (7, 16, 112); (8, 16, 128); (9, 32, 160); (10, 32, 192); (11, 32, 224); (12, 32, 256);
   (13, 64, 320); (14, 64, 384); (15, 64, 448); (16, 64, 512); (17, 128, 640); (18, 128, 768);
   (19, 128, 896); (20, 128, 1024); (21, 256, 1280); (22, 256, 1536); (23, 256, 1792);
   (24, 256, 2048); (25, 512, 2560); (26, 512, 3072); (27, 512, 3584); (28, 512, 4096);
   (29, 1024, 5120); (30, 1024, 6144); (31, 1024, 7168)].

Definition NBINS : Z := 32.
Definition SMALL_MAXCLASS : Z := 7168.

(** [S2B_<delta>(bin)]: the bin number once for every 8 bytes. *)
Definition S2B (delta bin : Z) : list Z := replicate (Z.to_nat (delta / 8)) bin.

Definition small_size2bin : list Z :=
  concat (map (λ '(bin, delta, _), S2B delta bin) SIZE_CLASSES).

Definition SMALL_SIZE2BIN (s : Z) : option Z :=
  small_size2bin !! Z.to_nat (Z.shiftr (u64 (s - 1)) LG_TINY_MIN).

(** [arena_bin_info[bin].reg_size]. *)
Definition reg_size_of (bin : Z) : option Z := (λ '(_, _, sz), sz) <$> SIZE_CLASSES !! Z.to_nat bin.

Section sizes.
Context `{Config}.

Definition chunksize : Z := Z.shiftl 1 opt_lg_chunk.
Definition chunksize_mask : Z := chunksize - 1.
Definition chunk_npages : Z := Z.shiftr chunksize LG_PAGE.
Definition CHUNK_CEILING (s : Z) : Z := ceil_mask s chunksize_mask.
Definition CHUNK_ADDR2BASE (a : Z) : Z := Z.land a (Z.lnot chunksize_mask).
Definition CHUNK_ADDR2OFFSET (a : Z) : Z := Z.land a chunksize_mask.

(** [offsetof(arena_chunk_t, map)] and [sizeof(arena_chunk_map_t)]. *)
Definition chunk_map_offset : Z := 40.
Definition sizeof_chunk_map : Z := 24.

(** One iteration of the loop of [arena_boot]. *)
Definition map_bias_step (map_bias : Z) : Z :=
  let header_size := chunk_map_offset + sizeof_chunk_map * (chunk_npages - map_bias) in
  Z.shiftr header_size LG_PAGE + Z.b2z (negb (Z.land header_size PAGE_MASK =? 0)).

Definition map_bias : Z := map_bias_step (map_bias_step (map_bias_step 0)).
Definition arena_maxclass : Z := chunksize - Z.shiftl map_bias LG_PAGE.

Definition s2u (size : Z) : option Z :=
  if size <=? SMALL_MAXCLASS then bin ← SMALL_SIZE2BIN size; reg_size_of bin
  else if size <=? arena_maxclass then Some (PAGE_CEILING size)
  else Some (CHUNK_CEILING size).

Definition sa2u (size alignment : Z) : option Z :=
  assert! (negb (alignment =? 0) && (Z.land (alignment - 1) alignment =? 0));
  let usize := ALIGNMENT_CEILING size alignment in
  if usize <? size then Some 0
  else if (usize <=? arena_maxclass) && (alignment <=? PAGE) then
    if usize <=? SMALL_MAXCLASS then bin ← SMALL_SIZE2BIN usize; reg_size_of bin
    else Some (PAGE_CEILING usize)
  else
    let alignment := PAGE_CEILING alignment in
    let usize := PAGE_CEILING size in
    if (usize <? size) || (u64 (usize + alignment) <? usize) then Some 0
    else
      let run_size := u64 (u64 (usize + alignment) - PAGE) in
      if run_size <=? arena_maxclass then Some (PAGE_CEILING usize)
      else Some (CHUNK_CEILING usize).
End sizes.

(** The options the allocator starts with. *)
Definition default_config : Config :=
  {| opt_lg_chunk := 24; opt_redzone := false; lg_chunk_range := ltac:(lia) |}.

Example small_size2bin_length : Z.of_nat (length small_size2bin) * 8 = SMALL_MAXCLASS.
Proof. reflexivity. Qed.

Example s2u_examples :
  map (s2u (H := default_config)) [1; 8; 9; 129; 7168; 7169; 16728064; 16728065]
  = Some <$> [8; 8; 16; 160; 7168; 8192; 16728064; 16777216].
Proof. vm_compute. reflexivity. Qed.

Example sa2u_examples :
  map (λ '(s, a), sa2u (H := default_config) s a) [(100, 64); (300, 128); (5000, 4096); (10, 16384); (1, 2 ^ 63); (2 ^ 63 + 1, 2 ^ 63)]
  = Some <$> [128; 384; 8192; 8192; 16777216; 0].
Proof. vm_compute. reflexivity. Qed.

(** ** Ceilings *)

Lemma ceil_mask_round_up s n :
  0 ≤ n → 0 ≤ s → s + 2 ^ n ≤ 2 ^ 64 → ceil_mask s (2 ^ n - 1) = round_up s (2 ^ n).
Proof.
  intros Hn Hs Hlt. pose proof (pow2_pos n Hn). unfold ceil_mask.
  rewrite u64_small by (split; lia). by apply round_up_mask.
Qed.

(** Past the last multiple that fits the ceiling is 0. *)
Lemma ceil_mask_overflow s n :
  0 ≤ n ≤ 64 → 0 ≤ s < 2 ^ 64 → 2 ^ 64 < s + 2 ^ n → ceil_mask s (2 ^ n - 1) = 0.
Proof.
  intros Hn Hs Hgt. pose proof (pow2_pos n ltac:(lia)).
  pose proof (Z.pow_le_mono_r 2 n 64 ltac:(lia) ltac:(lia)).
  unfold ceil_mask. rewrite u64_wrap by lia. rewrite land_lnot_mask by lia.
  rewrite Z.mod_small; lia.
Qed.

Lemma alignment_ceiling_mask s k :
  0 ≤ k → ALIGNMENT_CEILING s (2 ^ k) = ceil_mask s (2 ^ k - 1).
Proof. intros Hk. unfold ALIGNMENT_CEILING, ceil_mask. f_equal. unfold Z.lnot. lia. Qed.

Lemma ceil_mask_cases s n :
  0 ≤ n ≤ 64 → 0 ≤ s < 2 ^ 64 →
  (s + 2 ^ n ≤ 2 ^ 64 ∧ ceil_mask s (2 ^ n - 1) = round_up s (2 ^ n) ∧
   s ≤ ceil_mask s (2 ^ n - 1) < 2 ^ 64 ∧ ceil_mask s (2 ^ n - 1) mod 2 ^ n = 0) ∨
  (2 ^ 64 < s + 2 ^ n ∧ ceil_mask s (2 ^ n - 1) = 0).
Proof.
  intros Hn Hs. destruct (Z_le_gt_dec (s + 2 ^ n) (2 ^ 64)) as [Hle|Hgt]; [left|right].
  - rewrite ceil_mask_round_up by lia.
    pose proof (round_up_spec s (2 ^ n) (pow2_pos n ltac:(lia))) as [? ?].
    split_and!; (done || lia).
  - split; [lia|]. apply ceil_mask_overflow; lia.
Qed.

Lemma page_mask_eq : PAGE_MASK = 2 ^ 13 - 1.
Proof. reflexivity. Qed.

(** ** The lookup table *)

(** Entry [i] of the table serves sizes [8 i + 1 .. 8 i + 8]. *)
Definition table_entry_ok (i : Z) : bool :=
  match small_size2bin !! Z.to_nat i with
  | None => false
  | Some bin =>
      match reg_size_of bin with
      | None => false
      | Some sz =>
          (0 <=? bin) && (bin <? NBINS) && (8 * i + 8 <=? sz) && (sz <=? SMALL_MAXCLASS) &&
          (sz mod 8 =? 0) &&
          (if bin =? 0 then true
           else match reg_size_of (bin - 1) with None => false | Some sz' => sz' <=? 8 * i end) &&
          forallb (λ k, implb ((8 * i + 8) mod 2 ^ k =? 0) (sz mod 2 ^ k =? 0)) (seqZ 0 14)
      end
  end.

Lemma table_ok : forallb table_entry_ok (seqZ 0 896) = true.
Proof. vm_compute. reflexivity. Qed.

Lemma reg_size_mono b b' sz sz' :
  reg_size_of b = Some sz → reg_size_of b' = Some sz' → 0 ≤ b ≤ b' → sz ≤ sz'.
Proof.
  intros Hb Hb' Hbb.
  assert (Hall : forallb (λ b', forallb (λ b,
      match reg_size_of b, reg_size_of b' with Some sz, Some sz' => sz <=? sz' | _, _ => false end)
      (seqZ 0 (b' + 1))) (seqZ 0 NBINS) = true) by (vm_compute; reflexivity).
  assert (Hlt : b' < NBINS).
  { unfold reg_size_of in Hb'. apply fmap_Some in Hb' as ([[? ?] ?] & Hl & _).
    apply lookup_lt_Some in Hl. change (length SIZE_CLASSES) with 32%nat in Hl. unfold NBINS. lia. }
  rewrite forallb_forall in Hall. specialize (Hall b').
  rewrite <- list_elem_of_In, elem_of_seqZ, forallb_forall in Hall.
  specialize (Hall ltac:(lia) b). rewrite <- list_elem_of_In, elem_of_seqZ, Hb, Hb' in Hall.
  apply Z.leb_le, Hall. lia.
Qed.

(** The size of a class is in the class. *)
Lemma reg_size_class b sz : 0 ≤ b → reg_size_of b = Some sz → 0 < sz ≤ SMALL_MAXCLASS ∧ SMALL_SIZE2BIN sz = Some b.
Proof.
  intros Hb E.
  assert (Hall : forallb (λ b, match reg_size_of b with
      | Some sz => (0 <? sz) && (sz <=? SMALL_MAXCLASS) && bool_decide (SMALL_SIZE2BIN sz = Some b)
      | None => false end) (seqZ 0 NBINS) = true) by (vm_compute; reflexivity).
  assert (Hlt : b < NBINS).
  { unfold reg_size_of in E. apply fmap_Some in E as ([[? ?] ?] & Hl & _).
    apply lookup_lt_Some in Hl. change (length SIZE_CLASSES) with 32%nat in Hl. unfold NBINS. lia. }
  rewrite forallb_forall in Hall. specialize (Hall b). rewrite <- list_elem_of_In, elem_of_seqZ, E in Hall.
  specialize (Hall ltac:(lia)). rewrite !andb_true_iff, Z.ltb_lt, Z.leb_le, bool_decide_eq_true in Hall. tauto.
Qed.

Lemma small_lookup s :
  1 ≤ s ≤ SMALL_MAXCLASS →
  ∃ bin sz, SMALL_SIZE2BIN s = Some bin ∧ reg_size_of bin = Some sz ∧ 0 ≤ bin < NBINS ∧
    s ≤ sz ≤ SMALL_MAXCLASS ∧ sz mod 8 = 0 ∧
    (0 < bin → ∃ sz', reg_size_of (bin - 1) = Some sz' ∧ sz' < s) ∧
    (∀ k, 0 ≤ k < 14 → s mod 2 ^ k = 0 → sz mod 2 ^ k = 0).
Proof.
  intros Hs. unfold SMALL_MAXCLASS in Hs. set (i := (s - 1) / 8).
  assert (Hi : 0 ≤ i < 896) by (unfold i; split; [apply Z.div_pos; lia|apply Z.div_lt_upper_bound; lia]).
  assert (Hsi : 8 * i + 1 ≤ s ≤ 8 * i + 8).
  { unfold i. pose proof (Z.div_mod (s - 1) 8). pose proof (Z.mod_pos_bound (s - 1) 8). lia. }
  pose proof table_ok as Hok. rewrite forallb_forall in Hok. specialize (Hok i).
  unfold SMALL_SIZE2BIN. rewrite u64_small by (split; lia).
  rewrite Z.shiftr_div_pow2 by done. change (2 ^ LG_TINY_MIN) with 8. fold i.
  unfold table_entry_ok in Hok. assert (Hin : In i (seqZ 0 896)) by (apply list_elem_of_In, elem_of_seqZ; lia).
  specialize (Hok Hin). clear Hin.
  destruct (small_size2bin !! Z.to_nat i) as [bin|]; [|discriminate].
  destruct (reg_size_of bin) as [sz|] eqn:Hsz; [|discriminate].
  rewrite !andb_true_iff, !Z.leb_le, Z.ltb_lt, Z.eqb_eq in Hok.
  destruct Hok as [[[[[[Hb0 Hb1] Hsz1] Hsz2] Hm8] Hprev] Hal].
  exists bin, sz. split_and!; try done; try lia.
  - intros Hpos. rewrite (proj2 (Z.eqb_neq bin 0)) in Hprev by lia.
    destruct (reg_size_of (bin - 1)) as [sz'|]; [|discriminate]. apply Z.leb_le in Hprev.
    exists sz'. split; [done|lia].
  - intros k Hk Hsk. rewrite forallb_forall in Hal. specialize (Hal k).
    rewrite <- list_elem_of_In, elem_of_seqZ in Hal. specialize (Hal ltac:(lia)).
    destruct (Z_le_gt_dec k 3) as [Hk3|Hk3].
    { apply (mod_pow2_le sz k 3); [lia|]. by change (2 ^ 3) with 8. }
    assert (s mod 8 = 0) by (apply (mod_pow2_le s 3 k) in Hsk; [done|lia]).
    assert (Hs8 : 8 * i + 8 = s) by (pose proof (Z.div_mod s 8); lia).
    rewrite Hs8, Hsk in Hal. by apply Z.eqb_eq.
Qed.

(** ** Chunk geometry *)

Section geometry.
Context `{Config}.

Lemma chunksize_pow2 : chunksize = 2 ^ opt_lg_chunk.
Proof. apply Z.shiftl_1_l. Qed.

Lemma chunk_npages_pow2 : chunk_npages = 2 ^ (opt_lg_chunk - 13).
Proof.
  pose proof lg_chunk_range. unfold chunk_npages. rewrite chunksize_pow2, Z.shiftr_div_pow2 by done.
  rewrite <- Z.pow_sub_r by (unfold LG_PAGE; lia). done.
Qed.

Lemma chunksize_pages : chunksize = chunk_npages * PAGE.
Proof.
  pose proof lg_chunk_range. rewrite chunksize_pow2, chunk_npages_pow2.
  change PAGE with (2 ^ 13). rewrite <- Z.pow_add_r by lia. f_equal. lia.
Qed.

Lemma chunk_npages_bounds : 4 ≤ chunk_npages ≤ 2 ^ 50.
Proof.
  pose proof lg_chunk_range. rewrite chunk_npages_pow2. split.
  - apply (Z.pow_le_mono_r 2 2); lia.
  - apply Z.pow_le_mono_r; lia.
Qed.

Lemma map_bias_step_spec b :
  let header_size := 40 + 24 * (chunk_npages - b) in
  header_size ≤ map_bias_step b * PAGE < header_size + PAGE.
Proof.
  unfold map_bias_step, chunk_map_offset, sizeof_chunk_map. cbv zeta.
  rewrite Z.shiftr_div_pow2 by done. rewrite page_mask_eq, land_mask by lia.
  change (2 ^ LG_PAGE) with 8192. change (2 ^ 13) with 8192. change PAGE with 8192.
  set (h := 40 + 24 * (chunk_npages - b)).
  pose proof (Z.div_mod h 8192). pose proof (Z.mod_pos_bound h 8192).
  destruct (Z.eqb_spec (h mod 8192) 0); simpl; lia.
Qed.

Lemma map_bias_spec :
  0 < map_bias < chunk_npages ∧
  chunk_map_offset + sizeof_chunk_map * (chunk_npages - map_bias) ≤ map_bias * PAGE ∧
  PAGE ≤ arena_maxclass ∧ arena_maxclass = (chunk_npages - map_bias) * PAGE ∧
  arena_maxclass < chunksize.
Proof.
  pose proof chunk_npages_bounds as HN. pose proof chunksize_pages as HC.
  unfold arena_maxclass. rewrite Z.shiftl_mul_pow2 by done. change (2 ^ LG_PAGE) with PAGE.
  unfold map_bias, chunk_map_offset, sizeof_chunk_map.
  pose proof (map_bias_step_spec 0) as H1. set (b1 := map_bias_step 0) in *.
  pose proof (map_bias_step_spec b1) as H2. set (b2 := map_bias_step b1) in *.
  pose proof (map_bias_step_spec b2) as H3. set (b3 := map_bias_step b2) in *.
  cbv zeta in *. change PAGE with 8192 in *.
  assert (b2 ≤ b1) by lia. assert (b2 ≤ b3) by lia. split_and!; lia.
Qed.

Lemma maxclass_facts :
  SMALL_MAXCLASS < arena_maxclass < 2 ^ 63 ∧ arena_maxclass mod 2 ^ 13 = 0 ∧
  arena_maxclass < chunksize ∧ chunksize mod 2 ^ 13 = 0 ∧ 0 < chunksize ≤ 2 ^ 63.
Proof.
  destruct map_bias_spec as (Hb & _ & H1 & H2 & H3). pose proof lg_chunk_range.
  assert (chunksize ≤ 2 ^ 63) by (rewrite chunksize_pow2; apply Z.pow_le_mono_r; lia).
  assert (Hm : arena_maxclass mod 2 ^ 13 = 0) by (rewrite H2; apply Z.mod_mul; done).
  assert (Hc : chunksize mod 2 ^ 13 = 0) by (rewrite chunksize_pages; apply Z.mod_mul; done).
  change PAGE with 8192 in *. unfold SMALL_MAXCLASS. lia.
Qed.

Lemma chunk_ceiling_cases s :
  0 ≤ s < 2 ^ 64 →
  (s + chunksize ≤ 2 ^ 64 ∧ CHUNK_CEILING s = round_up s chunksize) ∨
  (2 ^ 64 < s + chunksize ∧ CHUNK_CEILING s = 0).
Proof.
  intros Hs. pose proof lg_chunk_range. unfold CHUNK_CEILING, chunksize_mask. rewrite chunksize_pow2.
  destruct (ceil_mask_cases s opt_lg_chunk) as [(?&?&_)|[? ?]]; [lia|done|left|right]; done.
Qed.

Lemma page_ceiling_cases s :
  0 ≤ s < 2 ^ 64 →
  (s + PAGE ≤ 2 ^ 64 ∧ PAGE_CEILING s = round_up s PAGE) ∨
  (2 ^ 64 < s + PAGE ∧ PAGE_CEILING s = 0).
Proof.
  intros Hs. unfold PAGE_CEILING. rewrite page_mask_eq. change PAGE with (2 ^ 13).
  destruct (ceil_mask_cases s 13) as [(?&?&_)|[? ?]]; [lia|done|left|right]; done.
Qed.

(** ** [s2u] *)

(** The three ranges of [s2u]. *)
Lemma s2u_small s :
  1 ≤ s ≤ SMALL_MAXCLASS →
  ∃ bin sz, s2u s = Some sz ∧ SMALL_SIZE2BIN s = Some bin ∧ reg_size_of bin = Some sz ∧
    0 ≤ bin ∧ s ≤ sz ≤ SMALL_MAXCLASS ∧ (0 < bin → ∃ sz', reg_size_of (bin - 1) = Some sz' ∧ sz' < s).
Proof.
  intros Hs. destruct (small_lookup s Hs) as (bin & sz & Hb & Hsz & ? & ? & _ & ? & _).
  exists bin, sz. split_and!; try done; try lia. unfold s2u.
  rewrite (proj2 (Z.leb_le s SMALL_MAXCLASS)) by lia. by rewrite Hb.
Qed.

Lemma s2u_large s :
  SMALL_MAXCLASS < s ≤ arena_maxclass → s2u s = Some (round_up s PAGE).
Proof.
  intros Hs. pose proof maxclass_facts. unfold s2u.
  rewrite (proj2 (Z.leb_gt s SMALL_MAXCLASS)), (proj2 (Z.leb_le s arena_maxclass)) by lia.
  destruct (page_ceiling_cases s) as [[_ ->]|[? _]]; [unfold SMALL_MAXCLASS in *; lia|done|].
  change PAGE with 8192 in *. lia.
Qed.

Lemma s2u_huge s :
  arena_maxclass < s ≤ 2 ^ 64 - chunksize → s2u s = Some (round_up s chunksize).
Proof.
  intros Hs. pose proof maxclass_facts. unfold s2u.
  rewrite (proj2 (Z.leb_gt s SMALL_MAXCLASS)), (proj2 (Z.leb_gt s arena_maxclass)) by lia.
  destruct (chunk_ceiling_cases s) as [[_ ->]|[? _]]; [unfold SMALL_MAXCLASS in *; lia|done|lia].
Qed.

Lemma round_up_bounds s m top :
  0 < m → s ≤ top → top mod m = 0 → s ≤ round_up s m ≤ top ∧ round_up (round_up s m) m = round_up s m.
Proof.
  intros Hm Hs Htop. pose proof (round_up_spec s m Hm) as [? ?].
  split; [split; [lia|by apply round_up_least]|by apply round_up_id].
Qed.

Lemma chunk_top : (2 ^ 64 - chunksize) mod chunksize = 0.
Proof.
  pose proof lg_chunk_range. rewrite chunksize_pow2. apply mod_sub_0; [apply pow2_pos; lia| |].
  - apply Z.mod_divide; [pose proof (pow2_pos opt_lg_chunk); lia|].
    exists (2 ^ (64 - opt_lg_chunk)). rewrite <- Z.pow_add_r by lia. f_equal. lia.
  - apply Z.mod_same. pose proof (pow2_pos opt_lg_chunk). lia.
Qed.

(** Small sizes: the class of a class size is itself, and classes grow. *)
Lemma s2u_small_idem s sz : 1 ≤ s ≤ SMALL_MAXCLASS → s2u s = Some sz → s2u sz = Some sz.
Proof.
  intros Hs E. destruct (s2u_small s Hs) as (bin & sz' & E' & _ & Hsz & Hb & Hr & _).
  assert (sz' = sz) as -> by congruence.
  destruct (s2u_small sz) as (bin2 & sz2 & E2 & _ & Hsz2 & Hb2 & Hr2 & Hprev); [lia|].
  rewrite E2. f_equal. destruct (Z_le_gt_dec bin2 bin) as [Hle|Hgt].
  - pose proof (reg_size_mono bin2 bin sz2 sz Hsz2 Hsz). lia.
  - destruct Hprev as (sz3 & Hsz3 & Hlt); [lia|].
    pose proof (reg_size_mono bin (bin2 - 1) sz sz3 Hsz Hsz3). lia.
Qed.

Lemma s2u_small_mono s v u w :
  1 ≤ s → s ≤ v ≤ SMALL_MAXCLASS → s2u s = Some u → s2u v = Some w → u ≤ w.
Proof.
  intros Hs Hv E1 E2.
  destruct (s2u_small s) as (b1 & u' & E1' & _ & Hu & Hb1 & _ & Hp1); [lia|].
  destruct (s2u_small v) as (b2 & w' & E2' & _ & Hw & Hb2 & Hr2 & Hp2); [lia|].
  assert (u' = u) as -> by congruence. assert (w' = w) as -> by congruence.
  destruct (Z_le_gt_dec b1 b2) as [Hle|Hgt]; [by eapply (reg_size_mono b1 b2)|].
  destruct Hp1 as (x & Hx & Hlt); [lia|]. pose proof (reg_size_mono b2 (b1 - 1) w x Hw Hx). lia.
Qed.

Lemma s2u_range s :
  1 ≤ s ≤ 2 ^ 64 - chunksize →
  (1 ≤ s ≤ SMALL_MAXCLASS ∧ ∃ u, s2u s = Some u ∧ s ≤ u ≤ SMALL_MAXCLASS) ∨
  (SMALL_MAXCLASS < s ≤ arena_maxclass ∧ s2u s = Some (round_up s PAGE) ∧
   s ≤ round_up s PAGE ≤ arena_maxclass) ∨
  (arena_maxclass < s ∧ s2u s = Some (round_up s chunksize) ∧
   s ≤ round_up s chunksize ≤ 2 ^ 64 - chunksize).
Proof.
  intros Hs. pose proof maxclass_facts as (? & ? & ? & ? & ?).
  destruct (Z_le_gt_dec s SMALL_MAXCLASS); [left|destruct (Z_le_gt_dec s arena_maxclass); right; [left|right]].
  - split; [lia|]. destruct (s2u_small s) as (b & u & E & _ & _ & _ & Hr & _); [lia|]. eauto.
  - split_and!; [lia|lia|apply s2u_large; lia|apply round_up_spec; done|].
    apply round_up_bounds; [done|lia|done].
  - split_and!; [lia|apply s2u_huge; lia|apply round_up_spec; lia|].
    apply round_up_bounds; [lia|lia|apply chunk_top].
Qed.
End geometry.

(** ** Properties *)

(** C36: the usable size of a request is the smallest size class that holds
    it: it is at least the request, is its own usable size, and no larger
    request has a smaller one; it is a bin's region size, a multiple of the
    page or a multiple of the chunk.  Requests up to the last whole chunk of
    the address space do not overflow. *)
Theorem s2u_closure `{Config} size :
  1 ≤ size ≤ 2 ^ 64 - chunksize →
  ∃ u, s2u size = Some u ∧ size ≤ u ≤ 2 ^ 64 - chunksize ∧ s2u u = Some u ∧
    (∀ v w, size ≤ v ≤ 2 ^ 64 - chunksize → s2u v = Some w → u ≤ w) ∧
    (size ≤ SMALL_MAXCLASS ∧ (∃ bin, reg_size_of bin = Some u) ∨
     SMALL_MAXCLASS < size ≤ arena_maxclass ∧ u mod PAGE = 0 ∧ u ≤ arena_maxclass ∨
     arena_maxclass < size ∧ u mod chunksize = 0).
Proof.
  intros Hs. pose proof maxclass_facts as (Hm1 & Hm2 & Hm3 & Hm4 & Hm5).
  assert (Htop : arena_maxclass < 2 ^ 64 - chunksize) by lia.
  destruct (s2u_range size Hs) as [[Hr [u [E Hu]]]|[(Hr & E & Hu)|(Hr & E & Hu)]].
  - exists u. split_and!; [done|lia|lia|by eapply s2u_small_idem| |].
    + intros v w Hv Ew. destruct (s2u_range v) as [[? [w' [Ew' ?]]]|[(?&Ew'&?)|(?&Ew'&?)]]; [lia|..].
      * eapply (s2u_small_mono size v); (done || lia).
      * assert (w = round_up v PAGE) as -> by congruence. lia.
      * assert (w = round_up v chunksize) as -> by congruence. lia.
    + left. split; [lia|]. destruct (s2u_small size Hr) as (b & u' & E' & _ & Hb & _).
      exists b. congruence.
  - exists (round_up size PAGE). split_and!; [done|lia|lia| | |].
    + rewrite s2u_large by lia. f_equal. apply round_up_id; [done|]. by apply round_up_spec.
    + intros v w Hv Ew. destruct (s2u_range v) as [[? [w' [Ew' ?]]]|[(?&Ew'&?)|(?&Ew'&?)]]; [lia|lia|..].
      * assert (w = round_up v PAGE) as -> by congruence. apply round_up_mono; [done|lia].
      * assert (w = round_up v chunksize) as -> by congruence. lia.
    + right; left. split_and!; try lia. by apply round_up_spec.
  - exists (round_up size chunksize). split_and!; [done|lia|lia| | |].
    + rewrite s2u_huge by lia. f_equal. apply round_up_id; [lia|]. apply round_up_spec; lia.
    + intros v w Hv Ew. destruct (s2u_range v) as [[? [w' [Ew' ?]]]|[(?&Ew'&?)|(?&Ew'&?)]]; [lia..|].
      assert (w = round_up v chunksize) as -> by congruence. apply round_up_mono; lia.
    + right; right. split; [lia|]. apply round_up_spec; lia.
Qed.

Section witness_s2u.
#[local] Existing Instance default_config.

Lemma s2u_closure_witness :
  ∃ u, s2u 100000 = Some u ∧ 100000 ≤ u ≤ 2 ^ 64 - chunksize ∧ s2u u = Some u ∧
    (∀ v w, 100000 ≤ v ≤ 2 ^ 64 - chunksize → s2u v = Some w → u ≤ w) ∧
    (100000 ≤ SMALL_MAXCLASS ∧ (∃ bin, reg_size_of bin = Some u) ∨
     SMALL_MAXCLASS < 100000 ≤ arena_maxclass ∧ u mod PAGE = 0 ∧ u ≤ arena_maxclass ∨
     arena_maxclass < 100000 ∧ u mod chunksize = 0).
Proof. apply (s2u_closure 100000). vm_compute. split; discriminate. Defined.
End witness_s2u.

(** ** [sa2u] *)

Section sa2u_facts.
Context `{Config}.
Implicit Types (size k r : Z).

Lemma pow2_asserted k : 0 ≤ k → negb (2 ^ k =? 0) && (Z.land (2 ^ k - 1) (2 ^ k) =? 0) = true.
Proof.
  intros Hk. pose proof (pow2_pos k Hk). rewrite (proj2 (Z.eqb_neq (2 ^ k) 0)) by lia.
  rewrite Z.land_comm, land_mask, Z.mod_same by lia. done.
Qed.

Lemma page_ceiling_pow2 k : 0 ≤ k ≤ 63 → PAGE_CEILING (2 ^ k) = 2 ^ Z.max k 13.
Proof.
  intros Hk. pose proof (pow2_pos k ltac:(lia)).
  pose proof (Z.pow_le_mono_r 2 k 63 ltac:(lia) ltac:(lia)).
  destruct (page_ceiling_cases (2 ^ k)) as [[_ ->]|[? _]]; [lia| |change PAGE with 8192 in *; lia].
  change PAGE with (2 ^ 13). destruct (Z_le_gt_dec k 13).
  - rewrite Z.max_r by lia. pose proof (Z.pow_le_mono_r 2 k 13 ltac:(lia) ltac:(lia)).
    unfold round_up. rewrite <- (Z.div_unique_pos _ (2 ^ 13) 1 (2 ^ k - 1)) by lia. lia.
  - rewrite Z.max_l by lia. apply round_up_id; [done|].
    apply (mod_pow2_le _ 13 k); [lia|]. apply Z.mod_same. lia.
Qed.

(** The branch for sizes or alignments a bin or a plain large run does not serve. *)
Definition sa2u_big size a : Z :=
  let usize := PAGE_CEILING size in
  if (usize <? size) || (u64 (usize + a) <? usize) then 0
  else if u64 (u64 (usize + a) - PAGE) <=? arena_maxclass then PAGE_CEILING usize
  else CHUNK_CEILING usize.

Lemma sa2u_eq size k :
  0 ≤ k ≤ 63 → 0 ≤ size < 2 ^ 64 →
  sa2u size (2 ^ k) =
    if ALIGNMENT_CEILING size (2 ^ k) <? size then Some 0
    else if (ALIGNMENT_CEILING size (2 ^ k) <=? arena_maxclass) && (k <=? 13)
    then if ALIGNMENT_CEILING size (2 ^ k) <=? SMALL_MAXCLASS
         then bin ← SMALL_SIZE2BIN (ALIGNMENT_CEILING size (2 ^ k)); reg_size_of bin
         else Some (PAGE_CEILING (ALIGNMENT_CEILING size (2 ^ k)))
    else Some (sa2u_big size (2 ^ Z.max k 13)).
Proof.
  intros Hk Hs. unfold sa2u. rewrite pow2_asserted by lia. rewrite assert_true.
  assert (Hpage : (2 ^ k <=? PAGE) = (k <=? 13)).
  { change PAGE with (2 ^ 13). destruct (Z.leb_spec k 13).
    - apply Z.leb_le, Z.pow_le_mono_r; lia.
    - apply Z.leb_gt, Z.pow_lt_mono_r; lia. }
  rewrite Hpage, page_ceiling_pow2 by done. unfold sa2u_big. cbv zeta.
  destruct (_ <? size); [done|]. destruct (_ && _); [done|].
  destruct (_ || _); [done|]. by destruct (_ <=? arena_maxclass).
Qed.

Lemma sa2u_big_spec size k r :
  13 ≤ k ≤ 63 → 1 ≤ size < 2 ^ 64 → sa2u_big size (2 ^ k) = r →
  (r = 0 ∧ 2 ^ 64 < size + 2 ^ k + chunksize + PAGE) ∨
  (size ≤ r < 2 ^ 64 ∧ r mod PAGE = 0 ∧ (r + 2 ^ k < 2 ^ 64 → sa2u_big r (2 ^ k) = r) ∧
   (arena_maxclass < size → arena_maxclass < r) ∧ r < size + chunksize + PAGE).
Proof.
  intros Hk Hs Er. pose proof maxclass_facts as (Hm1 & Hm2 & Hm3 & Hm4 & Hm5).
  pose proof (Z.pow_le_mono_r 2 13 k ltac:(lia) ltac:(lia)) as Hk13.
  pose proof (Z.pow_le_mono_r 2 k 63 ltac:(lia) ltac:(lia)) as Hk63.
  assert (HP : PAGE = 2 ^ 13) by done. assert (Hpc : ∀ x, x mod PAGE = 0 → 0 ≤ x < 2 ^ 64 → PAGE_CEILING x = x).
  { intros x Hx Hr. destruct (page_ceiling_cases x Hr) as [[_ ->]|[Hgt _]]; [by apply round_up_id|].
    exfalso. pose proof (mod_0_lt_add x (2 ^ 64) PAGE ltac:(done) Hx ltac:(done)). lia. }
  unfold sa2u_big in Er. destruct (page_ceiling_cases size) as [[Hfit Hu]|[Hov Hu]]; [lia| |].
  2: { left. rewrite Hu, (proj2 (Z.ltb_lt 0 size)) in Er by lia. simpl in Er. lia. }
  pose proof (round_up_spec size PAGE ltac:(done)) as [Hru Hmod]. rewrite <- Hu in Hru, Hmod.
  set (u := PAGE_CEILING size) in *. rewrite (proj2 (Z.ltb_ge u size)) in Er by lia. simpl in Er.
  destruct (Z_lt_ge_dec (u + 2 ^ k) (2 ^ 64)) as [Hsum|Hsum].
  2: { rewrite u64_wrap, (proj2 (Z.ltb_lt _ u)) in Er by lia. left. lia. }
  rewrite (u64_small (u + 2 ^ k)), (proj2 (Z.ltb_ge _ u)), u64_small in Er by (lia || (split; lia)).
  assert (Hstep : ∀ x, x mod PAGE = 0 → 0 ≤ x → x + 2 ^ k < 2 ^ 64 → sa2u_big x (2 ^ k) =
     if x + 2 ^ k - PAGE <=? arena_maxclass then x else CHUNK_CEILING x).
  { intros x Hx Hx0 Hx1. unfold sa2u_big. rewrite (Hpc x) by (done || lia). rewrite Z.ltb_irrefl. simpl.
    rewrite u64_small by (split; lia). rewrite (proj2 (Z.ltb_ge _ x)) by lia.
    rewrite u64_small by (split; lia). by rewrite (Hpc x) by (done || lia). }
  destruct (Z.leb_spec (u + 2 ^ k - PAGE) arena_maxclass) as [Hin|Hout].
  - right. rewrite Hpc in Er by (done || lia). rewrite <- Er. split_and!; [lia|lia|done| |lia|lia].
    intros Hr. rewrite Hstep by (done || lia). by rewrite (proj2 (Z.leb_le _ _)) by lia.
  - destruct (chunk_ceiling_cases u) as [[Hcf Hc]|[Hco Hc]]; [lia| |left; lia].
    assert (HC0 : 0 < chunksize) by lia. assert (Hut : u ≤ 2 ^ 64 - chunksize) by lia.
    pose proof (round_up_spec u chunksize HC0) as [Hru' Hmod']. rewrite <- Hc in Hru', Hmod'.
    pose proof (round_up_least u chunksize (2 ^ 64 - chunksize) HC0 Hut chunk_top) as Hle.
    rewrite <- Hc in Hle.
    assert (Hcp : CHUNK_CEILING u mod PAGE = 0).
    { rewrite chunksize_pages in Hmod'. apply Z.mod_divide in Hmod' as [q ->].
      - rewrite Z.mul_assoc. by apply Z.mod_mul.
      - pose proof chunksize_pages. lia. }
    right. rewrite <- Er. split_and!; [lia|lia|done| |lia|lia]. intros Hr. rewrite Hstep by (done || lia).
    rewrite (proj2 (Z.leb_gt _ _)) by lia.
    destruct (chunk_ceiling_cases (CHUNK_CEILING u)) as [[_ ->]|[? _]]; [lia| |lia].
    by apply round_up_id; lia.
Qed.
End sa2u_facts.

Lemma sa2u_ok `{Config} size k :
  0 ≤ k ≤ 63 → 1 ≤ size < 2 ^ 64 →
  ∃ r, sa2u size (2 ^ k) = Some r ∧
    ((r = 0 ∧ 2 ^ 64 < size + 2 ^ Z.max k 13 + chunksize + PAGE) ∨
     (size ≤ r < 2 ^ 64 ∧ r < size + chunksize + PAGE ∧ r mod 2 ^ Z.min k 13 = 0 ∧
      (r + 2 ^ Z.max k 13 < 2 ^ 64 → sa2u r (2 ^ k) = Some r))).
Proof.
  intros Hk Hs. pose proof maxclass_facts as (Hm1 & Hm2 & Hm3 & Hm4 & Hm5).
  pose proof (pow2_pos k ltac:(lia)) as Hpk.
  pose proof (Z.pow_le_mono_r 2 k (Z.max k 13) ltac:(lia) ltac:(lia)).
  assert (HAC : ∀ x, x mod 2 ^ k = 0 → 0 ≤ x → x + 2 ^ k ≤ 2 ^ 64 → ALIGNMENT_CEILING x (2 ^ k) = x).
  { intros x Hx Hx0 Hx1. rewrite alignment_ceiling_mask, ceil_mask_round_up by lia. by apply round_up_id. }
  rewrite sa2u_eq by lia.
  destruct (ceil_mask_cases size k) as [(Hfit & Hu & Hr & Hmod)|[Hov Hu]]; [lia|lia| |].
  2: { rewrite alignment_ceiling_mask, Hu by lia. rewrite (proj2 (Z.ltb_lt 0 size)) by lia.
       exists 0. split; [done|]. left. change PAGE with 8192. split; [done|lia]. }
  rewrite !alignment_ceiling_mask by lia. set (u := ceil_mask size (2 ^ k - 1)) in *.
  rewrite (proj2 (Z.ltb_ge u size)) by lia.
  destruct ((u <=? arena_maxclass) && (k <=? 13)) eqn:E.
  - apply andb_true_iff in E as [Eu Ek]. apply Z.leb_le in Eu, Ek. rewrite Z.min_l by lia.
    destruct (Z.leb_spec u SMALL_MAXCLASS) as [Hsm|Hsm].
    + destruct (small_lookup u) as (bin & sz & Hb & Hsz & _ & Hle & _ & _ & Hal); [lia|].
      rewrite Hb. simpl. exists sz. split; [done|]. right.
      assert (Hszm : sz mod 2 ^ k = 0) by (apply Hal; [lia|done]).
      split_and!; [lia|unfold SMALL_MAXCLASS in *; lia|unfold SMALL_MAXCLASS in *; change PAGE with 8192; lia|done|]. intros _.
      pose proof (Z.pow_le_mono_r 2 k 13 ltac:(lia) ltac:(lia)).
      rewrite sa2u_eq by (unfold SMALL_MAXCLASS in *; lia).
      rewrite !HAC by (done || unfold SMALL_MAXCLASS in *; lia). rewrite Z.ltb_irrefl.
      rewrite (proj2 (Z.leb_le sz arena_maxclass)), (proj2 (Z.leb_le k 13)) by lia. simpl.
      rewrite (proj2 (Z.leb_le sz SMALL_MAXCLASS)) by lia.
      pose proof (s2u_small_idem u sz ltac:(lia)) as Hid. unfold s2u in Hid.
      rewrite (proj2 (Z.leb_le u SMALL_MAXCLASS)), (proj2 (Z.leb_le sz SMALL_MAXCLASS)), Hb in Hid by lia.
      by apply Hid.
    + destruct (page_ceiling_cases u) as [[_ Hp]|[? _]]; [lia| |change PAGE with 8192 in *; lia].
      rewrite Hp. exists (round_up u PAGE). split; [done|]. right.
      destruct (round_up_bounds u PAGE arena_maxclass) as [Hb Hid]; [done|lia|done|].
      assert (Hrm : round_up u PAGE mod 2 ^ k = 0).
      { apply (mod_pow2_le _ k 13); [lia|]. by apply (round_up_spec u PAGE). }
      pose proof (Z.pow_le_mono_r 2 k 13 ltac:(lia) ltac:(lia)).
      split_and!; [lia|lia| |done|].
      { pose proof (round_up_spec u PAGE ltac:(done)). assert (8192 ≤ chunksize) by (apply mod_0_ge; [done|apply Hm5|exact Hm4]). change PAGE with 8192 in *. lia. }
      intros Hrt.
      rewrite sa2u_eq by lia. rewrite !HAC by (done || lia). rewrite Z.ltb_irrefl.
      rewrite (proj2 (Z.leb_le _ arena_maxclass)), (proj2 (Z.leb_le k 13)) by lia. simpl.
      rewrite (proj2 (Z.leb_gt _ SMALL_MAXCLASS)) by lia.
      destruct (page_ceiling_cases (round_up u PAGE)) as [[_ ->]|[? _]]; [lia|by rewrite Hid|].
      change PAGE with 8192 in *; lia.
  - destruct (sa2u_big_spec size (Z.max k 13) _ ltac:(lia) ltac:(lia) eq_refl) as [[-> Hov]|(Hr1 & Hr2 & Hr3 & Hr4 & Hr5)].
    { exists 0. split; [done|]. left. split; [done|lia]. }
    set (r := sa2u_big size _) in *. exists r. split; [done|]. right.
    split_and!; [lia|lia|exact Hr5|apply (mod_pow2_le _ _ 13); [lia|done]|]. intros Hrt.
    rewrite sa2u_eq by lia. rewrite !alignment_ceiling_mask by lia.
    destruct (ceil_mask_cases r k) as [(_ & _ & Hc & _)|[? _]]; [lia|lia| |lia].
    rewrite (proj2 (Z.ltb_ge _ r)) by lia.
    destruct (Z.leb_spec k 13) as [Hk13|Hk13].
    + rewrite andb_true_r in E. apply Z.leb_gt in E.
      assert (Hbig : arena_maxclass < size).
      { apply Z.nle_gt. intros Hle. rewrite Hu in E.
        pose proof (round_up_least size (2 ^ k) arena_maxclass Hpk Hle).
        pose proof (mod_pow2_le arena_maxclass k 13 ltac:(lia) Hm2). lia. }
      rewrite (proj2 (Z.leb_gt _ arena_maxclass)) by lia. simpl. by rewrite Hr3.
    + rewrite andb_false_r. by rewrite Hr3.
Qed.

(** C37: for an alignment [2^k], the usable size is at least the request and a
    multiple of the alignment, or of the page when the alignment is larger; it
    is less than a chunk and a page larger than the request; unless it lies within the alignment
    or the page of the end of the address space it is its own usable
    size, as [ipalloc] asserts; 0 is returned only within the alignment, a
    chunk and a page of that end. *)
Theorem sa2u_spec `{Config} size k :
  0 ≤ k ≤ 63 → 1 ≤ size < 2 ^ 64 →
  ∃ r, sa2u size (2 ^ k) = Some r ∧
    ((r = 0 ∧ 2 ^ 64 < size + 2 ^ Z.max k 13 + chunksize + PAGE) ∨
     (size ≤ r < Z.min (2 ^ 64) (size + chunksize + PAGE) ∧ r mod 2 ^ Z.min k 13 = 0 ∧
      (r + 2 ^ Z.max k 13 < 2 ^ 64 → sa2u r (2 ^ k) = Some r))).
Proof.
  intros Hk Hs. destruct (sa2u_ok size k Hk Hs) as (r & E & Hr). exists r. split; [exact E|].
  destruct Hr as [?|(? & ? & ? & ?)]; [by left|right]. split_and!; (done || lia).
Qed.

(** What a fixed point of [sa2u] looks like: it is served as a plain object, by
    an over-sized run or by chunks. *)
Lemma sa2u_fixed `{Config} usize k :
  0 ≤ k ≤ 63 → 1 ≤ usize < 2 ^ 64 → sa2u usize (2 ^ k) = Some usize →
  (usize ≤ arena_maxclass ∧ k ≤ 13 ∧ s2u usize = Some usize ∧ usize mod 2 ^ k = 0) ∨
  (usize ≤ arena_maxclass ∧ 13 < k ∧ usize mod PAGE = 0 ∧ usize + 2 ^ k - PAGE ≤ arena_maxclass) ∨
  (arena_maxclass < usize ∧ CHUNK_CEILING usize = usize).
Proof.
  intros Hk Hs. pose proof maxclass_facts as (Hm1 & Hm2 & Hm3 & Hm4 & Hm5). pose proof (pow2_pos k ltac:(lia)) as Hpk.
  rewrite sa2u_eq by lia. destruct (ceil_mask_cases usize k) as [(Hfit & Hu & Hr & Hmod)|[Hov Hu]]; [lia|lia| |].
  2: { rewrite alignment_ceiling_mask, Hu, (proj2 (Z.ltb_lt 0 usize)) by lia. intros [=]. lia. }
  rewrite !alignment_ceiling_mask by lia. set (u := ceil_mask usize (2 ^ k - 1)) in *. rewrite (proj2 (Z.ltb_ge u usize)) by lia.
  destruct ((u <=? arena_maxclass) && (k <=? 13)) eqn:E.
  - apply andb_true_iff in E as [Eu%Z.leb_le Ek%Z.leb_le]. intros Efix. left.
    assert (u = usize) as Eq; [|rewrite Eq in *].
    { destruct (Z.leb_spec u SMALL_MAXCLASS).
      - destruct (small_lookup u) as (bin & sz & Hb & Hsz & _ & Hle & _); [lia|]. rewrite Hb in Efix. simpl in Efix. rewrite Hsz in Efix. injection Efix as ->. lia.
      - destruct (page_ceiling_cases u) as [[_ Hp]|[? _]]; [lia| |change PAGE with 8192 in *; lia]. rewrite Hp in Efix. injection Efix as Ef.
        destruct (round_up_spec u PAGE); [done|]. lia. }
    split_and!; [lia|done| |by rewrite Hu, Eq in Hmod || exact Hmod]. unfold s2u. destruct (Z.leb_spec usize SMALL_MAXCLASS); [exact Efix|].
    by rewrite (proj2 (Z.leb_le usize arena_maxclass)) by lia.
  - intros [= Efix]. right. unfold sa2u_big in Efix. destruct (page_ceiling_cases usize) as [[Hpf Hp]|[_ Hp]]; [lia| |].
    2: { rewrite Hp, (proj2 (Z.ltb_lt 0 usize)) in Efix by lia. simpl in Efix. lia. }
    pose proof (round_up_spec usize PAGE ltac:(done)) as [Hru Hrm]. rewrite <- Hp in Hru, Hrm. set (v := PAGE_CEILING usize) in *.
    rewrite (proj2 (Z.ltb_ge v usize)) in Efix by lia. simpl in Efix. destruct (Z.ltb_spec (u64 (v + 2 ^ Z.max k 13)) v) as [|Hnw]; [lia|].
    pose proof (Z.pow_le_mono_r 2 13 (Z.max k 13) ltac:(lia) ltac:(lia)). pose proof (Z.pow_le_mono_r 2 (Z.max k 13) 63 ltac:(lia) ltac:(lia)).
    assert (Hsum : v + 2 ^ Z.max k 13 < 2 ^ 64).
    { apply Z.nle_gt. intros Hge. rewrite u64_wrap in Hnw by lia. lia. }
    rewrite (u64_small (v + _)) in Efix by (split; lia). rewrite u64_small in Efix by (split; change PAGE with (2 ^ 13); lia).
    destruct (Z.leb_spec (v + 2 ^ Z.max k 13 - PAGE) arena_maxclass) as [Hin|Hout].
    + assert (v = usize) as Ev.
      { destruct (page_ceiling_cases v) as [[_ Hpv]|[? _]]; [lia| |change PAGE with (2 ^ 13) in *; lia]. by rewrite Hpv, round_up_id in Efix. }
      assert (Hum : usize ≤ arena_maxclass) by (change PAGE with (2 ^ 13) in *; lia).
      destruct (Z.leb_spec k 13) as [Hk13|Hk13].
      * exfalso. rewrite andb_true_r in E. apply Z.leb_gt in E. rewrite Hu in E.
        pose proof (mod_pow2_le arena_maxclass k 13 ltac:(lia) Hm2) as Hmk. pose proof (round_up_least usize (2 ^ k) arena_maxclass Hpk Hum Hmk). lia.
      * left. rewrite Z.max_l in Hin by lia. rewrite Ev in *. split_and!; (done || lia).
    + right. destruct (chunk_ceiling_cases v) as [[Hcf Hc]|[_ Hc]]; [lia| |lia].
      destruct (round_up_spec v chunksize (proj1 Hm5)) as [Hru' Hmc]. rewrite <- Hc, Efix in Hru', Hmc. assert (v = usize) as Ev by lia. rewrite Ev in *.
      split; [|done]. assert (chunksize ≤ usize) by (apply mod_0_ge; [apply Hm5|lia|exact Hmc]). lia.
Qed.

Section witness_sa2u.
#[local] Existing Instance default_config.

Lemma sa2u_spec_witness :
  ∃ r, sa2u 300 (2 ^ 7) = Some r ∧
    ((r = 0 ∧ 2 ^ 64 < 300 + 2 ^ Z.max 7 13 + chunksize + PAGE) ∨
     (300 ≤ r < Z.min (2 ^ 64) (300 + chunksize + PAGE) ∧ r mod 2 ^ Z.min 7 13 = 0 ∧
      (r + 2 ^ Z.max 7 13 < 2 ^ 64 → sa2u r (2 ^ 7) = Some r))).
Proof. apply (sa2u_spec 300 7); lia. Defined.
End witness_sa2u.

(** At the very top of the address space the last property of [sa2u_spec]
    needs its hypothesis: the usable size of the usable size can be 0. *)
Example sa2u_corner :
  sa2u (H := default_config) (2 ^ 63 - PAGE) (2 ^ 63) = Some (2 ^ 63) ∧
  sa2u (H := default_config) (2 ^ 63) (2 ^ 63) = Some 0.
Proof. vm_compute. done. Qed.

(** ** [pow2_ceil] *)

(** [z] is [y] with every bit copied to the [n - 1] places below it. *)
Definition smeared (y n z : Z) : Prop :=
  ∀ i, 0 ≤ i → Z.testbit z i = true ↔ ∃ j, i ≤ j < i + n ∧ Z.testbit y j = true.

Lemma smeared_start y : smeared y 1 y.
Proof.
  intros i Hi. split; [intros; exists i; split; [lia|done]|].
  intros (j & Hj & Hb). by replace i with j by lia.
Qed.

Lemma smeared_step y n m z :
  m = 2 * n → 0 < n → smeared y n z → smeared y m (Z.lor z (Z.shiftr z n)).
Proof.
  unfold smeared. intros -> Hn Hz i Hi.
  rewrite Z.lor_spec, Z.shiftr_spec, orb_true_iff, (Hz i), (Hz (i + n)) by lia. split.
  - intros [(j & Hj & Hb)|(j & Hj & Hb)]; exists j; split; (done || lia).
  - intros (j & Hj & Hb). destruct (Z_lt_ge_dec j (i + n)); [left|right]; exists j; split; (done || lia).
Qed.

Lemma smeared_ones y z : 0 < y < 2 ^ 64 → smeared y 64 z → z = Z.ones (Z.log2 y + 1).
Proof.
  unfold smeared. intros Hy Hz. pose proof (Z.log2_nonneg y).
  assert (Z.log2 y < 64) by (apply Z.log2_lt_pow2; lia).
  apply Z.bits_inj'. intros i Hi. rewrite Z.testbit_ones_nonneg by lia.
  apply eq_bool_prop_intro. rewrite !Is_true_true, Z.ltb_lt, Hz by done. split.
  - intros (j & Hj & Hb). destruct (Z_le_gt_dec j (Z.log2 y)); [lia|].
    by rewrite Z.bits_above_log2 in Hb by lia.
  - intros Hlt. exists (Z.log2 y). split; [lia|]. apply Z.bit_log2. lia.
Qed.

Lemma pow2_ceil_log2_up x : 1 ≤ x < 2 ^ 64 → pow2_ceil x = u64 (2 ^ Z.log2_up x).
Proof.
  intros Hx. assert (E : u64 (x - 1) = x - 1) by (apply u64_small; split; lia).
  destruct (Z.eq_dec x 1) as [->|Hne]; [done|].
  unfold pow2_ceil. rewrite E. cbv zeta. f_equal.
  match goal with |- ?z + 1 = _ => assert (Hz : smeared (x - 1) 64 z) end.
  { do 6 (eapply smeared_step; [|done|]; [reflexivity|]). apply smeared_start. }
  rewrite (smeared_ones (x - 1) _ ltac:(lia) Hz), Z.ones_equiv, Z.log2_up_eqn by lia.
  replace (Z.pred x) with (x - 1) by lia. unfold Z.succ. lia.
Qed.

(** [pow2_ceil] returns the smallest power of two that is at least its
    argument, and 0 when that is [2^64]. *)
Theorem pow2_ceil_spec x :
  1 ≤ x < 2 ^ 64 →
  pow2_ceil x = u64 (2 ^ Z.log2_up x) ∧ x ≤ 2 ^ Z.log2_up x ∧
  (∀ k, 0 ≤ k → x ≤ 2 ^ k → 2 ^ Z.log2_up x ≤ 2 ^ k).
Proof.
  intros Hx. split; [by apply pow2_ceil_log2_up|]. split.
  - destruct (Z.eq_dec x 1) as [->|Hne]; [done|]. apply Z.log2_up_spec. lia.
  - intros k Hk Hle. apply Z.pow_le_mono_r; [lia|]. apply Z.log2_up_le_pow2; lia.
Qed.

Lemma pow2_ceil_spec_witness :
  pow2_ceil 1000 = u64 (2 ^ Z.log2_up 1000) ∧ 1000 ≤ 2 ^ Z.log2_up 1000 ∧
  (∀ k, 0 ≤ k → 1000 ≤ 2 ^ k → 2 ^ Z.log2_up 1000 ≤ 2 ^ k).
Proof. apply (pow2_ceil_spec 1000). lia. Defined.

(** C39: three rounds are enough: the chunk header, with page-map entries for
    the pages after it only, fits in [map_bias] pages; what is left, the size
    of the largest run, is a whole number of pages and holds every small run. *)
Theorem arena_boot_map_bias `{Config} :
  0 < map_bias < chunk_npages ∧
  chunk_map_offset + sizeof_chunk_map * (chunk_npages - map_bias) ≤ map_bias * PAGE ∧
  arena_maxclass = (chunk_npages - map_bias) * PAGE ∧ SMALL_MAXCLASS < arena_maxclass < chunksize.
Proof.
  destruct map_bias_spec as (? & ? & ? & ? & ?). destruct maxclass_facts as ((? & ?) & _).
  split_and!; (done || lia).
Qed.
