(* ===== verification/BinInfo.v ===== *)
(** * Run layout of a bin (arena.c, arena.h)

    [bin_info_run_size_calc] chooses the size of a bin's runs, the number of
    regions in one and the offsets of the bitmap and of region 0;
    [bin_info_init] does so for every size class; [arena_run_regind] turns a
    region's address back into its number without dividing. *)

From S2P Require Import Prelude Bitmap SizeClass.

(** ** Constants *)

Definition RUN_BFP : Z := 12.
Definition RUN_MAX_OVRHD : Z := 0x3d.
Definition RUN_MAX_OVRHD_RELAX : Z := 0x1800.
Definition LG_RUN_MAXREGS : Z := 11.
Definition RUN_MAXREGS : Z := Z.shiftl 1 LG_RUN_MAXREGS.
Definition REDZONE_MINSIZE : Z := 16.

(** [sizeof(arena_run_t)] with the fields of the NVRAM build. *)
Definition sizeof_run : Z := 32.

Record arena_bin_info := ArenaBinInfo {
  reg_size : Z; redzone_size : Z; reg_interval : Z; run_size : Z; nregs : Z;
  bitmap_offset : Z; binfo : bitmap_info; ctx0_offset : Z; reg0_offset : Z
}.

(** ** Computing the layout *)

(** The settings of one round: run size, number of regions, header size and
    offset of the first redzone. *)
Record settings := Settings {
  try_run_size : Z; try_nregs : Z; try_hdr_size : Z; try_bitmap_offset : Z; try_redzone0_offset : Z
}.

Definition ffs (x : Z) : Z := ffsl (u32 x).

(** The do-while loop that drops regions until header and regions no longer
    overlap; [n] is [try_nregs] before the decrement.  [bitmap_size 0] fails
    its assertion, so [n] iterations are enough. *)
Fixpoint fit (fuel : nat) (run_size interval pad_size n : Z) : option settings :=
  match fuel with
  | O => None
  | S fuel =>
      let n := n - 1 in
      let hdr := LONG_CEILING sizeof_run in
      let bm_offset := hdr in
      bs ← bitmap_size n;
      let hdr := u32 (hdr + bs) in
      let redzone0 := u32 (u64 (run_size - n * interval - pad_size)) in
      if redzone0 <? hdr then fit fuel run_size interval pad_size n
      else Some (Settings run_size n hdr bm_offset redzone0)
  end.

(** [try_nregs] before the loop; [avail] is the space left for regions. *)
Definition start_nregs (avail interval : Z) : Z :=
  let n := u32 (u64 avail / interval + 1) in
  if RUN_MAXREGS <? n then RUN_MAXREGS + 1 else n.

Definition try_fit (run_size avail interval pad_size : Z) : option settings :=
  let n := start_nregs avail interval in
  fit (Z.to_nat n) run_size interval pad_size n.

Section layout.
Context `{Config}.

(** The condition of the expansion loop. *)
Definition expand_more (interval : Z) (t : settings) : bool :=
  (try_run_size t <=? arena_maxclass) &&
  (RUN_MAX_OVRHD_RELAX <? RUN_MAX_OVRHD * Z.shiftl interval 3) &&
  (RUN_MAX_OVRHD * try_run_size t <? u32 (Z.shiftl (try_redzone0_offset t) RUN_BFP)) &&
  (try_nregs t <? RUN_MAXREGS).

(** The run-size expansion loop: [good] are the last settings known to be
    valid; the run size grows by a page per iteration, up to [arena_maxclass]. *)
Fixpoint expand (fuel : nat) (interval pad_size : Z) (good : settings) : option settings :=
  match fuel with
  | O => None
  | S fuel =>
      let run_size := try_run_size good + PAGE in
      t ← try_fit run_size (run_size - sizeof_run - pad_size) interval pad_size;
      if expand_more interval t then expand fuel interval pad_size t else Some good
  end.

(** Redzone size and padding for regions of a size. *)
Definition redzone_calc (reg_size : Z) : Z * Z :=
  if opt_redzone then
    let align_min := Z.shiftl 1 (ffs reg_size - 1) in
    if align_min <=? REDZONE_MINSIZE then (REDZONE_MINSIZE, 0)
    else (Z.shiftr align_min 1, Z.shiftr align_min 1)
  else (0, 0).

Definition bin_info_run_size_calc (reg_size min_run_size : Z) : option arena_bin_info :=
  assert! (PAGE <=? min_run_size);
  assert! (min_run_size <=? arena_maxclass);
  let '(redzone_size, pad_size) := redzone_calc reg_size in
  let reg_interval := reg_size + Z.shiftl redzone_size 1 in
  t ← try_fit min_run_size (min_run_size - sizeof_run) reg_interval pad_size;
  good ← expand (Z.to_nat (arena_maxclass / PAGE + 1)) reg_interval pad_size t;
  assert! (try_hdr_size good <=? try_redzone0_offset good);
  let reg0_offset := u32 (try_redzone0_offset good + redzone_size) in
  assert! (reg0_offset - redzone_size + try_nregs good * reg_interval + pad_size =? try_run_size good);
  bi ← bitmap_info_init (try_nregs good);
  Some (ArenaBinInfo reg_size redzone_size reg_interval (try_run_size good) (try_nregs good)
          (try_bitmap_offset good) bi 0 reg0_offset).

(** Every class starts from the run size of the one before it. *)
Fixpoint bin_info_loop (classes : list (Z * Z * Z)) (prev_run_size : Z) : option (list arena_bin_info) :=
  match classes with
  | [] => Some []
  | (_, _, size) :: classes =>
      bin_info ← bin_info_run_size_calc size prev_run_size;
      rest ← bin_info_loop classes (run_size bin_info);
      Some (bin_info :: rest)
  end.

Definition bin_info_init : option (list arena_bin_info) := bin_info_loop SIZE_CLASSES PAGE.
End layout.

(** ** The inverse: region number of an address *)

Definition SIZE_INV_SHIFT : Z := Z.shiftl 4 3 - LG_RUN_MAXREGS.
Definition SIZE_INV (s : Z) : Z := Z.shiftl 1 SIZE_INV_SHIFT / s + 1.
Definition interval_invs : list Z := map SIZE_INV (seqZ 3 29).

Definition arena_run_regind (run : Z) (bin_info : arena_bin_info) (ptr : Z) : option Z :=
  assert! (run + reg0_offset bin_info <=? ptr);
  let diff := u32 (ptr - run - reg0_offset bin_info) in
  let shift := ffs (reg_interval bin_info) - 1 in
  let diff := Z.shiftr diff shift in
  let interval := Z.shiftr (reg_interval bin_info) shift in
  regind ←
    if interval =? 1 then Some diff
    else if interval <=? Z.of_nat (length interval_invs) + 2 then
      inv ← interval_invs !! Z.to_nat (interval - 3);
      Some (Z.shiftr (u32 (diff * inv)) SIZE_INV_SHIFT)
    else Some (diff / interval);
  assert! (diff =? regind * interval);
  assert! (regind <? nregs bin_info);
  Some regind.

(** ** The loops find a layout *)

Lemma bitmap_size_bound n :
  1 ≤ n ≤ RUN_MAXREGS → ∃ bs, bitmap_size n = Some bs ∧ 8 ≤ bs ≤ 264.
Proof.
  intros Hn. change RUN_MAXREGS with 2048 in Hn.
  assert (Hall : forallb (λ n, match bitmap_size n with Some bs => (8 <=? bs) && (bs <=? 264) | None => false end)
     (seqZ 1 2048) = true) by (vm_compute; reflexivity).
  rewrite forallb_forall in Hall. specialize (Hall n).
  rewrite <- list_elem_of_In, elem_of_seqZ in Hall. specialize (Hall ltac:(lia)).
  destruct (bitmap_size n) as [bs|]; [|discriminate]. exists bs.
  apply andb_true_iff in Hall as [?%Z.leb_le ?%Z.leb_le]. done.
Qed.

(** Settings that are a valid layout of a run of [rs] bytes. *)
Record fits (rs interval pad : Z) (t : settings) : Prop := {
  fits_run : try_run_size t = rs;
  fits_nregs : 1 ≤ try_nregs t ≤ RUN_MAXREGS;
  fits_bitmap : ∃ bs, bitmap_size (try_nregs t) = Some bs ∧
    try_hdr_size t = try_bitmap_offset t + bs ∧ try_bitmap_offset t = sizeof_run;
  fits_offset : try_redzone0_offset t = rs - try_nregs t * interval - pad;
  fits_header : try_hdr_size t ≤ try_redzone0_offset t
}.

Lemma fit_ok rs interval pad n :
  1 < n ≤ RUN_MAXREGS + 1 → 0 < interval → 0 ≤ pad → rs < 2 ^ 32 →
  0 ≤ rs - (n - 1) * interval - pad → 40 ≤ rs - interval - pad →
  ∃ t, fit (Z.to_nat n) rs interval pad n = Some t ∧ fits rs interval pad t.
Proof.
  intros Hn Hi Hp Hrs. remember (Z.to_nat n) as fuel eqn:Hf. revert n Hn Hf.
  induction fuel as [|fuel IH]; intros n Hn Hf Hoff H1; [lia|].
  cbn [fit]. destruct (bitmap_size_bound (n - 1)) as (bs & Ebs & Hbs); [lia|]. rewrite Ebs. simpl.
  change (LONG_CEILING sizeof_run) with 32. rewrite (u32_small (32 + bs)) by (split; lia).
  assert (0 ≤ (n - 1) * interval) by nia.
  rewrite u64_small by (split; lia). rewrite u32_small by (split; lia).
  destruct (Z.ltb_spec (rs - (n - 1) * interval - pad) (32 + bs)) as [Hlt|Hge].
  - destruct (Z.eq_dec n 2) as [->|].
    + change (bitmap_size (2 - 1)) with (Some 8) in Ebs. assert (bs = 8) by congruence. lia.
    + apply IH; [lia|lia|nia|lia].
  - eexists; split; [done|]. split; simpl; try done; try lia. exists bs. done.
Qed.

Lemma try_fit_ok rs avail interval pad :
  0 < interval → 0 ≤ pad → rs < 2 ^ 32 → interval ≤ avail < 2 ^ 32 - 1 →
  40 ≤ rs - interval - pad →
  (∀ n, 1 ≤ n → n * interval ≤ avail → 0 ≤ rs - n * interval - pad) →
  ∃ t, try_fit rs avail interval pad = Some t ∧ fits rs interval pad t.
Proof.
  intros Hi Hp Hrs Hav H1 Hok. unfold try_fit, start_nregs.
  assert (Hq : 1 ≤ avail / interval ≤ avail).
  { split; [apply Z.div_le_lower_bound; lia|apply Z.div_le_upper_bound; [lia|]].
    rewrite <- (Z.mul_1_l avail) at 1. apply Z.mul_le_mono_nonneg_r; lia. }
  assert (Hqi : avail / interval * interval ≤ avail).
  { pose proof (Z.mul_div_le avail interval Hi). lia. }
  rewrite u64_small by (split; lia). rewrite u32_small by (split; lia). cbv zeta.
  destruct (Z.ltb_spec RUN_MAXREGS (avail / interval + 1)) as [Hc|Hc]; apply fit_ok; try lia.
  - change RUN_MAXREGS with 2048. lia.
  - apply Hok; change RUN_MAXREGS with 2048 in *; [lia|nia].
  - apply Hok; [lia|]. replace (avail / interval + 1 - 1) with (avail / interval) by lia. done.
Qed.

(** [ffs] finds the largest power of two that divides its argument. *)
Lemma ffs_spec x :
  0 < x < 2 ^ 32 →
  0 ≤ ffs x - 1 < 32 ∧ x mod 2 ^ (ffs x - 1) = 0 ∧ Z.odd (Z.shiftr x (ffs x - 1)) = true ∧
  (∀ k, 0 ≤ k → x mod 2 ^ k = 0 → k ≤ ffs x - 1).
Proof.
  intros Hx. unfold ffs. rewrite u32_small by (split; lia).
  destruct (ffsl_spec x) as (Hf & Ht & H0); [split; lia|lia|].
  set (s := ffsl x - 1) in *. assert (Hs0 : 0 ≤ s) by lia. split_and!; [lia|..].
  - destruct (Z_lt_ge_dec s 32); [done|]. exfalso.
    rewrite <- (Z.mod_small x (2 ^ 32)) in Ht by lia. by rewrite Z.mod_pow2_bits_high in Ht by lia.
  - apply Z.bits_inj'. intros n Hn. rewrite Z.bits_0. destruct (Z_lt_ge_dec n s).
    + rewrite Z.mod_pow2_bits_low by lia. apply H0. lia.
    + apply Z.mod_pow2_bits_high. lia.
  - by rewrite <- Z.testbit_odd.
  - intros k Hk Hm. destruct (Z_le_gt_dec k s); [done|]. exfalso.
    rewrite <- (Z.mod_pow2_bits_low x k s) in Ht by lia. by rewrite Hm, Z.bits_0 in Ht.
Qed.

Section layout_facts.
Context `{Config} (Hlg : opt_lg_chunk ≤ 31).

Lemma maxclass_31 : arena_maxclass < 2 ^ 31.
Proof.
  destruct map_bias_spec as (_ & _ & _ & _ & Hlt). pose proof lg_chunk_range.
  rewrite chunksize_pow2 in Hlt. assert (2 ^ opt_lg_chunk ≤ 2 ^ 31) by (apply Z.pow_le_mono_r; lia). lia.
Qed.

Lemma expand_ok fuel interval pad good :
  0 < interval → 0 ≤ pad → fits (try_run_size good) interval pad good →
  try_run_size good mod PAGE = 0 → try_run_size good ≤ arena_maxclass →
  40 ≤ try_run_size good - interval - pad →
  (arena_maxclass - try_run_size good) / PAGE < Z.of_nat fuel →
  ∃ t, expand fuel interval pad good = Some t ∧ fits (try_run_size t) interval pad t ∧
    try_run_size t mod PAGE = 0 ∧ try_run_size good ≤ try_run_size t ≤ arena_maxclass.
Proof.
  intros Hi Hp. pose proof maxclass_31 as Hmax. revert good.
  induction fuel as [|fuel IH]; intros good Hg Hmod Hle Hroom Hf.
  { assert (0 ≤ (arena_maxclass - try_run_size good) / PAGE) by (apply Z.div_pos; [lia|done]). lia. }
  cbn [expand]. set (rs := try_run_size good + PAGE).
  assert (HP : PAGE = 8192) by done.
  destruct (try_fit_ok rs (rs - sizeof_run - pad) interval pad) as (t & -> & Ht);
    [done|done|lia|unfold sizeof_run; lia|lia|unfold sizeof_run; lia|]. simpl.
  destruct (expand_more interval t) eqn:E; [|by exists good; split_and!].
  unfold expand_more in E. rewrite !andb_true_iff, Z.leb_le in E. destruct E as [[[Ele _] _] _].
  pose proof (fits_run _ _ _ _ Ht) as Hrun.
  destruct (IH t) as (t' & -> & Ht' & Hmod' & Hle'); [by rewrite Hrun|..].
  - rewrite Hrun. unfold rs. apply mod_add_0; [done|done|]. by apply Z.mod_same.
  - done.
  - rewrite Hrun. lia.
  - rewrite Hrun. unfold rs. replace (arena_maxclass - (try_run_size good + PAGE)) with
      (arena_maxclass - try_run_size good + (-1) * PAGE) by lia. rewrite Z.div_add by done. lia.
  - exists t'. split_and!; [done..|lia|lia].
Qed.

(** The layout of a run: header, bitmap, redzones and regions follow each other
    without overlap and fill the run, and the regions are as aligned as their
    size. *)
Record bin_info_ok (b : arena_bin_info) : Prop := {
  bo_reg : 0 < reg_size b ≤ reg_interval b ∧ 0 ≤ redzone_size b ∧
    reg_interval b = reg_size b + 2 * redzone_size b;
  bo_run : PAGE ≤ run_size b ≤ arena_maxclass ∧ run_size b mod PAGE = 0;
  bo_nregs : 1 ≤ nregs b ≤ RUN_MAXREGS;
  bo_info : info_ok (binfo b) ∧ nbits (binfo b) = nregs b;
  bo_bitmap : sizeof_run ≤ bitmap_offset b ∧
    bitmap_offset b + 8 * off (binfo b) (nlevels (binfo b)) ≤ reg0_offset b - redzone_size b;
  bo_regions : reg0_offset b + nregs b * reg_interval b - redzone_size b ≤ run_size b;
  bo_aligned k : 0 ≤ k ≤ 13 → reg_size b mod 2 ^ k = 0 →
    reg0_offset b mod 2 ^ k = 0 ∧ reg_interval b mod 2 ^ k = 0
}.

(** What the redzone computation guarantees about alignment. *)
Lemma redzone_calc_ok rs rz pad :
  0 < rs < 2 ^ 31 → redzone_calc rs = (rz, pad) →
  0 ≤ rz ≤ 16 + rs ∧ 0 ≤ pad ≤ rz ∧
  (pad = 0 ∨ pad = rz ∧ 0 < rz ∧ rs mod (2 * rz) = 0) ∧
  (∀ k, 0 ≤ k → rs mod 2 ^ k = 0 → Z.shiftl rz 1 mod 2 ^ k = 0 ∧ (rz - pad) mod 2 ^ k = 0).
Proof.
  intros Hrs. unfold redzone_calc. destruct (ffs_spec rs) as (Hf & Hm & _ & Hmax); [lia|].
  rewrite Z.shiftl_1_l. set (s := ffs rs - 1) in *. pose proof (pow2_pos s ltac:(lia)).
  assert (2 ^ s ≤ rs) by (apply Z.divide_pos_le; [lia|]; apply Z.mod_divide; [lia|done]).
  destruct opt_redzone.
  2: { intros [= <- <-]. split_and!; try lia. intros k Hk _. split; apply Z.mod_0_l; pose proof (pow2_pos k Hk); lia. }
  destruct (Z.leb_spec (2 ^ s) REDZONE_MINSIZE) as [Hle|Hgt]; intros [= <- <-].
  - unfold REDZONE_MINSIZE in *. split_and!; try lia. intros k Hk Hkm. specialize (Hmax k Hk Hkm).
    assert (Hk4 : k ≤ 4).
    { transitivity s; [done|]. apply (Z.pow_le_mono_r_iff 2); lia. }
    split; [apply (mod_pow2_le _ k 5)|apply (mod_pow2_le _ k 4)]; (done || lia).
  - unfold REDZONE_MINSIZE in *. assert (Hs : 4 < s) by (apply (Z.pow_lt_mono_r_iff 2); lia).
    assert (Hhalf : Z.shiftr (2 ^ s) 1 = 2 ^ (s - 1)).
    { rewrite Z.shiftr_div_pow2 by lia. rewrite <- Z.pow_sub_r by lia. done. }
    assert (Hdbl : 2 * 2 ^ (s - 1) = 2 ^ s) by (rewrite <- Z.pow_succ_r by lia; f_equal; lia).
    rewrite Hhalf. pose proof (pow2_pos (s - 1) ltac:(lia)).
    split_and!; try lia; [right; rewrite Hdbl; split_and!; (done || lia)|].
    intros k Hk Hkm. specialize (Hmax k Hk Hkm). rewrite Z.shiftl_mul_pow2 by lia.
    change (2 ^ 1) with 2. rewrite Z.mul_comm, Hdbl, Z.sub_diag.
    split; [|apply Z.mod_0_l; pose proof (pow2_pos k Hk); lia].
    apply (mod_pow2_le _ k s); [lia|]. apply Z.mod_same. lia.
Qed.

(** Redzones have at least the minimal size when they are on, and none otherwise. *)
Definition redzone_on `{Config} (rz : Z) : Prop := if opt_redzone then REDZONE_MINSIZE ≤ rz else rz = 0.

Lemma redzone_calc_on rs : 0 < rs < 2 ^ 31 → redzone_on (redzone_calc rs).1.
Proof.
  intros Hrs. unfold redzone_on, redzone_calc. destruct (ffs_spec rs) as (Hf & _); [lia|].
  destruct opt_redzone; [|done]. rewrite Z.shiftl_1_l. set (s := ffs rs - 1) in *.
  destruct (Z.leb_spec (2 ^ s) REDZONE_MINSIZE) as [Hle|Hgt]; [done|]. simpl. unfold REDZONE_MINSIZE in *.
  assert (Hs : 4 < s) by (apply (Z.pow_lt_mono_r_iff 2); lia).
  rewrite Z.shiftr_div_pow2, <- Z.pow_sub_r by lia. change 16 with (2 ^ 4). apply Z.pow_le_mono_r; lia.
Qed.

Lemma redzone_first_fit rs min rz pad n :
  redzone_calc rs = (rz, pad) → 0 < rs < 2 ^ 31 → min mod PAGE = 0 → rs ≤ SMALL_MAXCLASS →
  n * (rs + 2 * rz) ≤ min - sizeof_run → 0 ≤ min - n * (rs + 2 * rz) - pad.
Proof.
  intros E Hrs Hmin Hmax Hn. destruct (redzone_calc_ok rs rz pad Hrs E) as (Hrz & Hpad & Hcase & _).
  destruct Hcase as [->|(-> & Hpos & Hdiv)]; [unfold sizeof_run in *; lia|].
  unfold redzone_calc in E. destruct opt_redzone; [|injection E as E1 E2; lia].
  destruct (ffs_spec rs) as (Hf & Hm & _); [lia|]. rewrite Z.shiftl_1_l in E. set (s := ffs rs - 1) in *.
  pose proof (pow2_pos s ltac:(lia)).
  assert (Hle : 2 ^ s ≤ rs) by (apply Z.divide_pos_le; [lia|]; apply Z.mod_divide; [lia|done]).
  destruct (Z.leb_spec (2 ^ s) REDZONE_MINSIZE) as [?|Hgt]; injection E as E1 E2; [lia|].
  assert (Hs : 4 < s) by (apply (Z.pow_lt_mono_r_iff 2); unfold REDZONE_MINSIZE in *; lia).
  assert (Hrz2 : 2 * rz = 2 ^ s).
  { rewrite <- E1, Z.shiftr_div_pow2 by lia. rewrite <- Z.pow_sub_r by lia.
    rewrite <- Z.pow_succ_r by lia. f_equal. lia. }
  assert (Hs13 : s ≤ 13).
  { apply Z.lt_succ_r, (Z.pow_lt_mono_r_iff 2); [lia|lia|]. unfold SMALL_MAXCLASS in *. simpl. lia. }
  assert (Hmod : (min - n * (rs + 2 * rz)) mod 2 ^ s = 0).
  { apply mod_sub_0; [lia|by apply (mod_pow2_le _ s 13); [lia|]|].
    apply Z.mod_divide; [lia|]. apply Z.divide_mul_r, Z.divide_add_r.
    - by apply Z.mod_divide; [lia|].
    - rewrite Hrz2. apply Z.divide_refl. }
  assert (0 + 2 ^ s ≤ min - n * (rs + 2 * rz)).
  { apply mod_0_lt_add; [lia|apply Z.mod_0_l; lia|done|unfold sizeof_run in *; lia]. }
  unfold sizeof_run in *. lia.
Qed.

Lemma bin_info_run_size_calc_ok rs min :
  0 < rs ≤ SMALL_MAXCLASS → PAGE ≤ min ≤ arena_maxclass → min mod PAGE = 0 →
  40 + (rs + 2 * (redzone_calc rs).1) + (redzone_calc rs).2 ≤ min →
  ∃ b, bin_info_run_size_calc rs min = Some b ∧ reg_size b = rs ∧
    min ≤ run_size b ∧ bin_info_ok b ∧ redzone_on (redzone_size b).
Proof.
  intros Hrs Hmin Hmod Hroom. pose proof maxclass_31 as Hmax.
  unfold bin_info_run_size_calc.
  rewrite (proj2 (Z.leb_le PAGE min)), (proj2 (Z.leb_le min arena_maxclass)) by lia. rewrite !assert_true.
  assert (Hrs31 : 0 < rs < 2 ^ 31) by (unfold SMALL_MAXCLASS in *; lia).
  pose proof (redzone_calc_on rs Hrs31) as Hon.
  destruct (redzone_calc rs) as [rz pad] eqn:E. simpl in Hroom, Hon.
  destruct (redzone_calc_ok rs rz pad Hrs31 E) as (Hrz & Hpad & _ & Hal).
  rewrite Z.shiftl_mul_pow2 by lia. change (2 ^ 1) with 2. rewrite (Z.mul_comm rz 2).
  set (interval := rs + 2 * rz) in *.
  destruct (try_fit_ok min (min - sizeof_run) interval pad) as (t & -> & Ht);
    [lia|lia|lia|unfold sizeof_run; lia|lia| |].
  { intros n Hn Hni. apply (redzone_first_fit rs min rz pad n); (done || lia). }
  pose proof (fits_run _ _ _ _ Ht) as Hrun. simpl.
  destruct (expand_ok (Z.to_nat (arena_maxclass / PAGE + 1)) interval pad t) as (g & -> & Hg & Hgm & Hgr);
    [lia|lia|by rewrite Hrun|by rewrite Hrun|lia|lia|..].
  { assert ((arena_maxclass - try_run_size t) / PAGE ≤ arena_maxclass / PAGE) by (apply Z.div_le_mono; [done|lia]).
    assert (0 ≤ arena_maxclass / PAGE) by (apply Z.div_pos; [lia|done]). lia. }
  simpl. pose proof (fits_header _ _ _ _ Hg). rewrite (proj2 (Z.leb_le _ _)) by lia. rewrite assert_true.
  destruct (fits_bitmap _ _ _ _ Hg) as (bs & Ebs & Ehdr & Ebm).
  pose proof (fits_nregs _ _ _ _ Hg) as Hn. pose proof (fits_offset _ _ _ _ Hg) as Hoff.
  change RUN_MAXREGS with 2048 in Hn. unfold sizeof_run in *.
  destruct (bitmap_size_bound (try_nregs g)) as (bs' & Ebs' & Hbs); [done|].
  assert (bs' = bs) as -> by congruence.
  rewrite u32_small by (split; unfold SMALL_MAXCLASS in *; nia).
  rewrite (proj2 (Z.eqb_eq _ (try_run_size g))) by lia. rewrite assert_true.
  destruct (bitmap_info_init_correct (try_nregs g) ltac:(lia)) as (bi & Ebi & Hnb & Hbi). rewrite Ebi. simpl.
  eexists; split_and!; [done|done|simpl; lia| |exact Hon].
  assert (Hsz : bs = 8 * off bi (nlevels bi)).
  { unfold bitmap_size, bitmap_info_ngroups in Ebs. rewrite Ebi in Ebs. simpl in Ebs.
    pose proof (ok_nlevels _ Hbi). rewrite (group_offset_off bi Hbi) in Ebs by lia. simpl in Ebs.
    rewrite Z.shiftl_mul_pow2 in Ebs by done. injection Ebs as <-. change (2 ^ LG_SIZEOF_BITMAP) with 8. lia. }
  split; simpl; try done; try lia.
  - unfold sizeof_run. lia.
  - intros k Hk Hkm. destruct (Hal k ltac:(lia) Hkm) as [H1 H2]. pose proof (pow2_pos k ltac:(lia)).
    assert (Hint : interval mod 2 ^ k = 0).
    { apply mod_add_0; [lia|done|]. rewrite Z.shiftl_mul_pow2, Z.mul_comm in H1 by lia. done. }
    split; [|done]. rewrite Hoff.
    replace (try_run_size g - try_nregs g * interval - pad + rz)
      with (try_run_size g - try_nregs g * interval + (rz - pad)) by lia.
    apply mod_add_0; [lia| |done]. apply mod_sub_0; [lia|apply (mod_pow2_le _ k 13); [lia|done]|].
    apply Z.mod_divide; [lia|]. apply Z.divide_mul_r, Z.mod_divide; [lia|done].
Qed.
End layout_facts.

Section init_facts.
Context `{Config} (Hlg : opt_lg_chunk ≤ 31).

(** The first run size tried for each class has room for one region with its redzones. *)
Fixpoint roomy (classes : list (Z * Z * Z)) (prev : Z) : bool :=
  match classes with
  | [] => true
  | (_, _, size) :: classes =>
      (40 + (size + 2 * (redzone_calc size).1) + (redzone_calc size).2 <=? prev) &&
      match bin_info_run_size_calc size prev with Some b => roomy classes (run_size b) | None => false end
  end.

Lemma bin_info_loop_ok classes prev :
  roomy classes prev = true → PAGE ≤ prev ≤ arena_maxclass → prev mod PAGE = 0 →
  Forall (λ '(_, _, size), 0 < size ≤ SMALL_MAXCLASS) classes →
  ∃ infos, bin_info_loop classes prev = Some infos ∧
    Forall2 (λ '(_, _, size) b, reg_size b = size ∧ bin_info_ok b ∧ redzone_on (redzone_size b)) classes infos.
Proof.
  intros Hr Hp Hm Hcl. revert prev Hr Hp Hm. induction Hcl as [|[[bin delta] size] classes Hsz _ IH]; intros prev Hr Hp Hm.
  { exists []. done. }
  cbn [roomy] in Hr. apply andb_true_iff in Hr as [Hroom%Z.leb_le Hr].
  destruct (bin_info_run_size_calc_ok Hlg size prev) as (b & E & Hreg & Hle & Hok & Hon); [done..|].
  rewrite E in Hr. destruct (bo_run _ Hok) as [Hrun Hrm].
  destruct (IH (run_size b)) as (infos & Ei & Hall); [done|lia|done|].
  exists (b :: infos). simpl. rewrite E. simpl. rewrite Ei. split; [done|]. by constructor.
Qed.
End init_facts.

(** For every chunk size, with and without redzones. *)
Lemma classes_roomy `{HC : Config} : opt_lg_chunk ≤ 31 → roomy SIZE_CLASSES PAGE = true.
Proof.
  destruct HC as [lg rz Hr]. cbn [opt_lg_chunk]. intros Hlg.
  assert (Hin : lg ∈ seqZ 15 17) by (apply elem_of_seqZ; lia).
  change (seqZ 15 17) with [15; 16; 17; 18; 19; 20; 21; 22; 23; 24; 25; 26; 27; 28; 29; 30; 31] in Hin.
  rewrite !elem_of_cons in Hin.
  repeat (destruct Hin as [->|Hin]; [destruct rz; vm_compute; reflexivity|]). by apply elem_of_nil in Hin.
Qed.

Lemma bin_infos_all `{Config} :
  opt_lg_chunk ≤ 31 → ∃ infos, bin_info_init = Some infos ∧ Forall2 (λ '(_, _, size) b, reg_size b = size ∧ bin_info_ok b ∧ redzone_on (redzone_size b)) SIZE_CLASSES infos.
Proof.
  intros Hlg. destruct map_bias_spec as (_ & _ & Hmax & _). apply bin_info_loop_ok; [done|by apply classes_roomy|split; [done|exact Hmax]|done|].
  unfold SIZE_CLASSES, SMALL_MAXCLASS. repeat (constructor; [lia|]). constructor.
Qed.

(** ** Region numbers *)

(** Multiplying by the rounded-up inverse and shifting divides exactly. *)
Lemma size_inv_divides r d :
  0 ≤ r < RUN_MAXREGS → 3 ≤ d ≤ 31 →
  Z.shiftr (u32 (r * d * SIZE_INV d)) SIZE_INV_SHIFT = r.
Proof.
  change RUN_MAXREGS with 2048. intros Hr Hd.
  unfold SIZE_INV. change (Z.shiftl 1 SIZE_INV_SHIFT) with 2097152.
  pose proof (Z.div_mod 2097152 d ltac:(lia)). pose proof (Z.mod_pos_bound 2097152 d ltac:(lia)).
  set (q := 2097152 / d) in *.
  assert (He : d * (q + 1) = 2097152 + (d - 2097152 mod d)) by lia.
  set (e := d - 2097152 mod d) in *.
  assert (Hprod : r * d * (q + 1) = r * 2097152 + r * e) by (rewrite <- Z.mul_assoc, He; lia).
  assert (0 ≤ r * e < 2097152) by nia.
  rewrite Hprod, u32_small by (split; lia).
  change SIZE_INV_SHIFT with 21. rewrite Z.shiftr_div_pow2 by lia. change (2 ^ 21) with 2097152.
  symmetry. apply (Z.div_unique_pos _ _ r (r * e)); lia.
Qed.

Lemma interval_invs_lookup d : 3 ≤ d ≤ 31 → interval_invs !! Z.to_nat (d - 3) = Some (SIZE_INV d).
Proof.
  intros Hd. unfold interval_invs.
  rewrite list_lookup_fmap, (proj2 (lookup_seqZ 3 29 (Z.to_nat (d - 3)) d)) by lia. done.
Qed.

Lemma regind_ok run b i :
  0 < reg_interval b < 2 ^ 32 → 0 ≤ i < nregs b → nregs b ≤ RUN_MAXREGS →
  i * reg_interval b < 2 ^ 32 →
  arena_run_regind run b (run + reg0_offset b + i * reg_interval b) = Some i.
Proof.
  intros Hint Hi Hn Hlt. unfold arena_run_regind.
  assert (Hpos : 0 ≤ i * reg_interval b) by (apply Z.mul_nonneg_nonneg; lia).
  rewrite (proj2 (Z.leb_le (run + reg0_offset b) _)) by lia. rewrite assert_true.
  replace (run + reg0_offset b + i * reg_interval b - run - reg0_offset b) with (i * reg_interval b) by lia.
  rewrite (u32_small (i * reg_interval b)) by (split; lia).
  destruct (ffs_spec (reg_interval b) Hint) as (Hs & Hm & Hodd & _).
  set (s := ffs (reg_interval b) - 1) in *. cbv zeta.
  rewrite !Z.shiftr_div_pow2 in * by lia. pose proof (pow2_pos s ltac:(lia)).
  set (d := reg_interval b / 2 ^ s) in *.
  assert (Hd : reg_interval b = d * 2 ^ s) by (pose proof (Z.div_mod (reg_interval b) (2 ^ s)); lia).
  assert (Hdpos : 0 < d) by nia. assert (Hd2 : d ≠ 2) by (intros E; by rewrite E in Hodd).
  replace (i * reg_interval b / 2 ^ s) with (i * d)
    by (rewrite Hd, Z.mul_assoc, Z.div_mul by lia; done).
  assert (Hreg : (if d =? 1 then Some (i * d)
     else if d <=? Z.of_nat (length interval_invs) + 2
          then inv ← interval_invs !! Z.to_nat (d - 3); Some (Z.shiftr (u32 (i * d * inv)) SIZE_INV_SHIFT)
          else Some (i * d / d)) = Some i).
  { destruct (Z.eqb_spec d 1) as [->|]; [f_equal; lia|].
    change (Z.of_nat (length interval_invs) + 2) with 31.
    destruct (Z.leb_spec d 31).
    - rewrite interval_invs_lookup by lia. simpl. by rewrite size_inv_divides by lia.
    - by rewrite Z.div_mul by lia. }
  rewrite Hreg. simpl. rewrite Z.eqb_refl, (proj2 (Z.ltb_lt i _)) by lia. done.
Qed.

(** ** Properties *)

(** C33: for every size class, with and without redzones, [bin_info_init]
    computes a run layout in which header, bitmap and regions follow each other
    without overlap within a whole number of pages of at most [arena_maxclass]
    bytes, the bitmap describes exactly the regions, every region is aligned as
    its size, and the regions lie between redzones of at least
    [REDZONE_MINSIZE] bytes when [opt_redzone] is set and have none otherwise.
    No assertion of the computation fails and its loops end.  Chunks have at
    most 2^31 bytes. *)
Theorem bin_info_init_spec `{Config} :
  opt_lg_chunk ≤ 31 →
  ∃ infos, bin_info_init = Some infos ∧ Z.of_nat (length infos) = NBINS ∧
    ∀ bin sz, 0 ≤ bin → reg_size_of bin = Some sz →
      ∃ b, infos !! Z.to_nat bin = Some b ∧ reg_size b = sz ∧ bin_info_ok b ∧ redzone_on (redzone_size b).
Proof.
  intros Hlg. destruct (bin_infos_all Hlg) as (infos & E & Hall).
  exists infos. split_and!; [done|by rewrite <- (Forall2_length _ _ _ Hall)|].
  intros bin sz Hb Hsz. unfold reg_size_of in Hsz. apply fmap_Some in Hsz as ([[? ?] ?] & Hl & ->).
  destruct (Forall2_lookup_l _ _ _ _ _ Hall Hl) as (b & Hbl & Hreg & Hok & Hon). eauto 6.
Qed.

(** Redzones around the regions of chunks of 4 megabytes. *)
Definition redzone_config : Config := {| opt_lg_chunk := 22; opt_redzone := true; lg_chunk_range := ltac:(lia) |}.

Lemma bin_info_init_spec_witness :
  ∃ infos, bin_info_init (H := redzone_config) = Some infos ∧ Z.of_nat (length infos) = NBINS ∧
    ∀ bin sz, 0 ≤ bin → reg_size_of bin = Some sz →
      ∃ b, infos !! Z.to_nat bin = Some b ∧ reg_size b = sz ∧ bin_info_ok (H := redzone_config) b ∧
        REDZONE_MINSIZE ≤ redzone_size b.
Proof. apply (bin_info_init_spec (H := redzone_config)). discriminate. Defined.

Section witness_bin_info.
#[local] Existing Instance default_config.

Example bin_info_4096 :
  (bin_info_init ≫= (.!! 28%nat)) =
  Some (ArenaBinInfo 4096 0 4096 270336 65 32 (BitmapInfo 65 2 [0; 2; 3]) 0 4096).
Proof. vm_compute. reflexivity. Qed.
End witness_bin_info.

(** C38: the region number computed by multiplying with a precomputed inverse
    is the number of the region: it is exact for every interval and every
    region of a run, with no overflow of the 32-bit product. *)
Theorem arena_run_regind_spec `{Config} (run : Z) (b : arena_bin_info) (i : Z) :
  opt_lg_chunk ≤ 31 → bin_info_ok b → 0 ≤ i < nregs b →
  arena_run_regind run b (run + reg0_offset b + i * reg_interval b) = Some i.
Proof.
  intros Hlg Hb Hi. destruct (bo_reg _ Hb) as (? & ? & ?). destruct (bo_run _ Hb) as [? _].
  pose proof (bo_regions _ Hb). pose proof (bo_nregs _ Hb). pose proof (maxclass_31 Hlg).
  destruct (bo_bitmap _ Hb) as [? Hbm]. destruct (bo_info _ Hb) as [Hok _].
  pose proof (off_nonneg _ Hok (nlevels (binfo b))). pose proof (ok_nlevels _ Hok).
  unfold sizeof_run in *. apply regind_ok; [nia|done|lia|nia].
Qed.

Section witness_regind.
#[local] Existing Instance default_config.

Lemma arena_run_regind_spec_witness :
  ∃ b, (bin_info_init ≫= (.!! 29%nat)) = Some b ∧
    arena_run_regind 1000000 b (1000000 + reg0_offset b + 17 * reg_interval b) = Some 17.
Proof.
  destruct (bin_infos_all (H := default_config) ltac:(discriminate)) as (infos & E & Hall).
  destruct (Forall2_lookup_l _ _ _ 29 _ Hall eq_refl) as (b & Hl & Hreg & Hok & _).
  exists b. rewrite E. split; [exact Hl|].
  apply (arena_run_regind_spec 1000000 b 17); [discriminate|exact Hok|].
  assert (Hn : nregs b = 52).
  { assert (bin_info_init ≫= (.!! 29%nat) = Some b) as Hb by (rewrite E; exact Hl).
    vm_compute in Hb. by injection Hb as <-. }
  rewrite Hn. lia.
Defined.
End witness_regind.
