(* ===== verification/Chunk.v ===== *)
(** * Chunks (extent.c, base.c, chunk_mmap.c, chunk.c)

    The layer that hands out chunk-aligned address ranges.  Ranges given back
    are kept as extents in two trees with the same nodes, one ordered by size
    and address, one by address, and are coalesced with their neighbours.  The
    nodes live in memory the base allocator carves from chunks of its own, so
    the two call each other: [chunk_recycle] and [chunk_record] need a node,
    and the base allocator needs a chunk, which it is never given from the
    trees.

    The trees hold node pointers and their comparisons read the nodes, as in the
    code: changing a node changes the comparison.  Locks are not modelled. *)

From S2P Require Import Prelude OrdTree SizeClass.

(** ** Extent nodes *)

Record extent_node := ExtentNode { addr : Z; size : Z }.

Definition CACHELINE_MASK : Z := 63.
Definition CACHELINE_CEILING (s : Z) : Z := ceil_mask s CACHELINE_MASK.

(** [sizeof(extent_node_t)]: two tree links of two pointers, a profiling
    context, an address and a size. *)
Definition sizeof_extent_node : Z := 56.

Abbreviation node_heap := (gmap Z extent_node).

Definition addr_of (h : node_heap) (p : Z) : Z := default 0 (addr <$> h !! p).
Definition size_of (h : node_heap) (p : Z) : Z := default 0 (size <$> h !! p).

(** A key is compared as if it were the node on the left. *)
Definition extent_szad_key (h : node_heap) (k_size k_addr b : Z) : Z :=
  let ret := cmp3 k_size (size_of h b) in
  if ret =? 0 then cmp3 k_addr (addr_of h b) else ret.

Definition extent_szad_comp (h : node_heap) (a b : Z) : Z := extent_szad_key h (size_of h a) (addr_of h a) b.

Definition extent_ad_key (h : node_heap) (k_addr b : Z) : Z := cmp3 k_addr (addr_of h b).

Definition extent_ad_comp (h : node_heap) (a b : Z) : Z := extent_ad_key h (addr_of h a) b.

Section chunk.
Context `{Config} {T : Type} `{OrdTree T Z}.

(** [mmap] without [MAP_FIXED]: the answer may depend on all earlier mappings. *)
Context (os_mmap : list (Z * Z) → Z → option Z).

Record state := State {
  chunks_szad : T;
  chunks_ad : T;
  nodes : node_heap;
  base_pages : Z;
  base_next_addr : Z;
  base_past_addr : Z;
  base_nodes : list Z;  (* the free list threaded through unused nodes *)
  nchunks : Z;
  curchunks : Z;
  highchunks : Z;
  mappings : list (Z * Z)  (* everything mapped so far *)
}.

Definition set_szad (t : T) (s : state) : state :=
  State t (chunks_ad s) (nodes s) (base_pages s) (base_next_addr s) (base_past_addr s) (base_nodes s)
    (nchunks s) (curchunks s) (highchunks s) (mappings s).
Definition set_ad (t : T) (s : state) : state :=
  State (chunks_szad s) t (nodes s) (base_pages s) (base_next_addr s) (base_past_addr s) (base_nodes s)
    (nchunks s) (curchunks s) (highchunks s) (mappings s).
Definition set_nodes (h : node_heap) (s : state) : state :=
  State (chunks_szad s) (chunks_ad s) h (base_pages s) (base_next_addr s) (base_past_addr s) (base_nodes s)
    (nchunks s) (curchunks s) (highchunks s) (mappings s).
Definition set_base (pages next past : Z) (s : state) : state :=
  State (chunks_szad s) (chunks_ad s) (nodes s) pages next past (base_nodes s)
    (nchunks s) (curchunks s) (highchunks s) (mappings s).
Definition set_base_nodes (l : list Z) (s : state) : state :=
  State (chunks_szad s) (chunks_ad s) (nodes s) (base_pages s) (base_next_addr s) (base_past_addr s) l
    (nchunks s) (curchunks s) (highchunks s) (mappings s).
Definition set_stats (n c h : Z) (s : state) : state :=
  State (chunks_szad s) (chunks_ad s) (nodes s) (base_pages s) (base_next_addr s) (base_past_addr s)
    (base_nodes s) n c h (mappings s).
Definition set_mappings (l : list (Z * Z)) (s : state) : state :=
  State (chunks_szad s) (chunks_ad s) (nodes s) (base_pages s) (base_next_addr s) (base_past_addr s)
    (base_nodes s) (nchunks s) (curchunks s) (highchunks s) l.

Abbreviation MS := (M state).

(** ** chunk_mmap.c *)

(** [pages_map(NULL, size)]. *)
Definition pages_map (sz : Z) : MS (option Z) :=
  check (negb (sz =? 0));;
  m ← gets mappings;
  match os_mmap m sz with
  | None => mret None
  | Some ret => modify (set_mappings ((ret, sz) :: m));; mret (Some ret)
  end.

(** [pages_unmap] has an empty body in this build: the mapping stays. *)
Definition pages_unmap (a sz : Z) : MS unit := mret tt.

Definition pages_trim (a alloc_size leadsize sz : Z) : MS Z :=
  let ret := u64 (a + leadsize) in
  check (leadsize + sz <=? alloc_size);;
  let trailsize := alloc_size - leadsize - sz in
  (if negb (leadsize =? 0) then pages_unmap a leadsize else mret tt);;
  (if negb (trailsize =? 0) then pages_unmap (u64 (ret + sz)) trailsize else mret tt);;
  mret ret.

(** The loop ends when [pages_trim] returns a non-null pointer; that it does at
    once is part of [chunk_alloc_mmap_ok]. *)
Definition chunk_alloc_mmap_slow (sz alignment : Z) (zero : bool) : MS (option Z * bool) :=
  let alloc_size := u64 (u64 (sz + alignment) - PAGE) in
  if alloc_size <? sz then mret (None, zero)
  else
    pages ← pages_map alloc_size;
    match pages with
    | None => mret (None, zero)
    | Some pages =>
        let leadsize := u64 (ALIGNMENT_CEILING pages alignment - pages) in
        ret ← pages_trim pages alloc_size leadsize sz;
        check (negb (ret =? 0));;
        mret (Some ret, true)
    end.

Definition chunk_alloc_mmap (sz alignment : Z) (zero : bool) : MS (option Z * bool) :=
  check (negb (alignment =? 0));;
  check (Z.land alignment chunksize_mask =? 0);;
  ret ← pages_map sz;
  match ret with
  | None => mret (None, zero)
  | Some ret =>
      let offset := Z.land ret (alignment - 1) in
      if negb (offset =? 0) then
        pages_unmap ret sz;; chunk_alloc_mmap_slow sz alignment zero
      else check (negb (ret =? 0));; mret (Some ret, true)
  end.

(** The variants for persistent chunks also report where the mapping begins:
    [mmap]'s result, [MAP_FAILED] included. *)
Definition nv_pages_map (sz : Z) : MS (option Z * Z) :=
  check (negb (sz =? 0));;
  m ← gets mappings;
  match os_mmap m sz with
  | None => mret (None, 2 ^ 64 - 1)
  | Some ret => modify (set_mappings ((ret, sz) :: m));; mret (Some ret, ret)
  end.

(** The start address is a parameter passed by value: what [nv_pages_map]
    stores in it is lost. *)
Definition nv_chunk_alloc_mmap_slow (sz alignment : Z) (zero : bool) : MS (option Z * bool) :=
  let alloc_size := u64 (u64 (sz + alignment) - PAGE) in
  if alloc_size <? sz then mret (None, zero)
  else
    '(pages, _) ← nv_pages_map alloc_size;
    match pages with
    | None => mret (None, zero)
    | Some pages =>
        let leadsize := u64 (ALIGNMENT_CEILING pages alignment - pages) in
        ret ← pages_trim pages alloc_size leadsize sz;
        check (negb (ret =? 0));;
        mret (Some ret, true)
    end.

(** The second result is what is left in [rq_data->mmapobj_straddr]. *)
Definition nv_chunk_alloc_mmap (sz alignment : Z) (zero : bool) : MS (option Z * bool * Z) :=
  check (negb (alignment =? 0));;
  check (Z.land alignment chunksize_mask =? 0);;
  '(ret, mmapobj_straddr) ← nv_pages_map sz;
  match ret with
  | None => mret (None, zero, mmapobj_straddr)
  | Some ret =>
      let offset := Z.land ret (alignment - 1) in
      if negb (offset =? 0) then
        pages_unmap ret sz;; r ← nv_chunk_alloc_mmap_slow sz alignment zero; mret (r, mmapobj_straddr)
      else check (negb (ret =? 0));; mret (Some ret, true, mmapobj_straddr)
  end.

(** [config_munmap] is false: the caller is to record the chunk. *)
Definition chunk_dealloc_mmap (chunk sz : Z) : bool := true.

(** ** chunk.c: allocation, given the way to recycle *)

Definition chunk_stats_alloc (sz : Z) : MS unit :=
  modify (λ s,
    let n := nchunks s + sz / chunksize in
    let c := curchunks s + sz / chunksize in
    set_stats n c (if highchunks s <? c then c else highchunks s) s).

Definition chunk_alloc_with (recycle : bool → MS (option Z * bool)) (sz alignment : Z) (zero : bool) :
    MS (option Z * bool) :=
  check (negb (sz =? 0));;
  check (Z.land sz chunksize_mask =? 0);;
  check (negb (alignment =? 0));;
  check (Z.land alignment chunksize_mask =? 0);;
  '(ret, zero) ← recycle zero;
  '(ret, zero) ←
    match ret with
    | Some ret => mret (Some ret, zero)
    | None => chunk_alloc_mmap sz alignment zero
    end;
  match ret with
  | None => mret (None, zero)
  | Some ret =>
      chunk_stats_alloc sz;;
      check (CHUNK_ADDR2BASE ret =? ret);;
      mret (Some ret, zero)
  end.

(** With [base] set, [chunk_recycle] returns [NULL] at once. *)
Definition chunk_alloc_base (sz alignment : Z) (zero : bool) : MS (option Z * bool) :=
  chunk_alloc_with (λ zero, mret (None, zero)) sz alignment zero.

(** ** base.c *)

(** The result is true on failure, as in the code. *)
Definition base_pages_alloc (minsize : Z) : MS bool :=
  check (negb (minsize =? 0));;
  let csize := CHUNK_CEILING minsize in
  '(ret, _) ← chunk_alloc_base csize chunksize false;
  match ret with
  | None => s ← gets id; modify (set_base 0 (base_next_addr s) (base_past_addr s));; mret true
  | Some pages => modify (set_base pages pages (u64 (pages + csize)));; mret false
  end.

Definition base_alloc (sz : Z) : MS (option Z) :=
  let csize := CACHELINE_CEILING sz in
  s ← gets id;
  failed ←
    (if base_past_addr s <? u64 (base_next_addr s + csize) then base_pages_alloc csize else mret false);
  if failed : bool then mret None
  else
    s ← gets id;
    let ret := base_next_addr s in
    modify (set_base (base_pages s) (u64 (ret + csize)) (base_past_addr s));;
    mret (Some ret).

(** [memset] changes the contents of the memory only. *)
Definition base_calloc (number sz : Z) : MS (option Z) := base_alloc (u64 (number * sz)).

Definition base_node_alloc : MS (option Z) :=
  l ← gets base_nodes;
  match l with
  | ret :: l => modify (set_base_nodes l);; mret (Some ret)
  | [] => base_alloc sizeof_extent_node
  end.

Definition base_node_dealloc (node : Z) : MS unit :=
  l ← gets base_nodes; modify (set_base_nodes (node :: l)).

(** ** Tree operations with the comparison in force *)

Definition szad_insert (node : Z) : MS unit :=
  s ← gets id; t ← lift (ot_insert (extent_szad_comp (nodes s)) node (chunks_szad s)); modify (set_szad t).
Definition szad_remove (node : Z) : MS unit :=
  s ← gets id; t ← lift (ot_remove (extent_szad_comp (nodes s)) node (chunks_szad s)); modify (set_szad t).
Definition ad_insert (node : Z) : MS unit :=
  s ← gets id; t ← lift (ot_insert (extent_ad_comp (nodes s)) node (chunks_ad s)); modify (set_ad t).
Definition ad_remove (node : Z) : MS unit :=
  s ← gets id; t ← lift (ot_remove (extent_ad_comp (nodes s)) node (chunks_ad s)); modify (set_ad t).

Definition node_get (node : Z) : MS extent_node := s ← gets id; lift (nodes s !! node).
Definition node_set (node : Z) (e : extent_node) : MS unit :=
  modify (λ s, set_nodes (<[node := e]> (nodes s)) s).

(** ** chunk.c: recording and recycling *)

(** Coalesces the chunk with the extent that begins at its end, or makes an
    extent of it; the result is its node, none if there was none to use. *)
Definition coalesce_forward (chunk sz : Z) (xnode : option Z) : MS (option Z) :=
  s ← gets id;
  let key := u64 (chunk + sz) in
  match
    match ot_nsearch (extent_ad_key (nodes s) key) (chunks_ad s) with
    | Some node => if addr_of (nodes s) node =? key then Some node else None
    | None => None
    end
  with
  | Some node =>
      szad_remove node;;
      e ← node_get node;
      node_set node (ExtentNode chunk (u64 (size e + sz)));;
      szad_insert node;;
      match xnode with Some x => base_node_dealloc x | None => mret tt end;;
      mret (Some node)
  | None =>
      match xnode with
      | None => mret None
      | Some node =>
          node_set node (ExtentNode chunk sz);;
          ad_insert node;;
          szad_insert node;;
          mret (Some node)
      end
  end.

(** Coalesces the chunk's extent with the one that ends where it begins. *)
Definition coalesce_backward (chunk node : Z) : MS unit :=
  s ← gets id;
  prev ← lift (ot_prev (extent_ad_comp (nodes s)) node (chunks_ad s));
  match prev with
  | None => mret tt
  | Some prev =>
      p ← node_get prev;
      if u64 (addr p + size p) =? chunk then
        szad_remove prev;;
        ad_remove prev;;
        szad_remove node;;
        e ← node_get node;
        node_set node (ExtentNode (addr p) (u64 (size e + size p)));;
        szad_insert node;;
        base_node_dealloc prev
      else mret tt
  end.

(** [pages_purge] changes the contents of the pages only. *)
Definition chunk_record (chunk sz : Z) : MS unit :=
  xnode ← base_node_alloc;
  node ← coalesce_forward chunk sz xnode;
  match node with
  | None => mret tt
  | Some node => coalesce_backward chunk node
  end.

Definition chunk_dealloc (chunk sz : Z) (unmap : bool) : MS unit :=
  check (negb (chunk =? 0));;
  check (CHUNK_ADDR2BASE chunk =? chunk);;
  check (negb (sz =? 0));;
  check (Z.land sz chunksize_mask =? 0);;
  modify (λ s, set_stats (nchunks s) (curchunks s - sz / chunksize) (highchunks s) s);;
  if unmap && chunk_dealloc_mmap chunk sz then chunk_record chunk sz else mret tt.

(** Keeps the space before the chunk as a smaller extent; the result is the
    node if it is still unused. *)
Definition recycle_lead (node a leadsize : Z) : MS (option Z) :=
  if negb (leadsize =? 0) then
    node_set node (ExtentNode a leadsize);;
    szad_insert node;; ad_insert node;; mret None
  else mret (Some node).

(** Keeps the space after the chunk, which may take another node; if there is
    none the chunk is given back and the result is marked as a failure. *)
Definition recycle_trail (node : option Z) (ret sz trailsize : Z) : MS (option Z * bool) :=
  if negb (trailsize =? 0) then
    node ← match node with Some node => mret (Some node) | None => base_node_alloc end;
    match node with
    | None => chunk_dealloc ret sz true;; mret (None, true)
    | Some node =>
        node_set node (ExtentNode (u64 (ret + sz)) trailsize);;
        szad_insert node;; ad_insert node;; mret (None, false)
    end
  else mret (node, false).

Definition chunk_recycle (sz alignment : Z) (base zero : bool) : MS (option Z * bool) :=
  if base then mret (None, zero)
  else
    let alloc_size := u64 (u64 (sz + alignment) - chunksize) in
    if alloc_size <? sz then mret (None, zero)
    else
      s ← gets id;
      match ot_nsearch (extent_szad_key (nodes s) alloc_size 0) (chunks_szad s) with
      | None => mret (None, zero)
      | Some node =>
          e ← node_get node;
          let leadsize := u64 (ALIGNMENT_CEILING (addr e) alignment - addr e) in
          check (leadsize + sz <=? size e);;
          let trailsize := size e - leadsize - sz in
          let ret := u64 (addr e + leadsize) in
          szad_remove node;;
          ad_remove node;;
          node ← recycle_lead node (addr e) leadsize;
          '(node, failed) ← recycle_trail node ret sz trailsize;
          if failed : bool then mret (None, zero)
          else
            match node with Some node => base_node_dealloc node | None => mret tt end;;
            mret (Some ret, true)
      end.

Definition chunk_alloc (sz alignment : Z) (base zero : bool) : MS (option Z * bool) :=
  chunk_alloc_with (chunk_recycle sz alignment base) sz alignment zero.

(** Not the variant of [chunk_alloc_mmap]: the request is not looked at. *)
Definition nv_chunk_alloc (sz alignment : Z) (base zero : bool) : MS (option Z * bool) :=
  chunk_alloc_with (chunk_recycle sz alignment base) sz alignment zero.

Definition chunk_boot (s : state) : state :=
  State ot_new ot_new ∅ 0 0 0 [] 0 0 0 (mappings s).
End chunk.

(** ** The comparisons are orders *)

Lemma extent_ad_comp_lt h a b : extent_ad_comp h a b < 0 ↔ addr_of h a < addr_of h b.
Proof. apply cmp3_lt. Qed.

Lemma extent_ad_comp_order h : rb_order (extent_ad_comp h).
Proof.
  unfold extent_ad_comp, extent_ad_key. split; intros.
  - rewrite cmp3_lt, cmp3_gt. done.
  - rewrite cmp3_lt in *. lia.
  - rewrite cmp3_lt, cmp3_eq in *. lia.
Qed.

Lemma extent_szad_key_spec h ks ka b :
  (extent_szad_key h ks ka b < 0 ↔ ks < size_of h b ∨ ks = size_of h b ∧ ka < addr_of h b) ∧
  (0 < extent_szad_key h ks ka b ↔ size_of h b < ks ∨ ks = size_of h b ∧ addr_of h b < ka) ∧
  (extent_szad_key h ks ka b = 0 ↔ ks = size_of h b ∧ ka = addr_of h b).
Proof.
  unfold extent_szad_key.
  destruct (cmp3_spec ks (size_of h b)) as [[? ->]|[[? ->]|[? ->]]]; simpl; [lia| |lia].
  rewrite cmp3_lt, cmp3_gt, cmp3_eq. lia.
Qed.

Lemma extent_szad_comp_lt h a b :
  extent_szad_comp h a b < 0 ↔
    size_of h a < size_of h b ∨ size_of h a = size_of h b ∧ addr_of h a < addr_of h b.
Proof. apply extent_szad_key_spec. Qed.

Lemma extent_szad_comp_order h : rb_order (extent_szad_comp h).
Proof.
  unfold extent_szad_comp. split; intros.
  - destruct (extent_szad_key_spec h (size_of h a) (addr_of h a) b) as [-> _].
    destruct (extent_szad_key_spec h (size_of h b) (addr_of h b) a) as (_ & -> & _). lia.
  - destruct (extent_szad_key_spec h (size_of h a) (addr_of h a) b) as [Hab _].
    destruct (extent_szad_key_spec h (size_of h b) (addr_of h b) c) as [Hbc _].
    destruct (extent_szad_key_spec h (size_of h a) (addr_of h a) c) as [-> _]. lia.
  - destruct (extent_szad_key_spec h (size_of h a) (addr_of h a) b) as (_ & _ & Hab).
    destruct (extent_szad_key_spec h (size_of h b) (addr_of h b) c) as [Hbc _].
    destruct (extent_szad_key_spec h (size_of h a) (addr_of h a) c) as [-> _]. lia.
Qed.

Lemma addr_of_insert h p e q : addr_of (<[p := e]> h) q = if decide (q = p) then addr e else addr_of h q.
Proof.
  unfold addr_of. destruct (decide (q = p)) as [->|]; [by rewrite lookup_insert_eq|].
  by rewrite lookup_insert_ne.
Qed.

Lemma size_of_insert h p e q : size_of (<[p := e]> h) q = if decide (q = p) then size e else size_of h q.
Proof.
  unfold size_of. destruct (decide (q = p)) as [->|]; [by rewrite lookup_insert_eq|].
  by rewrite lookup_insert_ne.
Qed.
