(* ===== verification/ArenaBits.v ===== *)
(** * The page map's words (arena.h)

    One word per page of an arena chunk: the size of a run, or the page's place
    in a small run, in the bits above the page size; the bin number and four
    flags below.  The accessors are partial where the code asserts. *)

From S2P Require Import Prelude SizeClass.

Definition CHUNK_MAP_BININD_SHIFT : Z := 4.
Definition BININD_INVALID : Z := 0xff.
Definition CHUNK_MAP_BININD_MASK : Z := 0xff0.
Definition CHUNK_MAP_BININD_INVALID : Z := CHUNK_MAP_BININD_MASK.
Definition CHUNK_MAP_FLAGS_MASK : Z := 0xc.
Definition CHUNK_MAP_DIRTY : Z := 0x8.
Definition CHUNK_MAP_UNZEROED : Z := 0x4.
Definition CHUNK_MAP_LARGE : Z := 0x2.
Definition CHUNK_MAP_ALLOCATED : Z := 0x1.
Definition CHUNK_MAP_KEY : Z := CHUNK_MAP_ALLOCATED.

Definition bits_size (b : Z) : Z := Z.land b (Z.lnot PAGE_MASK).

(** ** Reading a word *)

Definition unallocated_size (b : Z) : option Z :=
  assert! (Z.land b (Z.lor CHUNK_MAP_LARGE CHUNK_MAP_ALLOCATED) =? 0); Some (bits_size b).

Definition large_size (b : Z) : option Z :=
  assert! (Z.land b (Z.lor CHUNK_MAP_LARGE CHUNK_MAP_ALLOCATED) =? Z.lor CHUNK_MAP_LARGE CHUNK_MAP_ALLOCATED);
  Some (bits_size b).

Definition small_runind (b : Z) : option Z :=
  assert! (Z.land b (Z.lor CHUNK_MAP_LARGE CHUNK_MAP_ALLOCATED) =? CHUNK_MAP_ALLOCATED); Some (Z.shiftr b LG_PAGE).

(** [arena_ptr_small_binind_get] without its debugging checks. *)
Definition bits_binind (b : Z) : Z := Z.shiftr (Z.land b CHUNK_MAP_BININD_MASK) CHUNK_MAP_BININD_SHIFT.

Definition binind_get (b : Z) : option Z :=
  assert! ((bits_binind b <? NBINS) || (bits_binind b =? BININD_INVALID)); Some (bits_binind b).

(** ** Writing a word *)

Definition unallocated_word (size flags : Z) : option Z :=
  assert! (Z.land size PAGE_MASK =? 0);
  assert! (Z.land flags (Z.lnot CHUNK_MAP_FLAGS_MASK) =? 0);
  assert! (Z.land flags (Z.lor CHUNK_MAP_DIRTY CHUNK_MAP_UNZEROED) =? flags);
  Some (Z.lor (Z.lor size CHUNK_MAP_BININD_INVALID) flags).

Definition unallocated_size_word (size old : Z) : option Z :=
  assert! (Z.land size PAGE_MASK =? 0);
  assert! (Z.land old (Z.lor CHUNK_MAP_LARGE CHUNK_MAP_ALLOCATED) =? 0);
  Some (Z.lor size (Z.land old PAGE_MASK)).

Definition large_word (size flags old : Z) : option Z :=
  assert! (Z.land size PAGE_MASK =? 0);
  assert! (Z.land flags CHUNK_MAP_DIRTY =? flags);
  let unzeroed := Z.land old CHUNK_MAP_UNZEROED in
  Some (Z.lor (Z.lor (Z.lor (Z.lor (Z.lor size CHUNK_MAP_BININD_INVALID) flags) unzeroed) CHUNK_MAP_LARGE)
    CHUNK_MAP_ALLOCATED).

Definition large_binind_word (binind old : Z) : option Z :=
  assert! (binind <=? BININD_INVALID);
  size ← large_size old;
  assert! (size =? PAGE);
  Some (Z.lor (Z.land old (Z.lnot CHUNK_MAP_BININD_MASK)) (Z.shiftl binind CHUNK_MAP_BININD_SHIFT)).

Definition small_word (runind binind flags old : Z) : option Z :=
  assert! (binind <? BININD_INVALID);
  assert! (Z.land flags CHUNK_MAP_DIRTY =? flags);
  let unzeroed := Z.land old CHUNK_MAP_UNZEROED in
  Some (Z.lor (Z.lor (Z.lor (Z.lor (Z.shiftl runind LG_PAGE) (Z.shiftl binind CHUNK_MAP_BININD_SHIFT)) flags)
    unzeroed) CHUNK_MAP_ALLOCATED).

Definition unzeroed_word (unzeroed old : Z) : Z := Z.lor (Z.land old (Z.lnot CHUNK_MAP_UNZEROED)) unzeroed.

(** ** What a word says *)

Definition dflag (d : bool) : Z := if d then CHUNK_MAP_DIRTY else 0.

(** The first or last page of an unallocated run of [sz] bytes. *)
Definition free_word (b sz : Z) (d : bool) : Prop :=
  Z.land b 3 = 0 ∧ bits_size b = sz ∧ Z.land b CHUNK_MAP_DIRTY = dflag d.

(** A page of a large run. *)
Definition large_ok (b sz : Z) (d : bool) : Prop :=
  Z.land b 3 = 3 ∧ bits_size b = sz ∧ Z.land b CHUNK_MAP_DIRTY = dflag d ∧ bits_binind b = BININD_INVALID.

(** A page of a small run. *)
Definition small_ok (b runind binind : Z) (d : bool) : Prop :=
  Z.land b 3 = 1 ∧ Z.shiftr b LG_PAGE = runind ∧ Z.land b CHUNK_MAP_DIRTY = dflag d ∧ bits_binind b = binind.

(** ** A word as its two halves *)

Section halves.
Context (sz lo : Z) (Hsz : 0 ≤ sz) (Hmod : sz mod PAGE = 0) (Hlo : 0 ≤ lo < PAGE).

Lemma half_testbit i : 0 ≤ i → Z.testbit (Z.lor sz lo) i = if i <? LG_PAGE then Z.testbit lo i else Z.testbit sz i.
Proof.
  assert (LG_PAGE = 13) as HL by done. intros Hi. rewrite Z.lor_spec. destruct (Z.ltb_spec i LG_PAGE) as [Hlt|Hge].
  - assert (Z.testbit sz i = false) as ->; [|done].
    rewrite <- (Z.mod_pow2_bits_low sz LG_PAGE i) by lia. change (2 ^ LG_PAGE) with PAGE. rewrite Hmod. apply Z.bits_0.
  - assert (Z.testbit lo i = false) as ->; [|by rewrite orb_false_r].
    rewrite <- (Z.mod_small lo PAGE) by lia. change PAGE with (2 ^ LG_PAGE). apply Z.mod_pow2_bits_high. lia.
Qed.

Lemma half_size : bits_size (Z.lor sz lo) = sz.
Proof.
  assert (LG_PAGE = 13) as HL by done. apply Z.bits_inj'. intros i Hi. unfold bits_size. rewrite Z.land_spec, Z.lnot_spec, half_testbit by done.
  change PAGE_MASK with (Z.ones LG_PAGE). rewrite Z.testbit_ones_nonneg by done.
  destruct (Z.ltb_spec i LG_PAGE); [|by rewrite andb_true_r]. rewrite andb_false_r.
  rewrite <- (Z.mod_pow2_bits_low sz LG_PAGE i) by lia. change (2 ^ LG_PAGE) with PAGE. by rewrite Hmod, Z.bits_0.
Qed.

Lemma half_land m : 0 ≤ m < PAGE → Z.land (Z.lor sz lo) m = Z.land lo m.
Proof.
  assert (LG_PAGE = 13) as HL by done. intros Hm. apply Z.bits_inj'. intros i Hi. rewrite !Z.land_spec, half_testbit by done.
  destruct (Z.ltb_spec i LG_PAGE); [done|].
  assert (Z.testbit m i = false) as ->; [|by rewrite !andb_false_r].
  rewrite <- (Z.mod_small m PAGE) by lia. change PAGE with (2 ^ LG_PAGE). apply Z.mod_pow2_bits_high. lia.
Qed.

Lemma half_shiftr : Z.shiftr (Z.lor sz lo) LG_PAGE = sz / PAGE.
Proof.
  rewrite Z.shiftr_lor, !Z.shiftr_div_pow2 by done. change (2 ^ LG_PAGE) with PAGE.
  rewrite (Z.div_small lo) by lia. apply Z.lor_0_r.
Qed.

Lemma half_binind : bits_binind (Z.lor sz lo) = bits_binind lo.
Proof. unfold bits_binind. by rewrite half_land. Qed.
End halves.

Lemma size_mask sz : sz mod PAGE = 0 → Z.land sz PAGE_MASK = 0.
Proof. intros. change PAGE_MASK with (Z.ones LG_PAGE). by rewrite Z.land_ones. Qed.

Lemma unzeroed_cases b : Z.land b CHUNK_MAP_UNZEROED = 0 ∨ Z.land b CHUNK_MAP_UNZEROED = 4.
Proof.
  change CHUNK_MAP_UNZEROED with (Z.shiftl 1 2).
  assert (Z.land b (Z.shiftl 1 2) = Z.shiftl (Z.land (Z.shiftr b 2) 1) 2) as ->.
  { apply Z.bits_inj'. intros i Hi. rewrite Z.land_spec, !Z.shiftl_spec by done.
    destruct (Z.ltb_spec i 2).
    - rewrite !(Z.testbit_neg_r _ (i - 2)) by lia. apply andb_false_r.
    - rewrite Z.land_spec, Z.shiftr_spec by lia. by replace (i - 2 + 2) with i by lia. }
  change 1 with (Z.ones 1). rewrite Z.land_ones by done.
  destruct (Z.mod_pos_bound (Z.shiftr b 2) (2 ^ 1)); [done|].
  destruct (Z.eq_dec (Z.shiftr b 2 mod 2 ^ 1) 0) as [->|]; [by left|right].
  by replace (Z.shiftr b 2 mod 2 ^ 1) with 1 by lia.
Qed.

(** ** The setters write what they should *)

(** Closed bounds. *)
Ltac bounds := first [done | vm_compute; split; congruence].
(** Names the low half of a word. *)
Ltac low_half sz lo :=
  match goal with |- context [Z.lor sz ?l] => set (lo := l); assert (0 ≤ lo < PAGE) by bounds end.

Lemma unallocated_word_ok sz flags d :
  0 ≤ sz → sz mod PAGE = 0 → flags = dflag d ∨ d = false ∧ flags = CHUNK_MAP_UNZEROED →
  ∃ b, unallocated_word sz flags = Some b ∧ free_word b sz d.
Proof.
  intros H0 Hm Hf. unfold unallocated_word. rewrite (size_mask sz Hm).
  destruct Hf as [->|[-> ->]]; (eexists; split; [by destruct d || reflexivity|]);
    rewrite <- Z.lor_assoc; unfold free_word; [destruct d|]; low_half sz lo; rewrite half_size, !half_land by done; split_and!; done.
Qed.

Lemma large_word_ok sz d old :
  0 ≤ sz → sz mod PAGE = 0 → ∃ b, large_word sz (dflag d) old = Some b ∧ large_ok b sz d.
Proof.
  intros H0 Hm. unfold large_word. rewrite (size_mask sz Hm).
  eexists. split; [by destruct d|]. rewrite <- !Z.lor_assoc. unfold large_ok.
  destruct (unzeroed_cases old) as [-> | ->]; destruct d; low_half sz lo;
    rewrite half_size, !half_land, half_binind by done; split_and!; done.
Qed.

Lemma small_low_ok binind d u :
  0 ≤ binind < 32 → u = 0 ∨ u = 4 →
  let lo := Z.lor (Z.shiftl binind 4) (Z.lor (dflag d) (Z.lor u 1)) in
  0 ≤ lo < PAGE ∧ Z.land lo 3 = 1 ∧ Z.land lo CHUNK_MAP_DIRTY = dflag d ∧ bits_binind lo = binind.
Proof.
  intros Hb Hu.
  assert (Hall : forallb (λ b, forallb (λ d, forallb (λ u,
      let lo := Z.lor (Z.shiftl b 4) (Z.lor (dflag d) (Z.lor u 1)) in
      (0 <=? lo) && (lo <? PAGE) && (Z.land lo 3 =? 1) && (Z.land lo CHUNK_MAP_DIRTY =? dflag d) && (bits_binind lo =? b))
    [0; 4]) [true; false]) (seqZ 0 32) = true) by (vm_compute; reflexivity).
  rewrite forallb_forall in Hall. specialize (Hall binind). rewrite <- list_elem_of_In, elem_of_seqZ in Hall.
  specialize (Hall ltac:(lia)). rewrite forallb_forall in Hall.
  specialize (Hall d ltac:(destruct d; simpl; auto)). rewrite forallb_forall in Hall.
  specialize (Hall u ltac:(simpl; destruct Hu as [->| ->]; auto)). cbv zeta in Hall.
  rewrite !andb_true_iff, Z.leb_le, Z.ltb_lt, !Z.eqb_eq in Hall. simpl. tauto.
Qed.

Lemma small_word_ok runind binind d old :
  0 ≤ runind → 0 ≤ binind < 32 →
  ∃ b, small_word runind binind (dflag d) old = Some b ∧ small_ok b runind binind d.
Proof.
  intros Hr Hb. unfold small_word.
  rewrite (proj2 (Z.ltb_lt binind BININD_INVALID)) by (unfold BININD_INVALID; lia).
  eexists. split; [by destruct d|]. rewrite <- !Z.lor_assoc.
  destruct (small_low_ok binind d _ Hb (unzeroed_cases old)) as (Hlo & H3 & Hd & Hbi). cbv zeta in *.
  unfold small_ok. change (Z.shiftl binind CHUNK_MAP_BININD_SHIFT) with (Z.shiftl binind 4).
  change CHUNK_MAP_ALLOCATED with 1. set (lo := Z.lor (Z.shiftl binind 4) _) in *.
  assert (Hs : 0 ≤ Z.shiftl runind LG_PAGE) by (by apply Z.shiftl_nonneg).
  assert (Hsm : Z.shiftl runind LG_PAGE mod PAGE = 0).
  { rewrite Z.shiftl_mul_pow2 by done. apply Z.mod_mul. done. }
  rewrite !half_land, half_shiftr, half_binind by done. split_and!; [done| |done|done].
  rewrite Z.shiftl_mul_pow2 by done. by apply Z.div_mul.
Qed.

(** The size of an unallocated run changes, its flags do not. *)
Lemma unallocated_size_word_ok sz sz' d old :
  0 ≤ sz → sz mod PAGE = 0 → free_word old sz' d →
  ∃ b, unallocated_size_word sz old = Some b ∧ free_word b sz d.
Proof.
  intros H0 Hm (H3 & _ & Hd). unfold unallocated_size_word. rewrite (size_mask sz Hm).
  change (Z.lor CHUNK_MAP_LARGE CHUNK_MAP_ALLOCATED) with 3. rewrite H3. eexists. split; [done|].
  assert (Hlo : 0 ≤ Z.land old PAGE_MASK < PAGE).
  { change PAGE_MASK with (Z.ones LG_PAGE). rewrite Z.land_ones by done. by apply Z.mod_pos_bound. }
  unfold free_word. rewrite half_size, !half_land by done. rewrite <- !Z.land_assoc. done.
Qed.

(** Clearing the unzeroed flag, or setting it, leaves the rest. *)
Lemma unzeroed_word_land u old m :
  u = 0 ∨ u = CHUNK_MAP_UNZEROED → Z.land m CHUNK_MAP_UNZEROED = 0 → Z.land (unzeroed_word u old) m = Z.land old m.
Proof.
  intros Hu Hm. unfold unzeroed_word. apply Z.bits_inj'. intros i Hi.
  rewrite !Z.land_spec, Z.lor_spec, Z.land_spec, Z.lnot_spec by done.
  assert (Hbit : Z.testbit m i && Z.testbit CHUNK_MAP_UNZEROED i = false).
  { rewrite <- Z.land_spec, Hm. apply Z.bits_0. }
  destruct Hu as [-> | ->]; rewrite ?Z.bits_0;
    destruct (Z.testbit m i), (Z.testbit CHUNK_MAP_UNZEROED i), (Z.testbit old i); simpl in *; done.
Qed.

(** ** The getters read it *)

Lemma free_word_size b sz d : free_word b sz d → unallocated_size b = Some sz.
Proof. intros (H3 & Hs & _). unfold unallocated_size. change (Z.lor CHUNK_MAP_LARGE CHUNK_MAP_ALLOCATED) with 3. by rewrite H3, Hs. Qed.

Lemma large_ok_size b sz d : large_ok b sz d → large_size b = Some sz.
Proof. intros (H3 & Hs & _). unfold large_size. change (Z.lor CHUNK_MAP_LARGE CHUNK_MAP_ALLOCATED) with 3. by rewrite H3, Hs. Qed.

Lemma small_ok_runind b ri bi d : small_ok b ri bi d → small_runind b = Some ri.
Proof. intros (H3 & Hs & _). unfold small_runind. change (Z.lor CHUNK_MAP_LARGE CHUNK_MAP_ALLOCATED) with 3. by rewrite H3, Hs. Qed.

Lemma land_3_bits b :
  Z.land b CHUNK_MAP_ALLOCATED = Z.land (Z.land b 3) 1 ∧ Z.land b CHUNK_MAP_LARGE = Z.land (Z.land b 3) 2.
Proof. by rewrite <- !Z.land_assoc. Qed.

Lemma free_word_flags b sz d : free_word b sz d → Z.land b CHUNK_MAP_ALLOCATED = 0 ∧ Z.land b CHUNK_MAP_LARGE = 0.
Proof. intros (H3 & _). destruct (land_3_bits b) as [-> ->]. by rewrite H3. Qed.

Lemma large_ok_flags b sz d : large_ok b sz d → Z.land b CHUNK_MAP_ALLOCATED = 1 ∧ Z.land b CHUNK_MAP_LARGE = 2.
Proof. intros (H3 & _). destruct (land_3_bits b) as [-> ->]. by rewrite H3. Qed.

Lemma small_ok_flags b ri bi d : small_ok b ri bi d → Z.land b CHUNK_MAP_ALLOCATED = 1 ∧ Z.land b CHUNK_MAP_LARGE = 0.
Proof. intros (H3 & _). destruct (land_3_bits b) as [-> ->]. by rewrite H3. Qed.

(** ** Writing and reading back *)

Definition word_dirty (b : Z) : Z := Z.land b CHUNK_MAP_DIRTY.
Definition word_allocated (b : Z) : Z := Z.land b CHUNK_MAP_ALLOCATED.

(** The word that a setter writes is read back by the getters: the size or the place
    in the run, the bin, the dirty flag and whether the page is allocated, whatever the
    word held before. *)
Theorem mapbits_roundtrip sz ri bi d old :
  0 ≤ sz → sz mod PAGE = 0 → 0 ≤ ri → 0 ≤ bi < NBINS →
  (∃ b, unallocated_word sz (dflag d) = Some b ∧ unallocated_size b = Some sz ∧ large_size b = None ∧
     word_dirty b = dflag d ∧ word_allocated b = 0) ∧
  (∃ b, large_word sz (dflag d) old = Some b ∧ large_size b = Some sz ∧ unallocated_size b = None ∧
     binind_get b = Some BININD_INVALID ∧ word_dirty b = dflag d ∧ word_allocated b = 1) ∧
  (∃ b, small_word ri bi (dflag d) old = Some b ∧ small_runind b = Some ri ∧ large_size b = None ∧
     binind_get b = Some bi ∧ word_dirty b = dflag d ∧ word_allocated b = 1).
Proof.
  intros Hsz Hm Hri Hbi. unfold word_dirty, word_allocated, large_size, unallocated_size, binind_get.
  change (Z.lor CHUNK_MAP_LARGE CHUNK_MAP_ALLOCATED) with 3. split_and!.
  - destruct (unallocated_word_ok sz (dflag d) d Hsz Hm ltac:(by left)) as (b & E & Hw). pose proof (free_word_flags _ _ _ Hw) as [Hf _].
    destruct Hw as (H3 & Hs & Hd). exists b. by rewrite H3, Hs.
  - destruct (large_word_ok sz d old Hsz Hm) as (b & E & Hw). pose proof (large_ok_flags _ _ _ Hw) as [Hf _].
    destruct Hw as (H3 & Hs & Hd & Hb). exists b. by rewrite H3, Hs, Hb.
  - destruct (small_word_ok ri bi d old Hri Hbi) as (b & E & Hw). pose proof (small_ok_flags _ _ _ _ Hw) as [Hf _].
    pose proof (small_ok_runind _ _ _ _ Hw) as Hr. destruct Hw as (H3 & Hs & Hd & Hb). exists b. rewrite H3, Hb, (proj2 (Z.ltb_lt bi NBINS)) by lia. done.
Qed.

Lemma mapbits_roundtrip_witness : ∃ b, small_word 3 7 (dflag true) 0 = Some b ∧ small_runind b = Some 3 ∧ binind_get b = Some 7.
Proof.
  destruct (mapbits_roundtrip 0 3 7 true 0) as (_ & _ & b & E & Hr & _ & Hb & _); [lia|reflexivity|lia|vm_compute; split; congruence|].
  exists b. split; [exact E|]. split; [exact Hr|exact Hb].
Defined.
