(* ===== verification/ChunkIface.v ===== *)
(** * What the chunk layer promises its clients

    Arenas and huge objects take chunks and extent nodes from the chunk layer
    and give them back.  They rely on no more than what is stated here: every
    request is served or refused, a chunk handed out is aligned and overlaps no
    other, and a node handed out is not handed out again. *)

From S2P Require Import Prelude SizeClass.

(** An alignment: a power of two of at least a chunk. *)
Definition chunk_alignment `{Config} (al : Z) : Prop := ∃ k, opt_lg_chunk ≤ k ≤ 63 ∧ al = 2 ^ k.

(** A range of whole chunks below the end of the address space. *)
Definition chunk_range `{Config} (a sz : Z) : Prop :=
  0 < a ∧ a mod chunksize = 0 ∧ 0 < sz ∧ sz mod chunksize = 0 ∧ a + sz ≤ 2 ^ 47.

(** A request the clients may make. *)
Definition chunk_request `{Config} (sz al : Z) : Prop :=
  chunk_alignment al ∧ 0 < sz < 2 ^ 64 ∧ sz mod chunksize = 0.

Definition ranges_apart (r1 r2 : Z * Z) : Prop := r1.1 + r1.2 ≤ r2.1 ∨ r2.1 + r2.2 ≤ r1.1.

Class ChunkLayer (S : Type) := {
  cl_alloc : Z → Z → bool → M S (option Z * bool);
  cl_dealloc : Z → Z → bool → M S unit;
  cl_node_alloc : M S (option Z);
  cl_node_dealloc : Z → M S unit
}.

(** [cl_inv s C N]: in state [s] the clients hold the chunks [C] and the nodes
    [N]. *)
Class ChunkLayerLaws (S : Type) `{Config} `{ChunkLayer S} := {
  cl_inv : S → list (Z * Z) → list Z → Prop;
  cl_perm s C C' N N' : C ≡ₚ C' → N ≡ₚ N' → cl_inv s C N → cl_inv s C' N';
  cl_range s C N c sz : cl_inv s ((c, sz) :: C) N → chunk_range c sz;
  cl_apart s C N r : cl_inv s (r :: C) N → Forall (ranges_apart r) C;
  cl_node_new s C N p : cl_inv s C (p :: N) → 0 < p ∧ p ∉ N;
  cl_alloc_ok s C N sz al zero :
    cl_inv s C N → chunk_request sz al →
    ∃ r z s', cl_alloc sz al zero s = Some ((r, z), s') ∧
      match r with None => cl_inv s' C N | Some p => p mod al = 0 ∧ cl_inv s' ((p, sz) :: C) N end;
  cl_dealloc_ok s C N c sz unmap :
    cl_inv s ((c, sz) :: C) N → ∃ s', cl_dealloc c sz unmap s = Some (tt, s') ∧ cl_inv s' C N;
  cl_node_alloc_ok s C N :
    cl_inv s C N →
    ∃ r s', cl_node_alloc s = Some (r, s') ∧ match r with None => cl_inv s' C N | Some p => cl_inv s' C (p :: N) end;
  cl_node_dealloc_ok s C N p :
    cl_inv s C (p :: N) → ∃ s', cl_node_dealloc p s = Some (tt, s') ∧ cl_inv s' C N
}.
