(* ===== verification/Arena.v ===== *)
(** * Arenas: pages and runs (arena.c)

    An arena owns chunks.  The first pages of a chunk hold its header with the
    page map; the others are divided into runs.  Free runs are kept in two
    trees, for clean and for dirty pages, whose nodes are page-map entries and
    whose order reads the sizes in them.  A small run begins with a header of
    its own.  One arena is modelled, with the chunk layer below it; locks, cache
    flushes and profiling are not. *)

From S2P Require Import Prelude OrdTree Bitmap SizeClass BinInfo ArenaBits ChunkIface.

(** [arena_chunk_t]; membership of [chunks_dirty] is kept in the arena. *)
Record arena_chunk := ArenaChunk { dirtied : bool; chunk_ndirty : Z; chunk_map : list Z }.

(** [arena_run_t] and the bitmap that follows it; [bin] is the bin's number. *)
Record arena_run := ArenaRun { run_bin : Z; nextind : Z; nfree : Z; run_bitmap : list Z }.

Record bin_stats := BinStats {
  bs_allocated : Z; bs_nmalloc : Z; bs_ndalloc : Z; bs_nrequests : Z; bs_nfills : Z; bs_nflushes : Z;
  bs_nruns : Z; bs_reruns : Z; bs_curruns : Z
}.
Record large_stats := LargeStats { ls_nmalloc : Z; ls_ndalloc : Z; ls_nrequests : Z; ls_curruns : Z }.
Record arena_stats := ArenaStats {
  mapped : Z; npurge : Z; nmadvise : Z; purged : Z;
  allocated_large : Z; nmalloc_large : Z; ndalloc_large : Z; nrequests_large : Z; lstats : list large_stats
}.
Record arena_bin (T : Type) := ArenaBin { runcur : option Z; bin_runs : T; bin_st : bin_stats }.
Arguments ArenaBin {T}.
Arguments runcur {T}.
Arguments bin_runs {T}.
Arguments bin_st {T}.

(** The run-time options and the bins' layouts. *)
Class Opts := {
  opt_lg_dirty_mult : Z;
  opt_junk : bool;
  opt_zero : bool;
  opt_abort : bool;
  bin_infos : list arena_bin_info
}.

Record astate (S T : Type) := AState {
  a_chunks : S;  (* the chunk layer *)
  hdrs : gmap Z arena_chunk;  (* the headers of the arena's chunks *)
  runs : gmap Z arena_run;  (* the headers of small runs *)
  a_mem : Z → Z;
  cactive : Z;
  chunks_dirty : list Z;
  spare : option Z;
  nactive : Z;
  ndirty : Z;
  npurgatory : Z;
  avail_clean : T;
  avail_dirty : T;
  bins : list (arena_bin T);
  a_stats : arena_stats
}.
Arguments AState {S T}.
Arguments a_chunks {S T}.
Arguments hdrs {S T}.
Arguments runs {S T}.
Arguments a_mem {S T}.
Arguments cactive {S T}.
Arguments chunks_dirty {S T}.
Arguments spare {S T}.
Arguments nactive {S T}.
Arguments ndirty {S T}.
Arguments npurgatory {S T}.
Arguments avail_clean {S T}.
Arguments avail_dirty {S T}.
Arguments bins {S T}.
Arguments a_stats {S T}.

Section setters.
Context {S T : Type}.
Implicit Types (a : astate S T).

Definition set_chunks x a : astate S T := AState x (hdrs a) (runs a) (a_mem a) (cactive a) (chunks_dirty a) (spare a) (nactive a) (ndirty a) (npurgatory a) (avail_clean a) (avail_dirty a) (bins a) (a_stats a).
Definition set_hdrs x a : astate S T := AState (a_chunks a) x (runs a) (a_mem a) (cactive a) (chunks_dirty a) (spare a) (nactive a) (ndirty a) (npurgatory a) (avail_clean a) (avail_dirty a) (bins a) (a_stats a).
Definition set_runs x a : astate S T := AState (a_chunks a) (hdrs a) x (a_mem a) (cactive a) (chunks_dirty a) (spare a) (nactive a) (ndirty a) (npurgatory a) (avail_clean a) (avail_dirty a) (bins a) (a_stats a).
Definition set_amem x a : astate S T := AState (a_chunks a) (hdrs a) (runs a) x (cactive a) (chunks_dirty a) (spare a) (nactive a) (ndirty a) (npurgatory a) (avail_clean a) (avail_dirty a) (bins a) (a_stats a).
Definition set_cactive x a : astate S T := AState (a_chunks a) (hdrs a) (runs a) (a_mem a) x (chunks_dirty a) (spare a) (nactive a) (ndirty a) (npurgatory a) (avail_clean a) (avail_dirty a) (bins a) (a_stats a).
Definition set_chunks_dirty x a : astate S T := AState (a_chunks a) (hdrs a) (runs a) (a_mem a) (cactive a) x (spare a) (nactive a) (ndirty a) (npurgatory a) (avail_clean a) (avail_dirty a) (bins a) (a_stats a).
Definition set_spare x a : astate S T := AState (a_chunks a) (hdrs a) (runs a) (a_mem a) (cactive a) (chunks_dirty a) x (nactive a) (ndirty a) (npurgatory a) (avail_clean a) (avail_dirty a) (bins a) (a_stats a).
Definition set_nactive x a : astate S T := AState (a_chunks a) (hdrs a) (runs a) (a_mem a) (cactive a) (chunks_dirty a) (spare a) x (ndirty a) (npurgatory a) (avail_clean a) (avail_dirty a) (bins a) (a_stats a).
Definition set_ndirty x a : astate S T := AState (a_chunks a) (hdrs a) (runs a) (a_mem a) (cactive a) (chunks_dirty a) (spare a) (nactive a) x (npurgatory a) (avail_clean a) (avail_dirty a) (bins a) (a_stats a).
Definition set_npurgatory x a : astate S T := AState (a_chunks a) (hdrs a) (runs a) (a_mem a) (cactive a) (chunks_dirty a) (spare a) (nactive a) (ndirty a) x (avail_clean a) (avail_dirty a) (bins a) (a_stats a).
Definition set_avail_clean x a : astate S T := AState (a_chunks a) (hdrs a) (runs a) (a_mem a) (cactive a) (chunks_dirty a) (spare a) (nactive a) (ndirty a) (npurgatory a) x (avail_dirty a) (bins a) (a_stats a).
Definition set_avail_dirty x a : astate S T := AState (a_chunks a) (hdrs a) (runs a) (a_mem a) (cactive a) (chunks_dirty a) (spare a) (nactive a) (ndirty a) (npurgatory a) (avail_clean a) x (bins a) (a_stats a).
Definition set_bins x a : astate S T := AState (a_chunks a) (hdrs a) (runs a) (a_mem a) (cactive a) (chunks_dirty a) (spare a) (nactive a) (ndirty a) (npurgatory a) (avail_clean a) (avail_dirty a) x (a_stats a).
Definition set_astats x a : astate S T := AState (a_chunks a) (hdrs a) (runs a) (a_mem a) (cactive a) (chunks_dirty a) (spare a) (nactive a) (ndirty a) (npurgatory a) (avail_clean a) (avail_dirty a) (bins a) x.
End setters.

(** ** Page-map entries and their order *)

Section entries.
Context `{Config}.

(** [&chunk->map[pageind-map_bias]]. *)
Definition mapelm (chunk pageind : Z) : Z := chunk + chunk_map_offset + sizeof_chunk_map * (pageind - map_bias).

(** The chunk and the page of an entry. *)
Definition mapelm_page (m : Z) : Z := (m - (CHUNK_ADDR2BASE m + chunk_map_offset)) / sizeof_chunk_map + map_bias.

Definition bits_at (h : gmap Z arena_chunk) (chunk pageind : Z) : option Z :=
  if (map_bias <=? pageind) && (pageind <? chunk_npages) then
    c ← h !! chunk; chunk_map c !! Z.to_nat (pageind - map_bias)
  else None.

Definition mapelm_bits (h : gmap Z arena_chunk) (m : Z) : Z := default 0 (bits_at h (CHUNK_ADDR2BASE m) (mapelm_page m)).

(** [arena_avail_comp] for a key, that is below every entry of its size. *)
Definition arena_avail_key (h : gmap Z arena_chunk) (key b : Z) : Z :=
  let ret := cmp3 (bits_size key) (bits_size (mapelm_bits h b)) in
  if ret =? 0 then cmp3 0 b else ret.

(** [arena_avail_comp] for an entry of an unallocated run. *)
Definition arena_avail_comp (h : gmap Z arena_chunk) (a b : Z) : Z :=
  let ret := cmp3 (bits_size (mapelm_bits h a)) (bits_size (mapelm_bits h b)) in
  if ret =? 0 then cmp3 a b else ret.

Definition arena_run_comp (a b : Z) : Z := cmp3 a b.
End entries.

Section arena.
Context `{Config} `{Opts} {S : Type} `{CL : ChunkLayer S} {T : Type} `{OT : OrdTree T Z}.

(** The word the page map of a chunk that is not zeroed holds for a page when
    the chunk is received. *)
Context (old_word : Z → Z → Z).
(** What [madvise(addr, length, MADV_DONTNEED)] does to the contents. *)
Context (os_purge : Z → Z → (Z → Z) → (Z → Z)).

Abbreviation st := (astate S T).
Abbreviation MA := (M st).

Definition on_chunks {A} (m : M S A) : MA A := λ a,
  match m (a_chunks a) with Some (r, s) => Some (r, set_chunks s a) | None => None end.

(** ** The page map *)

Definition arena_mapp_get (chunk pageind : Z) : MA Z :=
  check (map_bias <=? pageind);; check (pageind <? chunk_npages);; mret (mapelm chunk pageind).

Definition arena_mapbits_get (chunk pageind : Z) : MA Z :=
  check (map_bias <=? pageind);; check (pageind <? chunk_npages);;
  a ← gets id; lift (bits_at (hdrs a) chunk pageind).

Definition arena_mapbits_set (chunk pageind b : Z) : MA unit :=
  check (map_bias <=? pageind);; check (pageind <? chunk_npages);;
  a ← gets id;
  c ← lift (hdrs a !! chunk);
  modify (set_hdrs (<[chunk := ArenaChunk (dirtied c) (chunk_ndirty c)
    (<[Z.to_nat (pageind - map_bias) := b]> (chunk_map c))]> (hdrs a))).

Definition arena_mapbits_unallocated_size_get (chunk pageind : Z) : MA Z :=
  b ← arena_mapbits_get chunk pageind; lift (unallocated_size b).
Definition arena_mapbits_large_size_get (chunk pageind : Z) : MA Z :=
  b ← arena_mapbits_get chunk pageind; lift (large_size b).
Definition arena_mapbits_small_runind_get (chunk pageind : Z) : MA Z :=
  b ← arena_mapbits_get chunk pageind; lift (small_runind b).
Definition arena_mapbits_binind_get (chunk pageind : Z) : MA Z :=
  b ← arena_mapbits_get chunk pageind; lift (binind_get b).
Definition arena_mapbits_dirty_get (chunk pageind : Z) : MA Z :=
  b ← arena_mapbits_get chunk pageind; mret (Z.land b CHUNK_MAP_DIRTY).
Definition arena_mapbits_unzeroed_get (chunk pageind : Z) : MA Z :=
  b ← arena_mapbits_get chunk pageind; mret (Z.land b CHUNK_MAP_UNZEROED).
Definition arena_mapbits_large_get (chunk pageind : Z) : MA Z :=
  b ← arena_mapbits_get chunk pageind; mret (Z.land b CHUNK_MAP_LARGE).
Definition arena_mapbits_allocated_get (chunk pageind : Z) : MA Z :=
  b ← arena_mapbits_get chunk pageind; mret (Z.land b CHUNK_MAP_ALLOCATED).

Definition arena_mapbits_unallocated_set (chunk pageind size flags : Z) : MA unit :=
  b ← lift (unallocated_word size flags); arena_mapbits_set chunk pageind b.
Definition arena_mapbits_unallocated_size_set (chunk pageind size : Z) : MA unit :=
  old ← arena_mapbits_get chunk pageind;
  b ← lift (unallocated_size_word size old); arena_mapbits_set chunk pageind b.
Definition arena_mapbits_large_set (chunk pageind size flags : Z) : MA unit :=
  old ← arena_mapbits_get chunk pageind;
  b ← lift (large_word size flags old); arena_mapbits_set chunk pageind b.
Definition arena_mapbits_large_binind_set (chunk pageind binind : Z) : MA unit :=
  old ← arena_mapbits_get chunk pageind;
  b ← lift (large_binind_word binind old); arena_mapbits_set chunk pageind b.
Definition arena_mapbits_small_set (chunk pageind runind binind flags : Z) : MA unit :=
  old ← arena_mapbits_get chunk pageind;
  check (map_bias <=? pageind - runind);;
  b ← lift (small_word runind binind flags old); arena_mapbits_set chunk pageind b.
Definition arena_mapbits_unzeroed_set (chunk pageind unzeroed : Z) : MA unit :=
  old ← arena_mapbits_get chunk pageind; arena_mapbits_set chunk pageind (unzeroed_word unzeroed old).

(** ** The trees of available runs *)

Definition avail (d : bool) (a : st) : T := if d then avail_dirty a else avail_clean a.
Definition set_avail (d : bool) (t : T) (a : st) : st :=
  set_avail_clean (if d then avail_clean a else t) (set_avail_dirty (if d then t else avail_dirty a) a).

(** Entries in the trees belong to unallocated runs, never to keys. *)
Definition arena_avail_tree_insert (d : bool) (m : Z) : MA unit :=
  a ← gets id;
  check (Z.land (mapelm_bits (hdrs a) m) CHUNK_MAP_KEY =? 0);;
  t ← lift (ot_insert (arena_avail_comp (hdrs a)) m (avail d a)); modify (set_avail d t).
Definition arena_avail_tree_remove (d : bool) (m : Z) : MA unit :=
  a ← gets id;
  check (Z.land (mapelm_bits (hdrs a) m) CHUNK_MAP_KEY =? 0);;
  t ← lift (ot_remove (arena_avail_comp (hdrs a)) m (avail d a)); modify (set_avail d t).
Definition arena_avail_tree_nsearch (d : bool) (key : Z) : MA (option Z) :=
  a ← gets id; mret (ot_nsearch (arena_avail_key (hdrs a) key) (avail d a)).

(** ** Small effects *)

Definition a_memset (p c n : Z) : MA unit := modify (λ a, set_amem (memset_bytes p c n (a_mem a)) a).
Definition a_memcpy (d p n : Z) : MA unit := modify (λ a, set_amem (memcpy_bytes d p n (a_mem a)) a).

(** [stats_cactive] changes when the active pages cross a chunk multiple. *)
Definition cactive_move (nactive nactive' : Z) : MA unit :=
  modify (λ a, set_cactive (u64 (cactive a + (CHUNK_CEILING (u64 (Z.shiftl nactive' LG_PAGE))
    - CHUNK_CEILING (u64 (Z.shiftl nactive LG_PAGE))))) a).

Definition add_nactive (n : Z) : MA unit :=
  a ← gets id;
  cactive_move (nactive a) (u64 (nactive a + n));; modify (λ a, set_nactive (u64 (nactive a + n)) a).
Definition add_ndirty (n : Z) : MA unit := modify (λ a, set_ndirty (u64 (ndirty a + n)) a).

Definition chunk_get (chunk : Z) : MA arena_chunk := a ← gets id; lift (hdrs a !! chunk).
Definition chunk_set (chunk : Z) (c : arena_chunk) : MA unit := modify (λ a, set_hdrs (<[chunk := c]> (hdrs a)) a).

(** [chunk->ndirty] and [arena->ndirty] change together. *)
Definition add_dirty_pages (chunk n : Z) : MA unit :=
  c ← chunk_get chunk;
  chunk_set chunk (ArenaChunk (dirtied c) (u64 (chunk_ndirty c + n)) (chunk_map c));; add_ndirty n.

Definition set_mapped (n : Z) (t : arena_stats) : arena_stats :=
  ArenaStats n (npurge t) (nmadvise t) (purged t) (allocated_large t) (nmalloc_large t) (ndalloc_large t)
    (nrequests_large t) (lstats t).
Definition set_purge_stats (np nm pu : Z) (t : arena_stats) : arena_stats :=
  ArenaStats (mapped t) np nm pu (allocated_large t) (nmalloc_large t) (ndalloc_large t) (nrequests_large t) (lstats t).
Definition on_stats (f : arena_stats → arena_stats) : MA unit := modify (λ a, set_astats (f (a_stats a)) a).

Definition run_get (run : Z) : MA arena_run := a ← gets id; lift (runs a !! run).
Definition run_set (run : Z) (r : arena_run) : MA unit := modify (λ a, set_runs (<[run := r]> (runs a)) a).
Definition info_get (binind : Z) : MA arena_bin_info := check (0 <=? binind);; lift (bin_infos !! Z.to_nat binind).

(** ** Splitting a run *)

(** The trailing pages that are not needed stay an unallocated run. *)
Definition split_rem (chunk run_ind need_pages total_pages flag_dirty : Z) : MA unit :=
  let rem_pages := total_pages - need_pages in
  if 0 <? rem_pages then
    (if negb (flag_dirty =? 0) then
       arena_mapbits_unallocated_set chunk (run_ind + need_pages) (Z.shiftl rem_pages LG_PAGE) CHUNK_MAP_DIRTY;;
       arena_mapbits_unallocated_set chunk (run_ind + total_pages - 1) (Z.shiftl rem_pages LG_PAGE) CHUNK_MAP_DIRTY
     else
       u ← arena_mapbits_unzeroed_get chunk (run_ind + need_pages);
       arena_mapbits_unallocated_set chunk (run_ind + need_pages) (Z.shiftl rem_pages LG_PAGE) u;;
       u ← arena_mapbits_unzeroed_get chunk (run_ind + total_pages - 1);
       arena_mapbits_unallocated_set chunk (run_ind + total_pages - 1) (Z.shiftl rem_pages LG_PAGE) u);;
    m ← arena_mapp_get chunk (run_ind + need_pages);
    arena_avail_tree_insert (negb (flag_dirty =? 0)) m
  else mret tt.

(** Zeroes the pages that are not known to be zeroed. *)
Definition split_zero (chunk run_ind need_pages flag_dirty : Z) : MA unit :=
  if flag_dirty =? 0 then
    for_each (seqZ 0 need_pages) (λ i,
      u ← arena_mapbits_unzeroed_get chunk (run_ind + i);
      if negb (u =? 0) then a_memset (chunk + Z.shiftl (run_ind + i) LG_PAGE) 0 PAGE else mret tt)
  else a_memset (chunk + Z.shiftl run_ind LG_PAGE) 0 (Z.shiftl need_pages LG_PAGE).

(** Marks the pages of the new run in the page map. *)
Definition split_mark (chunk run_ind need_pages flag_dirty size : Z) (large : bool) (binind : Z) (zero : bool) : MA unit :=
  if large then
    (if zero then split_zero chunk run_ind need_pages flag_dirty else mret tt);;
    arena_mapbits_large_set chunk (run_ind + need_pages - 1) 0 flag_dirty;;
    arena_mapbits_large_set chunk run_ind size flag_dirty
  else
    check (negb zero);;
    arena_mapbits_small_set chunk run_ind 0 binind flag_dirty;;
    for_each (seqZ 1 (need_pages - 2)) (λ i, arena_mapbits_small_set chunk (run_ind + i) i binind 0);;
    arena_mapbits_small_set chunk (run_ind + need_pages - 1) (need_pages - 1) binind flag_dirty.

Definition large_xor_bin (large : bool) (binind : Z) : bool :=
  (large && (binind =? BININD_INVALID)) || (negb large && negb (binind =? BININD_INVALID)).

Definition arena_run_split (run size : Z) (large : bool) (binind : Z) (zero : bool) : MA unit :=
  check (large_xor_bin large binind);;
  let chunk := CHUNK_ADDR2BASE run in
  let run_ind := Z.shiftr (run - chunk) LG_PAGE in
  flag_dirty ← arena_mapbits_dirty_get chunk run_ind;
  total ← arena_mapbits_unallocated_size_get chunk run_ind;
  let total_pages := Z.shiftr total LG_PAGE in
  last_dirty ← arena_mapbits_dirty_get chunk (run_ind + total_pages - 1);
  check (last_dirty =? flag_dirty);;
  let need_pages := Z.shiftr size LG_PAGE in
  check (0 <? need_pages);;
  check (need_pages <=? total_pages);;
  m ← arena_mapp_get chunk run_ind;
  arena_avail_tree_remove (negb (flag_dirty =? 0)) m;;
  add_nactive need_pages;;
  split_rem chunk run_ind need_pages total_pages flag_dirty;;
  (if negb (flag_dirty =? 0) then add_dirty_pages chunk (- need_pages) else mret tt);;
  split_mark chunk run_ind need_pages flag_dirty size large binind zero.

(** ** Chunks *)

(** The chunk is one unallocated run, as far as its ends say. *)
Definition check_whole_free (chunk : Z) : MA unit :=
  b ← arena_mapbits_allocated_get chunk map_bias; check (b =? 0);;
  b ← arena_mapbits_allocated_get chunk (chunk_npages - 1); check (b =? 0);;
  z ← arena_mapbits_unallocated_size_get chunk map_bias; check (z =? arena_maxclass);;
  z ← arena_mapbits_unallocated_size_get chunk (chunk_npages - 1); check (z =? arena_maxclass);;
  d1 ← arena_mapbits_dirty_get chunk map_bias;
  d2 ← arena_mapbits_dirty_get chunk (chunk_npages - 1);
  check (d1 =? d2).

Definition new_map (chunk : Z) (zero : bool) : list Z :=
  if zero then replicate (Z.to_nat (chunk_npages - map_bias)) 0
  else old_word chunk <$> seqZ map_bias (chunk_npages - map_bias).

Definition arena_chunk_alloc : MA (option Z) :=
  a ← gets id;
  match spare a with
  | Some chunk =>
      modify (set_spare None);;
      check_whole_free chunk;;
      d ← arena_mapbits_dirty_get chunk map_bias;
      m ← arena_mapp_get chunk map_bias;
      arena_avail_tree_insert (negb (d =? 0)) m;;
      mret (Some chunk)
  | None =>
      '(chunk, zero) ← on_chunks (cl_alloc chunksize chunksize false);
      match chunk with
      | None => mret None
      | Some chunk =>
          on_stats (λ t, set_mapped (u64 (mapped t + chunksize)) t);;
          chunk_set chunk (ArenaChunk false 0 (new_map chunk zero));;
          let unzeroed := if zero : bool then 0 else CHUNK_MAP_UNZEROED in
          arena_mapbits_unallocated_set chunk map_bias arena_maxclass unzeroed;;
          (if negb zero then
             for_each (seqZ (map_bias + 1) (chunk_npages - 1 - (map_bias + 1)))
               (λ i, arena_mapbits_unzeroed_set chunk i unzeroed)
           else mret tt);;
          arena_mapbits_unallocated_set chunk (chunk_npages - 1) arena_maxclass unzeroed;;
          m ← arena_mapp_get chunk map_bias;
          arena_avail_tree_insert false m;;
          mret (Some chunk)
      end
  end.

Definition ql_remove (x : Z) (l : list Z) : list Z := filter (λ y, y ≠ x) l.

(** Taking a chunk off the list needs it to be on the list. *)
Definition dirty_list_remove (chunk : Z) : MA unit :=
  a ← gets id;
  check (bool_decide (chunk ∈ chunks_dirty a));; modify (set_chunks_dirty (ql_remove chunk (chunks_dirty a))).

Definition arena_chunk_dealloc (chunk : Z) : MA unit :=
  check_whole_free chunk;;
  d ← arena_mapbits_dirty_get chunk map_bias;
  m ← arena_mapp_get chunk map_bias;
  arena_avail_tree_remove (negb (d =? 0)) m;;
  a ← gets id;
  match spare a with
  | Some old =>
      modify (set_spare (Some chunk));;
      c ← chunk_get old;
      (if dirtied c then
         dirty_list_remove old;; add_ndirty (- chunk_ndirty c)
       else mret tt);;
      on_chunks (cl_dealloc old chunksize true);;
      modify (λ a, set_hdrs (delete old (hdrs a)) a);;
      on_stats (λ t, set_mapped (u64 (mapped t - chunksize)) t)
  | None => modify (set_spare (Some chunk))
  end.

(** ** Allocating a run *)

Definition mapelm_run (m : Z) : Z := CHUNK_ADDR2BASE m + Z.shiftl (mapelm_page m) LG_PAGE.

Definition arena_run_alloc_helper (size : Z) (large : bool) (binind : Z) (zero : bool) : MA (option Z) :=
  let key := Z.lor size CHUNK_MAP_KEY in
  m ← arena_avail_tree_nsearch true key;
  match m with
  | Some m => arena_run_split (mapelm_run m) size large binind zero;; mret (Some (mapelm_run m))
  | None =>
      m ← arena_avail_tree_nsearch false key;
      match m with
      | Some m => arena_run_split (mapelm_run m) size large binind zero;; mret (Some (mapelm_run m))
      | None => mret None
      end
  end.

Definition arena_run_alloc (size : Z) (large : bool) (binind : Z) (zero : bool) : MA (option Z) :=
  check (size <=? arena_maxclass);;
  check (Z.land size PAGE_MASK =? 0);;
  check (large_xor_bin large binind);;
  run ← arena_run_alloc_helper size large binind zero;
  match run with
  | Some run => mret (Some run)
  | None =>
      chunk ← arena_chunk_alloc;
      match chunk with
      | Some chunk =>
          let run := chunk + Z.shiftl map_bias LG_PAGE in
          arena_run_split run size large binind zero;; mret (Some run)
      | None => arena_run_alloc_helper size large binind zero
      end
  end.

(** ** Deallocating a run *)

(** Coalescing with the run after: the new size and number of pages. *)
Definition dalloc_forward (chunk run_ind size run_pages flag_dirty : Z) : MA (Z * Z) :=
  next ←
    (if run_ind + run_pages <? chunk_npages then
       al ← arena_mapbits_allocated_get chunk (run_ind + run_pages);
       if al =? 0 then
         d ← arena_mapbits_dirty_get chunk (run_ind + run_pages); mret (d =? flag_dirty)
       else mret false
     else mret false);
  if next : bool then
    nrun_size ← arena_mapbits_unallocated_size_get chunk (run_ind + run_pages);
    let nrun_pages := Z.shiftr nrun_size LG_PAGE in
    z ← arena_mapbits_unallocated_size_get chunk (run_ind + run_pages + nrun_pages - 1);
    check (z =? nrun_size);;
    d ← arena_mapbits_dirty_get chunk (run_ind + run_pages + nrun_pages - 1);
    check (d =? flag_dirty);;
    m ← arena_mapp_get chunk (run_ind + run_pages);
    arena_avail_tree_remove (negb (flag_dirty =? 0)) m;;
    let size := size + nrun_size in
    let run_pages := run_pages + nrun_pages in
    arena_mapbits_unallocated_size_set chunk run_ind size;;
    arena_mapbits_unallocated_size_set chunk (run_ind + run_pages - 1) size;;
    mret (size, run_pages)
  else mret (size, run_pages).

(** Coalescing with the run before: the new first page as well. *)
Definition dalloc_backward (chunk run_ind size run_pages flag_dirty : Z) : MA (Z * Z * Z) :=
  prev ←
    (if map_bias <? run_ind then
       al ← arena_mapbits_allocated_get chunk (run_ind - 1);
       if al =? 0 then d ← arena_mapbits_dirty_get chunk (run_ind - 1); mret (d =? flag_dirty)
       else mret false
     else mret false);
  if prev : bool then
    prun_size ← arena_mapbits_unallocated_size_get chunk (run_ind - 1);
    let prun_pages := Z.shiftr prun_size LG_PAGE in
    let run_ind := run_ind - prun_pages in
    z ← arena_mapbits_unallocated_size_get chunk run_ind;
    check (z =? prun_size);;
    d ← arena_mapbits_dirty_get chunk run_ind;
    check (d =? flag_dirty);;
    m ← arena_mapp_get chunk run_ind;
    arena_avail_tree_remove (negb (flag_dirty =? 0)) m;;
    let size := size + prun_size in
    let run_pages := run_pages + prun_pages in
    arena_mapbits_unallocated_size_set chunk run_ind size;;
    arena_mapbits_unallocated_size_set chunk (run_ind + run_pages - 1) size;;
    mret (run_ind, size, run_pages)
  else mret (run_ind, size, run_pages).

(** The size of an allocated run, from the page map or from its bin. *)
Definition dalloc_size (chunk run run_ind : Z) : MA Z :=
  l ← arena_mapbits_large_get chunk run_ind;
  if negb (l =? 0) then
    size ← arena_mapbits_large_size_get chunk run_ind;
    (if size =? PAGE then mret tt
     else z ← arena_mapbits_large_size_get chunk (run_ind + Z.shiftr size LG_PAGE - 1); check (z =? 0));;
    mret size
  else
    r ← run_get run;
    bin_info ← info_get (run_bin r);
    mret (run_size bin_info).

(** Marks the ends of the run as unallocated. *)
Definition dalloc_mark (chunk run_ind size run_pages : Z) (dirty : bool) : MA unit :=
  if dirty then
    arena_mapbits_unallocated_set chunk run_ind size CHUNK_MAP_DIRTY;;
    arena_mapbits_unallocated_set chunk (run_ind + run_pages - 1) size CHUNK_MAP_DIRTY;;
    add_dirty_pages chunk run_pages
  else
    u ← arena_mapbits_unzeroed_get chunk run_ind;
    arena_mapbits_unallocated_set chunk run_ind size u;;
    u ← arena_mapbits_unzeroed_get chunk (run_ind + run_pages - 1);
    arena_mapbits_unallocated_set chunk (run_ind + run_pages - 1) size u.

(** Puts the chunk on the list of chunks with dirty pages. *)
Definition mark_dirtied (chunk : Z) : MA unit :=
  c ← chunk_get chunk;
  if dirtied c then mret tt
  else
    modify (λ a, set_chunks_dirty (chunks_dirty a ++ [chunk]) a);;
    chunk_set chunk (ArenaChunk true (chunk_ndirty c) (chunk_map c)).

(** [arena_run_dalloc], given what it does about dirty pages at the end. *)
Definition arena_run_dalloc_with (maybe_purge : MA unit) (run : Z) (dirty : bool) : MA unit :=
  let chunk := CHUNK_ADDR2BASE run in
  let run_ind := Z.shiftr (run - chunk) LG_PAGE in
  check (map_bias <=? run_ind);; check (run_ind <? chunk_npages);;
  size ← dalloc_size chunk run run_ind;
  let run_pages := Z.shiftr size LG_PAGE in
  add_nactive (- run_pages);;
  d1 ← arena_mapbits_dirty_get chunk run_ind;
  d2 ← arena_mapbits_dirty_get chunk (run_ind + run_pages - 1);
  check (d1 =? d2);;
  let dirty := dirty || negb (d1 =? 0) in
  let flag_dirty := if dirty then CHUNK_MAP_DIRTY else 0 in
  dalloc_mark chunk run_ind size run_pages dirty;;
  '(size, run_pages) ← dalloc_forward chunk run_ind size run_pages flag_dirty;
  '(run_ind, size, run_pages) ← dalloc_backward chunk run_ind size run_pages flag_dirty;
  z1 ← arena_mapbits_unallocated_size_get chunk run_ind;
  z2 ← arena_mapbits_unallocated_size_get chunk (run_ind + run_pages - 1);
  check (z1 =? z2);;
  d1 ← arena_mapbits_dirty_get chunk run_ind;
  d2 ← arena_mapbits_dirty_get chunk (run_ind + run_pages - 1);
  check (d1 =? d2);;
  m ← arena_mapp_get chunk run_ind;
  arena_avail_tree_insert dirty m;;
  (if dirty then mark_dirtied chunk else mret tt);;
  (if size =? arena_maxclass then
     check (run_ind =? map_bias);;
     check (run_pages =? Z.shiftr arena_maxclass LG_PAGE);;
     arena_chunk_dealloc chunk
   else mret tt);;
  if dirty then maybe_purge else mret tt.

(** ** Purging *)

(** Runs that purging puts back are clean, so that it does not begin again. *)
Definition arena_run_dalloc_clean (run : Z) : MA unit := arena_run_dalloc_with (lift None) run false.

(** Allocates a dirty run of [npages] pages as a large one. *)
Definition purge_take (chunk pageind npages flag_unzeroed : Z) : MA unit :=
  m ← arena_mapp_get chunk pageind;
  arena_avail_tree_remove true m;;
  arena_mapbits_unzeroed_set chunk pageind flag_unzeroed;;
  arena_mapbits_large_set chunk pageind (Z.shiftl npages LG_PAGE) 0;;
  for_each (seqZ 1 (npages - 2)) (λ i, arena_mapbits_unzeroed_set chunk (pageind + i) flag_unzeroed);;
  (if 1 <? npages then
     arena_mapbits_unzeroed_set chunk (pageind + npages - 1) flag_unzeroed;;
     arena_mapbits_large_set chunk (pageind + npages - 1) 0 0
   else mret tt);;
  add_nactive npages.

(** The pages of an allocated run, which purging skips. *)
Definition purge_skip (chunk pageind : Z) : MA Z :=
  l ← arena_mapbits_large_get chunk pageind;
  if negb (l =? 0) then z ← arena_mapbits_large_size_get chunk pageind; mret (Z.shiftr z LG_PAGE)
  else
    ri ← arena_mapbits_small_runind_get chunk pageind;
    check (ri =? 0);;
    r ← run_get (chunk + Z.shiftl pageind LG_PAGE);
    bin_info ← info_get (run_bin r);
    mret (Z.shiftr (run_size bin_info) LG_PAGE).

(** Walks the chunk's runs; the result lists the runs taken.  Every step passes
    at least one page. *)
Fixpoint purge_scan (fuel : nat) (chunk pageind flag_unzeroed : Z) : MA (list Z) :=
  if pageind <? chunk_npages then
    match fuel with
    | O => lift None
    | Datatypes.S fuel =>
        al ← arena_mapbits_allocated_get chunk pageind;
        if al =? 0 then
          z ← arena_mapbits_unallocated_size_get chunk pageind;
          let npages := Z.shiftr z LG_PAGE in
          check (pageind + npages <=? chunk_npages);;
          d1 ← arena_mapbits_dirty_get chunk pageind;
          d2 ← arena_mapbits_dirty_get chunk (pageind + npages - 1);
          check (d1 =? d2);;
          (if negb (d1 =? 0) then
             purge_take chunk pageind npages flag_unzeroed;;
             l ← purge_scan fuel chunk (pageind + npages) flag_unzeroed;
             mret (pageind :: l)
           else purge_scan fuel chunk (pageind + npages) flag_unzeroed)
        else
          n ← purge_skip chunk pageind;
          purge_scan fuel chunk (pageind + n) flag_unzeroed
    end
  else check (pageind =? chunk_npages);; mret [].

(** With [MADV_DONTNEED] purged pages count as zeroed. *)
Definition purge_flag_unzeroed : Z := 0.

Definition arena_chunk_purge (chunk : Z) : MA unit :=
  a ← gets id;
  (if decide (spare a = Some chunk) then
     d ← arena_mapbits_dirty_get chunk map_bias; check (negb (d =? 0));;
     d ← arena_mapbits_dirty_get chunk (chunk_npages - 1); check (negb (d =? 0));;
     arena_chunk_alloc;; mret tt
   else mret tt);;
  mapelms ← purge_scan (Z.to_nat chunk_npages) chunk map_bias purge_flag_unzeroed;
  c ← chunk_get chunk;
  on_stats (λ t, set_purge_stats (npurge t) (nmadvise t) (u64 (purged t + chunk_ndirty c)) t);;
  add_ndirty (- chunk_ndirty c);;
  dirty_list_remove chunk;;
  chunk_set chunk (ArenaChunk false 0 (chunk_map c));;
  for_each mapelms (λ pageind,
    z ← arena_mapbits_large_size_get chunk pageind;
    let npages := Z.shiftr z LG_PAGE in
    check (pageind + npages <=? chunk_npages);;
    modify (λ a, set_amem
      (os_purge (chunk + Z.shiftl pageind LG_PAGE) (Z.shiftl npages LG_PAGE) (a_mem a)) a));;
  on_stats (λ t, set_purge_stats (npurge t) (u64 (nmadvise t + Z.of_nat (length mapelms))) (purged t) t);;
  for_each mapelms (λ pageind, arena_run_dalloc_clean (chunk + Z.shiftl pageind LG_PAGE)).

(** Drops chunks without dirty pages from the front of the list. *)
Fixpoint skip_undirty (l : list Z) : MA (option (Z * arena_chunk)) :=
  match l with
  | [] => mret None
  | chunk :: l =>
      c ← chunk_get chunk;
      if chunk_ndirty c =? 0 then
        dirty_list_remove chunk;;
        chunk_set chunk (ArenaChunk false (chunk_ndirty c) (chunk_map c));;
        skip_undirty l
      else mret (Some (chunk, c))
  end.

(** The loop takes a chunk off the list at every turn. *)
Fixpoint purge_loop (fuel : nat) (npurg : Z) : MA unit :=
  if 0 <? npurg then
    match fuel with
    | O => lift None
    | Datatypes.S fuel =>
        a ← gets id;
        next ← skip_undirty (chunks_dirty a);
        match next with
        | None => modify (λ a, set_npurgatory (u64 (npurgatory a - npurg)) a)
        | Some (chunk, c) =>
            npurg ←
              (if npurg <? chunk_ndirty c then
                 modify (λ a, set_npurgatory (u64 (npurgatory a + (chunk_ndirty c - npurg))) a);;
                 mret (chunk_ndirty c)
               else mret npurg);
            modify (λ a, set_npurgatory (u64 (npurgatory a - chunk_ndirty c)) a);;
            arena_chunk_purge chunk;;
            purge_loop fuel (npurg - chunk_ndirty c)
        end
    end
  else mret tt.

Definition arena_purge (all : bool) : MA unit :=
  a ← gets id;
  let excess := u64 (ndirty a - npurgatory a) in
  let keep := Z.shiftr (nactive a) opt_lg_dirty_mult in
  check ((npurgatory a <? ndirty a) || all);;
  check ((chunk_npages <? excess) || all);;
  check ((keep <? excess) || all);;
  on_stats (λ t, set_purge_stats (u64 (npurge t + 1)) (nmadvise t) (purged t) t);;
  (if all then mret tt else check (keep <=? excess));;
  let npurg := if all then excess else excess - keep in
  modify (λ a, set_npurgatory (u64 (npurgatory a + npurg)) a);;
  a ← gets id;
  purge_loop (Datatypes.S (length (chunks_dirty a))) npurg.

Definition arena_maybe_purge : MA unit :=
  a ← gets id;
  if (0 <=? opt_lg_dirty_mult) && (npurgatory a <? ndirty a)
     && (chunk_npages <? u64 (ndirty a - npurgatory a))
     && (Z.shiftr (nactive a) opt_lg_dirty_mult <? u64 (ndirty a - npurgatory a))
  then arena_purge false else mret tt.

Definition arena_purge_all : MA unit := arena_purge true.

Definition arena_run_dalloc (run : Z) (dirty : bool) : MA unit := arena_run_dalloc_with arena_maybe_purge run dirty.

(** ** Trimming a large run *)

Definition arena_run_trim_head (chunk run oldsize newsize : Z) : MA unit :=
  let pageind := Z.shiftr (run - chunk) LG_PAGE in
  let head_npages := Z.shiftr (oldsize - newsize) LG_PAGE in
  flag_dirty ← arena_mapbits_dirty_get chunk pageind;
  check (newsize <? oldsize);;
  z ← arena_mapbits_large_size_get chunk pageind;
  check (z =? oldsize);;
  arena_mapbits_large_set chunk (pageind + head_npages - 1) 0 flag_dirty;;
  arena_mapbits_large_set chunk pageind (oldsize - newsize) flag_dirty;;
  arena_mapbits_large_set chunk (pageind + head_npages) newsize flag_dirty;;
  arena_run_dalloc run false.

Definition arena_run_trim_tail (chunk run oldsize newsize : Z) (dirty : bool) : MA unit :=
  let pageind := Z.shiftr (run - chunk) LG_PAGE in
  let head_npages := Z.shiftr newsize LG_PAGE in
  flag_dirty ← arena_mapbits_dirty_get chunk pageind;
  check (newsize <? oldsize);;
  z ← arena_mapbits_large_size_get chunk pageind;
  check (z =? oldsize);;
  arena_mapbits_large_set chunk (pageind + head_npages - 1) 0 flag_dirty;;
  arena_mapbits_large_set chunk pageind newsize flag_dirty;;
  arena_mapbits_large_set chunk (pageind + head_npages) (oldsize - newsize) flag_dirty;;
  arena_run_dalloc (run + newsize) dirty.

(** ** A new arena *)

Definition no_bin_stats : bin_stats := BinStats 0 0 0 0 0 0 0 0 0.
Definition no_large_stats : large_stats := LargeStats 0 0 0 0.

(** [nlclasses] is the number of large size classes. *)
Definition nlclasses : Z := chunk_npages - map_bias.

Definition arena_new (s : S) (m : Z → Z) (cact : Z) : st :=
  AState s ∅ ∅ m cact [] None 0 0 0 ot_new ot_new
    (replicate (Z.to_nat NBINS) (ArenaBin None ot_new no_bin_stats))
    (ArenaStats 0 0 0 0 0 0 0 0 (replicate (Z.to_nat nlclasses) no_large_stats)).
End arena.
