(* ===== verification/ArenaMap.v ===== *)
(** * Runs as a partition of pages

    What the page maps of an arena's chunks say, as a map from the first page of
    a run to its length and kind.  The lemmas here are about this map alone and
    about how page-map words change; the invariant of an arena follows in [ArenaInv]. *)

From S2P Require Import Prelude OrdTree Bitmap SizeClass BinInfo ArenaBits ChunkIface Arena.

#[global] Arguments map_bias {_} : simpl never.
#[global] Arguments chunk_npages {_} : simpl never.
#[global] Arguments arena_maxclass {_} : simpl never.
#[global] Arguments chunksize {_} : simpl never.

(** ** Addresses *)

Section geometry.
Context `{Config}.

Definition raddr (c i : Z) : Z := c + i * PAGE.

Definition page_in (i : Z) : Prop := map_bias ≤ i < chunk_npages.

Lemma chunksize_pos : 0 < chunksize.
Proof. apply maxclass_facts. Qed.

Lemma addr2base c off : c mod chunksize = 0 → 0 ≤ off < chunksize → CHUNK_ADDR2BASE (c + off) = c.
Proof.
  intros Hc Ho. unfold CHUNK_ADDR2BASE, chunksize_mask. pose proof lg_chunk_range.
  rewrite chunksize_pow2 in *. rewrite land_lnot_mask by lia.
  rewrite Z.add_mod, Hc, Z.add_0_l, Z.mod_mod, (Z.mod_small off) by lia. lia.
Qed.

Lemma page_facts :
  0 < map_bias ∧ map_bias < chunk_npages ∧ chunk_npages * PAGE = chunksize ∧
  chunk_map_offset + sizeof_chunk_map * (chunk_npages - map_bias) ≤ map_bias * PAGE ∧
  arena_maxclass = (chunk_npages - map_bias) * PAGE.
Proof.
  destruct map_bias_spec as (Hb & Hh & _ & Hm & _). pose proof chunksize_pages as Hp.
  change PAGE with 8192 in *. change (2 ^ 13) with 8192 in *. lia.
Qed.

Lemma mapelm_base c i : c mod chunksize = 0 → page_in i → CHUNK_ADDR2BASE (mapelm c i) = c.
Proof.
  intros Hc Hi. unfold page_in in Hi. unfold mapelm. rewrite <- Z.add_assoc. apply addr2base; [done|].
  destruct page_facts as (? & ? & Hp & Hh & _). unfold chunk_map_offset, sizeof_chunk_map in *.
  change PAGE with 8192 in *. lia.
Qed.

Lemma mapelm_page_ok c i : c mod chunksize = 0 → page_in i → mapelm_page (mapelm c i) = i.
Proof.
  intros Hc Hi. unfold mapelm_page. rewrite mapelm_base by done. unfold mapelm, sizeof_chunk_map.
  replace (c + chunk_map_offset + 24 * (i - map_bias) - (c + chunk_map_offset)) with ((i - map_bias) * 24) by lia.
  rewrite Z.div_mul by done. lia.
Qed.

Lemma mapelm_inj c i c' i' :
  c mod chunksize = 0 → page_in i → c' mod chunksize = 0 → page_in i' → mapelm c i = mapelm c' i' → c = c' ∧ i = i'.
Proof.
  intros Hc Hi Hc' Hi' E. split.
  - rewrite <- (mapelm_base c i), E by done. by apply mapelm_base.
  - rewrite <- (mapelm_page_ok c i), E by done. by apply mapelm_page_ok.
Qed.

Lemma raddr_base c i : c mod chunksize = 0 → page_in i → CHUNK_ADDR2BASE (raddr c i) = c.
Proof.
  intros Hc [Hi1 Hi2]. apply addr2base; [done|]. destruct page_facts as (? & ? & Hp & _).
  change PAGE with 8192 in *. lia.
Qed.

Lemma raddr_page c i : Z.shiftr (raddr c i - c) LG_PAGE = i.
Proof.
  unfold raddr. replace (c + i * PAGE - c) with (i * PAGE) by lia.
  rewrite Z.shiftr_div_pow2 by done. by apply Z.div_mul.
Qed.

Lemma shiftl_page i : Z.shiftl i LG_PAGE = i * PAGE.
Proof. by rewrite Z.shiftl_mul_pow2. Qed.

Lemma shiftr_page i : Z.shiftr (i * PAGE) LG_PAGE = i.
Proof. rewrite Z.shiftr_div_pow2 by done. by apply Z.div_mul. Qed.

Lemma mapelm_run_ok c i : c mod chunksize = 0 → page_in i → mapelm_run (mapelm c i) = raddr c i.
Proof. intros Hc Hi. unfold mapelm_run. rewrite mapelm_base, mapelm_page_ok, shiftl_page by done. done. Qed.

Lemma mapelm_bits_at h c i b :
  c mod chunksize = 0 → bits_at h c i = Some b → mapelm_bits h (mapelm c i) = b.
Proof.
  intros Hc E. assert (Hi : page_in i).
  { unfold bits_at in E. unfold page_in. destruct (Z.leb_spec map_bias i), (Z.ltb_spec i chunk_npages); simpl in E; try discriminate; done. }
  unfold mapelm_bits. by rewrite mapelm_base, mapelm_page_ok, E by done.
Qed.
End geometry.

(** ** Words in page maps *)

Section words.
Context `{Config}.
Implicit Types (h : gmap Z arena_chunk) (c i s n b : Z).

Definition map_length : nat := Z.to_nat (chunk_npages - map_bias).

(** Every header is at an aligned address and has a page map of the right
    length. *)
Definition maps_ok h : Prop :=
  ∀ c ch, h !! c = Some ch → length (chunk_map ch) = map_length ∧ c mod chunksize = 0 ∧ 0 < c.

(** [h'] is [h] but for the words of the pages [P] of chunk [c]. *)
Record words_but (c : Z) (P : Z → Prop) h h' : Prop := {
  wb_other c' : c' ≠ c → h' !! c' = h !! c';
  wb_hdr ch : h !! c = Some ch → ∃ m, h' !! c = Some (ArenaChunk (dirtied ch) (chunk_ndirty ch) m) ∧
    length m = length (chunk_map ch);
  wb_some : is_Some (h !! c);
  wb_bits i : ¬ P i → bits_at h' c i = bits_at h c i
}.

Lemma words_but_at c P h h' c' i : words_but c P h h' → c' ≠ c ∨ ¬ P i → bits_at h' c' i = bits_at h c' i.
Proof.
  intros Hw Hc. destruct (decide (c' = c)) as [->|Hne].
  - destruct Hc as [Hc|Hc]; [done|]. by apply Hw.
  - unfold bits_at. by rewrite (wb_other _ _ _ _ Hw c' Hne).
Qed.

Lemma words_but_maps c P h h' : words_but c P h h' → maps_ok h → maps_ok h'.
Proof.
  intros Hw Hm c' ch' E. destruct (decide (c' = c)) as [->|Hne].
  - destruct (wb_some _ _ _ _ Hw) as [ch Ec]. destruct (wb_hdr _ _ _ _ Hw ch Ec) as (m & Em & Hl).
    rewrite Em in E. injection E as <-. simpl. rewrite Hl. by apply Hm.
  - apply Hm. by rewrite <- (wb_other _ _ _ _ Hw c' Hne).
Qed.

Lemma words_but_refl c P h : is_Some (h !! c) → words_but c P h h.
Proof. intros Hs. split; [done| |done|done]. intros ch E. exists (chunk_map ch). split; [|done]. by destruct ch. Qed.

Lemma words_but_trans c P h1 h2 h3 : words_but c P h1 h2 → words_but c P h2 h3 → words_but c P h1 h3.
Proof.
  intros H1 H2. split.
  - intros c' Hne. by rewrite (wb_other _ _ _ _ H2), (wb_other _ _ _ _ H1).
  - intros ch E. destruct (wb_hdr _ _ _ _ H1 ch E) as (m & Em & Hl).
    destruct (wb_hdr _ _ _ _ H2 _ Em) as (m' & Em' & Hl'). exists m'. simpl in *. split; [done|congruence].
  - apply H1.
  - intros i Hi. by rewrite (wb_bits _ _ _ _ H2), (wb_bits _ _ _ _ H1).
Qed.

Lemma words_but_weaken c (P Q : Z → Prop) h h' : (∀ i, P i → Q i) → words_but c P h h' → words_but c Q h h'.
Proof. intros HPQ []. split; auto. Qed.

Lemma words_but_dom c P h h' c' : words_but c P h h' → is_Some (h' !! c') ↔ is_Some (h !! c').
Proof.
  intros Hw. destruct (decide (c' = c)) as [->|Hne]; [|by rewrite (wb_other _ _ _ _ Hw)].
  split; [intros; apply Hw|]. intros [ch E]. destruct (wb_hdr _ _ _ _ Hw ch E) as (m & Em & _). by eexists.
Qed.

Definition put_word h c i b : gmap Z arena_chunk :=
  match h !! c with
  | Some ch => <[c := ArenaChunk (dirtied ch) (chunk_ndirty ch) (<[Z.to_nat (i - map_bias) := b]> (chunk_map ch))]> h
  | None => h
  end.

Lemma put_word_ok h c i b :
  maps_ok h → is_Some (h !! c) → page_in i →
  words_but c (λ j, j = i) h (put_word h c i b) ∧ bits_at (put_word h c i b) c i = Some b.
Proof.
  intros Hm [ch E] [Hi1 Hi2]. unfold put_word. rewrite E. destruct (Hm _ _ E) as [Hl _].
  assert (Hlen : (Z.to_nat (i - map_bias) < length (chunk_map ch))%nat) by (rewrite Hl; unfold map_length; lia).
  split; [split|].
  - intros c' Hne. by rewrite lookup_insert_ne.
  - intros ch' E'. rewrite E in E'. injection E' as <-. eexists. rewrite lookup_insert_eq. split; [done|].
    apply length_insert.
  - by eexists.
  - intros j Hj. unfold bits_at. rewrite lookup_insert_eq, E.
    destruct (map_bias <=? j) eqn:E1; [|reflexivity]. destruct (j <? chunk_npages); [|reflexivity]. cbn.
    apply Z.leb_le in E1. apply list_lookup_insert_ne. lia.
  - unfold bits_at. rewrite (proj2 (Z.leb_le _ _)), (proj2 (Z.ltb_lt _ _)), lookup_insert_eq by lia. simpl.
    by apply list_lookup_insert_eq.
Qed.

Lemma bits_some h c i : maps_ok h → is_Some (h !! c) → page_in i → ∃ b, bits_at h c i = Some b.
Proof.
  intros Hm [ch E] [Hi1 Hi2]. unfold bits_at. rewrite (proj2 (Z.leb_le _ _)), (proj2 (Z.ltb_lt _ _)), E by lia. simpl.
  apply lookup_lt_is_Some. rewrite (proj1 (Hm _ _ E)). unfold map_length. lia.
Qed.

Lemma bits_page h c i b : bits_at h c i = Some b → page_in i ∧ is_Some (h !! c).
Proof.
  unfold bits_at, page_in. destruct (Z.leb_spec map_bias i), (Z.ltb_spec i chunk_npages); simpl; try discriminate.
  destruct (h !! c); simpl; [|discriminate]. intros _. split; [lia|by eexists].
Qed.
End words.

(** ** Runs *)

Inductive kind := Free (d : bool) | Large (d : bool) | Small (b : Z) (d : bool).

#[export] Instance kind_eq_dec : EqDecision kind.
Proof. solve_decision. Defined.

Definition kdirty (k : kind) : bool := match k with Free d | Large d | Small _ d => d end.
Definition is_free (k : kind) : bool := match k with Free _ => true | _ => false end.

(** The runs of an arena: from chunk and first page to length and kind. *)
Abbreviation layout := (gmap (Z * Z) (Z * kind)).

Section partition.
Context `{Config}.
Implicit Types (R : layout) (D : Z → Prop) (c s n i : Z) (k : kind).

(** The pages of the chunks in [D] are divided into the runs. *)
Record partition D R : Prop := {
  pt_range c s n k : R !! (c, s) = Some (n, k) → D c ∧ map_bias ≤ s ∧ 0 < n ∧ s + n ≤ chunk_npages;
  pt_sep c s n k s' n' k' : R !! (c, s) = Some (n, k) → R !! (c, s') = Some (n', k') →
    s = s' ∨ s + n ≤ s' ∨ s' + n' ≤ s;
  pt_cover c i : D c → page_in i → ∃ s n k, R !! (c, s) = Some (n, k) ∧ s ≤ i < s + n
}.

(** The run that begins at a page that ends another, and the run before it. *)
Lemma pt_next D R c s n k :
  partition D R → R !! (c, s) = Some (n, k) → s + n < chunk_npages → ∃ n' k', R !! (c, s + n) = Some (n', k').
Proof.
  intros Hp Hr Hn. destruct (pt_range _ _ Hp _ _ _ _ Hr) as (HD & Hs & Hn0 & _).
  destruct (pt_cover _ _ Hp c (s + n) HD) as (s' & n' & k' & Hr' & Hin); [split; lia|].
  destruct (pt_sep _ _ Hp _ _ _ _ _ _ _ Hr Hr') as [<-|[?|?]]; [|..|lia].
  { rewrite Hr in Hr'. injection Hr' as <- <-. lia. }
  replace (s + n) with s' by lia. eauto.
Qed.

Lemma pt_prev D R c s n k :
  partition D R → R !! (c, s) = Some (n, k) → map_bias < s → ∃ s' n' k', R !! (c, s') = Some (n', k') ∧ s' + n' = s.
Proof.
  intros Hp Hr Hs. destruct (pt_range _ _ Hp _ _ _ _ Hr) as (HD & _ & Hn0 & Hn).
  destruct (pt_cover _ _ Hp c (s - 1) HD) as (s' & n' & k' & Hr' & Hin); [split; lia|].
  destruct (pt_sep _ _ Hp _ _ _ _ _ _ _ Hr Hr') as [<-|[?|?]]; [lia|lia|].
  exists s', n', k'. split; [done|lia].
Qed.

Lemma pt_kind D R c s n k k' :
  partition D R → R !! (c, s) = Some (n, k) → partition D (<[(c, s) := (n, k')]> R).
Proof.
  intros Hp Hr.
  assert (Hl : ∀ c1 s1 n1 k1, <[(c, s) := (n, k')]> R !! (c1, s1) = Some (n1, k1) →
    ∃ k0, R !! (c1, s1) = Some (n1, k0)).
  { intros c1 s1 n1 k1. rewrite lookup_insert_Some. intros [[[= <- <-] [= <- <-]]|[_ E]]; eauto. }
  split.
  - intros c1 s1 n1 k1 (k0 & E)%Hl. by apply (pt_range _ _ Hp) in E.
  - intros c1 s1 n1 k1 s2 n2 k2 (k0 & E1)%Hl (k3 & E2)%Hl. by apply (pt_sep _ _ Hp _ _ _ _ _ _ _ E1 E2).
  - intros c1 i HD Hi. destruct (pt_cover _ _ Hp c1 i HD Hi) as (s1 & n1 & k1 & E & Hin).
    destruct (decide ((c, s) = (c1, s1))) as [[= <- <-]|Hne].
    + rewrite Hr in E. injection E as <- <-. exists s, n, k'. by rewrite lookup_insert_eq.
    + exists s1, n1, k1. by rewrite lookup_insert_ne.
Qed.

(** Inside a run no other begins. *)
Lemma pt_inside D R c s n k i : partition D R → R !! (c, s) = Some (n, k) → s < i < s + n → R !! (c, i) = None.
Proof.
  intros Hp Hr Hi. destruct (R !! (c, i)) as [[n' k']|] eqn:E; [|done]. exfalso.
  destruct (pt_range _ _ Hp _ _ _ _ E) as (_ & _ & ? & _).
  destruct (pt_sep _ _ Hp _ _ _ _ _ _ _ Hr E) as [?|[?|?]]; lia.
Qed.

Lemma pt_split D R c s n k m k1 k2 :
  partition D R → R !! (c, s) = Some (n, k) → 0 < m < n →
  partition D (<[(c, s) := (m, k1)]> (<[(c, s + m) := (n - m, k2)]> R)).
Proof.
  intros Hp Hr Hm. set (R' := <[_ := _]> _). destruct (pt_range _ _ Hp _ _ _ _ Hr) as (HD & Hs & _ & Hn).
  assert (Hl : ∀ c1 s1 n1 k', R' !! (c1, s1) = Some (n1, k') →
    (c1 = c ∧ s1 = s ∧ n1 = m) ∨ (c1 = c ∧ s1 = s + m ∧ n1 = n - m) ∨
    (∃ k0, R !! (c1, s1) = Some (n1, k0) ∧ (c1 = c → s1 ≠ s))).
  { intros c1 s1 n1 k'. unfold R'. rewrite !lookup_insert_Some.
    intros [[[= <- <-] [= <- <-]]|[Hne [[[= <- <-] [= <- <-]]|[Hne' E]]]]; [by left|by right; left|].
    right; right. exists k'. split; [done|]. intros -> ->. done. }
  assert (Hsep : ∀ s1 n1 k0, R !! (c, s1) = Some (n1, k0) → s1 ≠ s → s + n ≤ s1 ∨ s1 + n1 ≤ s).
  { intros s1 n1 k0 E Hne. destruct (pt_sep _ _ Hp _ _ _ _ _ _ _ Hr E) as [?|?]; [congruence|done]. }
  split.
  - intros c1 s1 n1 k' [(-> & -> & ->)|[(-> & -> & ->)|(k0 & E & _)]]%Hl; [split_and!; (done || lia)..|].
    by apply (pt_range _ _ Hp) in E.
  - intros c1 s1 n1 k1' s2 n2 k2' [(-> & -> & ->)|[(-> & -> & ->)|(k3 & E1 & Hn1)]]%Hl
      [(Hc & -> & ->)|[(Hc & -> & ->)|(k4 & E2 & Hn2)]]%Hl; subst; try lia.
    + destruct (Hsep _ _ _ E2 (Hn2 eq_refl)); lia.
    + destruct (Hsep _ _ _ E2 (Hn2 eq_refl)); lia.
    + destruct (Hsep _ _ _ E1 (Hn1 eq_refl)); lia.
    + destruct (Hsep _ _ _ E1 (Hn1 eq_refl)); lia.
    + by apply (pt_sep _ _ Hp _ _ _ _ _ _ _ E1 E2).
  - intros c1 i HD1 Hi. destruct (pt_cover _ _ Hp c1 i HD1 Hi) as (s1 & n1 & k' & E & Hin).
    destruct (decide ((c, s) = (c1, s1))) as [[= <- <-]|Hne].
    + rewrite Hr in E. injection E as <- <-. destruct (Z_lt_ge_dec i (s + m)).
      * exists s, m, k1. unfold R'. rewrite lookup_insert_eq. split; [done|lia].
      * exists (s + m), (n - m), k2. unfold R'. rewrite lookup_insert_ne by (intros [=]; lia).
        rewrite lookup_insert_eq. split; [done|lia].
    + exists s1, n1, k'. unfold R'. rewrite !lookup_insert_ne; [done| |done].
      intros [= <- <-]. by rewrite (pt_inside _ _ _ _ _ _ (s + m) Hp Hr) in E by lia.
Qed.

Lemma pt_merge D R c s n1 k1 n2 k2 k :
  partition D R → R !! (c, s) = Some (n1, k1) → R !! (c, s + n1) = Some (n2, k2) →
  partition D (<[(c, s) := (n1 + n2, k)]> (delete (c, s + n1) R)).
Proof.
  intros Hp Hr1 Hr2. set (R' := <[_ := _]> _).
  destruct (pt_range _ _ Hp _ _ _ _ Hr1) as (HD & Hs & Hn1 & _).
  destruct (pt_range _ _ Hp _ _ _ _ Hr2) as (_ & _ & Hn2 & Hn).
  assert (Hl : ∀ c' s' n' k', R' !! (c', s') = Some (n', k') →
    (c' = c ∧ s' = s ∧ n' = n1 + n2) ∨
    (R !! (c', s') = Some (n', k') ∧ (c' = c → s' ≠ s ∧ s' ≠ s + n1))).
  { intros c' s' n' k'. unfold R'. rewrite lookup_insert_Some, lookup_delete_Some.
    intros [[[= <- <-] [= <- <-]]|[Hne [Hne' E]]]; [by left|right]. split; [done|]. intros ->. split; congruence. }
  assert (Hsep : ∀ s' n' k', R !! (c, s') = Some (n', k') → s' ≠ s → s' ≠ s + n1 →
    s + n1 + n2 ≤ s' ∨ s' + n' ≤ s).
  { intros s' n' k' E Hne Hne'. pose proof (pt_range _ _ Hp _ _ _ _ E) as (_ & _ & ? & _).
    destruct (pt_sep _ _ Hp _ _ _ _ _ _ _ Hr1 E) as [?|[?|?]]; [congruence| |by right].
    destruct (pt_sep _ _ Hp _ _ _ _ _ _ _ Hr2 E) as [?|[?|?]]; [congruence|left; lia|lia]. }
  split.
  - intros c' s' n' k' [(-> & -> & ->)|(E & _)]%Hl; [split_and!; (done || lia)|]. by apply (pt_range _ _ Hp) in E.
  - intros c' s' n' k' s2 n2' k2' [(-> & -> & ->)|(E1 & Hx1)]%Hl [(Hc & -> & ->)|(E2 & Hx2)]%Hl; subst; try lia.
    + destruct (Hx2 eq_refl). destruct (Hsep _ _ _ E2); lia.
    + destruct (Hx1 eq_refl). destruct (Hsep _ _ _ E1); lia.
    + by apply (pt_sep _ _ Hp _ _ _ _ _ _ _ E1 E2).
  - intros c' i HD' Hi. destruct (pt_cover _ _ Hp c' i HD' Hi) as (s' & n' & k' & E & Hin).
    destruct (decide (c' = c ∧ s ≤ i < s + n1 + n2)) as [[-> Hi2]|Hout].
    { exists s, (n1 + n2), k. unfold R'. rewrite lookup_insert_eq. split; [done|lia]. }
    exists s', n', k'. split; [|done]. unfold R'. rewrite lookup_insert_ne, lookup_delete_ne; [done| |].
    + intros [= <- <-]. rewrite Hr2 in E. injection E as <- <-. apply Hout. split; [done|lia].
    + intros [= <- <-]. rewrite Hr1 in E. injection E as <- <-. apply Hout. split; [done|lia].
Qed.

(** A chunk comes, as one run; a chunk that is one run goes. *)
Lemma pt_new D D' R c k :
  partition D R → ¬ D c → (∀ c', D' c' ↔ D c' ∨ c' = c) →
  partition D' (<[(c, map_bias) := (chunk_npages - map_bias, k)]> R).
Proof.
  intros Hp Hc HD'. destruct page_facts as (Hb & Hbn & _).
  assert (Hnew : ∀ s n k, R !! (c, s) = Some (n, k) → False).
  { intros s n k' E. by apply (pt_range _ _ Hp) in E as [? _]. }
  set (R' := <[_ := _]> _).
  assert (Hl : ∀ c' s' n' k', R' !! (c', s') = Some (n', k') →
    (c' = c ∧ s' = map_bias ∧ n' = chunk_npages - map_bias) ∨ (c' ≠ c ∧ R !! (c', s') = Some (n', k'))).
  { intros c' s' n' k'. unfold R'. rewrite lookup_insert_Some. intros [[[= <- <-] [= <- <-]]|[_ E]]; [by left|right].
    split; [|done]. intros ->. by eapply Hnew. }
  split.
  - intros c' s' n' k' [(-> & -> & ->)|[_ E]]%Hl.
    + split_and!; [apply HD'; by right|lia..].
    + apply (pt_range _ _ Hp) in E as (? & ?). split; [apply HD'; by left|done].
  - intros c' s' n' k' s2 n2 k2 [(-> & -> & ->)|[Hne E1]]%Hl [(? & -> & ->)|[? E2]]%Hl; subst; try done; [by left|].
    by apply (pt_sep _ _ Hp _ _ _ _ _ _ _ E1 E2).
  - intros c' i [HD| ->]%HD' Hi.
    + destruct (pt_cover _ _ Hp c' i HD Hi) as (s' & n' & k' & E & Hin). exists s', n', k'. unfold R'.
      rewrite lookup_insert_ne; [done|]. intros [= Ec _]. by subst.
    + exists map_bias, (chunk_npages - map_bias), k. unfold R', page_in in *. rewrite lookup_insert_eq. split; [done|lia].
Qed.

Lemma pt_whole D R c n k s n' k' :
  partition D R → R !! (c, map_bias) = Some (n, k) → n = chunk_npages - map_bias →
  R !! (c, s) = Some (n', k') → s = map_bias.
Proof.
  intros Hp Hr -> E. destruct (pt_range _ _ Hp _ _ _ _ E) as (_ & ? & ? & ?).
  destruct (pt_sep _ _ Hp _ _ _ _ _ _ _ Hr E) as [?|[?|?]]; lia.
Qed.

Lemma pt_drop D D' R c k :
  partition D R → R !! (c, map_bias) = Some (chunk_npages - map_bias, k) → (∀ c', D' c' ↔ D c' ∧ c' ≠ c) →
  partition D' (delete (c, map_bias) R).
Proof.
  intros Hp Hr HD'.
  assert (Hl : ∀ c' s' n' k', delete (c, map_bias) R !! (c', s') = Some (n', k') ↔
    c' ≠ c ∧ R !! (c', s') = Some (n', k')).
  { intros c' s' n' k'. rewrite lookup_delete_Some. split.
    - intros [Hne E]. split; [|done]. intros ->. apply Hne. by rewrite (pt_whole _ _ _ _ _ _ _ _ Hp Hr eq_refl E).
    - intros [Hne E]. split; [|done]. intros [= Ec _]. by subst. }
  split.
  - intros c' s' n' k' [Hne E]%Hl. apply (pt_range _ _ Hp) in E as (? & ?). split; [by apply HD'|done].
  - intros c' s' n' k' s2 n2 k2 [_ E1]%Hl [_ E2]%Hl. by apply (pt_sep _ _ Hp _ _ _ _ _ _ _ E1 E2).
  - intros c' i [HD Hne]%HD' Hi. destruct (pt_cover _ _ Hp c' i HD Hi) as (s' & n' & k' & E & Hin).
    exists s', n', k'. by rewrite Hl.
Qed.
End partition.

(** ** What the page maps say of the runs *)

Section run_words.
Context `{Config}.
Implicit Types (h : gmap Z arena_chunk) (R : layout) (c s n i b : Z) (k : kind).

Definition word_at h c i (P : Z → Prop) : Prop := ∃ b, bits_at h c i = Some b ∧ P b.

Definition run_words h c s n k : Prop :=
  match k with
  | Free d => word_at h c s (λ b, free_word b (n * PAGE) d) ∧ word_at h c (s + n - 1) (λ b, free_word b (n * PAGE) d)
  | Large d =>
      word_at h c s (λ b, large_ok b (n * PAGE) d) ∧
      (n ≠ 1 → word_at h c (s + n - 1) (λ b, large_ok b 0 d))
  | Small bin d =>
      0 ≤ bin < NBINS ∧
      ∀ i, 0 ≤ i < n →
        word_at h c (s + i) (λ b, small_ok b i bin (if (i =? 0) || (i =? n - 1) then d else false))
  end.

Lemma word_at_frame h h' c i (P : Z → Prop) : bits_at h' c i = bits_at h c i → word_at h c i P → word_at h' c i P.
Proof. intros E (b & Eb & HP). exists b. by rewrite E. Qed.

Lemma run_words_frame h h' c s n k :
  0 < n → (∀ i, s ≤ i < s + n → bits_at h' c i = bits_at h c i) → run_words h c s n k → run_words h' c s n k.
Proof.
  intros Hn Hf. destruct k; simpl.
  - intros [H1 H2]. split; (eapply word_at_frame; [apply Hf; lia|done]).
  - intros [H1 H2]. split; [|intros Hne; specialize (H2 Hne)]; (eapply word_at_frame; [apply Hf; lia|done]).
  - intros [Hb H1]. split; [done|]. intros i Hi. eapply word_at_frame; [apply Hf; lia|by apply H1].
Qed.

(** The first and the last page tell whether the run is free, and its dirty flag. *)
Definition end_word (k : kind) b : Prop :=
  Z.land b CHUNK_MAP_ALLOCATED = (if is_free k then 0 else 1) ∧ Z.land b CHUNK_MAP_DIRTY = dflag (kdirty k).

Lemma free_end b sz d : free_word b sz d → end_word (Free d) b.
Proof. intros Hw. split; [by apply (free_word_flags b sz d)|apply Hw]. Qed.
Lemma large_end b sz d : large_ok b sz d → end_word (Large d) b.
Proof. intros Hw. split; [by apply (large_ok_flags b sz d)|apply Hw]. Qed.
Lemma small_end b ri bi d : small_ok b ri bi d → end_word (Small bi d) b.
Proof. intros Hw. split; [by apply (small_ok_flags b ri bi d)|apply Hw]. Qed.

Lemma run_first h c s n k : 0 < n → run_words h c s n k → word_at h c s (end_word k).
Proof.
  intros Hn. destruct k as [d|d|bin d]; simpl.
  - intros [(b & E & Hw) _]. exists b. split; [done|by eapply free_end].
  - intros [(b & E & Hw) _]. exists b. split; [done|by eapply large_end].
  - intros [_ Hi]. destruct (Hi 0) as (b & E & Hw); [lia|]. rewrite Z.add_0_r in E. exists b. split; [done|].
    by eapply small_end.
Qed.

Lemma run_last h c s n k : 0 < n → run_words h c s n k → word_at h c (s + n - 1) (end_word k).
Proof.
  intros Hn. destruct k as [d|d|bin d]; simpl.
  - intros [_ (b & E & Hw)]. exists b. split; [done|by eapply free_end].
  - intros [(b & E & Hw) H2]. destruct (decide (n = 1)) as [->|Hne].
    + exists b. replace (s + 1 - 1) with s by lia. split; [done|by eapply large_end].
    + destruct (H2 Hne) as (b' & E' & Hw'). exists b'. split; [done|by eapply large_end].
  - intros [_ Hi]. destruct (Hi (n - 1)) as (b & E & Hw); [lia|]. replace (s + (n - 1)) with (s + n - 1) in E by lia.
    exists b. split; [done|]. rewrite Z.eqb_refl, orb_true_r in Hw. by eapply small_end.
Qed.

(** The headers and the layout agree. *)
Record layout_ok h R : Prop := {
  lo_maps : maps_ok h;
  lo_part : partition (λ c, is_Some (h !! c)) R;
  lo_words c s n k : R !! (c, s) = Some (n, k) → run_words h c s n k
}.

(** Changing words inside one run. *)
Lemma lo_frame h h' R c s n k c' s' n' k' (P : Z → Prop) :
  layout_ok h R → words_but c P h h' → (∀ i, P i → s ≤ i < s + n) → R !! (c, s) = Some (n, k) →
  R !! (c', s') = Some (n', k') → (c', s') ≠ (c, s) → run_words h' c' s' n' k'.
Proof.
  intros Hlo Hw HP Hr Hr' Hne. destruct (pt_range _ _ (lo_part _ _ Hlo) _ _ _ _ Hr') as (_ & _ & Hn' & _).
  eapply run_words_frame; [done| |by eapply lo_words].
  intros i Hi. apply (words_but_at c P); [done|].
  destruct (decide (c' = c)) as [->|]; [right|by left]. intros Hpi. apply HP in Hpi.
  destruct (pt_sep _ _ (lo_part _ _ Hlo) _ _ _ _ _ _ _ Hr Hr') as [?|[?|?]]; [congruence|lia..].
Qed.

Lemma part_ext (D D' : Z → Prop) R : (∀ c, D c ↔ D' c) → partition D R → partition D' R.
Proof.
  intros HD []. split.
  - intros c s n k E. destruct (pt_range0 c s n k E) as (? & ?). split; [by apply HD|done].
  - done.
  - intros c i Hc. apply pt_cover0. by apply HD.
Qed.

Lemma words_but_part c P h h' R :
  words_but c P h h' → partition (λ c, is_Some (h !! c)) R → partition (λ c, is_Some (h' !! c)) R.
Proof. intros Hw. apply part_ext. intros c'. by rewrite (words_but_dom c P h h' c' Hw). Qed.
End run_words.

(** ** Counting pages *)

Section pages.
Context {K : Type} `{Countable K}.
Implicit Types (R : gmap K (Z * kind)) (f : K → kind → bool).

Definition weight f (k : K) (v : Z * kind) : Z := if f k v.2 then v.1 else 0.

(** The pages of the runs that [f] selects. *)
Definition pages f R : Z := map_fold (λ k v n, weight f k v + n) 0 R.

Lemma pages_insert f R k v : R !! k = None → pages f (<[k := v]> R) = weight f k v + pages f R.
Proof. intros Hk. unfold pages. rewrite map_fold_insert_L; [done| |done]. intros. lia. Qed.

Lemma pages_delete f R k v : R !! k = Some v → pages f (delete k R) = pages f R - weight f k v.
Proof.
  intros Hk. rewrite <- (insert_delete_id R k v Hk) at 2. rewrite pages_insert by apply lookup_delete_eq. lia.
Qed.

Lemma pages_update f R k v v' : R !! k = Some v → pages f (<[k := v']> R) = pages f R - weight f k v + weight f k v'.
Proof.
  intros Hk. rewrite <- insert_delete_eq, pages_insert by apply lookup_delete_eq.
  rewrite (pages_delete _ _ _ v Hk). lia.
Qed.

Lemma pages_zero f R : (∀ k v, R !! k = Some v → f k v.2 = false) → pages f R = 0.
Proof.
  revert R. apply (map_ind (λ R, (∀ k v, R !! k = Some v → f k v.2 = false) → pages f R = 0)).
  - intros _. unfold pages. by rewrite map_fold_empty.
  - intros k v R Hk IH Hf. rewrite pages_insert by done. unfold weight. rewrite (Hf k v) by by rewrite lookup_insert_eq.
    rewrite IH; [done|]. intros k' v' E. apply Hf. rewrite lookup_insert_ne; [done|congruence].
Qed.

Lemma pages_ext f g R : (∀ k v, R !! k = Some v → f k v.2 = g k v.2) → pages f R = pages g R.
Proof.
  revert R. apply (map_ind (λ R, (∀ k v, R !! k = Some v → f k v.2 = g k v.2) → pages f R = pages g R)).
  - intros _. unfold pages. by rewrite !map_fold_empty.
  - intros k v R Hk IH Hf. rewrite !pages_insert by done. unfold weight. rewrite (Hf k v) by by rewrite lookup_insert_eq.
    rewrite IH; [done|]. intros k' v' E. apply Hf. rewrite lookup_insert_ne; [done|congruence].
Qed.

Lemma pages_nonneg f R : (∀ k v, R !! k = Some v → 0 ≤ v.1) → 0 ≤ pages f R.
Proof.
  revert R. apply (map_ind (λ R, (∀ k v, R !! k = Some v → 0 ≤ v.1) → 0 ≤ pages f R)).
  - intros _. unfold pages. by rewrite map_fold_empty.
  - intros k v R Hk IH Hf. rewrite pages_insert by done. assert (0 ≤ v.1) by (apply (Hf k); by rewrite lookup_insert_eq).
    assert (0 ≤ pages f R); [|unfold weight; destruct (f k v.2); lia].
    apply IH. intros k' v' E. apply (Hf k'). rewrite lookup_insert_ne; [done|congruence].
Qed.

Lemma pages_ge f R k v : (∀ k v, R !! k = Some v → 0 ≤ v.1) → R !! k = Some v → f k v.2 = true → v.1 ≤ pages f R.
Proof.
  intros Hpos Hk Hf. pose proof (pages_delete f R k v Hk) as Hd. unfold weight in Hd. rewrite Hf in Hd.
  assert (0 ≤ pages f (delete k R)); [|lia]. apply pages_nonneg. intros k' v' [_ E]%lookup_delete_Some. by eapply Hpos.
Qed.
End pages.
