(* ===== verification/ArenaTree.v ===== *)
(** * The trees of free runs, and layouts as runs come and go

    The order of the trees reads the page map, so a tree stays ordered only
    while the words of its entries stay: the lemmas here say what a tree holds
    in terms of runs.  The second part cuts and joins the runs of a layout and
    counts their pages. *)

From S2P Require Import Prelude OrdTree Bitmap SizeClass BinInfo ArenaBits ChunkIface Arena ArenaMap.

(** ** Trees of page-map entries *)

Section trees.
Context `{Config} {T : Type} `{OT : OrdTree T Z} `{!OrdTreeLaws T Z}.
Implicit Types (h : gmap Z arena_chunk) (t : T) (P : Z → Prop) (y m : Z).

Definition entry_size h y : Z := bits_size (mapelm_bits h y).

Lemma avail_comp_lt h y y' :
  arena_avail_comp h y y' < 0 ↔ entry_size h y < entry_size h y' ∨ entry_size h y = entry_size h y' ∧ y < y'.
Proof.
  unfold arena_avail_comp. fold (entry_size h y) (entry_size h y').
  destruct (cmp3_spec (entry_size h y) (entry_size h y')) as [[? ->]|[[? ->]|[? ->]]]; simpl; [lia| |lia].
  rewrite cmp3_lt. lia.
Qed.

Lemma avail_comp_eq h y y' : arena_avail_comp h y y' = 0 → y = y'.
Proof.
  unfold arena_avail_comp. fold (entry_size h y) (entry_size h y').
  destruct (cmp3_spec (entry_size h y) (entry_size h y')) as [[? ->]|[[? ->]|[? ->]]]; simpl; [done| |done].
  by rewrite cmp3_eq.
Qed.

Lemma avail_comp_order h : rb_order (arena_avail_comp h).
Proof.
  split; intros.
  - rewrite avail_comp_lt. unfold arena_avail_comp. fold (entry_size h a) (entry_size h b).
    destruct (cmp3_spec (entry_size h b) (entry_size h a)) as [[? ->]|[[? ->]|[? ->]]]; simpl; [lia| |lia].
    rewrite cmp3_gt. lia.
  - rewrite avail_comp_lt in *. lia.
  - rewrite avail_comp_lt in *. apply avail_comp_eq in H0 as ->. done.
Qed.

(** The tree holds the entries [P]. *)
Definition tree_has h t P : Prop := ∃ X, tree_of (arena_avail_comp h) t X ∧ ∀ y, y ∈ X ↔ P y.

Lemma th_ext h t P P' : (∀ y, P y ↔ P' y) → tree_has h t P → tree_has h t P'.
Proof. intros HP (X & Ht & HX). exists X. split; [done|]. intros y. by rewrite HX. Qed.

Lemma th_new h : tree_has h ot_new (λ _, False).
Proof. exists ∅. split; [apply tree_new, avail_comp_order|]. set_solver. Qed.

Lemma th_remove h t P m :
  tree_has h t P → P m → ∃ t', ot_remove (arena_avail_comp h) m t = Some t' ∧ tree_has h t' (λ y, P y ∧ y ≠ m).
Proof.
  intros (X & Ht & HX) Hm. destruct (tree_remove _ m _ _ Ht) as (t' & E & Ht'); [by apply HX|].
  exists t'. split; [done|]. exists (X ∖ {[m]}). split; [done|]. intros y. rewrite <- HX. set_solver.
Qed.

Lemma th_insert h t P m :
  tree_has h t P → ¬ P m → ∃ t', ot_insert (arena_avail_comp h) m t = Some t' ∧ tree_has h t' (λ y, P y ∨ y = m).
Proof.
  intros (X & Ht & HX) Hm. destruct (tree_insert _ m _ _ Ht) as (t' & E & Ht').
  { intros y Hy E. apply avail_comp_eq in E as ->. by apply Hm, HX. }
  exists t'. split; [done|]. exists (X ∪ {[m]}). split; [done|]. intros y. rewrite <- HX. set_solver.
Qed.

Lemma th_frame h h' t P : (∀ y, P y → entry_size h' y = entry_size h y) → tree_has h t P → tree_has h' t P.
Proof.
  intros Hs (X & Ht & HX). exists X. split; [|done]. eapply tree_mono; [apply avail_comp_order| |exact Ht].
  intros x y Hx%HX Hy%HX. rewrite !avail_comp_lt, !Hs by done. done.
Qed.

(** The search for the smallest run that is large enough. *)
Lemma th_nsearch h t P size :
  0 ≤ size → size mod PAGE = 0 → (∀ y, P y → 0 < y) → tree_has h t P →
  match ot_nsearch (arena_avail_key h (Z.lor size CHUNK_MAP_KEY)) t with
  | None => ∀ y, P y → entry_size h y < size
  | Some m => P m ∧ size ≤ entry_size h m ∧ ∀ y, P y → size ≤ entry_size h y → y = m ∨ arena_avail_comp h m y < 0
  end.
Proof.
  intros H0 Hm Hpos (X & Ht & HX).
  assert (Hkey : ∀ y, 0 < y → (arena_avail_key h (Z.lor size CHUNK_MAP_KEY) y < 0 ↔ size ≤ entry_size h y) ∧
    (0 < arena_avail_key h (Z.lor size CHUNK_MAP_KEY) y ↔ entry_size h y < size)).
  { intros y Hy. unfold arena_avail_key. rewrite half_size by (done || (vm_compute; split; congruence)).
    fold (entry_size h y).
    destruct (cmp3_spec size (entry_size h y)) as [[? ->]|[[? ->]|[? ->]]]; simpl; [lia| |lia].
    rewrite cmp3_lt, cmp3_gt. lia. }
  assert (Hk : key_cut (arena_avail_key h (Z.lor size CHUNK_MAP_KEY)) (ot_elems t)).
  { destruct Ht as (Ho & _ & Hi & He). eapply key_cut_of_members; [|exact Hi].
    intros x y Hx%He%HX%Hpos Hy%He%HX%Hpos Hlt%avail_comp_lt. pose proof (Hkey x Hx). pose proof (Hkey y Hy). lia. }
  pose proof (tree_nsearch _ _ _ _ Ht Hk) as Hn.
  destruct (ot_nsearch _ _) as [m|].
  - destruct Hn as (Hm1 & Hm2 & Hleast). apply HX in Hm1. pose proof (Hkey m (Hpos m Hm1)). split; [done|]. split; [lia|].
    intros y Hy Hs. apply Hleast; [by apply HX|]. pose proof (Hkey y (Hpos y Hy)). lia.
  - intros y Hy. pose proof (Hkey y (Hpos y Hy)). pose proof (Hn y (proj2 (HX y) Hy)). lia.
Qed.
End trees.

(** ** Trees of runs *)

Section run_trees.
Context `{Config} {T : Type} `{OT : OrdTree T Z} `{!OrdTreeLaws T Z}.
Implicit Types (h : gmap Z arena_chunk) (t : T) (X : Z * Z → Prop) (k : Z * Z).

Definition elm (k : Z * Z) : Z := mapelm k.1 k.2.
Definition run_key (k : Z * Z) : Prop := k.1 mod chunksize = 0 ∧ 0 < k.1 ∧ page_in k.2.

Lemma elm_inj k k' : run_key k → run_key k' → elm k = elm k' → k = k'.
Proof.
  destruct k as [c s], k' as [c' s']. intros (? & ? & ?) (? & ? & ?) E. simpl in *.
  unfold elm in E. simpl in E. apply (mapelm_inj c s c' s') in E as [? ?]; [by subst|done..].
Qed.

Lemma elm_pos k : run_key k → 0 < elm k.
Proof.
  destruct k as [c s]. intros (? & ? & Hs). simpl in *. destruct Hs. unfold elm, mapelm, chunk_map_offset, sizeof_chunk_map. simpl. lia.
Qed.

(** The tree holds the runs [X]. *)
Definition tree_runs h t X : Prop :=
  (∀ k, X k → run_key k) ∧ tree_has h t (λ y, ∃ k, y = elm k ∧ X k).

Lemma tr_ext h t X X' : (∀ k, X k ↔ X' k) → tree_runs h t X → tree_runs h t X'.
Proof.
  intros HX [Hk Ht]. split; [intros k Hx; by apply Hk, HX|]. eapply th_ext; [|exact Ht].
  intros y. split; intros (k & ? & ?%HX); eauto.
Qed.

Lemma tr_remove h t X k :
  tree_runs h t X → X k →
  ∃ t', ot_remove (arena_avail_comp h) (elm k) t = Some t' ∧ tree_runs h t' (λ k', X k' ∧ k' ≠ k).
Proof.
  intros [Hk Ht] Hx. destruct (th_remove _ _ _ (elm k) Ht) as (t' & E & Ht'); [by eexists|].
  exists t'. split; [done|]. split; [intros k' [? _]; auto|]. eapply th_ext; [|exact Ht'].
  intros y. split.
  - intros [(k' & -> & Hx') Hne]. exists k'. split; [done|]. split; [done|]. by intros ->.
  - intros (k' & -> & Hx' & Hne). split; [by eexists|]. intros E'. apply Hne, elm_inj; auto.
Qed.

Lemma tr_insert h t X k :
  tree_runs h t X → run_key k → ¬ X k →
  ∃ t', ot_insert (arena_avail_comp h) (elm k) t = Some t' ∧ tree_runs h t' (λ k', X k' ∨ k' = k).
Proof.
  intros [Hk Ht] Hr Hx. destruct (th_insert _ _ _ (elm k) Ht) as (t' & E & Ht').
  { intros (k' & E & Hx'). apply elm_inj in E as ->; auto. }
  exists t'. split; [done|]. split; [intros k' [?| ->]; auto|]. eapply th_ext; [|exact Ht'].
  intros y. split.
  - intros [(k' & -> & Hx')| ->]; eauto.
  - intros (k' & -> & [Hx'| ->]); eauto.
Qed.

Lemma tr_frame h h' t X :
  (∀ c s, X (c, s) → bits_at h' c s = bits_at h c s) → tree_runs h t X → tree_runs h' t X.
Proof.
  intros Hf [Hk Ht]. split; [done|]. eapply th_frame; [|exact Ht].
  intros y ([c s] & -> & Hx). destruct (Hk _ Hx) as (? & ? & ?). simpl in *.
  unfold entry_size, mapelm_bits, elm. cbn [fst snd]. by rewrite mapelm_base, mapelm_page_ok, (Hf c s) by done.
Qed.

Lemma tr_new h : tree_runs h ot_new (λ _, False).
Proof. split; [done|]. eapply th_ext; [|apply th_new]. intros y. split; [done|]. by intros (? & ? & ?). Qed.

Definition key_size h k : Z := entry_size h (elm k).

Lemma tr_nsearch h t X size :
  0 ≤ size → size mod PAGE = 0 → tree_runs h t X →
  match ot_nsearch (arena_avail_key h (Z.lor size CHUNK_MAP_KEY)) t with
  | None => ∀ k, X k → key_size h k < size
  | Some m => ∃ k, m = elm k ∧ X k ∧ size ≤ key_size h k ∧
      ∀ k', X k' → size ≤ key_size h k' → key_size h k ≤ key_size h k'
  end.
Proof.
  intros H0 Hm [Hk Ht].
  assert (Hpos : ∀ y, (∃ k, y = elm k ∧ X k) → 0 < y) by (intros y (k & -> & Hx); auto using elm_pos).
  pose proof (th_nsearch h t _ size H0 Hm Hpos Ht) as Hn. destruct (ot_nsearch _ _) as [m|].
  - destruct Hn as ((k & -> & Hx) & Hs & Hl). exists k. split_and!; [done..|].
    intros k' Hx' Hs'. destruct (Hl (elm k')) as [E|E%avail_comp_lt]; [by eexists|done| |].
    + apply elm_inj in E as ->; auto; lia.
    + unfold key_size. lia.
  - intros k Hx. apply Hn. by eexists.
Qed.
End run_trees.

(** ** Layouts as runs come and go *)

Section carve.
Context `{Config}.
Implicit Types (R : layout) (D : Z → Prop) (c s n m : Z) (k : kind) (f : Z * Z → kind → bool).

(** The first [m] pages of the run of [n] pages become a run of kind [k], what
    is left one of kind [k']. *)
Definition carve R c s n m k k' : layout :=
  <[(c, s) := (m, k)]> (if m <? n then <[(c, s + m) := (n - m, k')]> R else R).

Lemma carve_lookup D R c s n m k0 k k' c1 s1 v :
  partition D R → R !! (c, s) = Some (n, k0) → 0 < m ≤ n →
  carve R c s n m k k' !! (c1, s1) = Some v ↔
    (c1 = c ∧ s1 = s ∧ v = (m, k)) ∨ (m < n ∧ c1 = c ∧ s1 = s + m ∧ v = (n - m, k')) ∨
    ((c1, s1) ≠ (c, s) ∧ R !! (c1, s1) = Some v).
Proof.
  intros Hp Hr Hm. unfold carve. rewrite lookup_insert_Some. destruct (Z.ltb_spec m n).
  - rewrite lookup_insert_Some. split.
    + intros [[[= <- <-] <-]|[Hne [[[= <- <-] <-]|[_ E]]]]; [by left|by right; left|right; right]. split; congruence.
    + intros [(-> & -> & ->)|[(_ & -> & -> & ->)|[Hne E]]]; [by left|right|right].
      * split; [intros [=]; lia|by left].
      * split; [congruence|]. right. split; [|done]. intros [= <- <-].
        by rewrite (pt_inside _ _ _ _ _ _ _ Hp Hr) in E by lia.
  - split.
    + intros [[[= <- <-] <-]|[Hne E]]; [by left|right; right]. split; congruence.
    + intros [(-> & -> & ->)|[(? & _)|[Hne E]]]; [by left|lia|right]. split; congruence.
Qed.

Lemma carve_part D R c s n m k0 k k' :
  partition D R → R !! (c, s) = Some (n, k0) → 0 < m ≤ n → partition D (carve R c s n m k k').
Proof.
  intros Hp Hr Hm. unfold carve. destruct (Z.ltb_spec m n).
  - eapply pt_split; [done..|lia].
  - replace m with n by lia. by eapply pt_kind.
Qed.

Lemma carve_pages D R c s n m k0 k k' f :
  partition D R → R !! (c, s) = Some (n, k0) → 0 < m ≤ n →
  pages f (carve R c s n m k k') =
    pages f R - weight f (c, s) (n, k0) + weight f (c, s) (m, k) + weight f (c, s + m) (n - m, k').
Proof.
  intros Hp Hr Hm. unfold carve. destruct (Z.ltb_spec m n).
  - rewrite (pages_update _ _ _ (n, k0)) by (rewrite lookup_insert_ne; [done|intros [=]; lia]).
    rewrite pages_insert by (eapply pt_inside; [done..|lia]). lia.
  - rewrite (pages_update _ _ _ (n, k0)) by done. replace (n - m) with 0 by lia.
    assert (weight f (c, s + m) (0, k') = 0) as -> by (unfold weight; simpl; by destruct (f _ _)). lia.
Qed.

(** A run and the one after it become one. *)
Definition join R c s n n' k : layout := <[(c, s) := (n + n', k)]> (delete (c, s + n) R).

Lemma join_lookup R c s n n' k c1 s1 v :
  0 < n →
  join R c s n n' k !! (c1, s1) = Some v ↔
    (c1 = c ∧ s1 = s ∧ v = (n + n', k)) ∨
    ((c1, s1) ≠ (c, s) ∧ (c1, s1) ≠ (c, s + n) ∧ R !! (c1, s1) = Some v).
Proof.
  intros Hn. unfold join. rewrite lookup_insert_Some, lookup_delete_Some. split.
  - intros [[[= <- <-] <-]|(? & ? & ?)]; [by left|right]. split_and!; congruence.
  - intros [(-> & -> & ->)|(? & ? & ?)]; [by left|right]. split_and!; congruence.
Qed.

Lemma join_pages R c s n n' k1 k2 k f :
  R !! (c, s) = Some (n, k1) → R !! (c, s + n) = Some (n', k2) → 0 < n →
  pages f (join R c s n n' k) =
    pages f R - weight f (c, s) (n, k1) - weight f (c, s + n) (n', k2) + weight f (c, s) (n + n', k).
Proof.
  intros H1 H2 Hn. unfold join.
  rewrite (pages_update _ _ _ (n, k1)) by (rewrite lookup_delete_ne; [done|intros [=]; lia]).
  rewrite (pages_delete _ _ _ _ H2). lia.
Qed.

(** The runs that are not free. *)
Definition allocated R : layout := filter (λ kv, is_free kv.2.2 = false) R.

Lemma allocated_lookup R key v : allocated R !! key = Some v ↔ R !! key = Some v ∧ is_free v.2 = false.
Proof. unfold allocated. rewrite map_lookup_filter_Some. done. Qed.

Lemma allocated_free R key n d : R !! key = Some (n, Free d) → allocated R !! key = None.
Proof. intros E. unfold allocated. rewrite map_lookup_filter_None. right. intros v E'. rewrite E in E'. by injection E' as <-. Qed.

Lemma allocated_ext R R' : (∀ key v, is_free v.2 = false → R !! key = Some v ↔ R' !! key = Some v) → allocated R = allocated R'.
Proof.
  intros HR. apply map_eq. intros key. apply option_eq. intros v. rewrite !allocated_lookup.
  split; intros [E Hf]; (split; [|done]); by apply HR.
Qed.

(** The pages of a chunk are counted once. *)
Lemma pages_bound R c f lo hi :
  (∀ s n k, R !! (c, s) = Some (n, k) → lo ≤ s ∧ 0 < n ∧ s + n ≤ hi) →
  (∀ s n k s' n' k', R !! (c, s) = Some (n, k) → R !! (c, s') = Some (n', k') → s = s' ∨ s + n ≤ s' ∨ s' + n' ≤ s) →
  0 ≤ pages (λ key k, bool_decide (key.1 = c) && f key k) R ≤ Z.max 0 (hi - lo).
Proof.
  remember (Z.to_nat (hi - lo)) as g eqn:Hg. revert R lo Hg.
  induction (lt_wf g) as [g _ IH]. intros R lo Hg Hin Hsep.
  destruct (Z_le_gt_dec hi lo) as [Hle|Hgt].
  { rewrite pages_zero; [lia|]. intros [c' s] [n k] E. simpl. apply andb_false_iff. left. apply bool_decide_eq_false.
    intros ->. specialize (Hin _ _ _ E). lia. }
  destruct (R !! (c, lo)) as [[n k]|] eqn:E.
  - destruct (Hin _ _ _ E) as (_ & Hn & Hh).
    assert (Hb : 0 ≤ pages (λ key k, bool_decide (key.1 = c) && f key k) (delete (c, lo) R) ≤ Z.max 0 (hi - (lo + n))).
    { eapply IH; [|reflexivity|..]; [lia| |].
      - intros s n' k'. rewrite lookup_delete_Some. intros [Hne E']. destruct (Hin _ _ _ E') as (? & ? & ?).
        destruct (Hsep _ _ _ _ _ _ E E') as [?|[?|?]]; [congruence|lia|lia].
      - intros s n1 k1 s' n2 k2. rewrite !lookup_delete_Some. intros [_ ?] [_ ?]. by eapply Hsep. }
    rewrite (pages_delete _ _ _ _ E) in Hb. unfold weight in Hb. simpl in Hb. destruct (_ && _); lia.
  - enough (0 ≤ pages (λ key k, bool_decide (key.1 = c) && f key k) R ≤ Z.max 0 (hi - (lo + 1))) by lia.
    eapply IH; [|reflexivity|..]; [lia| |done]. intros s n k E'. destruct (Hin _ _ _ E') as (? & ? & ?).
    assert (s ≠ lo) by congruence. lia.
Qed.
End carve.
