(* ===== verification/ArenaInv.v ===== *)
(** * The invariant of an arena

    [arena_inv] says that the page maps divide the pages of the arena's chunks
    into runs, that the two trees hold exactly the free runs, clean and dirty,
    that free neighbours of the same sort are coalesced, that the counters
    count, and that the chunk layer knows the arena's chunks.  The lemmas of
    this file are about single accesses to the page map and the trees. *)

From S2P Require Import Prelude OrdTree Bitmap SizeClass BinInfo ArenaBits ChunkIface Arena ArenaMap ArenaTree.

(** ** What the counters count *)

Definition dirty_kind (k : kind) : bool := match k with Free true => true | _ => false end.
Definition active_pages (R : layout) : Z := pages (λ _ k, negb (is_free k)) R.
Definition dirty_pages (R : layout) : Z := pages (λ _ k, dirty_kind k) R.
Definition dirty_pages_in (c : Z) (R : layout) : Z := pages (λ key k, bool_decide (key.1 = c) && dirty_kind k) R.

(** The contents of the memory that belongs to others: an arena never writes
    there, so the invariant fixes them. *)
Class Frame := frame : Z → Z.
Definition framed {FR : Frame} (C : list (Z * Z)) (f : Z → Z) : Prop := Forall (λ r, ∀ y, r.1 ≤ y < r.1 + r.2 → f y = frame y) C.

Section inv.
Context `{Config} {S : Type} `{CL : ChunkLayer S} {T : Type} `{OT : OrdTree T Z}.
Context `{!ChunkLayerLaws S} {FR : Frame} `{!OrdTreeLaws T Z}.
Implicit Types (a : astate S T) (R : layout) (E : option (Z * Z)) (x : option Z) (c s n : Z) (d : bool).

(** Free neighbours of the same sort are coalesced, but for the run [E]. *)
Definition coalesced R E : Prop :=
  ∀ c s n d n', R !! (c, s) = Some (n, Free d) → R !! (c, s + n) = Some (n', Free d) →
    E = Some (c, s) ∨ E = Some (c, s + n).

(** The runs a tree holds: the free runs outside the spare chunk, but for [E]. *)
Definition in_tree R (spare : option Z) E (d : bool) (k : Z * Z) : Prop :=
  (∃ n, R !! k = Some (n, Free d)) ∧ spare ≠ Some k.1 ∧ E ≠ Some k.

Record arena_core a R E : Prop := {
  ac_lay : layout_ok (hdrs a) R;
  ac_tree d : tree_runs (hdrs a) (avail d a) (in_tree R (spare a) E d);
  ac_coal : coalesced R E;
  ac_spare c : spare a = Some c →
    (∃ d, R !! (c, map_bias) = Some (chunk_npages - map_bias, Free d)) ∧ ∀ s, E ≠ Some (c, s)
}.

Definition hdr_info (h : gmap Z arena_chunk) c : option (bool * Z) := (λ ch, (dirtied ch, chunk_ndirty ch)) <$> h !! c.

(** [p] pages of chunk [pc] count as dirty though they are not in free runs;
    chunk [x] may have dirty pages without being listed. *)
Record dirty_ok a R (pc p : Z) x : Prop := {
  do_total : ndirty a = u64 (dirty_pages R + p);
  do_chunk c d nd : hdr_info (hdrs a) c = Some (d, nd) →
    nd = u64 (dirty_pages_in c R + if decide (c = pc) then p else 0);
  do_nodup : NoDup (chunks_dirty a);
  do_listed c : c ∈ chunks_dirty a ↔ ∃ nd, hdr_info (hdrs a) c = Some (true, nd);
  do_dirty c s n : R !! (c, s) = Some (n, Free true) → x = Some c ∨ c ∈ chunks_dirty a
}.

(** The chunk layer has handed out the chunks of the arena, and the chunks [C]
    and nodes [N] to others. *)
Definition owns a (C : list (Z * Z)) (N : list Z) : Prop :=
  ∃ L, NoDup L ∧ (∀ c, c ∈ L ↔ is_Some (hdrs a !! c)) ∧
    cl_inv (a_chunks a) (((λ c, (c, chunksize)) <$> L) ++ C) N ∧ framed C (a_mem a).

(** The state of an arena with the layout [R], between operations when [E] and
    [x] are [None] and [p] is 0. *)
Record arena_at a R E pc p x (C : list (Z * Z)) (N : list Z) : Prop := {
  aa_core : arena_core a R E;
  aa_dirty : dirty_ok a R pc p x;
  aa_active : nactive a = u64 (active_pages R);
  aa_mapped : mapped (a_stats a) = u64 (chunksize * Z.of_nat (size (hdrs a)));
  aa_owns : owns a C N
}.

Definition arena_inv a R (C : list (Z * Z)) (N : list Z) : Prop := arena_at a R None 0 0 None C N.

(** What the operations on runs leave alone: the headers of small runs, the bins
    and the statistics about allocations. *)
Definition user_stats (t : arena_stats) := (allocated_large t, nmalloc_large t, ndalloc_large t, nrequests_large t, lstats t).
Definition kept a a' : Prop := runs a' = runs a ∧ bins a' = bins a ∧ user_stats (a_stats a') = user_stats (a_stats a).

Lemma kept_lstats a a' : user_stats (a_stats a') = user_stats (a_stats a) → lstats (a_stats a') = lstats (a_stats a).
Proof. unfold user_stats. by intros [= _ _ _ _ ->]. Qed.

Lemma kept_refl a : kept a a.
Proof. done. Qed.

Lemma kept_trans a1 a2 a3 : kept a1 a2 → kept a2 a3 → kept a1 a3.
Proof. intros (? & ? & ?) (? & ? & ?). split_and!; congruence. Qed.

(** A new arena has no chunks. *)
Lemma arena_new_ok (s0 : S) m ca C N : cl_inv s0 C N → framed C m → arena_inv (arena_new s0 m ca) ∅ C N.
Proof.
  intros Hs Hf. split.
  - split; simpl.
    + split; [done| |by intros]. split; [by intros..|]. intros c i [? ?]. simpl in *. by rewrite lookup_empty in *.
    + intros d. destruct d; (eapply tr_ext; [|apply tr_new]); intros k; (split; [done|]); intros [[n E] _]; by rewrite lookup_empty in E.
    + intros c s n d n' E. by rewrite lookup_empty in E.
    + done.
  - split; simpl.
    + unfold dirty_pages, pages. by rewrite map_fold_empty.
    + intros c d nd E. unfold hdr_info in E. simpl in E. by rewrite lookup_empty in E.
    + constructor.
    + intros c. split; [by intros ?%elem_of_nil|]. intros [nd E]. unfold hdr_info in E. by rewrite lookup_empty in E.
    + intros c s n E. by rewrite lookup_empty in E.
  - simpl. unfold active_pages, pages. by rewrite map_fold_empty.
  - simpl. by rewrite map_size_empty, Z.mul_0_r.
  - exists []. split_and!; [constructor| |done|done]. intros c. simpl. rewrite lookup_empty. split; [by intros ?%elem_of_nil|]. by intros [? ?].
Qed.
End inv.

(** ** Single accesses *)

Section access.
Context `{Config} {S : Type} {T : Type} `{OT : OrdTree T Z} `{!OrdTreeLaws T Z}.
Implicit Types (a : astate S T) (h : gmap Z arena_chunk) (c s i n b sz fl : Z) (d : bool) (k : kind) (key : Z * Z).

Lemma bits_put_eq h c i b : maps_ok h → is_Some (h !! c) → page_in i → bits_at (put_word h c i b) c i = Some b.
Proof. intros. by apply put_word_ok. Qed.

Lemma bits_put_ne h c i j c' b : page_in i → (c', j) ≠ (c, i) → bits_at (put_word h c i b) c' j = bits_at h c' j.
Proof.
  intros [Hi1 Hi2] Hne. unfold put_word. destruct (h !! c) as [ch|] eqn:E; [|done]. unfold bits_at.
  destruct (decide (c' = c)) as [->|Hc]; [|by rewrite lookup_insert_ne].
  rewrite lookup_insert_eq, E. destruct (Z.leb_spec map_bias j); [|done]. destruct (j <? chunk_npages); [|done]. cbn.
  apply list_lookup_insert_ne. assert (j ≠ i) by congruence. lia.
Qed.

Lemma put_word_some h c i b c' : is_Some (put_word h c i b !! c') ↔ is_Some (h !! c').
Proof.
  unfold put_word. destruct (h !! c) as [ch|] eqn:E; [|done].
  destruct (decide (c' = c)) as [->|Hc]; [|by rewrite lookup_insert_ne]. rewrite lookup_insert_eq, E. split; by eexists.
Qed.

Lemma put_word_maps h c i b : maps_ok h → maps_ok (put_word h c i b).
Proof.
  intros Hm. unfold put_word. destruct (h !! c) as [ch|] eqn:E; [|done]. intros c' ch'.
  destruct (decide (c' = c)) as [->|Hc]; [|rewrite lookup_insert_ne by done; apply Hm].
  rewrite lookup_insert_eq. intros [= <-]. simpl. rewrite length_insert. by apply Hm.
Qed.

Lemma put_word_info h c i b c' : hdr_info (put_word h c i b) c' = hdr_info h c'.
Proof.
  unfold put_word, hdr_info. destruct (h !! c) as [ch|] eqn:E; [|done].
  destruct (decide (c' = c)) as [->|Hc]; [|by rewrite lookup_insert_ne]. by rewrite lookup_insert_eq, E.
Qed.

Lemma put_word_size h c i b : size (put_word h c i b) = size h.
Proof. unfold put_word. destruct (h !! c) as [ch|] eqn:E; [|done]. by rewrite map_size_insert_Some. Qed.

Lemma wp_get a c i b (Q : Z → astate S T → Prop) :
  bits_at (hdrs a) c i = Some b → Q b a → wp (arena_mapbits_get c i) a Q.
Proof.
  intros E HQ. destruct (bits_page _ _ _ _ E) as [[? ?] _]. unfold arena_mapbits_get. wsteps.
  apply wp_check; [by apply Z.leb_le|]. wsteps. apply wp_check; [by apply Z.ltb_lt|]. wsteps. by eapply wp_lift.
Qed.

Lemma wp_set a c i b (Q : unit → astate S T → Prop) :
  page_in i → is_Some (hdrs a !! c) → Q tt (set_hdrs (put_word (hdrs a) c i b) a) → wp (arena_mapbits_set c i b) a Q.
Proof.
  intros [? ?] [ch E] HQ. unfold arena_mapbits_set. wsteps.
  apply wp_check; [by apply Z.leb_le|]. wsteps. apply wp_check; [by apply Z.ltb_lt|]. wsteps.
  eapply wp_lift; [exact E|]. wsteps. unfold put_word in HQ. by rewrite E in HQ.
Qed.

Lemma wp_mapp a c i (Q : Z → astate S T → Prop) : page_in i → Q (elm (c, i)) a → wp (arena_mapp_get c i) a Q.
Proof.
  intros [? ?] HQ. unfold arena_mapp_get. wsteps. apply wp_check; [by apply Z.leb_le|]. wsteps.
  apply wp_check; [by apply Z.ltb_lt|]. by wsteps.
Qed.

Lemma wp_dirty_get a c i k (Q : Z → astate S T → Prop) :
  word_at (hdrs a) c i (end_word k) → Q (dflag (kdirty k)) a → wp (arena_mapbits_dirty_get c i) a Q.
Proof. intros (b & E & _ & Hd) HQ. apply wp_bind. eapply wp_get; [done|]. wsteps. by rewrite Hd. Qed.

Lemma wp_allocated_get a c i k (Q : Z → astate S T → Prop) :
  word_at (hdrs a) c i (end_word k) → Q (if is_free k then 0 else 1) a → wp (arena_mapbits_allocated_get c i) a Q.
Proof. intros (b & E & Hd & _) HQ. apply wp_bind. eapply wp_get; [done|]. wsteps. by rewrite Hd. Qed.

Lemma wp_free_size a c i sz d (Q : Z → astate S T → Prop) :
  word_at (hdrs a) c i (λ b, free_word b sz d) → Q sz a → wp (arena_mapbits_unallocated_size_get c i) a Q.
Proof. intros (b & E & Hw) HQ. apply wp_bind. eapply wp_get; [done|]. by eapply wp_lift; [eapply free_word_size|]. Qed.

Lemma wp_large_size a c i sz d (Q : Z → astate S T → Prop) :
  word_at (hdrs a) c i (λ b, large_ok b sz d) → Q sz a → wp (arena_mapbits_large_size_get c i) a Q.
Proof. intros (b & E & Hw) HQ. apply wp_bind. eapply wp_get; [done|]. by eapply wp_lift; [eapply large_ok_size|]. Qed.

Lemma wp_large_flag a c s n k (Q : Z → astate S T → Prop) :
  0 < n → run_words (hdrs a) c s n k → is_free k = false → Q (match k with Large _ => 2 | _ => 0 end) a →
  wp (arena_mapbits_large_get c s) a Q.
Proof.
  intros Hn Hw Hk HQ. apply wp_bind. destruct k as [d|d|bi d]; [discriminate Hk| |]; cbn [run_words] in Hw.
  - destruct Hw as [(b & E & Hw) _]. eapply wp_get; [done|]. wsteps. by rewrite (proj2 (large_ok_flags _ _ _ Hw)).
  - destruct Hw as [_ Hw]. destruct (Hw 0) as (b & E & Hb); [lia|]. rewrite Z.add_0_r in E. eapply wp_get; [done|]. wsteps.
    by rewrite (proj2 (small_ok_flags _ _ _ _ Hb)).
Qed.

Lemma wp_runind a c i ri bi d (Q : Z → astate S T → Prop) :
  word_at (hdrs a) c i (λ b, small_ok b ri bi d) → Q ri a → wp (arena_mapbits_small_runind_get c i) a Q.
Proof. intros (b & E & Hw) HQ. apply wp_bind. eapply wp_get; [done|]. by eapply wp_lift; [eapply small_ok_runind|]. Qed.

Lemma wp_unzeroed_get a c i (Q : Z → astate S T → Prop) :
  maps_ok (hdrs a) → is_Some (hdrs a !! c) → page_in i →
  (∀ u, u = 0 ∨ u = CHUNK_MAP_UNZEROED → Q u a) → wp (arena_mapbits_unzeroed_get c i) a Q.
Proof.
  intros Hm Hc Hi HQ. destruct (bits_some _ c i Hm Hc Hi) as [b E]. apply wp_bind. eapply wp_get; [done|]. wsteps.
  apply HQ, unzeroed_cases.
Qed.

Lemma wp_free_set a c i sz fl d (Q : unit → astate S T → Prop) :
  page_in i → is_Some (hdrs a !! c) → 0 ≤ sz → sz mod PAGE = 0 →
  fl = dflag d ∨ d = false ∧ fl = CHUNK_MAP_UNZEROED →
  (∀ b, free_word b sz d → Q tt (set_hdrs (put_word (hdrs a) c i b) a)) →
  wp (arena_mapbits_unallocated_set c i sz fl) a Q.
Proof.
  intros Hi Hc H0 Hm Hf HQ. destruct (unallocated_word_ok sz fl d H0 Hm Hf) as (b & E & Hw).
  apply wp_bind. eapply wp_lift; [done|]. apply wp_set; auto.
Qed.

Lemma wp_free_size_set a c i sz sz' d (Q : unit → astate S T → Prop) :
  word_at (hdrs a) c i (λ b, free_word b sz' d) → 0 ≤ sz → sz mod PAGE = 0 →
  (∀ b, free_word b sz d → Q tt (set_hdrs (put_word (hdrs a) c i b) a)) →
  wp (arena_mapbits_unallocated_size_set c i sz) a Q.
Proof.
  intros (b & E & Hw) H0 Hm HQ. destruct (bits_page _ _ _ _ E) as [Hi Hc].
  destruct (unallocated_size_word_ok sz _ _ _ H0 Hm Hw) as (b' & E' & Hw').
  apply wp_bind. eapply wp_get; [done|]. wsteps. eapply wp_lift; [done|]. apply wp_set; auto.
Qed.

Lemma wp_large_set a c i sz d (Q : unit → astate S T → Prop) :
  maps_ok (hdrs a) → page_in i → is_Some (hdrs a !! c) → 0 ≤ sz → sz mod PAGE = 0 →
  (∀ b, large_ok b sz d → Q tt (set_hdrs (put_word (hdrs a) c i b) a)) →
  wp (arena_mapbits_large_set c i sz (dflag d)) a Q.
Proof.
  intros Hm Hi Hc H0 Hz HQ. destruct (bits_some _ c i Hm Hc Hi) as [old E].
  destruct (large_word_ok sz d old H0 Hz) as (b & Eb & Hw).
  apply wp_bind. eapply wp_get; [done|]. wsteps. eapply wp_lift; [done|]. apply wp_set; auto.
Qed.

Lemma wp_small_set a c i ri bi d (Q : unit → astate S T → Prop) :
  maps_ok (hdrs a) → page_in i → is_Some (hdrs a !! c) → 0 ≤ ri → map_bias ≤ i - ri → 0 ≤ bi < NBINS →
  (∀ b, small_ok b ri bi d → Q tt (set_hdrs (put_word (hdrs a) c i b) a)) →
  wp (arena_mapbits_small_set c i ri bi (dflag d)) a Q.
Proof.
  intros Hm Hi Hc H0 Hz Hb HQ. destruct (bits_some _ c i Hm Hc Hi) as [old E].
  destruct (small_word_ok ri bi d old H0 Hb) as (b & Eb & Hw).
  apply wp_bind. eapply wp_get; [done|]. wsteps. apply wp_check; [by apply Z.leb_le|]. wsteps.
  eapply wp_lift; [done|]. apply wp_set; auto.
Qed.

Lemma wp_unzeroed_set a c i u (Q : unit → astate S T → Prop) :
  maps_ok (hdrs a) → page_in i → is_Some (hdrs a !! c) →
  (∀ old, bits_at (hdrs a) c i = Some old → Q tt (set_hdrs (put_word (hdrs a) c i (unzeroed_word u old)) a)) →
  wp (arena_mapbits_unzeroed_set c i u) a Q.
Proof.
  intros Hm Hi Hc HQ. destruct (bits_some _ c i Hm Hc Hi) as [old E].
  apply wp_bind. eapply wp_get; [done|]. apply wp_set; auto.
Qed.

(** The trees. *)
Lemma wp_tree_insert a d X key (Q : unit → astate S T → Prop) :
  tree_runs (hdrs a) (avail d a) X → run_key key → ¬ X key →
  word_at (hdrs a) key.1 key.2 (λ b, ∃ sz, free_word b sz d) →
  (∀ t, tree_runs (hdrs a) t (λ key', X key' ∨ key' = key) → Q tt (set_avail d t a)) →
  wp (arena_avail_tree_insert d (elm key)) a Q.
Proof.
  intros Ht Hk Hx (b & E & sz & Hw) HQ. destruct (tr_insert _ _ _ key Ht Hk Hx) as (t & Et & Ht').
  unfold arena_avail_tree_insert. wsteps. apply wp_check.
  { unfold elm. rewrite (mapelm_bits_at _ _ _ b); [|apply Hk|done]. apply Z.eqb_eq. by apply (free_word_flags _ sz d). }
  wsteps. eapply wp_lift; [done|]. wsteps. by apply HQ.
Qed.

Lemma wp_tree_remove a d X key (Q : unit → astate S T → Prop) :
  tree_runs (hdrs a) (avail d a) X → X key →
  word_at (hdrs a) key.1 key.2 (λ b, ∃ sz, free_word b sz d) →
  (∀ t, tree_runs (hdrs a) t (λ key', X key' ∧ key' ≠ key) → Q tt (set_avail d t a)) →
  wp (arena_avail_tree_remove d (elm key)) a Q.
Proof.
  intros Ht Hx (b & E & sz & Hw) HQ. destruct (tr_remove _ _ _ key Ht Hx) as (t & Et & Ht').
  unfold arena_avail_tree_remove. wsteps. apply wp_check.
  { unfold elm. rewrite (mapelm_bits_at _ _ _ b); [|by apply Ht|done]. apply Z.eqb_eq. by apply (free_word_flags _ sz d). }
  wsteps. eapply wp_lift; [done|]. wsteps. by apply HQ.
Qed.

Lemma dflag_neq0 d : negb (dflag d =? 0) = d.
Proof. by destruct d. Qed.
End access.

(** Projections of states that operations have changed. *)
Ltac acbn := cbn [a_chunks hdrs runs a_mem cactive chunks_dirty spare nactive ndirty npurgatory avail_clean avail_dirty bins a_stats
  set_chunks set_hdrs set_runs set_amem set_cactive set_chunks_dirty set_spare set_nactive set_ndirty set_npurgatory
  set_avail_clean set_avail_dirty set_bins set_astats set_avail avail mapped set_mapped set_purge_stats].
Ltac acbn_in H := cbn [a_chunks hdrs runs a_mem cactive chunks_dirty spare nactive ndirty npurgatory avail_clean avail_dirty bins a_stats
  set_chunks set_hdrs set_runs set_amem set_cactive set_chunks_dirty set_spare set_nactive set_ndirty set_npurgatory
  set_avail_clean set_avail_dirty set_bins set_astats set_avail avail mapped set_mapped set_purge_stats] in H.

Section frames.
Context `{Config} {S : Type} `{CL : ChunkLayer S} {T : Type} `{OT : OrdTree T Z}.
Context `{!ChunkLayerLaws S} {FR : Frame} `{!OrdTreeLaws T Z}.
Implicit Types (a : astate S T) (h : gmap Z arena_chunk) (R : layout) (E : option (Z * Z)) (x : option Z) (c s i n : Z) (d : bool)
  (X : bool → Z * Z → Prop) (key : Z * Z).

Definition trees_ok a X : Prop := ∀ d, tree_runs (hdrs a) (avail d a) (X d).

Lemma trees_ext a X X' : (∀ d key, X d key ↔ X' d key) → trees_ok a X → trees_ok a X'.
Proof. intros HX Ht d. eapply tr_ext; [apply HX|apply Ht]. Qed.

Lemma trees_frame a h c (P : Z → Prop) X :
  words_but c P (hdrs a) h → (∀ d s, X d (c, s) → ¬ P s) → trees_ok a X → trees_ok (set_hdrs h a) X.
Proof.
  intros Hw HX Ht d. specialize (Ht d). eapply tr_frame; [|exact Ht]. acbn. intros c' s Hx.
  apply (words_but_at c P); [done|]. destruct (decide (c' = c)) as [->|]; [right; eauto|by left].
Qed.

Lemma wp_trees_insert a d X key (Q : unit → astate S T → Prop) :
  trees_ok a X → run_key key → ¬ X d key → word_at (hdrs a) key.1 key.2 (λ b, ∃ sz, free_word b sz d) →
  (∀ t, trees_ok (set_avail d t a) (λ d' key', X d' key' ∨ d' = d ∧ key' = key) → Q tt (set_avail d t a)) →
  wp (arena_avail_tree_insert d (elm key)) a Q.
Proof.
  intros Ht Hk Hx Hw HQ. eapply (wp_tree_insert a d (X d)); [apply Ht|done..|]. intros t Ht'. apply HQ. intros d'.
  acbn. destruct d, d'; (eapply tr_ext; [|first [exact Ht'|exact (Ht true)|exact (Ht false)]]); intros k'; naive_solver.
Qed.

Lemma wp_trees_remove a d X key (Q : unit → astate S T → Prop) :
  trees_ok a X → X d key → word_at (hdrs a) key.1 key.2 (λ b, ∃ sz, free_word b sz d) →
  (∀ t, trees_ok (set_avail d t a) (λ d' key', X d' key' ∧ (d' = d → key' ≠ key)) → Q tt (set_avail d t a)) →
  wp (arena_avail_tree_remove d (elm key)) a Q.
Proof.
  intros Ht Hx Hw HQ. eapply (wp_tree_remove a d (X d)); [apply Ht|done..|]. intros t Ht'. apply HQ. intros d'.
  acbn. destruct d, d'; (eapply tr_ext; [|first [exact Ht'|exact (Ht true)|exact (Ht false)]]); intros k'; naive_solver.
Qed.

(** Words that are written inside a run. *)
Lemma words_put c (P : Z → Prop) h h' i b :
  maps_ok h → words_but c P h h' → P i → page_in i → words_but c P h (put_word h' c i b).
Proof.
  intros Hm Hw Hp Hi. eapply words_but_trans; [exact Hw|].
  eapply words_but_weaken; [|apply put_word_ok; [by eapply words_but_maps|apply (words_but_dom c P h h' c Hw), Hw|done]].
  by intros j ->.
Qed.

Lemma words_but_info c P h h' c' : words_but c P h h' → hdr_info h' c' = hdr_info h c'.
Proof.
  intros Hw. unfold hdr_info. destruct (decide (c' = c)) as [->|Hc]; [|by rewrite (wb_other _ _ _ _ Hw)].
  destruct (wb_some _ _ _ _ Hw) as [ch Ec]. destruct (wb_hdr _ _ _ _ Hw ch Ec) as (m & -> & _). by rewrite Ec.
Qed.

Lemma same_dom_size h h' : (∀ c, is_Some (h' !! c) ↔ is_Some (h !! c)) → size h' = size h.
Proof.
  intros Hd. rewrite <- !size_dom. f_equal. apply set_eq. intros c. by rewrite !elem_of_dom.
Qed.

Lemma owns_frame a a' C N :
  (∀ c, is_Some (hdrs a' !! c) ↔ is_Some (hdrs a !! c)) → a_chunks a' = a_chunks a → (framed C (a_mem a) → framed C (a_mem a')) → owns a C N → owns a' C N.
Proof. intros Hd Hc Hf (L & HL & Hi & Hs & Hm). exists L. split_and!; [done| |by rewrite Hc|by apply Hf]. intros c. by rewrite Hi, Hd. Qed.

(** Writing to a chunk of its own, an arena leaves the memory of others alone. *)
Lemma owns_write a C N c f :
  owns a C N → is_Some (hdrs a !! c) → (∀ y, ¬ c ≤ y < c + chunksize → f y = a_mem a y) → framed C f.
Proof.
  intros (L & _ & HL & Hi & Hf) Hc%HL Hw. destruct (proj1 (elem_of_Permutation _ _) Hc) as [L' HL'].
  assert (Ha : Forall (ranges_apart (c, chunksize)) (((λ c, (c, chunksize)) <$> L') ++ C)).
  { eapply cl_apart. eapply cl_perm; [|reflexivity|exact Hi]. by rewrite HL'. }
  apply Forall_app in Ha as [_ Ha]. unfold framed in *. rewrite Forall_forall in *. intros r Hr y Hy. rewrite <- (Hf r Hr y Hy).
  apply Hw. destruct (Ha r Hr) as [?|?]; simpl in *; lia.
Qed.

Lemma owns_framed a C N : owns a C N → framed C (a_mem a).
Proof. by intros (L & _ & _ & _ & ?). Qed.

(** Replacing the runs inside one run. *)
Lemma lay_replace h h' R R' c s n k :
  layout_ok h R → R !! (c, s) = Some (n, k) → words_but c (λ i, s ≤ i < s + n) h h' →
  partition (λ c, is_Some (h !! c)) R' →
  (∀ c' s' n' k', R' !! (c', s') = Some (n', k') →
     ((c', s') ≠ (c, s) ∧ R !! (c', s') = Some (n', k')) ∨ run_words h' c' s' n' k') →
  layout_ok h' R'.
Proof.
  intros Hl Hr Hw Hp HR. split.
  - eapply words_but_maps; [done|apply Hl].
  - by eapply words_but_part.
  - intros c' s' n' k' E'. destruct (HR _ _ _ _ E') as [[Hne E0]|?]; [|done].
    eapply lo_frame; [done|exact Hw| |done|done|done]. done.
Qed.

(** Pages become dirty, or dirty pages are used. *)
Lemma dirty_move a a' R R' pc p x x' c n :
  dirty_ok a R pc p x →
  dirty_pages R' = dirty_pages R + n →
  (∀ c', dirty_pages_in c' R' = dirty_pages_in c' R + if decide (c' = c) then n else 0) →
  ndirty a' = u64 (ndirty a + n) → chunks_dirty a' = chunks_dirty a →
  (∀ c', hdr_info (hdrs a') c' = if decide (c' = c) then (λ '(d, nd), (d, u64 (nd + n))) <$> hdr_info (hdrs a) c' else hdr_info (hdrs a) c') →
  (∀ c' s' n', R' !! (c', s') = Some (n', Free true) → x' = Some c' ∨ (x = x' ∨ x = None) ∧ ∃ s n, R !! (c', s) = Some (n, Free true)) →
  dirty_ok a' R' pc p x'.
Proof.
  intros Hd Ht Hc Hn Hl Hh Hx. split.
  - rewrite Hn, Ht, (do_total _ _ _ _ _ Hd). unfold u64. rewrite Zplus_mod_idemp_l. f_equal. lia.
  - intros c' d nd. rewrite Hh, Hc. destruct (decide (c' = c)) as [->|Hne].
    + destruct (hdr_info (hdrs a) c) as [[d0 nd0]|] eqn:E0; [|done]. intros [= <- <-].
      rewrite (do_chunk _ _ _ _ _ Hd _ _ _ E0). unfold u64. rewrite Zplus_mod_idemp_l. f_equal. lia.
    + intros E0. rewrite (do_chunk _ _ _ _ _ Hd _ _ _ E0). f_equal. lia.
  - rewrite Hl. apply Hd.
  - intros c'. rewrite Hl, (do_listed _ _ _ _ _ Hd), Hh. destruct (decide (c' = c)) as [->|Hne]; [|done].
    destruct (hdr_info (hdrs a) c) as [[d0 nd0]|]; [|done]. split; intros [nd [= ->]]; by eexists.
  - intros c' s' n' E'. rewrite Hl. destruct (Hx _ _ _ E') as [?|[Hxx (s & n1 & E1)]]; [by left|].
    destruct (do_dirty _ _ _ _ _ Hd _ _ _ E1) as [->|?]; [|by right]. destruct Hxx as [<-|?]; [by left|done].
Qed.

Lemma dirty_keep a a' R R' pc p x :
  dirty_ok a R pc p x → dirty_pages R' = dirty_pages R → (∀ c', dirty_pages_in c' R' = dirty_pages_in c' R) →
  ndirty a' = ndirty a → chunks_dirty a' = chunks_dirty a → (∀ c', hdr_info (hdrs a') c' = hdr_info (hdrs a) c') →
  (∀ c' s' n', R' !! (c', s') = Some (n', Free true) → ∃ s n, R !! (c', s) = Some (n, Free true)) →
  dirty_ok a' R' pc p x.
Proof.
  intros Hd Ht Hc Hn Hl Hh Hx. split.
  - rewrite Hn, Ht. apply Hd.
  - intros c' d nd. rewrite Hh, Hc. apply Hd.
  - rewrite Hl. apply Hd.
  - intros c'. rewrite Hl, Hh. apply Hd.
  - intros c' s' n' E'. rewrite Hl. destruct (Hx _ _ _ E') as (s & n1 & E1). by eapply Hd.
Qed.

(** ** Changes of a header that leave its page map *)

Section alter.
Context (f : arena_chunk → arena_chunk) (Hf : ∀ ch, chunk_map (f ch) = chunk_map ch) (c : Z).

Lemma alter_bits h c' i : bits_at (alter f c h) c' i = bits_at h c' i.
Proof.
  unfold bits_at. destruct (decide (c' = c)) as [->|Hne]; [|by rewrite lookup_alter_ne]. rewrite lookup_alter_eq.
  destruct (_ && _); [|done]. destruct (h !! c); [|done]. simpl. by rewrite Hf.
Qed.

Lemma alter_some h c' : is_Some (alter f c h !! c') ↔ is_Some (h !! c').
Proof. apply lookup_alter_is_Some. Qed.

Lemma alter_maps h : maps_ok h → maps_ok (alter f c h).
Proof.
  intros Hm c' ch. destruct (decide (c' = c)) as [->|Hne]; [|rewrite lookup_alter_ne by done; apply Hm].
  rewrite lookup_alter_eq. destruct (h !! c) as [ch0|] eqn:E; [|done]. intros [= <-]. rewrite Hf. by apply Hm.
Qed.

Lemma alter_words h c' s n k : 0 < n → run_words h c' s n k → run_words (alter f c h) c' s n k.
Proof. intros Hn. apply run_words_frame; [done|]. intros. apply alter_bits. Qed.

Lemma alter_layout h R : layout_ok h R → layout_ok (alter f c h) R.
Proof.
  intros Hl. split.
  - apply alter_maps, Hl.
  - eapply part_ext; [|apply Hl]. intros c'. by rewrite alter_some.
  - intros c' s n k E. apply alter_words; [by eapply (lo_part _ _ Hl)|by apply Hl].
Qed.

Lemma alter_trees a X : trees_ok a X → trees_ok (set_hdrs (alter f c (hdrs a)) a) X.
Proof. intros Ht d. eapply tr_frame; [|apply (Ht d)]. intros. apply alter_bits. Qed.

Lemma alter_info h c' :
  hdr_info (alter f c h) c' =
    if decide (c' = c) then (λ ch, (dirtied (f ch), chunk_ndirty (f ch))) <$> h !! c' else hdr_info h c'.
Proof.
  unfold hdr_info. destruct (decide (c' = c)) as [->|Hne]; [|by rewrite lookup_alter_ne].
  rewrite lookup_alter_eq. by destruct (h !! c).
Qed.

Lemma alter_words_but P h h' :
  (∀ ch ch', dirtied ch = dirtied ch' → chunk_ndirty ch = chunk_ndirty ch' → dirtied (f ch) = dirtied (f ch') ∧ chunk_ndirty (f ch) = chunk_ndirty (f ch')) →
  words_but c P h h' → words_but c P (alter f c h) (alter f c h').
Proof.
  intros Hcong Hw. split.
  - intros c' Hne. rewrite !lookup_alter_ne by done. by apply Hw.
  - intros ch. rewrite !lookup_alter_eq. destruct (h !! c) as [ch0|] eqn:E; [|done]. intros [= <-].
    destruct (wb_hdr _ _ _ _ Hw _ E) as (m & -> & Hl). exists m. simpl. rewrite Hf. split; [|done]. f_equal.
    destruct (Hcong (ArenaChunk (dirtied ch0) (chunk_ndirty ch0) m) ch0) as [E1 E2]; [done..|].
    specialize (Hf (ArenaChunk (dirtied ch0) (chunk_ndirty ch0) m)). destruct (f (ArenaChunk _ _ _)). simpl in *. congruence.
  - apply alter_some, Hw.
  - intros i Hi. rewrite !alter_bits. by apply Hw.
Qed.
End alter.

(** [chunk->ndirty += n]. *)
Definition bump (d : bool) (n : Z) (ch : arena_chunk) : arena_chunk :=
  if d then ArenaChunk (dirtied ch) (u64 (chunk_ndirty ch + n)) (chunk_map ch) else ch.

Lemma bump_map d n ch : chunk_map (bump d n ch) = chunk_map ch.
Proof. by destruct d. Qed.

Lemma bump_words_but c d n P h h' : words_but c P h h' → words_but c P (alter (bump d n) c h) (alter (bump d n) c h').
Proof. apply alter_words_but; [apply bump_map|]. intros ch ch' E1 E2. destruct d; simpl; by rewrite ?E1, ?E2. Qed.

Lemma wp_add_dirty a c d n (Q : unit → astate S T → Prop) :
  is_Some (hdrs a !! c) →
  Q tt (set_ndirty (if d then u64 (ndirty a + n) else ndirty a) (set_hdrs (alter (bump d n) c (hdrs a)) a)) →
  wp (if d then add_dirty_pages c n else mret tt) a Q.
Proof.
  intros [ch E] HQ. destruct d.
  - unfold add_dirty_pages, chunk_get, chunk_set, add_ndirty. wsteps. eapply wp_lift; [exact E|]. wsteps. acbn.
    assert (<[c:=ArenaChunk (dirtied ch) (u64 (chunk_ndirty ch + n)) (chunk_map ch)]> (hdrs a) = alter (bump true n) c (hdrs a)) as ->; [|done].
    apply map_eq. intros c'. destruct (decide (c' = c)) as [->|Hne].
    + by rewrite lookup_insert_eq, lookup_alter_eq, E.
    + by rewrite lookup_insert_ne, lookup_alter_ne.
  - wsteps. rewrite (alter_id _ (hdrs a)) in HQ by done. by destruct a.
Qed.

(** The invariant reads only some of the fields. *)
Lemma at_same a a' R E pc p x C N :
  hdrs a' = hdrs a → (∀ d, avail d a' = avail d a) → spare a' = spare a → chunks_dirty a' = chunks_dirty a →
  ndirty a' = ndirty a → nactive a' = nactive a → mapped (a_stats a') = mapped (a_stats a) → a_chunks a' = a_chunks a →
  (framed C (a_mem a) → framed C (a_mem a')) → arena_at a R E pc p x C N → arena_at a' R E pc p x C N.
Proof.
  intros Eh Et Es El Ed En Em Ec Ef [[] [] Hact Hmap Hown].
  split; [split|split| | |]; rewrite ?Eh, ?Es, ?El, ?Ed, ?En, ?Em; try done.
  - intros d. rewrite Et. apply ac_tree0.
  - eapply owns_frame; [|exact Ec|exact Ef|exact Hown]. by rewrite Eh.
Qed.
End frames.
