(* ===== verification/ArenaRun.v ===== *)
(** * Allocating runs

    Splitting a free run, getting a chunk, and [arena_run_alloc]: the operations
    keep the invariant, get stuck nowhere, and hand out a run of the size asked
    for that was free before. *)

From S2P Require Import Prelude OrdTree Bitmap SizeClass BinInfo ArenaBits ChunkIface Arena ArenaMap ArenaTree ArenaInv.

(** ** Splitting a run *)

Section split.
Context `{Config} {S : Type} `{CL : ChunkLayer S} {T : Type} `{OT : OrdTree T Z}.
Context `{!ChunkLayerLaws S} {FR : Frame} `{!OrdTreeLaws T Z}.
Implicit Types (a : astate S T) (h : gmap Z arena_chunk) (R : layout) (c s i n m : Z) (d : bool)
  (X : bool → Z * Z → Prop) (key : Z * Z).

Lemma page_mul n : 0 ≤ n → 0 ≤ n * PAGE ∧ (n * PAGE) mod PAGE = 0.
Proof. intros. split; [change PAGE with 8192; lia|]. by apply Z.mod_mul. Qed.

(** Only the bytes from [p] on, [n] of them, may differ. *)
Definition mem_but (p n : Z) (f f' : Z → Z) : Prop := ∀ y, ¬ (p ≤ y < p + n) → f' y = f y.

Lemma mem_but_memset p n q l f f' :
  mem_but p n f f' → p ≤ q → q + l ≤ p + n → mem_but p n f (memset_bytes q 0 l f').
Proof.
  intros Hm Hq Hl y Hy. unfold memset_bytes. destruct (Z.leb_spec q y), (Z.ltb_spec y (q + l)); simpl; try by apply Hm. lia.
Qed.

Lemma wp_split_zero a c s m d (Q : unit → astate S T → Prop) :
  maps_ok (hdrs a) → is_Some (hdrs a !! c) → map_bias ≤ s → s + m ≤ chunk_npages → 0 < m →
  (∀ mem, mem_but (raddr c s) (m * PAGE) (a_mem a) mem → Q tt (set_amem mem a)) →
  wp (split_zero c s m (dflag d)) a Q.
Proof.
  intros Hm Hc Hs Hn H0 HQ. unfold split_zero, a_memset. destruct d; cbn [dflag Z.eqb CHUNK_MAP_DIRTY].
  - wsteps. apply HQ. rewrite !shiftl_page. by apply mem_but_memset; [..|unfold raddr; lia].
  - eapply (wp_for_each _ _ _ (λ _ a', ∃ mem, a' = set_amem mem a ∧ mem_but (raddr c s) (m * PAGE) (a_mem a) mem)).
    + exists (a_mem a). by destruct a.
    + intros l1 i l2 a' El (mem & -> & Hb).
      assert (Hi : i ∈ seqZ 0 m) by (rewrite El; set_solver). apply elem_of_seqZ in Hi.
      apply wp_bind. apply wp_unzeroed_get; [done..|split; lia|]. intros u _. destruct (negb (u =? 0)); wsteps.
      * eexists. split; [reflexivity|]. acbn. rewrite shiftl_page. apply mem_but_memset; [done|..]; unfold raddr; change PAGE with 8192; nia.
      * eauto.
    + intros a' (mem & -> & Hb). by apply HQ.
Qed.

Definition new_kind (large : bool) (binind : Z) (d : bool) : kind := if large then Large d else Small binind d.

(** What the caller of the splitting code promises. *)
Definition split_args (large : bool) (binind : Z) (zero : bool) : Prop :=
  if large then binind = BININD_INVALID else 0 ≤ binind < NBINS ∧ zero = false.

Lemma split_args_xor large binind zero : split_args large binind zero → large_xor_bin large binind = true.
Proof.
  unfold split_args, large_xor_bin. destruct large; [by intros ->|]. intros [[_ Hb] _]. simpl.
  rewrite (proj2 (Z.eqb_neq _ _)); [done|]. unfold NBINS, BININD_INVALID in *. lia.
Qed.

Section mark.
Context a c s m d (Hm : maps_ok (hdrs a)) (Hc : is_Some (hdrs a !! c)) (Hs : map_bias ≤ s) (Hn : s + m ≤ chunk_npages) (H0 : 0 < m).

(** The two ends of a large run, the last page first. *)
Lemma wp_mark_large (Q : unit → astate S T → Prop) :
  (∀ h, words_but c (λ i, s ≤ i < s + m) (hdrs a) h → run_words h c s m (Large d) → Q tt (set_hdrs h a)) →
  wp (arena_mapbits_large_set c (s + m - 1) 0 (dflag d);; arena_mapbits_large_set c s (m * PAGE) (dflag d)) a Q.
Proof.
  intros HQ. wsteps. apply wp_large_set; [done|split; lia|done|lia|done|]. intros b1 Hb1. acbn.
  apply wp_large_set; [by apply put_word_maps|split; lia|by apply put_word_some|apply page_mul; lia..|].
  intros b2 Hb2. acbn. apply HQ.
  - apply words_put; [done| |lia|split; lia]. apply words_put; [done| |lia|split; lia]. by apply words_but_refl.
  - split.
    + exists b2. split; [|done]. apply bits_put_eq; [by apply put_word_maps|by apply put_word_some|split; lia].
    + intros Hm1. exists b1. split; [|done]. rewrite bits_put_ne by ((split; lia) || (intros [=]; lia)).
      apply bits_put_eq; [done..|split; lia].
Qed.

(** Every page of a small run. *)
Lemma wp_mark_small binind (Q : unit → astate S T → Prop) :
  0 ≤ binind < NBINS →
  (∀ h, words_but c (λ i, s ≤ i < s + m) (hdrs a) h → run_words h c s m (Small binind d) → Q tt (set_hdrs h a)) →
  wp (arena_mapbits_small_set c s 0 binind (dflag d);;
    for_each (seqZ 1 (m - 2)) (λ i, arena_mapbits_small_set c (s + i) i binind 0);;
    arena_mapbits_small_set c (s + m - 1) (m - 1) binind (dflag d)) a Q.
Proof.
  intros Hb HQ. wsteps. apply (wp_small_set _ _ _ _ _ d); [done|split; lia|done|lia|lia|done|]. intros b0 Hb0. wsteps.
  set (flag := λ i, if (i =? 0) || (i =? m - 1) then d else false).
  eapply (wp_for_each _ _ _ (λ l a', ∃ h', a' = set_hdrs h' a ∧ words_but c (λ i, s ≤ i < s + m) (hdrs a) h' ∧
    ∀ i, i = 0 ∨ i ∈ l → word_at h' c (s + i) (λ b, small_ok b i binind (flag i)))).
  - eexists. split; [reflexivity|]. split.
    + apply words_put; [done| |lia|split; lia]. by apply words_but_refl.
    + intros i [->|Hi]; [|by apply elem_of_nil in Hi]. exists b0. split; [|done]. rewrite Z.add_0_r.
      apply bits_put_eq; [done..|split; lia].
  - intros l1 i l2 a' El (h' & -> & Hw & Hd).
    assert (Hi : i ∈ seqZ 1 (m - 2)) by (rewrite El; set_solver). apply elem_of_seqZ in Hi.
    pose proof (words_but_maps _ _ _ _ Hw Hm) as Hm'. pose proof (proj2 (words_but_dom _ _ _ _ c Hw) Hc) as Hc'.
    apply (wp_small_set _ _ _ _ _ false); [done|split; lia|done|lia|lia|done|]. intros b1 Hb1. acbn.
    eexists. split; [reflexivity|]. split; [apply words_put; [done..|lia|split; lia]|].
    intros j Hj. destruct (decide (j = i)) as [->|Hne].
    + exists b1. split; [apply bits_put_eq; [done..|split; lia]|]. unfold flag.
      rewrite (proj2 (Z.eqb_neq i 0)), (proj2 (Z.eqb_neq i (m - 1))) by lia. done.
    + eapply word_at_frame; [apply bits_put_ne; [split; lia|intros [=]; lia]|]. apply Hd. set_solver.
  - intros a' (h' & -> & Hw & Hd).
    pose proof (words_but_maps _ _ _ _ Hw Hm) as Hm'. pose proof (proj2 (words_but_dom _ _ _ _ c Hw) Hc) as Hc'.
    apply (wp_small_set _ _ _ _ _ d); [done|split; lia|done|lia|lia|done|]. intros b1 Hb1. acbn.
    apply HQ; [apply words_put; [done..|lia|split; lia]|].
    split; [done|]. intros i Hi. fold (flag i). destruct (decide (i = m - 1)) as [->|Hne].
    + exists b1. replace (s + (m - 1)) with (s + m - 1) by lia. split; [apply bits_put_eq; [done..|split; lia]|].
      unfold flag. by rewrite Z.eqb_refl, orb_true_r.
    + eapply word_at_frame; [apply bits_put_ne; [split; lia|intros [=]; lia]|]. apply Hd.
      destruct (decide (i = 0)); [by left|right]. apply elem_of_seqZ. lia.
Qed.
End mark.

Lemma wp_split_mark a c s m d large binind zero (Q : unit → astate S T → Prop) :
  maps_ok (hdrs a) → is_Some (hdrs a !! c) → map_bias ≤ s → s + m ≤ chunk_npages → 0 < m →
  split_args large binind zero →
  (∀ h mem, words_but c (λ i, s ≤ i < s + m) (hdrs a) h → run_words h c s m (new_kind large binind d) →
     mem_but (raddr c s) (m * PAGE) (a_mem a) mem → Q tt (set_amem mem (set_hdrs h a))) →
  wp (split_mark c s m (dflag d) (m * PAGE) large binind zero) a Q.
Proof.
  intros Hm Hc Hs Hn H0 Ha HQ. unfold split_mark. destruct large; simpl in Ha; apply wp_bind.
  - assert (Hz : ∀ Q', (∀ mem, mem_but (raddr c s) (m * PAGE) (a_mem a) mem → Q' tt (set_amem mem a)) →
      wp (if zero then split_zero c s m (dflag d) else mret tt) a Q').
    { intros Q' HQ'. destruct zero; [by apply wp_split_zero|]. apply wp_ret. specialize (HQ' (a_mem a)). destruct a. by apply HQ'. }
    apply Hz. intros mem Hmem. apply wp_mark_large; [done..|]. intros h Hw Hr. by apply (HQ h mem).
  - destruct Ha as [Hb ->]. apply wp_check; [done|]. apply wp_mark_small; [done..|]. intros h Hw Hr.
    by apply (HQ h (a_mem a)).
Qed.

(** The ends of the free run that remains. *)
Lemma wp_mark_free a c s n d (Q : unit → astate S T → Prop) :
  maps_ok (hdrs a) → is_Some (hdrs a !! c) → map_bias ≤ s → s + n ≤ chunk_npages → 0 < n →
  (∀ h, words_but c (λ i, s ≤ i < s + n) (hdrs a) h → run_words h c s n (Free d) → Q tt (set_hdrs h a)) →
  wp (if d then
       arena_mapbits_unallocated_set c s (n * PAGE) CHUNK_MAP_DIRTY;;
       arena_mapbits_unallocated_set c (s + n - 1) (n * PAGE) CHUNK_MAP_DIRTY
     else
       u ← arena_mapbits_unzeroed_get c s;
       arena_mapbits_unallocated_set c s (n * PAGE) u;;
       u ← arena_mapbits_unzeroed_get c (s + n - 1);
       arena_mapbits_unallocated_set c (s + n - 1) (n * PAGE) u) a Q.
Proof.
  intros Hm Hc Hs Hn H0 HQ.
  assert (Hend : ∀ b1 b2, free_word b1 (n * PAGE) d → free_word b2 (n * PAGE) d →
    Q tt (set_hdrs (put_word (put_word (hdrs a) c s b1) c (s + n - 1) b2) a)).
  { intros b1 b2 H1 H2. apply HQ.
    - apply words_put; [done| |lia|split; lia]. apply words_put; [done| |lia|split; lia]. by apply words_but_refl.
    - assert (Hl : word_at (put_word (put_word (hdrs a) c s b1) c (s + n - 1) b2) c (s + n - 1) (λ b, free_word b (n * PAGE) d)).
      { exists b2. split; [|done]. apply bits_put_eq; [by apply put_word_maps|by apply put_word_some|split; lia]. }
      split; [|done]. destruct (decide (n = 1)) as [->|Hne]; [by replace (s + 1 - 1) with s in * by lia|].
      exists b1. split; [|done]. rewrite bits_put_ne; [|split; lia|intros [=]; lia]. apply bits_put_eq; [done..|split; lia]. }
  destruct (page_mul n) as [? ?]; [lia|]. destruct d; wsteps.
  - apply (wp_free_set _ _ _ _ _ true); [split; lia|done..|by left|]. intros b1 Hb1. acbn.
    apply (wp_free_set _ _ _ _ _ true); [split; lia|by apply put_word_some|done..|by left|]. intros b2 Hb2. by apply Hend.
  - apply wp_unzeroed_get; [done..|split; lia|]. intros u Hu. wsteps.
    apply (wp_free_set _ _ _ _ _ false); [split; lia|done..|naive_solver|]. intros b1 Hb1. acbn. wsteps.
    apply wp_unzeroed_get; [by apply put_word_maps|by apply put_word_some|split; lia|]. intros u' Hu'.
    apply (wp_free_set _ _ _ _ _ false); [split; lia|by apply put_word_some|done..|naive_solver|]. intros b2 Hb2. by apply Hend.
Qed.

Lemma wp_split_rem a c s n m d X (Q : unit → astate S T → Prop) :
  maps_ok (hdrs a) → is_Some (hdrs a !! c) → map_bias ≤ s → s + n ≤ chunk_npages → 0 < m ≤ n →
  trees_ok a X → (∀ d s', X d (c, s') → ¬ s ≤ s' < s + n) →
  (∀ h t, words_but c (λ i, s + m ≤ i < s + n) (hdrs a) h → (m < n → run_words h c (s + m) (n - m) (Free d)) →
    trees_ok (set_avail d t (set_hdrs h a)) (λ d' key, X d' key ∨ m < n ∧ d' = d ∧ key = (c, s + m)) →
    Q tt (set_avail d t (set_hdrs h a))) →
  wp (split_rem c s m n (dflag d)) a Q.
Proof.
  intros Hm Hc Hs Hn Hmn Ht HX HQ. unfold split_rem. rewrite dflag_neq0, !shiftl_page. destruct (Z.ltb_spec 0 (n - m)) as [Hlt|Hge].
  - apply wp_bind. replace (s + n - 1) with (s + m + (n - m) - 1) by lia.
    apply wp_mark_free; [done|done|lia..|]. intros h Hw Hr. apply wp_bind. apply wp_mapp; [split; lia|].
    assert (Hw' : words_but c (λ i, s + m ≤ i < s + n) (hdrs a) h).
    { eapply words_but_weaken; [|exact Hw]. intros i Hi. cbv beta in *. lia. }
    destruct Hc as [ch Ec]. eapply (wp_trees_insert _ _ X).
    + eapply trees_frame; [exact Hw'| |done]. intros d' s' Hx%HX Hi. cbv beta in Hi. lia.
    + destruct (Hm _ _ Ec) as (_ & ? & ?). split_and!; [done..|split; simpl; lia].
    + intros Hx%HX. lia.
    + acbn. destruct (proj1 Hr) as (b & E & Hb). exists b. eauto.
    + intros t Htr. apply HQ; [done|by intros _|]. eapply trees_ext; [|exact Htr]. intros d' key. naive_solver lia.
  - apply wp_ret. assert (n = m) by lia. subst n.
    assert (Ea : a = set_avail d (avail d a) (set_hdrs (hdrs a) a)) by (destruct a, d; done).
    rewrite Ea. apply HQ; [by apply words_but_refl|lia|]. rewrite <- Ea. eapply trees_ext; [|exact Ht].
    intros d' key. naive_solver lia.
Qed.
End split.

Section run_split.
Context `{Config} {S : Type} `{CL : ChunkLayer S} {T : Type} `{OT : OrdTree T Z}.
Context `{!ChunkLayerLaws S} {FR : Frame} `{!OrdTreeLaws T Z}.
Implicit Types (a : astate S T) (h : gmap Z arena_chunk) (R : layout) (c s i n m : Z) (d : bool)
  (X : bool → Z * Z → Prop) (key : Z * Z).

(** What carving an allocated run out of a free one does to the counts. *)
Lemma carve_counts D R c s n m k d :
  partition D R → R !! (c, s) = Some (n, Free d) → 0 < m ≤ n → is_free k = false →
  active_pages (carve R c s n m k (Free d)) = active_pages R + m ∧
  dirty_pages (carve R c s n m k (Free d)) = dirty_pages R + (if d then - m else 0) ∧
  ∀ c', dirty_pages_in c' (carve R c s n m k (Free d)) =
    dirty_pages_in c' R + (if decide (c' = c) then if d then - m else 0 else 0).
Proof.
  intros Hp Hr Hm Hk. assert (Hd : dirty_kind k = false) by by destruct k. split_and!; [| |intros c'];
    unfold active_pages, dirty_pages, dirty_pages_in; rewrite (carve_pages D R c s n m (Free d)) by done;
    unfold weight; simpl; rewrite ?Hk, ?Hd, ?andb_false_r; simpl.
  - lia.
  - destruct d; lia.
  - case_decide as Hc; [rewrite (bool_decide_eq_true_2 (c = c')) by done|rewrite (bool_decide_eq_false_2 (c = c')) by congruence];
      destruct d; simpl; lia.
Qed.

(** A run whose tree entry is gone: no entry is inside its pages. *)
Lemma in_tree_outside D R sp E c s n d d' s' :
  partition D R → R !! (c, s) = Some (n, Free d) →
  in_tree R sp E d' (c, s') ∧ (d' = d → (c, s') ≠ (c, s)) → ¬ s ≤ s' < s + n.
Proof.
  intros Hp Hr [[[n' E'] _] Hne] Hi. destruct (decide (s' = s)) as [->|Hs].
  - rewrite Hr in E'. injection E' as <- <-. by apply Hne.
  - by rewrite (pt_inside _ _ _ _ _ _ s' Hp Hr) in E' by lia.
Qed.

Lemma carve_coalesced D R c s n m k d :
  partition D R → R !! (c, s) = Some (n, Free d) → 0 < m ≤ n → is_free k = false →
  coalesced R None → coalesced (carve R c s n m k (Free d)) None.
Proof.
  intros Hp Hr Hm Hk Hco c1 s1 n1 d1 n2. rewrite !(carve_lookup D R c s n m (Free d)) by done.
  intros [(-> & -> & [= <- <-])|[(Hlt & -> & -> & [= -> ->])|[Hne E1]]]; [done| |].
  - intros [(_ & ? & _)|[(_ & _ & ? & _)|[Hne' E2]]]; [lia|lia|].
    replace (s + m + (n - m)) with (s + n) in E2 by lia. by destruct (Hco _ _ _ _ _ Hr E2).
  - intros [(-> & -> & [= <- <-])|[(Hlt & -> & Hs & [= -> ->])|[Hne' E2]]]; [done| |by eapply Hco].
    destruct (pt_range _ _ Hp _ _ _ _ E1) as (_ & _ & ? & _).
    destruct (pt_sep _ _ Hp _ _ _ _ _ _ _ Hr E1) as [?|[?|?]]; [congruence|lia|lia].
Qed.

Lemma carve_tree D R sp c s n m k d d' key :
  partition D R → R !! (c, s) = Some (n, Free d) → 0 < m ≤ n → is_free k = false → sp ≠ Some c →
  in_tree (carve R c s n m k (Free d)) sp None d' key ↔
    (in_tree R sp None d' key ∧ (d' = d → key ≠ (c, s))) ∨ m < n ∧ d' = d ∧ key = (c, s + m).
Proof.
  intros Hp Hr Hm Hk Hsp. destruct key as [c1 s1]. unfold in_tree.
  setoid_rewrite (carve_lookup D R c s n m (Free d)); [|done..]. split.
  - intros [[n1 [(-> & -> & [= -> <-])|[(Hlt & -> & -> & [= -> ->])|[Hne E1]]]] [Hs _]]; [done|by right|left].
    split; [|done]. split_and!; [by eexists|done..].
  - intros [[[[n1 E1] [Hs _]] Hne]|(Hlt & -> & [= -> ->])].
    + split; [|done]. exists n1. right; right. split; [|done]. intros [= -> ->]. rewrite Hr in E1. injection E1 as <- <-. by apply Hne.
    + split; [|done]. exists (n - m). by right; left.
Qed.

Lemma u64_add_idemp x y : u64 (u64 x + y) = u64 (x + y).
Proof. apply Zplus_mod_idemp_l. Qed.

(** The part of the invariant about runs, once the words are written. *)
Lemma carve_core a' h R sp c s n m k d :
  layout_ok h R → R !! (c, s) = Some (n, Free d) → sp ≠ Some c → 0 < m ≤ n → is_free k = false → coalesced R None →
  words_but c (λ i, s ≤ i < s + n) h (hdrs a') → (m < n → run_words (hdrs a') c (s + m) (n - m) (Free d)) →
  run_words (hdrs a') c s m k →
  trees_ok a' (λ d' key, (in_tree R sp None d' key ∧ (d' = d → key ≠ (c, s))) ∨ m < n ∧ d' = d ∧ key = (c, s + m)) →
  spare a' = sp → (∀ c', sp = Some c' → ∃ d, R !! (c', map_bias) = Some (chunk_npages - map_bias, Free d)) →
  arena_core a' (carve R c s n m k (Free d)) None.
Proof.
  intros Hlay Hr Hsp Hm Hk Hco Hw Hr1 Hr2 Ht Es Hspare. pose proof (lo_part _ _ Hlay) as Hp. split.
  - eapply lay_replace; [exact Hlay|exact Hr|exact Hw|by eapply carve_part|].
    intros c' s' n' k'. rewrite (carve_lookup _ R c s n m (Free d)) by done.
    intros [(-> & -> & [= -> ->])|[(Hlt & -> & -> & [= -> ->])|?]]; [by right|right; by apply Hr1|by left].
  - intros d'. eapply tr_ext; [|apply Ht]. intros key. rewrite Es, (carve_tree _ R sp c s n m k d) by done. done.
  - by eapply carve_coalesced.
  - intros c'. rewrite Es. intros Hs'. destruct (Hspare _ Hs') as [d0 E0]. split; [|done]. exists d0.
    eapply carve_lookup; [exact Hp|exact Hr|done|]. right; right. split; [|done]. congruence.
Qed.

(** The state after the pages were written. *)
Lemma split_at a a' R pc p x C N c s n m k d h :
  arena_at a R None pc p x C N → R !! (c, s) = Some (n, Free d) → spare a ≠ Some c → 0 < m ≤ n → is_free k = false →
  words_but c (λ i, s + m ≤ i < s + n) (hdrs a) h → (m < n → run_words h c (s + m) (n - m) (Free d)) →
  words_but c (λ i, s ≤ i < s + m) (alter (bump d (- m)) c h) (hdrs a') → run_words (hdrs a') c s m k →
  trees_ok a' (λ d' key, (in_tree R (spare a) None d' key ∧ (d' = d → key ≠ (c, s))) ∨ m < n ∧ d' = d ∧ key = (c, s + m)) →
  spare a' = spare a → nactive a' = u64 (nactive a + m) → ndirty a' = (if d then u64 (ndirty a + - m) else ndirty a) →
  chunks_dirty a' = chunks_dirty a → a_chunks a' = a_chunks a → mapped (a_stats a') = mapped (a_stats a) → (framed C (a_mem a) → framed C (a_mem a')) →
  arena_at a' (carve R c s n m k (Free d)) None pc p x C N.
Proof.
  intros [Hcore Hdirty Hact Hmap Hown] Hr Hsp Hm Hk Hw1 Hr1 Hw2 Hr2 Ht Es En Ed El Ec Em Ef.
  destruct Hcore as [Hlay Htr Hco Hspare]. pose proof (lo_part _ _ Hlay) as Hp.
  destruct (carve_counts _ R c s n m k d Hp Hr Hm Hk) as (Ca & Cd & Cc).
  assert (Hdom : ∀ c', is_Some (hdrs a' !! c') ↔ is_Some (hdrs a !! c')).
  { intros c'. rewrite (words_but_dom _ _ _ _ c' Hw2), alter_some. by rewrite (words_but_dom _ _ _ _ c' Hw1). }
  assert (Hw : words_but c (λ i, s ≤ i < s + n) (alter (bump d (- m)) c (hdrs a)) (hdrs a')).
  { eapply words_but_trans; [apply bump_words_but|]; (eapply words_but_weaken; [|done]); intros i Hi; cbv beta in *; lia. }
  assert (Hinfo : ∀ c', hdr_info (hdrs a') c' = hdr_info (alter (bump d (- m)) c (hdrs a)) c').
  { intros c'. by rewrite (words_but_info _ _ _ _ c' Hw). }
  split.
  - eapply (carve_core _ (alter (bump d (- m)) c (hdrs a)) R (spare a)); [by apply (alter_layout _ (bump_map d (- m)))|done..| |exact Hr2|exact Ht|exact Es|].
    + intros Hlt. eapply run_words_frame; [lia| |by apply Hr1]. intros i Hi. rewrite (wb_bits _ _ _ _ Hw2) by lia.
      by rewrite alter_bits by apply bump_map.
    + intros c' E. by destruct (Hspare c' E).
  - destruct d.
    + eapply (dirty_move a a' R _ _ _ _ _ c (- m)); [done|done|done|done|done| |].
      * intros c'. rewrite Hinfo, alter_info. case_decide; [|done]. unfold hdr_info. by destruct (hdrs a !! c').
      * intros c' s' n'. rewrite (carve_lookup _ R c s n m (Free true)) by done.
        intros [(_ & _ & [= -> <-])|[(_ & -> & _)|[_ ?]]]; [done|right; split; [by left|eauto]..].
    + rewrite Z.add_0_r in Cd. eapply (dirty_keep a a'); [done|done| |done|done| |].
      * intros c'. rewrite Cc. case_decide; lia.
      * intros c'. rewrite Hinfo, alter_info. case_decide; [|done]. unfold hdr_info. by destruct (hdrs a !! c').
      * intros c' s' n'. rewrite (carve_lookup _ R c s n m (Free false)) by done.
        intros [(_ & _ & [= -> <-])|[(_ & _ & _ & [=])|[_ ?]]]; [done|eauto].
  - by rewrite En, Hact, Ca, u64_add_idemp.
  - rewrite Em, Hmap. do 3 f_equal. symmetry. by apply same_dom_size.
  - by eapply owns_frame.
Qed.

Lemma wp_add_nactive a n (Q : unit → astate S T → Prop) :
  (∀ ca, Q tt (set_nactive (u64 (nactive a + n)) (set_cactive ca a))) → wp (add_nactive n) a Q.
Proof. intros HQ. unfold add_nactive, cactive_move. wsteps. acbn. apply HQ. Qed.

(** Facts about a run of the layout, for the code that reads its words. *)
Lemma lay_run h R c s n k :
  layout_ok h R → R !! (c, s) = Some (n, k) →
  maps_ok h ∧ is_Some (h !! c) ∧ c mod chunksize = 0 ∧ 0 < c ∧ map_bias ≤ s ∧ 0 < n ∧ s + n ≤ chunk_npages ∧
  run_words h c s n k.
Proof.
  intros Hlay Hr. destruct (pt_range _ _ (lo_part _ _ Hlay) _ _ _ _ Hr) as ([ch Ec] & ? & ? & ?).
  destruct (lo_maps _ _ Hlay _ _ Ec) as (_ & ? & ?). split; [apply Hlay|]. split; [by eexists|].
  split_and!; [done..|by apply Hlay].
Qed.

Lemma at_run a R E c s n k :
  arena_core a R E → R !! (c, s) = Some (n, k) →
  maps_ok (hdrs a) ∧ is_Some (hdrs a !! c) ∧ c mod chunksize = 0 ∧ 0 < c ∧ map_bias ≤ s ∧ 0 < n ∧ s + n ≤ chunk_npages ∧
  run_words (hdrs a) c s n k.
Proof. intros Hcore. apply lay_run, Hcore. Qed.

Lemma free_run_key h c s n d : run_words h c s n (Free d) → word_at h c s (λ b, ∃ sz, free_word b sz d).
Proof. intros [(b & E & Hb) _]. exists b. eauto. Qed.

Lemma wp_run_split a R pc p x C N c s n d m large binind zero (Q : unit → astate S T → Prop) :
  arena_at a R None pc p x C N → R !! (c, s) = Some (n, Free d) → spare a ≠ Some c → 0 < m ≤ n →
  split_args large binind zero →
  (∀ a', arena_at a' (carve R c s n m (new_kind large binind d) (Free d)) None pc p x C N → kept a a' →
     spare a' = spare a → mem_but (raddr c s) (m * PAGE) (a_mem a) (a_mem a') → Q tt a') →
  wp (arena_run_split (raddr c s) (m * PAGE) large binind zero) a Q.
Proof.
  intros Ha Hr Hsp Hm Hargs HQ. pose proof (aa_core _ _ _ _ _ _ _ _ Ha) as Hcore.
  destruct (at_run _ _ _ _ _ _ _ Hcore Hr) as (Hmaps & Hc & Hcm & Hc0 & Hs & Hn & Hsn & Hrw).
  pose proof (lo_part _ _ (ac_lay _ _ _ Hcore)) as Hp.
  unfold arena_run_split. cbv zeta. rewrite raddr_base, raddr_page, shiftr_page by (done || (split; lia)).
  wsteps. apply wp_check; [by eapply split_args_xor|]. wsteps.
  eapply wp_dirty_get; [by eapply run_first|]. cbn [kdirty]. wsteps.
  eapply wp_free_size; [apply Hrw|]. wsteps. rewrite shiftr_page.
  eapply wp_dirty_get; [by eapply run_last|]. cbn [kdirty]. wsteps.
  apply wp_check; [by apply Z.eqb_eq|]. wsteps. apply wp_check; [apply Z.ltb_lt; lia|]. wsteps.
  apply wp_check; [apply Z.leb_le; lia|]. wsteps. apply wp_mapp; [split; lia|]. wsteps. rewrite dflag_neq0.
  eapply (wp_trees_remove _ _ (in_tree R (spare a) None)); [exact (ac_tree _ _ _ Hcore)|split_and!; [by eexists|done..]|by eapply free_run_key|].
  intros t Ht. wsteps. apply wp_add_nactive. intros ca. wsteps. acbn.
  eapply (wp_split_rem _ c s n m d (λ d' key, in_tree R (spare a) None d' key ∧ (d' = d → key ≠ (c, s)))); [done..| | |].
  { exact Ht. }
  { intros d' s'. by eapply in_tree_outside. }
  intros h t' Hw Hrem Ht'. wsteps. assert (Hc' : is_Some (h !! c)) by (by apply (words_but_dom _ _ _ _ c Hw)).
  apply (wp_add_dirty _ c d); [done|].
  pose proof (alter_trees _ (bump_map d (- m)) c _ _ Ht') as Ht2. acbn_in Ht2. acbn.
  apply wp_split_mark; [|by apply alter_some|lia..|done|].
  { apply alter_maps; [apply bump_map|]. by eapply words_but_maps. }
  intros h3 mem Hw3 Hr3 Hmem. acbn. apply HQ; [|done|done|exact Hmem].
  eapply split_at; [exact Ha|exact Hr|done|done|by destruct large|exact Hw|done|exact Hw3|done| |reflexivity..|].
  2: { intros _. eapply (owns_write a _ _ c); [apply Ha|exact Hc|]. acbn. intros y Hy. apply Hmem. pose proof page_facts as (? & ? & ? & _).
       unfold raddr. change PAGE with 8192 in *. nia. }
  refine (trees_frame _ h3 c (λ i, s ≤ i < s + m) _ Hw3 _ Ht2).
  intros d' s' [Hin|(? & ? & [= ->])]; [|lia]. pose proof (in_tree_outside _ _ _ _ _ _ _ _ _ _ Hp Hr Hin). lia.
Qed.
End run_split.

(** ** Chunks *)

Section chunks.
Context `{Config} {S : Type} `{CL : ChunkLayer S} {T : Type} `{OT : OrdTree T Z}.
Context `{!ChunkLayerLaws S} {FR : Frame} `{!OrdTreeLaws T Z}.
Implicit Types (a : astate S T) (h : gmap Z arena_chunk) (R : layout) (c s i n m : Z) (d : bool)
  (X : bool → Z * Z → Prop) (key : Z * Z).

Definition whole : Z := chunk_npages - map_bias.

Lemma wp_check_whole a R c d (Q : unit → astate S T → Prop) :
  layout_ok (hdrs a) R → R !! (c, map_bias) = Some (whole, Free d) → Q tt a → wp (check_whole_free c) a Q.
Proof.
  intros Hlay Hr HQ. destruct (lay_run _ _ _ _ _ _ Hlay Hr) as (_ & _ & _ & _ & _ & Hn & _ & Hrw).
  pose proof (run_first _ _ _ _ _ Hn Hrw) as H1. pose proof (run_last _ _ _ _ _ Hn Hrw) as H2.
  destruct Hrw as [W1 W2]. unfold whole in *. replace (map_bias + (chunk_npages - map_bias) - 1) with (chunk_npages - 1) in * by lia.
  destruct page_facts as (_ & _ & _ & _ & Hmax). unfold check_whole_free. wsteps.
  eapply wp_allocated_get; [exact H1|]. wsteps. apply wp_check; [done|]. wsteps.
  eapply wp_allocated_get; [exact H2|]. wsteps. apply wp_check; [done|]. wsteps.
  eapply wp_free_size; [exact W1|]. wsteps. apply wp_check; [by apply Z.eqb_eq|]. wsteps.
  eapply wp_free_size; [exact W2|]. wsteps. apply wp_check; [by apply Z.eqb_eq|]. wsteps.
  eapply wp_dirty_get; [exact H1|]. wsteps. eapply wp_dirty_get; [exact H2|]. by apply wp_check; [apply Z.eqb_eq|].
Qed.

(** The spare chunk goes back into a tree. *)
Lemma spare_tree D R c d d' key :
  partition D R → R !! (c, map_bias) = Some (whole, Free d) →
  in_tree R None None d' key ↔ in_tree R (Some c) None d' key ∨ d' = d ∧ key = (c, map_bias).
Proof.
  intros Hp Hr. destruct key as [c1 s1]. unfold in_tree. split.
  - intros [[n E] _]. destruct (decide (c1 = c)) as [->|Hne]; [right|left; split_and!; [by eexists|simpl; congruence|done]].
    pose proof (pt_whole _ _ _ _ _ _ _ _ Hp Hr eq_refl E) as ->. rewrite Hr in E. by injection E as <- <-.
  - intros [[[n E] _]|[-> [= -> ->]]]; (split; [by eexists|done]).
Qed.

Lemma spare_at a R pc p x C N c d t :
  arena_at a R None pc p x C N → spare a = Some c → R !! (c, map_bias) = Some (whole, Free d) →
  trees_ok (set_avail d t (set_spare None a)) (λ d' key, in_tree R (Some c) None d' key ∨ d' = d ∧ key = (c, map_bias)) →
  arena_at (set_avail d t (set_spare None a)) R None pc p x C N.
Proof.
  intros [Hcore Hdirty Hact Hmap Hown] Es Hr Ht. split; [|by destruct Hdirty; split|done|done|done].
  split; [apply Hcore| |apply Hcore|done]. intros d'. eapply tr_ext; [|apply Ht].
  intros key. symmetry. eapply spare_tree; [apply Hcore|done].
Qed.

Definition add_whole c R : layout := <[(c, map_bias) := (whole, Free false)]> R.

Lemma add_whole_lookup c R c1 s1 v :
  (∀ s, R !! (c, s) = None) →
  add_whole c R !! (c1, s1) = Some v ↔ (c1 = c ∧ s1 = map_bias ∧ v = (whole, Free false)) ∨ (c1 ≠ c ∧ R !! (c1, s1) = Some v).
Proof.
  intros Hn. unfold add_whole. rewrite lookup_insert_Some. split.
  - intros [[[= <- <-] <-]|[Hne E]]; [by left|right]. split; [|done]. intros ->. by rewrite Hn in E.
  - intros [(-> & -> & ->)|[Hne E]]; [by left|right]. split; [|done]. intros [= Ec _]. by subst.
Qed.

Lemma add_whole_pages c R f : (∀ s, R !! (c, s) = None) → f (c, map_bias) (Free false) = false → pages f (add_whole c R) = pages f R.
Proof. intros Hn Hf. unfold add_whole. rewrite pages_insert by done. unfold weight. cbn [snd]. by rewrite Hf. Qed.

(** The state after a chunk was added as one clean run. *)
Section new_chunk.
Context a a' R pc x C N c ch (Ha : arena_at a R None pc 0 x C N) (Es : spare a = None) (Hc : hdrs a !! c = None)
  (Ed0 : dirtied ch = false) (En0 : chunk_ndirty ch = 0) (Hm1 : maps_ok (<[c := ch]> (hdrs a)))
  (Hw : words_but c page_in (<[c := ch]> (hdrs a)) (hdrs a')) (Hrw : run_words (hdrs a') c map_bias whole (Free false))
  (Ht : trees_ok a' (λ d' key, in_tree R None None d' key ∨ d' = false ∧ key = (c, map_bias)))
  (Hown : owns a' C N) (Es' : spare a' = None) (En : nactive a' = nactive a) (Ed : ndirty a' = ndirty a)
  (El : chunks_dirty a' = chunks_dirty a) (Em : mapped (a_stats a') = u64 (mapped (a_stats a) + chunksize)).

Lemma new_chunk_none s : R !! (c, s) = None.
Proof using Ha Hc.
  destruct (R !! (c, s)) as [[n k]|] eqn:E; [|done].
  destruct (pt_range _ _ (lo_part _ _ (ac_lay _ _ _ (aa_core _ _ _ _ _ _ _ _ Ha))) _ _ _ _ E) as ([? ?] & _). congruence.
Qed.

Lemma new_chunk_core : arena_core a' (add_whole c R) None.
Proof using Ha Hc Hm1 Hw Hrw Ht Es Es'.
  pose proof new_chunk_none as Hno. destruct (aa_core _ _ _ _ _ _ _ _ Ha) as [Hlay Htr Hco Hspare].
  pose proof (lo_part _ _ Hlay) as Hp. split.
  - split; [by eapply words_but_maps| |].
    + eapply pt_new; [exact Hp|cbv beta; rewrite Hc; by intros [? ?]|]. intros c'.
      rewrite (words_but_dom _ _ _ _ c' Hw). destruct (decide (c' = c)) as [->|Hne].
      * rewrite lookup_insert_eq. split; [by right|by eexists].
      * rewrite lookup_insert_ne by done. naive_solver.
    + intros c' s n k. rewrite add_whole_lookup by done. intros [(-> & -> & [= -> ->])|[Hne E]]; [done|].
      eapply run_words_frame; [by eapply (pt_range _ _ Hp)| |by apply Hlay]. intros i _. unfold bits_at.
      rewrite (wb_other _ _ _ _ Hw) by done. by rewrite lookup_insert_ne.
  - intros d'. eapply tr_ext; [|apply Ht]. intros [c' s']. rewrite Es'. unfold in_tree. setoid_rewrite add_whole_lookup; [|done]. split.
    + intros [[[n E] _]|[-> [= -> ->]]]; (split; [|done]); [exists n; right|exists whole; by left]. split; [|done].
      intros ->. by rewrite Hno in E.
    + intros [[n [(-> & -> & [= -> ->])|[Hne E]]] _]; [by right|left]. split; [by eexists|done].
  - intros c' s n d n'. rewrite !add_whole_lookup by done. intros [(-> & -> & [= -> ->])|[Hne E]].
    + intros [(_ & E & _)|[? _]]; [|done]. destruct page_facts as (_ & ? & _). unfold whole in E. lia.
    + intros [(? & _)|[_ E']]; [done|]. by eapply Hco.
  - by rewrite Es'.
Qed.

Lemma new_chunk_dirty : dirty_ok a' (add_whole c R) pc 0 x.
Proof using Ha Hc Hw Ed0 En0 Ed El.
  pose proof new_chunk_none as Hno. pose proof (aa_dirty _ _ _ _ _ _ _ _ Ha) as Hdirty.
  assert (Hinfo : ∀ c', hdr_info (hdrs a') c' = if decide (c' = c) then Some (false, 0) else hdr_info (hdrs a) c').
  { intros c'. rewrite (words_but_info _ _ _ _ c' Hw). unfold hdr_info. case_decide as Hc'.
    - subst c'. rewrite lookup_insert_eq. simpl. by rewrite Ed0, En0.
    - by rewrite lookup_insert_ne. }
  split.
  - unfold dirty_pages. rewrite add_whole_pages, Ed by done. apply Hdirty.
  - intros c' d nd. unfold dirty_pages_in. rewrite add_whole_pages, Hinfo by (done || apply andb_false_r).
    case_decide as Hc'; [|by eapply Hdirty]. intros [= <- <-]. subst c'. rewrite pages_zero; [by case_decide|].
    intros [c' s] [n k] E. simpl. rewrite bool_decide_eq_false_2; [done|]. intros ->. by rewrite Hno in E.
  - rewrite El. apply Hdirty.
  - intros c'. rewrite El, Hinfo, (do_listed _ _ _ _ _ Hdirty). case_decide as Hc'; [|done]. subst c'.
    unfold hdr_info. rewrite Hc. split; [by intros [? ?]|]. by intros [nd [=]].
  - intros c' s n. rewrite add_whole_lookup by done. intros [(_ & _ & [=])|[_ E]]. rewrite El. by eapply Hdirty.
Qed.

Lemma new_chunk_at : arena_at a' (add_whole c R) None pc 0 x C N.
Proof using All.
  split; [apply new_chunk_core|apply new_chunk_dirty| | |done].
  - rewrite En, (aa_active _ _ _ _ _ _ _ _ Ha). unfold active_pages. rewrite add_whole_pages; [done|apply new_chunk_none|done].
  - rewrite Em, (aa_mapped _ _ _ _ _ _ _ _ Ha), u64_add_idemp. f_equal. rewrite (same_dom_size (<[c := ch]> (hdrs a)) (hdrs a')).
    + rewrite map_size_insert_None by done. lia.
    + intros c'. by rewrite (words_but_dom _ _ _ _ c' Hw).
Qed.
End new_chunk.
Context (old_word : Z → Z → Z).

Lemma new_map_length c zero : length (new_map old_word c zero) = map_length.
Proof.
  unfold new_map, map_length. destruct zero; [by rewrite length_replicate|]. by rewrite length_fmap, length_seqZ.
Qed.

(** The pages between the ends, when the chunk is not known to be zeroed. *)
Lemma wp_new_map_mid a c (zero : bool) un b1 (Q : unit → astate S T → Prop) :
  maps_ok (hdrs a) → is_Some (hdrs a !! c) → bits_at (hdrs a) c map_bias = Some b1 →
  (∀ h, words_but c page_in (hdrs a) h → bits_at h c map_bias = Some b1 → Q tt (set_hdrs h a)) →
  wp (if negb zero then
       for_each (seqZ (map_bias + 1) (chunk_npages - 1 - (map_bias + 1))) (λ i, arena_mapbits_unzeroed_set c i un)
     else mret tt) a Q.
Proof.
  intros Hm Hc Hb1 HQ. destruct zero; cbn [negb].
  { apply wp_ret. specialize (HQ (hdrs a)). destruct a. apply HQ; [by apply words_but_refl|done]. }
  eapply (wp_for_each _ _ _ (λ _ a', ∃ h, a' = set_hdrs h a ∧ words_but c page_in (hdrs a) h ∧ bits_at h c map_bias = Some b1)).
  - exists (hdrs a). split; [by destruct a|]. split; [by apply words_but_refl|done].
  - intros l1 i l2 a' El (h & -> & Hw & Hbb).
    assert (Hi : i ∈ seqZ (map_bias + 1) (chunk_npages - 1 - (map_bias + 1))) by (rewrite El; set_solver). apply elem_of_seqZ in Hi.
    assert (page_in i) by (unfold page_in; lia).
    apply wp_unzeroed_set; [by eapply words_but_maps|done|by apply (words_but_dom _ _ _ _ c Hw)|]. intros old _. acbn.
    eexists. split; [reflexivity|]. split; [by apply words_put|]. rewrite bits_put_ne; [done|done|intros [=]; lia].
  - intros a' (h & -> & Hw & Hbb). by apply HQ.
Qed.

(** The page map of a new chunk. *)
Lemma wp_new_map a c (zero : bool) (Q : unit → astate S T → Prop) :
  let un := if zero then 0 else CHUNK_MAP_UNZEROED in
  maps_ok (hdrs a) → is_Some (hdrs a !! c) →
  (∀ h, words_but c page_in (hdrs a) h → run_words h c map_bias whole (Free false) → Q tt (set_hdrs h a)) →
  wp (arena_mapbits_unallocated_set c map_bias arena_maxclass un;;
    (if negb zero then
       for_each (seqZ (map_bias + 1) (chunk_npages - 1 - (map_bias + 1))) (λ i, arena_mapbits_unzeroed_set c i un)
     else mret tt);;
    arena_mapbits_unallocated_set c (chunk_npages - 1) arena_maxclass un) a Q.
Proof.
  intros un Hm Hc HQ. destruct page_facts as (Hb & Hbn & _ & _ & Hmax). destruct (page_mul whole) as [Hw0 Hwm]; [unfold whole; lia|].
  fold whole in Hmax. rewrite Hmax.
  assert (Hun : un = dflag false ∨ false = false ∧ un = CHUNK_MAP_UNZEROED) by (unfold un; destruct zero; [by left|by right]).
  assert (Hpi : page_in map_bias ∧ page_in (chunk_npages - 1)) by (unfold page_in; lia). destruct Hpi as [Hp1 Hp2].
  apply wp_bind. apply (wp_free_set _ _ _ _ _ false); [done..|]. intros b1 Hb1. acbn.
  assert (Hw1 : words_but c page_in (hdrs a) (put_word (hdrs a) c map_bias b1)) by (apply words_put; [done| |done..]; by apply words_but_refl).
  apply wp_bind. apply (wp_new_map_mid _ _ _ _ b1); [by apply put_word_maps|by apply put_word_some|by apply bits_put_eq|].
  intros h Hw2 Hbb. pose proof (words_but_trans _ _ _ _ _ Hw1 Hw2) as Hw.
  pose proof (words_but_maps _ _ _ _ Hw Hm) as Hm'. pose proof (proj2 (words_but_dom _ _ _ _ c Hw) Hc) as Hc'.
  apply (wp_free_set _ _ _ _ _ false); [done..|]. intros b2 Hb2. acbn. apply HQ; [by apply words_put|].
  assert (El : chunk_npages - 1 = map_bias + whole - 1) by (unfold whole; lia).
  assert (Hl : word_at (put_word h c (chunk_npages - 1) b2) c (chunk_npages - 1) (λ b, free_word b (whole * PAGE) false)).
  { exists b2. split; [by apply bits_put_eq|done]. }
  split; [|by rewrite El in Hl at 2]. destruct (decide (whole = 1)) as [E1|Hne].
  - assert (El' : chunk_npages - 1 = map_bias) by lia. by rewrite El' in Hl at 2.
  - exists b1. split; [|done]. rewrite bits_put_ne; [done|done|intros [=]; lia].
Qed.

Lemma chunk_request_chunk : chunk_request chunksize chunksize.
Proof.
  pose proof lg_chunk_range. pose proof maxclass_facts as (_ & _ & _ & _ & ? & ?). split_and!; [|lia|lia|by apply Z.mod_same; lia].
  exists opt_lg_chunk. split; [lia|]. apply chunksize_pow2.
Qed.

(** The arena asked the chunk layer for a chunk and got none. *)
Definition chunk_refused a a' : Prop := ∃ z, cl_alloc chunksize chunksize false (a_chunks a) = Some ((None, z), a_chunks a').

(** A chunk the chunk layer hands out is new to the arena. *)
Lemma wp_cl_alloc a C N (Q : option Z * bool → astate S T → Prop) :
  owns a C N →
  (∀ r z (s' : S), match r with
     | None => chunk_refused a (set_chunks s' a) ∧ owns (set_chunks s' a) C N
     | Some c => hdrs a !! c = None ∧ c mod chunksize = 0 ∧ 0 < c ∧
         ∀ h, (∀ c', is_Some (h !! c') ↔ c' = c ∨ is_Some (hdrs a !! c')) → owns (set_hdrs h (set_chunks s' a)) C N
     end → Q (r, z) (set_chunks s' a)) →
  wp (on_chunks (cl_alloc chunksize chunksize false)) a Q.
Proof.
  intros (L & HL & Hd & Hs & Hf) HQ. destruct (cl_alloc_ok _ _ _ chunksize chunksize false Hs chunk_request_chunk) as (r & z & s' & E & Hr).
  unfold wp, on_chunks. rewrite E. apply HQ. destruct r as [c|]; [|split; [by exists z|by exists L]]. destruct Hr as [Hc Hi].
  pose proof (cl_range _ _ _ _ _ Hi) as (Hc0 & _). pose proof (cl_apart _ _ _ _ Hi) as Ha.
  assert (Hn : c ∉ L).
  { intros Hin. rewrite Forall_forall in Ha. specialize (Ha (c, chunksize)).
    assert (Ha' : ranges_apart (c, chunksize) (c, chunksize)) by (apply Ha, elem_of_app; left; apply list_elem_of_fmap; eauto).
    pose proof chunksize_pos. destruct Ha'; simpl in *; lia. }
  split_and!; [|done|done|].
  { destruct (hdrs a !! c) eqn:Ec; [|done]. exfalso. apply Hn, Hd. by eexists. }
  intros h Hh. exists (c :: L). split_and!; [by constructor| |done|done]. intros c'. acbn. by rewrite elem_of_cons, Hh, Hd.
Qed.

(** What [arena_chunk_alloc] does to the layout. *)
Definition chunk_got a R (r : option Z) R' : Prop :=
  match r with
  | None => spare a = None ∧ R' = R
  | Some c =>
      (spare a = Some c ∧ R' = R ∧ ∃ d, R !! (c, map_bias) = Some (whole, Free d)) ∨
      (spare a = None ∧ hdrs a !! c = None ∧ R' = add_whole c R)
  end.

Lemma wp_chunk_alloc_spare a R pc p x C N c (Q : option Z → astate S T → Prop) :
  arena_at a R None pc p x C N → spare a = Some c →
  (∀ a', arena_at a' R None pc p x C N → kept a a' → a_mem a' = a_mem a → spare a' = None → hdrs a' = hdrs a →
     chunks_dirty a' = chunks_dirty a → Q (Some c) a') →
  wp (arena_chunk_alloc old_word) a Q.
Proof.
  intros Ha Es HQ. pose proof (aa_core _ _ _ _ _ _ _ _ Ha) as Hcore. destruct (ac_spare _ _ _ Hcore c Es) as [[d Hr] _].
  fold whole in Hr. destruct (at_run _ _ _ _ _ _ _ Hcore Hr) as (_ & _ & Hcm & Hc0 & _ & Hn & _ & Hrw).
  assert (Hpb : page_in map_bias) by (destruct page_facts as (_ & ? & _); split; lia).
  unfold arena_chunk_alloc. wsteps. unfold id. rewrite Es. wsteps.
  eapply wp_check_whole; [exact (ac_lay _ _ _ Hcore)|exact Hr|]. wsteps. eapply wp_dirty_get; [by eapply run_first|]. wsteps. apply wp_mapp; [done|]. wsteps. rewrite dflag_neq0.
  eapply (wp_trees_insert _ _ (in_tree R (Some c) None)).
  - intros d'. pose proof (ac_tree _ _ _ Hcore d') as Ht. by rewrite Es in Ht.
  - by split_and!.
  - by intros (_ & ? & _).
  - by eapply free_run_key.
  - intros t Ht. wsteps. apply HQ; [by eapply spare_at|done..].
Qed.

Lemma wp_chunk_alloc_new a R pc x C N (Q : option Z → astate S T → Prop) :
  arena_at a R None pc 0 x C N → spare a = None →
  (∀ r a' R', arena_at a' R' None pc 0 x C N → kept a a' → a_mem a' = a_mem a → spare a' = None →
     match r with None => chunk_refused a a' ∧ R' = R | Some c => hdrs a !! c = None ∧ R' = add_whole c R end → Q r a') →
  wp (arena_chunk_alloc old_word) a Q.
Proof.
  intros Ha Es HQ. unfold arena_chunk_alloc. wsteps. unfold id. rewrite Es. wsteps.
  eapply wp_cl_alloc; [apply Ha|]. intros r z s' Hr. cbv beta iota. destruct r as [c|]; wsteps.
  2:{ destruct Hr as [Hre Hr]. apply (HQ None _ R); [|done..]. destruct Ha as [Hcore Hdirty Hact Hmap _]. by split; [destruct Hcore|destruct Hdirty|..]. }
  destruct Hr as (Hn & Hcm & Hc0 & Hown). unfold on_stats, chunk_set. wsteps. acbn.
  set (ch := ArenaChunk false 0 (new_map old_word c z)).
  assert (Hm1 : maps_ok (<[c := ch]> (hdrs a))).
  { intros c' ch'. rewrite lookup_insert_Some. intros [[<- <-]|[_ E]]; [|by eapply (lo_maps _ _ (ac_lay _ _ _ (aa_core _ _ _ _ _ _ _ _ Ha)))].
    split_and!; [apply new_map_length|done..]. }
  assert (Hpb : page_in map_bias) by (destruct page_facts as (_ & ? & _); split; lia).
  apply wp_block3. apply wp_new_map; [done|acbn; rewrite lookup_insert_eq; by eexists|].
  intros h Hw Hrw. acbn_in Hw. wsteps. apply wp_mapp; [done|]. wsteps.
  assert (Hnot : ∀ d' s1, ¬ in_tree R None None d' (c, s1)).
  { intros d' s1 [[n E] _]. by rewrite (new_chunk_none _ _ _ _ _ _ _ Ha Hn) in E. }
  eapply (wp_trees_insert _ _ (in_tree R None None)).
  - intros d'. pose proof (ac_tree _ _ _ (aa_core _ _ _ _ _ _ _ _ Ha) d') as Ht. rewrite Es in Ht.
    eapply tr_frame; [|exact Ht]. intros c1 s1 Hin. acbn. destruct (decide (c1 = c)) as [->|Hne]; [by apply Hnot in Hin|].
    unfold bits_at. rewrite (wb_other _ _ _ _ Hw) by done. by rewrite lookup_insert_ne.
  - by split_and!.
  - apply Hnot.
  - by eapply free_run_key.
  - intros t Ht. wsteps. apply (HQ (Some c) _ (add_whole c R)); [|done..].
    apply (new_chunk_at a _ R pc x C N c ch); [done..| |done|done|done|done|done].
    apply (Hown h). intros c'. rewrite (words_but_dom _ _ _ _ c' Hw). destruct (decide (c' = c)) as [->|Hne].
    + rewrite lookup_insert_eq. split; [by left|by eexists].
    + rewrite lookup_insert_ne by done. naive_solver.
Qed.

Lemma wp_chunk_alloc a R pc x C N (Q : option Z → astate S T → Prop) :
  arena_at a R None pc 0 x C N →
  (∀ r a' R', arena_at a' R' None pc 0 x C N → kept a a' → a_mem a' = a_mem a → spare a' = None →
     chunk_got a R r R' → (r = None → chunk_refused a a') → Q r a') →
  wp (arena_chunk_alloc old_word) a Q.
Proof.
  intros Ha HQ. destruct (spare a) as [c|] eqn:Es.
  - eapply wp_chunk_alloc_spare; [done..|]. intros a' Ha' Hk Hm Es' _ _. apply (HQ _ _ R); [done..| |done].
    left. split_and!; [done..|]. apply (ac_spare _ _ _ (aa_core _ _ _ _ _ _ _ _ Ha) c Es).
  - eapply wp_chunk_alloc_new; [done..|]. intros r a' R' Ha' Hk Hm Es' Hr. destruct r as [c|]; apply (HQ _ _ R'); [done..|right; naive_solver|done|done|done|done|done|split; [done|apply Hr]|intros _; apply Hr].
Qed.
End chunks.

(** ** Allocating a run *)

Section run_alloc.
Context `{Config} {S : Type} `{CL : ChunkLayer S} {T : Type} `{OT : OrdTree T Z}.
Context `{!ChunkLayerLaws S} {FR : Frame} `{!OrdTreeLaws T Z}.
Context (old_word : Z → Z → Z).
Implicit Types (a : astate S T) (h : gmap Z arena_chunk) (R : layout) (c s i n m : Z) (d : bool) (key : Z * Z).

Lemma in_tree_size a R E d c s n :
  arena_core a R E → R !! (c, s) = Some (n, Free d) → key_size (hdrs a) (c, s) = n * PAGE.
Proof.
  intros Hcore Hr. destruct (at_run _ _ _ _ _ _ _ Hcore Hr) as (_ & _ & Hcm & _ & _ & _ & _ & Hrw).
  destruct (proj1 Hrw) as (b & Eb & _ & Hs & _). unfold key_size, entry_size, elm. cbn [fst snd].
  by rewrite (mapelm_bits_at _ _ _ b).
Qed.

Definition is_spare a c : Prop := spare a = Some c.

(** The search finds the smallest run of a tree that is large enough. *)
Lemma wp_avail_nsearch a R d m (Q : option Z → astate S T → Prop) :
  arena_core a R None → 0 ≤ m →
  ((∀ c s n, R !! (c, s) = Some (n, Free d) → ¬ is_spare a c → n < m) → Q None a) →
  (∀ c s n, R !! (c, s) = Some (n, Free d) → ¬ is_spare a c → m ≤ n →
     (∀ c' s' n', R !! (c', s') = Some (n', Free d) → ¬ is_spare a c' → m ≤ n' → n ≤ n') → Q (Some (elm (c, s))) a) →
  wp (arena_avail_tree_nsearch d (Z.lor (m * PAGE) CHUNK_MAP_KEY)) a Q.
Proof.
  intros Hcore Hm Hnone Hsome. unfold arena_avail_tree_nsearch. wsteps. unfold id. destruct (page_mul m Hm) as [? ?].
  pose proof (tr_nsearch _ _ _ (m * PAGE) ltac:(done) ltac:(done) (ac_tree _ _ _ Hcore d)) as Hn.
  assert (Hin : ∀ c s n, R !! (c, s) = Some (n, Free d) → ¬ is_spare a c → in_tree R (spare a) None d (c, s)).
  { intros c s n E Hs. split_and!; [by eexists|done..]. }
  destruct (ot_nsearch _ _) as [y|].
  - destruct Hn as ([c s] & -> & ((n & E) & Hs & _) & Hle & Hmin). rewrite (in_tree_size _ _ _ _ _ _ _ Hcore E) in Hle, Hmin.
    apply (Hsome c s n); [done..|change PAGE with 8192 in *; lia|]. intros c' s' n' E' Hs' Hle'.
    specialize (Hmin _ (Hin _ _ _ E' Hs')). rewrite (in_tree_size _ _ _ _ _ _ _ Hcore E') in Hmin.
    change PAGE with 8192 in *. lia.
  - apply Hnone. intros c s n E Hs. specialize (Hn _ (Hin _ _ _ E Hs)). rewrite (in_tree_size _ _ _ _ _ _ _ Hcore E) in Hn.
    change PAGE with 8192 in *. lia.
Qed.

(** The run that best fit chooses, dirty runs first. *)
Definition best_fit a R m c s n d : Prop :=
  R !! (c, s) = Some (n, Free d) ∧ ¬ is_spare a c ∧ m ≤ n ∧
  (∀ c' s' n', R !! (c', s') = Some (n', Free d) → ¬ is_spare a c' → m ≤ n' → n ≤ n') ∧
  (d = false → ∀ c' s' n', R !! (c', s') = Some (n', Free true) → ¬ is_spare a c' → n' < m).

Definition no_fit a R m : Prop := ∀ c s n d, R !! (c, s) = Some (n, Free d) → ¬ is_spare a c → n < m.

(** The run [(c, s)] was cut from a free one. *)
Record run_cut a R C N m k a' c s : Prop := {
  rc_at n d : R !! (c, s) = Some (n, Free d) → arena_inv a' (carve R c s n m (k d) (Free d)) C N;
  rc_kept : kept a a';
  rc_mem : mem_but (raddr c s) (m * PAGE) (a_mem a) (a_mem a')
}.

Lemma wp_helper a R C N m large binind zero (Q : option Z → astate S T → Prop) :
  arena_inv a R C N → 0 < m → split_args large binind zero →
  (no_fit a R m → Q None a) →
  (∀ c s n d a', best_fit a R m c s n d → run_cut a R C N m (new_kind large binind) a' c s → Q (Some (raddr c s)) a') →
  wp (arena_run_alloc_helper (m * PAGE) large binind zero) a Q.
Proof.
  intros Ha Hm Hargs Hnone Hsome. pose proof (aa_core _ _ _ _ _ _ _ _ Ha) as Hcore.
  assert (Hcut : ∀ c s n d, best_fit a R m c s n d → wp (arena_run_split (mapelm_run (elm (c, s))) (m * PAGE) large binind zero;;
    mret (Some (mapelm_run (elm (c, s))))) a Q).
  { intros c s n d Hbest. pose proof Hbest as (Hr & Hs & Hle & _).
    destruct (at_run _ _ _ _ _ _ _ Hcore Hr) as (_ & _ & Hcm & _ & ? & ? & ? & _).
    unfold elm. cbn [fst snd]. rewrite mapelm_run_ok by (done || (split; lia)). wsteps.
    eapply wp_run_split; [exact Ha|exact Hr|done|lia|done|]. intros a' Ha' Hk Hsp Hmem. wsteps. eapply Hsome; [done|].
    split; [|done..]. intros n' d' Hr'. rewrite Hr in Hr'. by injection Hr' as <- <-. }
  unfold arena_run_alloc_helper. cbv zeta. apply wp_bind. eapply (wp_avail_nsearch _ R true); [done|lia| |].
  - intros Hno1. apply wp_bind. eapply (wp_avail_nsearch _ R false); [done|lia| |].
    + intros Hno2. apply wp_ret, Hnone. intros c s n [] E Hs; eauto.
    + intros c s n E Hs Hle Hmin. eapply Hcut. split_and!; [done..|eauto].
  - intros c s n E Hs Hle Hmin. eapply Hcut. by split_and!.
Qed.

Lemma carve_allocated D R c s n m k d :
  partition D R → R !! (c, s) = Some (n, Free d) → 0 < m ≤ n → is_free k = false →
  allocated (carve R c s n m k (Free d)) = <[(c, s) := (m, k)]> (allocated R).
Proof.
  intros Hp Hr Hm Hk. apply map_eq. intros [c1 s1]. apply option_eq. intros v.
  rewrite allocated_lookup, (carve_lookup D R c s n m (Free d)), lookup_insert_Some, allocated_lookup by done. split.
  - intros [[(-> & -> & ->)|[(_ & _ & _ & ->)|[Hne E]]] Hf]; [by left|done|right]. split; [congruence|done].
  - intros [[[= <- <-] <-]|[Hne [E Hf]]]; [split; [by left|done]|]. split; [|done]. right; right. split; [congruence|done].
Qed.

Lemma add_whole_allocated c R : (∀ s, R !! (c, s) = None) → allocated (add_whole c R) = allocated R.
Proof.
  intros Hn. apply allocated_ext. intros [c1 s1] v Hf. rewrite add_whole_lookup by done. split.
  - intros [(-> & -> & ->)|[_ E]]; [done|done].
  - intros E. right. split; [|done]. intros ->. by rewrite Hn in E.
Qed.

(** The new run is cut from the chunk that [arena_chunk_alloc] got. *)
Lemma chunk_got_run a R R1 C N c :
  arena_inv a R C N → chunk_got a R (Some c) R1 →
  allocated R1 = allocated R ∧ ∃ d, R1 !! (c, map_bias) = Some (whole, Free d).
Proof.
  intros Ha [(Es & -> & Hd)|(Es & Hn & ->)]; [done|].
  pose proof (new_chunk_none _ _ _ _ _ _ _ Ha Hn) as Hno. split; [by apply add_whole_allocated|].
  exists false. unfold add_whole. by rewrite lookup_insert_eq.
Qed.

Lemma wp_run_alloc a R C N m large binind zero (Q : option Z → astate S T → Prop) :
  arena_inv a R C N → 0 < m ≤ whole → split_args large binind zero →
  (∀ a', no_fit a R m → spare a = None ∧ chunk_refused a a' → arena_inv a' R C N → kept a a' → a_mem a' = a_mem a → Q None a') →
  (∀ a' R' c s d, arena_inv a' R' C N → kept a a' → mem_but (raddr c s) (m * PAGE) (a_mem a) (a_mem a') →
     allocated R !! (c, s) = None → allocated R' = <[(c, s) := (m, new_kind large binind d)]> (allocated R) →
     Q (Some (raddr c s)) a') →
  wp (arena_run_alloc old_word (m * PAGE) large binind zero) a Q.
Proof.
  intros Ha Hm Hargs Hnone Hsome. destruct page_facts as (_ & _ & _ & _ & Hmax). fold whole in Hmax.
  assert (Hnf : ∀ d, is_free (new_kind large binind d) = false) by by destruct large.
  unfold arena_run_alloc. wsteps. apply wp_check; [apply Z.leb_le; rewrite Hmax; change PAGE with 8192; lia|]. wsteps.
  apply wp_check; [apply Z.eqb_eq, size_mask; apply page_mul; lia|]. wsteps.
  apply wp_check; [by eapply split_args_xor|]. wsteps.
  eapply wp_helper; [done|lia|done| |].
  2:{ intros c s n d a' (Hr & _ & Hle & _) [Hat Hk Hmem]. wsteps. eapply (Hsome a' _ c s d); [by eapply Hat|done|done|..].
      - by eapply allocated_free.
      - eapply carve_allocated; [apply (aa_core _ _ _ _ _ _ _ _ Ha)|done|lia|done]. }
  intros Hno. wsteps. eapply wp_chunk_alloc; [exact Ha|]. intros r a1 R1 Ha1 Hk1 Hm1 Es1 Hgot Href. destruct r as [c|].
  - destruct (chunk_got_run a R R1 C N c Ha Hgot) as (Hal & d & Hr). wsteps. rewrite shiftl_page.
    eapply wp_run_split; [exact Ha1|exact Hr|by rewrite Es1|lia|done|]. intros a2 Ha2 Hk2 _ Hmem. wsteps.
    eapply (Hsome a2 _ c map_bias d); [exact Ha2|by eapply kept_trans|by rewrite <- Hm1|..].
    + rewrite <- Hal. by eapply allocated_free.
    + rewrite <- Hal. eapply carve_allocated; [apply (aa_core _ _ _ _ _ _ _ _ Ha1)|done|lia|done].
  - destruct Hgot as [Es ->].
    assert (Hno1 : no_fit a1 R m).
    { intros c s n d E _. apply (Hno c s n d E). unfold is_spare. by rewrite Es. }
    eapply wp_helper; [exact Ha1|lia|done| |].
    + intros _. apply Hnone; [done|split; [done|by apply Href]|done..].
    + intros c s n d a' (Hr & Hs & Hle & _) _. specialize (Hno1 _ _ _ _ Hr Hs). lia.
Qed.
End run_alloc.
