(* ===== verification/ArenaDalloc.v ===== *)
(** * Deallocating runs

    [arena_run_dalloc] marks a run free, coalesces it with its neighbours, puts
    it in a tree, and gives up the chunk when all of it is free.  Exactly that
    run leaves the layout of allocated runs. *)

From S2P Require Import Prelude OrdTree Bitmap SizeClass BinInfo ArenaBits ChunkIface Arena ArenaMap ArenaTree ArenaInv ArenaRun.

(** ** Marking a run free *)

Section freed.
Context `{Config} {S : Type} `{CL : ChunkLayer S} {T : Type} `{OT : OrdTree T Z}.
Context `{!ChunkLayerLaws S} {FR : Frame} `{!OrdTreeLaws T Z}.
Implicit Types (a : astate S T) (h : gmap Z arena_chunk) (R : layout) (c s i n m : Z) (d : bool) (key : Z * Z) (k : kind).

Definition freed c s n d R : layout := <[(c, s) := (n, Free d)]> R.

Lemma freed_counts R c s n k d :
  R !! (c, s) = Some (n, k) → is_free k = false →
  active_pages (freed c s n d R) = active_pages R - n ∧
  dirty_pages (freed c s n d R) = dirty_pages R + (if d then n else 0) ∧
  ∀ c', dirty_pages_in c' (freed c s n d R) = dirty_pages_in c' R + (if decide (c' = c) then if d then n else 0 else 0).
Proof.
  intros Hr Hk. assert (Hd : dirty_kind k = false) by by destruct k. split_and!; [| |intros c'];
    unfold active_pages, dirty_pages, dirty_pages_in, freed; rewrite (pages_update _ _ _ _ _ Hr);
    unfold weight; simpl; rewrite ?Hk, ?Hd, ?andb_false_r; simpl.
  - lia.
  - destruct d; lia.
  - case_decide as Hc; [rewrite (bool_decide_eq_true_2 (c = c')) by done|rewrite (bool_decide_eq_false_2 (c = c')) by congruence];
      destruct d; simpl; lia.
Qed.

Lemma freed_lookup R c s n d c1 s1 v :
  freed c s n d R !! (c1, s1) = Some v ↔ (c1 = c ∧ s1 = s ∧ v = (n, Free d)) ∨ ((c1, s1) ≠ (c, s) ∧ R !! (c1, s1) = Some v).
Proof. unfold freed. rewrite lookup_insert_Some. naive_solver. Qed.

Lemma freed_tree R sp c s n k d d' key :
  R !! (c, s) = Some (n, k) → is_free k = false →
  in_tree (freed c s n d R) sp (Some (c, s)) d' key ↔ in_tree R sp None d' key.
Proof.
  intros Hr Hk. destruct key as [c1 s1]. unfold in_tree. setoid_rewrite freed_lookup. split.
  - intros [[n1 [(-> & -> & _)|[Hne E]]] [? HE]]; [done|]. split; [by eexists|done].
  - intros [[n1 E] [? _]]. assert ((c1, s1) ≠ (c, s)) by (intros [= -> ->]; rewrite Hr in E; by injection E as <- ->).
    split; [|split; congruence]. exists n1. by right.
Qed.

Lemma freed_allocated R c s n d : allocated (freed c s n d R) = delete (c, s) (allocated R).
Proof.
  apply map_eq. intros [c1 s1]. apply option_eq. intros v. rewrite allocated_lookup, freed_lookup, lookup_delete_Some, allocated_lookup.
  split; [intros [[(-> & -> & ->)|[Hne E]] Hf]|intros [Hne [E Hf]]]; [done|split_and!; congruence|]. split; [right; split; congruence|done].
Qed.

(** The state after the ends of the run were marked. *)
Lemma freed_at a a' R pc p C N c s n k d h :
  arena_at a R None pc p None C N → R !! (c, s) = Some (n, k) → is_free k = false →
  words_but c (λ i, s ≤ i < s + n) (hdrs a) h → run_words h c s n (Free d) → hdrs a' = alter (bump d n) c h →
  (∀ d', avail d' a' = avail d' a) →
  spare a' = spare a → nactive a' = u64 (nactive a + - n) → ndirty a' = (if d then u64 (ndirty a + n) else ndirty a) →
  chunks_dirty a' = chunks_dirty a → a_chunks a' = a_chunks a → mapped (a_stats a') = mapped (a_stats a) → (framed C (a_mem a) → framed C (a_mem a')) →
  arena_at a' (freed c s n d R) (Some (c, s)) pc p (if d then Some c else None) C N.
Proof.
  intros [Hcore Hdirty Hact Hmap Hown] Hr Hk Hw Hrw Eh Et Es En Ed El Ec Em Ef.
  destruct Hcore as [Hlay Htr Hco Hspare]. pose proof (lo_part _ _ Hlay) as Hp.
  destruct (freed_counts R c s n k d Hr Hk) as (Ca & Cd & Cc).
  assert (Hn : 0 < n) by (by eapply (pt_range _ _ Hp)).
  assert (Hdom : ∀ c', is_Some (hdrs a' !! c') ↔ is_Some (hdrs a !! c')).
  { intros c'. by rewrite Eh, alter_some, (words_but_dom _ _ _ _ c' Hw). }
  assert (Hinfo : ∀ c', hdr_info (hdrs a') c' = hdr_info (alter (bump d n) c (hdrs a)) c').
  { intros c'. rewrite Eh. eapply words_but_info. by apply bump_words_but. }
  split.
  - split.
    + rewrite Eh. apply alter_layout; [apply bump_map|]. eapply lay_replace; [done|exact Hr|exact Hw|by eapply pt_kind|].
      intros c' s' n' k'. rewrite freed_lookup. intros [(-> & -> & [= -> ->])|?]; [by right|by left].
    + intros d'. rewrite Et, Eh, Es. eapply tr_ext; [intros key; symmetry; by eapply freed_tree|].
      eapply tr_frame; [|apply Htr]. intros c' s' Hin. rewrite alter_bits by apply bump_map. apply (words_but_at c _ _ _ _ _ Hw).
      destruct (decide (c' = c)) as [->|]; [right|by left]. intros Hi. destruct Hin as [[n' E] _].
      destruct (decide (s' = s)) as [->|]; [rewrite Hr in E; by injection E as <- ->|].
      by rewrite (pt_inside _ _ _ _ _ _ s' Hp Hr) in E by lia.
    + intros c' s' n' d' n''. rewrite !freed_lookup. intros [(-> & -> & _)|[_ E1]]; [by left|].
      intros [(-> & -> & _)|[_ E2]]; [by right|]. by destruct (Hco _ _ _ _ _ E1 E2).
    + intros c'. rewrite Es. intros Hs'. destruct (Hspare _ Hs') as [[d0 E0] _]. split.
      * exists d0. apply freed_lookup. right. split; [|done]. intros [= -> <-]. rewrite Hr in E0. by injection E0 as _ ->.
      * intros s' [= -> ->]. pose proof (pt_whole _ _ _ _ _ _ _ _ Hp E0 eq_refl Hr) as ->. rewrite Hr in E0. by injection E0 as _ ->.
  - destruct d.
    + eapply (dirty_move a a' R _ _ _ None _ c n); [done|done|done|done|done| |].
      * intros c'. rewrite Hinfo, alter_info. case_decide; [|done]. unfold hdr_info. by destruct (hdrs a !! c').
      * intros c' s' n'. rewrite freed_lookup. intros [(-> & _)|[_ E]]; [by left|].
        right. split; [by right|eauto].
    + rewrite Z.add_0_r in Cd. eapply (dirty_keep a a'); [done|done| |done|done| |].
      * intros c'. rewrite Cc. case_decide; lia.
      * intros c'. rewrite Hinfo, alter_info. case_decide; [|done]. unfold hdr_info. by destruct (hdrs a !! c').
      * intros c' s' n'. rewrite freed_lookup. intros [(_ & _ & [=])|[_ ?]]. eauto.
  - rewrite En, Hact, Ca, u64_add_idemp. f_equal.
  - rewrite Em, Hmap. do 3 f_equal. symmetry. by apply same_dom_size.
  - by eapply owns_frame.
Qed.
End freed.

(** ** Coalescing *)

Section coalesce.
Context `{Config} {S : Type} `{CL : ChunkLayer S} {T : Type} `{OT : OrdTree T Z}.
Context `{!ChunkLayerLaws S} {FR : Frame} `{!OrdTreeLaws T Z}.
Implicit Types (a : astate S T) (h : gmap Z arena_chunk) (R : layout) (c s i n m e o : Z) (d : bool) (key : Z * Z) (k : kind).

(** The words of two neighbours become those of one run. *)
Lemma join_layout h h' R c s n n' k1 k2 k :
  layout_ok h R → R !! (c, s) = Some (n, k1) → R !! (c, s + n) = Some (n', k2) →
  words_but c (λ i, s ≤ i < s + n + n') h h' → run_words h' c s (n + n') k → layout_ok h' (join R c s n n' k).
Proof.
  intros Hlay Hr1 Hr2 Hw Hrw. pose proof (lo_part _ _ Hlay) as Hp. destruct (pt_range _ _ Hp _ _ _ _ Hr1) as (_ & _ & Hn & _).
  split; [by eapply words_but_maps; [|apply Hlay]|eapply words_but_part; [done|]; by eapply pt_merge|].
  intros c' s' n1 k'. rewrite join_lookup by done. intros [(-> & -> & [= -> ->])|(Hne1 & Hne2 & E)]; [done|].
  eapply run_words_frame; [by eapply (pt_range _ _ Hp)| |by apply Hlay]. intros i Hi. apply (words_but_at c _ _ _ _ _ Hw).
  destruct (decide (c' = c)) as [->|]; [right|by left]. intros Hin.
  destruct (pt_sep _ _ Hp _ _ _ _ _ _ _ Hr1 E) as [?|[?|?]]; [congruence| |lia].
  destruct (pt_sep _ _ Hp _ _ _ _ _ _ _ Hr2 E) as [?|[?|?]]; [congruence|lia|lia].
Qed.

(** Two free neighbours; one of them is the run [e] that is not in a tree. *)
Section pair.
Context a a' R pc p x C N c s n n' d e o (Ha : arena_at a R (Some (c, e)) pc p x C N)
  (Heo : (e = s ∧ o = s + n) ∨ (e = s + n ∧ o = s))
  (Hr1 : R !! (c, s) = Some (n, Free d)) (Hr2 : R !! (c, s + n) = Some (n', Free d)).

Lemma pair_pos : 0 < n ∧ 0 < n' ∧ map_bias ≤ s ∧ s + n + n' ≤ chunk_npages.
Proof using Ha Hr1 Hr2.
  pose proof (lo_part _ _ (ac_lay _ _ _ (aa_core _ _ _ _ _ _ _ _ Ha))) as Hp.
  destruct (pt_range _ _ Hp _ _ _ _ Hr1) as (_ & ? & ? & _). destruct (pt_range _ _ Hp _ _ _ _ Hr2) as (_ & _ & ? & ?). lia.
Qed.

Lemma pair_o : ∃ no, R !! (c, o) = Some (no, Free d).
Proof using Heo Hr1 Hr2. destruct Heo as [[_ Eo]|[_ Eo]]; rewrite Eo; eauto. Qed.

Lemma pair_tree sp d' key :
  in_tree (join R c s n n' (Free d)) sp (Some (c, s)) d' key ↔ in_tree R sp (Some (c, e)) d' key ∧ (d' = d → key ≠ (c, o)).
Proof using Ha Heo Hr1 Hr2.
  destruct pair_pos as (Hn & _). destruct key as [c1 s1]. unfold in_tree. setoid_rewrite join_lookup; [|done]. split.
  - intros [[n1 [(-> & -> & _)|(Hne1 & Hne2 & E)]] [Hs HE]]; [done|].
    assert ((c1, s1) ≠ (c, e) ∧ (c1, s1) ≠ (c, o)) as [? ?] by (destruct Heo as [[-> ->]|[-> ->]]; done).
    split_and!; [by eexists|done|congruence|done].
  - intros [[[n1 E] [Hs HE]] Ho].
    assert ((c1, s1) ≠ (c, o)).
    { intros [= -> ->]. destruct pair_o as [no Eo]. rewrite Eo in E. injection E as -> ->. by apply Ho. }
    assert ((c1, s1) ≠ (c, s) ∧ (c1, s1) ≠ (c, s + n)) as [? ?] by (destruct Heo as [[-> ->]|[-> ->]]; split; congruence).
    split_and!; [|done|congruence]. exists n1. by right.
Qed.

Lemma pair_coalesced : coalesced R (Some (c, e)) → coalesced (join R c s n n' (Free d)) (Some (c, s)).
Proof using Ha Heo Hr1 Hr2.
  intros Hco c1 s1 n1 d1 n2. destruct pair_pos as (Hn & _). rewrite !join_lookup by done.
  intros [(-> & -> & _)|(Hne1 & Hne2 & E1)]; [by left|]. intros [(-> & -> & _)|(Hne3 & Hne4 & E2)]; [by right|].
  assert (He : e = s ∨ e = s + n) by (destruct Heo as [[? _]|[? _]]; [by left|by right]).
  destruct (Hco _ _ _ _ _ E1 E2), He; congruence.
Qed.

Lemma pair_counts :
  active_pages (join R c s n n' (Free d)) = active_pages R ∧ dirty_pages (join R c s n n' (Free d)) = dirty_pages R ∧
  ∀ c', dirty_pages_in c' (join R c s n n' (Free d)) = dirty_pages_in c' R.
Proof using Ha Hr1 Hr2.
  destruct pair_pos as (Hn & _). unfold active_pages, dirty_pages, dirty_pages_in.
  split_and!; [| |intros c']; rewrite (join_pages R c s n n' _ _ _ _ Hr1 Hr2 Hn); unfold weight; simpl; [lia|by destruct d; lia|].
  destruct (bool_decide _), d; simpl; lia.
Qed.

Lemma pair_allocated : allocated (join R c s n n' (Free d)) = allocated R.
Proof using Ha Hr1 Hr2.
  destruct pair_pos as (Hn & _). apply allocated_ext. intros [c1 s1] v Hf. rewrite join_lookup by done. split.
  - intros [(-> & -> & ->)|(_ & _ & E)]; done.
  - intros E. right. split_and!; [..|done]; intros [= -> ->]; [rewrite Hr1 in E|rewrite Hr2 in E]; by injection E as <-.
Qed.

Lemma pair_at :
  words_but c (λ i, s ≤ i < s + n + n') (hdrs a) (hdrs a') → run_words (hdrs a') c s (n + n') (Free d) →
  trees_ok a' (λ d' key, in_tree R (spare a) (Some (c, e)) d' key ∧ (d' = d → key ≠ (c, o))) →
  spare a' = spare a → nactive a' = nactive a → ndirty a' = ndirty a →
  chunks_dirty a' = chunks_dirty a → a_chunks a' = a_chunks a → mapped (a_stats a') = mapped (a_stats a) → (framed C (a_mem a) → framed C (a_mem a')) →
  arena_at a' (join R c s n n' (Free d)) (Some (c, s)) pc p x C N.
Proof using Ha Heo Hr1 Hr2.
  intros Hw Hrw Ht Es En Ed El Ec Em Ef. destruct pair_pos as (Hn & Hn' & _). destruct pair_counts as (Ca & Cd & Cc).
  destruct (aa_core _ _ _ _ _ _ _ _ Ha) as [Hlay Htr Hco Hspare]. pose proof (lo_part _ _ Hlay) as Hp.
  assert (Hdom : ∀ c', is_Some (hdrs a' !! c') ↔ is_Some (hdrs a !! c')) by (intros c'; by rewrite (words_but_dom _ _ _ _ c' Hw)).
  split.
  - split.
    + by eapply join_layout.
    + intros d'. eapply tr_ext; [|apply Ht]. intros key. by rewrite Es, pair_tree.
    + by apply pair_coalesced.
    + intros c'. rewrite Es. intros Hs'. destruct (Hspare _ Hs') as [[d0 E0] HE].
      assert (Hcc : c' ≠ c) by (intros ->; by apply (HE e)). split; [|intros s' [= Ec' _]; done].
      exists d0. apply join_lookup; [done|]. right. split_and!; [intros [= Ec' _]..|]; done.
  - eapply (dirty_keep a a'); [apply Ha|done..| |].
    + intros c'. by eapply words_but_info.
    + intros c' s' n1. rewrite join_lookup by done. intros [(-> & -> & [= -> <-])|(_ & _ & E)]; eauto.
  - rewrite En, Ca. apply Ha.
  - rewrite Em, (aa_mapped _ _ _ _ _ _ _ _ Ha). do 3 f_equal. symmetry. by apply same_dom_size.
  - eapply owns_frame; [done..|apply Ha].
Qed.
End pair.

(** The part of the state that coalescing does not touch. *)
Definition coalesce_frame a a' : Prop :=
  kept a a' ∧ a_mem a' = a_mem a ∧ spare a' = spare a ∧ chunks_dirty a' = chunks_dirty a.

Lemma wp_join a R pc p x C N c s n n' d e o (Q : unit → astate S T → Prop) :
  arena_at a R (Some (c, e)) pc p x C N → (e = s ∧ o = s + n) ∨ (e = s + n ∧ o = s) →
  R !! (c, s) = Some (n, Free d) → R !! (c, s + n) = Some (n', Free d) →
  (∀ a', arena_at a' (join R c s n n' (Free d)) (Some (c, s)) pc p x C N → coalesce_frame a a' → Q tt a') →
  wp (arena_avail_tree_remove d (elm (c, o));;
    arena_mapbits_unallocated_size_set c s ((n + n') * PAGE);;
    arena_mapbits_unallocated_size_set c (s + (n + n') - 1) ((n + n') * PAGE)) a Q.
Proof.
  intros Ha Heo Hr1 Hr2 HQ. destruct (pair_pos _ _ _ _ _ _ _ _ _ _ _ _ _ Ha Hr1 Hr2) as (Hn & Hn' & Hs & Hsn).
  pose proof (aa_core _ _ _ _ _ _ _ _ Ha) as Hcore.
  destruct (at_run _ _ _ _ _ _ _ Hcore Hr1) as (Hm & Hc & _ & _ & _ & _ & _ & W1).
  destruct (at_run _ _ _ _ _ _ _ Hcore Hr2) as (_ & _ & _ & _ & _ & _ & _ & W2).
  destruct (pair_o _ _ _ _ _ _ _ _ Heo Hr1 Hr2) as [no Ho].
  destruct (at_run _ _ _ _ _ _ _ Hcore Ho) as (_ & _ & _ & _ & _ & _ & _ & Wo).
  destruct (page_mul (n + n')) as [? ?]; [lia|]. wsteps.
  eapply (wp_trees_remove _ _ (in_tree R (spare a) (Some (c, e)))); [exact (ac_tree _ _ _ Hcore)| |by eapply free_run_key|].
  { split_and!; [by eexists| |intros [=]; lia]. intros Hsp. by destruct (ac_spare _ _ _ Hcore _ Hsp) as [_ HE]; apply (HE e). }
  intros t Ht. wsteps. eapply wp_free_size_set; [apply W1|done..|]. intros b1 Hb1. acbn.
  assert (W2' : word_at (put_word (hdrs a) c s b1) c (s + (n + n') - 1) (λ b, free_word b (n' * PAGE) d)).
  { replace (s + (n + n') - 1) with (s + n + n' - 1) by lia. eapply word_at_frame; [|apply W2].
    apply bits_put_ne; [split; lia|intros [=]; lia]. }
  wsteps. eapply wp_free_size_set; [exact W2'|done..|]. intros b2 Hb2. acbn.
  set (h := put_word (put_word (hdrs a) c s b1) c (s + (n + n') - 1) b2).
  assert (Hw : words_but c (λ i, s ≤ i < s + n + n') (hdrs a) h).
  { apply words_put; [done| |lia|split; lia]. apply words_put; [done| |lia|split; lia]. by apply words_but_refl. }
  apply HQ; [|done]. eapply (pair_at a); [exact Ha|exact Heo|done|done|exact Hw| | |done..].
  - acbn. unfold h. split.
    + exists b1. split; [|done]. rewrite bits_put_ne; [apply bits_put_eq; [done..|split; lia]|split; lia|intros [=]; lia].
    + exists b2. split; [|done]. apply bits_put_eq; [by apply put_word_maps|by apply put_word_some|split; lia].
  - refine (trees_frame (set_avail d t a) h c (λ i, s ≤ i < s + n + n') _ Hw _ Ht). intros d' s' [[[n1 E1] [_ HE]] Hne] Hin.
    pose proof (lo_part _ _ (ac_lay _ _ _ Hcore)) as Hp.
    assert (s' ≠ e ∧ s' ≠ o) as [? ?].
    { split; [congruence|]. intros ->. rewrite Ho in E1. injection E1 as <- <-. by apply Hne. }
    destruct (pt_sep _ _ Hp _ _ _ _ _ _ _ Hr1 E1) as [?|[?|?]]; [lia| |].
    + destruct (pt_sep _ _ Hp _ _ _ _ _ _ _ Hr2 E1) as [?|[?|?]]; [lia|lia|].
      destruct (pt_range _ _ Hp _ _ _ _ E1) as (_ & _ & ? & _). lia.
    + destruct (pt_range _ _ Hp _ _ _ _ E1) as (_ & _ & ? & _). lia.
Qed.

Lemma dflag_eqb d d' : (dflag d =? dflag d') = Bool.eqb d d'.
Proof. by destruct d, d'. Qed.

(** The test whether a neighbour is free and of the same sort. *)
Lemma wp_free_test a c i k d (Q : bool → astate S T → Prop) :
  word_at (hdrs a) c i (end_word k) → (k = Free d → Q true a) → (k ≠ Free d → Q false a) →
  wp (al ← arena_mapbits_allocated_get c i;
      if al =? 0 then d' ← arena_mapbits_dirty_get c i; mret (d' =? dflag d) else mret false) a Q.
Proof.
  intros Hw Ht Hf. wsteps. eapply wp_allocated_get; [done|]. destruct k as [d'|d'|b d']; cbn [is_free Z.eqb].
  - wsteps. eapply wp_dirty_get; [done|]. wsteps. cbn [kdirty]. rewrite dflag_eqb.
    destruct (Bool.eqb_spec d' d) as [->|Hne]; [by apply Ht|apply Hf; congruence].
  - by apply wp_ret, Hf.
  - by apply wp_ret, Hf.
Qed.

Lemma wp_forward a R pc p x C N c s n d (Q : Z * Z → astate S T → Prop) :
  arena_at a R (Some (c, s)) pc p x C N → R !! (c, s) = Some (n, Free d) →
  (∀ a' R' n', arena_at a' R' (Some (c, s)) pc p x C N → R' !! (c, s) = Some (n', Free d) →
     (∀ n2, R' !! (c, s + n') ≠ Some (n2, Free d)) → allocated R' = allocated R → coalesce_frame a a' →
     Q (n' * PAGE, n') a') →
  wp (dalloc_forward c s (n * PAGE) n (dflag d)) a Q.
Proof.
  intros Ha Hr HQ. pose proof (aa_core _ _ _ _ _ _ _ _ Ha) as Hcore. pose proof (lo_part _ _ (ac_lay _ _ _ Hcore)) as Hp.
  destruct (at_run _ _ _ _ _ _ _ Hcore Hr) as (_ & _ & _ & _ & Hs & Hn & Hsn & _).
  unfold dalloc_forward. apply wp_bind. destruct (Z.ltb_spec (s + n) chunk_npages) as [Hlt|Hge].
  2:{ wsteps. apply (HQ a R n); [done..| |done|done]. intros n2 E. destruct (pt_range _ _ Hp _ _ _ _ E). lia. }
  destruct (pt_next _ _ _ _ _ _ Hp Hr Hlt) as (n' & k' & Hr').
  destruct (at_run _ _ _ _ _ _ _ Hcore Hr') as (_ & _ & _ & _ & _ & Hn' & Hsn' & W).
  eapply wp_free_test; [by eapply run_first| |].
  2:{ intros Hne. wsteps. apply (HQ a R n); [done..| |done|done]. intros n2 E. rewrite Hr' in E. by injection E as <- ->. }
  intros ->. pose proof (run_last _ _ _ _ _ Hn' W) as Wl. destruct W as [W1 W2]. wsteps.
  eapply wp_free_size; [exact W1|]. wsteps. rewrite shiftr_page. wsteps. eapply wp_free_size; [exact W2|]. wsteps.
  apply wp_check; [by apply Z.eqb_eq|]. wsteps. eapply wp_dirty_get; [exact Wl|]. wsteps. apply wp_check; [by apply Z.eqb_eq|]. wsteps.
  apply wp_mapp; [split; lia|]. wsteps. rewrite dflag_neq0, <- Z.mul_add_distr_r. apply wp_block3.
  eapply wp_join; [exact Ha|by left|exact Hr|exact Hr'|]. intros a' Ha' Hf. wsteps.
  eapply HQ; [exact Ha'| | | |done].
  - apply join_lookup; [done|]. by left.
  - intros n2 E2. apply join_lookup in E2 as [(_ & ? & _)|(_ & _ & E2)]; [lia| |done]. rewrite Z.add_assoc in E2.
    destruct (ac_coal _ _ _ Hcore _ _ _ _ _ Hr' E2) as [[=]|[=]]; lia.
  - eapply pair_allocated; [exact Ha|done..].
Qed.

Lemma wp_backward a R pc p x C N c s n d (Q : Z * Z * Z → astate S T → Prop) :
  arena_at a R (Some (c, s)) pc p x C N → R !! (c, s) = Some (n, Free d) → (∀ n2, R !! (c, s + n) ≠ Some (n2, Free d)) →
  (∀ a' R' s' n', arena_at a' R' (Some (c, s')) pc p x C N → R' !! (c, s') = Some (n', Free d) →
     (∀ n2, R' !! (c, s' + n') ≠ Some (n2, Free d)) → (∀ s2 n2, R' !! (c, s2) = Some (n2, Free d) → s2 + n2 ≠ s') →
     allocated R' = allocated R → coalesce_frame a a' → Q (s', n' * PAGE, n') a') →
  wp (dalloc_backward c s (n * PAGE) n (dflag d)) a Q.
Proof.
  intros Ha Hr Hnext HQ. pose proof (aa_core _ _ _ _ _ _ _ _ Ha) as Hcore. pose proof (lo_part _ _ (ac_lay _ _ _ Hcore)) as Hp.
  destruct (at_run _ _ _ _ _ _ _ Hcore Hr) as (_ & _ & _ & _ & Hs & Hn & Hsn & _).
  unfold dalloc_backward. apply wp_bind. destruct (Z.ltb_spec map_bias s) as [Hlt|Hge].
  2:{ wsteps. apply (HQ a R s n); [done..| |done|done]. intros s2 n2 E. destruct (pt_range _ _ Hp _ _ _ _ E). lia. }
  destruct (pt_prev _ _ _ _ _ _ Hp Hr Hlt) as (s0 & n0 & k0 & Hr0 & Es).
  destruct (at_run _ _ _ _ _ _ _ Hcore Hr0) as (_ & _ & _ & _ & Hs0 & Hn0 & _ & W).
  pose proof (run_last _ _ _ _ _ Hn0 W) as Wl. rewrite Es in Wl. eapply wp_free_test; [exact Wl| |].
  2:{ intros Hne. wsteps. apply (HQ a R s n); [done..| |done|done]. intros s2 n2 E2 E.
      destruct (pt_range _ _ Hp _ _ _ _ E2) as (_ & _ & ? & _).
      destruct (pt_sep _ _ Hp _ _ _ _ _ _ _ Hr0 E2) as [<-|[?|?]]; [|lia|lia]. rewrite Hr0 in E2. by injection E2 as <- ->. }
  intros ->. pose proof (run_first _ _ _ _ _ Hn0 W) as Wf. destruct W as [W1 W2]. rewrite Es in W2. wsteps.
  eapply wp_free_size; [exact W2|]. wsteps. rewrite shiftr_page. replace (s - n0) with s0 by lia. wsteps.
  eapply wp_free_size; [exact W1|]. wsteps.
  apply wp_check; [by apply Z.eqb_eq|]. wsteps. eapply wp_dirty_get; [exact Wf|]. wsteps. apply wp_check; [by apply Z.eqb_eq|]. wsteps.
  apply wp_mapp; [split; lia|]. wsteps. rewrite dflag_neq0, <- Z.mul_add_distr_r, (Z.add_comm n n0). apply wp_block3.
  rewrite <- Es in Hr. eapply wp_join; [exact Ha|right; lia|exact Hr0|exact Hr|]. intros a' Ha' Hf. wsteps.
  eapply HQ; [exact Ha'| | | | |done].
  - apply join_lookup; [done|]. by left.
  - intros n2 E2. apply join_lookup in E2 as [(_ & ? & _)|(_ & _ & E2)]; [lia| |done]. rewrite Z.add_assoc, Es in E2. by apply Hnext in E2.
  - intros s2 n2 E2 E. apply join_lookup in E2 as [(_ & -> & [= ->])|(_ & _ & E2)]; [lia| |done].
    destruct (pt_range _ _ Hp _ _ _ _ E2) as (_ & _ & ? & _). rewrite <- E in Hr0.
    destruct (ac_coal _ _ _ Hcore _ _ _ _ _ E2 Hr0) as [[=]|[=]]; lia.
  - eapply pair_allocated; [exact Ha|done..].
Qed.
End coalesce.

(** ** Giving up a chunk *)

Section chunk_dealloc.
Context `{Config} {S : Type} `{CL : ChunkLayer S} {T : Type} `{OT : OrdTree T Z}.
Context `{!ChunkLayerLaws S} {FR : Frame} `{!OrdTreeLaws T Z}.
Implicit Types (a : astate S T) (h : gmap Z arena_chunk) (R : layout) (c s i n m e o : Z) (d : bool) (key : Z * Z) (k : kind).

Lemma drop_lookup D R c d c1 s1 v :
  partition D R → R !! (c, map_bias) = Some (whole, Free d) →
  delete (c, map_bias) R !! (c1, s1) = Some v ↔ c1 ≠ c ∧ R !! (c1, s1) = Some v.
Proof.
  intros Hp Hr. rewrite lookup_delete_Some. split.
  - intros [Hne E]. split; [|done]. intros ->. apply Hne. destruct v as [n k]. by rewrite (pt_whole _ _ _ _ _ _ _ _ Hp Hr eq_refl E).
  - intros [Hne E]. split; [|done]. intros [= Ec _]. by subst.
Qed.

Lemma drop_counts D R c d :
  partition D R → R !! (c, map_bias) = Some (whole, Free d) →
  active_pages (delete (c, map_bias) R) = active_pages R ∧
  dirty_pages (delete (c, map_bias) R) = dirty_pages R - dirty_pages_in c R ∧
  (∀ c', c' ≠ c → dirty_pages_in c' (delete (c, map_bias) R) = dirty_pages_in c' R) ∧
  (d = false → dirty_pages_in c R = 0).
Proof.
  intros Hp Hr.
  assert (Hin : dirty_pages_in c R = if d then whole else 0).
  { assert (Hz : dirty_pages_in c (delete (c, map_bias) R) = 0).
    { apply pages_zero. intros [c1 s1] v. rewrite (drop_lookup D R c d) by done. intros [Hne _]. cbn [fst].
      by rewrite bool_decide_eq_false_2. }
    unfold dirty_pages_in in *. rewrite (pages_delete _ _ _ _ Hr) in Hz. unfold weight in Hz. cbn [fst snd] in Hz.
    rewrite bool_decide_eq_true_2 in Hz by done. destruct d; simpl in Hz; lia. }
  rewrite Hin. unfold active_pages, dirty_pages, dirty_pages_in. split_and!.
  - rewrite (pages_delete _ _ _ _ Hr). unfold weight. simpl. lia.
  - rewrite (pages_delete _ _ _ _ Hr). unfold weight. cbn [fst snd]. by destruct d.
  - intros c' Hne. rewrite (pages_delete _ _ _ _ Hr). unfold weight. cbn [fst snd].
    rewrite bool_decide_eq_false_2 by congruence. simpl. lia.
  - by intros ->.
Qed.

Lemma drop_allocated D R c d :
  partition D R → R !! (c, map_bias) = Some (whole, Free d) → allocated (delete (c, map_bias) R) = allocated R.
Proof.
  intros Hp Hr. apply allocated_ext. intros key v Hf. rewrite lookup_delete_Some. split; [by intros [_ ?]|].
  intros E. split; [|done]. intros <-. rewrite Hr in E. by injection E as <-.
Qed.

(** The spare chunk is returned to the chunk layer. *)
Lemma wp_cl_dealloc a C N c (Q : unit → astate S T → Prop) :
  owns a C N → is_Some (hdrs a !! c) →
  (∀ s' : S, (∀ h, (∀ c', is_Some (h !! c') ↔ c' ≠ c ∧ is_Some (hdrs a !! c')) → owns (set_hdrs h (set_chunks s' a)) C N) →
     Q tt (set_chunks s' a)) →
  wp (on_chunks (cl_dealloc c chunksize true)) a Q.
Proof.
  intros (L & HL & Hd & Hs & Hf) Hc%Hd HQ. apply list_elem_of_split in Hc as (l1 & l2 & ->).
  assert (Hperm : l1 ++ c :: l2 ≡ₚ c :: (l1 ++ l2)) by (symmetry; apply Permutation_middle).
  rewrite Hperm in HL. apply NoDup_cons in HL as [Hn HL].
  assert (Hs' : cl_inv (a_chunks a) ((c, chunksize) :: (((λ c, (c, chunksize)) <$> (l1 ++ l2)) ++ C)) N).
  { eapply cl_perm; [|reflexivity|exact Hs]. by rewrite Hperm. }
  destruct (cl_dealloc_ok _ _ _ _ _ true Hs') as (s' & E & Hi). unfold wp, on_chunks. rewrite E. apply HQ.
  intros h Hh. exists (l1 ++ l2). split_and!; [done| |done|done]. acbn. intros c'. rewrite Hh, <- Hd, Hperm, elem_of_cons. naive_solver.
Qed.

(** The chunk's own entry leaves its tree when the chunk becomes the spare. *)
Lemma to_spare_tree D R c d d' key :
  partition D R → R !! (c, map_bias) = Some (whole, Free d) →
  in_tree R (Some c) None d' key ↔ in_tree R None None d' key ∧ (d' = d → key ≠ (c, map_bias)).
Proof.
  intros Hp Hr. rewrite (spare_tree D R c d d' key) by done. split.
  - intros Hin. split; [by left|]. intros -> ->. by destruct Hin as (_ & ? & _).
  - intros [[Hin|[-> ->]] Hne]; [done|]. by destruct Hne.
Qed.

Lemma drop_tree D R old c d0 d' key :
  partition D R → R !! (old, map_bias) = Some (whole, Free d0) →
  in_tree (delete (old, map_bias) R) (Some c) None d' key ↔ in_tree R (Some old) None d' key ∧ in_tree R (Some c) None d' key.
Proof.
  intros Hp Hr. destruct key as [c1 s1]. unfold in_tree. setoid_rewrite (drop_lookup D R old d0); [|done..]. cbn [fst]. split.
  - intros [[n1 [Hne E]] [Hs _]]. split_and!; [by eexists|congruence|done|by eexists|done|done].
  - intros [[[n1 E] [Hs _]] [_ [Hs' _]]]. split_and!; [|done|done]. exists n1. split; [congruence|done].
Qed.

Lemma u64_sub_idemp x y : u64 (u64 x + - u64 y) = u64 (x - y).
Proof. rewrite Z.add_opp_r. unfold u64. by rewrite Zminus_mod_idemp_l, Zminus_mod_idemp_r. Qed.

Lemma ql_remove_elem x y l : x ∈ ql_remove y l ↔ x ∈ l ∧ x ≠ y.
Proof. unfold ql_remove. rewrite list_elem_of_filter. naive_solver. Qed.

Lemma ql_remove_length y l : (length (ql_remove y l) ≤ length l)%nat.
Proof. apply length_filter. Qed.

Section drop.
Context a a' R C N c d old d0 ch (Ha : arena_inv a R C N) (Es : spare a = Some old) (Hne : old ≠ c)
  (Hr0 : R !! (old, map_bias) = Some (whole, Free d0)) (Hr : R !! (c, map_bias) = Some (whole, Free d))
  (Hch : hdrs a !! old = Some ch) (Eh : hdrs a' = delete old (hdrs a))
  (Ht : trees_ok a' (λ d' key, in_tree R (Some old) None d' key ∧ (d' = d → key ≠ (c, map_bias))))
  (Es' : spare a' = Some c) (En : nactive a' = nactive a)
  (Ed : ndirty a' = if dirtied ch then u64 (ndirty a + - chunk_ndirty ch) else ndirty a)
  (El : chunks_dirty a' = if dirtied ch then ql_remove old (chunks_dirty a) else chunks_dirty a)
  (Em : mapped (a_stats a') = u64 (mapped (a_stats a) - chunksize)) (Hown : owns a' C N).

Lemma drop_core : arena_core a' (delete (old, map_bias) R) None.
Proof using Ha Hne Hr0 Hr Eh Ht Es'.
  destruct (aa_core _ _ _ _ _ _ _ _ Ha) as [Hlay Htr Hco Hspare]. pose proof (lo_part _ _ Hlay) as Hp. split.
  - rewrite Eh. split.
    + intros c' ch' E. apply lookup_delete_Some in E as [_ E]. by apply Hlay.
    + eapply pt_drop; [exact Hp|exact Hr0|]. intros c'. cbv beta. rewrite lookup_delete_is_Some. naive_solver.
    + intros c' s n k. rewrite (drop_lookup _ R old d0) by done. intros [Hc' E].
      eapply run_words_frame; [by eapply (pt_range _ _ Hp)| |by apply Hlay]. intros i _. unfold bits_at. by rewrite lookup_delete_ne.
  - intros d'. rewrite Es'. eapply tr_ext; [|apply Ht]. intros key. rewrite (drop_tree _ R old c d0), (to_spare_tree _ R c d) by done.
    rewrite (spare_tree _ R old d0) by done. naive_solver.
  - intros c' s n d' n'. rewrite !(drop_lookup _ R old d0) by done. intros [_ E1] [_ E2]. by eapply Hco.
  - intros c'. rewrite Es'. intros [= <-]. split; [|done]. exists d. eapply drop_lookup; [exact Hp|exact Hr0|]. by split.
Qed.

Lemma drop_dirty : dirty_ok a' (delete (old, map_bias) R) 0 0 None.
Proof using Ha Hne Hr0 Hch Eh Ed El.
  pose proof (aa_dirty _ _ _ _ _ _ _ _ Ha) as Hd. pose proof (lo_part _ _ (ac_lay _ _ _ (aa_core _ _ _ _ _ _ _ _ Ha))) as Hp.
  destruct (drop_counts _ R old d0 Hp Hr0) as (_ & Cd & Cc & C0).
  assert (Hio : hdr_info (hdrs a) old = Some (dirtied ch, chunk_ndirty ch)) by (unfold hdr_info; by rewrite Hch).
  assert (Hinfo : ∀ c', hdr_info (hdrs a') c' = if decide (c' = old) then None else hdr_info (hdrs a) c').
  { intros c'. unfold hdr_info. rewrite Eh. case_decide as Hc'; [subst c'; by rewrite lookup_delete_eq|by rewrite lookup_delete_ne]. }
  assert (Hl : ∀ c', c' ∈ chunks_dirty a' ↔ c' ∈ chunks_dirty a ∧ c' ≠ old).
  { intros c'. rewrite El. destruct (dirtied ch) eqn:E; [apply ql_remove_elem|]. split; [|by intros [? _]]. intros Hin. split; [done|].
    intros ->. apply (do_listed _ _ _ _ _ Hd) in Hin as [nd E']. rewrite Hio in E'. congruence. }
  split.
  - rewrite Ed, (do_total _ _ _ _ _ Hd), Cd. destruct (dirtied ch) eqn:E.
    + rewrite (do_chunk _ _ _ _ _ Hd _ _ _ Hio). case_decide; rewrite !Z.add_0_r; apply u64_sub_idemp.
    + rewrite C0; [f_equal; lia|]. destruct d0; [|done]. exfalso.
      destruct (do_dirty _ _ _ _ _ Hd _ _ _ Hr0) as [|[nd E']%(do_listed _ _ _ _ _ Hd)]; [done|]. rewrite Hio in E'. congruence.
  - intros c' d' nd. rewrite Hinfo. case_decide as Hc'; [done|]. intros E. rewrite Cc by done. by eapply Hd.
  - rewrite El. destruct (dirtied ch); [|apply Hd]. by apply NoDup_filter, Hd.
  - intros c'. rewrite Hl, Hinfo, (do_listed _ _ _ _ _ Hd). case_decide as Hc'; [subst c'|naive_solver]. split; [naive_solver|by intros [nd [=]]].
  - intros c' s n. rewrite (drop_lookup _ R old d0) by done. intros [Hc' E]. right. apply Hl. split; [|done].
    by destruct (do_dirty _ _ _ _ _ Hd _ _ _ E).
Qed.

Lemma drop_at : arena_inv a' (delete (old, map_bias) R) C N.
Proof using All.
  pose proof (lo_part _ _ (ac_lay _ _ _ (aa_core _ _ _ _ _ _ _ _ Ha))) as Hp.
  destruct (drop_counts _ R old d0 Hp Hr0) as (Ca & _).
  split; [apply drop_core|apply drop_dirty| | |done].
  - rewrite En, Ca. apply Ha.
  - rewrite Em, Eh, (aa_mapped _ _ _ _ _ _ _ _ Ha). rewrite (map_size_delete_Some old (hdrs a)) by by eexists.
    assert (size (hdrs a) ≠ 0%nat). { intros E%map_size_empty_inv. rewrite E, lookup_empty in Hch. done. }
    unfold u64. rewrite Zminus_mod_idemp_l. f_equal. destruct (size (hdrs a)) as [|g]; [done|].
    cbn [Nat.pred]. rewrite Nat2Z.inj_succ. lia.
Qed.
End drop.

(** A chunk that goes takes its dirty pages off the books. *)
Lemma wp_unlist a a0 R pc p x ch old (Q : unit → astate S T → Prop) :
  dirty_ok a0 R pc p x → hdrs a0 !! old = Some ch → hdrs a = hdrs a0 → chunks_dirty a = chunks_dirty a0 →
  Q tt (set_ndirty (if dirtied ch then u64 (ndirty a + - chunk_ndirty ch) else ndirty a)
    (set_chunks_dirty (if dirtied ch then ql_remove old (chunks_dirty a) else chunks_dirty a) a)) →
  wp (if dirtied ch then dirty_list_remove old;; add_ndirty (- chunk_ndirty ch) else mret tt) a Q.
Proof.
  intros Hd Hch Eh El HQ. destruct (dirtied ch) eqn:E; [|by apply wp_ret; destruct a].
  unfold dirty_list_remove, add_ndirty. wsteps. apply wp_check.
  - apply bool_decide_eq_true. unfold id. rewrite El. apply (do_listed _ _ _ _ _ Hd). exists (chunk_ndirty ch).
    unfold hdr_info. by rewrite Hch, <- E.
  - by wsteps.
Qed.

Lemma wp_chunk_dealloc a R C N c d (Q : unit → astate S T → Prop) :
  arena_inv a R C N → R !! (c, map_bias) = Some (whole, Free d) → spare a ≠ Some c →
  (∀ a' R', arena_inv a' R' C N → allocated R' = allocated R → kept a a' → a_mem a' = a_mem a →
     (∀ c', c' ∈ chunks_dirty a' → c' ∈ chunks_dirty a) → (length (chunks_dirty a') ≤ length (chunks_dirty a))%nat → Q tt a') →
  wp (arena_chunk_dealloc c) a Q.
Proof.
  intros Ha Hr Hsp HQ. pose proof (aa_core _ _ _ _ _ _ _ _ Ha) as Hcore. pose proof (lo_part _ _ (ac_lay _ _ _ Hcore)) as Hp.
  destruct (at_run _ _ _ _ _ _ _ Hcore Hr) as (_ & _ & Hcm & Hc0 & Hs & Hn & Hsn & Hrw).
  unfold arena_chunk_dealloc. wsteps. eapply wp_check_whole; [exact (ac_lay _ _ _ Hcore)|exact Hr|]. wsteps.
  eapply wp_dirty_get; [by eapply run_first|]. wsteps. apply wp_mapp; [split; lia|]. wsteps. cbn [kdirty]. rewrite dflag_neq0.
  eapply (wp_trees_remove _ _ (in_tree R (spare a) None)); [exact (ac_tree _ _ _ Hcore)|split_and!; [by eexists|done..]|by eapply free_run_key|].
  intros t Ht. wsteps. unfold id. acbn. destruct (spare a) as [old|] eqn:Es.
  - destruct (ac_spare _ _ _ Hcore _ Es) as [[d0 Hr0] _]. assert (Hne : old ≠ c) by congruence.
    destruct (at_run _ _ _ _ _ _ _ Hcore Hr0) as (_ & [ch Hch] & _). unfold chunk_get, on_stats. wsteps. unfold id. acbn.
    eapply wp_lift; [exact Hch|]. wsteps.
    eapply wp_unlist; [exact (aa_dirty _ _ _ _ _ _ _ _ Ha)|exact Hch|done..|]. acbn. wsteps. apply (wp_cl_dealloc _ C N); [exact (aa_owns _ _ _ _ _ _ _ _ Ha)|acbn; by eexists|]. acbn.
    intros s' Hown. wsteps. acbn. eapply (HQ _ (delete (old, map_bias) R)).
    + eapply (drop_at a _ R C N c d old d0 ch); try done; [|].
      { intros d1. eapply tr_frame; [|exact (Ht d1)]. intros c' s1 [(_ & Hs1 & _) _]. cbn [fst] in Hs1. unfold bits_at. acbn.
        rewrite lookup_delete_ne; [done|congruence]. }
      eapply owns_frame; [| | |apply (Hown (delete old (hdrs a)))]; [intros c'; acbn; reflexivity|acbn; reflexivity|done|].
      intros c'. rewrite lookup_delete_is_Some. naive_solver.
    + by eapply drop_allocated.
    + done.
    + done.
    + acbn. intros c'. destruct (dirtied ch); [by intros [? _]%ql_remove_elem|done].
    + acbn. destruct (dirtied ch); [apply ql_remove_length|lia].
  - wsteps. apply (HQ _ R); [|done..|acbn; lia]. destruct Ha as [_ Hd Hact Hmap Hown]. split; [|by destruct Hd; split|done..].
    split; [apply Hcore| |apply Hcore|].
    + intros d'. eapply tr_ext; [|apply Ht]. intros key. symmetry. by eapply to_spare_tree.
    + acbn. intros c' [= <-]. split; [by exists d|done].
Qed.
End chunk_dealloc.

(** ** Deallocating a run *)

Section run_dalloc.
Context `{Config} `{Opts} {S : Type} `{CL : ChunkLayer S} {T : Type} `{OT : OrdTree T Z}.
Context `{!ChunkLayerLaws S} {FR : Frame} `{!OrdTreeLaws T Z}.
Implicit Types (a : astate S T) (h : gmap Z arena_chunk) (R : layout) (c s i n m e o : Z) (d : bool) (key : Z * Z) (k : kind).

(** The header of a small run names its bin, whose runs have the run's size. *)
Definition run_hdr a c s n k : Prop :=
  match k with
  | Small b _ => ∃ r info, runs a !! raddr c s = Some r ∧ run_bin r = b ∧ bin_infos !! Z.to_nat b = Some info ∧ run_size info = n * PAGE
  | _ => True
  end.

Lemma wp_dalloc_size a c s n k (Q : Z → astate S T → Prop) :
  0 < n → run_words (hdrs a) c s n k → is_free k = false → run_hdr a c s n k → Q (n * PAGE) a →
  wp (dalloc_size c (raddr c s) s) a Q.
Proof.
  intros Hn Hw Hk Hh HQ. unfold dalloc_size. apply wp_bind. eapply wp_large_flag; [done..|].
  destruct k as [d|d|b d]; [done| |]; cbn [Z.eqb negb].
  - destruct Hw as [W1 W2]. wsteps. eapply wp_large_size; [exact W1|]. wsteps. destruct (Z.eqb_spec (n * PAGE) PAGE) as [E|Hne].
    + by wsteps.
    + assert (Hn1 : n ≠ 1) by (intros ->; lia). wsteps. rewrite shiftr_page. eapply wp_large_size; [by apply W2|].
      apply wp_check; [done|]. by wsteps.
  - destruct Hh as (r & info & Er & Eb & Ei & Es). destruct Hw as [Hb _]. unfold run_get, info_get. wsteps. eapply wp_lift; [exact Er|].
    wsteps. apply wp_check; [apply Z.leb_le; lia|]. wsteps. eapply wp_lift; [by rewrite Eb|]. wsteps. by rewrite Es.
Qed.

Lemma wp_dalloc_mark a c s n d (Q : unit → astate S T → Prop) :
  maps_ok (hdrs a) → is_Some (hdrs a !! c) → map_bias ≤ s → s + n ≤ chunk_npages → 0 < n →
  (∀ h, words_but c (λ i, s ≤ i < s + n) (hdrs a) h → run_words h c s n (Free d) →
     Q tt (set_ndirty (if d then u64 (ndirty a + n) else ndirty a) (set_hdrs (alter (bump d n) c h) a))) →
  wp (dalloc_mark c s (n * PAGE) n d) a Q.
Proof.
  intros Hm Hc Hs Hsn Hn HQ. unfold dalloc_mark. destruct d.
  - wsteps. apply wp_block2. apply (wp_mark_free a c s n true); [done..|]. intros h Hw Hr.
    apply (wp_add_dirty _ c true n); [by apply (words_but_dom _ _ _ _ c Hw)|]. by apply HQ.
  - apply (wp_mark_free a c s n false); [done..|]. intros h Hw Hr. specialize (HQ h Hw Hr).
    rewrite alter_id in HQ by done. by destruct a.
Qed.

(** The free run enters its tree. *)
Lemma wp_insert_freed a R pc p x C N c s n d (Q : unit → astate S T → Prop) :
  arena_at a R (Some (c, s)) pc p x C N → R !! (c, s) = Some (n, Free d) →
  (∀ n2, R !! (c, s + n) ≠ Some (n2, Free d)) → (∀ s2 n2, R !! (c, s2) = Some (n2, Free d) → s2 + n2 ≠ s) →
  (∀ t, arena_at (set_avail d t a) R None pc p x C N → Q tt (set_avail d t a)) →
  wp (arena_avail_tree_insert d (elm (c, s))) a Q.
Proof.
  intros Ha Hr Hnext Hprev HQ. pose proof (aa_core _ _ _ _ _ _ _ _ Ha) as Hcore.
  destruct (at_run _ _ _ _ _ _ _ Hcore Hr) as (_ & _ & Hcm & Hc0 & Hs & Hn & Hsn & Hrw).
  assert (Hsp : spare a ≠ Some c). { intros E. destruct (ac_spare _ _ _ Hcore _ E) as [_ HE]. by apply (HE s). }
  eapply (wp_trees_insert _ _ (in_tree R (spare a) (Some (c, s)))); [exact (ac_tree _ _ _ Hcore)| | |by eapply free_run_key|].
  { split_and!; [done..|split; simpl; lia]. }
  { by intros (_ & _ & ?). }
  intros t Ht. apply HQ. destruct Ha as [_ Hd Hact Hmap Hown]. split; [|by destruct Hd; split|done..]. split.
  - apply Hcore.
  - intros d'. eapply tr_ext; [|apply Ht]. intros [c1 s1]. unfold in_tree. acbn. split.
    + intros [(? & ? & _)|[-> [= -> ->]]]; (split_and!; [eauto|done|done]).
    + intros ([n1 E] & ? & _). destruct (decide ((c1, s1) = (c, s))) as [[= -> ->]|Hne].
      * right. rewrite Hr in E. by injection E as <- <-.
      * left. split_and!; [eauto|done|congruence].
  - intros c1 s1 n1 d1 n2 E1 E2. destruct (ac_coal _ _ _ Hcore _ _ _ _ _ E1 E2) as [[= -> ->]|[= -> Es]].
    + rewrite Hr in E1. injection E1 as <- <-. by apply Hnext in E2.
    + rewrite <- Es in E2. rewrite Hr in E2. injection E2 as <- <-. by destruct (Hprev _ _ E1).
  - acbn. intros c' E. destruct (ac_spare _ _ _ Hcore _ E) as [? _]. by split.
Qed.

Lemma wp_mark_dirtied a R pc p C N c (Q : unit → astate S T → Prop) :
  arena_at a R None pc p (Some c) C N → is_Some (hdrs a !! c) →
  (∀ a', arena_at a' R None pc p None C N → kept a a' → a_mem a' = a_mem a → spare a' = spare a → Q tt a') →
  wp (mark_dirtied c) a Q.
Proof.
  intros Ha [ch Hch] HQ. pose proof (aa_dirty _ _ _ _ _ _ _ _ Ha) as Hd. unfold mark_dirtied, chunk_get, chunk_set. wsteps.
  eapply wp_lift; [exact Hch|].
  assert (Hio : hdr_info (hdrs a) c = Some (dirtied ch, chunk_ndirty ch)) by (unfold hdr_info; by rewrite Hch).
  destruct (dirtied ch) eqn:Edi; wsteps.
  { assert (Hin : c ∈ chunks_dirty a) by (apply (do_listed _ _ _ _ _ Hd); eauto).
    apply HQ; [|done..]. destruct Ha as [Hcore _ Hact Hmap Hown]. split; [done| |done..]. split; [apply Hd..|].
    intros c' s n E. right. by destruct (do_dirty _ _ _ _ _ Hd _ _ _ E) as [[= <-]|?]. }
  set (f := λ ch, ArenaChunk true (chunk_ndirty ch) (chunk_map ch)). assert (Hf : ∀ ch, chunk_map (f ch) = chunk_map ch) by done.
  assert (<[c:=ArenaChunk true (chunk_ndirty ch) (chunk_map ch)]> (hdrs a) = alter f c (hdrs a)) as Ealt.
  { apply map_eq. intros c'. destruct (decide (c' = c)) as [->|Hne]; [by rewrite lookup_insert_eq, lookup_alter_eq, Hch|].
    by rewrite lookup_insert_ne, lookup_alter_ne. }
  acbn. rewrite Ealt. assert (Hnin : c ∉ chunks_dirty a).
  { intros [nd E]%(do_listed _ _ _ _ _ Hd). rewrite Hio in E. congruence. }
  apply HQ; [|done..]. destruct Ha as [Hcore _ Hact Hmap Hown]. split.
  - split; [apply alter_layout, Hcore; done| |apply Hcore|apply Hcore].
    intros d. exact (alter_trees f Hf c a _ (ac_tree _ _ _ Hcore) d).
  - split; acbn.
    + apply Hd.
    + intros c' d nd. rewrite alter_info. case_decide as Hc'; [|apply Hd]. subst c'. rewrite Hch. intros [= <- <-]. by eapply Hd.
    + apply NoDup_app. split_and!; [apply Hd|set_solver|apply NoDup_singleton].
    + intros c'. rewrite elem_of_app, list_elem_of_singleton, alter_info, (do_listed _ _ _ _ _ Hd). case_decide as Hc'; [subst c'|].
      * rewrite Hch. split; [eauto|by right].
      * split; [by intros [?|?]|by left].
    + intros c' s n E. right. rewrite elem_of_app, list_elem_of_singleton.
      destruct (do_dirty _ _ _ _ _ Hd _ _ _ E) as [[= <-]|?]; [by right|by left].
  - done.
  - acbn. rewrite Hmap. do 3 f_equal. symmetry. apply same_dom_size. intros c'. by rewrite alter_some.
  - apply (owns_frame a); [|done|done|exact Hown]. intros c'. acbn. by rewrite alter_some.
Qed.

(** A chunk that is one free run is given up. *)
Lemma wp_give_up a R C N c s n d (Q : unit → astate S T → Prop) :
  arena_inv a R C N → R !! (c, s) = Some (n, Free d) → spare a ≠ Some c →
  (∀ a' R', arena_inv a' R' C N → allocated R' = allocated R → kept a a' → a_mem a' = a_mem a →
     (∀ c', c' ∈ chunks_dirty a' → c' ∈ chunks_dirty a) → (length (chunks_dirty a') ≤ length (chunks_dirty a))%nat → Q tt a') →
  wp (if n * PAGE =? arena_maxclass then
       check (s =? map_bias);; check (n =? Z.shiftr arena_maxclass LG_PAGE);; arena_chunk_dealloc c
     else mret tt) a Q.
Proof.
  intros Ha Hr Hsp HQ. destruct page_facts as (_ & _ & _ & _ & Hmax). fold whole in Hmax. rewrite Hmax, shiftr_page.
  destruct (at_run _ _ _ _ _ _ _ (aa_core _ _ _ _ _ _ _ _ Ha) Hr) as (_ & _ & _ & _ & Hs & _ & Hsn & _).
  destruct (Z.eqb_spec (n * PAGE) (whole * PAGE)) as [E|_]; [|by apply wp_ret, (HQ a R)].
  assert (n = whole) as -> by (change PAGE with 8192 in E; lia). unfold whole in Hsn. assert (s = map_bias) as -> by lia.
  wsteps. apply wp_check; [by apply Z.eqb_eq|]. wsteps. apply wp_check; [by apply Z.eqb_eq|]. by eapply wp_chunk_dealloc.
Qed.

(** [arena_run_dalloc], up to purging. *)
Lemma wp_run_dalloc_with maybe_purge a R C N c s n k dirty (Q : unit → astate S T → Prop) :
  arena_inv a R C N → R !! (c, s) = Some (n, k) → is_free k = false → run_hdr a c s n k →
  (∀ a' R', arena_inv a' R' C N → allocated R' = delete (c, s) (allocated R) → kept a a' → a_mem a' = a_mem a →
     if dirty || kdirty k then wp maybe_purge a' Q
     else (∀ c', c' ∈ chunks_dirty a' → c' ∈ chunks_dirty a) ∧ (length (chunks_dirty a') ≤ length (chunks_dirty a))%nat → Q tt a') →
  wp (arena_run_dalloc_with maybe_purge (raddr c s) dirty) a Q.
Proof.
  intros Ha Hr Hk Hh HQ. pose proof (aa_core _ _ _ _ _ _ _ _ Ha) as Hcore.
  destruct (at_run _ _ _ _ _ _ _ Hcore Hr) as (Hmaps & Hc & Hcm & Hc0 & Hs & Hn & Hsn & Hrw).
  unfold arena_run_dalloc_with. cbv zeta. rewrite raddr_base, raddr_page by (done || (split; lia)). wsteps.
  apply wp_check; [by apply Z.leb_le|]. wsteps. apply wp_check; [apply Z.ltb_lt; lia|]. wsteps.
  eapply wp_dalloc_size; [done..|]. wsteps. rewrite shiftr_page. apply wp_add_nactive. intros ca. wsteps.
  eapply wp_dirty_get; [by eapply run_first|]. wsteps. eapply wp_dirty_get; [by eapply run_last|]. wsteps.
  apply wp_check; [by apply Z.eqb_eq|]. wsteps. rewrite dflag_neq0. set (d := dirty || kdirty k) in *.
  change (if d then CHUNK_MAP_DIRTY else 0) with (dflag d).
  apply wp_dalloc_mark; [done..|]. acbn. intros h Hw Hf. wsteps.
  eapply (wp_forward _ (freed c s n d R)); [eapply (freed_at a); done..|by unfold freed; rewrite lookup_insert_eq|].
  intros a1 R1 n1 Ha1 Hr1 Hnx1 Hal1 (Hk1 & Hm1 & Hs1 & Hl1). wsteps.
  eapply wp_backward; [exact Ha1|exact Hr1|exact Hnx1|].
  intros a2 R2 s2 n2 Ha2 Hr2 Hnx2 Hpv2 Hal2 (Hk2 & Hm2 & Hs2 & Hl2). wsteps.
  pose proof (aa_core _ _ _ _ _ _ _ _ Ha2) as Hcore2.
  destruct (at_run _ _ _ _ _ _ _ Hcore2 Hr2) as (_ & Hc2 & _ & _ & Hsb & Hn2 & Hsn2 & W2).
  pose proof (run_first _ _ _ _ _ Hn2 W2) as Wf. pose proof (run_last _ _ _ _ _ Hn2 W2) as Wl. destruct W2 as [W2 W2'].
  eapply wp_free_size; [exact W2|]. wsteps. eapply wp_free_size; [exact W2'|]. wsteps. apply wp_check; [by apply Z.eqb_eq|]. wsteps.
  eapply wp_dirty_get; [exact Wf|]. wsteps. eapply wp_dirty_get; [exact Wl|]. wsteps. apply wp_check; [by apply Z.eqb_eq|]. wsteps.
  apply wp_mapp; [split; lia|]. wsteps. eapply wp_insert_freed; [exact Ha2|exact Hr2|done..|]. intros t Ha3. wsteps.
  rewrite freed_allocated in Hal1. rewrite Hal1 in Hal2.
  assert (Hsp : spare a2 ≠ Some c). { intros E. destruct (ac_spare _ _ _ Hcore2 _ E) as [_ HE]. by apply (HE s2). }
  destruct d eqn:Ed.
  - eapply wp_mark_dirtied; [exact Ha3|done|]. intros a4 Ha4 Hk4 Hm4 Hs4. wsteps.
    eapply wp_give_up; [exact Ha4|exact Hr2|by rewrite Hs4|]. intros a5 R5 Ha5 Hal5 Hk5 Hm5 _ _. apply (HQ _ R5); [done|congruence|..].
    + by eapply kept_trans; [|done]; eapply kept_trans; [|done]; eapply kept_trans.
    + rewrite Hm5, Hm4. acbn. by rewrite Hm2, Hm1.
  - wsteps. eapply wp_give_up; [exact Ha3|exact Hr2|done|]. intros a5 R5 Ha5 Hal5 Hk5 Hm5 Hsub Hlen. wsteps.
    acbn_in Hlen. rewrite Hl2, Hl1 in Hlen. apply (HQ _ R5); [done|congruence|..].
    + by eapply kept_trans; [|done]; eapply kept_trans.
    + rewrite Hm5. acbn. by rewrite Hm2, Hm1.
    + split; [|done]. intros c' Hin%Hsub. acbn_in Hin. by rewrite Hl2, Hl1 in Hin.
Qed.
End run_dalloc.
