(* ===== verification/ArenaPurge.v ===== *)
(** * Purging

    [arena_purge] walks the chunks with dirty pages: it takes the dirty runs of
    a chunk, tells the kernel that their contents are not needed, and frees them
    as clean runs.  It terminates, no allocated run changes, and the contents of
    allocated runs stay. *)

From S2P Require Import Prelude OrdTree Bitmap SizeClass BinInfo ArenaBits ChunkIface Arena ArenaMap ArenaTree ArenaInv ArenaRun ArenaDalloc.

(** ** Taking the dirty runs of a chunk *)

Section take.
Context `{Config} `{Opts} {S : Type} `{CL : ChunkLayer S} {T : Type} `{OT : OrdTree T Z}.
Context `{!ChunkLayerLaws S} {FR : Frame} `{!OrdTreeLaws T Z}.
Implicit Types (a : astate S T) (h : gmap Z arena_chunk) (R : layout) (c s i n m e o : Z) (d : bool) (key : Z * Z) (k : kind).

(** The run's words, as [purge_take] writes them. *)
Lemma wp_take_words a c s n u (Q : unit → astate S T → Prop) :
  maps_ok (hdrs a) → is_Some (hdrs a !! c) → map_bias ≤ s → s + n ≤ chunk_npages → 0 < n →
  (∀ h, words_but c (λ i, s ≤ i < s + n) (hdrs a) h → run_words h c s n (Large false) → Q tt (set_hdrs h a)) →
  wp (arena_mapbits_unzeroed_set c s u;;
    arena_mapbits_large_set c s (Z.shiftl n LG_PAGE) 0;;
    for_each (seqZ 1 (n - 2)) (λ i, arena_mapbits_unzeroed_set c (s + i) u);;
    (if 1 <? n then
       arena_mapbits_unzeroed_set c (s + n - 1) u;;
       arena_mapbits_large_set c (s + n - 1) 0 0
     else mret tt)) a Q.
Proof.
  intros Hm Hc Hs Hsn Hn HQ. assert (Hpi : ∀ i, s ≤ i < s + n → page_in i) by (intros i Hi; split; lia).
  set (P := λ i, s ≤ i < s + n). destruct (page_mul n) as [? ?]; [lia|].
  assert (Hput : ∀ h i b, words_but c P (hdrs a) h → P i → words_but c P (hdrs a) (put_word h c i b) ∧ maps_ok h ∧ is_Some (h !! c)).
  { intros h i b Hw Hi. split; [apply words_put; auto|]. split; [by eapply words_but_maps|by apply (words_but_dom _ _ _ _ c Hw)]. }
  wsteps. apply wp_unzeroed_set; [done|apply Hpi; lia|done|]. intros old _. acbn. wsteps. rewrite shiftl_page.
  destruct (Hput (hdrs a) s (unzeroed_word u old)) as (Hw1 & _); [by apply words_but_refl|unfold P; lia|].
  apply (wp_large_set _ _ _ _ false); [by apply put_word_maps|apply Hpi; lia|by apply put_word_some|done..|]. intros b1 Hb1. acbn.
  destruct (Hput _ s b1 Hw1) as (Hw2 & Hm1 & Hc1); [unfold P; lia|]. wsteps.
  eapply (wp_for_each _ _ _ (λ _ a', ∃ h, a' = set_hdrs h a ∧ words_but c P (hdrs a) h ∧ bits_at h c s = Some b1)).
  - eexists. split; [reflexivity|]. split; [done|]. apply bits_put_eq; [done..|apply Hpi; lia].
  - intros l1 i l2 a' El (h & -> & Hw & Hb).
    assert (Hi : i ∈ seqZ 1 (n - 2)) by (rewrite El; set_solver). apply elem_of_seqZ in Hi.
    destruct (Hput h (s + i) 0 Hw) as (_ & Hmh & Hch); [unfold P; lia|].
    apply wp_unzeroed_set; [done|apply Hpi; lia|done|]. intros old' _. acbn. eexists. split; [reflexivity|].
    split; [apply Hput; [done|unfold P; lia]|]. rewrite bits_put_ne; [done|apply Hpi; lia|intros [=]; lia].
  - intros a' (h & -> & Hw & Hb). destruct (Hput h s 0 Hw) as (_ & Hmh & Hch); [unfold P; lia|].
    destruct (Z.ltb_spec 1 n) as [Hlt|Hge]; wsteps.
    + apply wp_unzeroed_set; [done|apply Hpi; lia|done|]. intros old' _. acbn.
      destruct (Hput h (s + n - 1) (unzeroed_word u old') Hw) as (Hw3 & _); [unfold P; lia|].
      apply (wp_large_set _ _ _ _ false); [by apply put_word_maps|apply Hpi; lia|by apply put_word_some|done..|]. intros b2 Hb2. acbn.
      apply HQ; [apply Hput; [done|unfold P; lia]|]. split.
      * exists b1. split; [|done]. rewrite !bits_put_ne; [done|apply Hpi; lia|intros [=]; lia|apply Hpi; lia|intros [=]; lia].
      * intros _. exists b2. split; [|done]. apply bits_put_eq; [by apply put_word_maps|by apply put_word_some|apply Hpi; lia].
    + apply HQ; [done|]. split; [by exists b1|lia].
Qed.

Lemma carve_all R c s n k d : carve R c s n n k (Free d) = <[(c, s) := (n, k)]> R.
Proof. unfold carve. by rewrite Z.ltb_irrefl. Qed.

(** Its pages still count as dirty. *)
Lemma take_at a a' R p C N c s n :
  arena_at a R None c p None C N → R !! (c, s) = Some (n, Free true) → spare a ≠ Some c →
  words_but c (λ i, s ≤ i < s + n) (hdrs a) (hdrs a') → run_words (hdrs a') c s n (Large false) →
  trees_ok a' (λ d' key, in_tree R (spare a) None d' key ∧ (d' = true → key ≠ (c, s))) →
  spare a' = spare a → nactive a' = u64 (nactive a + n) → ndirty a' = ndirty a →
  chunks_dirty a' = chunks_dirty a → a_chunks a' = a_chunks a → mapped (a_stats a') = mapped (a_stats a) → (framed C (a_mem a) → framed C (a_mem a')) →
  arena_at a' (<[(c, s) := (n, Large false)]> R) None c (p + n) None C N.
Proof.
  intros Ha Hr Hsp Hw Hrw Ht Es En Ed El Ec Em Ef. pose proof (aa_core _ _ _ _ _ _ _ _ Ha) as Hcore.
  pose proof (lo_part _ _ (ac_lay _ _ _ Hcore)) as Hp. pose proof (aa_dirty _ _ _ _ _ _ _ _ Ha) as Hd.
  assert (Hn : 0 < n ≤ n) by (destruct (pt_range _ _ Hp _ _ _ _ Hr) as (_ & _ & ? & _); lia).
  destruct (carve_counts _ R c s n n (Large false) true Hp Hr Hn eq_refl) as (Ca & Cd & Cc). rewrite carve_all in *.
  assert (Hdom : ∀ c', is_Some (hdrs a' !! c') ↔ is_Some (hdrs a !! c')) by (intros c'; by rewrite (words_but_dom _ _ _ _ c' Hw)).
  split.
  - rewrite <- (carve_all R c s n (Large false) true).
    eapply (carve_core _ (hdrs a) R (spare a)); [apply Hcore|done..|apply Hcore|exact Hw|lia|exact Hrw| |exact Es|].
    + eapply trees_ext; [|exact Ht]. intros d' key. split; [by left|]. intros [?|[? _]]; [done|lia].
    + intros c' E. by destruct (ac_spare _ _ _ Hcore c' E).
  - split.
    + rewrite Ed, Cd, (do_total _ _ _ _ _ Hd). f_equal. lia.
    + intros c' d nd. rewrite (words_but_info _ _ _ _ c' Hw), Cc. intros E. rewrite (do_chunk _ _ _ _ _ Hd _ _ _ E). f_equal.
      case_decide; lia.
    + rewrite El. apply Hd.
    + intros c'. rewrite El, (words_but_info _ _ _ _ c' Hw). apply Hd.
    + intros c' s' n'. rewrite lookup_insert_Some. intros [[_ [=]]|[_ E]]. rewrite El. by eapply Hd.
  - by rewrite En, (aa_active _ _ _ _ _ _ _ _ Ha), Ca, u64_add_idemp.
  - rewrite Em, (aa_mapped _ _ _ _ _ _ _ _ Ha). do 3 f_equal. symmetry. by apply same_dom_size.
  - eapply owns_frame; [done..|apply Ha].
Qed.

Lemma wp_purge_take a R p C N c s n u (Q : unit → astate S T → Prop) :
  arena_at a R None c p None C N → R !! (c, s) = Some (n, Free true) → spare a ≠ Some c →
  (∀ a', arena_at a' (<[(c, s) := (n, Large false)]> R) None c (p + n) None C N → coalesce_frame a a' → Q tt a') →
  wp (purge_take c s n u) a Q.
Proof.
  intros Ha Hr Hsp HQ. pose proof (aa_core _ _ _ _ _ _ _ _ Ha) as Hcore. pose proof (lo_part _ _ (ac_lay _ _ _ Hcore)) as Hp.
  destruct (at_run _ _ _ _ _ _ _ Hcore Hr) as (Hm & Hc & _ & _ & Hs & Hn & Hsn & Hrw).
  unfold purge_take. wsteps. apply wp_mapp; [split; lia|]. wsteps.
  eapply (wp_trees_remove _ _ (in_tree R (spare a) None)); [exact (ac_tree _ _ _ Hcore)|split_and!; [by eexists|done..]|by eapply free_run_key|].
  intros t Ht. wsteps. apply wp_block4. apply wp_take_words; [done..|]. intros h Hw Hl. acbn_in Hw. apply wp_add_nactive. intros ca.
  apply HQ; [|done]. eapply (take_at a); [exact Ha|exact Hr|done|exact Hw|done| |done..].
  refine (trees_frame (set_avail true t a) h c (λ i, s ≤ i < s + n) _ Hw _ Ht). intros d' s'. by eapply in_tree_outside.
Qed.
End take.

(** ** Walking a chunk *)

Section scan.
Context `{Config} `{Opts} {S : Type} `{CL : ChunkLayer S} {T : Type} `{OT : OrdTree T Z}.
Context `{!ChunkLayerLaws S} {FR : Frame} `{!OrdTreeLaws T Z}.
Implicit Types (a : astate S T) (h : gmap Z arena_chunk) (R : layout) (c s i n m e o : Z) (d : bool) (key : Z * Z) (k : kind).

(** Every small run has its header. *)
Definition run_hdrs a R : Prop := ∀ c s n k, R !! (c, s) = Some (n, k) → run_hdr a c s n k.

Lemma wp_purge_skip a c s n k (Q : Z → astate S T → Prop) :
  0 < n → run_words (hdrs a) c s n k → is_free k = false → run_hdr a c s n k → Q n a → wp (purge_skip c s) a Q.
Proof.
  intros Hn Hw Hk Hh HQ. unfold purge_skip. apply wp_bind. eapply wp_large_flag; [done..|].
  destruct k as [d|d|b d]; [discriminate Hk| |]; cbn [Z.eqb negb].
  - destruct Hw as [W1 _]. wsteps. eapply wp_large_size; [exact W1|]. wsteps. by rewrite shiftr_page.
  - destruct Hh as (r & info & Er & Eb & Ei & Es). destruct Hw as [Hb Hw]. unfold run_get, info_get. wsteps.
    destruct (Hw 0) as (b0 & E0 & Hb0); [lia|]. rewrite Z.add_0_r in E0. eapply wp_runind; [by exists b0|]. wsteps.
    apply wp_check; [done|]. wsteps. rewrite shiftl_page. eapply wp_lift; [exact Er|].
    wsteps. apply wp_check; [apply Z.leb_le; lia|]. wsteps. eapply wp_lift; [by rewrite Eb|]. wsteps. by rewrite Es, shiftr_page.
Qed.

(** [R'] is [R] with the dirty runs [l] of chunk [c] allocated as large ones, and
    no dirty run from page [i] on remains. *)
Record taken c i (l : list Z) R R' : Prop := {
  tk_nodup : NoDup l;
  tk_in s : s ∈ l → i ≤ s ∧ ∃ n, R !! (c, s) = Some (n, Free true) ∧ R' !! (c, s) = Some (n, Large false);
  tk_out c' s : ¬ (c' = c ∧ s ∈ l) → R' !! (c', s) = R !! (c', s);
  tk_clean s n : i ≤ s → R' !! (c, s) ≠ Some (n, Free true)
}.

Lemma taken_skip D c i n k l R R' :
  partition D R' → R !! (c, i) = Some (n, k) → k ≠ Free true → 0 < n → taken c (i + n) l R R' → taken c i l R R'.
Proof.
  intros Hp Hr Hk Hn [Hnd Hin Hout Hcl]. split; [done| |done|].
  - intros s Hs. destruct (Hin s Hs). split; [lia|done].
  - assert (Hr' : R' !! (c, i) = Some (n, k)) by (rewrite Hout; [done|intros [_ Hi%Hin]; lia]).
    intros s n' Hs E. destruct (Z_lt_ge_dec s (i + n)); [|by eapply Hcl; [|exact E]; lia].
    destruct (decide (s = i)) as [->|]; [rewrite Hr' in E; by injection E as <- ->|].
    by rewrite (pt_inside _ _ _ _ _ _ s Hp Hr') in E by lia.
Qed.

Lemma taken_take D c i n l R R' :
  partition D R' → R !! (c, i) = Some (n, Free true) → 0 < n →
  taken c (i + n) l (<[(c, i) := (n, Large false)]> R) R' → taken c i (i :: l) R R'.
Proof.
  intros Hp Hr Hn [Hnd Hin Hout Hcl].
  assert (Hi : i ∉ l) by (intros [? _]%Hin; lia).
  assert (Hr' : R' !! (c, i) = Some (n, Large false)) by (rewrite Hout; [apply lookup_insert_eq|naive_solver]). split.
  - by constructor.
  - intros s [->|Hs]%elem_of_cons; [split; [lia|eauto]|]. destruct (Hin s Hs) as (? & n' & E & E'). split; [lia|]. exists n'.
    rewrite lookup_insert_ne in E by (intros [=]; lia). done.
  - intros c' s Hne. rewrite Hout by set_solver. rewrite lookup_insert_ne; [done|]. intros [= <- <-]. set_solver.
  - intros s n' Hs E. destruct (Z_lt_ge_dec s (i + n)); [|by eapply Hcl; [|exact E]; lia].
    destruct (decide (s = i)) as [->|]; [rewrite Hr' in E; by injection E|].
    by rewrite (pt_inside _ _ _ _ _ _ s Hp Hr') in E by lia.
Qed.

Lemma run_hdrs_take a R c s n : run_hdrs a R → run_hdrs a (<[(c, s) := (n, Large false)]> R).
Proof. intros Hh c' s' n' k'. rewrite lookup_insert_Some. intros [[_ [= _ <-]]|[_ E]]; [done|by apply Hh]. Qed.

Lemma run_hdrs_kept a a' R : kept a a' → run_hdrs a R → run_hdrs a' R.
Proof. intros (Er & _) Hh c s n k E. specialize (Hh c s n k E). unfold run_hdr in *. by rewrite Er. Qed.

Lemma coalesce_frame_trans a1 a2 a3 : coalesce_frame a1 a2 → coalesce_frame a2 a3 → coalesce_frame a1 a3.
Proof. intros (? & ? & ? & ?) (? & ? & ? & ?). split_and!; [by eapply kept_trans|congruence..]. Qed.

Lemma coalesce_frame_refl a : coalesce_frame a a.
Proof. done. Qed.

Lemma run_end a R E c s n k : arena_core a R E → R !! (c, s) = Some (n, k) → 0 < n ∧ s + n ≤ chunk_npages.
Proof. intros Hcore Hr. by destruct (at_run _ _ _ _ _ _ _ Hcore Hr) as (_ & _ & _ & _ & _ & ? & ? & _). Qed.

Lemma taken_end a R E c i : arena_core a R E → chunk_npages ≤ i → taken c i [] R R.
Proof.
  intros Hcore Hi. split; [constructor|by intros s ?%elem_of_nil|done|].
  intros s n Hs Hr. destruct (run_end _ _ _ _ _ _ _ Hcore Hr). lia.
Qed.

(** After a run comes another, or the end of the chunk. *)
Lemma run_next a R E c s n k : arena_core a R E → R !! (c, s) = Some (n, k) → s + n = chunk_npages ∨ is_Some (R !! (c, s + n)).
Proof.
  intros Hcore Hr. destruct (run_end _ _ _ _ _ _ _ Hcore Hr). destruct (decide (s + n = chunk_npages)); [by left|right].
  destruct (pt_next _ _ _ _ _ _ (lo_part _ _ (ac_lay _ _ _ Hcore)) Hr) as (? & ? & ->); [lia|done].
Qed.

Lemma wp_purge_scan fuel c u C N a R p i (Q : list Z → astate S T → Prop) :
  arena_at a R None c p None C N → spare a ≠ Some c → run_hdrs a R →
  i = chunk_npages ∨ is_Some (R !! (c, i)) → chunk_npages - i ≤ Z.of_nat fuel →
  (∀ a' R' p' l, arena_at a' R' None c p' None C N → coalesce_frame a a' → taken c i l R R' → Q l a') →
  wp (purge_scan fuel c i u) a Q.
Proof.
  revert a R p i Q. induction fuel as [|fuel IH]; intros a R p i Q Ha Hsp Hh Hi Hf HQ; cbn [purge_scan];
    pose proof (aa_core _ _ _ _ _ _ _ _ Ha) as Hcore.
  { assert (i = chunk_npages) as ->.
    { destruct Hi as [?|[[n k] E]]; [done|]. destruct (run_end _ _ _ _ _ _ _ Hcore E). lia. }
    rewrite Z.ltb_irrefl. wsteps. apply wp_check; [by apply Z.eqb_eq|]. wsteps. eapply HQ; [exact Ha|done|by eapply taken_end]. }
  destruct Hi as [->|[[n k] Hr]].
  { rewrite Z.ltb_irrefl. wsteps. apply wp_check; [by apply Z.eqb_eq|]. wsteps. eapply HQ; [exact Ha|done|by eapply taken_end]. }
  destruct (at_run _ _ _ _ _ _ _ Hcore Hr) as (_ & _ & _ & _ & Hs & Hn & Hsn & Hrw).
  rewrite (proj2 (Z.ltb_lt i chunk_npages)) by lia. wsteps. eapply wp_allocated_get; [by eapply run_first|].
  pose proof (run_first _ _ _ _ _ Hn Hrw) as Wf. pose proof (run_last _ _ _ _ _ Hn Hrw) as Wl.
  destruct (is_free k) eqn:Hk; cbn [Z.eqb].
  - destruct k as [d|d|b d]; [|discriminate Hk..]. wsteps. eapply wp_free_size; [apply Hrw|]. wsteps. rewrite shiftr_page.
    apply wp_check; [by apply Z.leb_le|]. wsteps. eapply wp_dirty_get; [exact Wf|]. wsteps. eapply wp_dirty_get; [exact Wl|]. wsteps.
    apply wp_check; [by apply Z.eqb_eq|]. cbn [kdirty]. rewrite dflag_neq0. destruct d.
    + wsteps. eapply wp_purge_take; [exact Ha|exact Hr|done|]. intros a1 Ha1 Hf1. wsteps.
      assert (Hr1 : <[(c, i) := (n, Large false)]> R !! (c, i) = Some (n, Large false)) by apply lookup_insert_eq.
      eapply IH; [exact Ha1|by rewrite (proj1 (proj2 (proj2 Hf1)))| | |lia|].
      * eapply run_hdrs_kept; [apply Hf1|by apply run_hdrs_take].
      * eapply run_next; [apply Ha1|exact Hr1].
      * intros a' R' p' l Ha' Hf' Ht. wsteps. eapply HQ; [exact Ha'|by eapply coalesce_frame_trans|].
        eapply taken_take; [apply Ha'|done..].
    + eapply IH; [exact Ha|done|done|by eapply run_next|lia|]. intros a' R' p' l Ha' Hf' Ht. eapply HQ; [exact Ha'|done|].
      eapply taken_skip; [apply Ha'|exact Hr|done..].
  - wsteps. eapply wp_purge_skip; [exact Hn|exact Hrw|done|by apply Hh|]. wsteps.
    eapply IH; [exact Ha|done|done|by eapply run_next|lia|]. intros a' R' p' l Ha' Hf' Ht. eapply HQ; [exact Ha'|done|].
    eapply taken_skip; [apply Ha'|exact Hr|by intros ->|done..].
Qed.
End scan.

(** ** Purging a chunk *)

Section chunk_purge.
Context `{Config} `{Opts} {S : Type} `{CL : ChunkLayer S} {T : Type} `{OT : OrdTree T Z}.
Context `{!ChunkLayerLaws S} {FR : Frame} `{!OrdTreeLaws T Z}.
Implicit Types (a : astate S T) (h : gmap Z arena_chunk) (R : layout) (c s i n m e o : Z) (d : bool) (key : Z * Z) (k : kind).

(** Two runs share no byte. *)
Lemma runs_apart h R c s n k c' s' n' k' :
  layout_ok h R → R !! (c, s) = Some (n, k) → R !! (c', s') = Some (n', k') → (c, s) ≠ (c', s') →
  ranges_apart (raddr c s, n * PAGE) (raddr c' s', n' * PAGE).
Proof.
  intros Hl Hr Hr' Hne. destruct (lay_run _ _ _ _ _ _ Hl Hr) as (_ & _ & Hc & _ & ? & ? & ? & _).
  destruct (lay_run _ _ _ _ _ _ Hl Hr') as (_ & _ & Hc' & _ & ? & ? & ? & _).
  destruct page_facts as (? & _ & Hpn & _). pose proof chunksize_pos. unfold ranges_apart, raddr. simpl. change PAGE with 8192 in *.
  destruct (Z.lt_trichotomy c c') as [Hlt|[->|Hlt]].
  - left. pose proof (mod_0_lt_add c c' chunksize). lia.
  - destruct (pt_sep _ _ (lo_part _ _ Hl) _ _ _ _ _ _ _ Hr Hr') as [->|[?|?]]; [done|lia|lia].
  - right. pose proof (mod_0_lt_add c' c chunksize). lia.
Qed.

Lemma raddr_inj h R c s c' s' v v' :
  layout_ok h R → R !! (c, s) = Some v → R !! (c', s') = Some v' → raddr c s = raddr c' s' → c = c' ∧ s = s'.
Proof.
  intros Hl Hr Hr' E. destruct v as [n k], v' as [n' k']. destruct (decide ((c, s) = (c', s'))) as [[= -> ->]|Hne]; [done|].
  destruct (lay_run _ _ _ _ _ _ Hl Hr) as (_ & _ & _ & _ & _ & ? & _). destruct (lay_run _ _ _ _ _ _ Hl Hr') as (_ & _ & _ & _ & _ & ? & _).
  destruct (runs_apart _ _ _ _ _ _ _ _ _ _ Hl Hr Hr' Hne) as [Ha|Ha]; simpl in Ha; change PAGE with 8192 in *; lia.
Qed.

(** The contents of the allocated runs stay. *)
Definition contents_kept R a a' : Prop :=
  ∀ c s n k, allocated R !! (c, s) = Some (n, k) → ∀ y, raddr c s ≤ y < raddr c s + n * PAGE → a_mem a' y = a_mem a y.

Lemma contents_refl R a a' : a_mem a' = a_mem a → contents_kept R a a'.
Proof. intros E c s n k _ y _. by rewrite E. Qed.

Lemma contents_trans R R' a1 a2 a3 :
  allocated R' = allocated R → contents_kept R a1 a2 → contents_kept R' a2 a3 → contents_kept R a1 a3.
Proof. intros E H1 H2 c s n k Hr y Hy. rewrite (H2 c s n k), (H1 c s n k); [done..|by rewrite E|done]. Qed.

(** The counters and the list, when the dirty runs of the chunk were taken. *)
Lemma books_at a a' R p C N c ch :
  arena_at a R None c p None C N → hdrs a !! c = Some ch → (∀ s n, R !! (c, s) ≠ Some (n, Free true)) →
  hdrs a' = <[c := ArenaChunk false 0 (chunk_map ch)]> (hdrs a) → ndirty a' = u64 (ndirty a + - chunk_ndirty ch) →
  chunks_dirty a' = ql_remove c (chunks_dirty a) → (∀ d, avail d a' = avail d a) → spare a' = spare a → nactive a' = nactive a →
  mapped (a_stats a') = mapped (a_stats a) → a_chunks a' = a_chunks a → (framed C (a_mem a) → framed C (a_mem a')) →
  arena_inv a' R C N.
Proof.
  intros Ha Hch Hcl Eh Ed El Et Es En Em Ec Ef. pose proof (aa_core _ _ _ _ _ _ _ _ Ha) as Hcore. pose proof (aa_dirty _ _ _ _ _ _ _ _ Ha) as Hd.
  set (f := λ ch, ArenaChunk false 0 (chunk_map ch)). assert (Hf : ∀ ch, chunk_map (f ch) = chunk_map ch) by done.
  assert (Eh' : hdrs a' = alter f c (hdrs a)).
  { rewrite Eh. apply map_eq. intros c'. destruct (decide (c' = c)) as [->|Hne]; [by rewrite lookup_insert_eq, lookup_alter_eq, Hch|].
    by rewrite lookup_insert_ne, lookup_alter_ne. }
  assert (Hz : dirty_pages_in c R = 0).
  { apply pages_zero. intros [c' s] [n k] E. cbn [fst snd]. destruct (bool_decide_reflect (c' = c)) as [->|]; [|done].
    destruct k as [[]| |]; try reflexivity. by apply Hcl in E. }
  assert (Hio : hdr_info (hdrs a) c = Some (dirtied ch, chunk_ndirty ch)) by (unfold hdr_info; by rewrite Hch).
  split.
  - split; [rewrite Eh'; by apply alter_layout, Hcore| |apply Hcore|].
    + intros d. rewrite Es, Et, Eh'. exact (alter_trees f Hf c a _ (ac_tree _ _ _ Hcore) d).
    + intros c'. rewrite Es. apply Hcore.
  - split.
    + rewrite Ed, (do_total _ _ _ _ _ Hd), (do_chunk _ _ _ _ _ Hd _ _ _ Hio), Hz, decide_True by done. rewrite u64_sub_idemp. f_equal. lia.
    + intros c' d nd. rewrite Eh', alter_info. case_decide as Hc'.
      * subst c'. rewrite Hch, Hz. intros [= <- <-]. by case_decide.
      * intros E. rewrite (do_chunk _ _ _ _ _ Hd _ _ _ E). rewrite (decide_False (P := c' = c)) by done. by case_decide.
    + rewrite El. by apply NoDup_filter, Hd.
    + intros c'. rewrite El, ql_remove_elem, Eh', alter_info, (do_listed _ _ _ _ _ Hd). case_decide as Hc'; [subst c'|naive_solver].
      rewrite Hch. split; [naive_solver|by intros [nd [=]]].
    + intros c' s n E. right. rewrite El. apply ql_remove_elem. split; [by destruct (do_dirty _ _ _ _ _ Hd _ _ _ E)|].
      intros ->. by apply Hcl in E.
  - rewrite En. apply Ha.
  - rewrite Em, (aa_mapped _ _ _ _ _ _ _ _ Ha), Eh'. do 3 f_equal. symmetry. apply same_dom_size. intros c'. apply alter_some.
  - eapply owns_frame; [|exact Ec|exact Ef|apply Ha]. intros c'. rewrite Eh'. apply alter_some.
Qed.

Context (old_word : Z → Z → Z) (os_purge : Z → Z → (Z → Z) → (Z → Z)).
(** [madvise] touches only the range it is given. *)
Hypothesis os_purge_range : ∀ p n f, mem_but p n f (os_purge p n f).

Lemma wp_advise a R c l (Q : unit → astate S T → Prop) :
  layout_ok (hdrs a) R → (∀ s, s ∈ l → ∃ n d, R !! (c, s) = Some (n, Large d)) →
  (∀ mem, (∀ y, (∀ s n k, s ∈ l → R !! (c, s) = Some (n, k) → ¬ raddr c s ≤ y < raddr c s + n * PAGE) → mem y = a_mem a y) →
     Q tt (set_amem mem a)) →
  wp (for_each l (λ pageind,
    z ← arena_mapbits_large_size_get c pageind;
    let npages := Z.shiftr z LG_PAGE in
    check (pageind + npages <=? chunk_npages);;
    modify (λ a, set_amem (os_purge (c + Z.shiftl pageind LG_PAGE) (Z.shiftl npages LG_PAGE) (a_mem a)) a))) a Q.
Proof.
  intros Hl Hin HQ.
  eapply (wp_for_each _ _ _ (λ _ a', ∃ mem, a' = set_amem mem a ∧
    ∀ y, (∀ s n k, s ∈ l → R !! (c, s) = Some (n, k) → ¬ raddr c s ≤ y < raddr c s + n * PAGE) → mem y = a_mem a y)).
  - exists (a_mem a). by destruct a.
  - intros l1 s l2 a' El (mem & -> & Hm). destruct (Hin s) as (n & d & Hr); [rewrite El; set_solver|].
    destruct (lay_run _ _ _ _ _ _ Hl Hr) as (_ & _ & _ & _ & ? & ? & ? & Hrw). wsteps. eapply wp_large_size; [apply Hrw|]. wsteps.
    rewrite shiftr_page, !shiftl_page. apply wp_check; [by apply Z.leb_le|]. wsteps. eexists. split; [reflexivity|]. acbn.
    intros y Hy. rewrite os_purge_range; [by apply Hm|]. eapply (Hy s n); [rewrite El; set_solver|exact Hr].
  - intros a' (mem & -> & Hm). by apply HQ.
Qed.

(** Fewer chunks are listed. *)
Definition list_shrinks a a' : Prop :=
  (∀ c, c ∈ chunks_dirty a' → c ∈ chunks_dirty a) ∧ (length (chunks_dirty a') ≤ length (chunks_dirty a))%nat.

Lemma list_shrinks_trans a1 a2 a3 : list_shrinks a1 a2 → list_shrinks a2 a3 → list_shrinks a1 a3.
Proof. intros [? ?] [? ?]. split; [naive_solver|lia]. Qed.

(** The runs taken are freed one by one. *)
Lemma wp_release a R C N c l (Q : unit → astate S T → Prop) :
  arena_inv a R C N → NoDup l → (∀ s, s ∈ l → ∃ n, R !! (c, s) = Some (n, Large false)) →
  (∀ a' R', arena_inv a' R' C N →
     (∀ c' s v, allocated R' !! (c', s) = Some v ↔ allocated R !! (c', s) = Some v ∧ ¬ (c' = c ∧ s ∈ l)) →
     kept a a' → a_mem a' = a_mem a → list_shrinks a a' → Q tt a') →
  wp (for_each l (λ pageind, arena_run_dalloc_clean (c + Z.shiftl pageind LG_PAGE))) a Q.
Proof.
  intros Ha Hnd Hin HQ.
  eapply (wp_for_each _ _ _ (λ l1 a', ∃ R', arena_inv a' R' C N ∧
    (∀ c' s v, allocated R' !! (c', s) = Some v ↔ allocated R !! (c', s) = Some v ∧ ¬ (c' = c ∧ s ∈ l1)) ∧
    kept a a' ∧ a_mem a' = a_mem a ∧ list_shrinks a a')).
  - exists R. split_and!; [done| |done..|split; [done|lia]]. intros c' s v. split; [|by intros [? _]]. intros E. split; [done|]. set_solver.
  - intros l1 s l2 a1 El (R1 & Ha1 & Hal & Hk & Hm & Hsh). destruct (Hin s) as (n & Hr); [rewrite El; set_solver|].
    assert (Hr1 : R1 !! (c, s) = Some (n, Large false)).
    { assert (E : allocated R1 !! (c, s) = Some (n, Large false)); [|by apply allocated_lookup in E as [? _]].
      apply Hal. split; [by apply allocated_lookup|]. intros [_ Hs]. rewrite El in Hnd. apply NoDup_app in Hnd as (_ & Hd & _).
      apply (Hd s Hs). set_solver. }
    unfold arena_run_dalloc_clean. rewrite shiftl_page.
    eapply (wp_run_dalloc_with _ a1 R1 C N c s n (Large false) false); [done..|]. intros a2 R2 Ha2 Hal2 Hk2 Hm2. cbn [kdirty orb].
    intros Hsh2. exists R2. split_and!; [done| |by eapply kept_trans|congruence|by eapply list_shrinks_trans].
    intros c' s' v. rewrite Hal2, lookup_delete_Some, Hal, elem_of_app, list_elem_of_singleton. split.
    + intros [Hne [HA Hno]]. split; [exact HA|]. intros [-> [?| ->]]; [by apply Hno|by apply Hne].
    + intros [HA Hno]. split; [intros [= <- <-]; apply Hno; split; [reflexivity|by right]|]. split; [exact HA|].
      intros [-> ?]. apply Hno. split; [reflexivity|by left].
  - intros a' (R' & Ha' & Hal & Hk & Hm & Hsh). by eapply HQ.
Qed.

(** The layout of allocated runs after purging a chunk. *)
Lemma taken_allocated c i l R R1 R2 :
  taken c i l R R1 →
  (∀ c' s v, allocated R2 !! (c', s) = Some v ↔ allocated R1 !! (c', s) = Some v ∧ ¬ (c' = c ∧ s ∈ l)) →
  allocated R2 = allocated R.
Proof.
  intros [_ Hin Hout _] Hal. apply map_eq. intros [c' s]. apply option_eq. intros v. rewrite Hal, !allocated_lookup.
  destruct (decide (c' = c ∧ s ∈ l)) as [[-> Hs]|Hno].
  - destruct (Hin s Hs) as (_ & n & E & _). rewrite E. split; [naive_solver|]. intros [[= <-] Hf]. done.
  - rewrite Hout by done. naive_solver.
Qed.

Lemma taken_contents h c i l R R1 a mem :
  layout_ok h R → taken c i l R R1 →
  (∀ y, (∀ s n k, s ∈ l → R1 !! (c, s) = Some (n, k) → ¬ raddr c s ≤ y < raddr c s + n * PAGE) → mem y = a_mem a y) →
  ∀ c' s n k, allocated R !! (c', s) = Some (n, k) → ∀ y, raddr c' s ≤ y < raddr c' s + n * PAGE → mem y = a_mem a y.
Proof.
  intros Hl [_ Hin _ _] Hm c' s n k [E Hf]%allocated_lookup y Hy. apply Hm. intros s1 n1 k1 Hs1 E1 Hy1.
  destruct (Hin s1 Hs1) as (_ & n2 & E2 & E3). rewrite E3 in E1. injection E1 as <- <-.
  destruct (runs_apart _ _ _ _ _ _ _ _ _ _ Hl E E2) as [Hap|Hap]; [|simpl in Hap; lia..].
  intros [= -> ->]. rewrite E in E2. injection E2 as -> ->. done.
Qed.

Lemma at_pending a R E pc pc' x C N : arena_at a R E pc 0 x C N → arena_at a R E pc' 0 x C N.
Proof.
  intros [Hcore Hd Hact Hmap Hown]. split; [done| |done..]. split; [apply Hd| |apply Hd..].
  intros c d nd Eh. rewrite (do_chunk _ _ _ _ _ Hd c d nd Eh). by repeat case_decide.
Qed.

Lemma ql_remove_shorter c l : c ∈ l → (length (ql_remove c l) < length l)%nat.
Proof.
  induction l as [|y l IH]; [by intros ?%elem_of_nil|]. intros Hin. unfold ql_remove. destruct (decide (y ≠ c)) as [Hne|Hne].
  - rewrite filter_cons_True by done. apply elem_of_cons in Hin as [->|Hin]; [done|]. specialize (IH Hin). unfold ql_remove in IH. simpl. lia.
  - rewrite filter_cons_False by done. pose proof (length_filter (λ y, y ≠ c) l). simpl. lia.
Qed.

(** When the chunk is the spare, its one run goes back into a tree first. *)
Lemma wp_unspare a R C N c ch (Q : unit → astate S T → Prop) :
  arena_inv a R C N → hdrs a !! c = Some ch → chunk_ndirty ch ≠ 0 →
  (∀ a', arena_inv a' R C N → kept a a' → a_mem a' = a_mem a → spare a' ≠ Some c → hdrs a' = hdrs a →
     chunks_dirty a' = chunks_dirty a → Q tt a') →
  wp (if decide (spare a = Some c) then
       d ← arena_mapbits_dirty_get c map_bias; check (negb (d =? 0));;
       d ← arena_mapbits_dirty_get c (chunk_npages - 1); check (negb (d =? 0));;
       arena_chunk_alloc old_word;; mret tt
     else mret tt) a Q.
Proof.
  intros Ha Hch Hnd HQ. case_decide as Es; [|by apply wp_ret, HQ].
  pose proof (aa_core _ _ _ _ _ _ _ _ Ha) as Hcore. pose proof (lo_part _ _ (ac_lay _ _ _ Hcore)) as Hp.
  destruct (ac_spare _ _ _ Hcore _ Es) as [[d Hr] _]. destruct (drop_counts _ R c d Hp Hr) as (_ & _ & _ & Hz).
  assert (d = true) as ->.
  { destruct d; [done|]. destruct Hnd. assert (Hio : hdr_info (hdrs a) c = Some (dirtied ch, chunk_ndirty ch)) by (unfold hdr_info; by rewrite Hch).
    rewrite (do_chunk _ _ _ _ _ (aa_dirty _ _ _ _ _ _ _ _ Ha) _ _ _ Hio), Hz by done. by case_decide. }
  destruct (at_run _ _ _ _ _ _ _ Hcore Hr) as (_ & _ & _ & _ & _ & Hn & _ & Hrw).
  pose proof (run_first _ _ _ _ _ Hn Hrw) as Wf. pose proof (run_last _ _ _ _ _ Hn Hrw) as Wl.
  replace (map_bias + (chunk_npages - map_bias) - 1) with (chunk_npages - 1) in Wl by lia.
  wsteps. eapply wp_dirty_get; [exact Wf|]. wsteps. apply wp_check; [done|]. wsteps. eapply wp_dirty_get; [exact Wl|]. wsteps.
  apply wp_check; [done|]. wsteps. eapply wp_chunk_alloc_spare; [exact Ha|exact Es|]. intros a' Ha' Hk Hm Es' Eh El. wsteps.
  apply HQ; [done..|by rewrite Es'|done|done].
Qed.

Lemma wp_chunk_purge a R C N c ch (Q : unit → astate S T → Prop) :
  arena_inv a R C N → run_hdrs a R → hdrs a !! c = Some ch → c ∈ chunks_dirty a → chunk_ndirty ch ≠ 0 →
  (∀ a' R', arena_inv a' R' C N → allocated R' = allocated R → kept a a' → contents_kept R a a' →
     (length (chunks_dirty a') < length (chunks_dirty a))%nat → Q tt a') →
  wp (arena_chunk_purge old_word os_purge c) a Q.
Proof.
  intros Ha Hh Hch Hin Hnd HQ. unfold arena_chunk_purge. wsteps. unfold id. eapply wp_unspare; [done..|].
  intros a1 Ha1 Hk1 Hm1 Hsp1 Eh1 El1. wsteps. pose proof (aa_core _ _ _ _ _ _ _ _ Ha1) as Hcore1.
  assert (Hst : is_Some (R !! (c, map_bias))).
  { destruct page_facts as (_ & Hb & _).
    destruct (pt_cover _ _ (lo_part _ _ (ac_lay _ _ _ Hcore1)) c map_bias) as (s & n & k & E & Hs); [rewrite Eh1; by eexists|split; lia|].
    destruct (pt_range _ _ (lo_part _ _ (ac_lay _ _ _ Hcore1)) _ _ _ _ E) as (_ & ? & _). replace map_bias with s by lia. by eexists. }
  assert (Hfuel : chunk_npages - map_bias ≤ Z.of_nat (Z.to_nat chunk_npages)) by (destruct page_facts as (? & ? & _); lia).
  eapply (wp_purge_scan _ c _ C N a1 R 0); [by eapply at_pending|done|by eapply run_hdrs_kept|by right|exact Hfuel|].
  intros a2 R2 p2 l Ha2 (Hk2 & Hm2 & Hs2 & Hl2) Ht. wsteps. unfold chunk_get, on_stats, add_ndirty, dirty_list_remove, chunk_set. wsteps.
  assert (Hcl : ∀ s n, R2 !! (c, s) ≠ Some (n, Free true)).
  { intros s n E. eapply tk_clean; [exact Ht| |exact E]. by destruct (pt_range _ _ (lo_part _ _ (ac_lay _ _ _ (aa_core _ _ _ _ _ _ _ _ Ha2))) _ _ _ _ E) as (_ & ? & _). }
  destruct (hdrs a2 !! c) as [ch2|] eqn:Hch2.
  2:{ exfalso. assert (E : hdr_info (hdrs a2) c = None) by (unfold hdr_info; by rewrite Hch2).
      assert (Hin2 : c ∈ chunks_dirty a2) by by rewrite Hl2, El1.
      apply (do_listed _ _ _ _ _ (aa_dirty _ _ _ _ _ _ _ _ Ha2)) in Hin2 as [nd E']. congruence. }
  eapply wp_lift; [exact Hch2|]. wsteps. unfold id. acbn.
  apply wp_check; [apply bool_decide_eq_true; by rewrite Hl2, El1|]. wsteps. acbn.
  match goal with |- wp _ ?a3 _ => assert (Ha3 : arena_inv a3 R2 C N) by (eapply (books_at a2 _ R2 p2); [exact Ha2|exact Hch2|exact Hcl|reflexivity..|exact id]) end.
  eapply (wp_advise _ R2); [exact (ac_lay _ _ _ (aa_core _ _ _ _ _ _ _ _ Ha3))|intros s Hs; destruct (tk_in _ _ _ _ _ Ht s Hs) as (_ & n & _ & ?); eauto|].
  intros mem Hmem. wsteps. acbn.
  eapply (wp_release _ R2 C N); [|apply Ht|intros s Hs; destruct (tk_in _ _ _ _ _ Ht s Hs) as (_ & n & _ & ?); eauto|].
  { eapply at_same; [..|exact Ha3]; [reflexivity..|]. intros _. eapply (owns_write _ C N c); [apply Ha3|acbn; rewrite lookup_insert_eq; by eexists|].
    acbn. intros y Hy. apply Hmem. intros s n k _ E. destruct (lay_run _ _ _ _ _ _ (ac_lay _ _ _ (aa_core _ _ _ _ _ _ _ _ Ha3)) E) as (_ & _ & _ & _ & ? & ? & ? & _).
    pose proof page_facts as (? & ? & ? & _). unfold raddr. change PAGE with 8192 in *. lia. }
  intros a4 R4 Ha4 Hal4 Hk4 Hm4 [_ Hlen]. acbn_in Hlen. apply (HQ _ R4); [exact Ha4|by eapply taken_allocated| | |].
  - eapply kept_trans; [exact Hk1|]. by eapply kept_trans; [exact Hk2|].
  - intros c' s n k Hr y Hy. rewrite Hm4. acbn. rewrite <- Hm1, <- Hm2.
    eapply (taken_contents (hdrs a1) c map_bias l R R2 _ mem); [apply Hcore1|exact Ht| |exact Hr|exact Hy]. exact Hmem.
  - rewrite Hl2, El1 in Hlen. pose proof (ql_remove_shorter c (chunks_dirty a) Hin). lia.
Qed.
End chunk_purge.

(** ** The loop over the chunks *)

Section purge.
Context `{Config} `{Opts} {S : Type} `{CL : ChunkLayer S} {T : Type} `{OT : OrdTree T Z}.
Context `{!ChunkLayerLaws S} {FR : Frame} `{!OrdTreeLaws T Z}.
Implicit Types (a : astate S T) (h : gmap Z arena_chunk) (R : layout) (c s i n m e o : Z) (d : bool) (key : Z * Z) (k : kind).

Lemma ql_remove_head c l : NoDup (c :: l) → ql_remove c (c :: l) = l.
Proof.
  intros [Hn _]%NoDup_cons. unfold ql_remove. rewrite filter_cons_False by (intros Hc; by apply Hc).
  induction l as [|y l IH]; [done|]. rewrite filter_cons_True by set_solver. f_equal. apply IH. set_solver.
Qed.

(** A chunk whose counter is 0 has no dirty run. *)
Lemma no_dirty a R pc x C N c d :
  arena_at a R None pc 0 x C N → hdr_info (hdrs a) c = Some (d, 0) → ∀ s n, R !! (c, s) ≠ Some (n, Free true).
Proof.
  intros Ha Hio s n E. pose proof (lo_part _ _ (ac_lay _ _ _ (aa_core _ _ _ _ _ _ _ _ Ha))) as Hp.
  pose proof (do_chunk _ _ _ _ _ (aa_dirty _ _ _ _ _ _ _ _ Ha) _ _ _ Hio) as Hz.
  assert (Hb : 0 ≤ dirty_pages_in c R ≤ Z.max 0 (chunk_npages - map_bias)).
  { apply (pages_bound R c (λ _ k, dirty_kind k) map_bias chunk_npages).
    - intros s' n' k' E'. by destruct (pt_range _ _ Hp _ _ _ _ E') as (_ & ?).
    - intros s1 n1 k1 s2 n2 k2. apply (pt_sep _ _ Hp). }
  assert (Hge : n ≤ dirty_pages_in c R).
  { apply (pages_ge (λ key k, bool_decide (key.1 = c) && dirty_kind k) R (c, s) (n, Free true)); [|done|].
    - intros [c' s'] [n' k'] E'. destruct (pt_range _ _ Hp _ _ _ _ E') as (_ & _ & ? & _). simpl. lia.
    - cbn [fst snd dirty_kind]. by rewrite bool_decide_eq_true_2. }
  destruct (pt_range _ _ Hp _ _ _ _ E) as (_ & _ & Hn & _). pose proof chunk_npages_bounds. destruct page_facts as (? & ? & _).
  replace (dirty_pages_in c R + (if decide (c = pc) then 0 else 0)) with (dirty_pages_in c R) in Hz by (case_decide; lia).
  rewrite u64_small in Hz; [lia|]. unfold is_u64. lia.
Qed.

Lemma wp_skip_undirty l C N a R (Q : option (Z * arena_chunk) → astate S T → Prop) :
  arena_inv a R C N → chunks_dirty a = l →
  (∀ a', arena_inv a' R C N → kept a a' → a_mem a' = a_mem a → Q None a') →
  (∀ a' c ch, arena_inv a' R C N → kept a a' → a_mem a' = a_mem a → hdrs a' !! c = Some ch → c ∈ chunks_dirty a' →
     chunk_ndirty ch ≠ 0 → (length (chunks_dirty a') ≤ length l)%nat → Q (Some (c, ch)) a') →
  wp (skip_undirty l) a Q.
Proof.
  revert a Q. induction l as [|c l IH]; intros a Q Ha El Hnone Hsome; cbn [skip_undirty]; [by apply wp_ret, Hnone|].
  pose proof (aa_dirty _ _ _ _ _ _ _ _ Ha) as Hd. assert (Hin : c ∈ chunks_dirty a) by (rewrite El; set_solver).
  pose proof (proj1 (do_listed _ _ _ _ _ Hd c) Hin) as [nd Hio]. unfold hdr_info in Hio. destruct (hdrs a !! c) as [ch|] eqn:Hch; [|done].
  injection Hio as Edi End. unfold chunk_get, chunk_set, dirty_list_remove. wsteps. eapply wp_lift; [exact Hch|].
  destruct (Z.eqb_spec (chunk_ndirty ch) 0) as [E0|Hne]; wsteps.
  - apply wp_check; [by apply bool_decide_eq_true|]. wsteps. acbn. unfold id.
    assert (Ho : hdr_info (hdrs a) c = Some (true, 0)) by (unfold hdr_info; rewrite Hch; simpl; by rewrite Edi, E0).
    assert (Ha1 : arena_inv (set_hdrs (<[c := ArenaChunk false (chunk_ndirty ch) (chunk_map ch)]> (hdrs a))
      (set_chunks_dirty (ql_remove c (chunks_dirty a)) a)) R C N).
    { eapply (books_at a _ R 0); [by eapply at_pending|exact Hch|by eapply no_dirty|rewrite E0; reflexivity|acbn|reflexivity..|exact id].
      rewrite E0, (do_total _ _ _ _ _ Hd), u64_add_idemp. f_equal. lia. }
    eapply IH; [exact Ha1|acbn; rewrite El; apply ql_remove_head; rewrite <- El; apply Hd| |].
    + intros a' Ha' Hk Hm. by apply Hnone.
    + intros a' c' ch' Ha' Hk Hm Hc' Hi' Hn' Hlen. apply Hsome; [done..|]. simpl. lia.
  - apply Hsome; [done..|by rewrite El].
Qed.

Context (old_word : Z → Z → Z) (os_purge : Z → Z → (Z → Z) → (Z → Z)).
Hypothesis os_purge_range : ∀ p n f, mem_but p n f (os_purge p n f).

Lemma run_hdrs_allocated a R R' : allocated R' = allocated R → run_hdrs a R → run_hdrs a R'.
Proof.
  intros E Hh c s n k Er. destruct (is_free k) eqn:Hk; [by destruct k|]. apply Hh.
  assert (Ea : allocated R' !! (c, s) = Some (n, k)) by by apply allocated_lookup. rewrite E in Ea. by apply allocated_lookup in Ea as [? _].
Qed.

(** What purging leaves. *)
Record purged_to a R C N a' R' : Prop := {
  pg_inv : arena_inv a' R' C N;
  pg_alloc : allocated R' = allocated R;
  pg_kept : kept a a';
  pg_mem : contents_kept R a a'
}.

Lemma wp_purge_loop fuel C N a R npurg (Q : unit → astate S T → Prop) :
  arena_inv a R C N → run_hdrs a R → (length (chunks_dirty a) < fuel)%nat →
  (∀ a' R', purged_to a R C N a' R' → Q tt a') →
  wp (purge_loop old_word os_purge fuel npurg) a Q.
Proof.
  revert a R npurg Q. induction fuel as [|fuel IH]; intros a R npurg Q Ha Hh Hf HQ; [lia|]. cbn [purge_loop].
  destruct (0 <? npurg); [|by apply wp_ret, (HQ a R); split; [done..|by apply contents_refl]].
  wsteps. unfold id. eapply wp_skip_undirty; [exact Ha|done| |].
  - intros a1 Ha1 Hk1 Hm1. wsteps. apply (HQ _ R). split; [by eapply at_same; [..|exact Ha1]|done|done|by apply contents_refl].
  - intros a1 c ch Ha1 Hk1 Hm1 Hch Hin Hnd Hlen. wsteps.
    assert (Hgo : ∀ np np', wp (arena_chunk_purge old_word os_purge c) (set_npurgatory np a1)
      (λ _ a2, wp (purge_loop old_word os_purge fuel np') a2 Q)).
    { intros np np'. eapply (wp_chunk_purge old_word os_purge os_purge_range _ R C N c ch);
        [by eapply at_same; [..|exact Ha1]|by eapply run_hdrs_kept|done|done|done|].
      intros a2 R2 Ha2 Hal2 Hk2 Hm2 Hlen2. acbn_in Hlen2. eapply IH; [exact Ha2| |lia|].
      - eapply run_hdrs_allocated; [exact Hal2|]. eapply run_hdrs_kept; [|exact Hh]. eapply kept_trans; [exact Hk1|exact Hk2].
      - intros a3 R3 [Ha3 Hal3 Hk3 Hm3]. apply (HQ _ R3). split; [done|congruence|..].
        + eapply kept_trans; [exact Hk1|]. eapply kept_trans; [exact Hk2|exact Hk3].
        + eapply (contents_trans R R); [done|by apply contents_refl|]. eapply contents_trans; [exact Hal2|exact Hm2|exact Hm3]. }
    destruct (npurg <? chunk_ndirty ch); wsteps; acbn; apply Hgo.
Qed.

Lemma wp_purge all C N a R (Q : unit → astate S T → Prop) :
  arena_inv a R C N → run_hdrs a R →
  (all = false → npurgatory a < ndirty a ∧ chunk_npages < u64 (ndirty a - npurgatory a) ∧
     Z.shiftr (nactive a) opt_lg_dirty_mult < u64 (ndirty a - npurgatory a)) →
  (∀ a' R', purged_to a R C N a' R' → Q tt a') →
  wp (arena_purge old_word os_purge all) a Q.
Proof.
  intros Ha Hh Hall HQ. unfold arena_purge, on_stats. cbv zeta. wsteps. unfold id.
  assert (Hc : ∀ b1 b2, b1 < b2 ∨ all = true → (b1 <? b2) || all = true).
  { intros b1 b2 [?| ->]; [by rewrite (proj2 (Z.ltb_lt _ _))|apply orb_true_r]. }
  destruct all.
  - do 3 (apply wp_check; [apply orb_true_r|]; wsteps). acbn.
    eapply wp_purge_loop; [by eapply at_same; [..|exact Ha]|exact Hh|acbn; lia|]. intros a' R' [? ? ? ?]. by apply (HQ a' R').
  - destruct (Hall eq_refl) as (H1 & H2 & H3). do 3 (apply wp_check; [apply Hc; by left|]; wsteps).
    apply wp_check; [apply Z.leb_le; lia|]. wsteps. acbn.
    eapply wp_purge_loop; [by eapply at_same; [..|exact Ha]|exact Hh|acbn; lia|]. intros a' R' [? ? ? ?]. by apply (HQ a' R').
Qed.

Lemma wp_maybe_purge C N a R (Q : unit → astate S T → Prop) :
  arena_inv a R C N → run_hdrs a R → (∀ a' R', purged_to a R C N a' R' → Q tt a') →
  wp (arena_maybe_purge old_word os_purge) a Q.
Proof.
  intros Ha Hh HQ. unfold arena_maybe_purge. wsteps. unfold id.
  destruct (_ && _) eqn:E; [|apply wp_ret, (HQ a R); split; [done..|by apply contents_refl]].
  rewrite !andb_true_iff, !Z.ltb_lt in E. eapply wp_purge; [done|done| |exact HQ]. intros _. tauto.
Qed.
End purge.
