(* ===== verification/ArenaTrim.v ===== *)
(** * The operations on runs, as their callers see them

    [arena_run_dalloc] with the purging it may do, and trimming of large runs:
    what each does to the map of allocated runs and to the contents of memory. *)

From S2P Require Import Prelude OrdTree Bitmap SizeClass BinInfo ArenaBits ChunkIface Arena ArenaMap ArenaTree ArenaInv ArenaRun ArenaDalloc ArenaPurge.

Section trim.
Context `{Config} `{Opts} {S : Type} `{CL : ChunkLayer S} {T : Type} `{OT : OrdTree T Z}.
Context `{!ChunkLayerLaws S} {FR : Frame} `{!OrdTreeLaws T Z}.
Context (old_word : Z → Z → Z) (os_purge : Z → Z → (Z → Z) → (Z → Z)).
Hypothesis os_purge_range : ∀ p n f, mem_but p n f (os_purge p n f).
Implicit Types (a : astate S T) (h : gmap Z arena_chunk) (R : layout) (c s i n m e o : Z) (d : bool) (key : Z * Z) (k : kind).

(** The run [(c, s)] is freed, and nothing else. *)
Record freed_to a R C N c s a' R' : Prop := {
  fr_inv : arena_inv a' R' C N;
  fr_alloc : allocated R' = delete (c, s) (allocated R);
  fr_kept : kept a a';
  fr_mem c' s' n k : (c', s') ≠ (c, s) → allocated R !! (c', s') = Some (n, k) →
    ∀ y, raddr c' s' ≤ y < raddr c' s' + n * PAGE → a_mem a' y = a_mem a y
}.

Lemma wp_run_dalloc a R C N c s n k dirty (Q : unit → astate S T → Prop) :
  arena_inv a R C N → run_hdrs a R → allocated R !! (c, s) = Some (n, k) →
  (∀ a' R', freed_to a R C N c s a' R' → Q tt a') →
  wp (arena_run_dalloc old_word os_purge (raddr c s) dirty) a Q.
Proof using os_purge_range OrdTreeLaws0.
  intros Ha Hh [Hr Hk]%allocated_lookup HQ. eapply wp_run_dalloc_with; [exact Ha|exact Hr|exact Hk|by apply Hh|].
  intros a1 R1 Ha1 Hal1 Hk1 Hm1. destruct (dirty || kdirty k).
  - eapply (wp_maybe_purge old_word os_purge os_purge_range C N a1 R1); [exact Ha1| |].
    + intros c' s' n' k' E. destruct (is_free k') eqn:Hf; [by destruct k'|]. eapply run_hdrs_kept; [exact Hk1|exact Hh|].
      assert (E' : allocated R1 !! (c', s') = Some (n', k')) by by apply allocated_lookup.
      rewrite Hal1 in E'. apply lookup_delete_Some in E' as [_ E']. by apply allocated_lookup in E' as [? _].
    + intros a2 R2 [Ha2 Hal2 Hk2 Hm2]. apply (HQ a2 R2). split; [done|congruence|by eapply kept_trans|].
      intros c' s' n' k' Hne E y Hy. rewrite (Hm2 c' s' n' k'); [by rewrite Hm1| |done]. rewrite Hal1. by rewrite lookup_delete_ne.
  - intros _. apply (HQ a1 R1). split; [done..|]. intros. by rewrite Hm1.
Qed.

(** A large run becomes two. *)
Lemma halve_counts R c s n m d D :
  partition D R → R !! (c, s) = Some (n, Large d) → 0 < m < n →
  let R' := carve R c s n m (Large d) (Large d) in
  active_pages R' = active_pages R ∧ dirty_pages R' = dirty_pages R ∧ ∀ c', dirty_pages_in c' R' = dirty_pages_in c' R.
Proof.
  intros Hp Hr Hm R'. unfold active_pages, dirty_pages, dirty_pages_in, R'.
  split_and!; [| |intros c']; rewrite (carve_pages D R c s n m (Large d)) by (done || lia); unfold weight; simpl; rewrite ?andb_false_r; lia.
Qed.

Lemma halve_lookup R c s n m d D c1 s1 n1 d1 :
  partition D R → R !! (c, s) = Some (n, Large d) → 0 < m < n →
  carve R c s n m (Large d) (Large d) !! (c1, s1) = Some (n1, Free d1) ↔ R !! (c1, s1) = Some (n1, Free d1).
Proof.
  intros Hp Hr Hm. rewrite (carve_lookup D R c s n m (Large d)) by (done || lia). split.
  - intros [(_ & _ & [=])|[(_ & _ & _ & [=])|[_ ?]]]. done.
  - intros E. right; right. split; [|done]. intros [= -> ->]. rewrite Hr in E. done.
Qed.

(** Words change, not those of the free runs. *)
Lemma relay_at a R R' C N c (P : Z → Prop) h :
  arena_inv a R C N → words_but c P (hdrs a) h → layout_ok h R' →
  (∀ s' n' d', R !! (c, s') = Some (n', Free d') → ¬ P s') →
  (∀ c1 s1 n1 d1, R' !! (c1, s1) = Some (n1, Free d1) ↔ R !! (c1, s1) = Some (n1, Free d1)) →
  active_pages R' = active_pages R ∧ dirty_pages R' = dirty_pages R ∧ (∀ c', dirty_pages_in c' R' = dirty_pages_in c' R) →
  arena_inv (set_hdrs h a) R' C N.
Proof.
  intros Ha Hw Hlay HP Hl (Ca & Cd & Cc). pose proof (aa_core _ _ _ _ _ _ _ _ Ha) as Hcore.
  assert (Hdom : ∀ c', is_Some (h !! c') ↔ is_Some (hdrs a !! c')) by (intros c'; by rewrite (words_but_dom _ _ _ _ c' Hw)).
  split.
  - split; acbn.
    + exact Hlay.
    + intros d'. eapply tr_ext; [|eapply tr_frame; [|exact (ac_tree _ _ _ Hcore d')]].
      * intros [c1 s1]. unfold in_tree. by setoid_rewrite Hl.
      * intros c' s' [[n' E'] _]. apply (words_but_at c _ _ _ _ _ Hw). destruct (decide (c' = c)) as [->|]; [right|by left]. by eapply HP.
    + intros c1 s1 n1 d1 n2 E1%Hl E2%Hl. by eapply (ac_coal _ _ _ Hcore).
    + intros c' E'. destruct (ac_spare _ _ _ Hcore _ E') as [[d0 E0] HE]. split; [|done]. exists d0. by apply Hl.
  - eapply (dirty_keep a); [apply Ha|done..| |].
    + intros c'. by eapply words_but_info.
    + intros c' s' n' E'%Hl. eauto.
  - rewrite Ca. apply Ha.
  - acbn. rewrite (aa_mapped _ _ _ _ _ _ _ _ Ha). do 3 f_equal. symmetry. by apply same_dom_size.
  - eapply (owns_frame a); [done..|apply Ha].
Qed.

(** No free run begins inside an allocated one. *)
Lemma no_free_inside R D c s n k s' n' d' :
  partition D R → R !! (c, s) = Some (n, k) → is_free k = false → R !! (c, s') = Some (n', Free d') → ¬ s ≤ s' < s + n.
Proof.
  intros Hp Hr Hk E' Hi. destruct (decide (s' = s)) as [->|]; [rewrite Hr in E'; injection E' as -> ->; discriminate Hk|].
  by rewrite (pt_inside _ _ _ _ _ _ s' Hp Hr) in E' by lia.
Qed.

(** The words of an allocated run change. *)
Lemma recolor_at a R R' C N c s n k h :
  arena_inv a R C N → R !! (c, s) = Some (n, k) → is_free k = false → words_but c (λ i, s ≤ i < s + n) (hdrs a) h →
  partition (λ c, is_Some (hdrs a !! c)) R' →
  (∀ c' s' n' k', R' !! (c', s') = Some (n', k') → ((c', s') ≠ (c, s) ∧ R !! (c', s') = Some (n', k')) ∨ run_words h c' s' n' k') →
  (∀ c1 s1 n1 d1, R' !! (c1, s1) = Some (n1, Free d1) ↔ R !! (c1, s1) = Some (n1, Free d1)) →
  active_pages R' = active_pages R ∧ dirty_pages R' = dirty_pages R ∧ (∀ c', dirty_pages_in c' R' = dirty_pages_in c' R) →
  arena_inv (set_hdrs h a) R' C N.
Proof.
  intros Ha Hr Hk Hw Hp' HR' Hl Hc. pose proof (ac_lay _ _ _ (aa_core _ _ _ _ _ _ _ _ Ha)) as Hlay.
  eapply relay_at; [exact Ha|exact Hw|by eapply lay_replace| |exact Hl|exact Hc].
  intros s' n' d' E'. by eapply no_free_inside; [apply Hlay|..].
Qed.

Lemma halve_at a R C N c s n m d h :
  arena_inv a R C N → R !! (c, s) = Some (n, Large d) → 0 < m < n →
  words_but c (λ i, s ≤ i < s + n) (hdrs a) h → run_words h c s m (Large d) → run_words h c (s + m) (n - m) (Large d) →
  arena_inv (set_hdrs h a) (carve R c s n m (Large d) (Large d)) C N.
Proof.
  intros Ha Hr Hm Hw W1 W2. pose proof (lo_part _ _ (ac_lay _ _ _ (aa_core _ _ _ _ _ _ _ _ Ha))) as Hp.
  eapply recolor_at; [exact Ha|exact Hr|done|exact Hw|eapply carve_part; [exact Hp|exact Hr|lia]| | |by eapply halve_counts].
  - intros c' s' n' k'. rewrite (carve_lookup _ R c s n m (Large d)) by (done || lia).
    intros [(-> & -> & [= -> ->])|[(_ & -> & -> & [= -> ->])|?]]; [by right..|by left].
  - intros. by eapply halve_lookup.
Qed.

(** A clean small run becomes a large one. *)
Lemma retag_at a R C N c s n bi d h :
  arena_inv a R C N → R !! (c, s) = Some (n, Small bi d) →
  words_but c (λ i, s ≤ i < s + n) (hdrs a) h → run_words h c s n (Large d) →
  arena_inv (set_hdrs h a) (<[(c, s) := (n, Large d)]> R) C N.
Proof.
  intros Ha Hr Hw W. pose proof (lo_part _ _ (ac_lay _ _ _ (aa_core _ _ _ _ _ _ _ _ Ha))) as Hp.
  destruct (pt_range _ _ Hp _ _ _ _ Hr) as (_ & _ & Hn & _). rewrite <- (carve_all R c s n (Large d) false).
  eapply recolor_at; [exact Ha|exact Hr|done|exact Hw|eapply carve_part; [exact Hp|exact Hr|lia]| | |].
  - intros c' s' n' k'. rewrite (carve_lookup _ R c s n n (Small bi d)) by (done || lia).
    intros [(-> & -> & [= -> ->])|[(? & _)|?]]; [by right|lia|by left].
  - intros c1 s1 n1 d1. rewrite (carve_lookup _ R c s n n (Small bi d)) by (done || lia). split.
    + intros [(_ & _ & [=])|[(? & _)|[_ ?]]]; [lia|done].
    + intros E. right; right. split; [|done]. intros [= -> ->]. by rewrite Hr in E.
  - unfold active_pages, dirty_pages, dirty_pages_in.
    split_and!; [| |intros c']; rewrite (carve_pages _ R c s n n (Small bi d)) by (done || lia); unfold weight; simpl; rewrite ?andb_false_r; lia.
Qed.

Lemma wp_retag a R C N c s n bi d (Q : unit → astate S T → Prop) :
  arena_inv a R C N → R !! (c, s) = Some (n, Small bi d) → 1 < n →
  (∀ h, arena_inv (set_hdrs h a) (<[(c, s) := (n, Large d)]> R) C N → Q tt (set_hdrs h a)) →
  wp (arena_mapbits_large_set c s (n * PAGE) (dflag d);; arena_mapbits_large_set c (s + n - 1) 0 (dflag d)) a Q.
Proof.
  intros Ha Hr Hn1 HQ. destruct (at_run _ _ _ _ _ _ _ (aa_core _ _ _ _ _ _ _ _ Ha) Hr) as (Hmaps & Hc & _ & _ & Hs & Hn & Hsn & _).
  destruct (page_mul n) as [? ?]; [lia|]. wsteps. apply wp_large_set; [done|split; lia|done..|]. intros b1 Hb1. acbn.
  apply wp_large_set; [by apply put_word_maps|split; lia|by apply put_word_some|lia|done|]. intros b2 Hb2. acbn.
  apply HQ. eapply retag_at; [exact Ha|exact Hr| |].
  - apply words_put; [done| |lia|split; lia]. apply words_put; [done|by apply words_but_refl|lia|split; lia].
  - split.
    + exists b1. split; [|done]. rewrite bits_put_ne; [apply bits_put_eq; [done..|split; lia]|split; lia|intros [=]; lia].
    + intros _. exists b2. split; [|done]. apply bits_put_eq; [by apply put_word_maps|by apply put_word_some|split; lia].
Qed.

Lemma wp_halve a R C N c s n m d (Q : unit → astate S T → Prop) :
  arena_inv a R C N → R !! (c, s) = Some (n, Large d) → 0 < m < n →
  (∀ h, arena_inv (set_hdrs h a) (carve R c s n m (Large d) (Large d)) C N → Q tt (set_hdrs h a)) →
  wp (arena_mapbits_large_set c (s + m - 1) 0 (dflag d);;
    arena_mapbits_large_set c s (m * PAGE) (dflag d);;
    arena_mapbits_large_set c (s + m) ((n - m) * PAGE) (dflag d)) a Q.
Proof.
  intros Ha Hr Hm HQ. destruct (at_run _ _ _ _ _ _ _ (aa_core _ _ _ _ _ _ _ _ Ha) Hr) as (Hmaps & Hc & _ & _ & Hs & Hn & Hsn & [_ W2]).
  destruct (page_mul (n - m)) as [? ?]; [lia|]. apply wp_bind, wp_block2.
  apply (wp_mark_large a c s m d); [done|done|lia..|]. intros h Hw W1.
  assert (Hmh : maps_ok h) by by eapply words_but_maps. assert (Hch : is_Some (h !! c)) by by apply (words_but_dom _ _ _ _ c Hw).
  apply wp_large_set; [done|split; lia|done..|]. intros b Hb. acbn.
  assert (Hw' : words_but c (λ i, s ≤ i < s + n) (hdrs a) (put_word h c (s + m) b)).
  { apply words_put; [done| |lia|split; lia]. eapply words_but_weaken; [|exact Hw]. intros i Hi. cbv beta in *. lia. }
  apply HQ. eapply halve_at; [done..| |].
  - eapply run_words_frame; [lia| |exact W1]. intros i Hi. apply bits_put_ne; [split; lia|intros [=]; lia].
  - split; [exists b; split; [apply bits_put_eq; [done..|split; lia]|done]|]. intros Hne.
    destruct W2 as (b2 & E2 & Hb2); [lia|]. exists b2. split; [|done]. replace (s + m + (n - m) - 1) with (s + n - 1) by lia.
    rewrite bits_put_ne; [|split; lia|intros [=]; lia]. rewrite (wb_bits _ _ _ _ Hw) by lia. done.
Qed.

(** Two large neighbours become one large run. *)
Lemma fuse_at a R C N c s n n' d1 d2 d h :
  arena_inv a R C N → R !! (c, s) = Some (n, Large d1) → R !! (c, s + n) = Some (n', Large d2) →
  words_but c (λ i, s ≤ i < s + n + n') (hdrs a) h → run_words h c s (n + n') (Large d) →
  arena_inv (set_hdrs h a) (join R c s n n' (Large d)) C N.
Proof.
  intros Ha Hr1 Hr2 Hw W. pose proof (ac_lay _ _ _ (aa_core _ _ _ _ _ _ _ _ Ha)) as Hlay. pose proof (lo_part _ _ Hlay) as Hp.
  destruct (pt_range _ _ Hp _ _ _ _ Hr1) as (_ & _ & Hn & _).
  eapply relay_at; [exact Ha|exact Hw|by eapply join_layout| | |].
  - intros s' n1 d' E' Hi. pose proof (no_free_inside _ _ _ _ _ _ _ _ _ Hp Hr1 eq_refl E').
    pose proof (no_free_inside _ _ _ _ _ _ _ _ _ Hp Hr2 eq_refl E'). lia.
  - intros c1 s1 n1 d'. rewrite join_lookup by done. split; [by intros [(_ & _ & [=])|(_ & _ & ?)]|]. intros E. right.
    split_and!; [..|done]; intros [= -> ->]; congruence.
  - unfold active_pages, dirty_pages, dirty_pages_in.
    split_and!; [| |intros c']; rewrite (join_pages R c s n n' _ _ _ _ Hr1 Hr2 Hn); unfold weight; simpl; rewrite ?andb_false_r; lia.
Qed.

Lemma wp_fuse a R C N c s n n' d1 d2 d (Q : unit → astate S T → Prop) :
  arena_inv a R C N → R !! (c, s) = Some (n, Large d1) → R !! (c, s + n) = Some (n', Large d2) →
  (∀ h, arena_inv (set_hdrs h a) (join R c s n n' (Large d)) C N → Q tt (set_hdrs h a)) →
  wp (arena_mapbits_large_set c s ((n + n') * PAGE) (dflag d);; arena_mapbits_large_set c (s + (n + n') - 1) 0 (dflag d)) a Q.
Proof.
  intros Ha Hr1 Hr2 HQ. destruct (at_run _ _ _ _ _ _ _ (aa_core _ _ _ _ _ _ _ _ Ha) Hr1) as (Hmaps & Hc & _ & _ & Hs & Hn & _ & _).
  destruct (at_run _ _ _ _ _ _ _ (aa_core _ _ _ _ _ _ _ _ Ha) Hr2) as (_ & _ & _ & _ & _ & Hn' & Hsn & _).
  destruct (page_mul (n + n')) as [? ?]; [lia|]. wsteps. apply wp_large_set; [done|split; lia|done..|]. intros b1 Hb1. acbn.
  apply wp_large_set; [by apply put_word_maps|split; lia|by apply put_word_some|lia|done|]. intros b2 Hb2. acbn.
  apply HQ. eapply fuse_at; [exact Ha|exact Hr1|exact Hr2| |].
  - apply words_put; [done| |lia|split; lia]. apply words_put; [done|by apply words_but_refl|lia|split; lia].
  - split.
    + exists b1. split; [|done]. rewrite bits_put_ne; [apply bits_put_eq; [done..|split; lia]|split; lia|intros [=]; lia].
    + intros _. exists b2. split; [|done]. apply bits_put_eq; [by apply put_word_maps|by apply put_word_some|split; lia].
Qed.

Lemma halve_allocated R c s n m d D :
  partition D R → R !! (c, s) = Some (n, Large d) → 0 < m < n →
  allocated (carve R c s n m (Large d) (Large d)) = <[(c, s) := (m, Large d)]> (<[(c, s + m) := (n - m, Large d)]> (allocated R)).
Proof.
  intros Hp Hr Hm. apply map_eq. intros [c1 s1]. apply option_eq. intros v.
  rewrite allocated_lookup, (carve_lookup D R c s n m (Large d)), !lookup_insert_Some, allocated_lookup by (done || lia). split.
  - intros [[(-> & -> & ->)|[(_ & -> & -> & ->)|[Hne E]]] Hf]; [by left|right; split; [intros [=]; lia|by left]|right]. split; [congruence|right].
    split; [|done]. intros [= <- <-]. by rewrite (pt_inside _ _ _ _ _ _ _ Hp Hr) in E by lia.
  - intros [[[= <- <-] <-]|[Hne [[[= <- <-] <-]|[_ [E Hf]]]]]; [split; [by left|done]|split; [right; left; split_and!; (done || lia)|done]|].
    split; [|done]. right; right. split; [congruence|done].
Qed.

Lemma halve_hdrs a R c s n m d D :
  partition D R → R !! (c, s) = Some (n, Large d) → 0 < m < n → run_hdrs a R → run_hdrs a (carve R c s n m (Large d) (Large d)).
Proof.
  intros Hp Hr Hm Hh c1 s1 n1 k1. rewrite (carve_lookup D R c s n m (Large d)) by (done || lia).
  intros [(_ & _ & [= _ ->])|[(_ & _ & _ & [= _ ->])|[_ E]]]; [done|done|by apply Hh].
Qed.

(** A large run loses its first pages, or its last. *)
Lemma wp_trim a R C N c s n m d (keep_tail : bool) (dirty : bool) (Q : unit → astate S T → Prop) :
  let gone := if keep_tail then s else s + m in
  let rest := if keep_tail then (s + m, n - m) else (s, m) in
  arena_inv a R C N → run_hdrs a R → R !! (c, s) = Some (n, Large d) → 0 < m < n →
  (∀ a' R', arena_inv a' R' C N → allocated R' = <[(c, rest.1) := (rest.2, Large d)]> (delete (c, s) (allocated R)) → kept a a' →
     (∀ c' s' n' k', (c', s') ≠ (c, s) → allocated R !! (c', s') = Some (n', k') →
        ∀ y, raddr c' s' ≤ y < raddr c' s' + n' * PAGE → a_mem a' y = a_mem a y) →
     (∀ y, raddr c rest.1 ≤ y < raddr c rest.1 + rest.2 * PAGE → a_mem a' y = a_mem a y) → Q tt a') →
  wp (arena_mapbits_large_set c (s + m - 1) 0 (dflag d);;
    arena_mapbits_large_set c s (m * PAGE) (dflag d);;
    arena_mapbits_large_set c (s + m) ((n - m) * PAGE) (dflag d);;
    arena_run_dalloc old_word os_purge (raddr c gone) dirty) a Q.
Proof using os_purge_range OrdTreeLaws0.
  intros gone rest Ha Hh Hr Hm HQ. pose proof (lo_part _ _ (ac_lay _ _ _ (aa_core _ _ _ _ _ _ _ _ Ha))) as Hp.
  apply wp_bind, wp_block3. eapply wp_halve; [done..|]. intros h Ha1. pose proof (halve_allocated R c s n m d _ Hp Hr Hm) as Hal.
  assert (Hgone : ∃ n', allocated (carve R c s n m (Large d) (Large d)) !! (c, gone) = Some (n', Large d)).
  { rewrite Hal. unfold gone. destruct keep_tail; [exists m; apply lookup_insert_eq|exists (n - m)].
    rewrite lookup_insert_ne by (intros [=]; lia). apply lookup_insert_eq. }
  destruct Hgone as [n' Hgone].
  eapply (wp_run_dalloc (set_hdrs h a)); [exact Ha1|by eapply halve_hdrs|exact Hgone|].
  intros a2 R2 [Ha2 Hal2 Hk2 Hm2]. apply (HQ a2 R2); [done| |done|..].
  - rewrite Hal2, Hal. apply map_eq. intros [c1 s1]. unfold gone, rest. destruct keep_tail; cbn [fst snd].
    + rewrite delete_insert_eq, delete_insert_ne by (intros [=]; lia). done.
    + assert (E : (allocated R) !! (c, s + m) = None).
      { destruct (allocated R !! (c, s + m)) as [v|] eqn:E; [|done]. apply allocated_lookup in E as [E _].
        by rewrite (pt_inside _ _ _ _ _ _ _ Hp Hr) in E by lia. }
      rewrite delete_insert_ne by (intros [=]; lia). rewrite delete_insert_id by done. by rewrite insert_delete_eq.
  - intros c' s' n2 k2 Hne E y Hy. eapply (Hm2 c' s' n2 k2); [| |exact Hy].
    + unfold gone. destruct keep_tail; [done|]. intros [= -> ->]. apply allocated_lookup in E as [E _].
      by rewrite (pt_inside _ _ _ _ _ _ _ Hp Hr) in E by lia.
    + rewrite Hal, lookup_insert_ne by congruence. rewrite lookup_insert_ne; [done|]. intros [= <- <-]. apply allocated_lookup in E as [E _].
      by rewrite (pt_inside _ _ _ _ _ _ _ Hp Hr) in E by lia.
  - intros y Hy. eapply (Hm2 c rest.1 rest.2 (Large d)); [| |exact Hy]; unfold rest, gone in *; destruct keep_tail; cbn [fst snd];
      [intros [=]; lia..| |]; rewrite Hal; [|apply lookup_insert_eq]. rewrite lookup_insert_ne by (intros [=]; lia). apply lookup_insert_eq.
Qed.

(** What trimming leaves: [rest] pages from page [s'] on. *)
Record trimmed_to a R C N c s s' m d a' R' : Prop := {
  tm_inv : arena_inv a' R' C N;
  tm_alloc : allocated R' = <[(c, s') := (m, Large d)]> (delete (c, s) (allocated R));
  tm_kept : kept a a';
  tm_others c1 s1 n1 k1 : (c1, s1) ≠ (c, s) → allocated R !! (c1, s1) = Some (n1, k1) →
    ∀ y, raddr c1 s1 ≤ y < raddr c1 s1 + n1 * PAGE → a_mem a' y = a_mem a y;
  tm_rest y : raddr c s' ≤ y < raddr c s' + m * PAGE → a_mem a' y = a_mem a y
}.

Lemma wp_trim_head a R C N c s n m d (Q : unit → astate S T → Prop) :
  arena_inv a R C N → run_hdrs a R → R !! (c, s) = Some (n, Large d) → 0 < m < n →
  (∀ a' R', trimmed_to a R C N c s (s + (n - m)) m d a' R' → Q tt a') →
  wp (arena_run_trim_head old_word os_purge c (raddr c s) (n * PAGE) (m * PAGE)) a Q.
Proof using os_purge_range OrdTreeLaws0.
  intros Ha Hh Hr Hm HQ. destruct (at_run _ _ _ _ _ _ _ (aa_core _ _ _ _ _ _ _ _ Ha) Hr) as (_ & _ & _ & _ & _ & Hn & _ & Hrw).
  unfold arena_run_trim_head. cbv zeta. rewrite raddr_page, <- Z.mul_sub_distr_r, shiftr_page. wsteps.
  eapply wp_dirty_get; [by eapply run_first|]. wsteps. apply wp_check; [apply Z.ltb_lt; change PAGE with 8192; lia|]. wsteps.
  eapply wp_large_size; [apply Hrw|]. wsteps. apply wp_check; [by apply Z.eqb_eq|].
  replace (m * PAGE) with ((n - (n - m)) * PAGE) by (f_equal; lia).
  eapply (wp_trim a R C N c s n (n - m) d true false); [done..|lia|]. cbn [fst snd]. replace (n - (n - m)) with m by lia.
  intros a' R' H1 H2 H3 H4 H5. apply (HQ a' R'). by split.
Qed.

Lemma wp_trim_tail a R C N c s n m d dirty (Q : unit → astate S T → Prop) :
  arena_inv a R C N → run_hdrs a R → R !! (c, s) = Some (n, Large d) → 0 < m < n →
  (∀ a' R', trimmed_to a R C N c s s m d a' R' → Q tt a') →
  wp (arena_run_trim_tail old_word os_purge c (raddr c s) (n * PAGE) (m * PAGE) dirty) a Q.
Proof using os_purge_range OrdTreeLaws0.
  intros Ha Hh Hr Hm HQ. destruct (at_run _ _ _ _ _ _ _ (aa_core _ _ _ _ _ _ _ _ Ha) Hr) as (_ & _ & _ & _ & _ & Hn & _ & Hrw).
  unfold arena_run_trim_tail. cbv zeta. rewrite raddr_page, <- Z.mul_sub_distr_r, shiftr_page. wsteps.
  eapply wp_dirty_get; [by eapply run_first|]. wsteps. apply wp_check; [apply Z.ltb_lt; change PAGE with 8192; lia|]. wsteps.
  eapply wp_large_size; [apply Hrw|]. wsteps. apply wp_check; [by apply Z.eqb_eq|].
  replace (raddr c s + m * PAGE) with (raddr c (s + m)) by (unfold raddr; lia).
  eapply (wp_trim a R C N c s n m d false dirty); [done..|]. cbn [fst snd].
  intros a' R' H1 H2 H3 H4 H5. apply (HQ a' R'). by split.
Qed.
End trim.
