(* ===== verification/ChunkSpec.v ===== *)
(** * What the chunk layer promises

    Every address the layer ever mapped belongs to at most one of: a free
    extent, a chunk handed out, the unused part of the base allocator's pages,
    or memory the base allocator gave away (which holds the extent nodes).
    [chunk_inv] states this together with the order of the two trees and full
    coalescing; every operation keeps it, and the chunks handed out at any time
    are disjoint. *)

From S2P Require Import Prelude OrdTree SizeClass Chunk ChunkIface.

(** What is assumed of [mmap]: a mapping is page-aligned, lies in the lower
    half of the 48-bit address space and overlaps no earlier mapping. *)
Record mmap_ok (os_mmap : list (Z * Z) → Z → option Z) : Prop := {
  mmap_range m sz p : 0 < sz → os_mmap m sz = Some p → 0 < p ∧ p mod PAGE = 0 ∧ p + sz ≤ 2 ^ 47;
  mmap_disjoint m sz p q z :
    0 < sz → os_mmap m sz = Some p → (q, z) ∈ m → q + z ≤ p ∨ p + sz ≤ q
}.

(** Address [a] is in the range [r]. *)
Definition inr (r : Z * Z) (a : Z) : Prop := r.1 ≤ a < r.1 + r.2.
Definition in_ranges (l : list (Z * Z)) (a : Z) : Prop := ∃ r, r ∈ l ∧ inr r a.

Lemma in_ranges_cons r l a : in_ranges (r :: l) a ↔ inr r a ∨ in_ranges l a.
Proof. unfold in_ranges. set_solver. Qed.

(** What is handed out: a chunk, or memory of the base allocator. *)
Definition live_range (a sz : Z) : Prop := 0 < a ∧ 0 < sz ∧ a + sz ≤ 2 ^ 47.

Lemma chunk_range_live `{Config} a sz : chunk_range a sz → live_range a sz.
Proof. intros (? & _ & ? & _ & ?). done. Qed.

(** Reads a field of a record that was just built or updated. *)
Ltac proj :=
  cbn [addr size nodes chunks_ad chunks_szad base_nodes mappings set_szad set_ad set_nodes set_base_nodes
    set_base set_stats set_mappings base_next_addr base_past_addr].

(** ** The trees of nodes *)

Section node_trees.
Context {T : Type} `{OT : OrdTree T Z} `{!OrdTreeLaws T Z}.
Implicit Types (X : gset Z) (x p : Z).

Lemma addr_of_new h x e p : p ≠ x → addr_of (<[x := e]> h) p = addr_of h p.
Proof. intros. rewrite addr_of_insert. by rewrite decide_False. Qed.
Lemma size_of_new h x e p : p ≠ x → size_of (<[x := e]> h) p = size_of h p.
Proof. intros. rewrite size_of_insert. by rewrite decide_False. Qed.
Lemma addr_of_eq h x e : addr_of (<[x := e]> h) x = addr e.
Proof. rewrite addr_of_insert. by rewrite decide_True. Qed.
Lemma size_of_eq h x e : size_of (<[x := e]> h) x = size e.
Proof. rewrite size_of_insert. by rewrite decide_True. Qed.

(** The comparisons do not notice a change of a node outside the tree. *)
Lemma szad_frame h x e (t : T) X :
  x ∉ X → tree_of (extent_szad_comp h) t X → tree_of (extent_szad_comp (<[x := e]> h)) t X.
Proof.
  intros Hx. apply tree_mono; [apply extent_szad_comp_order|]. intros a b Ha Hb.
  rewrite !extent_szad_comp_lt, !addr_of_new, !size_of_new by set_solver. done.
Qed.

Lemma ad_frame h x e (t : T) X :
  x ∉ X → tree_of (extent_ad_comp h) t X → tree_of (extent_ad_comp (<[x := e]> h)) t X.
Proof.
  intros Hx. apply tree_mono; [apply extent_ad_comp_order|]. intros a b Ha Hb.
  rewrite !extent_ad_comp_lt, !addr_of_new by set_solver. done.
Qed.

(** Inserting a node whose address no other node has. *)
Lemma szad_insert_ok h x (t : T) X :
  tree_of (extent_szad_comp h) t X → (∀ y, y ∈ X → addr_of h x ≠ addr_of h y) →
  ∃ t', ot_insert (extent_szad_comp h) x t = Some t' ∧ tree_of (extent_szad_comp h) t' (X ∪ {[x]}).
Proof.
  intros Ht Hne. apply tree_insert; [done|]. intros y Hy E.
  apply (extent_szad_key_spec h (size_of h x) (addr_of h x) y) in E as [_ E]. exact (Hne y Hy E).
Qed.

Lemma ad_insert_ok h x (t : T) X :
  tree_of (extent_ad_comp h) t X → (∀ y, y ∈ X → addr_of h x ≠ addr_of h y) →
  ∃ t', ot_insert (extent_ad_comp h) x t = Some t' ∧ tree_of (extent_ad_comp h) t' (X ∪ {[x]}).
Proof.
  intros Ht Hne. apply tree_insert; [done|]. intros y Hy E. exact (Hne y Hy (proj1 (cmp3_eq _ _) E)).
Qed.
End node_trees.

Section spec.
Context `{Config} {T : Type} `{OT : OrdTree T Z} `{!OrdTreeLaws T Z}.
Context (os_mmap : list (Z * Z) → Z → option Z) (Hmmap : mmap_ok os_mmap).
Implicit Types (s : state (T := T)) (X : gset Z) (L : list (Z * Z)) (p q a : Z).

Definition covered s a : Prop := in_ranges (mappings s) a.
Definition free_at s X a : Prop := ∃ p, p ∈ X ∧ inr (addr_of (nodes s) p, size_of (nodes s) p) a.
Definition base_at s a : Prop := base_next_addr s ≤ a < base_past_addr s.

(** [X] is the set of nodes in the trees, [L] the chunks handed out. *)
Record chunk_inv s X L : Prop := {
  inv_szad : tree_of (extent_szad_comp (nodes s)) (chunks_szad s) X;
  inv_ad : tree_of (extent_ad_comp (nodes s)) (chunks_ad s) X;
  inv_ext p : p ∈ X → ∃ e, nodes s !! p = Some e ∧ chunk_range (addr e) (size e);
  inv_sep p q : p ∈ X → q ∈ X → p ≠ q →
    addr_of (nodes s) p + size_of (nodes s) p ≤ addr_of (nodes s) q ∨
    addr_of (nodes s) q + size_of (nodes s) q ≤ addr_of (nodes s) p;
  inv_nodup : NoDup (base_nodes s);
  inv_spare p : p ∈ base_nodes s → p ∉ X;
  inv_cells p : p ∈ X ∨ p ∈ base_nodes s →
    covered s p ∧ ¬ free_at s X p ∧ ¬ base_at s p ∧ ¬ in_ranges L p;
  inv_free a : free_at s X a → covered s a ∧ ¬ base_at s a ∧ ¬ in_ranges L a;
  inv_base : 0 ≤ base_next_addr s ≤ base_past_addr s ∧ base_past_addr s ≤ 2 ^ 47;
  inv_base_align : base_next_addr s mod 64 = 0 ∧ base_past_addr s mod 64 = 0;
  inv_base_at a : base_at s a → covered s a ∧ ¬ in_ranges L a;
  inv_live r : r ∈ L → live_range r.1 r.2;
  inv_live_at a : in_ranges L a → covered s a;
  inv_disjoint i j r1 r2 a : L !! i = Some r1 → L !! j = Some r2 → inr r1 a → inr r2 a → i = j;
  inv_mapped r : r ∈ mappings s → 0 < r.1 ∧ r.1 + r.2 ≤ 2 ^ 47
}.

(** No two extents touch. *)
Definition coalesced s X : Prop :=
  ∀ p q, p ∈ X → q ∈ X → addr_of (nodes s) p + size_of (nodes s) p ≠ addr_of (nodes s) q.

(** A node that is in neither tree nor free list. *)
Definition held s X L p : Prop :=
  p ∉ X ∧ p ∉ base_nodes s ∧ covered s p ∧ ¬ free_at s X p ∧ ¬ base_at s p ∧ ¬ in_ranges L p.

(** ** Nothing is ever unmapped *)

Definition grows {A} (m : M (state (T := T)) A) : Prop :=
  ∀ s r s', m s = Some (r, s') → ∃ l, mappings s' = l ++ mappings s.

Lemma grows_bind {A B} (m : M state A) (k : A → M state B) :
  grows m → (∀ x, grows (k x)) → grows (x ← m; k x).
Proof.
  intros Hm Hk s r s' (x & s1 & E1 & E2)%bind_inv.
  destruct (Hm _ _ _ E1) as [l1 H1], (Hk _ _ _ _ E2) as [l2 H2].
  exists (l2 ++ l1). by rewrite H2, H1, app_assoc.
Qed.

Lemma grows_ret {A} (x : A) : grows (mret x).
Proof. intros s r s' [= <- <-]. by exists []. Qed.
Lemma grows_gets {A} (f : state → A) : grows (gets f).
Proof. intros s r s' [= <- <-]. by exists []. Qed.
Lemma grows_lift {A} (o : option A) : grows (lift o).
Proof. intros s r s'. unfold lift. destruct o; [|done]. intros [= <- <-]. by exists []. Qed.
Lemma grows_modify (f : state → state) : (∀ s, mappings (f s) = mappings s) → grows (modify f).
Proof. intros Hf s r s' [= <- <-]. exists []. apply Hf. Qed.

Ltac grow_step :=
  first [ apply grows_ret | apply grows_gets | apply grows_lift
        | apply grows_modify; intros; reflexivity | solve [auto with grows]
        | apply grows_bind; [|intros ?]
        | match goal with |- grows (match ?x with _ => _ end) => destruct x end ].
Ltac grow := intros; repeat grow_step.

Lemma pages_map_grows sz : grows (pages_map os_mmap sz).
Proof.
  intros s r s'. unfold pages_map. mrun. destruct (sz =? 0); [done|].
  destruct (os_mmap (mappings s) sz) as [p|]; intros [= <- <-]; [by exists [(p, sz)]|by exists []].
Qed.
Hint Resolve pages_map_grows : grows.

Lemma chunk_alloc_mmap_grows sz al z : grows (chunk_alloc_mmap os_mmap sz al z).
Proof. unfold chunk_alloc_mmap, chunk_alloc_mmap_slow, pages_trim, pages_unmap, check. grow. Qed.
Hint Resolve chunk_alloc_mmap_grows : grows.

Lemma base_node_alloc_grows : grows (base_node_alloc os_mmap).
Proof.
  unfold base_node_alloc, base_alloc, base_pages_alloc, chunk_alloc_base, chunk_alloc_with, chunk_stats_alloc, check.
  grow.
Qed.
Hint Resolve base_node_alloc_grows : grows.

Lemma chunk_dealloc_grows c sz b : grows (chunk_dealloc os_mmap c sz b).
Proof.
  unfold chunk_dealloc, chunk_record, coalesce_forward, coalesce_backward, szad_remove, szad_insert,
    ad_remove, ad_insert, node_get, node_set, base_node_dealloc, check. grow.
Qed.
Hint Resolve chunk_dealloc_grows : grows.

Lemma chunk_recycle_grows sz al b z : grows (chunk_recycle os_mmap sz al b z).
Proof.
  unfold chunk_recycle, recycle_lead, recycle_trail, szad_remove, szad_insert, ad_remove, ad_insert,
    node_get, node_set, base_node_dealloc, check. grow.
Qed.

(** ** Mapping memory *)

(** [s'] is [s] with more memory mapped, and other statistics. *)
Definition remapped s s' : Prop :=
  ∃ l n c h, s' = set_stats n c h (set_mappings (l ++ mappings s) s) ∧
    (∀ r, r ∈ l → 0 < r.1 ∧ r.1 + r.2 ≤ 2 ^ 47).

Lemma remapped_refl s : remapped s s.
Proof. exists [], (nchunks s), (curchunks s), (highchunks s). split; [by destruct s|]. set_solver. Qed.

Lemma remapped_stats s n c h : remapped s (set_stats n c h s).
Proof. exists [], n, c, h. split; [by destruct s|]. set_solver. Qed.

Lemma remapped_trans s1 s2 s3 : remapped s1 s2 → remapped s2 s3 → remapped s1 s3.
Proof.
  intros (l & n & c & h & -> & Hl) (l' & n' & c' & h' & -> & Hl'). exists (l' ++ l), n', c', h'.
  split; [unfold set_stats, set_mappings; simpl; by rewrite <- app_assoc|]. set_solver.
Qed.

Lemma remapped_covered s s' a : remapped s s' → covered s a → covered s' a.
Proof. intros (l & n & c & h & -> & _) (r & Hr & Ha). exists r. split; [|done]. simpl. set_solver. Qed.

Lemma remapped_inv s s' X L : remapped s s' → chunk_inv s X L → chunk_inv s' X L.
Proof.
  intros Hm Hi. pose proof (λ a, remapped_covered s s' a Hm) as Hc.
  destruct Hm as (l & n & c & h & -> & Hl). destruct Hi. split; simpl; auto.
  - intros p Hp. destruct (inv_cells0 p Hp) as (? & ? & ? & ?). auto.
  - intros a Ha. destruct (inv_free0 a Ha) as (? & ? & ?). auto.
  - intros a Ha. destruct (inv_base_at0 a Ha) as (? & ?). auto.
  - intros r [Hr|Hr]%elem_of_app; auto.
Qed.

Lemma pages_map_ok s X L sz :
  chunk_inv s X L → 0 < sz →
  ∃ r s', pages_map os_mmap sz s = Some (r, s') ∧ remapped s s' ∧
    match r with
    | None => s' = s
    | Some p => 0 < p ∧ p mod PAGE = 0 ∧ p + sz ≤ 2 ^ 47 ∧
        ∀ a, inr (p, sz) a → ¬ covered s a ∧ covered s' a
    end.
Proof.
  intros Hi Hsz. unfold pages_map. rewrite (proj2 (Z.eqb_neq sz 0)) by lia. mrun.
  destruct (os_mmap (mappings s) sz) as [p|] eqn:E.
  - destruct (mmap_range _ Hmmap _ _ _ Hsz E) as (Hp & Ha & He).
    eexists (Some p), _; split; [reflexivity|]. split.
    { exists [(p, sz)], (nchunks s), (curchunks s), (highchunks s). split; [by destruct s|]. intros r ->%list_elem_of_singleton. simpl. lia. }
    split_and!; [done..|]. intros a Hin. split.
    + intros ([q z] & Hq & Hqa). unfold inr in *. simpl in *.
      destruct (mmap_disjoint _ Hmmap _ _ _ _ _ Hsz E Hq); lia.
    + exists (p, sz). split; [simpl; set_solver|done].
  - exists None, s. split_and!; [done|apply remapped_refl|done].
Qed.

Lemma u64_assoc x y : u64 (u64 x - y) = u64 (x - y).
Proof. unfold u64. by rewrite Zminus_mod_idemp_l. Qed.

Lemma alignment_facts al :
  chunk_alignment al →
  0 < al ≤ 2 ^ 63 ∧ PAGE ≤ chunksize ≤ al ∧ al mod chunksize = 0 ∧ al mod PAGE = 0 ∧
  Z.land al chunksize_mask = 0 ∧ (∀ x, Z.land x (al - 1) = x mod al) ∧
  (∀ x, x mod al = 0 → x mod chunksize = 0) ∧
  (∀ x, 0 ≤ x → x + al ≤ 2 ^ 64 → ALIGNMENT_CEILING x al = round_up x al).
Proof.
  intros (k & Hk & ->). pose proof lg_chunk_range. pose proof (pow2_pos k ltac:(lia)).
  assert (Hle63 : 2 ^ k ≤ 2 ^ 63) by (apply Z.pow_le_mono_r; lia).
  assert (Hlek : 2 ^ opt_lg_chunk ≤ 2 ^ k) by (apply Z.pow_le_mono_r; lia).
  assert (Hle13 : 2 ^ 13 ≤ 2 ^ opt_lg_chunk) by (apply Z.pow_le_mono_r; lia).
  unfold chunksize_mask. rewrite !chunksize_pow2. change PAGE with (2 ^ 13).
  assert (Hsame : 2 ^ k mod 2 ^ k = 0) by (apply Z.mod_same; lia).
  split_and!; try lia.
  - by apply (mod_pow2_le _ opt_lg_chunk k); [lia|].
  - by apply (mod_pow2_le _ 13 k); [lia|].
  - rewrite land_mask by lia. by apply (mod_pow2_le _ opt_lg_chunk k); [lia|].
  - intros x. apply land_mask. lia.
  - intros x. apply mod_pow2_le. lia.
  - intros x Hx0 Hx. rewrite alignment_ceiling_mask by lia. apply ceil_mask_round_up; lia.
Qed.

Lemma chunk_alloc_mmap_slow_ok s X L sz al zero :
  chunk_inv s X L → chunk_alignment al → 0 < sz < 2 ^ 64 → sz mod chunksize = 0 →
  ∃ r z s', chunk_alloc_mmap_slow os_mmap sz al zero s = Some ((r, z), s') ∧ remapped s s' ∧
    match r with
    | None => True
    | Some p => p mod al = 0 ∧ chunk_range p sz ∧ ∀ a, inr (p, sz) a → ¬ covered s a ∧ covered s' a
    end.
Proof.
  intros Hi Hal Hsz Hszc. destruct (alignment_facts al Hal) as (Ha & Hpc & Hac & Hap & _ & _ & Hcc & Hceil).
  assert (HP : PAGE = 8192) by done.
  assert (Hsz_ge : chunksize ≤ sz) by (apply mod_0_ge; (done || lia)).
  unfold chunk_alloc_mmap_slow. rewrite u64_assoc.
  destruct (Z_lt_ge_dec (sz + al - PAGE) (2 ^ 64)) as [Hfit|Hwrap].
  2: { rewrite u64_wrap by lia. rewrite (proj2 (Z.ltb_lt _ sz)) by lia.
       exists None, zero, s. split_and!; [done|apply remapped_refl|done]. }
  rewrite u64_small by (split; lia). rewrite (proj2 (Z.ltb_ge _ sz)) by lia.
  set (alloc := sz + al - PAGE) in *.
  destruct (pages_map_ok s X L alloc Hi ltac:(lia)) as (r & s' & E & Hm & Hr).
  mrun. rewrite E. destruct r as [p|].
  2: { exists None, zero, s'. done. }
  destruct Hr as (Hp0 & Hpp & Hpe & Hcov). rewrite Hceil by lia.
  pose proof (round_up_spec p al ltac:(lia)) as [Hru Hmod].
  assert (Hpm : round_up p al mod PAGE = 0).
  { destruct Hal as (k & Hk & ->). change PAGE with (2 ^ 13). apply (mod_pow2_le _ 13 k); [|done].
    pose proof lg_chunk_range. lia. }
  assert (Hlead : round_up p al - p ≤ al - PAGE).
  { assert ((round_up p al - p) mod PAGE = 0) by (by apply mod_sub_0).
    pose proof (mod_0_lt_add (round_up p al - p) al PAGE). lia. }
  rewrite (u64_small (round_up p al - p)) by (split; lia).
  unfold pages_trim, pages_unmap. replace (p + (round_up p al - p)) with (round_up p al) by lia.
  rewrite u64_small by (split; lia). mrun.
  rewrite (proj2 (Z.leb_le _ alloc)) by lia.
  exists (Some (round_up p al)), true, s'. split_and!; [|done|done| |].
  - by destruct (round_up p al - p =? 0), (alloc - (round_up p al - p) - sz =? 0); mrun;
      rewrite (proj2 (Z.eqb_neq (round_up p al) 0)) by lia.
  - split_and!; [lia|by apply Hcc|lia|done|lia].
  - intros a Hin. apply Hcov. unfold inr in *. simpl in *. lia.
Qed.

Lemma chunk_alloc_mmap_ok s X L sz al zero :
  chunk_inv s X L → chunk_alignment al → 0 < sz < 2 ^ 64 → sz mod chunksize = 0 →
  ∃ r z s', chunk_alloc_mmap os_mmap sz al zero s = Some ((r, z), s') ∧ remapped s s' ∧
    match r with
    | None => True
    | Some p => p mod al = 0 ∧ chunk_range p sz ∧ ∀ a, inr (p, sz) a → ¬ covered s a ∧ covered s' a
    end.
Proof.
  intros Hi Hal Hsz Hszc. destruct (alignment_facts al Hal) as (Ha & Hpc & Hac & Hap & Hland & Hoff & Hcc & _).
  unfold chunk_alloc_mmap. rewrite Hland, (proj2 (Z.eqb_neq al 0)) by lia.
  destruct (pages_map_ok s X L sz Hi ltac:(lia)) as (r & s' & E & Hm & Hr).
  mrun. rewrite Z.eqb_refl, E. destruct r as [p|].
  2: { exists None, zero, s'. done. }
  destruct Hr as (Hp0 & Hpp & Hpe & Hcov). rewrite Hoff.
  destruct (Z.eqb_spec (p mod al) 0) as [Hpa|Hpa].
  - rewrite (proj2 (Z.eqb_neq p 0)) by lia. exists (Some p), true, s'.
    split_and!; [done..| |done]. split_and!; [lia|by apply Hcc|lia|done|lia].
  - unfold pages_unmap. mrun.
    destruct (chunk_alloc_mmap_slow_ok s' X L sz al zero) as (r & z & s'' & E' & Hm' & Hr');
      [by eapply remapped_inv|done..|].
    exists r, z, s''. split_and!; [done|by eapply remapped_trans|].
    destruct r as [q|]; [|done]. destruct Hr' as (? & ? & Hcov'). split_and!; [done..|].
    intros a Hin. destruct (Hcov' a Hin) as [Hn Hc]. split; [|done].
    intros Hs. by apply Hn, (remapped_covered s).
Qed.

(** ** The base allocator *)

Lemma chunk_base_addr p : p mod chunksize = 0 → CHUNK_ADDR2BASE p = p.
Proof.
  intros Hp. pose proof lg_chunk_range. unfold CHUNK_ADDR2BASE, chunksize_mask.
  rewrite chunksize_pow2 in *. rewrite land_lnot_mask by lia. lia.
Qed.

Lemma chunk_land_mask x : x mod chunksize = 0 → Z.land x chunksize_mask = 0.
Proof.
  intros Hx. pose proof lg_chunk_range. unfold chunksize_mask.
  rewrite chunksize_pow2 in *. by rewrite land_mask by lia.
Qed.

Lemma chunksize_alignment : chunk_alignment chunksize.
Proof. pose proof lg_chunk_range. exists opt_lg_chunk. rewrite chunksize_pow2. split; [lia|done]. Qed.

Lemma chunk_alloc_base_ok s X L sz zero :
  chunk_inv s X L → 0 < sz < 2 ^ 64 → sz mod chunksize = 0 →
  ∃ r z s', chunk_alloc_base os_mmap sz chunksize zero s = Some ((r, z), s') ∧ remapped s s' ∧
    match r with
    | None => True
    | Some p => chunk_range p sz ∧ ∀ a, inr (p, sz) a → ¬ covered s a ∧ covered s' a
    end.
Proof.
  intros Hi Hsz Hszc. destruct (alignment_facts _ chunksize_alignment) as (Ha & _ & Hac & _).
  unfold chunk_alloc_base, chunk_alloc_with.
  rewrite !chunk_land_mask by done. rewrite (proj2 (Z.eqb_neq sz 0)), (proj2 (Z.eqb_neq chunksize 0)) by lia.
  mrun. rewrite !Z.eqb_refl.
  destruct (chunk_alloc_mmap_ok s X L sz chunksize zero Hi chunksize_alignment Hsz Hszc)
    as (r & z & s' & E & Hm & Hr). rewrite E. destruct r as [p|].
  2: { exists None, z, s'. done. }
  destruct Hr as (Hpa & Hpr & Hcov). unfold chunk_stats_alloc. mrun.
  rewrite chunk_base_addr, Z.eqb_refl by apply Hpr.
  eexists (Some p), z, _. split_and!; [done| |done|].
  - eapply remapped_trans; [exact Hm|apply remapped_stats].
  - intros a Hin. destruct (Hcov a Hin) as [? Hc]. split; [done|].
    eapply remapped_covered; [apply remapped_stats|exact Hc].
Qed.

Lemma cacheline_ceiling_ok sz :
  0 < sz ≤ 2 ^ 62 → sz ≤ CACHELINE_CEILING sz ≤ sz + 63 ∧ CACHELINE_CEILING sz mod 64 = 0.
Proof.
  intros Hsz. unfold CACHELINE_CEILING. change CACHELINE_MASK with (2 ^ 6 - 1).
  rewrite ceil_mask_round_up by lia. pose proof (round_up_spec sz (2 ^ 6) ltac:(lia)) as [? ?].
  split; [lia|done].
Qed.

(** The base pages move to a fresh chunk. *)
Lemma set_base_inv s X L b next past :
  chunk_inv s X L → 0 ≤ next ≤ past → past ≤ 2 ^ 47 → next mod 64 = 0 → past mod 64 = 0 →
  (∀ a, next ≤ a < past → covered s a ∧ ¬ in_ranges L a ∧ ¬ free_at s X a ∧
     ¬ (a ∈ X ∨ a ∈ base_nodes s)) →
  chunk_inv (set_base b next past s) X L.
Proof.
  intros Hi Hr Hp Ha1 Ha2 Hb. destruct Hi. split; simpl; auto.
  - intros p Hx. destruct (inv_cells0 p Hx) as (? & ? & _ & ?). split_and!; [done..| |done].
    intros Hba. by destruct (Hb p Hba) as (_ & _ & _ & []).
  - intros a Hf. destruct (inv_free0 a Hf) as (? & _ & ?). split_and!; [done| |done].
    intros Hba. by destruct (Hb a Hba) as (_ & _ & Hn & _).
  - intros a Hba. destruct (Hb a Hba) as (? & ? & _). done.
Qed.

Lemma base_alloc_ok s X L sz :
  chunk_inv s X L → 0 < sz ≤ 2 ^ 62 →
  ∃ r s', base_alloc os_mmap sz s = Some (r, s') ∧ chunk_inv s' X L ∧
    chunks_szad s' = chunks_szad s ∧ chunks_ad s' = chunks_ad s ∧ nodes s' = nodes s ∧
    base_nodes s' = base_nodes s ∧ (∀ a, covered s a → covered s' a) ∧
    match r with
    | None => True
    | Some p => 0 < p ∧ p mod 64 = 0 ∧ ∀ a, inr (p, CACHELINE_CEILING sz) a →
        covered s' a ∧ ¬ free_at s' X a ∧ ¬ base_at s' a ∧ ¬ in_ranges L a ∧
        ¬ (a ∈ X ∨ a ∈ base_nodes s')
    end.
Proof.
  intros Hi Hsz. destruct (cacheline_ceiling_ok sz Hsz) as [Hc Hc64].
  set (csize := CACHELINE_CEILING sz) in *.
  (* allocating from pages that are large enough *)
  assert (Hbump : ∀ s1, chunk_inv s1 X L → base_next_addr s1 + csize ≤ base_past_addr s1 →
    let s2 := set_base (base_pages s1) (base_next_addr s1 + csize) (base_past_addr s1) s1 in
    chunk_inv s2 X L ∧ 0 < base_next_addr s1 ∧ base_next_addr s1 mod 64 = 0 ∧
    (∀ a, inr (base_next_addr s1, csize) a → covered s2 a ∧ ¬ free_at s2 X a ∧ ¬ base_at s2 a ∧
       ¬ in_ranges L a ∧ ¬ (a ∈ X ∨ a ∈ base_nodes s2))).
  { intros s1 Hi1 Hroom s2. destruct (inv_base _ _ _ Hi1) as [Hb1 Hb2].
    destruct (inv_base_align _ _ _ Hi1) as [Hal1 Hal2].
    assert (Hown : ∀ a, base_at s1 a → covered s1 a ∧ ¬ in_ranges L a ∧ ¬ free_at s1 X a ∧
        ¬ (a ∈ X ∨ a ∈ base_nodes s1)).
    { intros a Ha. destruct (inv_base_at _ _ _ Hi1 a Ha) as [? ?]. split_and!; [done..| |].
      - intros Hf. by destruct (inv_free _ _ _ Hi1 a Hf) as (_ & ? & _).
      - intros Hx. by destruct (inv_cells _ _ _ Hi1 a Hx) as (_ & _ & ? & _). }
    split_and!.
    - apply set_base_inv; [done|lia|lia|by apply mod_add_0|done|].
      intros a Ha. apply Hown. unfold base_at. lia.
    - destruct (inv_base_at _ _ _ Hi1 (base_next_addr s1)) as [(r & Hr & Hin) _]; [unfold base_at; lia|].
      destruct (inv_mapped _ _ _ Hi1 r Hr). unfold inr in Hin. lia.
    - done.
    - intros a Ha. unfold inr in Ha. simpl in Ha.
      destruct (Hown a) as (? & ? & ? & ?); [unfold base_at; lia|]. split_and!; try done.
      unfold base_at, s2. simpl. lia. }
  unfold base_alloc. fold csize. mrun. destruct (inv_base _ _ _ Hi) as [Hb1 Hb2].
  rewrite (u64_small (base_next_addr s + csize)) by (split; lia).
  destruct (Z.ltb_spec (base_past_addr s) (base_next_addr s + csize)) as [Hlt|Hge].
  2: { destruct (Hbump s Hi Hge) as (? & ? & ? & ?). rewrite (u64_small (base_next_addr s + csize)) by (split; lia).
       eexists (Some _), _. split; [reflexivity|]. conj; done. }
  unfold base_pages_alloc. rewrite (proj2 (Z.eqb_neq csize 0)) by lia. mrun.
  pose proof lg_chunk_range. destruct (alignment_facts _ chunksize_alignment) as (Ha & HPc & _).
  destruct (chunk_ceiling_cases csize) as [[_ Hcc]|[? _]]; [lia| |lia].
  assert (Hru : csize ≤ CHUNK_CEILING csize < csize + chunksize ∧ CHUNK_CEILING csize mod chunksize = 0)
    by (rewrite Hcc; apply round_up_spec; lia).
  destruct Hru as [Hru Hrm].
  destruct (chunk_alloc_base_ok s X L (CHUNK_CEILING csize) false Hi) as (r & z & s1 & E & Hm & Hr);
    [lia|done|]. rewrite E. pose proof (remapped_inv _ _ _ _ Hm Hi) as Hi1.
  pose proof (λ a, remapped_covered s s1 a Hm) as Hcov1. destruct Hm as (l & n & c & h & -> & Hl).
  destruct r as [p|].
  2: { eexists None, _. split_and!; [reflexivity| |done|done|done|done|done|done].
       apply set_base_inv; [done|simpl in *; lia|simpl in *; lia|apply (inv_base_align _ _ _ Hi)|apply (inv_base_align _ _ _ Hi)|].
       intros a Ha'. simpl in Ha'. destruct (inv_base_at _ _ _ Hi1 a Ha') as [? ?]. split_and!; [done..| |].
       - intros Hf. by destruct (inv_free _ _ _ Hi1 a Hf) as (_ & ? & _).
       - intros Hx. by destruct (inv_cells _ _ _ Hi1 a Hx) as (_ & _ & ? & _). }
  destruct Hr as [(Hp0 & Hpm & _ & _ & Hpe) Hcov].
  assert (H64 : ∀ x, x mod chunksize = 0 → x mod 64 = 0).
  { intros x. rewrite chunksize_pow2. change 64 with (2 ^ 6). apply mod_pow2_le. lia. }
  rewrite (u64_small (p + CHUNK_CEILING csize)) by (split; lia).
  match goal with |- context [set_base p p ?e ?st] => set (s1 := st) in *; set (s2 := set_base p p e s1) in * end.
  assert (Hi2 : chunk_inv s2 X L).
  { apply set_base_inv; [done|lia|lia|by apply H64|apply mod_add_0; [lia|by apply H64|by apply H64]|].
    intros a Hin. destruct (Hcov a Hin) as [Hn Hc']. split_and!; [done|..].
    - intros HL. by apply Hn, (inv_live_at _ _ _ Hi).
    - intros Hf. by apply Hn, (inv_free _ _ _ Hi).
    - intros Hx. by apply Hn, (inv_cells _ _ _ Hi). }
  destruct (Hbump s2 Hi2) as (? & ? & ? & ?); [simpl; lia|].
  change (base_next_addr s2) with p in *. rewrite (u64_small (p + csize)) by (split; lia).
  eexists (Some p), _. split; [reflexivity|]. conj; done.
Qed.

Lemma base_node_alloc_ok s X L :
  chunk_inv s X L →
  ∃ r s', base_node_alloc os_mmap s = Some (r, s') ∧ chunk_inv s' X L ∧
    chunks_szad s' = chunks_szad s ∧ chunks_ad s' = chunks_ad s ∧ nodes s' = nodes s ∧
    match r with None => True | Some p => held s' X L p end.
Proof.
  intros Hi. unfold base_node_alloc. mrun. destruct (base_nodes s) as [|p l] eqn:E.
  - destruct (base_alloc_ok s X L sizeof_extent_node Hi) as (r & s' & E' & Hi' & ? & ? & ? & ? & Hc & Hr);
      [done|]. exists r, s'. split_and!; [done..|]. destruct r as [p|]; [|done].
    destruct Hr as (_ & _ & Hr). destruct (Hr p) as (? & ? & ? & ? & Hn).
    { unfold inr. simpl. change (CACHELINE_CEILING sizeof_extent_node) with 64. lia. }
    split_and!; try done; intros Hx; apply Hn; auto.
  - eexists (Some p), _. split_and!; [reflexivity| |done|done|done|].
    + destruct Hi. rewrite E in *. split; simpl; auto.
      * by apply NoDup_cons in inv_nodup0 as [_ ?].
      * intros q Hq. apply inv_spare0. set_solver.
      * intros q Hq. apply inv_cells0. set_solver.
    + destruct (inv_cells _ _ _ Hi p) as (? & ? & ? & ?); [right; rewrite E; apply elem_of_cons; by left|].
      pose proof (inv_nodup _ _ _ Hi) as Hnd. rewrite E in Hnd. apply NoDup_cons in Hnd as [? _].
      split_and!; try done. apply (inv_spare _ _ _ Hi). rewrite E. apply elem_of_cons. by left.
Qed.

Lemma base_node_dealloc_ok s X L p :
  chunk_inv s X L → held s X L p →
  ∃ s', base_node_dealloc p s = Some (tt, s') ∧ chunk_inv s' X L ∧
    chunks_szad s' = chunks_szad s ∧ chunks_ad s' = chunks_ad s ∧ nodes s' = nodes s ∧
    mappings s' = mappings s.
Proof.
  intros Hi (Hp & Hpb & ? & ? & ? & ?). unfold base_node_dealloc. mrun.
  eexists. split_and!; [reflexivity| |done..]. destruct Hi. split; simpl; auto.
  - by constructor.
  - intros q [->|Hq]%elem_of_cons; auto.
  - intros q [Hq|[->|Hq]%elem_of_cons]; [apply inv_cells0; auto|done|apply inv_cells0; auto].
Qed.

(** ** Changing the trees *)

Lemma inv_drop s X L r : chunk_inv s X (r :: L) → chunk_inv s X L.
Proof.
  intros Hi. assert (Hsub : ∀ a, in_ranges L a → in_ranges (r :: L) a)
    by (intros a Hra; apply in_ranges_cons; auto).
  split; try apply Hi.
  - intros p Hp. destruct (inv_cells _ _ _ Hi p Hp) as (? & ? & ? & ?). split_and!; auto.
  - intros a Ha. destruct (inv_free _ _ _ Hi a Ha) as (? & ? & ?). split_and!; auto.
  - intros a Ha. destruct (inv_base_at _ _ _ Hi a Ha). split_and!; auto.
  - intros r' Hr'. apply (inv_live _ _ _ Hi). by apply elem_of_cons; right.
  - intros a Ha. apply (inv_live_at _ _ _ Hi). auto.
  - intros i j r1 r2 a H1 H2 Ha1 Ha2. assert (Datatypes.S i = Datatypes.S j) as [= ->]; [|done].
    by eapply (inv_disjoint _ _ _ Hi (Datatypes.S i) (Datatypes.S j) r1 r2 a).
Qed.

Lemma ext_addr s X L p : chunk_inv s X L → p ∈ X → chunk_range (addr_of (nodes s) p) (size_of (nodes s) p).
Proof.
  intros Hi Hp. destruct (inv_ext _ _ _ Hi p Hp) as (e & E & Hr). unfold addr_of, size_of. by rewrite E.
Qed.

(** Extents start where no chunk handed out is. *)
Lemma ext_not_live s X L p r a :
  chunk_inv s X L → p ∈ X → r ∈ L → inr (addr_of (nodes s) p, size_of (nodes s) p) a → ¬ inr r a.
Proof.
  intros Hi Hp Hr Ha Hra. destruct (inv_free _ _ _ Hi a) as (_ & _ & Hn); [by exists p|].
  apply Hn. by exists r.
Qed.

(** An extent and a live chunk are on one side of each other. *)
Lemma ext_sep_live s X L p c sz :
  chunk_inv s X L → p ∈ X → (c, sz) ∈ L →
  addr_of (nodes s) p + size_of (nodes s) p ≤ c ∨ c + sz ≤ addr_of (nodes s) p.
Proof.
  intros Hi Hp Hr. pose proof (ext_addr _ _ _ _ Hi Hp) as (? & _ & ? & _).
  destruct (inv_live _ _ _ Hi _ Hr) as (? & ? & _). simpl in *.
  set (x := addr_of (nodes s) p) in *. set (y := size_of (nodes s) p) in *.
  destruct (Z_le_gt_dec (x + y) c); [by left|]. destruct (Z_le_gt_dec (c + sz) x); [by right|]. exfalso.
  assert (Hin : inr (x, y) (Z.max x c)) by (unfold inr; simpl; lia).
  apply (ext_not_live s X L p (c, sz) (Z.max x c) Hi Hp Hr Hin). unfold inr. simpl. lia.
Qed.

(** The invariant for new trees, when nothing becomes free but what was, or
    was handed out and is no more. *)
Lemma inv_intro s X L0 L s' X' :
  chunk_inv s X L0 → chunk_inv s X L → (∀ a, in_ranges L a → in_ranges L0 a) →
  tree_of (extent_szad_comp (nodes s')) (chunks_szad s') X' →
  tree_of (extent_ad_comp (nodes s')) (chunks_ad s') X' →
  (∀ p, p ∈ X' → ∃ e, nodes s' !! p = Some e ∧ chunk_range (addr e) (size e)) →
  (∀ p q, p ∈ X' → q ∈ X' → p ≠ q →
    addr_of (nodes s') p + size_of (nodes s') p ≤ addr_of (nodes s') q ∨
    addr_of (nodes s') q + size_of (nodes s') q ≤ addr_of (nodes s') p) →
  NoDup (base_nodes s') → (∀ p, p ∈ base_nodes s' → p ∉ X') →
  (∀ p, p ∈ X' ∨ p ∈ base_nodes s' → p ∈ X ∨ p ∈ base_nodes s ∨ held s X L0 p) →
  mappings s' = mappings s → base_next_addr s' = base_next_addr s → base_past_addr s' = base_past_addr s →
  (∀ a, free_at s' X' a → free_at s X a ∨ in_ranges L0 a ∧ ¬ in_ranges L a) →
  chunk_inv s' X' L.
Proof.
  intros Hi0 Hi Hsub Ht1 Ht2 Hext Hsep Hnd Hsp Hcells Hmap Hnext Hpast Hfree.
  assert (Hcov : ∀ a, covered s' a ↔ covered s a) by (intros a; unfold covered; by rewrite Hmap).
  assert (Hba : ∀ a, base_at s' a ↔ base_at s a) by (intros a; unfold base_at; by rewrite Hnext, Hpast).
  split; try done; rewrite ?Hnext, ?Hpast, ?Hmap; try apply Hi.
  - intros p Hp. rewrite Hcov, Hba.
    assert (Hc : covered s p ∧ ¬ free_at s X p ∧ ¬ base_at s p ∧ ¬ in_ranges L0 p).
    { destruct (Hcells p Hp) as [?|[?|(_ & _ & ?)]]; [apply Hi0; auto|apply Hi0; auto|done]. }
    destruct Hc as (? & ? & ? & HnL). split_and!; auto. intros Hf. destruct (Hfree p Hf) as [?|[? _]]; auto.
  - intros a Ha. rewrite Hcov, Hba. destruct (Hfree a Ha) as [Hf|[HL Hn]].
    + destruct (inv_free _ _ _ Hi a Hf) as (? & ? & ?). auto.
    + split_and!; [by apply (inv_live_at _ _ _ Hi0)| |done].
      intros Hb. by destruct (inv_base_at _ _ _ Hi0 a Hb).
  - intros a. rewrite Hcov, Hba. apply Hi.
  - intros a. rewrite Hcov. apply Hi.
Qed.

(** The head of the list of live chunks is apart from the rest. *)
Lemma live_head s X L c sz a :
  chunk_inv s X ((c, sz) :: L) → inr (c, sz) a → in_ranges ((c, sz) :: L) a ∧ ¬ in_ranges L a.
Proof.
  intros Hi Ha. split; [apply in_ranges_cons; by left|].
  intros (r & Hr & Hra). apply list_elem_of_lookup in Hr as [j Hj].
  by pose proof (inv_disjoint _ _ _ Hi 0%nat (Datatypes.S j) (c, sz) r a eq_refl Hj Ha Hra).
Qed.

Lemma in_ranges_tail L r a : in_ranges L a → in_ranges (r :: L) a.
Proof. rewrite in_ranges_cons. auto. Qed.

(** A new extent, made of a chunk that was handed out. *)
Lemma new_extent_inv s X L x c sz (t1 t2 : T) :
  chunk_inv s X ((c, sz) :: L) → chunk_range c sz → held s X ((c, sz) :: L) x →
  let h := <[x := ExtentNode c sz]> (nodes s) in
  tree_of (extent_szad_comp h) t1 (X ∪ {[x]}) → tree_of (extent_ad_comp h) t2 (X ∪ {[x]}) →
  let s' := set_szad t1 (set_ad t2 (set_nodes h s)) in
  chunk_inv s' (X ∪ {[x]}) L ∧
  (∀ a, free_at s' (X ∪ {[x]}) a ↔ free_at s X a ∨ inr (c, sz) a).
Proof.
  intros Hi Hcr Hheld h Ht1 Ht2 s'. pose proof Hheld as (HxX & Hxb & _).
  assert (Hin : (c, sz) ∈ (c, sz) :: L) by (apply elem_of_cons; by left).
  assert (Hfree : ∀ a, free_at s' (X ∪ {[x]}) a ↔ free_at s X a ∨ inr (c, sz) a).
  { intros a. unfold free_at, s'. simpl. split.
    - intros (p & [Hp|Hp%elem_of_singleton]%elem_of_union & Ha).
      + left. exists p. split; [done|]. unfold h in Ha. by rewrite addr_of_new, size_of_new in Ha by set_solver.
      + subst p. right. unfold h in Ha. by rewrite addr_of_eq, size_of_eq in Ha.
    - intros [(p & Hp & Ha)|Ha].
      + exists p. split; [set_solver|]. unfold h. by rewrite addr_of_new, size_of_new by set_solver.
      + exists x. split; [set_solver|]. unfold h. by rewrite addr_of_eq, size_of_eq. }
  split; [|done].
  apply (inv_intro s X ((c, sz) :: L)); simpl; try done.
  - by eapply inv_drop.
  - intros a. apply in_ranges_tail.
  - intros p [Hp|Hp%elem_of_singleton]%elem_of_union.
    + destruct (inv_ext _ _ _ Hi p Hp) as (e & E & He). exists e. unfold h.
      rewrite lookup_insert_ne by set_solver. done.
    + subst p. exists (ExtentNode c sz). unfold h. rewrite lookup_insert_eq.
      done.
  - intros p q [Hp|Hp%elem_of_singleton]%elem_of_union [Hq|Hq%elem_of_singleton]%elem_of_union Hne; unfold h.
    + rewrite !addr_of_new, !size_of_new by set_solver. by apply (inv_sep _ _ _ Hi).
    + subst q. rewrite addr_of_eq, size_of_eq, addr_of_new, size_of_new by done. simpl.
      destruct (ext_sep_live _ _ _ p _ _ Hi Hp Hin); lia.
    + subst p. rewrite addr_of_eq, size_of_eq, addr_of_new, size_of_new by done. simpl.
      destruct (ext_sep_live _ _ _ q _ _ Hi Hq Hin); lia.
    + congruence.
  - apply Hi.
  - intros p Hp [Hx|Hx%elem_of_singleton]%elem_of_union; [by apply (inv_spare _ _ _ Hi p)|by subst].
  - intros p [[Hp|Hp%elem_of_singleton]%elem_of_union|Hp]; [by left|subst; by right; right|by right; left].
  - intros a Ha. apply Hfree in Ha as [Ha|Ha]; [by left|right]. by eapply live_head.
Qed.

(** The extent after a freed chunk grows over it. *)
Lemma grow_extent_ok s X L n c sz :
  chunk_inv s X ((c, sz) :: L) → chunk_range c sz → n ∈ X → addr_of (nodes s) n = c + sz →
  let h := <[n := ExtentNode c (size_of (nodes s) n + sz)]> (nodes s) in
  ∃ t1 t2, ot_remove (extent_szad_comp (nodes s)) n (chunks_szad s) = Some t1 ∧
    ot_insert (extent_szad_comp h) n t1 = Some t2 ∧
    let s' := set_szad t2 (set_nodes h s) in
    chunk_inv s' X L ∧ (∀ a, free_at s' X a ↔ free_at s X a ∨ inr (c, sz) a).
Proof.
  intros Hi (Hc0 & Hcm & Hs0 & Hsm & Hce) Hn Ha h. assert (Hin : (c, sz) ∈ (c, sz) :: L) by (apply elem_of_cons; by left).
  pose proof (ext_addr _ _ _ _ Hi Hn) as (_ & _ & Hn0 & Hnm & Hne). rewrite Ha in *.
  assert (Hlow : ∀ y, y ∈ X → y ≠ n → addr_of (nodes s) y < c ∨ c + sz + size_of (nodes s) n ≤ addr_of (nodes s) y).
  { intros y Hy Hyn. pose proof (ext_addr _ _ _ _ Hi Hy) as (_ & _ & Hy0 & _).
    destruct (ext_sep_live _ _ _ y _ _ Hi Hy Hin); [left; lia|].
    destruct (inv_sep _ _ _ Hi y n Hy Hn Hyn); rewrite Ha in *; [|right]; lia. }
  assert (Hlow2 : ∀ y, y ∈ X → y ≠ n → addr_of (nodes s) y + size_of (nodes s) y ≤ c ∨
      c + sz + size_of (nodes s) n ≤ addr_of (nodes s) y).
  { intros y Hy Hyn. destruct (ext_sep_live _ _ _ y _ _ Hi Hy Hin); [by left|].
    destruct (Hlow y Hy Hyn); [|by right]. pose proof (ext_addr _ _ _ _ Hi Hy) as (_ & _ & Hy0 & _). lia. }
  destruct (tree_remove _ n _ _ (inv_szad _ _ _ Hi) Hn) as (t1 & E1 & Ht1).
  destruct (szad_insert_ok h n t1 (X ∖ {[n]})) as (t2 & E2 & Ht2).
  { apply szad_frame; [set_solver|done]. }
  { intros y Hy. unfold h. rewrite addr_of_eq, addr_of_new by set_solver. simpl.
    destruct (Hlow y); [set_solver..|lia|lia]. }
  replace (X ∖ {[n]} ∪ {[n]}) with X in Ht2.
  2: { apply set_eq. intros y. destruct (decide (y = n)); set_solver. }
  exists t1, t2. split; [done|]. split; [done|]. cbv zeta. set (s' := set_szad t2 (set_nodes h s)).
  assert (Hfree : ∀ a, free_at s' X a ↔ free_at s X a ∨ inr (c, sz) a).
  { intros a. unfold free_at, s'. simpl. split.
    - intros (p & Hp & Hap). destruct (decide (p = n)) as [->|].
      + unfold h in Hap. rewrite addr_of_eq, size_of_eq in Hap. unfold inr in *. simpl in *.
        destruct (Z_lt_ge_dec a (c + sz)); [right; lia|left]. exists n. split; [done|]. rewrite Ha. lia.
      + left. exists p. split; [done|]. unfold h in Hap. by rewrite addr_of_new, size_of_new in Hap by done.
    - intros [(p & Hp & Hap)|Hap].
      + destruct (decide (p = n)) as [->|].
        * exists n. split; [done|]. unfold h. rewrite addr_of_eq, size_of_eq. unfold inr in *. simpl in *.
          rewrite Ha in Hap. lia.
        * exists p. split; [done|]. unfold h. by rewrite addr_of_new, size_of_new by done.
      + exists n. split; [done|]. unfold h. rewrite addr_of_eq, size_of_eq. unfold inr in *. simpl in *. lia. }
  split; [|done]. apply (inv_intro s X ((c, sz) :: L)); simpl; try done; try apply Hi.
  - by eapply inv_drop.
  - intros a. apply in_ranges_tail.
  - eapply tree_mono; [apply extent_ad_comp_order| |exact (inv_ad _ _ _ Hi)].
    intros x y Hx Hy. rewrite !extent_ad_comp_lt. unfold h.
    destruct (decide (x = n)) as [->|Hxn], (decide (y = n)) as [->|Hyn];
      rewrite ?addr_of_eq, ?addr_of_new by done; simpl; [lia|..|done]; rewrite Ha; [lia|].
    destruct (Hlow x Hx Hxn); lia.
  - intros p Hp. destruct (decide (p = n)) as [->|].
    + exists (ExtentNode c (size_of (nodes s) n + sz)). unfold h. rewrite lookup_insert_eq.
      split; [done|]. split_and!; simpl; [done|done|lia| |lia].
      destruct (alignment_facts _ chunksize_alignment) as (? & _). apply mod_add_0; [lia|done|done].
    + destruct (inv_ext _ _ _ Hi p Hp) as (e & E & He). exists e. unfold h. by rewrite lookup_insert_ne.
  - intros p q Hp Hq Hpq. unfold h.
    destruct (decide (p = n)) as [->|Hxn], (decide (q = n)) as [->|Hyn];
      rewrite ?addr_of_eq, ?size_of_eq, ?addr_of_new, ?size_of_new by done; simpl; [done|..].
    + destruct (Hlow2 q Hq Hyn); lia.
    + destruct (Hlow2 p Hp Hxn); lia.
    + by apply (inv_sep _ _ _ Hi).
  - intros p [Hp|Hp]; auto.
  - intros a Hf. apply Hfree in Hf as [Hf|Hf]; [by left|right]. by eapply live_head.
Qed.

(** An extent absorbs the one that ends where it begins. *)
Lemma absorb_prev_ok s X L p n :
  chunk_inv s X L → p ∈ X → n ∈ X → addr_of (nodes s) p + size_of (nodes s) p = addr_of (nodes s) n →
  let h := <[n := ExtentNode (addr_of (nodes s) p) (size_of (nodes s) n + size_of (nodes s) p)]> (nodes s) in
  ∃ t1 t2 t3 t4,
    ot_remove (extent_szad_comp (nodes s)) p (chunks_szad s) = Some t1 ∧
    ot_remove (extent_ad_comp (nodes s)) p (chunks_ad s) = Some t2 ∧
    ot_remove (extent_szad_comp (nodes s)) n t1 = Some t3 ∧
    ot_insert (extent_szad_comp h) n t3 = Some t4 ∧
    let s' := set_base_nodes (p :: base_nodes s) (set_szad t4 (set_nodes h (set_ad t2 s))) in
    chunk_inv s' (X ∖ {[p]}) L ∧ (∀ a, free_at s' (X ∖ {[p]}) a ↔ free_at s X a).
Proof.
  intros Hi Hp Hn Hadj h.
  pose proof (ext_addr _ _ _ _ Hi Hp) as (Hp0 & Hpm & Hps & Hpsm & Hpe).
  pose proof (ext_addr _ _ _ _ Hi Hn) as (Hn0 & Hnm & Hns & Hnsm & Hne).
  assert (Hpn : p ≠ n) by (intros ->; lia).
  assert (Hside : ∀ y, y ∈ X → y ≠ p → y ≠ n →
    addr_of (nodes s) y + size_of (nodes s) y ≤ addr_of (nodes s) p ∨
    addr_of (nodes s) n + size_of (nodes s) n ≤ addr_of (nodes s) y).
  { intros y Hy Hyp Hyn. pose proof (ext_addr _ _ _ _ Hi Hy) as (_ & _ & Hy0 & _).
    destruct (inv_sep _ _ _ Hi y p Hy Hp Hyp); [by left|].
    destruct (inv_sep _ _ _ Hi y n Hy Hn Hyn); [lia|by right]. }
  destruct (tree_remove _ p _ _ (inv_szad _ _ _ Hi) Hp) as (t1 & E1 & Ht1).
  destruct (tree_remove _ p _ _ (inv_ad _ _ _ Hi) Hp) as (t2 & E2 & Ht2).
  destruct (tree_remove _ n _ _ Ht1) as (t3 & E3 & Ht3); [set_solver|].
  destruct (szad_insert_ok h n t3 (X ∖ {[p]} ∖ {[n]})) as (t4 & E4 & Ht4).
  { apply szad_frame; [set_solver|done]. }
  { intros y Hy. unfold h. rewrite addr_of_eq, addr_of_new by set_solver. simpl.
    pose proof (ext_addr _ _ _ y Hi ltac:(set_solver)) as (_ & _ & Hy0 & _).
    destruct (Hside y); [set_solver..|lia|lia]. }
  replace (X ∖ {[p]} ∖ {[n]} ∪ {[n]}) with (X ∖ {[p]}) in Ht4.
  2: { apply set_eq. intros y. destruct (decide (y = n)); set_solver. }
  exists t1, t2, t3, t4. do 4 (split; [done|]). cbv zeta.
  set (s' := set_base_nodes (p :: base_nodes s) (set_szad t4 (set_nodes h (set_ad t2 s)))).
  assert (Hfree : ∀ a, free_at s' (X ∖ {[p]}) a ↔ free_at s X a).
  { intros a. unfold free_at, s'. simpl. split.
    - intros (q & Hq & Haq). destruct (decide (q = n)) as [->|].
      + unfold h in Haq. rewrite addr_of_eq, size_of_eq in Haq. unfold inr in *. simpl in *.
        destruct (Z_lt_ge_dec a (addr_of (nodes s) n)).
        * exists p. split; [done|]. lia.
        * exists n. split; [done|]. lia.
      + exists q. split; [set_solver|]. unfold h in Haq. by rewrite addr_of_new, size_of_new in Haq by done.
    - intros (q & Hq & Haq).
      destruct (decide (q = n)) as [->|Hqn]; [|destruct (decide (q = p)) as [->|Hqp]].
      + exists n. split; [set_solver|]. unfold h. rewrite addr_of_eq, size_of_eq. unfold inr in *. simpl in *. lia.
      + exists n. split; [set_solver|]. unfold h. rewrite addr_of_eq, size_of_eq. unfold inr in *. simpl in *. lia.
      + exists q. split; [set_solver|]. unfold h. by rewrite addr_of_new, size_of_new by done. }
  split; [|done]. apply (inv_intro s X L); simpl; try done.
  - eapply tree_mono; [apply extent_ad_comp_order| |exact Ht2].
    intros x y Hx Hy. rewrite !extent_ad_comp_lt. unfold h.
    destruct (decide (x = n)) as [->|Hxn], (decide (y = n)) as [->|Hyn];
      rewrite ?addr_of_eq, ?addr_of_new by done; simpl; [lia|lia| |done].
    pose proof (ext_addr _ _ _ x Hi ltac:(set_solver)) as (_ & _ & Hx0 & _).
    destruct (Hside x); [set_solver..|lia|lia].
  - intros q Hq. destruct (decide (q = n)) as [->|].
    + eexists. unfold h. rewrite lookup_insert_eq. split; [done|]. split_and!; simpl; [done|done|lia| |lia].
      destruct (alignment_facts _ chunksize_alignment) as (? & _). apply mod_add_0; [lia|done|done].
    + destruct (inv_ext _ _ _ Hi q) as (e & E & He); [set_solver|]. exists e. unfold h. by rewrite lookup_insert_ne.
  - intros x y Hx Hy Hxy. unfold h.
    destruct (decide (x = n)) as [->|Hxn], (decide (y = n)) as [->|Hyn];
      rewrite ?addr_of_eq, ?size_of_eq, ?addr_of_new, ?size_of_new by done; simpl; [done|..].
    + destruct (Hside y); [set_solver..|lia|lia].
    + destruct (Hside x); [set_solver..|lia|lia].
    + apply (inv_sep _ _ _ Hi); set_solver.
  - constructor; [|apply Hi]. intros Hb. by apply (inv_spare _ _ _ Hi p).
  - intros q [->|Hq]%elem_of_cons; [set_solver|]. pose proof (inv_spare _ _ _ Hi q Hq). set_solver.
  - intros q [Hq|[->|Hq]%elem_of_cons]; [left; set_solver|by left|by right; left].
  - intros a Ha. left. by apply Hfree.
Qed.

(** ** [chunk_record] *)

(** The search for the extent that begins at an address. *)
Lemma ad_nsearch_ok s X L key :
  chunk_inv s X L →
  match ot_nsearch (extent_ad_key (nodes s) key) (chunks_ad s) with
  | None => ∀ y, y ∈ X → addr_of (nodes s) y < key
  | Some n => n ∈ X ∧ key ≤ addr_of (nodes s) n ∧
      ∀ y, y ∈ X → y = n ∨ addr_of (nodes s) n < addr_of (nodes s) y ∨ addr_of (nodes s) y < key
  end.
Proof.
  intros Hi.
  assert (Hk : key_cut (extent_ad_key (nodes s) key) (ot_elems (chunks_ad s))).
  { eapply key_cut_of_mono; [|exact (proj1 (proj2 (proj2 (inv_ad _ _ _ Hi))))].
    intros a b. rewrite extent_ad_comp_lt. unfold extent_ad_key.
    destruct (cmp3_spec key (addr_of (nodes s) a)) as [[? ->]|[[? ->]|[? ->]]]; rewrite cmp3_lt; lia. }
  pose proof (tree_nsearch _ _ _ _ (inv_ad _ _ _ Hi) Hk) as Hn.
  assert (Hle : ∀ y, extent_ad_key (nodes s) key y ≤ 0 ↔ key ≤ addr_of (nodes s) y).
  { intros y. unfold extent_ad_key. destruct (cmp3_spec key (addr_of (nodes s) y)) as [[? ->]|[[? ->]|[? ->]]]; lia. }
  destruct (ot_nsearch _ _) as [n|].
  - destruct Hn as (Hn & Hkn & Hleast). split_and!; [done|by apply Hle|]. intros y Hy.
    destruct (Z_lt_ge_dec (addr_of (nodes s) y) key); [by right; right|].
    destruct (Hleast y Hy) as [->|Hlt]; [apply Hle; lia|by left|]. right; left. by apply extent_ad_comp_lt.
  - intros y Hy. specialize (Hn y Hy). by apply (proj1 (cmp3_gt _ _)) in Hn.
Qed.

(** Only the extent of node [n] may touch the one before it. *)
Definition coalesced_but s X n : Prop :=
  ∀ p q, p ∈ X → q ∈ X → addr_of (nodes s) p + size_of (nodes s) p = addr_of (nodes s) q → q = n.

Lemma node_lookup s X L p :
  chunk_inv s X L → p ∈ X →
  nodes s !! p = Some (ExtentNode (addr_of (nodes s) p) (size_of (nodes s) p)).
Proof.
  intros Hi Hp. destruct (inv_ext _ _ _ Hi p Hp) as ([a z] & E & _). unfold addr_of, size_of. by rewrite E.
Qed.

Lemma held_grow s s' X L L0 p :
  held s X L0 p → mappings s' = mappings s → base_nodes s' = base_nodes s →
  base_next_addr s' = base_next_addr s → base_past_addr s' = base_past_addr s →
  (∀ a, in_ranges L a → in_ranges L0 a) →
  (∀ a, free_at s' X a → free_at s X a ∨ in_ranges L0 a) → held s' X L p.
Proof.
  intros (? & ? & ? & ? & ? & ?) Hm Hb Hn1 Hp1 Hsub Hf. unfold held, covered, base_at.
  rewrite Hm, Hb, Hn1, Hp1. split_and!; auto. intros Hfp. destruct (Hf p Hfp); auto.
Qed.

Lemma coalesce_backward_ok s X L n :
  chunk_inv s X L → n ∈ X → coalesced_but s X n →
  ∃ s' X', coalesce_backward (addr_of (nodes s) n) n s = Some (tt, s') ∧ chunk_inv s' X' L ∧
    coalesced s' X' ∧ (∀ a, free_at s' X' a ↔ free_at s X a).
Proof.
  intros Hi Hn Hco. unfold coalesce_backward. mrun.
  pose proof (ext_addr _ _ _ _ Hi Hn) as (Hn0 & _ & Hns & _ & Hne).
  destruct (tree_prev _ n _ _ (inv_ad _ _ _ Hi) Hn) as (r & -> & Hr).
  (* nothing touches [n] unless its predecessor does *)
  assert (Hdone : (∀ p, p ∈ X → addr_of (nodes s) p + size_of (nodes s) p ≠ addr_of (nodes s) n) → coalesced s X).
  { intros Hnot p q Hp Hq E. pose proof (Hco p q Hp Hq E) as ->. by apply (Hnot p Hp). }
  destruct r as [p|].
  2: { exists s, X. split; [done|]. split; [done|]. split; [|done]. apply Hdone. intros p Hp E.
       pose proof (ext_addr _ _ _ _ Hi Hp) as (_ & _ & Hps & _).
       destruct (Hr p Hp) as [->|Hlt%extent_ad_comp_lt]; lia. }
  destruct Hr as (Hp & Hpn%extent_ad_comp_lt & Hbetween).
  pose proof (ext_addr _ _ _ _ Hi Hp) as (Hp0 & _ & Hps & _ & Hpe).
  unfold node_get. mrun. rewrite (node_lookup s X L p Hi Hp). proj.
  rewrite (u64_small (addr_of (nodes s) p + size_of (nodes s) p)) by (split; lia).
  destruct (Z.eqb_spec (addr_of (nodes s) p + size_of (nodes s) p) (addr_of (nodes s) n)) as [Hadj|Hnadj].
  - destruct (absorb_prev_ok s X L p n Hi Hp Hn Hadj) as (t1 & t2 & t3 & t4 & E1 & E2 & E3 & E4 & Hi' & Hf').
    unfold szad_remove, ad_remove, szad_insert, base_node_dealloc, node_set. mrun. rewrite E1. mrun.
    proj. rewrite E2. mrun. proj.
    rewrite E3. mrun. proj. rewrite (node_lookup s X L n Hi Hn). mrun.
    proj. rewrite u64_small by (split; lia). rewrite E4. mrun.
    eexists _, (X ∖ {[p]}). split; [reflexivity|]. split; [exact Hi'|]. split; [|exact Hf'].
    assert (Hpnn : p ≠ n) by (intros ->; lia).
    intros x y Hx Hy. proj.
    destruct (decide (x = n)) as [->|Hxn], (decide (y = n)) as [->|Hyn];
      rewrite ?addr_of_eq, ?size_of_eq, ?addr_of_new, ?size_of_new by done; simpl; intros E.
    + lia.
    + apply Hyn, (Hco n y); [done|set_solver|lia].
    + apply Hpnn, (Hco x p); [set_solver|done|done].
    + apply Hyn, (Hco x y); [set_solver..|done].
  - exists s, X. split; [done|]. split; [done|]. split; [|done]. apply Hdone. intros q Hq E.
    pose proof (ext_addr _ _ _ _ Hi Hq) as (_ & _ & Hqs & _).
    destruct (Hbetween q Hq) as [->|[Hlt%extent_ad_comp_lt|[->|Hlt%extent_ad_comp_lt]]]; [done| |lia|lia].
    destruct (inv_sep _ _ _ Hi q p Hq Hp) as [?|?]; [intros ->|..]; lia.
Qed.

Lemma new_extent_trees s X L x c sz :
  chunk_inv s X ((c, sz) :: L) → chunk_range c sz → coalesced s X → held s X ((c, sz) :: L) x →
  (∀ y, y ∈ X → addr_of (nodes s) y ≠ c + sz) →
  let h := <[x := ExtentNode c sz]> (nodes s) in
  ∃ t1 t2, ot_insert (extent_szad_comp h) x (chunks_szad s) = Some t1 ∧
    ot_insert (extent_ad_comp h) x (chunks_ad s) = Some t2 ∧
    let s' := set_szad t1 (set_ad t2 (set_nodes h s)) in
    chunk_inv s' (X ∪ {[x]}) L ∧ coalesced_but s' (X ∪ {[x]}) x ∧
    (∀ a, free_at s' (X ∪ {[x]}) a ↔ free_at s X a ∨ inr (c, sz) a).
Proof.
  intros Hi Hcr Hco Hx Hend h. pose proof Hx as (HxX & _).
  assert (Hin : (c, sz) ∈ (c, sz) :: L) by (apply elem_of_cons; by left).
  pose proof Hcr as (_ & _ & Hs0 & _).
  assert (Hne : ∀ y, y ∈ X → addr_of h x ≠ addr_of h y).
  { intros y Hy. unfold h. rewrite addr_of_eq, addr_of_new by set_solver. simpl.
    pose proof (ext_addr _ _ _ _ Hi Hy) as (_ & _ & ? & _).
    destruct (ext_sep_live _ _ _ y _ _ Hi Hy Hin); lia. }
  destruct (ad_insert_ok h x (chunks_ad s) X) as (t2 & E2 & Ht2); [by apply ad_frame, Hi|done|].
  destruct (szad_insert_ok h x (chunks_szad s) X) as (t1 & E1 & Ht1); [by apply szad_frame, Hi|done|].
  destruct (new_extent_inv s X L x c sz t1 t2 Hi Hcr Hx Ht1 Ht2) as [Hi' Hf'].
  exists t1, t2. split; [done|]. split; [done|]. split; [exact Hi'|]. split; [|exact Hf'].
  intros p q Hp Hq. proj. destruct (decide (q = x)) as [->|Hqx]; [done|].
  destruct (decide (p = x)) as [->|Hpx]; unfold h;
    rewrite ?addr_of_eq, ?size_of_eq, ?addr_of_new, ?size_of_new by done; simpl; intros E; exfalso.
  - apply (Hend q); [set_solver|done].
  - apply (Hco p q); [set_solver..|done].
Qed.

Lemma new_extent_ok s X L x c sz :
  chunk_inv s X ((c, sz) :: L) → chunk_range c sz → coalesced s X → held s X ((c, sz) :: L) x →
  (∀ y, y ∈ X → addr_of (nodes s) y ≠ c + sz) →
  ∃ s', (node_set x (ExtentNode c sz);; ad_insert x;; szad_insert x;; mret (Some x)) s = Some (Some x, s') ∧
    chunk_inv s' (X ∪ {[x]}) L ∧ addr_of (nodes s') x = c ∧ coalesced_but s' (X ∪ {[x]}) x ∧
    (∀ a, free_at s' (X ∪ {[x]}) a ↔ free_at s X a ∨ inr (c, sz) a).
Proof.
  intros Hi Hcr Hco Hx Hend.
  destruct (new_extent_trees s X L x c sz Hi Hcr Hco Hx Hend) as (t1 & t2 & E1 & E2 & Hi' & Hbut & Hf').
  unfold node_set, ad_insert, szad_insert. mrun. proj. rewrite E2. mrun. proj. rewrite E1. mrun.
  eexists. split; [reflexivity|]. split; [exact Hi'|]. split; [proj; by rewrite addr_of_eq|]. done.
Qed.

Lemma coalesce_forward_ok s X L c sz xnode :
  chunk_inv s X ((c, sz) :: L) → chunk_range c sz → coalesced s X →
  match xnode with None => True | Some x => held s X ((c, sz) :: L) x end →
  ∃ s' X' r, coalesce_forward c sz xnode s = Some (r, s') ∧ chunk_inv s' X' L ∧
    match r with
    | None => xnode = None ∧ ¬ free_at s X (c + sz) ∧ coalesced s' X' ∧ (∀ a, free_at s' X' a ↔ free_at s X a)
    | Some n => n ∈ X' ∧ addr_of (nodes s') n = c ∧ coalesced_but s' X' n ∧
        (∀ a, free_at s' X' a ↔ free_at s X a ∨ inr (c, sz) a)
    end.
Proof.
  intros Hi Hcr Hco Hx. assert (Hin : (c, sz) ∈ (c, sz) :: L) by (apply elem_of_cons; by left).
  pose proof Hcr as (Hc0 & Hcm & Hs0 & Hsm & Hce). simpl in *.
  unfold coalesce_forward. mrun. rewrite u64_small by (split; lia).
  assert (Hnext : (∀ y, y ∈ X → addr_of (nodes s) y ≠ c + sz) → ¬ free_at s X (c + sz)).
  { intros Hy (y & HyX & Hay). unfold inr in Hay. cbn in Hay. specialize (Hy y HyX). destruct (ext_sep_live _ _ _ y _ _ Hi HyX Hin); lia. }
  pose proof (ad_nsearch_ok s X _ (c + sz) Hi) as Hsearch.
  destruct (ot_nsearch (extent_ad_key (nodes s) (c + sz)) (chunks_ad s)) as [n|].
  1: destruct Hsearch as (Hn & Hkn & Hleast);
     destruct (Z.eqb_spec (addr_of (nodes s) n) (c + sz)) as [Ha|Ha].
  - (* coalesce *)
    destruct (grow_extent_ok s X L n c sz Hi Hcr Hn Ha) as (t1 & t2 & E1 & E2 & Hi' & Hf').
    pose proof (ext_addr _ _ _ _ Hi Hn) as (Hn0 & _ & Hns & _ & Hne).
    unfold szad_remove, szad_insert, node_get, node_set. mrun. rewrite E1. mrun. proj.
    rewrite (node_lookup s X _ n Hi Hn). mrun. proj.
    rewrite u64_small by (split; lia). rewrite E2. mrun.
    set (s2 := set_szad t2 (set_nodes _ s)) in Hi', Hf'.
    change (set_szad t2 _) with s2.
    assert (Hbut : coalesced_but s2 X n).
    { intros p q Hp Hq. unfold s2. simpl.
      destruct (decide (p = n)) as [->|Hpn], (decide (q = n)) as [->|Hqn];
        rewrite ?addr_of_eq, ?size_of_eq, ?addr_of_new, ?size_of_new by done; simpl; intros E; try done.
      - exfalso. apply (Hco n q Hn Hq). lia.
      - exfalso. by apply (Hco p q Hp Hq). }
    assert (Hc' : addr_of (nodes s2) n = c) by (unfold s2; simpl; by rewrite addr_of_eq).
    destruct xnode as [x|].
    + destruct (base_node_dealloc_ok s2 X L x Hi') as (s3 & E3 & Hi3 & _ & _ & Hn3 & _).
      { eapply (held_grow s); [exact Hx|done..| |].
        - intros a. apply in_ranges_tail.
        - intros a Haf. apply Hf' in Haf as [?|?]; [by left|right; apply in_ranges_cons; by left]. }
      rewrite E3. mrun. exists s3, X, (Some n). split; [done|]. split; [done|].
      unfold coalesced_but, free_at. rewrite Hn3. done.
    + exists s2, X, (Some n). done.
  - (* the next extent does not touch *)
    assert (Hy : ∀ y, y ∈ X → addr_of (nodes s) y ≠ c + sz) by (intros y Hy E; destruct (Hleast y Hy) as [->|[?|?]]; lia).
    destruct xnode as [x|]; [|exists s, X, None; split_and!; [done|by eapply inv_drop|done|by apply Hnext|done..]].
    destruct (new_extent_ok s X L x c sz Hi Hcr Hco Hx Hy) as (s' & E & Hi' & Hs').
    exists s', (X ∪ {[x]}), (Some x). split; [exact E|]. split; [done|]. split; [set_solver|done].
  - (* there is no next extent *)
    assert (Hy : ∀ y, y ∈ X → addr_of (nodes s) y ≠ c + sz) by (intros y Hy E; specialize (Hsearch y Hy); lia).
    destruct xnode as [x|]; [|exists s, X, None; split_and!; [done|by eapply inv_drop|done|by apply Hnext|done..]].
    destruct (new_extent_ok s X L x c sz Hi Hcr Hco Hx Hy) as (s' & E & Hi' & Hs').
    exists s', (X ∪ {[x]}), (Some x). split; [exact E|]. split; [done|]. split; [set_solver|done].
Qed.

(** A chunk handed out becomes free, or is lost when there is no node for it. *)
Lemma chunk_record_ok s X L c sz :
  chunk_inv s X ((c, sz) :: L) → chunk_range c sz → coalesced s X →
  ∃ s' X', chunk_record os_mmap c sz s = Some (tt, s') ∧ chunk_inv s' X' L ∧ coalesced s' X' ∧
    ((∀ a, free_at s' X' a ↔ free_at s X a ∨ inr (c, sz) a) ∨
     (∃ s1, base_node_alloc os_mmap s = Some (None, s1)) ∧ ¬ free_at s X (c + sz) ∧ (∀ a, free_at s' X' a ↔ free_at s X a)).
Proof.
  intros Hi Hcr Hco. unfold chunk_record. mrun.
  destruct (base_node_alloc_ok s X _ Hi) as (xn & s1 & E1 & Hi1 & _ & _ & Hn1 & Hx). rewrite E1.
  assert (Hfree1 : ∀ a, free_at s1 X a ↔ free_at s X a) by (intros a; unfold free_at; by rewrite Hn1).
  destruct (coalesce_forward_ok s1 X L c sz xn Hi1 Hcr) as (s2 & X2 & r & E2 & Hi2 & Hr);
    [unfold coalesced; by rewrite Hn1|done|]. rewrite E2. destruct r as [n|].
  - destruct Hr as (Hn & Ha & Hbut & Hf2).
    destruct (coalesce_backward_ok s2 X2 L n Hi2 Hn Hbut) as (s3 & X3 & E3 & Hi3 & Hco3 & Hf3). rewrite Ha in E3.
    exists s3, X3. split_and!; [done..|]. left. intros a. by rewrite Hf3, Hf2, Hfree1.
  - destruct Hr as (-> & Hnx & Hco2 & Hf2). exists s2, X2. split_and!; [done..|]. right.
    split; [by exists s1|]. split; [by rewrite <- Hfree1|]. intros a. by rewrite Hf2, Hfree1.
Qed.

(** The state in which [chunk_dealloc] asks for a node. *)
Definition counted_out s (sz : Z) := set_stats (nchunks s) (curchunks s - sz / chunksize) (highchunks s) s.

Lemma chunk_dealloc_ok s X L c sz :
  chunk_inv s X ((c, sz) :: L) → chunk_range c sz → coalesced s X →
  ∃ s' X', chunk_dealloc os_mmap c sz true s = Some (tt, s') ∧ chunk_inv s' X' L ∧ coalesced s' X' ∧
    (∀ a, free_at s' X' a → free_at s X a ∨ inr (c, sz) a) ∧
    ((∀ a, free_at s' X' a ↔ free_at s X a ∨ inr (c, sz) a) ∨
     (∃ s1, base_node_alloc os_mmap (counted_out s sz) = Some (None, s1)) ∧ ¬ free_at s X (c + sz) ∧ (∀ a, free_at s' X' a ↔ free_at s X a)).
Proof.
  intros Hi Hcr Hco. pose proof Hcr as (Hc0 & Hcm & Hs0 & Hsm & Hce).
  unfold chunk_dealloc. rewrite (chunk_base_addr c), (chunk_land_mask sz), !Z.eqb_refl by done.
  rewrite (proj2 (Z.eqb_neq c 0)), (proj2 (Z.eqb_neq sz 0)) by lia. mrun. simpl andb. cbv iota.
  set (s1 := set_stats _ _ _ s).
  destruct (chunk_record_ok s1 X L c sz) as (s' & X' & E & Hi' & Hco' & Hf).
  { eapply remapped_inv; [apply remapped_stats|exact Hi]. }
  { exact Hcr. }
  { exact Hco. }
  exists s', X'. split; [exact E|]. split; [done|]. split; [done|].
  destruct Hf as [Hf|(Hn & Hx & Hf)]; (split; [intros a Ha; apply Hf in Ha; naive_solver|]); [left|right]; done.
Qed.

(** ** [chunk_recycle] *)

(** A range that belongs to nobody becomes a chunk handed out. *)
Lemma inv_add_live s X L c sz :
  chunk_inv s X L → live_range c sz →
  (∀ a, inr (c, sz) a → covered s a ∧ ¬ free_at s X a ∧ ¬ base_at s a ∧ ¬ in_ranges L a ∧
     ¬ (a ∈ X ∨ a ∈ base_nodes s)) →
  chunk_inv s X ((c, sz) :: L).
Proof.
  intros Hi Hr Ha. split; try apply Hi.
  - intros p Hp. destruct (inv_cells _ _ _ Hi p Hp) as (? & ? & ? & ?). split_and!; auto.
    rewrite in_ranges_cons. intros [Hin|?]; [|done]. by destruct (Ha p Hin) as (_ & _ & _ & _ & []).
  - intros a Hf. destruct (inv_free _ _ _ Hi a Hf) as (? & ? & ?). split_and!; auto.
    rewrite in_ranges_cons. intros [Hin|?]; [|done]. by destruct (Ha a Hin) as (_ & ? & _).
  - intros a Hb. destruct (inv_base_at _ _ _ Hi a Hb) as [? ?]. split; [done|].
    rewrite in_ranges_cons. intros [Hin|?]; [|done]. by destruct (Ha a Hin) as (_ & _ & ? & _).
  - intros r [->|Hr']%elem_of_cons; [done|]. by apply (inv_live _ _ _ Hi).
  - intros a [Hin|Hin]%in_ranges_cons; [by apply Ha|by apply (inv_live_at _ _ _ Hi)].
  - intros [|i] [|j] r1 r2 a H1 H2 Ha1 Ha2; simpl in *; [done|..].
    + injection H1 as <-. destruct (Ha a Ha1) as (_ & _ & _ & [] & _).
      exists r2. split; [by eapply list_elem_of_lookup_2|done].
    + injection H2 as <-. destruct (Ha a Ha2) as (_ & _ & _ & [] & _).
      exists r1. split; [by eapply list_elem_of_lookup_2|done].
    + f_equal. by eapply (inv_disjoint _ _ _ Hi i j r1 r2 a).
Qed.

(** Taking an extent out of the trees: its range belongs to nobody, and its
    node is held. *)
Lemma remove_extent_ok s X L n :
  chunk_inv s X L → coalesced s X → n ∈ X →
  ∃ t1 t2, ot_remove (extent_szad_comp (nodes s)) n (chunks_szad s) = Some t1 ∧
    ot_remove (extent_ad_comp (nodes s)) n (chunks_ad s) = Some t2 ∧
    let s' := set_ad t2 (set_szad t1 s) in
    chunk_inv s' (X ∖ {[n]}) L ∧ coalesced s' (X ∖ {[n]}) ∧ held s' (X ∖ {[n]}) L n ∧
    (∀ a, inr (addr_of (nodes s) n, size_of (nodes s) n) a →
       covered s' a ∧ ¬ free_at s' (X ∖ {[n]}) a ∧ ¬ base_at s' a ∧ ¬ in_ranges L a ∧
       ¬ (a ∈ X ∖ {[n]} ∨ a ∈ base_nodes s') ∧ a ≠ n) ∧
    (∀ a, free_at s' (X ∖ {[n]}) a ↔ free_at s X a ∧ ¬ inr (addr_of (nodes s) n, size_of (nodes s) n) a).
Proof.
  intros Hi Hco Hn.
  destruct (tree_remove _ n _ _ (inv_szad _ _ _ Hi) Hn) as (t1 & E1 & Ht1).
  destruct (tree_remove _ n _ _ (inv_ad _ _ _ Hi) Hn) as (t2 & E2 & Ht2).
  exists t1, t2. split; [done|]. split; [done|]. intros s'.
  assert (Hfree : ∀ a, free_at s' (X ∖ {[n]}) a ↔
      free_at s X a ∧ ¬ inr (addr_of (nodes s) n, size_of (nodes s) n) a).
  { intros a. unfold free_at, s'. proj. split.
    - intros (p & Hp & Ha). split; [exists p; set_solver|]. intros Hna.
      pose proof (ext_addr _ _ _ n Hi Hn) as (_ & _ & ? & _).
      destruct (inv_sep _ _ _ Hi p n); [set_solver..| |]; unfold inr in *; simpl in *; lia.
    - intros [(p & Hp & Ha) Hna]. exists p. split; [|done].
      assert (p ≠ n) by (intros ->; done). set_solver. }
  assert (Hi' : chunk_inv s' (X ∖ {[n]}) L).
  { apply (inv_intro s X L); try done; try apply Hi.
    - intros p Hp. apply (inv_ext _ _ _ Hi). set_solver.
    - intros p q Hp Hq. apply (inv_sep _ _ _ Hi); set_solver.
    - intros p Hp. pose proof (inv_spare _ _ _ Hi p Hp). set_solver.
    - intros p [Hp|Hp]; [left; set_solver|by right; left].
    - intros a Ha. left. by apply Hfree. }
  destruct (inv_cells _ _ _ Hi n) as (? & Hnf & ? & ?); [by left|].
  split; [done|]. split; [|split; [|split; [|done]]].
  - intros p q Hp Hq. apply Hco; set_solver.
  - split_and!; try done; [set_solver| |].
    + intros Hb. by apply (inv_spare _ _ _ Hi n).
    + rewrite Hfree. naive_solver.
  - intros a Ha. assert (Hfa : free_at s X a) by (by exists n).
    destruct (inv_free _ _ _ Hi a Hfa) as (? & ? & ?). split_and!; try done.
    + rewrite Hfree. naive_solver.
    + intros Hx. destruct (inv_cells _ _ _ Hi a) as (_ & ? & _); [|done].
      destruct Hx as [Hx|Hx]; [left; set_solver|by right].
    + intros ->. done.
Qed.

(** A new extent that touches no other. *)
Lemma insert_extent_ok {A} s X L x c sz (k : M state A) :
  chunk_inv s X ((c, sz) :: L) → chunk_range c sz → coalesced s X → held s X ((c, sz) :: L) x →
  (∀ y, y ∈ X → addr_of (nodes s) y ≠ c + sz ∧ addr_of (nodes s) y + size_of (nodes s) y ≠ c) →
  ∃ s', (node_set x (ExtentNode c sz);; szad_insert x;; ad_insert x;; k) s = k s' ∧
    chunk_inv s' (X ∪ {[x]}) L ∧ coalesced s' (X ∪ {[x]}) ∧
    nodes s' = <[x := ExtentNode c sz]> (nodes s) ∧
    (∀ a, free_at s' (X ∪ {[x]}) a ↔ free_at s X a ∨ inr (c, sz) a).
Proof.
  intros Hi Hcr Hco Hx Hends. pose proof Hx as (HxX & _).
  destruct (new_extent_trees s X L x c sz Hi Hcr Hco Hx) as (t1 & t2 & E1 & E2 & Hi' & Hbut & Hf').
  { intros y Hy. by apply Hends. }
  unfold node_set, ad_insert, szad_insert. mrun. proj. rewrite E1. mrun. proj. rewrite E2. mrun.
  eexists. split; [reflexivity|]. split; [exact Hi'|]. split; [|split; [done|exact Hf']].
  intros p q Hp Hq E. pose proof (Hbut p q Hp Hq E) as ->. revert E. proj.
  destruct (decide (p = x)) as [->|Hpx]; rewrite ?addr_of_eq, ?size_of_eq, ?addr_of_new, ?size_of_new by done.
  - simpl. destruct Hcr as (_ & _ & ? & _). lia.
  - simpl. intros E. apply (Hends p); [set_solver|done].
Qed.

(** A range of the list of live chunks, unless it is empty. *)
Definition opt_range (a sz : Z) : list (Z * Z) := if sz =? 0 then [] else [(a, sz)].

Lemma recycle_lead_ok s X L n a lead :
  chunk_inv s X (opt_range a lead ++ L) → coalesced s X → held s X (opt_range a lead ++ L) n → 0 ≤ lead →
  (lead ≠ 0 → chunk_range a lead) →
  (∀ y, y ∈ X → addr_of (nodes s) y ≠ a + lead ∧ addr_of (nodes s) y + size_of (nodes s) y ≠ a) →
  ∃ r s' X', recycle_lead n a lead s = Some (r, s') ∧ chunk_inv s' X' L ∧ coalesced s' X' ∧
    match r with None => True | Some x => held s' X' L x end ∧
    (∀ b, free_at s' X' b ↔ free_at s X b ∨ inr (a, lead) b) ∧
    (∀ y, y ∈ X' → y ∈ X ∧ addr_of (nodes s') y = addr_of (nodes s) y ∧ size_of (nodes s') y = size_of (nodes s) y ∨
       addr_of (nodes s') y = a ∧ size_of (nodes s') y = lead).
Proof.
  intros Hi Hco Hn Hl Hlr Hends. unfold recycle_lead, opt_range in *.
  destruct (Z.eqb_spec lead 0) as [Hl0|Hne].
  - rewrite Hl0. exists (Some n), s, X. split; [done|]. split; [done|]. split; [done|]. split; [done|]. split.
    + intros b. unfold inr. simpl. split; [by left|]. intros [?|?]; [done|lia].
    + intros y Hy. by left.
  - cbn [negb]. simpl app in Hi, Hn.
    destruct (insert_extent_ok s X L n a lead (mret (None (A := Z))) Hi (Hlr Hne) Hco Hn Hends) as (s' & E & Hi' & Hco' & Hn' & Hf').
    exists None, s', (X ∪ {[n]}). split; [exact E|]. split; [done|]. split; [done|]. split; [done|]. split; [exact Hf'|].
    intros y Hy. rewrite Hn'. destruct (decide (y = n)) as [->|].
    + right. by rewrite addr_of_eq, size_of_eq.
    + left. rewrite addr_of_new, size_of_new by done. set_solver.
Qed.

Lemma recycle_trail_ok s X L node ret sz trail :
  let R := opt_range (ret + sz) trail ++ (ret, sz) :: L in
  chunk_inv s X R → coalesced s X → 0 ≤ trail → chunk_range ret sz → (trail ≠ 0 → chunk_range (ret + sz) trail) →
  match node with None => True | Some x => held s X R x end →
  (∀ y, y ∈ X → addr_of (nodes s) y ≠ ret + sz + trail ∧
     addr_of (nodes s) y + size_of (nodes s) y ≠ ret + sz) →
  ∃ r failed s' X', recycle_trail os_mmap node ret sz trail s = Some ((r, failed), s') ∧ coalesced s' X' ∧
    if failed : bool
    then chunk_inv s' X' L ∧ (∀ b, free_at s' X' b → free_at s X b ∨ inr (ret, sz) b)
    else chunk_inv s' X' ((ret, sz) :: L) ∧
      match r with None => True | Some x => held s' X' ((ret, sz) :: L) x end ∧
      (∀ b, free_at s' X' b ↔ free_at s X b ∨ inr (ret + sz, trail) b).
Proof.
  intros R Hi Hco Ht Hcr Htr Hn Hends. unfold recycle_trail, R, opt_range in *. clear R.
  destruct (Z.eqb_spec trail 0) as [Ht0|Hne]; cbn [negb].
  { rewrite Ht0. exists node, false, s, X. split; [done|]. split; [done|]. split; [done|]. split; [done|].
    intros b. unfold inr. simpl. split; [by left|]. intros [?|?]; [done|lia]. }
  simpl app in Hi, Hn.
  assert (Hadd : u64 (ret + sz) = ret + sz).
  { destruct (Htr Hne) as (? & _ & ? & _ & ?). apply u64_small. split; lia. }
  (* with a node in hand *)
  assert (Hput : ∀ s1 x, chunk_inv s1 X ((ret + sz, trail) :: (ret, sz) :: L) → coalesced s1 X → nodes s1 = nodes s →
     held s1 X ((ret + sz, trail) :: (ret, sz) :: L) x →
     ∃ s' X', (node_set x (ExtentNode (u64 (ret + sz)) trail);; szad_insert x;; ad_insert x;; mret (None (A := Z), false)) s1
        = Some ((None, false), s') ∧ coalesced s' X' ∧ chunk_inv s' X' ((ret, sz) :: L) ∧
        (∀ b, free_at s' X' b ↔ free_at s X b ∨ inr (ret + sz, trail) b)).
  { intros s1 x Hi1 Hco1 Hn1 Hx. rewrite Hadd.
    destruct (insert_extent_ok s1 X _ x (ret + sz) trail (mret (None (A := Z), false)) Hi1 (Htr Hne) Hco1 Hx)
      as (s' & E & Hi' & Hco' & _ & Hf'); [by rewrite Hn1|].
    exists s', (X ∪ {[x]}). split; [exact E|]. split; [done|]. split; [done|].
    intros b. rewrite Hf'. unfold free_at. by rewrite Hn1. }
  destruct node as [x|].
  - destruct (Hput s x Hi Hco eq_refl Hn) as (s' & X' & E & Hco' & Hi' & Hf').
    exists None, false, s', X'. split; [exact E|]. split_and!; done.
  - destruct (base_node_alloc_ok s X _ Hi) as (xn & s1 & E1 & Hi1 & _ & _ & Hn1 & Hx). mrun. rewrite E1.
    assert (Hco1 : coalesced s1 X) by (unfold coalesced; by rewrite Hn1).
    destruct xn as [x|].
    + destruct (Hput s1 x Hi1 Hco1 Hn1 Hx) as (s' & X' & E & Hco' & Hi' & Hf').
      exists None, false, s', X'. split; [exact E|]. split_and!; done.
    + destruct (chunk_dealloc_ok s1 X L ret sz) as (s' & X' & E & Hi' & Hco' & Hf' & _);
        [by eapply inv_drop|done|done|]. rewrite E.
      exists None, true, s', X'. split; [done|]. split; [done|]. split; [done|].
      intros b Hb. apply Hf' in Hb. unfold free_at in *. by rewrite Hn1 in Hb.
Qed.

(** The search for an extent large enough. *)
Lemma szad_nsearch_ok s X L need :
  chunk_inv s X L →
  match ot_nsearch (extent_szad_key (nodes s) need 0) (chunks_szad s) with
  | None => True
  | Some n => n ∈ X ∧ need ≤ size_of (nodes s) n
  end.
Proof.
  intros Hi.
  assert (Hk : key_cut (extent_szad_key (nodes s) need 0) (ot_elems (chunks_szad s))).
  { eapply key_cut_of_mono; [|exact (proj1 (proj2 (proj2 (inv_szad _ _ _ Hi))))].
    intros a b. rewrite extent_szad_comp_lt.
    destruct (extent_szad_key_spec (nodes s) need 0 a) as (H1 & H2 & H3).
    destruct (extent_szad_key_spec (nodes s) need 0 b) as (-> & _). lia. }
  pose proof (tree_nsearch _ _ _ _ (inv_szad _ _ _ Hi) Hk) as Hn.
  destruct (ot_nsearch _ _) as [n|]; [|done]. destruct Hn as (Hn & Hle & _). split; [done|].
  destruct (extent_szad_key_spec (nodes s) need 0 n) as (H1 & H2 & H3). lia.
Qed.

(** The three parts of an extent: before the chunk, the chunk, after it. *)
Lemma split_extent_inv s X L n a0 z0 lead sz :
  chunk_inv s X L → held s X L n → chunk_range a0 z0 →
  0 ≤ lead → lead mod chunksize = 0 → 0 < sz → sz mod chunksize = 0 → lead + sz ≤ z0 →
  (∀ a, inr (a0, z0) a → covered s a ∧ ¬ free_at s X a ∧ ¬ base_at s a ∧ ¬ in_ranges L a ∧
     ¬ (a ∈ X ∨ a ∈ base_nodes s) ∧ a ≠ n) →
  let R := opt_range a0 lead ++ opt_range (a0 + lead + sz) (z0 - lead - sz) ++ (a0 + lead, sz) :: L in
  chunk_inv s X R ∧ held s X R n ∧ (lead ≠ 0 → chunk_range a0 lead) ∧ chunk_range (a0 + lead) sz ∧
  (z0 - lead - sz ≠ 0 → chunk_range (a0 + lead + sz) (z0 - lead - sz)).
Proof.
  intros Hi Hh (Ha0 & Ham & Hz0 & Hzm & Hend) Hl Hlm Hs Hsm Hle Ha R.
  destruct (alignment_facts _ chunksize_alignment) as (HC & _).
  set (trail := z0 - lead - sz) in *.
  assert (Htm : trail mod chunksize = 0) by (unfold trail; apply mod_sub_0; [lia|by apply mod_sub_0; [lia|..]|done]).
  assert (Hall : ∀ b, in_ranges R b → in_ranges L b ∨ inr (a0, z0) b).
  { intros b (r & Hr & Hb). unfold R in Hr. rewrite !elem_of_app, elem_of_cons in Hr. unfold opt_range in Hr.
    destruct Hr as [Hr|[Hr|[->|Hr]]].
    - destruct (Z.eqb_spec lead 0); [by apply elem_of_nil in Hr|].
      apply list_elem_of_singleton in Hr as ->. right. unfold inr in *. simpl in *. lia.
    - destruct (Z.eqb_spec trail 0); [by apply elem_of_nil in Hr|].
      apply list_elem_of_singleton in Hr as ->. right. unfold inr in *. simpl in *. lia.
    - right. unfold inr in *. simpl in *. lia.
    - left. by exists r. }
  assert (Hlr : lead ≠ 0 → chunk_range a0 lead) by (intros; split_and!; [lia|done|lia|done|lia]).
  assert (Hsr : chunk_range (a0 + lead) sz).
  { split_and!; [lia|by apply mod_add_0; [lia|..]|lia|done|lia]. }
  assert (Htr : trail ≠ 0 → chunk_range (a0 + lead + sz) trail).
  { intros. split_and!; [lia|apply mod_add_0; [lia|by apply mod_add_0; [lia|..]|done]|lia|done|lia]. }
  split; [|split; [|done]].
  - assert (H1 : chunk_inv s X ((a0 + lead, sz) :: L)).
    { apply inv_add_live; [done|by apply chunk_range_live|].
      intros b Hb. destruct (Ha b) as (? & ? & ? & ? & ? & ?); [unfold inr in *; simpl in *; lia|done]. }
    assert (H2 : chunk_inv s X (opt_range (a0 + lead + sz) trail ++ (a0 + lead, sz) :: L)).
    { unfold opt_range. destruct (Z.eqb_spec trail 0) as [|Hne]; [done|].
      apply inv_add_live; [done|by apply chunk_range_live, Htr|].
      intros b Hb. destruct (Ha b) as (? & ? & ? & ? & ? & ?); [unfold inr in *; simpl in *; lia|].
        rewrite in_ranges_cons. split_and!; try done. intros [?|?]; [|done]. unfold inr in *. simpl in *. lia. }
    unfold R, opt_range at 1. destruct (Z.eqb_spec lead 0) as [|Hne]; [done|].
    apply inv_add_live; [done|by apply chunk_range_live, Hlr|].
    + intros b Hb. destruct (Ha b) as (? & ? & ? & HnL & ? & ?); [unfold inr in *; simpl in *; lia|].
      split_and!; try done. intros (r & Hr & Hrb). unfold opt_range in Hr.
      rewrite elem_of_app, elem_of_cons in Hr. destruct Hr as [Hr|[->|Hr]].
      * destruct (Z.eqb_spec trail 0); [by apply elem_of_nil in Hr|].
        apply list_elem_of_singleton in Hr as ->. unfold inr in *. simpl in *. lia.
      * unfold inr in *. simpl in *. lia.
      * apply HnL. by exists r.
  - destruct Hh as (? & ? & ? & ? & ? & ?). split_and!; try done.
    intros [?|Hin]%Hall; [done|]. by destruct (Ha n Hin) as (_ & _ & _ & _ & _ & []).
Qed.

Lemma chunk_recycle_ok s X L sz al zero :
  chunk_inv s X L → coalesced s X → chunk_alignment al → 0 < sz < 2 ^ 64 → sz mod chunksize = 0 →
  ∃ r z s' X', chunk_recycle os_mmap sz al false zero s = Some ((r, z), s') ∧ coalesced s' X' ∧
    match r with
    | None => chunk_inv s' X' L ∧ (∀ a, free_at s' X' a → free_at s X a)
    | Some p => p mod al = 0 ∧ chunk_range p sz ∧ chunk_inv s' X' ((p, sz) :: L) ∧
        (∀ a, inr (p, sz) a → free_at s X a) ∧ (∀ a, free_at s' X' a ↔ free_at s X a ∧ ¬ inr (p, sz) a)
    end.
Proof.
  intros Hi Hco Hal Hsz Hszc.
  destruct (alignment_facts al Hal) as (Ha & Hpc & Hac & _ & _ & _ & Hcc & Hceil).
  assert (HP : PAGE = 8192) by done.
  assert (Hnone : ∃ r z s' X', Some ((None, zero), s) = Some ((r, z), s') ∧ coalesced s' X' ∧
    match r with
    | None => chunk_inv s' X' L ∧ (∀ a, free_at s' X' a → free_at s X a)
    | Some p => p mod al = 0 ∧ chunk_range p sz ∧ chunk_inv s' X' ((p, sz) :: L) ∧
        (∀ a, inr (p, sz) a → free_at s X a) ∧ (∀ a, free_at s' X' a ↔ free_at s X a ∧ ¬ inr (p, sz) a)
    end) by (exists None, zero, s, X; done).
  unfold chunk_recycle. rewrite u64_assoc.
  destruct (Z_lt_ge_dec (sz + al - chunksize) (2 ^ 64)) as [Hfit|Hwrap].
  2: { rewrite u64_wrap by lia. rewrite (proj2 (Z.ltb_lt _ sz)) by lia. exact Hnone. }
  rewrite u64_small by (split; lia). rewrite (proj2 (Z.ltb_ge _ sz)) by lia. mrun.
  set (need := sz + al - chunksize) in *. pose proof (szad_nsearch_ok s X L need Hi) as Hn.
  destruct (ot_nsearch _ _) as [n|]; [|exact Hnone]. clear Hnone. destruct Hn as [Hn Hneed].
  pose proof (ext_addr _ _ _ _ Hi Hn) as Hext. pose proof Hext as (Ha0 & Ham & Hz0 & Hzm & Hend).
  set (a0 := addr_of (nodes s) n) in *. set (z0 := size_of (nodes s) n) in *.
  unfold node_get. mrun. rewrite (node_lookup s X L n Hi Hn). fold a0 z0. proj.
  rewrite Hceil by lia. pose proof (round_up_spec a0 al ltac:(lia)) as [Hru Hmod].
  assert (Hlm : (round_up a0 al - a0) mod chunksize = 0) by (apply mod_sub_0; [lia|by apply Hcc|done]).
  assert (Hlead : round_up a0 al - a0 ≤ al - chunksize).
  { pose proof (mod_0_lt_add (round_up a0 al - a0) al chunksize). lia. }
  rewrite (u64_small (round_up a0 al - a0)) by (split; lia). set (lead := round_up a0 al - a0) in *.
  rewrite (u64_small (a0 + lead)) by (split; lia).
  rewrite (proj2 (Z.leb_le _ z0)) by lia.
  destruct (remove_extent_ok s X L n Hi Hco Hn) as (t1 & t2 & E1 & E2 & Hi1 & Hco1 & Hh1 & Ha1 & Hf1).
  unfold szad_remove, ad_remove. mrun. rewrite E1. proj. rewrite E2.
  set (s1 := set_ad t2 (set_szad t1 s)) in *. set (X1 := X ∖ {[n]}) in *. fold a0 z0 in Ha1, Hf1.
  destruct (split_extent_inv s1 X1 L n a0 z0 lead sz Hi1 Hh1 Hext ltac:(lia) Hlm ltac:(lia) Hszc ltac:(lia) Ha1)
    as (Hi2 & Hh2 & Hlr & Hsr & Htr).
  (* extents left in the trees are apart from this one *)
  assert (Hapart : ∀ y, y ∈ X1 → addr_of (nodes s1) y + size_of (nodes s1) y < a0 ∨ a0 + z0 < addr_of (nodes s1) y).
  { intros y Hy. change (nodes s1) with (nodes s).
    destruct (inv_sep _ _ _ Hi y n) as [Hs|Hs]; [set_solver..| |]; fold a0 z0 in Hs |- *.
    - left. pose proof (Hco y n ltac:(set_solver) Hn) as Hq. fold a0 in Hq. lia.
    - right. pose proof (Hco n y Hn ltac:(set_solver)) as Hq. fold a0 z0 in Hq. lia. }
  assert (Hpos : ∀ y, y ∈ X1 → 0 < size_of (nodes s1) y).
  { intros y Hy. by pose proof (ext_addr _ _ _ _ Hi1 Hy) as (_ & _ & ? & _). }
  destruct (recycle_lead_ok s1 X1 _ n a0 lead Hi2 Hco1 Hh2) as (r & s2 & X2 & E3 & Hi3 & Hco3 & Hr & Hf3 & Hx3).
  { lia. }
  { exact Hlr. }
  { intros y Hy. pose proof (Hpos y Hy). destruct (Hapart y Hy); lia. }
  rewrite E3.
  destruct (recycle_trail_ok s2 X2 L r (a0 + lead) sz (z0 - lead - sz) Hi3 Hco3) as (r' & failed & s3 & X3 & E4 & Hco4 & Hres);
    [lia|exact Hsr|exact Htr|exact Hr| |].
  { intros y Hy. destruct (Hx3 y Hy) as [(Hy1 & -> & ->)|[-> ->]]; [|lia].
    pose proof (Hpos y Hy1). destruct (Hapart y Hy1); lia. }
  rewrite E4. assert (Hsub : ∀ b, inr (a0, z0) b → free_at s X b) by (intros b Hb; by exists n).
  destruct failed.
  - destruct Hres as [Hi4 Hf4]. exists None, zero, s3, X3. split; [done|]. split; [done|]. split; [done|].
    intros b Hb. apply Hf4 in Hb as [Hb|Hb]; [|apply Hsub; unfold inr in *; simpl in *; lia].
    apply Hf3 in Hb as [Hb|Hb]; [by apply Hf1 in Hb as [? _]|apply Hsub; unfold inr in *; simpl in *; lia].
  - destruct Hres as (Hi4 & Hr4 & Hf4).
    assert (Hfin : ∀ s4, chunk_inv s4 X3 ((a0 + lead, sz) :: L) → nodes s4 = nodes s3 →
      ∃ r z s' X', Some ((Some (a0 + lead), true), s4) = Some ((r, z), s') ∧ coalesced s' X' ∧
        match r with
        | None => chunk_inv s' X' L ∧ (∀ a, free_at s' X' a → free_at s X a)
        | Some p => p mod al = 0 ∧ chunk_range p sz ∧ chunk_inv s' X' ((p, sz) :: L) ∧
            (∀ a, inr (p, sz) a → free_at s X a) ∧ (∀ a, free_at s' X' a ↔ free_at s X a ∧ ¬ inr (p, sz) a)
        end).
    { intros s4 Hi5 Hn5. exists (Some (a0 + lead)), true, s4, X3. split; [done|].
      split; [unfold coalesced; rewrite Hn5; exact Hco4|].
      split; [unfold lead; by replace (a0 + (round_up a0 al - a0)) with (round_up a0 al) by lia|].
      split; [exact Hsr|]. split; [done|].
      split; [intros b Hb; apply Hsub; unfold inr in *; simpl in *; lia|].
      intros b. transitivity (free_at s3 X3 b); [unfold free_at; by rewrite Hn5|]. rewrite Hf4, Hf3, Hf1. split.
      - intros [[[? Hnb]|Hb]|Hb].
        + split; [done|]. unfold inr in *. simpl in *. lia.
        + split; [apply Hsub|]; unfold inr in *; simpl in *; lia.
        + split; [apply Hsub|]; unfold inr in *; simpl in *; lia.
      - intros [Hb Hnb]. unfold inr in *. simpl in *.
        destruct (Z_lt_ge_dec b a0); [left; left; split; [done|lia]|].
        destruct (Z_lt_ge_dec b (a0 + lead)); [left; right; lia|].
        destruct (Z_lt_ge_dec b (a0 + z0)); [right; lia|]. left; left. split; [done|lia]. }
    destruct r' as [x|].
    + destruct (base_node_dealloc_ok s3 X3 _ x Hi4 Hr4) as (s4 & E5 & Hi5 & _ & _ & Hn5 & _).
      rewrite E5. by apply Hfin.
    + by apply Hfin.
Qed.

(** ** [chunk_alloc] *)

Lemma chunk_alloc_ok s X L sz al zero :
  chunk_inv s X L → coalesced s X → chunk_alignment al → 0 < sz < 2 ^ 64 → sz mod chunksize = 0 →
  ∃ r z s' X', chunk_alloc os_mmap sz al false zero s = Some ((r, z), s') ∧ coalesced s' X' ∧
    match r with
    | None => chunk_inv s' X' L ∧ (∀ a, free_at s' X' a → free_at s X a)
    | Some p => p mod al = 0 ∧ chunk_range p sz ∧ chunk_inv s' X' ((p, sz) :: L) ∧
        ((∀ a, inr (p, sz) a → free_at s X a) ∧ (∀ a, free_at s' X' a ↔ free_at s X a ∧ ¬ inr (p, sz) a) ∨
         (∀ a, inr (p, sz) a → ¬ covered s a) ∧ (∀ a, free_at s' X' a → free_at s X a))
    end.
Proof.
  intros Hi Hco Hal Hsz Hszc.
  destruct (alignment_facts al Hal) as (Ha & Hpc & Hac & _ & Hland & _ & Hcc & _).
  unfold chunk_alloc, chunk_alloc_with. rewrite Hland, (chunk_land_mask sz), !Z.eqb_refl by done.
  rewrite (proj2 (Z.eqb_neq sz 0)), (proj2 (Z.eqb_neq al 0)) by lia. mrun.
  destruct (chunk_recycle_ok s X L sz al zero Hi Hco Hal Hsz Hszc) as (r & z & s1 & X1 & E1 & Hco1 & Hr).
  rewrite E1. unfold chunk_stats_alloc. destruct r as [p|].
  - destruct Hr as (Hpa & Hrange & Hi1 & Hsub & Hf1). mrun.
    rewrite (chunk_base_addr p), Z.eqb_refl by apply Hrange.
    eexists (Some p), z, _, X1. split; [reflexivity|]. split; [exact Hco1|]. split; [done|]. split; [done|].
    split; [eapply remapped_inv; [apply remapped_stats|exact Hi1]|]. left. split; [done|exact Hf1].
  - destruct Hr as [Hi1 Hf1].
    destruct (chunk_alloc_mmap_ok s1 X1 L sz al z Hi1 Hal Hsz Hszc) as (r & z' & s2 & E2 & Hm & Hr2).
    rewrite E2. pose proof (remapped_inv _ _ _ _ Hm Hi1) as Hi2.
    assert (Hsame : nodes s2 = nodes s1 ∧ base_nodes s2 = base_nodes s1 ∧ base_next_addr s2 = base_next_addr s1 ∧
      base_past_addr s2 = base_past_addr s1) by (destruct Hm as (l & n & c & h & -> & _); done).
    destruct Hsame as (Hn2 & Hb2 & Hx2 & Hp2).
    assert (Hf2 : ∀ a, free_at s2 X1 a ↔ free_at s1 X1 a) by (intros a; unfold free_at; by rewrite Hn2).
    assert (Hco2 : coalesced s2 X1) by (unfold coalesced; by rewrite Hn2).
    destruct r as [p|].
    2: { exists None, z', s2, X1. split; [done|]. split; [done|]. split; [done|]. intros a Hfa. by apply Hf1, Hf2. }
    destruct Hr2 as (Hpa & Hrange & Hcov). mrun. rewrite (chunk_base_addr p), Z.eqb_refl by apply Hrange.
    eexists (Some p), z', _, X1. split; [reflexivity|]. split; [exact Hco2|]. split; [done|]. split; [done|].
    split; [eapply remapped_inv; [apply remapped_stats|]|].
    + apply inv_add_live; [done|by apply chunk_range_live|]. intros a Hin. destruct (Hcov a Hin) as [Hnc Hc].
      split_and!; [done|..].
      * rewrite Hf2. intros Hfa. by apply Hnc, (inv_free _ _ _ Hi1).
      * unfold base_at. rewrite Hx2, Hp2. intros Hb. by apply Hnc, (inv_base_at _ _ _ Hi1).
      * intros HL. by apply Hnc, (inv_live_at _ _ _ Hi1).
      * rewrite Hb2. intros Hx. by apply Hnc, (inv_cells _ _ _ Hi1).
    + right. split.
      * intros a Hin Hc. destruct (Hcov a Hin) as [Hnc _]. apply Hnc.
        destruct (chunk_recycle_grows _ _ _ _ _ _ _ E1) as [l El]. destruct Hc as (q & Hq & Hqa).
        exists q. split; [|done]. rewrite El. set_solver.
      * intros a Hfa. by apply Hf1, Hf2.
Qed.
End spec.
