(* ===== verification/ChunkSystem.v ===== *)
(** * The chunk layer as a system

    Any interleaving of [chunk_alloc], [chunk_dealloc] of a chunk that was
    handed out, base allocations, and node allocations and deallocations, from
    [chunk_boot] on.  The theorems say what each operation does in a state the
    system can reach, that none of them gets stuck there, and that no memory
    handed out overlaps.  The system keeps the promises of [ChunkIface]. *)

From S2P Require Import Prelude OrdTree Rb SizeClass Chunk ChunkIface ChunkSpec.

(** A chunk request is one of the form the chunk code asserts. *)
Section system.
Context `{Config} {T : Type} `{OT : OrdTree T Z} `{!OrdTreeLaws T Z}.
Context (os_mmap : list (Z * Z) → Z → option Z).
Implicit Types (s : state (T := T)) (X : gset Z) (C B L : list (Z * Z)) (p a : Z).

(** What the system is at: its state, the chunks handed out, and the memory of
    the base allocator handed out, a node being represented by its first byte. *)
Record config := Conf { c_state : state (T := T); c_chunks : list (Z * Z); c_base : list (Z * Z) }.

Definition opt_cons {A} (o : option A) (l : list A) : list A := match o with Some x => x :: l | None => l end.

Inductive chunk_step : config → config → Prop :=
| step_alloc s C B sz al zero r z s' :
    chunk_request sz al →
    chunk_alloc os_mmap sz al false zero s = Some ((r, z), s') →
    chunk_step (Conf s C B) (Conf s' (opt_cons ((., sz) <$> r) C) B)
| step_nv_alloc s C B sz al zero r z s' :
    chunk_request sz al →
    nv_chunk_alloc os_mmap sz al false zero s = Some ((r, z), s') →
    chunk_step (Conf s C B) (Conf s' (opt_cons ((., sz) <$> r) C) B)
| step_dealloc s C1 C2 B c sz unmap s' :
    chunk_dealloc os_mmap c sz unmap s = Some (tt, s') →
    chunk_step (Conf s (C1 ++ (c, sz) :: C2) B) (Conf s' (C1 ++ C2) B)
| step_base s C B sz r s' :
    0 < sz ≤ 2 ^ 62 →
    base_alloc os_mmap sz s = Some (r, s') →
    chunk_step (Conf s C B) (Conf s' C (opt_cons ((., CACHELINE_CEILING sz) <$> r) B))
| step_node_alloc s C B r s' :
    base_node_alloc os_mmap s = Some (r, s') →
    chunk_step (Conf s C B) (Conf s' C (opt_cons ((., 1) <$> r) B))
| step_node_dealloc s C B1 B2 p s' :
    base_node_dealloc p s = Some (tt, s') →
    chunk_step (Conf s C (B1 ++ (p, 1) :: B2)) (Conf s' C (B1 ++ B2)).

(** The free extents of [s'] are those of [s] and the range. *)
Definition frees s X s' X' (r : Z * Z) : Prop := ∀ a, free_at s' X' a ↔ free_at s X a ∨ inr r a.

(** What the process has mapped before the allocator starts. *)
Definition boot_state (m : list (Z * Z)) : state (T := T) :=
  chunk_boot (State ot_new ot_new ∅ 0 0 0 [] 0 0 0 m).

Definition boot_mappings (m : list (Z * Z)) : Prop := ∀ r, r ∈ m → 0 < r.1 ∧ r.1 + r.2 ≤ 2 ^ 47.

Inductive chunk_reach (m : list (Z * Z)) : config → Prop :=
| reach_boot : chunk_reach m (Conf (boot_state m) [] [])
| reach_step c c' : chunk_reach m c → chunk_step c c' → chunk_reach m c'.

(** ** The invariant of reachable states *)

Context (Hmmap : mmap_ok os_mmap).

Definition good s C B : Prop :=
  ∃ X, chunk_inv s X (C ++ B) ∧ coalesced s X ∧ Forall (λ r, chunk_range r.1 r.2) C.

Lemma in_ranges_perm L L' a : L ≡ₚ L' → in_ranges L a ↔ in_ranges L' a.
Proof. intros HP. unfold in_ranges. by setoid_rewrite HP. Qed.

Lemma inv_perm s X L L' : L ≡ₚ L' → chunk_inv s X L → chunk_inv s X L'.
Proof.
  intros HP [].
  assert (Hin : ∀ a, in_ranges L' a → in_ranges L a) by (intros a; apply in_ranges_perm; done).
  split; try done.
  - intros p Hp. destruct (inv_cells p Hp) as (? & ? & ? & ?). split_and!; auto.
  - intros a Ha. destruct (inv_free a Ha) as (? & ? & ?). split_and!; auto.
  - intros a Ha. destruct (inv_base_at a Ha) as (? & ?). split; auto.
  - intros r Hr. apply inv_live. by rewrite HP.
  - intros a Ha. auto.
  - symmetry in HP. apply Permutation_inj in HP as (_ & f & Hf & Hlk).
    intros i j r1 r2 a Hi Hj Ha1 Ha2. rewrite Hlk in Hi, Hj. apply Hf. by eapply inv_disjoint.
Qed.

#[export] Instance good_perm s : Proper (Permutation ==> Permutation ==> impl) (good s).
Proof.
  intros C C' HC B B' HB (X & Hi & Hco & Hr). exists X. split; [|split; [done|by rewrite <- HC]].
  eapply inv_perm; [|exact Hi]. by rewrite HC, HB.
Qed.

Lemma boot_good m : boot_mappings m → good (boot_state m) [] [].
Proof.
  intros Hm. exists ∅. split; [|split; [intros ? ? ?; set_solver|constructor]].
  split; try (intros; set_solver).
  - apply tree_new, extent_szad_comp_order.
  - apply tree_new, extent_ad_comp_order.
  - constructor.
  - simpl. lia.
  - intros a. unfold base_at. simpl. lia.
Qed.

Lemma covered_range s X L a : chunk_inv s X L → covered s a → 0 < a < 2 ^ 47.
Proof. intros Hi (r & Hr & Ha). destruct (inv_mapped _ _ _ Hi r Hr). unfold inr in Ha. lia. Qed.

Lemma good_alloc s C B sz al zero :
  good s C B → chunk_request sz al →
  ∃ r z s', chunk_alloc os_mmap sz al false zero s = Some ((r, z), s') ∧ good s' (opt_cons ((., sz) <$> r) C) B ∧
    ∀ p, r = Some p → p mod al = 0.
Proof.
  intros (X & Hi & Hco & Hcr) (Hal & Hsz & Hm).
  destruct (chunk_alloc_ok os_mmap Hmmap s X (C ++ B) sz al zero Hi Hco Hal Hsz Hm) as (r & z & s1 & X1 & E1 & Hco1 & Hr).
  exists r, z, s1. split; [done|]. destruct r as [p|].
  - destruct Hr as (Hpa & Hpr & Hi1 & _). split; [|by intros ? [= <-]]. exists X1. split; [done|]. split; [done|].
    by constructor.
  - split; [|done]. exists X1. by destruct Hr.
Qed.

Lemma good_dealloc s C B c sz unmap :
  good s ((c, sz) :: C) B → ∃ s', chunk_dealloc os_mmap c sz unmap s = Some (tt, s') ∧ good s' C B.
Proof.
  intros (X & Hi & Hco & [Hcr Hf]%Forall_cons). destruct unmap.
  - destruct (chunk_dealloc_ok os_mmap Hmmap s X (C ++ B) c sz) as (s1 & X1 & E1 & Hi1 & Hco1 & _); [done..|].
    exists s1. split; [done|]. by exists X1.
  - unfold chunk_dealloc. destruct Hcr as (? & Hcm & ? & Hsm & _). simpl in *.
    rewrite (chunk_base_addr c), (chunk_land_mask sz), !Z.eqb_refl by done.
    rewrite (proj2 (Z.eqb_neq c 0)), (proj2 (Z.eqb_neq sz 0)) by lia. eexists. split; [reflexivity|].
    exists X. split; [|done]. eapply remapped_inv; [exact Hmmap|apply (remapped_stats os_mmap Hmmap)|by eapply inv_drop].
Qed.

Lemma good_base s C B sz :
  good s C B → 0 < sz ≤ 2 ^ 62 →
  ∃ r s', base_alloc os_mmap sz s = Some (r, s') ∧ good s' C (opt_cons ((., CACHELINE_CEILING sz) <$> r) B).
Proof.
  intros (X & Hi & Hco & Hcr) Hsz. destruct (cacheline_ceiling_ok sz Hsz) as [Hc _].
  destruct (base_alloc_ok os_mmap Hmmap s X _ sz Hi Hsz) as (r & s1 & E1 & Hi1 & _ & _ & Hn & _ & _ & Hr).
  exists r, s1. split; [done|]. exists X. split; [|split; [unfold coalesced; by rewrite Hn|done]].
  destruct r as [p|]; [|done]. simpl. destruct Hr as (Hp & _ & Hr).
  eapply inv_perm; [apply Permutation_middle|]. apply inv_add_live; [done| |done].
  destruct (Hr (p + CACHELINE_CEILING sz - 1)) as (Hcov & _); [unfold inr; simpl; lia|].
  pose proof (covered_range _ _ _ _ Hi1 Hcov). split_and!; lia.
Qed.

Lemma good_node_alloc s C B :
  good s C B → ∃ r s', base_node_alloc os_mmap s = Some (r, s') ∧ good s' C (opt_cons ((., 1) <$> r) B).
Proof.
  intros (X & Hi & Hco & Hcr).
  destruct (base_node_alloc_ok os_mmap Hmmap s X _ Hi) as (r & s1 & E1 & Hi1 & _ & _ & Hn & Hr).
  exists r, s1. split; [done|]. exists X. split; [|split; [unfold coalesced; by rewrite Hn|done]].
  destruct r as [p|]; [|done]. simpl. destruct Hr as (Hp & Hpb & Hcov & ? & ? & ?).
  eapply inv_perm; [apply Permutation_middle|]. apply inv_add_live; [done| |].
  - pose proof (covered_range _ _ _ _ Hi1 Hcov). split_and!; lia.
  - intros a Ha. assert (a = p) as -> by (unfold inr in Ha; simpl in Ha; lia). split_and!; try done. by intros [?|?].
Qed.

Lemma good_node_dealloc s C B p :
  good s C ((p, 1) :: B) → ∃ s', base_node_dealloc p s = Some (tt, s') ∧ good s' C B.
Proof.
  intros (X & Hi & Hco & Hcr). apply (inv_perm _ _ _ ((p, 1) :: C ++ B)) in Hi;
    [|symmetry; apply Permutation_middle].
  assert (Hp : inr (p, 1) p) by (unfold inr; simpl; lia).
  destruct (live_head _ _ _ _ _ _ Hi Hp) as [Hin Hnot].
  destruct (base_node_dealloc_ok s X (C ++ B) p) as (s1 & E1 & Hi1 & _ & _ & Hn & _).
  - by eapply inv_drop.
  - split_and!; [..|by eapply inv_live_at| | |done].
    + intros Hx. by destruct (inv_cells _ _ _ Hi p (or_introl Hx)) as (_ & _ & _ & []).
    + intros Hx. by destruct (inv_cells _ _ _ Hi p (or_intror Hx)) as (_ & _ & _ & []).
    + intros Hf. by destruct (inv_free _ _ _ Hi p Hf) as (_ & _ & []).
    + intros Hf. by destruct (inv_base_at _ _ _ Hi p Hf) as (_ & []).
  - exists s1. split; [done|]. exists X. split; [done|]. split; [unfold coalesced; by rewrite Hn|done].
Qed.

Lemma step_good c c' : chunk_step c c' → good (c_state c) (c_chunks c) (c_base c) → good (c_state c') (c_chunks c') (c_base c').
Proof.
  destruct 1 as [s C B sz al zero r z s' Hr E|s C B sz al zero r z s' Hr E|s C1 C2 B c sz unmap s' E
    |s C B sz r s' Hsz E|s C B r s' E|s C B1 B2 p s' E]; intros Hg; simpl in *.
  - destruct (good_alloc s C B sz al zero Hg Hr) as (? & ? & ? & E1 & ? & _). congruence.
  - destruct (good_alloc s C B sz al zero Hg Hr) as (? & ? & ? & E1 & ? & _).
    change (nv_chunk_alloc os_mmap sz al false zero s) with (chunk_alloc os_mmap sz al false zero s) in E. congruence.
  - rewrite <- Permutation_middle in Hg. destruct (good_dealloc s _ B c sz unmap Hg) as (? & E1 & ?). congruence.
  - destruct (good_base s C B sz Hg Hsz) as (? & ? & E1 & ?). congruence.
  - destruct (good_node_alloc s C B Hg) as (? & ? & E1 & ?). congruence.
  - rewrite <- Permutation_middle in Hg. destruct (good_node_dealloc s C _ p Hg) as (? & E1 & ?). congruence.
Qed.

Lemma reach_good m c : boot_mappings m → chunk_reach m c → good (c_state c) (c_chunks c) (c_base c).
Proof. intros Hm. induction 1; [by apply boot_good|]. by eapply step_good. Qed.

Lemma good_disjoint s C B i j r1 r2 :
  good s C B → (C ++ B) !! i = Some r1 → (C ++ B) !! j = Some r2 → i ≠ j → ranges_apart r1 r2.
Proof.
  intros (X & Hi & _) Hr1 Hr2 Hne. unfold ranges_apart.
  pose proof (inv_live _ _ _ Hi r1 ltac:(by eapply list_elem_of_lookup_2)) as (_ & ? & _).
  pose proof (inv_live _ _ _ Hi r2 ltac:(by eapply list_elem_of_lookup_2)) as (_ & ? & _).
  destruct (Z_le_gt_dec (r1.1 + r1.2) r2.1); [by left|]. right.
  destruct (Z_le_gt_dec (r2.1 + r2.2) r1.1); [done|]. exfalso. apply Hne.
  eapply (inv_disjoint _ _ _ Hi i j r1 r2 (Z.max r1.1 r2.1)); [done..| |]; unfold inr; lia.
Qed.

(** From a good state every request is served. *)
Definition serves s C B : Prop :=
  (∀ sz al zero, chunk_request sz al → is_Some (chunk_alloc os_mmap sz al false zero s)) ∧
  (∀ c sz unmap, (c, sz) ∈ C → is_Some (chunk_dealloc os_mmap c sz unmap s)) ∧
  (∀ sz, 0 < sz ≤ 2 ^ 62 → is_Some (base_alloc os_mmap sz s)) ∧
  is_Some (base_node_alloc os_mmap s) ∧
  (∀ p, (p, 1) ∈ B → is_Some (base_node_dealloc p s)).

Lemma good_serves s C B : good s C B → serves s C B.
Proof.
  intros Hg. split_and!.
  - intros sz al zero Hr. destruct (good_alloc s C B sz al zero Hg Hr) as (? & ? & ? & -> & _). by eexists.
  - intros c sz unmap (C1 & C2 & ->)%list_elem_of_split. rewrite <- Permutation_middle in Hg.
    destruct (good_dealloc s _ B c sz unmap Hg) as (? & -> & _). by eexists.
  - intros sz Hsz. destruct (good_base s C B sz Hg Hsz) as (? & ? & -> & _). by eexists.
  - destruct (good_node_alloc s C B Hg) as (? & ? & -> & _). by eexists.
  - intros p _. by eexists.
Qed.

(** ** The promises of the interface *)

#[export] Instance chunk_layer : ChunkLayer (state (T := T)) := {
  cl_alloc sz al zero := chunk_alloc os_mmap sz al false zero;
  cl_dealloc := chunk_dealloc os_mmap;
  cl_node_alloc := base_node_alloc os_mmap;
  cl_node_dealloc := base_node_dealloc
}.

Definition nodes_of (N : list Z) : list (Z * Z) := (., 1) <$> N.

#[export] Instance chunk_layer_laws : ChunkLayerLaws (state (T := T)).
Proof.
  refine {| cl_inv s C N := ∃ B, good s C (nodes_of N ++ B) |}.
  - intros s C C' N N' HC HN [B Hg]. exists B. unfold nodes_of in *. by rewrite <- HC, <- HN.
  - intros s C N c sz [B (X & _ & _ & [? _]%Forall_cons)]. done.
  - intros s C N r [B Hg]. apply Forall_forall. intros r' [i Hi]%list_elem_of_lookup.
    apply (good_disjoint s _ _ 0 (Datatypes.S i) r r' Hg); [done| |done]. simpl. by apply lookup_app_l_Some.
  - intros s C N p [B Hg]. simpl in Hg. pose proof Hg as (X & Hi & _).
    assert (Hp : (C ++ (p, 1) :: nodes_of N ++ B) !! length C = Some (p, 1)) by by apply list_lookup_middle.
    pose proof (inv_live _ _ _ Hi (p, 1) ltac:(by eapply list_elem_of_lookup_2)) as (? & _). split; [done|].
    intros [i HiN]%list_elem_of_lookup.
    assert (Hq : (C ++ (p, 1) :: nodes_of N ++ B) !! (length C + Datatypes.S i)%nat = Some (p, 1)).
    { rewrite lookup_app_r by lia. replace (length C + Datatypes.S i - length C)%nat with (Datatypes.S i) by lia.
      simpl. apply lookup_app_l_Some. unfold nodes_of. by rewrite list_lookup_fmap, HiN. }
    assert (length C ≠ (length C + Datatypes.S i)%nat) as Hne by lia.
    destruct (good_disjoint _ _ _ _ _ _ _ Hg Hp Hq Hne); simpl in *; lia.
  - intros s C N sz al zero [B Hg] Hr. destruct (good_alloc s C _ sz al zero Hg Hr) as (r & z & s' & E & Hg' & Ha).
    exists r, z, s'. split; [exact E|]. destruct r as [p|]; [split; [by apply Ha|]|]; by exists B.
  - intros s C N c sz unmap [B Hg]. destruct (good_dealloc _ _ _ _ _ unmap Hg) as (s' & E & Hg').
    exists s'. split; [exact E|]. by exists B.
  - intros s C N [B Hg]. destruct (good_node_alloc _ _ _ Hg) as (r & s' & E & Hg').
    exists r, s'. split; [exact E|]. destruct r; by exists B.
  - intros s C N p [B Hg]. destruct (good_node_dealloc _ _ _ _ Hg) as (s' & E & Hg').
    exists s'. split; [exact E|]. by exists B.
Defined.

(** ** The variants for persistent chunks *)

Lemma nv_pages_map_eq sz s :
  nv_pages_map os_mmap sz s =
    (λ x, ((x.1, default (2 ^ 64 - 1) x.1), x.2)) <$> pages_map os_mmap sz s.
Proof. unfold nv_pages_map, pages_map. mrun. destruct (sz =? 0); [done|]. by destruct (os_mmap (mappings s) sz). Qed.

Lemma nv_chunk_alloc_mmap_slow_eq sz al zero s :
  nv_chunk_alloc_mmap_slow os_mmap sz al zero s = chunk_alloc_mmap_slow os_mmap sz al zero s.
Proof.
  unfold nv_chunk_alloc_mmap_slow, chunk_alloc_mmap_slow. cbv zeta. destruct (_ <? sz); [done|].
  mrun. rewrite nv_pages_map_eq. by destruct (pages_map _ _ s) as [[[p|] s']|].
Qed.

Lemma nv_chunk_alloc_mmap_eq sz al zero s :
  nv_chunk_alloc_mmap os_mmap sz al zero s =
    (λ x, ((x.1, default (2 ^ 64 - 1) (os_mmap (mappings s) sz)), x.2)) <$> chunk_alloc_mmap os_mmap sz al zero s.
Proof.
  unfold nv_chunk_alloc_mmap, chunk_alloc_mmap, pages_unmap. mrun.
  destruct (al =? 0), (Z.land al chunksize_mask =? 0); try done. rewrite nv_pages_map_eq. unfold pages_map. mrun.
  destruct (sz =? 0); [done|]. destruct (os_mmap (mappings s) sz) as [p|]; [|done]. simpl.
  destruct (Z.land p (al - 1) =? 0); simpl; [by destruct (p =? 0)|].
  rewrite nv_chunk_alloc_mmap_slow_eq. by destruct (chunk_alloc_mmap_slow _ _ _ _ _) as [[]|].
Qed.

(** Where a chunk is, when the first mapping was misaligned. *)
Lemma chunk_alloc_mmap_first s X L sz al zero r z s' p :
  chunk_inv s X L → chunk_request sz al → os_mmap (mappings s) sz = Some p →
  chunk_alloc_mmap os_mmap sz al zero s = Some ((Some r, z), s') →
  p mod al = 0 ∧ r = p ∨ p mod al ≠ 0 ∧ ∀ a, inr (r, sz) a → ¬ inr (p, sz) a.
Proof.
  intros Hi (Hal & Hsz & Hszc) Ep. destruct (alignment_facts al Hal) as (Ha & _ & _ & _ & Hland & Hoff & _).
  unfold chunk_alloc_mmap, pages_unmap. rewrite Hland, (proj2 (Z.eqb_neq al 0)) by lia.
  destruct (pages_map_ok os_mmap Hmmap s X L sz Hi ltac:(lia)) as (q & s1 & E & Hm & Hq).
  mrun. rewrite Z.eqb_refl, E. unfold pages_map in E. mrun_in E.
  rewrite (proj2 (Z.eqb_neq sz 0)), Ep in E by lia. injection E as <- <-.
  destruct Hq as (_ & _ & _ & Hcov). rewrite Hoff. destruct (Z.eqb_spec (p mod al) 0) as [Hpa|Hpa].
  { destruct (p =? 0); [done|]. intros [= <- _ _]. by left. }
  destruct (chunk_alloc_mmap_slow_ok os_mmap Hmmap (set_mappings ((p, sz) :: mappings s) s) X L sz al zero)
    as (r' & z' & s'' & E' & _ & Hr); [by eapply remapped_inv|done..|].
  rewrite E'. intros [= -> _ _]. right. split; [done|]. intros a Har Hap.
  destruct Hr as (_ & _ & Hr). destruct (Hr a Har) as [Hn _]. by apply Hn, Hcov.
Qed.
End system.

(** ** Claims *)

Section claims.
Context `{Config} {T : Type} `{OT : OrdTree T Z} `{!OrdTreeLaws T Z}.
Context (os_mmap : list (Z * Z) → Z → option Z) (Hmmap : mmap_ok os_mmap).

(** C22 Whatever sequence of chunk, base and node operations the chunk layer has
    served since it was booted, all memory handed out is pairwise disjoint and
    mapped, the chunks are whole and aligned, no free extent touches another or
    overlaps memory handed out, and every further request is served without a
    failed assertion or a corrupt tree. *)
Theorem chunk_safe m s C B :
  boot_mappings m → chunk_reach (T := T) os_mmap m (Conf s C B) →
  (∀ i j r1 r2, (C ++ B) !! i = Some r1 → (C ++ B) !! j = Some r2 → i ≠ j → ranges_apart r1 r2) ∧
  (∀ r, r ∈ C → chunk_range r.1 r.2) ∧
  (∀ r a, r ∈ C ++ B → inr r a → covered s a) ∧
  (∃ X, chunk_inv s X (C ++ B) ∧ coalesced s X) ∧
  serves os_mmap s C B.
Proof.
  intros Hm Hr. pose proof (reach_good os_mmap Hmmap m _ Hm Hr) as Hg. simpl in Hg.
  split; [intros; by eapply good_disjoint|]. pose proof (good_serves os_mmap Hmmap s C B Hg) as Hs.
  destruct Hg as (X & Hi & Hco & Hcr). rewrite Forall_forall in Hcr.
  split; [intros r Hr'; by apply Hcr|]. split; [|by split; [exists X|]].
  intros r a HrL Ha. eapply inv_live_at; [exact Hi|]. by exists r.
Qed.

(** C23 [chunk_alloc] in a state that satisfies the invariant: the chunk has the
    alignment asked for and overlaps no chunk handed out; it is either cut from
    the free extents, which then hold exactly the rest, or newly mapped.  When
    it fails, nothing was added to the free extents. *)
Theorem chunk_alloc_spec s X L sz al zero :
  chunk_inv (T := T) s X L → coalesced s X → chunk_request sz al →
  ∃ r z s' X', chunk_alloc os_mmap sz al false zero s = Some ((r, z), s') ∧ coalesced s' X' ∧
    match r with
    | None => chunk_inv s' X' L ∧ (∀ a, free_at s' X' a → free_at s X a)
    | Some p => p mod al = 0 ∧ chunk_range p sz ∧ chunk_inv s' X' ((p, sz) :: L) ∧
        ((∀ a, inr (p, sz) a → free_at s X a) ∧ (∀ a, free_at s' X' a ↔ free_at s X a ∧ ¬ inr (p, sz) a) ∨
         (∀ a, inr (p, sz) a → ¬ covered s a) ∧ (∀ a, free_at s' X' a → free_at s X a))
    end.
Proof. intros Hi Hco (? & ? & ?). by apply chunk_alloc_ok. Qed.

(** C24 [chunk_dealloc] of a chunk handed out adds exactly its addresses to the
    free extents, coalesced with both neighbours.  Only when the base allocator has no
    node for it and no free extent follows the chunk, the free extents stay as they were. *)
Theorem chunk_dealloc_spec s X L c sz :
  chunk_inv (T := T) s X ((c, sz) :: L) → chunk_range c sz → coalesced s X →
  ∃ s' X', chunk_dealloc os_mmap c sz true s = Some (tt, s') ∧ chunk_inv s' X' L ∧ coalesced s' X' ∧
    (frees s X s' X' (c, sz) ∨
     (∃ s1, base_node_alloc os_mmap (counted_out s sz) = Some (None, s1)) ∧ ¬ free_at s X (c + sz) ∧ (∀ a, free_at s' X' a ↔ free_at s X a)).
Proof.
  intros Hi Hcr Hco. destruct (chunk_dealloc_ok os_mmap Hmmap s X L c sz Hi Hcr Hco) as (s' & X' & ? & ? & ? & _ & ?).
  by exists s', X'.
Qed.

(** The variant for persistent chunks returns the same chunk as
    [chunk_alloc_mmap] and leaves the same state, but the start address it
    reports is that of its first mapping: when that one was misaligned, the
    chunk is somewhere else. *)
Theorem nv_chunk_alloc_mmap_straddr sz al zero (s : state (T := T)) X L :
  chunk_inv s X L → chunk_request sz al →
  (λ x, (x.1.1, x.2)) <$> nv_chunk_alloc_mmap os_mmap sz al zero s = chunk_alloc_mmap os_mmap sz al zero s ∧
  ∀ r z straddr s', nv_chunk_alloc_mmap os_mmap sz al zero s = Some ((Some r, z, straddr), s') →
    straddr mod al = 0 ∧ r = straddr ∨ straddr mod al ≠ 0 ∧ ∀ a, inr (r, sz) a → ¬ inr (straddr, sz) a.
Proof.
  intros Hi Hrq. rewrite nv_chunk_alloc_mmap_eq. split.
  { by destruct (chunk_alloc_mmap _ _ _ _ _) as [[[] ]|]. }
  intros r z straddr s'. destruct (chunk_alloc_mmap _ _ _ _ _) as [[r' s1]|] eqn:E; [|done].
  intros [= -> <- ->]. destruct (os_mmap (mappings s) sz) as [p|] eqn:Ep.
  - by eapply chunk_alloc_mmap_first.
  - exfalso. revert E. unfold chunk_alloc_mmap, pages_map. mrun.
    destruct (al =? 0), (Z.land al chunksize_mask =? 0), (sz =? 0); try done. by rewrite Ep.
Qed.
End claims.

(** ** A concrete system *)

(** An operating system that maps above everything mapped so far. *)
Definition past_mappings (m : list (Z * Z)) : Z := foldr (λ r x, Z.max (r.1 + r.2) x) (2 ^ 40) m.
Definition bump_mmap (m : list (Z * Z)) (sz : Z) : option Z :=
  let p := round_up (past_mappings m) PAGE in if p + sz <=? 2 ^ 47 then Some p else None.

Lemma past_mappings_ok m : 2 ^ 40 ≤ past_mappings m ∧ ∀ r, r ∈ m → r.1 + r.2 ≤ past_mappings m.
Proof.
  induction m as [|r m [IH1 IH2]]; simpl; [split; [lia|set_solver]|]. split; [lia|].
  intros r' [->|Hr]%elem_of_cons; [lia|]. pose proof (IH2 r' Hr). lia.
Qed.

Lemma bump_mmap_ok : mmap_ok bump_mmap.
Proof.
  split; unfold bump_mmap; intros m sz p.
  - intros Hsz. destruct (Z.leb_spec (round_up (past_mappings m) PAGE + sz) (2 ^ 47)); [|done]. intros [= <-].
    pose proof (past_mappings_ok m) as [? _]. pose proof (round_up_spec (past_mappings m) PAGE ltac:(done)). lia.
  - intros q z Hsz. destruct (Z.leb_spec (round_up (past_mappings m) PAGE + sz) (2 ^ 47)); [|done]. intros [= <-] Hq.
    pose proof (past_mappings_ok m) as [_ Hp]. pose proof (Hp _ Hq). simpl in *.
    pose proof (round_up_spec (past_mappings m) PAGE ltac:(done)). left. lia.
Qed.

Section witnesses.
#[local] Existing Instance default_config.

Abbreviation st := (state (T := rbt Z)).

(** The state an operation leaves. *)
Definition after {A} (m : M st A) (s : st) : st := default s (snd <$> m s).

(** Two chunks are allocated, then the first is given back. *)
Definition sample0 : st := boot_state [].
Definition sample1 : st := after (chunk_alloc bump_mmap (2 * chunksize) chunksize false false) sample0.
Definition sample2 : st := after (chunk_alloc bump_mmap chunksize chunksize false false) sample1.
Definition sample3 : st := after (chunk_dealloc bump_mmap (2 ^ 40) (2 * chunksize) true) sample2.

Lemma sample_request n : 0 < n < 2 ^ 40 → chunk_request (n * chunksize) chunksize.
Proof.
  intros Hn. assert (chunksize = 2 ^ 24) as Hc by done. split; [apply chunksize_alignment|]. rewrite Hc.
  split; [lia|]. apply Z_mod_mult.
Qed.

Lemma sample_reach2 :
  chunk_reach bump_mmap [] (Conf sample2 [(2 ^ 40 + 2 * chunksize, chunksize); (2 ^ 40, 2 * chunksize)] []).
Proof.
  apply (reach_step _ _ (Conf sample1 [(2 ^ 40, 2 * chunksize)] [])).
  - apply (reach_step _ _ (Conf sample0 [] [])); [constructor|].
    apply (step_alloc _ _ _ _ (2 * chunksize) chunksize false (Some (2 ^ 40)) true); [by apply sample_request|].
    vm_compute. reflexivity.
  - apply (step_alloc _ _ _ _ chunksize chunksize false (Some (2 ^ 40 + 2 * chunksize)) true); [by apply (sample_request 1)|].
    vm_compute. reflexivity.
Qed.

Lemma sample_reach3 : chunk_reach bump_mmap [] (Conf sample3 [(2 ^ 40 + 2 * chunksize, chunksize)] []).
Proof.
  apply (reach_step _ _ _ _ sample_reach2). apply (step_dealloc _ _ [_] [] [] (2 ^ 40) (2 * chunksize) true).
  vm_compute. reflexivity.
Qed.

Lemma no_mappings : boot_mappings [].
Proof. intros ? []%elem_of_nil. Qed.

#[local] Opaque sample0 sample1 sample2 sample3.

Lemma sample_good s C : chunk_reach bump_mmap [] (Conf s C []) →
  ∃ X, chunk_inv (T := rbt Z) s X C ∧ coalesced s X ∧ Forall (λ r, chunk_range r.1 r.2) C.
Proof.
  intros Hr. destruct (reach_good bump_mmap bump_mmap_ok [] _ no_mappings Hr) as (X & Hi & ? & ?).
  cbn [c_state c_chunks c_base] in *. rewrite app_nil_r in Hi. by exists X.
Qed.

Lemma chunk_safe_witness :
  (∃ X, chunk_inv sample3 X ([(2 ^ 40 + 2 * chunksize, chunksize)] ++ []) ∧ coalesced sample3 X) ∧
  serves bump_mmap sample3 [(2 ^ 40 + 2 * chunksize, chunksize)] [].
Proof.
  destruct (chunk_safe bump_mmap bump_mmap_ok [] sample3 [(2 ^ 40 + 2 * chunksize, chunksize)] [] no_mappings sample_reach3)
    as (_ & _ & _ & HX & Hs).
  split; [exact HX|exact Hs].
Defined.

Lemma chunk_alloc_spec_witness :
  ∃ X r z s' X', chunk_alloc bump_mmap chunksize chunksize false false sample3 = Some ((r, z), s') ∧
    chunk_inv sample3 X [(2 ^ 40 + 2 * chunksize, chunksize)] ∧ coalesced s' X'.
Proof.
  destruct (sample_good _ _ sample_reach3) as (X & Hi & Hco & _).
  assert (Hrq : chunk_request chunksize chunksize) by (by apply (sample_request 1)).
  destruct (chunk_alloc_spec bump_mmap bump_mmap_ok sample3 X _ chunksize chunksize false Hi Hco Hrq)
    as (r & z & s' & X' & E & Hco' & _).
  exists X, r, z, s', X'. split; [exact E|]. split; [exact Hi|exact Hco'].
Defined.

(** The chunk given back is used again. *)
Example sample_recycled :
  (λ x, x.1.1) <$> chunk_alloc bump_mmap chunksize chunksize false false sample3 = Some (Some (2 ^ 40)).
Proof. vm_compute. reflexivity. Qed.

Lemma chunk_dealloc_spec_witness :
  ∃ X s' X', chunk_inv sample2 X [(2 ^ 40 + 2 * chunksize, chunksize); (2 ^ 40, 2 * chunksize)] ∧
    chunk_dealloc bump_mmap (2 ^ 40 + 2 * chunksize) chunksize true sample2 = Some (tt, s') ∧ coalesced s' X'.
Proof.
  destruct (sample_good _ _ sample_reach2) as (X & Hi & Hco & Hcr).
  destruct (chunk_dealloc_spec bump_mmap bump_mmap_ok sample2 X _ _ _ Hi (Forall_inv Hcr) Hco) as (s' & X' & E & _ & Hco' & _).
  exists X, s', X'. split; [exact Hi|]. split; [exact E|exact Hco'].
Defined.

(** Some memory is mapped first, so that the next mapping is misaligned. *)
Definition sample_nv : st := boot_state [(2 ^ 40, 4096)].

Lemma nv_chunk_alloc_mmap_straddr_witness :
  ∃ r z straddr s', nv_chunk_alloc_mmap bump_mmap chunksize chunksize false sample_nv = Some ((Some r, z, straddr), s') ∧
    (straddr mod chunksize = 0 ∧ r = straddr ∨
     straddr mod chunksize ≠ 0 ∧ ∀ a, inr (r, chunksize) a → ¬ inr (straddr, chunksize) a) ∧ r ≠ straddr.
Proof.
  destruct (boot_good (T := rbt Z) bump_mmap bump_mmap_ok [(2 ^ 40, 4096)]) as (X & Hi & _).
  { intros r ->%list_elem_of_singleton. simpl. lia. }
  assert (Hrq : chunk_request chunksize chunksize) by (by apply (sample_request 1)).
  destruct (nv_chunk_alloc_mmap_straddr bump_mmap bump_mmap_ok chunksize chunksize false sample_nv X [] Hi
    Hrq) as [_ Hs].
  destruct (nv_chunk_alloc_mmap bump_mmap chunksize chunksize false sample_nv) as [[[[[r|] z] a] s']|] eqn:E;
    [|vm_compute in E; discriminate..].
  exists r, z, a, s'. split; [reflexivity|]. split; [apply (Hs r z a s' eq_refl)|].
  vm_compute in E. injection E as <- <- <- <-. discriminate.
Defined.
End witnesses.
