(* ===== verification/Huge.v ===== *)
(** * Huge objects (huge.c)

    An object larger than the largest run is a chunk allocation of its own,
    found again through a tree of extent nodes ordered by address.  The layer is
    written against [ChunkIface]; the contents of objects are the bytes of a
    memory of which only live objects matter. *)

From S2P Require Import Prelude OrdTree Rb SizeClass Chunk ChunkIface ChunkSpec ChunkSystem.

Section huge.
Context `{Config} {S : Type} `{CL : ChunkLayer S} {T : Type} `{OT : OrdTree T Z}.
(** The options [opt_junk] and [opt_zero]. *)
Context (opt_junk opt_zero : bool).

Record hstate := HState {
  chunks : S;
  huge : T;
  hnodes : node_heap;
  hprof : gmap Z Z;  (* the [prof_ctx] of nodes *)
  huge_nmalloc : Z;
  huge_ndalloc : Z;
  huge_allocated : Z;
  stats_cactive : Z;
  mem : Z → Z
}.

Abbreviation MH := (M hstate).

Definition on_chunks {A} (m : M S A) : MH A := λ h,
  match m (chunks h) with
  | Some (r, s) => Some (r, HState s (huge h) (hnodes h) (hprof h) (huge_nmalloc h) (huge_ndalloc h)
      (huge_allocated h) (stats_cactive h) (mem h))
  | None => None
  end.
Definition set_huge (t : T) (h : hstate) : hstate :=
  HState (chunks h) t (hnodes h) (hprof h) (huge_nmalloc h) (huge_ndalloc h) (huge_allocated h) (stats_cactive h) (mem h).
Definition set_hnodes (n : node_heap) (h : hstate) : hstate :=
  HState (chunks h) (huge h) n (hprof h) (huge_nmalloc h) (huge_ndalloc h) (huge_allocated h) (stats_cactive h) (mem h).
Definition set_hprof (p : gmap Z Z) (h : hstate) : hstate :=
  HState (chunks h) (huge h) (hnodes h) p (huge_nmalloc h) (huge_ndalloc h) (huge_allocated h) (stats_cactive h) (mem h).
Definition set_hstats (nm nd al ca : Z) (h : hstate) : hstate :=
  HState (chunks h) (huge h) (hnodes h) (hprof h) nm nd al ca (mem h).
Definition set_mem (m : Z → Z) (h : hstate) : hstate :=
  HState (chunks h) (huge h) (hnodes h) (hprof h) (huge_nmalloc h) (huge_ndalloc h) (huge_allocated h) (stats_cactive h) m.

Definition memset (a c n : Z) : MH unit := modify (λ h, set_mem (memset_bytes a c n (mem h)) h).
Definition memcpy (d a n : Z) : MH unit := modify (λ h, set_mem (memcpy_bytes d a n (mem h)) h).

Definition huge_insert (node : Z) : MH unit :=
  h ← gets id; t ← lift (ot_insert (extent_ad_comp (hnodes h)) node (huge h)); modify (set_huge t).
Definition huge_remove (node : Z) : MH unit :=
  h ← gets id; t ← lift (ot_remove (extent_ad_comp (hnodes h)) node (huge h)); modify (set_huge t).
(** [extent_tree_ad_search] and the assertion that it finds something. *)
Definition huge_search (ptr : Z) : MH Z :=
  h ← gets id; lift (ot_search (extent_ad_key (hnodes h) ptr) (huge h)).
Definition hnode_get (node : Z) : MH extent_node := h ← gets id; lift (hnodes h !! node).

Definition huge_palloc (sz alignment : Z) (zero : bool) : MH (option Z) :=
  let csize := CHUNK_CEILING sz in
  if csize =? 0 then mret None
  else
    node ← on_chunks cl_node_alloc;
    match node with
    | None => mret None
    | Some node =>
        '(ret, is_zeroed) ← on_chunks (cl_alloc csize alignment zero);
        match ret with
        | None => on_chunks (cl_node_dealloc node);; mret None
        | Some ret =>
            modify (λ h, set_hnodes (<[node := ExtentNode ret csize]> (hnodes h)) h);;
            huge_insert node;;
            modify (λ h, set_hstats (u64 (huge_nmalloc h + 1)) (huge_ndalloc h) (u64 (huge_allocated h + csize))
              (u64 (stats_cactive h + csize)) h);;
            (if negb zero then
               if opt_junk then memset ret 165 csize
               else if opt_zero && negb is_zeroed then memset ret 0 csize else mret tt
             else mret tt);;
            mret (Some ret)
        end
    end.

Definition huge_malloc (sz : Z) (zero : bool) : MH (option Z) := huge_palloc sz chunksize zero.

Definition huge_ralloc_no_move (ptr oldsize sz extra : Z) : MH (option Z) :=
  if (arena_maxclass <? oldsize) && (CHUNK_CEILING sz <=? CHUNK_CEILING oldsize)
     && (CHUNK_CEILING oldsize <=? CHUNK_CEILING (u64 (sz + extra)))
  then
    check (CHUNK_CEILING oldsize =? oldsize);;
    (if opt_junk && (sz <? oldsize) then memset (ptr + sz) 90 (oldsize - sz) else mret tt);;
    mret (Some ptr)
  else mret None.

(** [opt_junk] fills only with [config_dss], which is off. *)
Definition huge_dalloc (ptr : Z) (unmap : bool) : MH unit :=
  node ← huge_search ptr;
  e ← hnode_get node;
  check (addr e =? ptr);;
  huge_remove node;;
  modify (λ h, set_hstats (huge_nmalloc h) (u64 (huge_ndalloc h + 1)) (u64 (huge_allocated h - size e))
    (u64 (stats_cactive h - size e)) h);;
  on_chunks (cl_dealloc (addr e) (size e) unmap);;
  on_chunks (cl_node_dealloc node).

(** [idalloc], and [iqalloc] with the quarantine off: objects that do not begin
    a chunk belong to an arena. *)
Definition idalloc (arena_dalloc : Z → MH unit) (ptr : Z) : MH unit :=
  check (negb (ptr =? 0));;
  if negb (CHUNK_ADDR2BASE ptr =? ptr) then arena_dalloc ptr else huge_dalloc ptr true.

Definition huge_ralloc (arena_dalloc : Z → MH unit) (ptr oldsize sz extra alignment : Z) (zero : bool) : MH (option Z) :=
  let try size :=
    if chunksize <? alignment then huge_palloc size alignment zero else huge_malloc size zero in
  ret ← huge_ralloc_no_move ptr oldsize sz extra;
  match ret with
  | Some ret => mret (Some ret)
  | None =>
      ret ← try (u64 (sz + extra));
      ret ← match ret with
            | Some ret => mret (Some ret)
            | None => if extra =? 0 then mret None else try sz
            end;
      match ret with
      | None => mret None
      | Some ret =>
          let copysize := if sz <? oldsize then sz else oldsize in
          memcpy ret ptr copysize;;
          idalloc arena_dalloc ptr;;
          mret (Some ret)
      end
  end.

Definition huge_salloc (ptr : Z) : MH Z :=
  node ← huge_search ptr; e ← hnode_get node; mret (size e).

Definition huge_prof_ctx_get (ptr : Z) : MH Z :=
  node ← huge_search ptr; h ← gets id; lift (hprof h !! node).

Definition huge_prof_ctx_set (ptr ctx : Z) : MH unit :=
  node ← huge_search ptr; modify (λ h, set_hprof (<[node := ctx]> (hprof h)) h).

Definition huge_boot (s : S) (cactive : Z) (m : Z → Z) : hstate := HState s ot_new ∅ ∅ 0 0 0 cactive m.
End huge.
Arguments hstate S T : clear implicits.

(** ** What the layer promises: a finite map from addresses to sizes *)

(** Runs the stateful code of the goal up to the next call into the chunk
    layer or the tree. *)
Ltac hrun :=
  unfold on_chunks, memset, memcpy, huge_insert, huge_remove, hnode_get; mrun;
  cbn [chunks huge hnodes hprof huge_nmalloc huge_ndalloc huge_allocated stats_cactive mem
       set_huge set_hnodes set_hprof set_hstats set_mem].

Section spec.
Context `{Config} {S : Type} `{CL : ChunkLayer S} `{!ChunkLayerLaws S}.
Context {T : Type} `{OT : OrdTree T Z} `{!OrdTreeLaws T Z}.
Context (opt_junk opt_zero : bool).
Implicit Types (h : hstate S T) (A : gmap Z Z) (X : gset Z) (C : list (Z * Z)) (N : list Z) (p a z : Z).

Definition total A : Z := map_fold (λ _ z n, z + n) 0 A.

(** [X] is the set of nodes in the tree, [A] the objects; other clients of the
    chunk layer hold [C] and [N]. *)
Record huge_rel h X A C N : Prop := {
  hr_tree : tree_of (extent_ad_comp (hnodes h)) (huge h) X;
  hr_node p : p ∈ X → ∃ e, hnodes h !! p = Some e ∧ A !! addr e = Some (size e);
  hr_obj a z : A !! a = Some z → ∃ p, p ∈ X ∧ hnodes h !! p = Some (ExtentNode a z);
  hr_chunks : cl_inv (chunks h) (map_to_list A ++ C) (base.elements X ++ N);
  hr_allocated : huge_allocated h = u64 (total A);
  hr_count : u64 (huge_nmalloc h - huge_ndalloc h) = u64 (Z.of_nat (base.size A))
}.

(** [h] keeps exactly the objects [A]. *)
Definition huge_inv h A C N : Prop := ∃ X, huge_rel h X A C N.

Lemma huge_boot_ok s cactive m C N : cl_inv s C N → huge_inv (huge_boot s cactive m : hstate S T) ∅ C N.
Proof.
  intros Hc. exists ∅. split; simpl; [|set_solver|done|done|done|done].
  apply tree_new, extent_ad_comp_order.
Qed.

Lemma huge_search_ok h X A C N a z :
  huge_rel h X A C N → A !! a = Some z →
  ∃ p, huge_search a h = Some (p, h) ∧ p ∈ X ∧ hnodes h !! p = Some (ExtentNode a z).
Proof.
  intros Hr Ha. destruct (hr_obj _ _ _ _ _ Hr a z Ha) as (p & Hp & Ep). exists p. split; [|done].
  unfold huge_search. hrun. rewrite (tree_search _ _ _ X p (hr_tree _ _ _ _ _ Hr)); [done| |done|].
  - eapply key_cut_of_mono; [|exact (proj1 (proj2 (proj2 (hr_tree _ _ _ _ _ Hr))))].
    intros x y. rewrite extent_ad_comp_lt. unfold extent_ad_key.
    destruct (cmp3_spec a (addr_of (hnodes h) x)) as [[? ->]|[[? ->]|[? ->]]]; rewrite cmp3_lt; lia.
  - apply cmp3_eq. unfold addr_of. by rewrite Ep.
Qed.

(** Objects are apart from each other and from the chunks of other clients. *)
Lemma obj_range h X A C N a z : huge_rel h X A C N → A !! a = Some z → chunk_range a z.
Proof.
  intros Hr Ha. pose proof (hr_chunks _ _ _ _ _ Hr) as Hc. apply elem_of_map_to_list in Ha.
  apply list_elem_of_split in Ha as (l1 & l2 & E). rewrite E in Hc.
  eapply cl_range. eapply cl_perm; [|reflexivity|exact Hc].
  by rewrite <- app_assoc, <- app_comm_cons, <- Permutation_middle.
Qed.

Lemma huge_apart h X A C N a z r :
  huge_rel h X A C N → A !! a = Some z → r ∈ map_to_list (delete a A) ++ C → ranges_apart (a, z) r.
Proof.
  intros Hr Ha Hin. assert (Hc : cl_inv (chunks h) ((a, z) :: map_to_list (delete a A) ++ C) (base.elements X ++ N)).
  { eapply cl_perm; [|reflexivity|exact (hr_chunks _ _ _ _ _ Hr)].
    rewrite app_comm_cons. apply Permutation_app_tail. by rewrite map_to_list_delete. }
  apply cl_apart in Hc. rewrite Forall_forall in Hc. by apply Hc.
Qed.

Lemma chunk_ceiling_ok sz :
  is_u64 sz → CHUNK_CEILING sz ≠ 0 →
  sz ≤ CHUNK_CEILING sz ∧ 0 < CHUNK_CEILING sz < 2 ^ 64 ∧ CHUNK_CEILING sz mod chunksize = 0.
Proof.
  intros Hs Hne. destruct maxclass_facts as (_ & _ & _ & _ & Hc).
  destruct (chunk_ceiling_cases sz Hs) as [[Hle E]|[_ E]]; [|done]. rewrite E in *.
  assert (Hc0 : 0 < chunksize) by apply Hc.
  pose proof (round_up_spec sz chunksize Hc0) as [Hb Hm]. split; [lia|]. split; [|done].
  destruct Hs. lia.
Qed.

Lemma total_insert A p z : A !! p = None → total (<[p := z]> A) = z + total A.
Proof. intros Hp. unfold total. rewrite map_fold_insert_L; [done| |done]. intros. lia. Qed.

Lemma total_delete A p z : A !! p = Some z → total (delete p A) = total A - z.
Proof.
  intros Hp. rewrite <- (insert_delete_id A p z Hp) at 2. rewrite total_insert by apply lookup_delete_eq. lia.
Qed.

(** ** The operations *)

Lemma huge_palloc_ok h A C N sz al zero :
  huge_inv h A C N → is_u64 sz → chunk_alignment al →
  ∃ r h', huge_palloc opt_junk opt_zero sz al zero h = Some (r, h') ∧
    match r with
    | None => huge_inv h' A C N ∧ mem h' = mem h
    | Some p => A !! p = None ∧ p mod al = 0 ∧ sz ≤ CHUNK_CEILING sz ∧
        huge_inv h' (<[p := CHUNK_CEILING sz]> A) C N ∧
        (∀ a, ¬ inr (p, CHUNK_CEILING sz) a → mem h' a = mem h a) ∧
        (zero = false → opt_junk = true → ∀ a, inr (p, CHUNK_CEILING sz) a → mem h' a = 165)
    end.
Proof.
  intros [X Hr] Hsz Hal. unfold huge_palloc. set (csize := CHUNK_CEILING sz).
  destruct (Z.eqb_spec csize 0) as [Hc0|Hc0].
  { exists None, h. split; [done|]. split; [by exists X|done]. }
  destruct (chunk_ceiling_ok sz Hsz Hc0) as (Hle & Hrng & Hm). fold csize in Hle, Hrng, Hm.
  destruct (cl_node_alloc_ok _ _ _ (hr_chunks _ _ _ _ _ Hr)) as (n & s1 & E1 & Hc1). hrun. rewrite E1.
  destruct n as [n|].
  2: { eexists None, _. split; [reflexivity|]. split; [|done]. exists X. destruct Hr. by split. }
  destruct (cl_alloc_ok s1 _ _ csize al zero Hc1) as (p & z & s2 & E2 & Hc2); [done|]. cbn [chunks]. rewrite E2.
  destruct p as [p|].
  2: { destruct (cl_node_dealloc_ok _ _ _ _ Hc2) as (s3 & E3 & Hc3). cbn [chunks]. rewrite E3.
       eexists None, _. split; [reflexivity|]. split; [|done]. exists X. destruct Hr. by split. }
  destruct Hc2 as [Hpa Hc2]. cbn [chunks huge hnodes].
  assert (HnX : n ∉ X).
  { apply cl_node_new in Hc2 as [_ Hn]. intros Hx. apply Hn, elem_of_app. left. by apply elem_of_elements. }
  assert (Hp : A !! p = None).
  { apply cl_apart in Hc2 as Hap. rewrite Forall_forall in Hap. apply eq_None_not_Some. intros [z0 Hz].
    pose proof (obj_range _ _ _ _ _ _ _ Hr Hz) as (_ & _ & ? & _).
    destruct (Hap (p, z0)); [apply elem_of_app; left; by apply elem_of_map_to_list|simpl in *; lia..]. }
  set (hn := <[n := ExtentNode p csize]> (hnodes h)).
  destruct (ad_insert_ok hn n (huge h) X) as (t & Et & Ht).
  { apply ad_frame; [done|exact (hr_tree _ _ _ _ _ Hr)]. }
  { intros y Hy. unfold hn. rewrite addr_of_eq, addr_of_new by set_solver. simpl.
    destruct (hr_node _ _ _ _ _ Hr y Hy) as (e & Ee & HA). unfold addr_of. rewrite Ee. simpl. congruence. }
  rewrite Et. clear E1 E2 Et.
  set (h' := set_hstats _ _ _ _ _).
  assert (Hinv : huge_inv h' (<[p := csize]> A) C N).
  { exists (X ∪ {[n]}). split; simpl.
    - exact Ht.
    - intros q [Hq|Hq%elem_of_singleton]%elem_of_union.
      + destruct (hr_node _ _ _ _ _ Hr q Hq) as (e & Ee & HA). exists e. unfold hn.
        rewrite lookup_insert_ne by set_solver. split; [done|]. rewrite lookup_insert_ne; [done|]. congruence.
      + subst q. exists (ExtentNode p csize). unfold hn. by rewrite !lookup_insert_eq.
    - intros a z0. rewrite lookup_insert_Some. intros [[<- <-]|[Hne HA]].
      + exists n. unfold hn. rewrite lookup_insert_eq. set_solver.
      + destruct (hr_obj _ _ _ _ _ Hr a z0 HA) as (q & Hq & Eq). exists q. unfold hn.
        rewrite lookup_insert_ne by set_solver. set_solver.
    - eapply cl_perm; [| |exact Hc2].
      + by rewrite map_to_list_insert.
      + rewrite app_comm_cons. apply Permutation_app_tail.
        rewrite (union_comm_L X), elements_union_singleton; [done|set_solver].
    - rewrite (hr_allocated _ _ _ _ _ Hr), total_insert by done. unfold u64. rewrite Zplus_mod_idemp_l. f_equal. lia.
    - rewrite map_size_insert_None by done. pose proof (hr_count _ _ _ _ _ Hr) as Hn.
      unfold u64 in *. rewrite Zminus_mod_idemp_l. rewrite Nat2Z.inj_succ, <- Z.add_1_r, <- (Zplus_mod_idemp_l (Z.of_nat _)), <- Hn.
      rewrite Zplus_mod_idemp_l. f_equal. lia. }
  assert (Hset : ∀ m, huge_inv (set_mem m h') (<[p := csize]> A) C N).
  { intros m. destruct Hinv as [X' Hr']. exists X'. destruct Hr'. by split. }
  assert (Hbytes : ∀ c a, memset_bytes p c csize (mem h) a = if decide (inr (p, csize) a) then c else mem h a).
  { intros c a. unfold memset_bytes, inr. simpl. destruct (Z.leb_spec p a), (Z.ltb_spec a (p + csize)), (decide _); simpl; try lia; done. }
  destruct zero; simpl.
  - eexists (Some p), _. split; [reflexivity|]. split_and!; done.
  - destruct opt_junk; [|destruct (opt_zero && _)]; mrun; eexists (Some p), _; (split; [reflexivity|]).
    + split_and!; [done..|apply Hset| |]; simpl; [intros a Ha|intros _ _ a Ha]; rewrite Hbytes; by destruct (decide _).
    + split_and!; [done..|apply Hset| |done]. simpl. intros a Ha. rewrite Hbytes. by destruct (decide _).
    + by split_and!.
Qed.

Lemma huge_dalloc_ok h A C N p z unmap :
  huge_inv h A C N → A !! p = Some z →
  ∃ h', huge_dalloc p unmap h = Some (tt, h') ∧ huge_inv h' (delete p A) C N ∧ mem h' = mem h.
Proof.
  intros [X Hr] Hp. pose proof (obj_range _ _ _ _ _ _ _ Hr Hp) as Hcr.
  destruct (huge_search_ok _ _ _ _ _ _ _ Hr Hp) as (n & Es & Hn & En).
  unfold huge_dalloc. hrun. rewrite Es, En. cbn [addr size]. rewrite Z.eqb_refl.
  destruct (tree_remove _ n _ _ (hr_tree _ _ _ _ _ Hr) Hn) as (t & Et & Ht). rewrite Et.
  assert (Hc : cl_inv (chunks h) ((p, z) :: map_to_list (delete p A) ++ C) (n :: base.elements (X ∖ {[n]}) ++ N)).
  { eapply cl_perm; [| |exact (hr_chunks _ _ _ _ _ Hr)].
    - rewrite app_comm_cons. apply Permutation_app_tail. by rewrite map_to_list_delete.
    - rewrite app_comm_cons. apply Permutation_app_tail.
      rewrite <- elements_union_singleton by set_solver. by rewrite <- union_difference_singleton_L. }
  destruct (cl_dealloc_ok _ _ _ _ _ unmap Hc) as (s1 & E1 & Hc1). hrun. rewrite E1. cbn [chunks].
  destruct (cl_node_dealloc_ok _ _ _ _ Hc1) as (s2 & E2 & Hc2). rewrite E2.
  eexists. split; [reflexivity|]. split; [|done]. exists (X ∖ {[n]}). split; simpl.
  - exact Ht.
  - intros q Hq. destruct (hr_node _ _ _ _ _ Hr q) as (e & Ee & HA); [set_solver|]. exists e. split; [done|].
    rewrite lookup_delete_ne; [done|]. intros ->. apply elem_of_difference in Hq as [Hq Hqn].
    apply Hqn, elem_of_singleton. apply (tree_eq _ _ _ _ _ (hr_tree _ _ _ _ _ Hr) Hq Hn).
    apply cmp3_eq. unfold addr_of. by rewrite Ee, En.
  - intros a z0 [Hne HA]%lookup_delete_Some. destruct (hr_obj _ _ _ _ _ Hr a z0 HA) as (q & Hq & Eq).
    exists q. split; [|done]. apply elem_of_difference. split; [done|]. intros ->%elem_of_singleton. congruence.
  - exact Hc2.
  - rewrite (hr_allocated _ _ _ _ _ Hr), (total_delete _ _ _ Hp). unfold u64. by rewrite Zminus_mod_idemp_l.
  - rewrite map_size_delete_Some by by eexists. pose proof (hr_count _ _ _ _ _ Hr) as Hcnt.
    assert (0 < base.size A)%nat.
    { destruct (base.size A) eqn:E0; [|lia]. apply map_size_empty_inv in E0. by rewrite E0, lookup_empty in Hp. }
    unfold u64 in *. rewrite Zminus_mod_idemp_r. rewrite Nat2Z.inj_pred by done. unfold Z.pred.
    rewrite <- (Zplus_mod_idemp_l (Z.of_nat _)), <- Hcnt, Zplus_mod_idemp_l. f_equal. lia.
Qed.

Lemma huge_salloc_ok h A C N p z : huge_inv h A C N → A !! p = Some z → huge_salloc p h = Some (z, h).
Proof.
  intros [X Hr] Hp. destruct (huge_search_ok _ _ _ _ _ _ _ Hr Hp) as (n & Es & Hn & En).
  unfold huge_salloc. hrun. by rewrite Es, En.
Qed.

Lemma huge_prof_ctx_ok h A C N p z ctx :
  huge_inv h A C N → A !! p = Some z →
  ∃ h', huge_prof_ctx_set p ctx h = Some (tt, h') ∧ huge_inv h' A C N ∧ huge_prof_ctx_get p h' = Some (ctx, h') ∧
    ∀ q z', A !! q = Some z' → q ≠ p → huge_prof_ctx_get q h' = (λ x, (x.1, h')) <$> huge_prof_ctx_get q h.
Proof.
  intros [X Hr] Hp. destruct (huge_search_ok _ _ _ _ _ _ _ Hr Hp) as (n & Es & Hn & En).
  unfold huge_prof_ctx_set. hrun. rewrite Es. eexists. split; [reflexivity|].
  assert (Hr' : huge_rel (set_hprof (<[n := ctx]> (hprof h)) h) X A C N) by (destruct Hr; by split).
  split; [by exists X|]. unfold huge_prof_ctx_get. hrun. split.
  - destruct (huge_search_ok _ _ _ _ _ _ _ Hr' Hp) as (n' & Es' & Hn' & En'). hrun. rewrite Es'.
    cbn [hprof set_hprof]. assert (n' = n) as ->; [|by rewrite lookup_insert_eq].
    apply (tree_eq _ _ _ _ _ (hr_tree _ _ _ _ _ Hr) Hn' Hn). apply cmp3_eq. unfold addr_of. simpl in En'. by rewrite En', En.
  - intros q z' Hq Hne. destruct (huge_search_ok _ _ _ _ _ _ _ Hr Hq) as (m & Em & Hm & Enm).
    destruct (huge_search_ok _ _ _ _ _ _ _ Hr' Hq) as (m' & Em' & Hm' & Enm'). rewrite Em, Em'. cbn [hprof set_hprof].
    assert (m' = m) as ->.
    { apply (tree_eq _ _ _ _ _ (hr_tree _ _ _ _ _ Hr) Hm' Hm). apply cmp3_eq. unfold addr_of. simpl in Enm'. by rewrite Enm', Enm. }
    rewrite lookup_insert_ne by congruence. by destruct (hprof h !! m).
Qed.

(** The memory of every object but [q] is as before. *)
Definition others_kept h h' A q : Prop :=
  ∀ a z x, A !! a = Some z → a ≠ q → inr (a, z) x → mem h' x = mem h x.

Lemma huge_ralloc_no_move_ok h A C N p z sz extra :
  huge_inv h A C N → A !! p = Some z → is_u64 sz →
  ∃ r h', huge_ralloc_no_move opt_junk p z sz extra h = Some (r, h') ∧ huge_inv h' A C N ∧
    (r = None ∧ h' = h ∨ r = Some p ∧ CHUNK_CEILING sz ≤ z ≤ CHUNK_CEILING (u64 (sz + extra))) ∧ others_kept h h' A p ∧
    (∀ x, ¬ inr (p, z) x → mem h' x = mem h x) ∧ ∀ i, 0 ≤ i < Z.min sz z → mem h' (p + i) = mem h (p + i).
Proof.
  intros [X Hr] Hp Hsz. pose proof (obj_range _ _ _ _ _ _ _ Hr Hp) as (_ & _ & Hz & Hzm & _).
  assert (Hceil : CHUNK_CEILING z = z).
  { destruct maxclass_facts as (_ & _ & _ & _ & Hc).
    pose proof (obj_range _ _ _ _ _ _ _ Hr Hp) as (Hp0 & _ & _ & _ & Hend).
    assert (Hc63 : z + chunksize ≤ 2 ^ 64) by lia.
    destruct (chunk_ceiling_cases z) as [[_ ->]|[? _]]; [lia| |lia]. apply round_up_id; [apply Hc|done]. }
  unfold huge_ralloc_no_move. rewrite Hceil, Z.eqb_refl. destruct ((_ && _) && _) eqn:Eg.
  2: { exists None, h. split; [done|]. split; [by exists X|]. split; [by left|]. done. }
  apply andb_true_iff in Eg as [[_ Hle%Z.leb_le]%andb_true_iff Hge%Z.leb_le]. mrun.
  assert (Hsame : ∃ r h', Some (Some p, h) = Some (r, h') ∧ huge_inv h' A C N ∧
    (r = None ∧ h' = h ∨ r = Some p ∧ CHUNK_CEILING sz ≤ z ≤ CHUNK_CEILING (u64 (sz + extra))) ∧ others_kept h h' A p ∧
    (∀ x, ¬ inr (p, z) x → mem h' x = mem h x) ∧ ∀ i, 0 ≤ i < Z.min sz z → mem h' (p + i) = mem h (p + i)).
  { exists (Some p), h. split; [done|]. split; [by exists X|]. split; [by right|]. done. }
  destruct opt_junk; [|exact Hsame]. simpl. destruct (Z.ltb_spec sz z) as [Hlt|]; [|exact Hsame]. clear Hsame.
  hrun. eexists (Some p), _. split; [reflexivity|]. split; [exists X; destruct Hr; by split|]. split; [by right|].
  assert (Hout : ∀ x, x < p + sz ∨ p + z ≤ x → memset_bytes (p + sz) 90 (z - sz) (mem h) x = mem h x).
  { intros x Hx. unfold memset_bytes. destruct (Z.leb_spec (p + sz) x), (Z.ltb_spec x (p + sz + (z - sz))); simpl; try lia; done. }
  split.
  - intros a z' x Ha Hne Hx. apply Hout. destruct (huge_apart _ _ _ _ _ p z (a, z') Hr Hp) as [?|?].
    { apply elem_of_app. left. apply elem_of_map_to_list. by rewrite lookup_delete_ne. }
    all: unfold inr in *; destruct Hsz; simpl in *; lia.
  - split; [|intros i Hi; apply Hout; lia]. intros x Hx. apply Hout. unfold inr in Hx. simpl in Hx. destruct Hsz. lia.
Qed.

(** The allocation [huge_ralloc] tries: with a large alignment or as a plain
    huge object. *)
Lemma huge_try_ok h A C N sz al zero :
  huge_inv h A C N → is_u64 sz → (chunk_alignment al ∨ al ≤ chunksize) →
  ∃ r h', (if chunksize <? al then huge_palloc opt_junk opt_zero sz al zero
           else huge_malloc opt_junk opt_zero sz zero) h = Some (r, h') ∧
    match r with
    | None => huge_inv h' A C N ∧ mem h' = mem h
    | Some p => A !! p = None ∧ sz ≤ CHUNK_CEILING sz ∧ huge_inv h' (<[p := CHUNK_CEILING sz]> A) C N ∧
        (∀ a, ¬ inr (p, CHUNK_CEILING sz) a → mem h' a = mem h a)
    end.
Proof.
  intros Hi Hsz Hal. assert (Hal' : chunk_alignment (if chunksize <? al then al else chunksize)).
  { destruct (Z.ltb_spec chunksize al); [destruct Hal; [done|lia]|]. apply chunksize_alignment. }
  unfold huge_malloc. replace (if chunksize <? al then _ else _)
    with (huge_palloc (S := S) (T := T) opt_junk opt_zero sz (if chunksize <? al then al else chunksize) zero)
    by (by destruct (chunksize <? al)).
  destruct (huge_palloc_ok h A C N sz _ zero Hi Hsz Hal') as (r & h' & E & Hr). exists r, h'. split; [exact E|].
  destruct r as [p|]; [|done]. destruct Hr as (? & _ & ? & ? & ? & _). done.
Qed.

(** Moving an object into a new one: copy, then free. *)
Lemma huge_move_ok ad h A C N p z q cs n :
  huge_inv h (<[q := cs]> A) C N → A !! p = Some z → A !! q = None → 0 ≤ n ≤ cs →
  ∃ h', (memcpy q p n;; idalloc ad p) h = Some (tt, h') ∧ huge_inv h' (<[q := cs]> (delete p A)) C N ∧
    others_kept h h' A p ∧ (∀ i, 0 ≤ i < Z.min n z → mem h' (q + i) = mem h (p + i)).
Proof.
  intros [X Hr] Hp Hq Hn. assert (Hne : q ≠ p) by congruence.
  assert (Hp' : <[q := cs]> A !! p = Some z) by (by rewrite lookup_insert_ne).
  assert (Hq' : <[q := cs]> A !! q = Some cs) by (by rewrite lookup_insert_eq).
  pose proof (obj_range _ _ _ _ _ _ _ Hr Hp') as (Hp0 & Hpm & Hz & _).
  assert (Hapart : ∀ a z', A !! a = Some z' → ranges_apart (q, cs) (a, z')).
  { intros a z' Ha. apply (huge_apart _ _ _ _ _ _ _ _ Hr Hq'), elem_of_app. left. apply elem_of_map_to_list.
    rewrite delete_insert_id by done. done. }
  unfold memcpy, idalloc. mrun. rewrite (proj2 (Z.eqb_neq p 0)) by lia.
  rewrite (chunk_base_addr p), Z.eqb_refl by done. set (h1 := set_mem _ h).
  destruct (huge_dalloc_ok h1 (<[q := cs]> A) C N p z true) as (h' & E & Hi' & Hm).
  { exists X. destruct Hr. by split. }
  { done. }
  exists h'. split; [exact E|]. split; [by rewrite <- delete_insert_ne by done|].
  assert (Hmem : ∀ x, mem h' x = memcpy_bytes q p n (mem h) x) by (intros x; by rewrite Hm). split.
  - intros a z' x Ha _ Hx. rewrite Hmem. unfold memcpy_bytes. specialize (Hapart a z' Ha). unfold ranges_apart, inr in *.
    simpl in *. destruct (Z.leb_spec q x), (Z.ltb_spec x (q + n)); simpl; try done. lia.
  - intros i Hi. rewrite Hmem. unfold memcpy_bytes.
    rewrite (proj2 (Z.leb_le _ _)), (proj2 (Z.ltb_lt _ _)) by lia. simpl. f_equal. lia.
Qed.

Lemma others_kept_trans h1 h2 h3 A q :
  others_kept h1 h2 A q → others_kept h2 h3 A q → others_kept h1 h3 A q.
Proof. intros H1 H2 a z x Ha Hne Hx. rewrite (H2 a z x), (H1 a z x); done. Qed.

Definition realloced h h' A C N p z sz (r : option Z) : Prop :=
  match r with
  | None => huge_inv h' A C N ∧ ∀ a z' x, A !! a = Some z' → inr (a, z') x → mem h' x = mem h x
  | Some q => ∃ z', sz ≤ z' ∧ huge_inv h' (<[q := z']> (delete p A)) C N ∧
      others_kept h h' A p ∧ (∀ i, 0 ≤ i < Z.min sz z → mem h' (q + i) = mem h (p + i))
  end.

(** A successful allocation, then the move. *)
Lemma huge_alloc_move_ok ad h0 h A C N p z sz cs q :
  huge_inv h (<[q := cs]> A) C N → A !! p = Some z → A !! q = None → 0 ≤ sz ≤ cs →
  (∀ a, ¬ inr (q, cs) a → mem h a = mem h0 a) →
  ∃ h', (memcpy q p (if sz <? z then sz else z);; idalloc ad p;; mret (Some q)) h = Some (Some q, h') ∧
    realloced h0 h' A C N p z sz (Some q).
Proof.
  intros Hi Hp Hq Hsz Hm. pose proof Hi as [X Hr].
  assert (Hp' : <[q := cs]> A !! p = Some z) by (rewrite lookup_insert_ne; [done|congruence]).
  pose proof (obj_range _ _ _ _ _ _ _ Hr Hp') as (_ & _ & Hz & _).
  assert (Hold : ∀ a z' x, A !! a = Some z' → inr (a, z') x → mem h x = mem h0 x).
  { intros a z' x Ha Hx. apply Hm. intros Hx'.
    destruct (huge_apart _ _ _ _ _ q cs (a, z') Hr (lookup_insert_eq _ _ _)); unfold inr in *; simpl in *; [|lia..].
    apply elem_of_app. left. apply elem_of_map_to_list. by rewrite delete_insert_id. }
  destruct (huge_move_ok ad h A C N p z q cs (if sz <? z then sz else z) Hi Hp Hq) as (h' & E & Hi' & Ho & Hc).
  { destruct (Z.ltb_spec sz z); lia. }
  exists h'. split.
  { revert E. mrun. destruct (memcpy q p _ h) as [[u s1]|]; [|done]. intros E. by rewrite E. }
  exists cs. split; [lia|]. split; [done|]. split.
  - intros a z' x Ha Hne Hx. rewrite (Ho a z' x Ha Hne Hx). by eapply Hold.
  - intros i Hi2. rewrite Hc by (destruct (Z.ltb_spec sz z); lia). apply (Hold p z); [done|]. unfold inr. simpl. lia.
Qed.

Lemma huge_ralloc_ok ad h A C N p z sz extra al zero :
  huge_inv h A C N → A !! p = Some z → 0 ≤ sz → 0 ≤ extra → sz + extra < 2 ^ 64 →
  (chunk_alignment al ∨ al ≤ chunksize) →
  ∃ r h', huge_ralloc opt_junk opt_zero ad p z sz extra al zero h = Some (r, h') ∧ realloced h h' A C N p z sz r.
Proof.
  intros Hi Hp Hsz Hex Hno Hal. assert (Hu : is_u64 sz) by (split; lia).
  unfold huge_ralloc. cbv zeta. rewrite (u64_small (sz + extra)) by (split; lia).
  destruct (huge_ralloc_no_move_ok h A C N p z sz extra Hi Hp Hu) as (r & h1 & E & Hi1 & Hr & Ho & _ & Hk).
  mrun. rewrite E. destruct Hr as [[-> ->]|[-> Hle]].
  2: { exists (Some p), h1. split; [done|]. exists z. rewrite u64_small in Hle by (split; lia).
       split; [|split; [by rewrite insert_delete_id|done]].
       pose proof Hi as [X Hr]. pose proof (obj_range _ _ _ _ _ _ _ Hr Hp) as (_ & _ & Hz & _).
       destruct (decide (CHUNK_CEILING sz = 0)) as [E0|Hne]; [|destruct (chunk_ceiling_ok sz Hu Hne); lia].
       destruct (chunk_ceiling_cases sz Hu) as [[_ Hc]|[Hbig _]].
       - rewrite Hc in *. destruct maxclass_facts as (_ & _ & _ & _ & Hc0 & _).
         pose proof (round_up_spec sz chunksize Hc0). lia.
       - destruct (chunk_ceiling_cases (sz + extra)) as [[? _]|[_ E1]]; lia. }
  clear E Ho Hk Hi1.
  destruct (huge_try_ok h A C N (sz + extra) al zero Hi ltac:(split; lia) Hal) as (r & h1 & E1 & Hr1). rewrite E1.
  destruct r as [q|].
  { destruct Hr1 as (Hq & Hle & Hi1 & Hm1).
    destruct (huge_alloc_move_ok ad h h1 A C N p z sz _ q Hi1 Hp Hq ltac:(lia) Hm1) as (h' & E & HR). exists (Some q), h'.
    revert E. mrun. done. }
  destruct Hr1 as [Hi1 Hm1]. assert (Hsame : ∀ a, mem h1 a = mem h a) by (intros; by rewrite Hm1).
  destruct (extra =? 0).
  { exists None, h1. split; [done|]. split; [done|]. intros. by rewrite Hm1. }
  destruct (huge_try_ok h1 A C N sz al zero Hi1 Hu Hal) as (r & h2 & E2 & Hr2). rewrite E2.
  destruct r as [q|].
  - destruct Hr2 as (Hq & Hle & Hi2 & Hm2).
    destruct (huge_alloc_move_ok ad h h2 A C N p z sz _ q Hi2 Hp Hq ltac:(lia)) as (h' & E & HR).
    { intros a Ha. rewrite Hm2, Hm1; done. }
    exists (Some q), h'. revert E. mrun. done.
  - destruct Hr2 as [Hi2 Hm2]. exists None, h2. split; [done|]. split; [done|]. intros. by rewrite Hm2, Hm1.
Qed.
End spec.

(** ** Claims *)

Section claims.
Context `{Config} {S : Type} `{CL : ChunkLayer S} `{!ChunkLayerLaws S}.
Context {T : Type} `{OT : OrdTree T Z} `{!OrdTreeLaws T Z}.
Context (opt_junk opt_zero : bool).

(** C25 The layer of huge objects implements a finite map from addresses to
    sizes: it starts empty; an allocation adds a new, aligned object of at
    least the size asked for that overlaps no other, or fails and changes
    nothing; a deallocation of an object removes it; and [huge_salloc] looks up
    its size.  No operation gets stuck, and the memory of the other objects is
    not touched. *)
Theorem huge_refines_map (C : list (Z * Z)) (N : list Z) :
  (∀ s cactive m, cl_inv s C N → huge_inv (huge_boot s cactive m : hstate S T) ∅ C N) ∧
  (∀ (h : hstate S T) A sz al zero, huge_inv h A C N → is_u64 sz → chunk_alignment al →
     ∃ r h', huge_palloc opt_junk opt_zero sz al zero h = Some (r, h') ∧
       match r with
       | None => huge_inv h' A C N ∧ mem h' = mem h
       | Some p => A !! p = None ∧ p mod al = 0 ∧ sz ≤ CHUNK_CEILING sz ∧
           huge_inv h' (<[p := CHUNK_CEILING sz]> A) C N ∧
           (∀ a, ¬ inr (p, CHUNK_CEILING sz) a → mem h' a = mem h a) ∧
           (zero = false → opt_junk = true → ∀ a, inr (p, CHUNK_CEILING sz) a → mem h' a = 165)
       end) ∧
  (∀ (h : hstate S T) A p z, huge_inv h A C N → A !! p = Some z →
     chunk_range p z ∧ huge_salloc p h = Some (z, h) ∧
     (∀ q z', A !! q = Some z' → q ≠ p → ranges_apart (p, z) (q, z')) ∧
     ∀ unmap, ∃ h', huge_dalloc p unmap h = Some (tt, h') ∧ huge_inv h' (delete p A) C N ∧ mem h' = mem h).
Proof.
  split; [|split].
  - intros. by apply huge_boot_ok.
  - intros. by apply huge_palloc_ok.
  - intros h A p z Hi Hp. pose proof Hi as [X Hr]. split; [by eapply obj_range|].
    split; [by eapply huge_salloc_ok|]. split; [|intros; by eapply huge_dalloc_ok].
    intros q z' Hq Hne. eapply huge_apart; [done..|]. apply elem_of_app. left. apply elem_of_map_to_list.
    by rewrite lookup_delete_ne.
Qed.

(** C27 [huge_ralloc] of a huge object, for a request whose size does not
    overflow: the result is the object itself or a new one, large enough, in
    place of the old one, its contents up to the smaller of the two sizes are
    kept, and no other object is touched; if it fails, nothing is. *)
Theorem huge_ralloc_spec (C : list (Z * Z)) (N : list Z) ad (h : hstate S T) A p z sz extra al zero :
  huge_inv h A C N → A !! p = Some z → 0 ≤ sz → 0 ≤ extra → sz + extra < 2 ^ 64 →
  (chunk_alignment al ∨ al ≤ chunksize) →
  ∃ r h', huge_ralloc opt_junk opt_zero ad p z sz extra al zero h = Some (r, h') ∧
    match r with
    | None => huge_inv h' A C N ∧ ∀ a z' x, A !! a = Some z' → inr (a, z') x → mem h' x = mem h x
    | Some q => ∃ z', sz ≤ z' ∧ huge_inv h' (<[q := z']> (delete p A)) C N ∧ others_kept h h' A p ∧
        (∀ i, 0 ≤ i < Z.min sz z → mem h' (q + i) = mem h (p + i))
    end.
Proof. apply huge_ralloc_ok. Qed.

(** A profiling context stored for an object is read back, and those of the
    other objects are kept. *)
Theorem huge_prof_ctx_roundtrip (C : list (Z * Z)) (N : list Z) (h : hstate S T) A p z ctx :
  huge_inv h A C N → A !! p = Some z →
  ∃ h', huge_prof_ctx_set p ctx h = Some (tt, h') ∧ huge_inv h' A C N ∧ huge_prof_ctx_get p h' = Some (ctx, h') ∧
    ∀ q z', A !! q = Some z' → q ≠ p → huge_prof_ctx_get q h' = (λ x, (x.1, h')) <$> huge_prof_ctx_get q h.
Proof. apply huge_prof_ctx_ok. Qed.
End claims.

(** ** A concrete run over the real chunk layer *)

Section witnesses.
#[local] Existing Instance default_config.
Abbreviation cst := (state (T := rbt Z)).
#[local] Instance bump_layer : ChunkLayer cst := chunk_layer bump_mmap.
#[local] Instance bump_laws : ChunkLayerLaws cst := chunk_layer_laws bump_mmap bump_mmap_ok.

(** The base allocator's chunk comes first. *)
Definition obj1 : Z := 2 ^ 40 + 2 ^ 24.
Definition huge0 : hstate cst (rbt Z) := huge_boot (boot_state []) 0 (λ _, 0).
Definition huge1 : hstate cst (rbt Z) := default huge0 (snd <$> huge_malloc false false 20000000 false huge0).

Lemma huge0_inv : huge_inv huge0 ∅ [] [].
Proof. apply huge_boot_ok. exists []. apply (boot_good bump_mmap bump_mmap_ok [] no_mappings). Qed.

Lemma huge1_run : fst <$> huge_malloc false false 20000000 false huge0 = Some (Some obj1).
Proof. vm_compute. reflexivity. Qed.

Lemma huge1_size : CHUNK_CEILING 20000000 = 2 * chunksize.
Proof. vm_compute. reflexivity. Qed.

(** The state a successful allocation leaves. *)
Lemma malloc_run_inv (h : hstate cst (rbt Z)) sz p :
  huge_inv h ∅ [] [] → is_u64 sz → fst <$> huge_malloc false false sz false h = Some (Some p) →
  huge_inv (default h (snd <$> huge_malloc false false sz false h)) (<[p := CHUNK_CEILING sz]> ∅) [] [].
Proof.
  intros Hi Hsz. unfold huge_malloc.
  destruct (huge_palloc_ok false false h ∅ [] [] sz chunksize false Hi Hsz chunksize_alignment) as (r & h' & E & Hr).
  rewrite E. intros [= ->]. by destruct Hr as (_ & _ & _ & ? & _).
Qed.

Lemma huge1_inv : huge_inv huge1 (<[obj1 := 2 * chunksize]> ∅) [] [].
Proof. rewrite <- huge1_size. apply malloc_run_inv; [apply huge0_inv|by vm_compute|apply huge1_run]. Qed.

#[local] Opaque huge1.

Lemma huge_refines_map_witness :
  huge_salloc obj1 huge1 = Some (2 * chunksize, huge1) ∧
  ∃ h', huge_dalloc obj1 true huge1 = Some (tt, h') ∧ mem h' = mem huge1.
Proof.
  destruct (huge_refines_map (T := rbt Z) false false [] []) as (_ & _ & Hd).
  destruct (Hd huge1 _ obj1 (2 * chunksize) huge1_inv) as (_ & Hs & _ & Hf); [apply lookup_insert_eq|].
  split; [exact Hs|]. destruct (Hf true) as (h' & E & _ & Hm). exists h'. split; [exact E|exact Hm].
Defined.

Lemma huge_ralloc_spec_witness :
  ∃ r h', huge_ralloc false false (λ _, mret tt) obj1 (2 * chunksize) 50000000 0 16 false huge1 = Some (r, h').
Proof.
  destruct (huge_ralloc_spec false false [] [] (λ _, mret tt) huge1 _ obj1 (2 * chunksize) 50000000 0 16 false
    huge1_inv) as (r & h' & E & _).
  - apply lookup_insert_eq.
  - done.
  - done.
  - done.
  - right. vm_compute. discriminate.
  - exists r, h'. exact E.
Defined.

Lemma huge_prof_ctx_roundtrip_witness :
  ∃ h', huge_prof_ctx_set obj1 7 huge1 = Some (tt, h') ∧ huge_prof_ctx_get obj1 h' = Some (7, h').
Proof.
  destruct (huge_prof_ctx_roundtrip [] [] huge1 _ obj1 (2 * chunksize) 7 huge1_inv) as (h' & E1 & _ & E2 & _).
  - apply lookup_insert_eq.
  - exists h'. split; [exact E1|exact E2].
Defined.
End witnesses.
