(* ===== verification/ArenaSystem.v ===== *)
(** * Arenas of runs

    The operations on runs refine a finite map from addresses to numbers of
    pages.  The theorems hold for every chunk layer and every implementation of
    trees that keep their laws; the witnesses run them on the red-black trees
    and the chunk layer of this development. *)

From S2P Require Import Prelude OrdTree Rb Bitmap SizeClass BinInfo ArenaBits ChunkIface Chunk Arena ArenaMap ArenaTree ArenaInv ArenaRun ArenaDalloc ArenaPurge ArenaTrim ChunkSpec ChunkSystem.

Section system.
Context `{Config} `{Opts} {S : Type} `{CL : ChunkLayer S} {T : Type} `{OT : OrdTree T Z}.
Context `{!ChunkLayerLaws S} {FR : Frame} `{!OrdTreeLaws T Z}.
Context (old_word : Z → Z → Z) (os_purge : Z → Z → (Z → Z) → (Z → Z)).
Implicit Types (a : astate S T) (R : layout) (A : gmap Z (Z * kind)) (p c s n m : Z) (d : bool) (k : kind).

(** The runs that callers hold, by address. *)
Definition holds a R A C N : Prop :=
  arena_inv a R C N ∧ run_hdrs a R ∧
  ∀ p v, A !! p = Some v ↔ ∃ c s, p = raddr c s ∧ allocated R !! (c, s) = Some v.

Definition arena_ok a A C N : Prop := ∃ R, holds a R A C N.

Lemma holds_at a R A C N p v : holds a R A C N → A !! p = Some v → ∃ c s, p = raddr c s ∧ allocated R !! (c, s) = Some v ∧ R !! (c, s) = Some v.
Proof. intros (_ & _ & HA) (c & s & -> & E)%HA. exists c, s. split_and!; [done..|]. by apply allocated_lookup in E as [? _]. Qed.

(** What the callers hold is inside the arena's chunks and apart. *)
Lemma holds_apart a R A C N :
  holds a R A C N →
  (∀ p n k, A !! p = Some (n, k) → 0 < n ∧ 0 < p ∧ p mod PAGE = 0 ∧ Forall (ranges_apart (p, n * PAGE)) C) ∧
  (∀ p n k p' n' k', A !! p = Some (n, k) → A !! p' = Some (n', k') → p ≠ p' → ranges_apart (p, n * PAGE) (p', n' * PAGE)).
Proof.
  intros Hh. pose proof (aa_core _ _ _ _ _ _ _ _ (proj1 Hh)) as Hcore. split.
  - intros p n k E. destruct (holds_at _ _ _ _ _ _ _ Hh E) as (c & s & -> & _ & Hr).
    destruct (at_run _ _ _ _ _ _ _ Hcore Hr) as (_ & Hc & Hcm & Hc0 & Hs & Hn & Hsn & _).
    destruct page_facts as (Hb & _ & Hpn & _). pose proof chunksize_pages as Hcp.
    split_and!; [done|unfold raddr; change PAGE with 8192 in *; lia| |].
    + unfold raddr. rewrite Z.mod_add by done. apply Z.mod_divide; [done|]. apply Z.mod_divide in Hcm as [q ->]; [|pose proof chunksize_pos; lia].
      exists (q * chunk_npages). rewrite Hcp. lia.
    + destruct (aa_owns _ _ _ _ _ _ _ _ (proj1 Hh)) as (L & _ & HL & Hi & _). apply HL, list_elem_of_split in Hc as (l1 & l2 & ->).
      assert (Hi' : cl_inv (a_chunks a) ((c, chunksize) :: (((λ c, (c, chunksize)) <$> (l1 ++ l2)) ++ C)) N).
      { eapply cl_perm; [|reflexivity|exact Hi]. rewrite <- Permutation_middle. reflexivity. }
      pose proof (cl_apart _ _ _ _ Hi') as Ha. apply Forall_app in Ha as [_ Ha]. eapply Forall_impl; [exact Ha|].
      intros [q z] Hq. unfold ranges_apart, raddr in *. simpl in *. change PAGE with 8192 in *. lia.
  - intros p n k p' n' k' E E' Hne. destruct (holds_at _ _ _ _ _ _ _ Hh E) as (c & s & -> & _ & Hr).
    destruct (holds_at _ _ _ _ _ _ _ Hh E') as (c' & s' & -> & _ & Hr').
    eapply runs_apart; [apply Hcore|exact Hr|exact Hr'|]. congruence.
Qed.

(** The map of held runs follows the layout. *)
Lemma holds_insert a a' R R' A C N c s v :
  holds a R A C N → arena_inv a' R' C N → kept a a' → run_hdr a' c s v.1 v.2 →
  allocated R' = <[(c, s) := v]> (allocated R) → holds a' R' (<[raddr c s := v]> A) C N.
Proof.
  intros (Ha & Hh & HA) Ha' Hk Hs Hal.
  assert (Hr' : ∀ c1 s1 v1, allocated R' !! (c1, s1) = Some v1 → R' !! (c1, s1) = Some v1) by (intros c1 s1 v1 E; by apply allocated_lookup in E as [? _]).
  assert (Hv : allocated R' !! (c, s) = Some v) by (rewrite Hal; apply lookup_insert_eq).
  split_and!; [done| |].
  - intros c1 s1 n1 k1 E. destruct (is_free k1) eqn:Hf1; [by destruct k1|].
    assert (E' : allocated R' !! (c1, s1) = Some (n1, k1)) by by apply allocated_lookup. rewrite Hal in E'.
    apply lookup_insert_Some in E' as [[[= <- <-] ->]|[_ E']]; [exact Hs|]. eapply run_hdrs_kept; [exact Hk|exact Hh|]. by apply allocated_lookup in E' as [? _].
  - intros p v1. rewrite lookup_insert_Some. split.
    + intros [[<- <-]|[Hne (c1 & s1 & -> & E)%HA]]; [by exists c, s|]. exists c1, s1. split; [done|]. rewrite Hal, lookup_insert_ne; [done|]. congruence.
    + intros (c1 & s1 & -> & E). pose proof (Hr' _ _ _ E) as E1. rewrite Hal in E. apply lookup_insert_Some in E as [[[= <- <-] <-]|[Hne E]]; [by left|right].
      split; [|apply HA; eauto]. intros Eq. apply Hne. destruct (raddr_inj _ _ _ _ _ _ _ _ (ac_lay _ _ _ (aa_core _ _ _ _ _ _ _ _ Ha')) (Hr' _ _ _ Hv) E1 Eq) as [-> ->]. done.
Qed.

Lemma holds_delete a a' R R' A C N c s v :
  holds a R A C N → arena_inv a' R' C N → kept a a' → allocated R !! (c, s) = Some v →
  allocated R' = delete (c, s) (allocated R) → holds a' R' (delete (raddr c s) A) C N.
Proof.
  intros (Ha & Hh & HA) Ha' Hk Hv Hal. split_and!; [done| |].
  - intros c1 s1 n1 k1 E. destruct (is_free k1) eqn:Hf1; [by destruct k1|].
    assert (E' : allocated R' !! (c1, s1) = Some (n1, k1)) by by apply allocated_lookup. rewrite Hal in E'.
    apply lookup_delete_Some in E' as [_ E']. eapply run_hdrs_kept; [exact Hk|exact Hh|]. by apply allocated_lookup in E' as [? _].
  - intros p v1. rewrite lookup_delete_Some. split.
    + intros [Hne (c1 & s1 & -> & E)%HA]. exists c1, s1. split; [done|]. rewrite Hal, lookup_delete_ne; [done|]. congruence.
    + intros (c1 & s1 & -> & E). rewrite Hal in E. apply lookup_delete_Some in E as [Hne E]. split; [|apply HA; eauto].
      intros Eq. apply Hne. apply allocated_lookup in E as [E _]. apply allocated_lookup in Hv as [Hv _].
      destruct (raddr_inj _ _ _ _ _ _ _ _ (ac_lay _ _ _ (aa_core _ _ _ _ _ _ _ _ Ha)) Hv E Eq) as [-> ->]. done.
Qed.

Lemma holds_move a a' R R' A C N c s s' v v' :
  holds a R A C N → arena_inv a' R' C N → kept a a' → allocated R !! (c, s) = Some v → run_hdr a' c s' v'.1 v'.2 →
  allocated R' = <[(c, s') := v']> (delete (c, s) (allocated R)) → holds a' R' (<[raddr c s' := v']> (delete (raddr c s) A)) C N.
Proof.
  intros (Ha & Hh & HA) Ha' Hk Hv Hs Hal.
  assert (Hin : ∀ R0 c1 s1 v1, allocated R0 !! (c1, s1) = Some v1 → R0 !! (c1, s1) = Some v1) by (intros R0 c1 s1 v1 E; by apply allocated_lookup in E as [? _]).
  assert (Hv' : allocated R' !! (c, s') = Some v') by (rewrite Hal; apply lookup_insert_eq).
  split_and!; [done| |].
  - intros c1 s1 n1 k1 E. destruct (is_free k1) eqn:Hf1; [by destruct k1|].
    assert (E' : allocated R' !! (c1, s1) = Some (n1, k1)) by by apply allocated_lookup. rewrite Hal in E'.
    apply lookup_insert_Some in E' as [[[= <- <-] ->]|[_ [_ E']%lookup_delete_Some]]; [exact Hs|].
    eapply run_hdrs_kept; [exact Hk|exact Hh|]. by apply Hin.
  - intros p v1. rewrite lookup_insert_Some, lookup_delete_Some. split.
    + intros [[<- <-]|[Hne [Hne' (c1 & s1 & -> & E)%HA]]]; [by exists c, s'|]. exists c1, s1. split; [done|].
      rewrite Hal, lookup_insert_ne, lookup_delete_ne; congruence.
    + intros (c1 & s1 & -> & E). pose proof (Hin _ _ _ _ E) as E1. rewrite Hal in E.
      apply lookup_insert_Some in E as [[[= <- <-] <-]|[Hne [Hne' E]%lookup_delete_Some]]; [by left|right]. split_and!; [| |apply HA; eauto].
      * intros Eq. destruct (raddr_inj _ _ _ _ _ _ _ _ (ac_lay _ _ _ (aa_core _ _ _ _ _ _ _ _ Ha')) (Hin _ _ _ _ Hv') E1 Eq) as [-> ->]. done.
      * intros Eq. destruct (raddr_inj _ _ _ _ _ _ _ _ (ac_lay _ _ _ (aa_core _ _ _ _ _ _ _ _ Ha)) (Hin _ _ _ _ Hv) (Hin _ _ _ _ E) Eq) as [-> ->]. done.
Qed.

(** ** The operations *)

(** What [arena_run_alloc] returns for a request of [m] pages. *)
Definition run_alloc_result a R C N m large binind (r : option Z) a' : Prop :=
  kept a a' ∧
  match r with
  | None => arena_inv a' R C N ∧ a_mem a' = a_mem a ∧ no_fit a R m ∧ spare a = None ∧ chunk_refused a a'
  | Some p => ∃ R' c s d, p = raddr c s ∧ arena_inv a' R' C N ∧ allocated R !! (c, s) = None ∧
      allocated R' = <[(c, s) := (m, new_kind large binind d)]> (allocated R) ∧
      mem_but p (m * PAGE) (a_mem a) (a_mem a')
  end.

(** C16 Allocating a run of [m] pages: the call returns; the new run was not allocated, it
    is the only one that is new, and only its pages are written; when the call fails no
    free run is large enough, there is no spare chunk, the chunk layer was asked for a
    chunk and had none, and nothing changed. *)
Theorem arena_run_alloc_spec a R C N m large binind zero :
  arena_inv a R C N → 0 < m ≤ whole → split_args large binind zero →
  ∃ r a', arena_run_alloc old_word (m * PAGE) large binind zero a = Some (r, a') ∧ run_alloc_result a R C N m large binind r a'.
Proof.
  intros Ha Hm Hargs. apply wp_Some. eapply wp_run_alloc; [done..| |].
  - intros a' Hno Es Ha' Hk Hmem. by split.
  - intros a' R' c s d Ha' Hk Hmem Hn Hal. split; [done|]. exists R', c, s, d. by split_and!.
Qed.

(** The choice of a run by the search of the trees. *)
Definition chosen a R C N m large binind (r : option Z) a' : Prop :=
  match r with
  | None => a' = a ∧ no_fit a R m
  | Some p => ∃ c s n d, p = raddr c s ∧ best_fit a R m c s n d ∧
      arena_inv a' (carve R c s n m (new_kind large binind d) (Free d)) C N
  end.

(** C19 The search takes the smallest free run that is large enough, a dirty one when there
    is one, cuts the request from its start and leaves the rest free. *)
Theorem arena_run_best_fit a R C N m large binind zero :
  arena_inv a R C N → 0 < m → split_args large binind zero →
  ∃ r a', arena_run_alloc_helper (m * PAGE) large binind zero a = Some (r, a') ∧ chosen a R C N m large binind r a'.
Proof.
  intros Ha Hm Hargs. apply wp_Some. eapply wp_helper; [done..| |].
  - intros Hno. by split.
  - intros c s n d a' Hb [Hat _ _]. exists c, s, n, d. split_and!; [done|done|]. apply Hat. apply Hb.
Qed.

Hypothesis os_purge_range : ∀ p n f, mem_but p n f (os_purge p n f).

Definition run_dalloc_result a R C N c s a' : Prop := ∃ R', freed_to a R C N c s a' R'.

(** C17 Freeing a run: exactly that run leaves the map of allocated runs, after coalescing
    and after any purging, and the contents of the other runs stay. *)
Theorem arena_run_dalloc_spec a R C N c s n k dirty :
  arena_inv a R C N → run_hdrs a R → allocated R !! (c, s) = Some (n, k) →
  ∃ a', arena_run_dalloc old_word os_purge (raddr c s) dirty a = Some (tt, a') ∧ run_dalloc_result a R C N c s a'.
Proof using os_purge_range OrdTreeLaws0.
  intros Ha Hh Hr.
  assert (Hw : wp (arena_run_dalloc old_word os_purge (raddr c s) dirty) a (λ _ a', run_dalloc_result a R C N c s a')).
  { eapply (wp_run_dalloc old_word os_purge os_purge_range); [done..|]. intros a' R' Hf. by exists R'. }
  apply wp_Some in Hw as ([] & a' & E & Hf). exists a'. split; assumption.
Qed.

Definition purge_result a R C N a' : Prop := ∃ R', purged_to a R C N a' R'.

(** C18 Purging terminates: the loop takes a chunk off the list of dirty chunks at every
    turn, so the fuel of the model is enough.  The allocated runs and their contents stay. *)
Theorem arena_purge_terminates a R C N :
  arena_inv a R C N → run_hdrs a R →
  (∃ a', arena_purge_all old_word os_purge a = Some (tt, a') ∧ purge_result a R C N a') ∧
  (∃ a', arena_maybe_purge old_word os_purge a = Some (tt, a') ∧ purge_result a R C N a').
Proof using os_purge_range OrdTreeLaws0.
  intros Ha Hh.
  assert (H1 : wp (arena_purge_all old_word os_purge) a (λ _ a', purge_result a R C N a')).
  { eapply (wp_purge old_word os_purge os_purge_range); [exact Ha|exact Hh|discriminate|]. intros a' R' Hf. by exists R'. }
  assert (H2 : wp (arena_maybe_purge old_word os_purge) a (λ _ a', purge_result a R C N a')).
  { eapply (wp_maybe_purge old_word os_purge os_purge_range); [exact Ha|exact Hh|]. intros a' R' Hf. by exists R'. }
  apply wp_Some in H1 as ([] & a1 & E1 & Hf1). apply wp_Some in H2 as ([] & a2 & E2 & Hf2).
  split; [exists a1|exists a2]; split; assumption.
Qed.

Definition trim_result a R C N c s s' m d a' : Prop := ∃ R', trimmed_to a R C N c s s' m d a' R'.

(** Trimming a large run of [n] pages to [m]: its last [m] pages, or its first, stay
    allocated with their contents, the others become free, no other run changes. *)
Theorem arena_run_trim_spec a R C N c s n m d :
  arena_inv a R C N → run_hdrs a R → R !! (c, s) = Some (n, Large d) → 0 < m < n →
  (∃ a', arena_run_trim_head old_word os_purge c (raddr c s) (n * PAGE) (m * PAGE) a = Some (tt, a') ∧
     trim_result a R C N c s (s + (n - m)) m d a') ∧
  ∀ dirty, ∃ a', arena_run_trim_tail old_word os_purge c (raddr c s) (n * PAGE) (m * PAGE) dirty a = Some (tt, a') ∧
     trim_result a R C N c s s m d a'.
Proof using os_purge_range OrdTreeLaws0.
  intros Ha Hh Hr Hm.
  assert (H1 : wp (arena_run_trim_head old_word os_purge c (raddr c s) (n * PAGE) (m * PAGE)) a
    (λ _ a', trim_result a R C N c s (s + (n - m)) m d a')).
  { eapply (wp_trim_head old_word os_purge os_purge_range); [done..|]. intros a' R' Hf. by exists R'. }
  assert (H2 : ∀ dirty, wp (arena_run_trim_tail old_word os_purge c (raddr c s) (n * PAGE) (m * PAGE) dirty) a
    (λ _ a', trim_result a R C N c s s m d a')).
  { intros dirty. eapply (wp_trim_tail old_word os_purge os_purge_range); [done..|]. intros a' R' Hf. by exists R'. }
  split; [apply wp_Some in H1 as ([] & a1 & E1 & Hf1); exists a1; split; assumption|]. intros dirty. specialize (H2 dirty).
  apply wp_Some in H2 as ([] & a2 & E2 & Hf2). exists a2. split; assumption.
Qed.

(** ** Sequences of operations

    Callers allocate and free large runs, trim them and purge; [A] maps the
    addresses they hold to numbers of pages. *)

Inductive run_op :=
  | OpAlloc (m : Z) (zero : bool)
  | OpFree (p : Z) (dirty : bool)
  | OpTrimHead (p m : Z)
  | OpTrimTail (p m : Z) (dirty : bool)
  | OpPurge.

(** What a caller may ask for. *)
Definition may_run (A : gmap Z Z) (o : run_op) : Prop :=
  match o with
  | OpAlloc m _ => 0 < m ≤ whole
  | OpFree p _ => is_Some (A !! p)
  | OpTrimHead p m | OpTrimTail p m _ => ∃ n, A !! p = Some n ∧ 0 < m < n
  | OpPurge => True
  end.

Definition run_code (A : gmap Z Z) (o : run_op) : M (astate S T) (option Z) :=
  match o with
  | OpAlloc m zero => arena_run_alloc old_word (m * PAGE) true BININD_INVALID zero
  | OpFree p dirty => arena_run_dalloc old_word os_purge p dirty;; mret None
  | OpTrimHead p m =>
      let n := default 0 (A !! p) in
      arena_run_trim_head old_word os_purge (CHUNK_ADDR2BASE p) p (n * PAGE) (m * PAGE);; mret None
  | OpTrimTail p m dirty =>
      let n := default 0 (A !! p) in
      arena_run_trim_tail old_word os_purge (CHUNK_ADDR2BASE p) p (n * PAGE) (m * PAGE) dirty;; mret None
  | OpPurge => arena_purge_all old_word os_purge;; mret None
  end.

(** What the callers hold afterwards. *)
Definition run_held (A : gmap Z Z) (o : run_op) (r : option Z) : gmap Z Z :=
  match o, r with
  | OpAlloc m _, Some p => <[p := m]> A
  | OpFree p _, _ => delete p A
  | OpTrimHead p m, _ => <[p + (default 0 (A !! p) - m) * PAGE := m]> (delete p A)
  | OpTrimTail p m _, _ => <[p := m]> (delete p A)
  | _, _ => A
  end.

Inductive arena_reach C N : astate S T → gmap Z Z → Prop :=
  | reach_new (s0 : S) f ca : cl_inv s0 C N → framed C f → arena_reach C N (arena_new s0 f ca) ∅
  | reach_op a (A : gmap Z Z) o r a' :
      arena_reach C N a A → may_run A o → run_code A o a = Some (r, a') → arena_reach C N a' (run_held A o r).

(** All held runs are large. *)
Definition system_ok a (A : gmap Z Z) C N : Prop :=
  ∃ R B, holds a R B C N ∧ (∀ p n, A !! p = Some n ↔ ∃ d, B !! p = Some (n, Large d)) ∧ ∀ p n k, B !! p = Some (n, k) → ∃ d, k = Large d.

Lemma system_new (s0 : S) f ca C N : cl_inv s0 C N → framed C f → system_ok (arena_new s0 f ca) ∅ C N.
Proof.
  intros Hs Hf. exists ∅, ∅. split_and!.
  - split_and!; [by apply arena_new_ok|intros c s n k E; by rewrite lookup_empty in E|]. intros p v. rewrite lookup_empty. split; [done|].
    intros (c & s & _ & [E _]%allocated_lookup). by rewrite lookup_empty in E.
  - intros p n. rewrite lookup_empty. split; [done|]. intros [d E]. by rewrite lookup_empty in E.
  - intros p n k E. by rewrite lookup_empty in E.
Qed.

Lemma system_insert (A : gmap Z Z) (B : gmap Z (Z * kind)) p n d :
  (∀ q m, A !! q = Some m ↔ ∃ d, B !! q = Some (m, Large d)) →
  ∀ q m, <[p := n]> A !! q = Some m ↔ ∃ d', <[p := (n, Large d)]> B !! q = Some (m, Large d').
Proof.
  intros HA q m. destruct (decide (q = p)) as [->|Hne].
  - rewrite !lookup_insert_eq. naive_solver.
  - rewrite !lookup_insert_ne by done. apply HA.
Qed.

Lemma system_delete (A : gmap Z Z) (B : gmap Z (Z * kind)) p :
  (∀ q m, A !! q = Some m ↔ ∃ d, B !! q = Some (m, Large d)) →
  ∀ q m, delete p A !! q = Some m ↔ ∃ d', delete p B !! q = Some (m, Large d').
Proof.
  intros HA q m. destruct (decide (q = p)) as [->|Hne].
  - rewrite !lookup_delete_eq. naive_solver.
  - rewrite !lookup_delete_ne by done. apply HA.
Qed.

Lemma system_at a R B C N (A : gmap Z Z) p n :
  holds a R B C N → (∀ p n, A !! p = Some n ↔ ∃ d, B !! p = Some (n, Large d)) → A !! p = Some n →
  ∃ c s d, p = raddr c s ∧ CHUNK_ADDR2BASE p = c ∧ allocated R !! (c, s) = Some (n, Large d) ∧ R !! (c, s) = Some (n, Large d).
Proof.
  intros Hh HA [d E]%HA. destruct (holds_at _ _ _ _ _ _ _ Hh E) as (c & s & -> & Eal & Er). exists c, s, d. split_and!; try done.
  destruct (at_run _ _ _ _ _ _ _ (aa_core _ _ _ _ _ _ _ _ (proj1 Hh)) Er) as (_ & _ & ? & _ & ? & ? & ? & _).
  apply raddr_base; [done|split; lia].
Qed.

Lemma large_insert (B : gmap Z (Z * kind)) p n d :
  (∀ q m k, B !! q = Some (m, k) → ∃ d, k = Large d) → ∀ q m k, <[p := (n, Large d)]> B !! q = Some (m, k) → ∃ d, k = Large d.
Proof. intros HB q m k. rewrite lookup_insert_Some. intros [[_ [= _ <-]]|[_ E]]; eauto. Qed.

Lemma large_delete (B : gmap Z (Z * kind)) p :
  (∀ q m k, B !! q = Some (m, k) → ∃ d, k = Large d) → ∀ q m k, delete p B !! q = Some (m, k) → ∃ d, k = Large d.
Proof. intros HB q m k. rewrite lookup_delete_Some. intros [_ E]; eauto. Qed.

(** Every operation a caller may ask for returns, and keeps the invariant. *)
Lemma wp_run_code a (A : gmap Z Z) C N o :
  system_ok a A C N → may_run A o → wp (run_code A o) a (λ r a', system_ok a' (run_held A o r) C N).
Proof using os_purge_range OrdTreeLaws0.
  intros (R & B & Hh & HA & HB) Ho. pose proof Hh as (Ha & Hhd & _). destruct o as [m zero|p dirty|p m|p m dirty|]; cbn [run_code may_run] in *.
  - eapply wp_run_alloc; [exact Ha|exact Ho|done| |].
    + intros a' _ _ Ha' Hk _. exists R, B. split_and!; [|done..]. destruct Hh as (_ & _ & HBR). split_and!; [done|by eapply run_hdrs_kept|done].
    + intros a' R' c s d Ha' Hk _ Hn Hal. exists R', (<[raddr c s := (m, Large d)]> B).
      split_and!; [by eapply holds_insert; [exact Hh|..]|by apply system_insert|by apply large_insert].
  - destruct Ho as [n Ep]. destruct (system_at _ _ _ _ _ _ _ _ Hh HA Ep) as (c & s & d & -> & _ & Hal & Hr). apply wp_bind.
    eapply (wp_run_dalloc old_word os_purge os_purge_range); [exact Ha|exact Hhd|exact Hal|].
    intros a' R' [Ha' Hal' Hk _]. apply wp_ret. exists R', (delete (raddr c s) B).
    split_and!; [by eapply holds_delete|by apply system_delete|by apply large_delete].
  - destruct Ho as (n & Ep & Hm). destruct (system_at _ _ _ _ _ _ _ _ Hh HA Ep) as (c & s & d & -> & -> & Hal & Hr). cbv zeta. apply wp_bind.
    rewrite Ep. change (default 0 (Some n)) with n. eapply (wp_trim_head old_word os_purge os_purge_range); [exact Ha|exact Hhd|exact Hr|exact Hm|].
    intros a' R' [Ha' Hal' Hk _ _]. apply wp_ret. cbn [run_held]. rewrite Ep. change (default 0 (Some n)) with n.
    replace (raddr c s + (n - m) * PAGE) with (raddr c (s + (n - m))) by (unfold raddr; lia).
    exists R', (<[raddr c (s + (n - m)) := (m, Large d)]> (delete (raddr c s) B)).
    split_and!; [by eapply holds_move; [exact Hh|..]|by apply system_insert, system_delete|by apply large_insert, large_delete].
  - destruct Ho as (n & Ep & Hm). destruct (system_at _ _ _ _ _ _ _ _ Hh HA Ep) as (c & s & d & -> & -> & Hal & Hr). cbv zeta. apply wp_bind.
    rewrite Ep. change (default 0 (Some n)) with n. eapply (wp_trim_tail old_word os_purge os_purge_range); [exact Ha|exact Hhd|exact Hr|exact Hm|].
    intros a' R' [Ha' Hal' Hk _ _]. apply wp_ret. cbn [run_held].
    exists R', (<[raddr c s := (m, Large d)]> (delete (raddr c s) B)).
    split_and!; [by eapply holds_move; [exact Hh|..]|by apply system_insert, system_delete|by apply large_insert, large_delete].
  - apply wp_bind. eapply (wp_purge old_word os_purge os_purge_range); [exact Ha|exact Hhd|discriminate|].
    intros a' R' [Ha' Hal Hk _]. apply wp_ret. exists R', B. split_and!; [|done..]. destruct Hh as (_ & _ & HBR).
    split_and!; [done|eapply run_hdrs_allocated; [exact Hal|by eapply run_hdrs_kept]|]. by rewrite Hal.
Qed.

Lemma reach_ok C N a (A : gmap Z Z) : arena_reach C N a A → system_ok a A C N.
Proof using os_purge_range OrdTreeLaws0.
  induction 1 as [s0 f ca Hs Hf|a A o r a' _ IH Ho E]; [by apply system_new|].
  pose proof (wp_run_code a A C N o IH Ho) as Hw. unfold wp in Hw. by rewrite E in Hw.
Qed.

(** C15 In every state that a sequence of operations reaches, the runs that callers hold
    are page-aligned, share no byte with each other nor with the chunks of others; the memory
    of the others was never written; and every operation that a caller may ask for returns. *)
Theorem arena_safe C N a (A : gmap Z Z) :
  arena_reach C N a A →
  (∀ p n, A !! p = Some n → 0 < n ∧ 0 < p ∧ p mod PAGE = 0 ∧ Forall (ranges_apart (p, n * PAGE)) C) ∧
  (∀ p n p' n', A !! p = Some n → A !! p' = Some n' → p ≠ p' → ranges_apart (p, n * PAGE) (p', n' * PAGE)) ∧
  framed C (a_mem a) ∧
  (∀ o, may_run A o → ∃ r a', run_code A o a = Some (r, a')).
Proof using os_purge_range OrdTreeLaws0.
  intros Hr%reach_ok. pose proof Hr as (R & B & Hh & HA & _). destruct (holds_apart _ _ _ _ _ Hh) as [H1 H2]. split_and!.
  - intros p n [d E]%HA. by eapply H1.
  - intros p n p' n' [d E]%HA [d' E']%HA. by eapply H2.
  - eapply owns_framed, Hh.
  - intros o Ho. pose proof (wp_run_code a A C N o Hr Ho) as Hw. apply wp_Some in Hw as (r & a' & E & _). eauto.
Qed.
End system.

(** ** A concrete run over the real chunk layer *)

Section witnesses.
#[local] Existing Instance default_config.
Abbreviation cst := (state (T := rbt Z)).
#[local] Instance arena_layer : ChunkLayer cst := chunk_layer bump_mmap.
#[local] Instance arena_laws : ChunkLayerLaws cst := chunk_layer_laws bump_mmap bump_mmap_ok.
#[local] Instance sample_frame : Frame := λ _, 0.
#[local] Instance sample_opts : Opts := {|
  opt_lg_dirty_mult := 5; opt_junk := false; opt_zero := false; opt_abort := false; bin_infos := default [] bin_info_init
|}.
Abbreviation ast := (astate cst (rbt Z)).

(** Fresh chunks hold zeros; purged pages read as zeros. *)
Definition no_word (c i : Z) : Z := 0.
Definition zero_purge (p n : Z) (f : Z → Z) : Z → Z := memset_bytes p 0 n f.

Lemma zero_purge_range p n f : mem_but p n f (zero_purge p n f).
Proof. by apply mem_but_memset; [..|lia]. Qed.

Definition after {A} (m : M ast A) (a : ast) : ast := default a (snd <$> m a).
Definition large_run (m : Z) : M ast (option Z) := arena_run_alloc no_word (m * PAGE) true BININD_INVALID false.
Definition arena0 : ast := arena_new (boot_state []) (λ _, 0) 0.
Definition arena1 : ast := after (large_run 5) arena0.

Lemma layer0 : cl_inv (boot_state [] : cst) [] [].
Proof. exists []. apply (boot_good bump_mmap bump_mmap_ok [] no_mappings). Qed.

Lemma arena0_inv : arena_inv arena0 ∅ [] [].
Proof. apply arena_new_ok; [apply layer0|constructor]. Qed.

Lemma arena1_run : fst <$> large_run 5 arena0 = Some (Some (2 ^ 40 + map_bias * PAGE)).
Proof. vm_compute. reflexivity. Qed.

Lemma whole_5 : 0 < 5 ≤ whole.
Proof. vm_compute. split; congruence. Qed.

Lemma arena1_inv :
  ∃ R c s d, arena_inv arena1 R [] [] ∧ run_hdrs arena1 R ∧ R !! (c, s) = Some (5, Large d) ∧ allocated R !! (c, s) = Some (5, Large d).
Proof.
  assert (Hw : wp (large_run 5) arena0 (λ r a, is_Some r → ∃ R c s d, arena_inv a R [] [] ∧ run_hdrs a R ∧
    R !! (c, s) = Some (5, Large d) ∧ allocated R !! (c, s) = Some (5, Large d))).
  { eapply (wp_run_alloc no_word arena0 ∅ [] [] 5 true BININD_INVALID false); [apply arena0_inv|apply whole_5|done| |].
    - intros a _ _ _ _ _ [? ?]. done.
    - intros a R c s d Ha _ _ _ Hal _. assert (E : allocated R !! (c, s) = Some (5, Large d)) by (rewrite Hal; apply lookup_insert_eq).
      exists R, c, s, d. split_and!; [done| |by apply allocated_lookup in E as [? _]|done]. intros c1 s1 n1 k1 E1.
      destruct (is_free k1) eqn:Hf; [by destruct k1|]. assert (E2 : allocated R !! (c1, s1) = Some (n1, k1)) by by apply allocated_lookup.
      rewrite Hal in E2. apply lookup_insert_Some in E2 as [[_ [= _ <-]]|[_ E2]]; [done|].
      apply allocated_lookup in E2 as [E2 _]. by rewrite lookup_empty in E2. }
  pose proof arena1_run as E. destruct (proj1 (wp_Some _ _ _) Hw) as (r & a & Er & Hr). rewrite Er in E. injection E as ->.
  unfold arena1, after. rewrite Er. apply Hr. by eexists.
Qed.

#[local] Opaque arena1 arena0.

Lemma arena_run_alloc_spec_witness :
  ∃ r a', arena_run_alloc no_word (5 * PAGE) true BININD_INVALID true arena0 = Some (r, a') ∧ kept arena0 a'.
Proof.
  destruct (arena_run_alloc_spec no_word arena0 ∅ [] [] 5 true BININD_INVALID true arena0_inv whole_5 eq_refl) as (r & a' & E & Hk & _).
  exists r, a'. split; [exact E|exact Hk].
Defined.

Lemma arena_run_best_fit_witness :
  ∃ r a', arena_run_alloc_helper (5 * PAGE) true BININD_INVALID false arena0 = Some (r, a').
Proof.
  destruct (arena_run_best_fit arena0 ∅ [] [] 5 true BININD_INVALID false arena0_inv (proj1 whole_5) eq_refl) as (r & a' & E & _).
  exists r, a'. exact E.
Defined.

Lemma arena_run_dalloc_spec_witness :
  ∃ c s a', arena_run_dalloc no_word zero_purge (raddr c s) true arena1 = Some (tt, a') ∧ kept arena1 a'.
Proof.
  destruct arena1_inv as (R & c & s & d & Ha & Hh & _ & Hr). exists c, s.
  destruct (arena_run_dalloc_spec no_word zero_purge zero_purge_range arena1 R [] [] c s 5 (Large d) true Ha Hh Hr) as (a' & E & R' & Hf).
  exists a'. split; [exact E|]. destruct Hf as [_ _ Hk _]. exact Hk.
Defined.

Lemma arena_purge_terminates_witness :
  ∃ a', arena_purge_all no_word zero_purge arena1 = Some (tt, a') ∧ kept arena1 a'.
Proof.
  destruct arena1_inv as (R & c & s & d & Ha & Hh & _ & Hr).
  destruct (arena_purge_terminates no_word zero_purge zero_purge_range arena1 R [] [] Ha Hh) as [(a' & E & R' & Hf) _].
  exists a'. split; [exact E|]. destruct Hf as [_ _ Hk _]. exact Hk.
Defined.

Lemma arena_run_trim_spec_witness :
  ∃ c s a', arena_run_trim_head no_word zero_purge c (raddr c s) (5 * PAGE) (2 * PAGE) arena1 = Some (tt, a') ∧ kept arena1 a'.
Proof.
  destruct arena1_inv as (R & c & s & d & Ha & Hh & Hr & _). exists c, s.
  assert (Hm : 0 < 2 < 5) by lia.
  destruct (arena_run_trim_spec no_word zero_purge zero_purge_range arena1 R [] [] c s 5 2 d Ha Hh Hr Hm) as [(a' & E & R' & Hf) _].
  exists a'. split; [exact E|]. destruct Hf as [_ _ Hk _ _]. exact Hk.
Defined.

#[local] Transparent arena1.

Lemma arena1_reach : arena_reach no_word zero_purge [] [] arena1 {[2 ^ 40 + map_bias * PAGE := 5]}.
Proof.
  assert (E : run_code no_word zero_purge ∅ (OpAlloc 5 false) arena0 = Some (Some (2 ^ 40 + map_bias * PAGE), arena1)).
  { pose proof arena1_run as Er. cbn [run_code]. change (arena_run_alloc no_word (5 * PAGE) true BININD_INVALID false) with (large_run 5).
    unfold arena1, after. destruct (large_run 5 arena0) as [[r a]|]; [|done]. by injection Er as ->. }
  exact (reach_op no_word zero_purge [] [] arena0 ∅ (OpAlloc 5 false) _ arena1 (reach_new no_word zero_purge [] [] (boot_state []) (λ _, 0) 0 layer0 (Forall_nil_2 _)) whole_5 E).
Qed.

Lemma arena_safe_witness :
  ∃ r a', run_code no_word zero_purge {[2 ^ 40 + map_bias * PAGE := 5]} OpPurge arena1 = Some (r, a').
Proof.
  destruct (arena_safe no_word zero_purge zero_purge_range [] [] arena1 _ arena1_reach) as (_ & _ & _ & Hs). exact (Hs OpPurge I).
Defined.
End witnesses.
