(* ===== verification/ArenaBin.v ===== *)
(** * Arenas: bins, regions and objects (arena.c, arena.h)

    A small run is divided into regions of one size class; the bitmap of its
    header says which are allocated.  Each size class has a bin: the current
    run, from which regions are taken, and a tree of the other runs that have
    both free and allocated regions.  A large object is a run of its own.
    Where the code releases the lock of a bin, [others] stands for what other
    threads do to the arena in the meantime.  No thread cache is ever created
    in this version ([arena_malloc] overrides its argument), so the branches
    that use one are not taken. *)

From S2P Require Import Prelude OrdTree Bitmap SizeClass BinInfo ArenaBits ChunkIface Arena.

Section bins.
Context `{Config} `{Opts} {S : Type} `{CL : ChunkLayer S} {T : Type} `{OT : OrdTree T Z}.
Context (old_word : Z → Z → Z) (os_purge : Z → Z → (Z → Z) → (Z → Z)).
(** What other threads do while a bin's lock is free. *)
Context (others : M (astate S T) unit).

Abbreviation st := (astate S T).
Abbreviation MA := (M st).

Definition bin_get (binind : Z) : MA (arena_bin T) := check (0 <=? binind);; a ← gets id; lift (bins a !! Z.to_nat binind).
Definition bin_set (binind : Z) (b : arena_bin T) : MA unit := modify (λ a, set_bins (<[Z.to_nat binind := b]> (bins a)) a).
Definition on_bin (binind : Z) (f : arena_bin T → arena_bin T) : MA unit := b ← bin_get binind; bin_set binind (f b).

Definition set_runcur (r : option Z) (b : arena_bin T) : arena_bin T := ArenaBin r (bin_runs b) (bin_st b).
Definition set_bin_runs (t : T) (b : arena_bin T) : arena_bin T := ArenaBin (runcur b) t (bin_st b).
Definition set_bin_st (f : bin_stats → bin_stats) (b : arena_bin T) : arena_bin T := ArenaBin (runcur b) (bin_runs b) (f (bin_st b)).

(** Statistics of a bin: bytes, allocations, frees and requests, and runs. *)
Definition bs_count (al nm nd nr : Z) (t : bin_stats) : bin_stats :=
  BinStats (u64 (bs_allocated t + al)) (u64 (bs_nmalloc t + nm)) (u64 (bs_ndalloc t + nd)) (u64 (bs_nrequests t + nr))
    (bs_nfills t) (bs_nflushes t) (bs_nruns t) (bs_reruns t) (bs_curruns t).
Definition bs_runs (nr re cu : Z) (t : bin_stats) : bin_stats :=
  BinStats (bs_allocated t) (bs_nmalloc t) (bs_ndalloc t) (bs_nrequests t) (bs_nfills t) (bs_nflushes t)
    (u64 (bs_nruns t + nr)) (u64 (bs_reruns t + re)) (u64 (bs_curruns t + cu)).

(** ** Regions of a run *)

Definition arena_run_reg_alloc (run : Z) (bin_info : arena_bin_info) : MA Z :=
  r ← run_get run;
  check (0 <? nfree r);;
  full ← lift (bitmap_full (run_bitmap r) (binfo bin_info));
  check (negb full);;
  '(bitmap, regind) ← lift (bitmap_sfu (run_bitmap r) (binfo bin_info));
  let ret := run + reg0_offset bin_info + reg_interval bin_info * regind in
  let next := if regind =? nextind r then u32 (nextind r + 1) else nextind r in
  check (regind <? next);;
  run_set run (ArenaRun (run_bin r) next (u32 (nfree r - 1)) bitmap);;
  mret ret.

Definition arena_run_reg_dalloc (run ptr : Z) : MA unit :=
  let chunk := CHUNK_ADDR2BASE run in
  let pageind := Z.shiftr (ptr - chunk) LG_PAGE in
  mapbits ← arena_mapbits_get chunk pageind;
  bin_info ← info_get (bits_binind mapbits);
  regind ← lift (arena_run_regind run bin_info ptr);
  r ← run_get run;
  check (nfree r <? nregs bin_info);;
  check ((ptr - (run + reg0_offset bin_info)) mod reg_interval bin_info =? 0);;
  check (run + reg0_offset bin_info <=? ptr);;
  used ← lift (bitmap_get (run_bitmap r) (binfo bin_info) regind);
  check used;;
  bitmap ← lift (bitmap_unset (run_bitmap r) (binfo bin_info) regind);
  run_set run (ArenaRun (run_bin r) (nextind r) (u32 (nfree r + 1)) bitmap).

(** ** The tree of a bin's non-full runs *)

(** The run that a page of it belongs to. *)
Definition run_of_page (chunk pageind : Z) : MA Z :=
  runind ← arena_mapbits_small_runind_get chunk pageind;
  mret (chunk + Z.shiftl (pageind - runind) LG_PAGE).

Definition arena_bin_runs_first (binind : Z) : MA (option Z) :=
  bin ← bin_get binind;
  match ot_first (bin_runs bin) with
  | Some m => run ← run_of_page (CHUNK_ADDR2BASE m) (mapelm_page m); mret (Some run)
  | None => mret None
  end.

Definition arena_bin_runs_insert (binind run : Z) : MA unit :=
  let chunk := CHUNK_ADDR2BASE run in
  m ← arena_mapp_get chunk (Z.shiftr (run - chunk) LG_PAGE);
  bin ← bin_get binind;
  check (bool_decide (ot_search (arena_run_comp m) (bin_runs bin) = None));;
  t ← lift (ot_insert arena_run_comp m (bin_runs bin));
  bin_set binind (set_bin_runs t bin).

Definition arena_bin_runs_remove (binind run : Z) : MA unit :=
  let chunk := CHUNK_ADDR2BASE run in
  m ← arena_mapp_get chunk (Z.shiftr (run - chunk) LG_PAGE);
  bin ← bin_get binind;
  check (negb (bool_decide (ot_search (arena_run_comp m) (bin_runs bin) = None)));;
  t ← lift (ot_remove arena_run_comp m (bin_runs bin));
  bin_set binind (set_bin_runs t bin).

Definition arena_bin_nonfull_run_tryget (binind : Z) : MA (option Z) :=
  run ← arena_bin_runs_first binind;
  match run with
  | Some run =>
      arena_bin_runs_remove binind run;;
      on_bin binind (set_bin_st (bs_runs 0 1 0));;
      mret (Some run)
  | None => mret None
  end.

(** ** Runs of a bin *)

(** The header of a new run; [bitmap_init] overwrites every word of the bitmap. *)
Definition run_init (run binind : Z) (bin_info : arena_bin_info) : MA unit :=
  bytes ← lift (bitmap_info_ngroups (binfo bin_info));
  bitmap ← lift (bitmap_init (replicate (Z.to_nat (Z.shiftr bytes LG_SIZEOF_BITMAP)) 0) (binfo bin_info));
  run_set run (ArenaRun binind 0 (nregs bin_info) bitmap).

(** A new run for a bin, under the arena's lock. *)
Definition new_bin_run (binind : Z) (bin_info : arena_bin_info) : MA (option Z) :=
  run ← arena_run_alloc old_word (run_size bin_info) false binind false;
  (if run is Some run then run_init run binind bin_info else mret tt);;
  mret run.

Definition arena_bin_nonfull_run_get (binind : Z) : MA (option Z) :=
  run ← arena_bin_nonfull_run_tryget binind;
  match run with
  | Some run => mret (Some run)
  | None =>
      bin_info ← info_get binind;
      others;;
      run ← new_bin_run binind bin_info;
      others;;
      match run with
      | Some run => on_bin binind (set_bin_st (bs_runs 1 0 1));; mret (Some run)
      | None => arena_bin_nonfull_run_tryget binind
      end
  end.

Definition arena_dissociate_bin_run (run binind : Z) : MA unit :=
  bin ← bin_get binind;
  if decide (runcur bin = Some run) then bin_set binind (set_runcur None bin)
  else
    bin_info ← info_get binind;
    if negb (nregs bin_info =? 1) then arena_bin_runs_remove binind run else mret tt.

(** The pages of a run without objects are freed, under the arena's lock.  Pages
    that no region was ever taken from are still clean. *)
Definition release_run (chunk run : Z) (bin_info : arena_bin_info) : MA unit :=
  let npages := Z.shiftr (run_size bin_info) LG_PAGE in
  let run_ind := Z.shiftr (run - chunk) LG_PAGE in
  r ← run_get run;
  let past := Z.shiftr (PAGE_CEILING (run + reg0_offset bin_info
    + (nextind r * reg_interval bin_info - redzone_size bin_info) - chunk)) LG_PAGE in
  d1 ← arena_mapbits_dirty_get chunk run_ind;
  d2 ← arena_mapbits_dirty_get chunk (run_ind + npages - 1);
  check (d1 =? d2);;
  (if (d1 =? 0) && (past - run_ind <? npages) then
     check (0 <? npages);;
     arena_mapbits_large_set chunk run_ind (run_size bin_info) 0;;
     arena_mapbits_large_set chunk (run_ind + npages - 1) 0 0;;
     arena_run_trim_tail old_word os_purge chunk run (Z.shiftl npages LG_PAGE) (Z.shiftl (past - run_ind) LG_PAGE) false
   else mret tt);;
  arena_run_dalloc old_word os_purge run true.

Definition arena_dalloc_bin_run (chunk run binind : Z) : MA unit :=
  bin ← bin_get binind;
  check (negb (bool_decide (runcur bin = Some run)));;
  m ← arena_mapp_get chunk (Z.shiftr (run - chunk) LG_PAGE);
  check (bool_decide (ot_search (arena_run_comp m) (bin_runs bin) = None));;
  r ← run_get run;
  bin_info ← info_get (run_bin r);
  others;;
  release_run chunk run bin_info;;
  others;;
  on_bin binind (set_bin_st (bs_runs 0 0 (-1))).

(** [runcur] is the lowest non-full run, or none. *)
Definition arena_bin_lower_run (run binind : Z) : MA unit :=
  bin ← bin_get binind;
  match runcur bin with
  | Some cur =>
      if run <? cur then
        r ← run_get cur;
        (if 0 <? nfree r then arena_bin_runs_insert binind cur else mret tt);;
        on_bin binind (set_runcur (Some run));;
        on_bin binind (set_bin_st (bs_runs 0 1 0))
      else arena_bin_runs_insert binind run
  | None => arena_bin_runs_insert binind run
  end.

(** Whether the bin's current run has a free region. *)
Definition runcur_free (binind : Z) : MA (option Z) :=
  bin ← bin_get binind;
  match runcur bin with
  | Some cur => r ← run_get cur; mret (if 0 <? nfree r then Some cur else None)
  | None => mret None
  end.

Definition arena_bin_malloc_hard (binind : Z) : MA (option Z) :=
  bin_info ← info_get binind;
  on_bin binind (set_runcur None);;
  run ← arena_bin_nonfull_run_get binind;
  cur ← runcur_free binind;
  match cur with
  | Some cur =>
      ret ← arena_run_reg_alloc cur bin_info;
      (if run is Some run then
         let chunk := CHUNK_ADDR2BASE run in
         r ← run_get run;
         if nfree r =? nregs bin_info then arena_dalloc_bin_run chunk run binind
         else arena_bin_lower_run run binind
       else mret tt);;
      mret (Some ret)
  | None =>
      match run with
      | None => mret None
      | Some run =>
          on_bin binind (set_runcur (Some run));;
          r ← run_get run;
          check (0 <? nfree r);;
          ret ← arena_run_reg_alloc run bin_info; mret (Some ret)
      end
  end.

(** ** Filling *)

Definition arena_alloc_junk_small (ptr : Z) (bin_info : arena_bin_info) (zero : bool) : MA unit :=
  if zero then
    a_memset (ptr - redzone_size bin_info) 0xa5 (redzone_size bin_info);;
    a_memset (ptr + reg_size bin_info) 0xa5 (redzone_size bin_info)
  else a_memset (ptr - redzone_size bin_info) 0xa5 (reg_interval bin_info).

(** Whether a redzone was overwritten; the messages are not modelled. *)
Definition redzone_error (ptr : Z) (bin_info : arena_bin_info) (m : Z → Z) : bool :=
  existsb (λ i, negb (m (ptr - i) =? 0xa5)) (seqZ 1 (redzone_size bin_info))
  || existsb (λ i, negb (m (ptr + reg_size bin_info + i) =? 0xa5)) (seqZ 0 (redzone_size bin_info)).

(** [abort] has no result. *)
Definition arena_dalloc_junk_small (ptr : Z) (bin_info : arena_bin_info) : MA unit :=
  a ← gets id;
  check (negb (opt_abort && redzone_error ptr bin_info (a_mem a)));;
  a_memset (ptr - redzone_size bin_info) 0x5a (reg_interval bin_info).

(** ** Small objects *)

Definition arena_malloc_small (size : Z) (zero : bool) : MA (option Z) :=
  binind ← lift (SMALL_SIZE2BIN size);
  check (binind <? NBINS);;
  bin_info ← info_get binind;
  let size := reg_size bin_info in
  cur ← runcur_free binind;
  ret ←
    match cur with
    | Some run => ret ← arena_run_reg_alloc run bin_info; mret (Some ret)
    | None => arena_bin_malloc_hard binind
    end;
  match ret with
  | None => mret None
  | Some ret =>
      on_bin binind (set_bin_st (bs_count size 1 0 1));;
      (if negb zero then
         if opt_junk then arena_alloc_junk_small ret bin_info false
         else if opt_zero then a_memset ret 0 size else mret tt
       else
         (if opt_junk then arena_alloc_junk_small ret bin_info true else mret tt);;
         a_memset ret 0 size);;
      mret (Some ret)
  end.

Definition arena_dalloc_bin_locked (chunk ptr mapelm : Z) : MA unit :=
  run ← run_of_page chunk (Z.shiftr (ptr - chunk) LG_PAGE);
  r ← run_get run;
  let bin := run_bin r in
  bits ← gets (λ a, mapelm_bits (hdrs a) mapelm);
  bin_info ← info_get (bits_binind bits);
  let size := reg_size bin_info in
  (if opt_junk then arena_dalloc_junk_small ptr bin_info else mret tt);;
  arena_run_reg_dalloc run ptr;;
  r ← run_get run;
  b ← bin_get bin;
  (if nfree r =? nregs bin_info then
     arena_dissociate_bin_run run bin;;
     arena_dalloc_bin_run chunk run bin
   else if (nfree r =? 1) && negb (bool_decide (runcur b = Some run)) then arena_bin_lower_run run bin
   else mret tt);;
  on_bin bin (set_bin_st (bs_count (- size) 0 1 0)).

Definition arena_dalloc_bin (chunk ptr pageind mapelm : Z) : MA unit :=
  run ← run_of_page chunk pageind;
  r ← run_get run;
  bin_get (run_bin r);;
  arena_dalloc_bin_locked chunk ptr mapelm.

Definition arena_dalloc_small (chunk ptr pageind : Z) : MA unit :=
  mapelm ← arena_mapp_get chunk pageind;
  arena_dalloc_bin chunk ptr pageind mapelm.

(** ** Large objects *)

(** Statistics of large objects, in all and of one size class. *)
Definition ls_count (nm nd nr cu : Z) (t : large_stats) : large_stats :=
  LargeStats (u64 (ls_nmalloc t + nm)) (u64 (ls_ndalloc t + nd)) (u64 (ls_nrequests t + nr)) (u64 (ls_curruns t + cu)).
Definition large_count (al nm nd nr : Z) (l : list large_stats) (t : arena_stats) : arena_stats :=
  ArenaStats (mapped t) (npurge t) (nmadvise t) (purged t) (u64 (allocated_large t + al)) (u64 (nmalloc_large t + nm))
    (u64 (ndalloc_large t + nd)) (u64 (nrequests_large t + nr)) l.

(** [n] is 1 for an allocation and -1 for a deallocation of [size] bytes. *)
Definition large_stats_update (size n : Z) : MA unit :=
  a ← gets id;
  let class := Z.shiftr size LG_PAGE - 1 in
  check (0 <=? class);;
  t ← lift (lstats (a_stats a) !! Z.to_nat class);
  let nm := if 0 <? n then 1 else 0 in
  let nd := if 0 <? n then 0 else 1 in
  on_stats (large_count (n * size) nm nd nm (<[Z.to_nat class := ls_count nm nd nm n t]> (lstats (a_stats a)))).

(** The contents of a new large object that need not be zeroed. *)
Definition fill_large (ret size : Z) (zero : bool) : MA unit :=
  if zero then mret tt
  else if opt_junk then a_memset ret 0xa5 size
  else if opt_zero then a_memset ret 0 size else mret tt.

Definition arena_malloc_large (size : Z) (zero : bool) : MA (option Z) :=
  let size := PAGE_CEILING size in
  ret ← arena_run_alloc old_word size true BININD_INVALID zero;
  match ret with
  | None => mret None
  | Some ret => large_stats_update size 1;; fill_large ret size zero;; mret (Some ret)
  end.

(** Objects with more than page alignment. *)
Definition arena_palloc (size alignment : Z) (zero : bool) : MA (option Z) :=
  check (Z.land size PAGE_MASK =? 0);;
  let alignment := PAGE_CEILING alignment in
  let alloc_size := u64 (size + alignment - PAGE) in
  run ← arena_run_alloc old_word alloc_size true BININD_INVALID zero;
  match run with
  | None => mret None
  | Some run =>
      let chunk := CHUNK_ADDR2BASE run in
      let leadsize := ALIGNMENT_CEILING run alignment - run in
      check (leadsize + size <=? alloc_size);;
      let trailsize := alloc_size - leadsize - size in
      let ret := run + leadsize in
      (if negb (leadsize =? 0) then arena_run_trim_head old_word os_purge chunk run alloc_size (alloc_size - leadsize)
       else mret tt);;
      (if negb (trailsize =? 0) then arena_run_trim_tail old_word os_purge chunk ret (size + trailsize) size false
       else mret tt);;
      large_stats_update size 1;;
      fill_large ret size zero;;
      mret (Some ret)
  end.

Definition arena_dalloc_large_locked (chunk ptr : Z) : MA unit :=
  size ← arena_mapbits_large_size_get chunk (Z.shiftr (ptr - chunk) LG_PAGE);
  (if opt_junk then a_memset ptr 0x5a size else mret tt);;
  large_stats_update size (-1);;
  arena_run_dalloc old_word os_purge ptr true.

Definition arena_dalloc_large (chunk ptr : Z) : MA unit := arena_dalloc_large_locked chunk ptr.

(** ** Resizing large objects in place *)

Definition arena_ralloc_large_shrink (chunk ptr oldsize size : Z) : MA unit :=
  check (size <? oldsize);;
  arena_run_trim_tail old_word os_purge chunk ptr oldsize size true;;
  large_stats_update oldsize (-1);;
  large_stats_update size 1.

(** Pages of the free run behind the object become part of it. *)
Definition grow_by (chunk pageind npages oldsize splitsize : Z) (zero : bool) : MA unit :=
  arena_run_split (chunk + Z.shiftl (pageind + npages) LG_PAGE) splitsize true BININD_INVALID zero;;
  let size := oldsize + splitsize in
  let npages := Z.shiftr size LG_PAGE in
  d1 ← arena_mapbits_dirty_get chunk pageind;
  d2 ← arena_mapbits_dirty_get chunk (pageind + npages - 1);
  let flag_dirty := Z.lor d1 d2 in
  arena_mapbits_large_set chunk pageind size flag_dirty;;
  arena_mapbits_large_set chunk (pageind + npages - 1) 0 flag_dirty;;
  large_stats_update oldsize (-1);;
  large_stats_update size 1.

(** The result is true when the object cannot grow. *)
Definition arena_ralloc_large_grow (chunk ptr oldsize size extra : Z) (zero : bool) : MA bool :=
  let pageind := Z.shiftr (ptr - chunk) LG_PAGE in
  let npages := Z.shiftr oldsize LG_PAGE in
  z ← arena_mapbits_large_size_get chunk pageind;
  check (oldsize =? z);;
  check (oldsize <? u64 (size + extra));;
  follow ←
    (if pageind + npages <? chunk_npages then
       al ← arena_mapbits_allocated_get chunk (pageind + npages);
       if al =? 0 then
         followsize ← arena_mapbits_unallocated_size_get chunk (pageind + npages);
         mret (if u64 (size - oldsize) <=? followsize then Some followsize else None)
       else mret None
     else mret None);
  match follow with
  | Some followsize =>
      let splitsize := if oldsize + followsize <=? u64 (size + extra) then followsize else u64 (size + extra) - oldsize in
      grow_by chunk pageind npages oldsize splitsize zero;;
      mret false
  | None => mret true
  end.

Definition arena_ralloc_large (ptr oldsize size extra : Z) (zero : bool) : MA bool :=
  let psize := PAGE_CEILING (u64 (size + extra)) in
  if psize =? oldsize then
    (if opt_junk && (size <? oldsize) then a_memset (ptr + size) 0x5a (oldsize - size) else mret tt);;
    mret false
  else
    let chunk := CHUNK_ADDR2BASE ptr in
    if psize <? oldsize then
      (if opt_junk then a_memset (ptr + size) 0x5a (oldsize - size) else mret tt);;
      arena_ralloc_large_shrink chunk ptr oldsize psize;;
      mret false
    else
      ret ← arena_ralloc_large_grow chunk ptr oldsize (PAGE_CEILING size) (psize - PAGE_CEILING size) zero;
      (if negb ret && negb zero && opt_zero then a_memset (ptr + oldsize) 0 (u64 (size - oldsize)) else mret tt);;
      mret ret.

Definition arena_ralloc_no_move (ptr oldsize size extra : Z) (zero : bool) : MA (option Z) :=
  if oldsize <=? arena_maxclass then
    if oldsize <=? SMALL_MAXCLASS then
      bin ← lift (SMALL_SIZE2BIN oldsize);
      bin_info ← info_get bin;
      check (reg_size bin_info =? oldsize);;
      same ← (if u64 (size + extra) <=? SMALL_MAXCLASS then b ← lift (SMALL_SIZE2BIN (u64 (size + extra))); mret (b =? bin)
              else mret false);
      if (same : bool) || ((size <=? oldsize) && (oldsize <=? u64 (size + extra))) then
        (if opt_junk && (size <? oldsize) then a_memset (ptr + size) 0x5a (oldsize - size) else mret tt);;
        mret (Some ptr)
      else mret None
    else
      check (size <=? arena_maxclass);;
      if SMALL_MAXCLASS <? u64 (size + extra) then
        moved ← arena_ralloc_large ptr oldsize size extra zero;
        mret (if moved : bool then None else Some ptr)
      else mret None
  else mret None.

(** ** Objects of any size an arena serves *)

Definition arena_malloc (size : Z) (zero : bool) : MA (option Z) :=
  check (negb (size =? 0));;
  check (size <=? arena_maxclass);;
  if size <=? SMALL_MAXCLASS then arena_malloc_small size zero else arena_malloc_large size zero.

(** Without profiling nothing is promoted to a large object. *)
Definition arena_salloc (ptr : Z) : MA Z :=
  check (negb (ptr =? 0));;
  check (negb (CHUNK_ADDR2BASE ptr =? ptr));;
  let chunk := CHUNK_ADDR2BASE ptr in
  let pageind := Z.shiftr (ptr - chunk) LG_PAGE in
  al ← arena_mapbits_allocated_get chunk pageind;
  check (negb (al =? 0));;
  binind ← arena_mapbits_binind_get chunk pageind;
  if binind =? BININD_INVALID then
    check (Z.land ptr PAGE_MASK =? 0);;
    ret ← arena_mapbits_large_size_get chunk pageind;
    check (negb (ret =? 0));;
    let last := pageind + Z.shiftr ret LG_PAGE - 1 in
    check (pageind + Z.shiftr ret LG_PAGE <=? chunk_npages);;
    (if ret =? PAGE then mret tt else z ← arena_mapbits_large_size_get chunk last; check (z =? 0));;
    b ← arena_mapbits_binind_get chunk last;
    check (binind =? b);;
    d1 ← arena_mapbits_dirty_get chunk pageind;
    d2 ← arena_mapbits_dirty_get chunk last;
    check (d1 =? d2);;
    mret ret
  else
    l ← arena_mapbits_large_get chunk pageind;
    (if negb (l =? 0) then mret tt
     else b ← arena_mapbits_get chunk pageind; check (bits_binind b =? binind));;
    bin_info ← info_get binind;
    mret (reg_size bin_info).

Definition arena_dalloc (chunk ptr : Z) : MA unit :=
  check (negb (ptr =? 0));;
  check (negb (CHUNK_ADDR2BASE ptr =? ptr));;
  let pageind := Z.shiftr (ptr - chunk) LG_PAGE in
  mapbits ← arena_mapbits_get chunk pageind;
  al ← arena_mapbits_allocated_get chunk pageind;
  check (negb (al =? 0));;
  if Z.land mapbits CHUNK_MAP_LARGE =? 0 then arena_dalloc_small chunk ptr pageind
  else
    arena_mapbits_large_size_get chunk pageind;;
    check (Z.land ptr PAGE_MASK =? 0);;
    arena_dalloc_large chunk ptr.

(** ** Adding up statistics *)

Definition bin_stats_merge (t u : bin_stats) : bin_stats :=
  BinStats (u64 (bs_allocated t + bs_allocated u)) (u64 (bs_nmalloc t + bs_nmalloc u)) (u64 (bs_ndalloc t + bs_ndalloc u))
    (u64 (bs_nrequests t + bs_nrequests u)) (u64 (bs_nfills t + bs_nfills u)) (u64 (bs_nflushes t + bs_nflushes u))
    (u64 (bs_nruns t + bs_nruns u)) (u64 (bs_reruns t + bs_reruns u)) (u64 (bs_curruns t + bs_curruns u)).
Definition large_stats_merge (t u : large_stats) : large_stats :=
  LargeStats (u64 (ls_nmalloc t + ls_nmalloc u)) (u64 (ls_ndalloc t + ls_ndalloc u)) (u64 (ls_nrequests t + ls_nrequests u))
    (u64 (ls_curruns t + ls_curruns u)).

(** The totals are arguments and results. *)
Definition arena_stats_merge (a : st) (nact ndir : Z) (t : arena_stats) (bstats : list bin_stats) (lst : list large_stats) :
    Z * Z * arena_stats * list bin_stats * list large_stats :=
  let u := a_stats a in
  (u64 (nact + nactive a), u64 (ndir + ndirty a),
   ArenaStats (u64 (mapped t + mapped u)) (u64 (npurge t + npurge u)) (u64 (nmadvise t + nmadvise u)) (u64 (purged t + purged u))
     (u64 (allocated_large t + allocated_large u)) (u64 (nmalloc_large t + nmalloc_large u))
     (u64 (ndalloc_large t + ndalloc_large u)) (u64 (nrequests_large t + nrequests_large u)) (lstats t),
   zip_with bin_stats_merge bstats (bin_st <$> bins a), zip_with large_stats_merge lst (lstats u)).
End bins.
