(* ===== verification/ArenaBinInv.v ===== *)
(** * The invariant of bins

    The header of every small run describes a set of allocated regions, and
    the bin of the run keeps it where its number of free regions requires.  A
    run may also be detached: a thread holds it while it has released the lock
    of the bin.  [heap_at] of [ArenaObj] adds the objects: the allocated
    regions and the large runs. *)

From S2P Require Import Prelude OrdTree Bitmap SizeClass BinInfo ArenaBits ChunkIface Arena ArenaMap ArenaTree ArenaInv ArenaRun ArenaDalloc ArenaPurge ArenaTrim ArenaBin.

(** ** Trees of runs in address order *)

Section bin_trees.
Context `{Config} {T : Type} `{OT : OrdTree T Z} `{!OrdTreeLaws T Z}.
Implicit Types (t : T) (X : Z * Z → Prop) (k : Z * Z).

Lemma run_comp_order : rb_order arena_run_comp.
Proof.
  split; unfold arena_run_comp; intros x y; [rewrite cmp3_lt, cmp3_gt; lia| |]; intros z.
  - rewrite !cmp3_lt. lia.
  - rewrite !cmp3_lt, cmp3_eq. lia.
Qed.

Lemma run_comp_eq x y : arena_run_comp x y = 0 → x = y.
Proof. apply cmp3_eq. Qed.

Definition bin_tree t X : Prop :=
  (∀ k, X k → run_key k) ∧ ∃ Y : gset Z, tree_of arena_run_comp t Y ∧ ∀ y, y ∈ Y ↔ ∃ k, y = elm k ∧ X k.

Lemma bt_ext t X X' : (∀ k, X k ↔ X' k) → bin_tree t X → bin_tree t X'.
Proof.
  intros HX (Hk & Y & Ht & HY). split; [intros k Hx; by apply Hk, HX|]. exists Y. split; [done|].
  intros y. rewrite HY. split; intros (k & ? & ?%HX); eauto.
Qed.

Lemma bt_new : bin_tree ot_new (λ _, False).
Proof. split; [done|]. exists ∅. split; [apply tree_new, run_comp_order|]. set_solver. Qed.

Lemma bt_search t X k : bin_tree t X → run_key k → (ot_search (arena_run_comp (elm k)) t = None ↔ ¬ X k).
Proof.
  intros (Hk & Y & Ht & HY) Hr.
  assert (Hcut : key_cut (arena_run_comp (elm k)) (ot_elems t)) by (eapply key_cut_of_cmp; apply Ht). split.
  - intros E Hx. rewrite (tree_search _ _ _ _ (elm k) Ht Hcut) in E; [done| |by apply cmp3_eq]. apply HY. eauto.
  - intros Hx. eapply tree_search_none; [exact Ht|exact Hcut|]. intros y (k' & -> & Hx')%HY E%run_comp_eq.
    apply elm_inj in E as ->; auto.
Qed.

Lemma bt_insert t X k :
  bin_tree t X → run_key k → ¬ X k →
  ∃ t', ot_insert arena_run_comp (elm k) t = Some t' ∧ bin_tree t' (λ k', X k' ∨ k' = k).
Proof.
  intros (Hk & Y & Ht & HY) Hr Hx. destruct (tree_insert _ (elm k) _ _ Ht) as (t' & E & Ht').
  { intros y (k' & -> & Hx')%HY Ec%run_comp_eq. apply elm_inj in Ec as ->; auto. }
  exists t'. split; [done|]. split; [intros k' [?| ->]; auto|]. exists (Y ∪ {[elm k]}). split; [done|].
  intros y. rewrite elem_of_union, HY, elem_of_singleton. naive_solver.
Qed.

Lemma bt_remove t X k :
  bin_tree t X → X k →
  ∃ t', ot_remove arena_run_comp (elm k) t = Some t' ∧ bin_tree t' (λ k', X k' ∧ k' ≠ k).
Proof.
  intros (Hk & Y & Ht & HY) Hx. destruct (tree_remove _ (elm k) _ _ Ht) as (t' & E & Ht'); [apply HY; eauto|].
  exists t'. split; [done|]. split; [intros k' [? _]; auto|]. exists (Y ∖ {[elm k]}). split; [done|].
  intros y. rewrite elem_of_difference, HY, elem_of_singleton. split.
  - intros [(k' & -> & Hx') Hne]. exists k'. split_and!; [done..|]. by intros ->.
  - intros (k' & -> & Hx' & Hne). split; [by eexists|]. intros E'. apply Hne, elm_inj; auto.
Qed.

Lemma bt_first t X : bin_tree t X → match ot_first t with Some y => ∃ k, y = elm k ∧ X k | None => ∀ k, ¬ X k end.
Proof.
  intros (Hk & Y & Ht & HY). pose proof (tree_first _ _ _ Ht) as Hf. destruct (ot_first t) as [y|].
  - by apply HY, Hf.
  - intros k Hx. assert (Hi : elm k ∈ Y) by (apply HY; eauto). subst Y. set_solver.
Qed.
End bin_trees.

(** ** Runs, bins and objects *)

(** The header of a run whose regions [A] are allocated. *)
Record run_ok (info : arena_bin_info) (r : arena_run) (A : gset Z) : Prop := {
  ro_bits : Bitmap.holds (binfo info) A (run_bitmap r);
  ro_free : nfree r = nregs info - Z.of_nat (size A);
  ro_next : 0 ≤ nextind r ≤ nregs info;
  ro_below i : i ∈ A → i < nextind r
}.

Abbreviation regions := (gmap (Z * Z) (gset Z)).
(** Detached runs and their bins. *)
Abbreviation detached := (gmap (Z * Z) Z).

Section bins_ok.
Context `{Config} `{Opts} {T : Type} `{OT : OrdTree T Z} `{!OrdTreeLaws T Z}.
Implicit Types (ru : gmap Z arena_run) (bs : list (arena_bin T)) (Al : layout) (G : regions) (D : detached) (A : gset Z)
  (k : Z * Z) (bi n : Z) (d : bool) (b : arena_bin T) (info : arena_bin_info).

Definition kaddr k : Z := raddr k.1 k.2.

(** The bin [bi] has the run, with the regions [A] of [info]. *)
Definition has_run Al G bi k A info : Prop :=
  (∃ n d, Al !! k = Some (n, Small bi d)) ∧ G !! k = Some A ∧ bin_infos !! Z.to_nat bi = Some info.

Record bin_ok Al G D bi b : Prop := {
  bk_cur p : runcur b = Some p → ∃ k A info, p = kaddr k ∧ has_run Al G bi k A info ∧ D !! k = None;
  bk_tree : bin_tree (bin_runs b) (λ k, ∃ A info, has_run Al G bi k A info ∧ D !! k = None ∧
    runcur b ≠ Some (kaddr k) ∧ Z.of_nat (size A) < nregs info);
  bk_used k A info : has_run Al G bi k A info → D !! k = None → A ≠ ∅
}.

Record bins_ok ru bs Al G D : Prop := {
  bo_len : Z.of_nat (length bs) = NBINS;
  bo_runs k n bi d : Al !! k = Some (n, Small bi d) →
    0 ≤ bi < NBINS ∧ ∃ r A info, ru !! kaddr k = Some r ∧ run_bin r = bi ∧ G !! k = Some A ∧
      bin_infos !! Z.to_nat bi = Some info ∧ run_size info = n * PAGE ∧ run_ok info r A;
  bo_bins bi b : 0 ≤ bi → bs !! Z.to_nat bi = Some b → bin_ok Al G D bi b;
  bo_det k bi : D !! k = Some bi → ∃ n d, Al !! k = Some (n, Small bi d)
}.

(** Detached runs have no allocated regions. *)
Definition fresh G D : Prop := ∀ k bi, D !! k = Some bi → G !! k = Some ∅.

Definition reg_addr k info i : Z := kaddr k + reg0_offset info + reg_interval info * i.

(** The objects: regions and large runs. *)
Definition is_object Al G p n : Prop :=
  (∃ k m d, Al !! k = Some (m, Large d) ∧ p = kaddr k ∧ n = m * PAGE) ∨
  (∃ k bi A info i, has_run Al G bi k A info ∧ i ∈ A ∧ p = reg_addr k info i ∧ n = reg_size info).

(** Addresses of runs do not collide. *)
Definition apart Al : Prop := ∀ k k' v v', Al !! k = Some v → Al !! k' = Some v' → kaddr k = kaddr k' → k = k'.

Lemma bins_lookup ru bs Al G D bi : bins_ok ru bs Al G D → 0 ≤ bi < NBINS → ∃ b, bs !! Z.to_nat bi = Some b ∧ bin_ok Al G D bi b.
Proof.
  intros Hb Hi. destruct (lookup_lt_is_Some_2 bs (Z.to_nat bi)) as [b E]; [pose proof (bo_len _ _ _ _ _ Hb); lia|].
  exists b. split; [done|]. eapply bo_bins; [done|lia|done].
Qed.

Lemma has_run_det ru bs Al G D k n bi d :
  bins_ok ru bs Al G D → Al !! k = Some (n, Small bi d) → ∃ A info, has_run Al G bi k A info ∧ run_size info = n * PAGE.
Proof.
  intros Hb E. destruct (bo_runs _ _ _ _ _ Hb _ _ _ _ E) as (_ & r & A & info & _ & _ & EG & Ei & Es & _).
  exists A, info. split_and!; [split_and!; eauto|done].
Qed.

Lemma has_run_inj Al G bi bi' k A A' info info' :
  has_run Al G bi k A info → has_run Al G bi' k A' info' → bi = bi' ∧ A = A' ∧ info = info'.
Proof. intros ((n & d & E) & EG & Ei) ((n' & d' & E') & EG' & Ei'). rewrite E in E'. naive_solver. Qed.

(** What a header says of a run that a bin has. *)
Lemma has_run_hdr ru bs Al G D bi k A info :
  bins_ok ru bs Al G D → has_run Al G bi k A info →
  0 ≤ bi < NBINS ∧ ∃ r, ru !! kaddr k = Some r ∧ run_bin r = bi ∧ run_ok info r A.
Proof.
  intros Hb ((n & d & E) & EG & Ei). destruct (bo_runs _ _ _ _ _ Hb _ _ _ _ E) as (Hi & r & A' & info' & Er & Eb & EG' & Ei' & _ & Hok).
  split; [done|]. exists r. rewrite EG in EG'. rewrite Ei in Ei'. naive_solver.
Qed.

(** A bin depends on its attached runs only. *)
Lemma bin_frame Al Al' G G' D D' bi b :
  (∀ k A info, has_run Al' G' bi k A info ∧ D' !! k = None ↔ has_run Al G bi k A info ∧ D !! k = None) →
  bin_ok Al G D bi b → bin_ok Al' G' D' bi b.
Proof.
  intros Hf [P1 P2 P3]. split.
  - intros p Ep. destruct (P1 p Ep) as (k & A & info & -> & Hh). apply Hf in Hh. exists k, A, info. tauto.
  - eapply bt_ext; [|exact P2]. intros k.
    split; intros (A & info & Hh & HD & ?); [destruct (proj2 (Hf k A info) (conj Hh HD))|destruct (proj1 (Hf k A info) (conj Hh HD))];
      exists A, info; tauto.
  - intros k A info Hh HD. destruct (proj1 (Hf k A info) (conj Hh HD)). by eapply P3.
Qed.

(** Bins do not depend on large runs. *)
Lemma bins_large ru bs Al Al' G D :
  (∀ k n bi d, Al' !! k = Some (n, Small bi d) ↔ Al !! k = Some (n, Small bi d)) → bins_ok ru bs Al G D → bins_ok ru bs Al' G D.
Proof.
  intros HA Hb. split.
  - apply Hb.
  - intros k n bi d E%HA. by eapply bo_runs.
  - intros bi b Hge E. eapply bin_frame; [|by eapply bo_bins]. intros k A info. unfold has_run. by setoid_rewrite HA.
  - intros k bi E. destruct (bo_det _ _ _ _ _ Hb _ _ E) as (n & d & E'). exists n, d. by apply HA.
Qed.

(** One run and its bin change. *)
Lemma bins_update ru bs Al G D D' k bi b' A A' info r' :
  bins_ok ru bs Al G D → apart Al → has_run Al G bi k A info →
  run_ok info r' A' → run_bin r' = bi →
  (∀ k', k' ≠ k → D' !! k' = D !! k') → (D' !! k = None ∨ D' !! k = Some bi) →
  bin_ok Al (<[k := A']> G) D' bi b' →
  bins_ok (<[kaddr k := r']> ru) (<[Z.to_nat bi := b']> bs) Al (<[k := A']> G) D'.
Proof.
  intros Hb Hap Hr Hok Ebin HD HDk Hbin. destruct (has_run_hdr _ _ _ _ _ _ _ _ _ Hb Hr) as (Hbi & _). pose proof Hr as ((n & d & Ek) & EG & Ei).
  split.
  - rewrite length_insert. apply Hb.
  - intros k1 n1 bi1 d1 E1. destruct (bo_runs _ _ _ _ _ Hb _ _ _ _ E1) as (Hbi1 & r1 & A1 & info1 & Er1 & Eb1 & EG1 & Ei1 & Es1 & Hok1).
    split; [done|]. destruct (decide (k1 = k)) as [->|Hne].
    + rewrite Ek in E1. injection E1 as <- <- <-. rewrite Ei in Ei1. injection Ei1 as <-.
      exists r', A', info. rewrite !lookup_insert_eq. by split_and!.
    + exists r1, A1, info1. rewrite lookup_insert_ne by (intros E; by apply Hne, (Hap k1 k _ _ E1 Ek)).
      rewrite lookup_insert_ne by done. by split_and!.
  - intros bi1 b1 Hge E1. destruct (decide (bi1 = bi)) as [->|Hne].
    { rewrite list_lookup_insert_eq in E1 by (pose proof (bo_len _ _ _ _ _ Hb); lia). by injection E1 as <-. }
    rewrite list_lookup_insert_ne in E1 by lia. eapply bin_frame; [|by eapply bo_bins]. intros k1 A1 info1. unfold has_run.
    destruct (decide (k1 = k)) as [->|Hk]; [|by rewrite lookup_insert_ne, HD by done].
    split; intros (((n1 & d1 & E) & _) & _); rewrite Ek in E; congruence.
  - intros k1 bi1 E1. destruct (decide (k1 = k)) as [->|Hne].
    + destruct HDk as [E|E]; rewrite E in E1; [done|]. injection E1 as <-. eauto.
    + rewrite HD in E1 by done. by eapply bo_det.
Qed.

(** A new run, detached. *)
Lemma bins_add ru bs Al G D k n bi d info r :
  bins_ok ru bs Al G D → Al !! k = None → 0 ≤ bi < NBINS → apart (<[k := (n, Small bi d)]> Al) →
  bin_infos !! Z.to_nat bi = Some info → run_size info = n * PAGE → run_ok info r ∅ → run_bin r = bi →
  bins_ok (<[kaddr k := r]> ru) bs (<[k := (n, Small bi d)]> Al) (<[k := ∅]> G) (<[k := bi]> D).
Proof.
  intros Hb Hk Hbi Hap Ei Es Hok Eb. split.
  - apply Hb.
  - intros k1 n1 bi1 d1 E1. destruct (decide (k1 = k)) as [->|Hne].
    + rewrite lookup_insert_eq in E1. injection E1 as <- <- <-. split; [done|]. exists r, ∅, info. rewrite !lookup_insert_eq. by split_and!.
    + pose proof E1 as E2. rewrite lookup_insert_ne in E1 by done.
      destruct (bo_runs _ _ _ _ _ Hb _ _ _ _ E1) as (Hbi1 & r1 & A1 & info1 & Er1 & Eb1 & EG1 & Ei1 & Es1 & Hok1). split; [done|].
      exists r1, A1, info1. rewrite lookup_insert_ne by (intros E; apply Hne; by eapply Hap; [exact E2|apply lookup_insert_eq|]).
      rewrite lookup_insert_ne by done. by split_and!.
  - intros bi1 b1 Hge E1. eapply bin_frame; [|by eapply bo_bins]. intros k1 A1 info1. unfold has_run. destruct (decide (k1 = k)) as [->|Hne].
    + rewrite !lookup_insert_eq, Hk. naive_solver.
    + by rewrite !lookup_insert_ne.
  - intros k1 bi1 E1. destruct (decide (k1 = k)) as [->|Hne].
    + rewrite lookup_insert_eq in E1. injection E1 as <-. exists n, d. apply lookup_insert_eq.
    + rewrite lookup_insert_ne in E1 by done. setoid_rewrite lookup_insert_ne; [|done..]. by eapply bo_det.
Qed.

(** A detached run goes. *)
Lemma bins_drop ru bs Al G D k bi :
  bins_ok ru bs Al G D → D !! k = Some bi → bins_ok ru bs (delete k Al) (delete k G) (delete k D).
Proof.
  intros Hb Hk. split.
  - apply Hb.
  - intros k1 n1 bi1 d1 [Hne E1]%lookup_delete_Some.
    destruct (bo_runs _ _ _ _ _ Hb _ _ _ _ E1) as (Hbi1 & r1 & A1 & info1 & Er1 & Eb1 & EG1 & Ei1 & Es1 & Hok1). split; [done|].
    exists r1, A1, info1. rewrite lookup_delete_ne by done. by split_and!.
  - intros bi1 b1 Hge E1. eapply bin_frame; [|by eapply bo_bins]. intros k1 A1 info1. unfold has_run. destruct (decide (k1 = k)) as [->|Hne].
    + rewrite !lookup_delete_eq, Hk. naive_solver.
    + by rewrite !lookup_delete_ne.
  - intros k1 bi1 [Hne E1]%lookup_delete_Some. setoid_rewrite lookup_delete_ne; [|done..]. by eapply bo_det.
Qed.

(** ** A run moves into or out of its bin *)

Section move.
Context Al G D bi b k A info (Hap : apart Al) (Hr : has_run Al G bi k A info).

(** Runs that a bin has have different addresses. *)
Lemma kaddr_run k' A' info' : has_run Al G bi k' A' info' → kaddr k' = kaddr k → k' = k.
Proof using Hap Hr. destruct Hr as ((n & d & E) & _). intros ((n' & d' & E') & _). by apply (Hap _ _ _ _ E' E). Qed.

Lemma has_run_upd A' bi' k' A1 info1 :
  has_run Al (<[k := A']> G) bi' k' A1 info1 ↔ (k' = k ∧ bi' = bi ∧ A1 = A' ∧ info1 = info) ∨ (k' ≠ k ∧ has_run Al G bi' k' A1 info1).
Proof using Hr.
  pose proof Hr as ((n & d & E) & EG & Ei). unfold has_run. destruct (decide (k' = k)) as [->|Hne].
  - rewrite lookup_insert_eq. split.
    + intros ((n1 & d1 & E1) & [= <-] & Ei1). left. rewrite E in E1. injection E1 as _ <- _. rewrite Ei in Ei1. by injection Ei1 as <-.
    + intros [(_ & -> & -> & ->)|[? _]]; [|done]. split_and!; eauto.
  - rewrite lookup_insert_ne by done. naive_solver.
Qed.

Section detach.
Context A' (Hb : bin_ok Al G D bi b) (HD : D !! k = None).

Lemma detach_cur : runcur b = Some (kaddr k) → bin_ok Al (<[k := A']> G) (<[k := bi]> D) bi (set_runcur None b).
Proof using Hap Hr Hb HD.
  intros Ec. destruct Hb as [P1 P2 P3]. split; [done| |].
  - eapply bt_ext; [|exact P2]. intros k1. setoid_rewrite has_run_upd. split; intros (A1 & info1 & Hh1 & HD1 & Hc1 & Hs1); exists A1, info1.
    + assert (k1 ≠ k) by (intros ->; by rewrite Ec in Hc1). rewrite lookup_insert_ne by done. by split_and!; [right| | |].
    + destruct Hh1 as [(-> & _)|[Hne Hh1]]; [by rewrite lookup_insert_eq in HD1|]. rewrite lookup_insert_ne in HD1 by done. split_and!; try done.
      rewrite Ec. intros [= E]. apply Hne. by eapply kaddr_run.
  - intros k1 A1 info1 [(-> & _)|[Hne Hh1]]%has_run_upd HD1; [by rewrite lookup_insert_eq in HD1|].
    rewrite lookup_insert_ne in HD1 by done. by eapply P3.
Qed.

(** [t] is the tree without the run. *)
Lemma detach_tree t :
  runcur b ≠ Some (kaddr k) →
  bin_tree t (λ k', (∃ A info, has_run Al G bi k' A info ∧ D !! k' = None ∧
    runcur b ≠ Some (kaddr k') ∧ Z.of_nat (size A) < nregs info) ∧ k' ≠ k) →
  bin_ok Al (<[k := A']> G) (<[k := bi]> D) bi (set_bin_runs t b).
Proof using Hap Hr Hb HD.
  intros Hc Ht. destruct Hb as [P1 P2 P3]. split.
  - intros p Ep. cbn [runcur set_bin_runs] in Ep. destruct (P1 p Ep) as (k1 & A1 & info1 & -> & Hh1 & HD1). exists k1, A1, info1. assert (Hne : k1 ≠ k) by congruence.
    rewrite lookup_insert_ne, has_run_upd by done. by split_and!; [|right|].
  - eapply bt_ext; [|exact Ht]. intros k1. cbn [bin_runs runcur set_bin_runs]. setoid_rewrite has_run_upd. split.
    + intros [(A1 & info1 & Hh1 & HD1 & Hc1 & Hs1) Hne]. exists A1, info1. rewrite lookup_insert_ne by done. by split_and!; [right| | |].
    + intros (A1 & info1 & [(-> & _)|[Hne Hh1]] & HD1 & Hc1 & Hs1); [by rewrite lookup_insert_eq in HD1|].
      rewrite lookup_insert_ne in HD1 by done. split; [|done]. exists A1, info1. by split_and!.
  - intros k1 A1 info1 [(-> & _)|[Hne Hh1]]%has_run_upd HD1; [by rewrite lookup_insert_eq in HD1|].
    rewrite lookup_insert_ne in HD1 by done. by eapply P3.
Qed.

Lemma detach_full : runcur b ≠ Some (kaddr k) → nregs info ≤ Z.of_nat (size A) → bin_ok Al (<[k := A']> G) (<[k := bi]> D) bi b.
Proof using Hap Hr Hb HD.
  intros Hc Hf. replace b with (set_bin_runs (bin_runs b) b) by by destruct b. apply detach_tree; [done|].
  eapply bt_ext; [|apply Hb]. intros k1. cbv beta. split; [|tauto]. intros Hx. split; [done|]. intros ->.
  destruct Hx as (A1 & info1 & Hh1 & _ & _ & Hs1). destruct (has_run_inj _ _ _ _ _ _ _ _ _ Hr Hh1) as (_ & <- & <-). lia.
Qed.

(** The run stays where it is. *)
Lemma adjust :
  A' ≠ ∅ → runcur b = Some (kaddr k) ∨ (Z.of_nat (size A') < nregs info ↔ Z.of_nat (size A) < nregs info) →
  bin_ok Al (<[k := A']> G) D bi b.
Proof using Hap Hr Hb HD.
  intros Hne Hs. destruct Hb as [P1 P2 P3]. split.
  - intros p Ep. destruct (P1 p Ep) as (k1 & A1 & info1 & -> & Hh1 & HD1). destruct (decide (k1 = k)) as [->|Hk].
    + exists k, A', info. rewrite has_run_upd. split_and!; [done|by left|done].
    + exists k1, A1, info1. rewrite has_run_upd. by split_and!; [|right|].
  - eapply bt_ext; [|exact P2]. intros k1. setoid_rewrite has_run_upd. split.
    + intros (A1 & info1 & Hh1 & HD1 & Hc1 & Hs1). destruct (decide (k1 = k)) as [->|Hk]; [|by exists A1, info1; split_and!; [right|..]].
      destruct (has_run_inj _ _ _ _ _ _ _ _ _ Hr Hh1) as (_ & <- & <-). exists A', info. split_and!; [by left|done|done|].
      destruct Hs as [Hs|Hs]; [done|]. by apply Hs.
    + intros (A1 & info1 & [(-> & _ & -> & ->)|[Hk Hh1]] & HD1 & Hc1 & Hs1); [|by exists A1, info1].
      exists A, info. split_and!; [done..|]. destruct Hs as [Hs|Hs]; [done|]. by apply Hs.
  - intros k1 A1 info1 [(-> & _ & -> & ->)|[Hk Hh1]]%has_run_upd HD1; [done|by eapply P3].
Qed.
End detach.

Section attach.
Context A' (Hb : bin_ok Al G D bi b) (HD : D !! k = Some bi) (Hne : A' ≠ ∅).

Lemma attach_others k1 A1 info1 :
  (has_run Al (<[k := A']> G) bi k1 A1 info1 ∧ delete k D !! k1 = None) ↔
  (k1 = k ∧ A1 = A' ∧ info1 = info) ∨ (k1 ≠ k ∧ has_run Al G bi k1 A1 info1 ∧ D !! k1 = None).
Proof using Hr HD.
  rewrite has_run_upd. destruct (decide (k1 = k)) as [->|Hk].
  - rewrite lookup_delete_eq. naive_solver.
  - rewrite lookup_delete_ne by done. naive_solver.
Qed.

(** A run that the bin has is another one than the detached run. *)
Lemma attached_ne k1 : D !! k1 = None → k1 ≠ k.
Proof using HD. intros E ->. by rewrite HD in E. Qed.

(** [t] may hold the current run that the new one replaces. *)
Lemma attach_cur t :
  bin_tree t (λ k', ∃ A info, has_run Al G bi k' A info ∧ D !! k' = None ∧ Z.of_nat (size A) < nregs info) →
  bin_ok Al (<[k := A']> G) (delete k D) bi (set_runcur (Some (kaddr k)) (set_bin_runs t b)).
Proof using Hap Hr Hb HD Hne.
  intros Ht. destruct Hb as [P1 P2 P3]. split.
  - intros p [= <-]. exists k, A', info. split; [done|]. apply attach_others. by left.
  - eapply bt_ext; [|exact Ht]. intros k1. cbn [runcur set_runcur]. split.
    + intros (A1 & info1 & Hh1 & HD1 & Hs1). pose proof (attached_ne k1 HD1) as Hk. exists A1, info1.
      destruct (proj2 (attach_others k1 A1 info1)) as [? ?]; [by right|]. split_and!; try done. intros [= E]. apply Hk. by eapply kaddr_run.
    + intros (A1 & info1 & Hh1 & HD1 & Hc1 & Hs1). exists A1, info1.
      destruct (proj1 (attach_others k1 A1 info1)) as [(-> & _)|(? & ? & ?)]; [done|done|by split_and!].
  - intros k1 A1 info1 Hh1 HD1. destruct (proj1 (attach_others k1 A1 info1)) as [(-> & -> & _)|(? & ? & ?)]; [done|done|by eapply P3].
Qed.

Lemma attach_tree t :
  Z.of_nat (size A') < nregs info →
  bin_tree t (λ k', (∃ A info, has_run Al G bi k' A info ∧ D !! k' = None ∧
    runcur b ≠ Some (kaddr k') ∧ Z.of_nat (size A) < nregs info) ∨ k' = k) →
  bin_ok Al (<[k := A']> G) (delete k D) bi (set_bin_runs t b).
Proof using Hap Hr Hb HD Hne.
  intros Hs Ht. destruct Hb as [P1 P2 P3].
  assert (Hc : runcur b ≠ Some (kaddr k)).
  { intros Ec. destruct (P1 _ Ec) as (k1 & A1 & info1 & E & Hh1 & HD1). apply (attached_ne k1 HD1). by eapply kaddr_run. }
  split.
  - intros p Ep. destruct (P1 p Ep) as (k1 & A1 & info1 & -> & Hh1 & HD1). exists k1, A1, info1. split; [done|].
    apply attach_others. right. split_and!; [by apply attached_ne|done..].
  - eapply bt_ext; [|exact Ht]. intros k1. cbn [runcur set_bin_runs]. split.
    + intros [(A1 & info1 & Hh1 & HD1 & Hc1 & Hs1)| ->].
      * exists A1, info1. destruct (proj2 (attach_others k1 A1 info1)) as [? ?]; [right; split_and!; [by apply attached_ne|done..]|]. by split_and!.
      * exists A', info. destruct (proj2 (attach_others k A' info)) as [? ?]; [by left|]. by split_and!.
    + intros (A1 & info1 & Hh1 & HD1 & Hc1 & Hs1).
      destruct (proj1 (attach_others k1 A1 info1)) as [(-> & _)|(? & ? & ?)]; [done|by right|left]. exists A1, info1. by split_and!.
  - intros k1 A1 info1 Hh1 HD1. destruct (proj1 (attach_others k1 A1 info1)) as [(-> & -> & _)|(? & ? & ?)]; [done|done|by eapply P3].
Qed.
End attach.
End move.
End bins_ok.
