(* ===== verification/ArenaObj.v ===== *)
(** * Objects in an arena

    Where the objects lie, that they share no byte, how the map of objects
    follows the headers of runs, and the operations on a single run. *)

From S2P Require Import Prelude OrdTree Bitmap SizeClass BinInfo ArenaBits ChunkIface Arena ArenaMap ArenaTree ArenaInv ArenaRun ArenaDalloc ArenaPurge ArenaTrim ArenaBin ArenaBinInv.

(** The layouts of the bins are as [bin_info_init] computes them. *)
Class BinInfos `{Config} `{Opts} : Prop := {
  bi_len : Z.of_nat (length bin_infos) = NBINS;
  bi_ok i info : bin_infos !! i = Some info → bin_info_ok info;
  bi_size bin sz : 0 ≤ bin → reg_size_of bin = Some sz → ∃ info, bin_infos !! Z.to_nat bin = Some info ∧ reg_size info = sz;
  bi_lg : opt_lg_chunk ≤ 31;
  (* [abort] on a corrupt redzone needs redzones *)
  bi_redzone i info : bin_infos !! i = Some info → opt_junk = true → opt_abort = true → redzone_size info = 0
}.

(** The contents of the objects [O] stay. *)
Definition keeps (O : gmap Z Z) (f f' : Z → Z) : Prop := ∀ p n, O !! p = Some n → ∀ y, p ≤ y < p + n → f' y = f y.

Lemma keeps_refl O f : keeps O f f.
Proof. done. Qed.

Lemma keeps_trans O f1 f2 f3 : keeps O f1 f2 → keeps O f2 f3 → keeps O f1 f3.
Proof. intros P1 P2 p n E y Hy. by rewrite (P2 p n), (P1 p n). Qed.

Lemma keeps_mono O O' f f' : O ⊆ O' → keeps O' f f' → keeps O f f'.
Proof. intros Hs Hk p n E. apply Hk. by eapply lookup_weaken. Qed.

Lemma keeps_but O p n f f' : mem_but p n f f' → (∀ q m, O !! q = Some m → ranges_apart (p, n) (q, m)) → keeps O f f'.
Proof. intros Hm Ha q m E y Hy. apply Hm. specialize (Ha q m E). unfold ranges_apart in Ha. simpl in Ha. lia. Qed.

Section objects.
Context `{Config} `{Opts} {S : Type} `{CL : ChunkLayer S} {T : Type} `{OT : OrdTree T Z}.
Context `{!ChunkLayerLaws S} {FR : Frame} `{!OrdTreeLaws T Z} {HBI : BinInfos}.
Implicit Types (a : astate S T) (R Al : layout) (G : regions) (D : detached) (A : gset Z) (O : gmap Z Z)
  (k : Z * Z) (bi n p : Z) (d : bool) (info : arena_bin_info).

(** ** Where regions are *)

Lemma info_facts i info :
  bin_infos !! i = Some info → 0 < reg_size info ∧ 0 ≤ redzone_size info ∧ reg_interval info = reg_size info + 2 * redzone_size info ∧
  32 ≤ reg0_offset info - redzone_size info ∧ reg0_offset info + nregs info * reg_interval info - redzone_size info ≤ run_size info ∧
  1 ≤ nregs info ≤ 2048 ∧ info_ok (binfo info) ∧ nbits (binfo info) = nregs info.
Proof.
  intros Hb%bi_ok. destruct (bo_reg _ Hb) as (? & ? & ?). destruct (bo_bitmap _ Hb) as [? ?]. destruct (bo_info _ Hb) as [Hi ?].
  pose proof (bo_regions _ Hb). pose proof (bo_nregs _ Hb) as Hn. change RUN_MAXREGS with 2048 in Hn.
  pose proof (ok_nlevels _ Hi). pose proof (off_nonneg _ Hi (nlevels (binfo info))). unfold sizeof_run in *. split_and!; (done || lia).
Qed.

(** The regions with their redzones follow each other inside the run. *)
Lemma slot_in i info r j : bin_infos !! i = Some info → run_size info = r → 0 ≤ j < nregs info →
  32 ≤ reg0_offset info + reg_interval info * j - redzone_size info ∧
  reg0_offset info + reg_interval info * j - redzone_size info + reg_interval info ≤ r ∧
  redzone_size info + reg_size info + redzone_size info = reg_interval info.
Proof. intros E <- Hj. destruct (info_facts _ _ E) as (? & ? & ? & ? & ? & ? & _). nia. Qed.

Lemma slots_apart i info j j' : bin_infos !! i = Some info → 0 ≤ j → 0 ≤ j' → j ≠ j' →
  reg_interval info * j + reg_interval info ≤ reg_interval info * j' ∨ reg_interval info * j' + reg_interval info ≤ reg_interval info * j.
Proof. intros E ? ? ?. destruct (info_facts _ _ E) as (? & ? & ? & _). nia. Qed.

Lemma ro_range i info r A j : bin_infos !! i = Some info → run_ok info r A → j ∈ A → 0 ≤ j < nregs info.
Proof. intros E Hok Hj. destruct (info_facts _ _ E) as (_ & _ & _ & _ & _ & _ & _ & <-). by apply (ro_bits _ _ _ Hok). Qed.

(** A set of regions is no larger than the run. *)
Lemma regions_size A n : 0 ≤ n → (∀ i, i ∈ A → 0 ≤ i < n) → Z.of_nat (size A) ≤ n.
Proof.
  intros Hn HA. assert (Hs : A ⊆ list_to_set (seqZ 0 n)).
  { intros i Hi. apply elem_of_list_to_set, elem_of_seqZ. specialize (HA i Hi). lia. }
  apply subseteq_size in Hs. rewrite size_list_to_set in Hs by apply NoDup_seqZ. rewrite length_seqZ in Hs. lia.
Qed.

Lemma region_free A n : 0 ≤ n → (∀ i, i ∈ A → 0 ≤ i < n) → Z.of_nat (size A) < n → ∃ i, 0 ≤ i < n ∧ i ∉ A.
Proof.
  intros Hn HA Hs. destruct (decide (Forall (.∈ A) (seqZ 0 n))) as [Hf|Hf].
  - rewrite Forall_forall in Hf. assert (Hs' : list_to_set (seqZ 0 n) ⊆ A) by (intros i Hi%elem_of_list_to_set; by apply Hf).
    apply subseteq_size in Hs'. rewrite size_list_to_set in Hs' by apply NoDup_seqZ. rewrite length_seqZ in Hs'. lia.
  - apply not_Forall_Exists, Exists_exists in Hf as (i & Hi%elem_of_seqZ & Hn'); [|apply _]. exists i. split; [lia|done].
Qed.

(** ** A state and its objects *)

Record heap_at (C : list (Z * Z)) (N : list Z) a R G O D : Prop := {
  ha_inv : arena_inv a R C N;
  ha_bins : bins_ok (runs a) (bins a) (allocated R) G D;
  ha_objs p n : O !! p = Some n ↔ is_object (allocated R) G p n;
  ha_lstats : Z.of_nat (length (lstats (a_stats a))) = nlclasses
}.

Lemma inv_apart a R E pc p x C N : arena_at a R E pc p x C N → apart (allocated R).
Proof.
  intros Ha [c s] [c' s'] v v' [E1 _]%allocated_lookup [E2 _]%allocated_lookup Ek.
  destruct (raddr_inj _ _ _ _ _ _ _ _ (ac_lay _ _ _ (aa_core _ _ _ _ _ _ _ _ Ha)) E1 E2 Ek) as [-> ->]. done.
Qed.

Lemma bins_hdrs a R G D : bins_ok (runs a) (bins a) (allocated R) G D → run_hdrs a R.
Proof.
  intros Hb c s n k E. destruct k as [d|d|bi d]; [done..|].
  assert (Ea : allocated R !! (c, s) = Some (n, Small bi d)) by by apply allocated_lookup.
  destruct (bo_runs _ _ _ _ _ Hb _ _ _ _ Ea) as (_ & r & A & info & ? & ? & _ & ? & ? & _). exists r, info. by split_and!.
Qed.

(** Every object is inside an allocated run. *)
Lemma object_in C N a R G O D Al p n :
  heap_at C N a R G O D → Al ⊆ allocated R → is_object Al G p n →
  0 < n ∧ ∃ k m kd, Al !! k = Some (m, kd) ∧ 0 < m ∧ kaddr k ≤ p ∧ p + n ≤ kaddr k + m * PAGE.
Proof.
  intros [Ha Hb HO _] Hsub [([c s] & m & d & E0 & -> & ->)|([c s] & bi & A & info & i & ((m & d & E0) & EG & Ei) & Hi & -> & ->)];
    pose proof (lookup_weaken _ _ _ _ E0 Hsub) as E; pose proof E as [E' _]%allocated_lookup;
    destruct (at_run _ _ _ _ _ _ _ (aa_core _ _ _ _ _ _ _ _ Ha) E') as (_ & _ & _ & _ & _ & ? & _).
  - split; [change PAGE with 8192; lia|]. exists (c, s), m, (Large d). split_and!; (done || lia).
  - destruct (bo_runs _ _ _ _ _ Hb _ _ _ _ E) as (_ & r & A' & info' & _ & _ & EG' & Ei' & Es & Hok).
    rewrite Ei in Ei'. injection Ei' as <-. rewrite EG in EG'. injection EG' as <-.
    destruct (info_facts _ _ Ei) as (? & ? & ? & _). pose proof (ro_range _ _ _ _ _ Ei Hok Hi) as Hj.
    destruct (slot_in _ _ _ i Ei Es Hj) as (? & ? & ?).
    split; [done|]. exists (c, s), m, (Small bi d). unfold reg_addr. split_and!; (done || lia).
Qed.

Lemma obj_in C N a R G O D p n :
  heap_at C N a R G O D → O !! p = Some n →
  0 < n ∧ ∃ k m kd, allocated R !! k = Some (m, kd) ∧ 0 < m ∧ kaddr k ≤ p ∧ p + n ≤ kaddr k + m * PAGE.
Proof. intros Hh E%(ha_objs _ _ _ _ _ _ _ Hh). by eapply object_in. Qed.

(** What is written inside another run, or inside a region that is not the
    object, does not touch the object. *)
Lemma obj_run_apart C N a R G O D p n k m kd :
  heap_at C N a R G O D → O !! p = Some n → R !! k = Some (m, kd) →
  (∀ kd, allocated R !! k = Some (m, kd) → ¬ (kaddr k ≤ p < kaddr k + m * PAGE)) → ranges_apart (kaddr k, m * PAGE) (p, n).
Proof.
  intros Hh Ep Ek Hno. destruct (obj_in _ _ _ _ _ _ _ _ _ Hh Ep) as (Hn & [c' s'] & m' & kd' & E' & Hm' & ? & ?). pose proof E' as [E1 _]%allocated_lookup.
  destruct k as [c s]. destruct (decide ((c, s) = (c', s'))) as [[= <- <-]|Hne].
  - exfalso. rewrite Ek in E1. injection E1 as <- <-. apply (Hno kd E'). lia.
  - pose proof (runs_apart _ _ _ _ _ _ _ _ _ _ (ac_lay _ _ _ (aa_core _ _ _ _ _ _ _ _ (ha_inv _ _ _ _ _ _ _ Hh))) Ek E1 Hne) as Hap.
    unfold ranges_apart, kaddr in *. simpl in *. lia.
Qed.

Lemma obj_slot_apart C N a R G O D p n k bi A info i :
  heap_at C N a R G O D → O !! p = Some n → has_run (allocated R) G bi k A info → 0 ≤ i < nregs info → p ≠ reg_addr k info i →
  ranges_apart (reg_addr k info i - redzone_size info, reg_interval info) (p, n).
Proof.
  intros Hh Ep Hr Hi Hne. pose proof Hr as ((m & d & E) & EG & Ei). pose proof E as [E0 _]%allocated_lookup.
  destruct (bo_runs _ _ _ _ _ (ha_bins _ _ _ _ _ _ _ Hh) _ _ _ _ E) as (_ & _ & _ & info' & _ & _ & _ & Ei' & Es & _).
  rewrite Ei in Ei'. injection Ei' as <-. destruct (slot_in _ _ _ i Ei Es Hi) as (? & ? & ?).
  destruct (info_facts _ _ Ei) as (? & ? & ? & _).
  pose proof Ep as Hob. apply (ha_objs _ _ _ _ _ _ _ Hh) in Hob as [(k' & m' & d' & E' & -> & ->)|(k' & bi' & A' & info' & i' & Hr' & Hi' & -> & ->)].
  - assert (Hk : k ≠ k') by (intros ->; rewrite E in E'; done). pose proof E' as [E1 _]%allocated_lookup. destruct k as [c s], k' as [c' s'].
    pose proof (runs_apart _ _ _ _ _ _ _ _ _ _ (ac_lay _ _ _ (aa_core _ _ _ _ _ _ _ _ (ha_inv _ _ _ _ _ _ _ Hh))) E0 E1 Hk) as Hap.
    unfold ranges_apart, reg_addr, kaddr in *. simpl in *. lia.
  - destruct (has_run_hdr _ _ _ _ _ _ _ _ _ (ha_bins _ _ _ _ _ _ _ Hh) Hr') as (_ & r' & _ & _ & Hok').
    pose proof Hr' as ((m' & d' & E') & EG' & Ei'). pose proof (ro_range _ _ _ _ _ Ei' Hok' Hi') as Hj'.
    destruct (decide (k' = k)) as [->|Hk].
    + destruct (has_run_inj _ _ _ _ _ _ _ _ _ Hr Hr') as (_ & <- & <-). assert (Hii : i ≠ i') by congruence.
      destruct (slots_apart _ _ i i' Ei ltac:(lia) ltac:(lia) Hii); unfold ranges_apart, reg_addr in *; simpl; lia.
    + pose proof E' as [E1 _]%allocated_lookup.
      destruct (bo_runs _ _ _ _ _ (ha_bins _ _ _ _ _ _ _ Hh) _ _ _ _ E') as (_ & _ & _ & info'' & _ & _ & _ & Ei'' & Es' & _).
      rewrite Ei' in Ei''. injection Ei'' as <-. destruct (slot_in _ _ _ i' Ei' Es' Hj') as (? & ? & ?). destruct (info_facts _ _ Ei') as (? & ? & ? & _).
      destruct k as [c s], k' as [c' s'].
      pose proof (runs_apart _ _ _ _ _ _ _ _ _ _ (ac_lay _ _ _ (aa_core _ _ _ _ _ _ _ _ (ha_inv _ _ _ _ _ _ _ Hh))) E0 E1 ltac:(congruence)) as Hap.
      unfold ranges_apart, reg_addr, kaddr in *. simpl in *. lia.
Qed.

(** Two objects share no byte. *)
Lemma obj_apart C N a R G O D p n p' n' :
  heap_at C N a R G O D → O !! p = Some n → O !! p' = Some n' → p ≠ p' → ranges_apart (p, n) (p', n').
Proof.
  intros Hh Ep Ep' Hne. pose proof Ep as Hob. apply (ha_objs _ _ _ _ _ _ _ Hh) in Hob as [(k & m & d & E & -> & ->)|(k & bi & A & info & i & Hr & Hi & -> & ->)].
  - pose proof E as [E0 _]%allocated_lookup. eapply obj_run_apart; [exact Hh|exact Ep'|exact E0|]. intros kd' _ Hin.
    destruct (obj_in _ _ _ _ _ _ _ _ _ Hh Ep') as (Hn' & k' & m' & kd2 & E' & Hm' & ? & ?).
    apply (ha_objs _ _ _ _ _ _ _ Hh) in Ep' as [(k2 & m2 & d2 & E2 & -> & ->)|(k2 & bi & A & info & i & Hr & Hi & -> & ->)].
    + assert (Hk : k ≠ k2) by congruence. pose proof E2 as [E3 _]%allocated_lookup. destruct k as [c s], k2 as [c' s'].
      destruct (runs_apart _ _ _ _ _ _ _ _ _ _ (ac_lay _ _ _ (aa_core _ _ _ _ _ _ _ _ (ha_inv _ _ _ _ _ _ _ Hh))) E0 E3 Hk); simpl in *;
        unfold kaddr in *; simpl in *; change PAGE with 8192 in *; lia.
    + destruct (has_run_hdr _ _ _ _ _ _ _ _ _ (ha_bins _ _ _ _ _ _ _ Hh) Hr) as (_ & r' & _ & _ & Hok). pose proof Hr as ((m2 & d2 & E2) & EG' & Ei').
      pose proof (ro_range _ _ _ _ _ Ei' Hok Hi) as Hj.
      destruct (obj_slot_apart _ _ _ _ _ _ _ _ _ _ _ _ _ _ Hh Ep Hr Hj Hne) as [Hap|Hap]; simpl in Hap;
      destruct (info_facts _ _ Ei') as (? & ? & ? & _); lia.
  - destruct (has_run_hdr _ _ _ _ _ _ _ _ _ (ha_bins _ _ _ _ _ _ _ Hh) Hr) as (_ & r' & _ & _ & Hok). pose proof Hr as ((m2 & d2 & E2) & EG' & Ei').
    pose proof (ro_range _ _ _ _ _ Ei' Hok Hi) as Hj. destruct (info_facts _ _ Ei') as (? & ? & ? & _).
    destruct (obj_slot_apart _ _ _ _ _ _ _ _ _ _ _ _ _ _ Hh Ep' Hr Hj ltac:(congruence)) as [Hap|Hap]; simpl in Hap; unfold ranges_apart; simpl; lia.
Qed.

(** ** How the map of objects changes *)

(** An address is in one run only. *)
Lemma run_unique h R k k' m m' kd kd' p :
  layout_ok h R → R !! k = Some (m, kd) → R !! k' = Some (m', kd') →
  kaddr k ≤ p < kaddr k + m * PAGE → kaddr k' ≤ p < kaddr k' + m' * PAGE → k = k'.
Proof.
  intros Hl E E' Hp Hp'. destruct (decide (k = k')) as [|Hne]; [done|exfalso]. destruct k as [c s], k' as [c' s'].
  pose proof (runs_apart _ _ _ _ _ _ _ _ _ _ Hl E E' Hne) as Hap. unfold ranges_apart, kaddr in *. simpl in *. lia.
Qed.

(** Objects outside the run [k]. *)
Definition outside Al G k p n : Prop :=
  (∃ k' m d, Al !! k' = Some (m, Large d) ∧ p = kaddr k' ∧ n = m * PAGE) ∨
  (∃ k' bi A info i, k' ≠ k ∧ has_run Al G bi k' A info ∧ i ∈ A ∧ p = reg_addr k' info i ∧ n = reg_size info).

Lemma is_object_upd Al G bi k A info A' p n :
  has_run Al G bi k A info →
  is_object Al (<[k := A']> G) p n ↔ (∃ i, i ∈ A' ∧ p = reg_addr k info i ∧ n = reg_size info) ∨ outside Al G k p n.
Proof.
  intros Hr. unfold is_object, outside. setoid_rewrite (has_run_upd _ _ _ _ _ _ Hr). split.
  - intros [Hl|(k' & bi' & A1 & info1 & i & [(-> & -> & -> & ->)|[Hk Hr1]] & Hi & -> & ->)]; [by right; left|left; eauto|right; right].
    exists k', bi', A1, info1, i. by split_and!.
  - intros [(i & Hi & -> & ->)|[Hl|(k' & bi' & A1 & info1 & i & Hk & Hr1 & Hi & -> & ->)]]; [|by left|]; right.
    + exists k, bi, A', info, i. split_and!; [by left|done..].
    + exists k', bi', A1, info1, i. split_and!; [by right|done..].
Qed.

Lemma is_object_run Al G bi k A info p n :
  has_run Al G bi k A info →
  is_object Al G p n ↔ (∃ i, i ∈ A ∧ p = reg_addr k info i ∧ n = reg_size info) ∨ outside Al G k p n.
Proof. intros Hr. rewrite <- (is_object_upd Al G bi k A info A) by done. pose proof Hr as (_ & EG & _). by rewrite insert_id. Qed.

(** The regions of a run are inside it. *)
Lemma region_in ru (bs : list (arena_bin T)) Al G D bi k A info n d i :
  bins_ok ru bs Al G D → has_run Al G bi k A info → Al !! k = Some (n, Small bi d) → 0 ≤ i < nregs info →
  kaddr k + 32 ≤ reg_addr k info i - redzone_size info ∧
  reg_addr k info i - redzone_size info + reg_interval info ≤ kaddr k + n * PAGE ∧
  redzone_size info + reg_size info + redzone_size info = reg_interval info ∧ 0 < reg_size info ∧ 0 ≤ redzone_size info.
Proof.
  intros Hb (_ & EG & Ei) E Hi. destruct (bo_runs _ _ _ _ _ Hb _ _ _ _ E) as (_ & _ & _ & info' & _ & _ & _ & Ei' & Es & _).
  rewrite Ei in Ei'. injection Ei' as <-. destruct (slot_in _ _ _ i Ei Es Hi) as (? & ? & ?). destruct (info_facts _ _ Ei) as (? & ? & _).
  unfold reg_addr. lia.
Qed.

Lemma outside_ne C N a R G O D bi k A info i p n :
  heap_at C N a R G O D → has_run (allocated R) G bi k A info → 0 ≤ i < nregs info → outside (allocated R) G k p n → p ≠ reg_addr k info i.
Proof.
  intros Hh Hr Hi Ho Eq. pose proof Hr as ((m & d & E) & EG & Ei). pose proof E as [E1 _]%allocated_lookup.
  destruct (region_in _ _ _ _ _ _ _ _ _ _ _ i (ha_bins _ _ _ _ _ _ _ Hh) Hr E Hi) as (? & ? & ? & ? & ?).
  pose proof (ac_lay _ _ _ (aa_core _ _ _ _ _ _ _ _ (ha_inv _ _ _ _ _ _ _ Hh))) as Hl.
  destruct Ho as [(k' & m' & d' & E' & -> & ->)|(k' & bi' & A' & info' & i' & Hk & Hr' & Hi' & -> & ->)].
  - pose proof E' as [E2 _]%allocated_lookup. destruct (lay_run _ _ _ _ _ _ Hl (eq_trans (f_equal (R !!.) (eq_sym (surjective_pairing k'))) E2)) as (_ & _ & _ & _ & _ & ? & _).
    assert (k = k') as <-; [|rewrite E in E'; done]. eapply (run_unique _ _ _ _ _ _ _ _ (kaddr k')); [exact Hl|exact E1|exact E2|lia|].
    change PAGE with 8192. lia.
  - destruct (has_run_hdr _ _ _ _ _ _ _ _ _ (ha_bins _ _ _ _ _ _ _ Hh) Hr') as (_ & r' & _ & _ & Hok').
    pose proof Hr' as ((m' & d' & E') & EG' & Ei'). pose proof E' as [E2 _]%allocated_lookup. pose proof (ro_range _ _ _ _ _ Ei' Hok' Hi') as Hj'.
    destruct (region_in _ _ _ _ _ _ _ _ _ _ _ i' (ha_bins _ _ _ _ _ _ _ Hh) Hr' E' Hj') as (? & ? & ? & ? & ?).
    apply Hk. symmetry. eapply (run_unique _ _ _ _ _ _ _ _ (reg_addr k info i)); [exact Hl|exact E1|exact E2|lia|lia].
Qed.

Lemma reg_addr_inj k i info j j' : bin_infos !! i = Some info → reg_addr k info j = reg_addr k info j' → j = j'.
Proof. intros E Eq. destruct (info_facts _ _ E) as (? & ? & ? & _). unfold reg_addr in Eq. nia. Qed.

Lemma objs_alloc C N a R G O D bi k A info i :
  heap_at C N a R G O D → has_run (allocated R) G bi k A info → 0 ≤ i < nregs info → i ∉ A →
  O !! reg_addr k info i = None ∧
  ∀ p n, <[reg_addr k info i := reg_size info]> O !! p = Some n ↔ is_object (allocated R) (<[k := A ∪ {[i]}]> G) p n.
Proof.
  intros Hh Hr Hi Hn. pose proof Hr as (_ & _ & Ei). assert (Hnone : O !! reg_addr k info i = None).
  { destruct (O !! reg_addr k info i) as [n0|] eqn:E0; [|done]. exfalso.
    apply (ha_objs _ _ _ _ _ _ _ Hh), (is_object_run _ _ _ _ _ _ _ _ Hr) in E0 as [(i' & Hi' & Eq & _)|Ho].
    - apply (reg_addr_inj _ _ _ _ _ Ei) in Eq as ->. done.
    - by eapply outside_ne. }
  split; [done|]. intros p n. rewrite (is_object_upd _ _ _ _ _ _ _ _ _ Hr), lookup_insert_Some, (ha_objs _ _ _ _ _ _ _ Hh), (is_object_run _ _ _ _ _ _ _ _ Hr).
  split.
  - intros [[<- <-]|[Hne [(i' & Hi' & Eq)|Ho]]]; [left; exists i; split_and!; [set_solver|done..]|left; exists i'; split; [set_solver|done]|by right].
  - intros [(i' & Hi' & -> & ->)|Ho]; [|right; split; [|by right]; intros <-; by eapply outside_ne].
    destruct (decide (i' = i)) as [->|Hii]; [by left|right]. split; [intros Eq%(reg_addr_inj _ _ _ _ _ Ei); congruence|left; exists i'; set_solver].
Qed.

(** The region of a run is freed. *)
Lemma objs_free C N a R G O D bi k A info i :
  heap_at C N a R G O D → has_run (allocated R) G bi k A info → i ∈ A →
  ∀ p n, delete (reg_addr k info i) O !! p = Some n ↔ is_object (allocated R) (<[k := A ∖ {[i]}]> G) p n.
Proof.
  intros Hh Hr Hi p n. pose proof Hr as (_ & _ & Ei).
  destruct (has_run_hdr _ _ _ _ _ _ _ _ _ (ha_bins _ _ _ _ _ _ _ Hh) Hr) as (_ & r & _ & _ & Hok). pose proof (ro_range _ _ _ _ _ Ei Hok Hi) as Hj.
  rewrite (is_object_upd _ _ _ _ _ _ _ _ _ Hr), lookup_delete_Some, (ha_objs _ _ _ _ _ _ _ Hh), (is_object_run _ _ _ _ _ _ _ _ Hr). split.
  - intros [Hne [(i' & Hi' & -> & ->)|Ho]]; [left; exists i'|by right]. split_and!; [|done..].
    apply elem_of_difference. split; [done|]. intros ->%elem_of_singleton. done.
  - intros [(i' & [Hi' Hni]%elem_of_difference & -> & ->)|Ho]; [|split; [intros <-; by eapply outside_ne|by right]].
    split; [intros Eq%(reg_addr_inj _ _ _ _ _ Ei); set_solver|left; eauto].
Qed.

(** Runs without objects come and go. *)
Lemma objs_new_run Al G k n bi d p z :
  Al !! k = None → is_object (<[k := (n, Small bi d)]> Al) (<[k := ∅]> G) p z ↔ is_object Al G p z.
Proof.
  intros Hk. unfold is_object, has_run. split.
  - intros [(k' & m & d' & E & Eq)|(k' & bi' & A & info & i & ((n' & d' & E) & EG & Ei) & Hi & Eq)];
      (destruct (decide (k' = k)) as [->|Hne]; [rewrite lookup_insert_eq in E|rewrite lookup_insert_ne in E by done]); [done|left; eauto|..].
    + rewrite lookup_insert_eq in EG. injection EG as <-. set_solver.
    + rewrite lookup_insert_ne in EG by done. right. exists k', bi', A, info, i. split_and!; naive_solver.
  - intros [(k' & m & d' & E & Eq)|(k' & bi' & A & info & i & ((n' & d' & E) & EG & Ei) & Hi & Eq)];
      (assert (Hne : k' ≠ k) by congruence); [left; exists k', m, d'|right; exists k', bi', A, info, i]; rewrite ?lookup_insert_ne by done; [done|].
    split_and!; naive_solver.
Qed.

Lemma objs_drop_run Al G k n bi d p z :
  Al !! k = Some (n, Small bi d) → G !! k = Some ∅ → is_object (delete k Al) (delete k G) p z ↔ is_object Al G p z.
Proof.
  intros Hk HG. rewrite <- (objs_new_run (delete k Al) (delete k G) k n bi d) by apply lookup_delete_eq.
  by rewrite !insert_delete_id.
Qed.

(** A large run comes, as an object; [Al] may be part of the runs there were. *)
Lemma objs_add_large C N a R G O D Al O' h' R' k n d :
  heap_at C N a R G O D → Al ⊆ allocated R → (∀ p z, O' !! p = Some z ↔ is_object Al G p z) →
  layout_ok h' R' → Al !! k = None → allocated R' = <[k := (n, Large d)]> Al →
  O' !! kaddr k = None ∧ ∀ p z, <[kaddr k := n * PAGE]> O' !! p = Some z ↔ is_object (allocated R') G p z.
Proof.
  intros Hh Hsub HO Hl Hk Hal.
  assert (E1 : R' !! k = Some (n, Large d)) by (apply (proj1 (allocated_lookup R' k (n, Large d))); rewrite Hal; apply lookup_insert_eq).
  assert (Hn : 0 < n) by (destruct k as [c s]; by apply (lay_run _ _ _ _ _ _ Hl E1)).
  assert (Hnone : O' !! kaddr k = None).
  { destruct (O' !! kaddr k) as [z|] eqn:E; [|done]. exfalso. apply HO in E. destruct (object_in _ _ _ _ _ _ _ _ _ _ Hh Hsub E) as (Hz & k' & m & kd & E' & Hm & ? & ?).
    assert (Hne : k' ≠ k) by congruence. apply Hne.
    assert (E2 : R' !! k' = Some (m, kd)) by (apply (proj1 (allocated_lookup R' k' (m, kd))); by rewrite Hal, lookup_insert_ne).
    eapply (run_unique _ _ _ _ _ _ _ _ (kaddr k)); [exact Hl|exact E2|exact E1|lia|change PAGE with 8192; lia]. }
  split; [done|]. intros p z. rewrite lookup_insert_Some, HO. split.
  - intros [[<- <-]|[Hne [(k' & m & d' & E & -> & ->)|(k' & bi' & A & info & i & ((n' & d' & E) & EG & Ei) & Hi & -> & ->)]]].
    + left. exists k, n, d. rewrite Hal, lookup_insert_eq. done.
    + left. exists k', m, d'. rewrite Hal, lookup_insert_ne by congruence. done.
    + right. exists k', bi', A, info, i. split; [|done]. split; [|done]. exists n', d'. rewrite Hal, lookup_insert_ne by congruence. done.
  - intros Hob. assert (Hcase : (p = kaddr k ∧ z = n * PAGE) ∨ is_object Al G p z).
    { destruct Hob as [(k' & m & d' & E & -> & ->)|(k' & bi' & A & info & i & ((n' & d' & E) & EG & Ei) & Hi & -> & ->)]; rewrite Hal in E;
        apply lookup_insert_Some in E as [[<- [= <- <-]]|[Hne E]]; [by left|right; left; eauto 6|right; right].
      exists k', bi', A, info, i. split; [|done]. split; [|done]. eauto. }
    destruct Hcase as [[-> ->]|Hob']; [by left|right]. split; [|done]. intros <-. apply HO in Hob'. by rewrite Hnone in Hob'.
Qed.

Lemma objs_new_large C N a R G O D a' R' k n d :
  heap_at C N a R G O D → arena_inv a' R' C N → allocated R !! k = None → allocated R' = <[k := (n, Large d)]> (allocated R) →
  O !! kaddr k = None ∧ ∀ p z, <[kaddr k := n * PAGE]> O !! p = Some z ↔ is_object (allocated R') G p z.
Proof.
  intros Hh Ha' Hk Hal. eapply objs_add_large; [exact Hh|done|apply Hh|apply (aa_core _ _ _ _ _ _ _ _ Ha')|exact Hk|exact Hal].
Qed.

(** A large run goes. *)
Lemma objs_drop_large C N a R G O D k n d :
  heap_at C N a R G O D → allocated R !! k = Some (n, Large d) →
  ∀ p z, delete (kaddr k) O !! p = Some z ↔ is_object (delete k (allocated R)) G p z.
Proof.
  intros Hh Ek p z. pose proof Ek as [Er _]%allocated_lookup. pose proof (ac_lay _ _ _ (aa_core _ _ _ _ _ _ _ _ (ha_inv _ _ _ _ _ _ _ Hh))) as Hl.
  assert (Hn : 0 < n) by (destruct k as [c s]; by apply (lay_run _ _ _ _ _ _ Hl Er)).
  rewrite lookup_delete_Some, (ha_objs _ _ _ _ _ _ _ Hh). split.
  - intros [Hne [(k' & m & d' & E & -> & ->)|(k' & bi' & A & info & i & ((n' & d' & E) & EG & Ei) & Hi & -> & ->)]].
    + left. exists k', m, d'. rewrite lookup_delete_ne by congruence. done.
    + right. exists k', bi', A, info, i. split; [|done]. split; [|done]. exists n', d'. rewrite lookup_delete_ne; [done|]. intros <-. by rewrite Ek in E.
  - intros Hob. assert (Hob' : is_object (allocated R) G p z).
    { destruct Hob as [(k' & m & d' & [_ E]%lookup_delete_Some & Eq)|(k' & bi' & A & info & i & ((n' & d' & [_ E]%lookup_delete_Some) & EG & Ei) & Hi & Eq)];
        [left; eauto|right; exists k', bi', A, info, i]. split; [|done]. split; [|done]. eauto. }
    split; [|done]. intros <-. apply (ha_objs _ _ _ _ _ _ _ Hh) in Hob' as Ep.
    destruct Hob as [(k' & m & d' & [Hne E]%lookup_delete_Some & Eq & _)|(k' & bi' & A & info & i & Hr & Hi & Eq & ->)].
    + apply Hne. symmetry. eapply inv_apart; [apply Hh|exact E|exact Ek|by rewrite Eq].
    + destruct Hr as ((n' & d' & [Hne E]%lookup_delete_Some) & EG & Ei).
      assert (Hr : has_run (allocated R) G bi' k' A info) by (split_and!; eauto).
      destruct (has_run_hdr _ _ _ _ _ _ _ _ _ (ha_bins _ _ _ _ _ _ _ Hh) Hr) as (_ & r & _ & _ & Hok). pose proof (ro_range _ _ _ _ _ Ei Hok Hi) as Hj.
      eapply (outside_ne _ _ _ _ _ _ _ _ _ _ _ i _ _ Hh Hr Hj); [|exact Eq]. left. exists k, n, d. done.
Qed.
End objects.
