(* ===== verification/ArenaBinOps.v ===== *)
(** * Operations on the runs of a bin

    Regions are taken and given back, runs move between the current run and
    the tree of their bin, are created and released.  Every lemma shows that
    the operation returns and how the map of objects follows. *)

From S2P Require Import Prelude OrdTree Bitmap SizeClass BinInfo ArenaBits ChunkIface Arena ArenaMap ArenaTree ArenaInv ArenaRun ArenaDalloc ArenaPurge ArenaTrim ArenaBin ArenaBinInv ArenaObj.

Section ops.
Context `{Config} `{Opts} {S : Type} `{CL : ChunkLayer S} {T : Type} `{OT : OrdTree T Z}.
Context `{!ChunkLayerLaws S} {FR : Frame} `{!OrdTreeLaws T Z} {HBI : BinInfos}.
Implicit Types (a : astate S T) (R Al : layout) (G : regions) (D : detached) (A : gset Z) (O : gmap Z Z)
  (k : Z * Z) (bi n p : Z) (d : bool) (info : arena_bin_info) (b : arena_bin T).

(** ** Single accesses *)

Lemma wp_run_get a p r (Q : arena_run → astate S T → Prop) : runs a !! p = Some r → Q r a → wp (run_get p) a Q.
Proof. intros E HQ. unfold run_get. wsteps. by eapply wp_lift. Qed.

Lemma wp_info_get a bi info (Q : arena_bin_info → astate S T → Prop) :
  0 ≤ bi → bin_infos !! Z.to_nat bi = Some info → Q info a → wp (info_get bi) a Q.
Proof. intros Hb E HQ. unfold info_get. wsteps. apply wp_check; [by apply Z.leb_le|]. by eapply wp_lift. Qed.

Lemma wp_bin_get a bi b (Q : arena_bin T → astate S T → Prop) :
  0 ≤ bi → bins a !! Z.to_nat bi = Some b → Q b a → wp (bin_get bi) a Q.
Proof. intros Hb E HQ. unfold bin_get. wsteps. apply wp_check; [by apply Z.leb_le|]. wsteps. by eapply wp_lift. Qed.

Lemma wp_on_bin a bi b f (Q : unit → astate S T → Prop) :
  0 ≤ bi → bins a !! Z.to_nat bi = Some b → Q tt (set_bins (<[Z.to_nat bi := f b]> (bins a)) a) → wp (on_bin bi f) a Q.
Proof. intros Hb E HQ. unfold on_bin. wsteps. eapply wp_bin_get; [done..|]. unfold bin_set. by wsteps. Qed.

(** ** Regions *)

(** Taking the first free region. *)
Lemma wp_reg_alloc a k info r A i0 (Q : Z → astate S T → Prop) :
  bin_infos !! i0 = Some info → runs a !! kaddr k = Some r → run_ok info r A → Z.of_nat (size A) < nregs info →
  (∀ i r', 0 ≤ i < nregs info → i ∉ A → run_ok info r' (A ∪ {[i]}) → run_bin r' = run_bin r →
     Q (reg_addr k info i) (set_runs (<[kaddr k := r']> (runs a)) a)) →
  wp (arena_run_reg_alloc (kaddr k) info) a Q.
Proof.
  intros Ei Er [Hbits Hfree Hnext Hbelow] Hs HQ. destruct (info_facts _ _ Ei) as (_ & _ & _ & _ & _ & Hn & Hi & Enb).
  assert (HA : ∀ i, i ∈ A → 0 ≤ i < nregs info) by (intros i Hia; rewrite <- Enb; by apply Hbits).
  destruct (region_free A (nregs info)) as (j & Hj & HjA); [lia|done|done|].
  unfold arena_run_reg_alloc. wsteps. eapply wp_run_get; [exact Er|]. wsteps. apply wp_check; [apply Z.ltb_lt; lia|]. wsteps.
  eapply wp_lift; [by apply full_ok|]. wsteps. apply wp_check.
  { rewrite bool_decide_false; [done|]. rewrite Forall_forall. intros Hf. apply HjA, Hf, elem_of_seqZ. lia. }
  wsteps. destruct (sfu_ok _ Hi A (run_bitmap r) Hbits) as (bm & i & Esfu & Hir & HiA & Hlow & Hbm); [exists j; split; [lia|done]|].
  eapply wp_lift; [exact Esfu|]. cbv beta iota zeta. wsteps. rewrite Enb in Hir.
  assert (Hle : i ≤ nextind r).
  { destruct (decide (i = 0)) as [->|Hne]; [lia|]. specialize (Hbelow (i - 1) (Hlow (i - 1) ltac:(lia))). lia. }
  set (next := if i =? nextind r then u32 (nextind r + 1) else nextind r).
  assert (Hnx : i < next ∧ nextind r ≤ next ≤ nregs info).
  { unfold next. destruct (Z.eqb_spec i (nextind r)); [rewrite u32_small by (split; lia)|]; lia. }
  apply wp_check; [apply Z.ltb_lt, Hnx|]. unfold run_set. wsteps.
  replace (kaddr k + reg0_offset info + reg_interval info * i) with (reg_addr k info i) by done.
  apply HQ; [done..| |done]. split; cbn [run_bitmap nfree nextind]; [done| |lia|].
  - rewrite size_union by set_solver. rewrite size_singleton, u32_small by (split; lia). lia.
  - intros i' [Hi'| ->%elem_of_singleton]%elem_of_union; [specialize (Hbelow i' Hi'); lia|lia].
Qed.

(** The pages of a small run. *)
Lemma small_word_at h R c s n bi d i :
  layout_ok h R → R !! (c, s) = Some (n, Small bi d) → s ≤ i < s + n →
  ∃ w dd, bits_at h c i = Some w ∧ small_ok w (i - s) bi dd.
Proof.
  intros Hl E Hi. destruct (lay_run _ _ _ _ _ _ Hl E) as (_ & _ & _ & _ & _ & _ & _ & [_ Hw]).
  destruct (Hw (i - s)) as (w & Ew & Hok); [lia|]. replace (s + (i - s)) with i in Ew by lia. eauto.
Qed.

Lemma wp_run_of_page a R c s n bi d i (Q : Z → astate S T → Prop) :
  layout_ok (hdrs a) R → R !! (c, s) = Some (n, Small bi d) → s ≤ i < s + n → Q (raddr c s) a → wp (run_of_page c i) a Q.
Proof.
  intros Hl E Hi HQ. destruct (small_word_at _ _ _ _ _ _ _ _ Hl E Hi) as (w & dd & Ew & Hok). unfold run_of_page. wsteps.
  eapply wp_runind; [exists w; split; [exact Ew|exact Hok]|]. wsteps. rewrite shiftl_page. by replace (i - (i - s)) with s by lia.
Qed.

(** The page of an address inside a run. *)
Lemma page_of c s n p :
  raddr c s ≤ p < raddr c s + n * PAGE → s ≤ Z.shiftr (p - c) LG_PAGE < s + n.
Proof.
  intros Hp. unfold raddr in Hp. rewrite Z.shiftr_div_pow2 by done. change (2 ^ LG_PAGE) with PAGE. change PAGE with 8192 in *.
  split; [apply Z.div_le_lower_bound; lia|apply Z.div_lt_upper_bound; lia].
Qed.

Lemma run_base h R c s n kd : layout_ok h R → R !! (c, s) = Some (n, kd) → CHUNK_ADDR2BASE (raddr c s) = c.
Proof. intros Hl E. destruct (lay_run _ _ _ _ _ _ Hl E) as (_ & _ & ? & _ & ? & ? & ? & _). apply raddr_base; [done|split; lia]. Qed.

(** The chunk of an address inside a run. *)
Lemma in_run_base h R c s n kd p :
  layout_ok h R → R !! (c, s) = Some (n, kd) → raddr c s ≤ p < raddr c s + n * PAGE → CHUNK_ADDR2BASE p = c ∧ c < p.
Proof.
  intros Hl E Hp. destruct (lay_run _ _ _ _ _ _ Hl E) as (_ & _ & Hc & _ & ? & ? & ? & _). destruct page_facts as (? & _). pose proof chunksize_pages.
  unfold raddr in Hp. change PAGE with 8192 in *. split; [|lia]. replace p with (c + (p - c)) by lia. apply addr2base; [done|nia].
Qed.

(** Giving a region back. *)
Lemma wp_reg_dalloc a R c s n bi d info r A i (Q : unit → astate S T → Prop) :
  layout_ok (hdrs a) R → R !! (c, s) = Some (n, Small bi d) → 0 ≤ bi → bin_infos !! Z.to_nat bi = Some info → run_size info = n * PAGE →
  runs a !! raddr c s = Some r → run_ok info r A → i ∈ A →
  (∀ r', run_ok info r' (A ∖ {[i]}) → run_bin r' = run_bin r → Q tt (set_runs (<[raddr c s := r']> (runs a)) a)) →
  wp (arena_run_reg_dalloc (raddr c s) (reg_addr (c, s) info i)) a Q.
Proof.
  intros Hl E Hbi Ei Es Er Hok Hi HQ. pose proof Hok as [Hbits Hfree Hnext Hbelow].
  destruct (info_facts _ _ Ei) as (Hrs & Hrz & Hint & H32 & _ & Hn & Hii & Enb).
  pose proof (ro_range _ _ _ _ _ Ei Hok Hi) as Hir. destruct (slot_in _ _ _ i Ei Es Hir) as (? & ? & ?).
  unfold arena_run_reg_dalloc. cbv zeta. rewrite (run_base _ _ _ _ _ _ Hl E).
  assert (Hpg : s ≤ Z.shiftr (reg_addr (c, s) info i - c) LG_PAGE < s + n).
  { apply page_of. unfold reg_addr, kaddr. simpl. lia. }
  destruct (small_word_at _ _ _ _ _ _ _ _ Hl E Hpg) as (w & dd & Ew & (_ & _ & _ & Hbin)). wsteps. eapply wp_get; [exact Ew|]. wsteps. rewrite Hbin.
  eapply wp_info_get; [done|exact Ei|]. wsteps.
  assert (Hri : arena_run_regind (raddr c s) info (reg_addr (c, s) info i) = Some i).
  { unfold reg_addr, kaddr. simpl. rewrite (Z.mul_comm (reg_interval info)). apply regind_ok; [|done|change RUN_MAXREGS with 2048; lia|];
      pose proof (bo_run _ (bi_ok _ _ Ei)) as [? _]; pose proof (maxclass_31 bi_lg); nia. }
  eapply wp_lift; [exact Hri|]. wsteps. eapply wp_run_get; [exact Er|]. wsteps.
  assert (Hsz : (size A ≥ 1)%nat) by (apply (non_empty_inhabited_L i) in Hi; destruct (decide (size A = 0%nat)) as [E0|]; [by apply size_empty_inv, leibniz_equiv in E0|lia]).
  apply wp_check; [apply Z.ltb_lt; lia|]. wsteps. apply wp_check.
  { apply Z.eqb_eq. unfold reg_addr, kaddr. simpl. replace (raddr c s + reg0_offset info + reg_interval info * i - (raddr c s + reg0_offset info)) with (i * reg_interval info) by lia.
    apply Z.mod_mul. lia. }
  wsteps. apply wp_check; [apply Z.leb_le; unfold reg_addr, kaddr; simpl; nia|]. wsteps.
  eapply wp_lift; [apply (get_ok _ Hii _ _ _ Hbits); lia|]. wsteps. apply wp_check; [by apply bool_decide_eq_true|]. wsteps.
  destruct (unset_ok _ Hii A (run_bitmap r) i Hbits Hi) as (bm & Eun & Hbm). eapply wp_lift; [exact Eun|]. unfold run_set. wsteps.
  apply HQ; [|done]. split; cbn [run_bitmap nfree nextind]; [done| |lia|].
  - assert (Z.of_nat (size A) ≤ nregs info) by (apply regions_size; [lia|]; intros; by eapply ro_range).
    rewrite size_difference by set_solver. rewrite size_singleton, u32_small by (split; lia). lia.
  - intros i' [Hi' _]%elem_of_difference. by apply Hbelow.
Qed.

(** ** Changes of a bin *)

Section heap.
Context (C : list (Z * Z)) (N : list Z).
Abbreviation heap := (heap_at C N).

Lemma heap_lay a R G O D : heap a R G O D → layout_ok (hdrs a) R.
Proof. intros Hh. apply (ac_lay _ _ _ (aa_core _ _ _ _ _ _ _ _ (ha_inv _ _ _ _ _ _ _ Hh))). Qed.

Lemma heap_apart a R G O D : heap a R G O D → apart (allocated R).
Proof. intros Hh. eapply inv_apart, (ha_inv _ _ _ _ _ _ _ Hh). Qed.

Lemma lay_key h R k v : layout_ok h R → allocated R !! k = Some v → run_key k.
Proof.
  intros Hl [E _]%allocated_lookup. destruct k as [c s], v as [n kd].
  destruct (lay_run _ _ _ _ _ _ Hl E) as (_ & _ & ? & ? & ? & ? & ? & _). split_and!; [done..|]. split; simpl; lia.
Qed.

Lemma heap_key a R G O D k v : heap a R G O D → allocated R !! k = Some v → run_key k.
Proof. intros Hh. eapply lay_key, heap_lay, Hh. Qed.

(** The chunk of an object, which its header pages and the chunks of others are not part of. *)
Lemma chunk_owned a R G O D c :
  heap a R G O D → is_Some (hdrs a !! c) → chunk_range c chunksize ∧ Forall (ranges_apart (c, chunksize)) C.
Proof.
  intros Hh Hc. destruct (aa_owns _ _ _ _ _ _ _ _ (ha_inv _ _ _ _ _ _ _ Hh)) as (L & _ & HL & Hi & _). apply HL in Hc. destruct (proj1 (elem_of_Permutation _ _) Hc) as [L' HL'].
  assert (Hi' : cl_inv (a_chunks a) ((c, chunksize) :: ((λ c, (c, chunksize)) <$> L') ++ C) N) by (eapply cl_perm; [|done|exact Hi]; by rewrite HL').
  split; [by eapply cl_range|]. apply cl_apart in Hi'. by apply Forall_app in Hi' as [_ ?].
Qed.

Lemma obj_chunk a R G O D p n :
  heap a R G O D → O !! p = Some n →
  let c := CHUNK_ADDR2BASE p in
  0 < n ∧ is_Some (hdrs a !! c) ∧ c + map_bias * PAGE ≤ p ∧ p + n ≤ c + chunksize ∧ c + chunksize ≤ 2 ^ 47 ∧ Forall (ranges_apart (p, n)) C.
Proof.
  intros Hh Ep. destruct (obj_in _ _ _ _ _ _ _ _ _ Hh Ep) as (Hn & [c s] & m & kd & [Ek _]%allocated_lookup & Hm & H1 & H2).
  pose proof (heap_lay _ _ _ _ _ Hh) as Hl. destruct (lay_run _ _ _ _ _ _ Hl Ek) as (_ & Hc & _ & _ & Hs & _ & Hsm & _).
  unfold kaddr in H1, H2. simpl in H1, H2. destruct (in_run_base _ _ _ _ _ _ p Hl Ek) as [Eb _]; [lia|]. cbv zeta. rewrite Eb.
  destruct (chunk_owned _ _ _ _ _ _ Hh Hc) as ((_ & _ & _ & _ & H47) & Hap). pose proof chunksize_pages as Hcp.
  unfold raddr in H1, H2. change PAGE with 8192 in *. split_and!; [done|done|nia|nia|done|].
  eapply Forall_impl; [exact Hap|]. intros [q z] Hq. unfold ranges_apart in *. simpl in *. destruct page_facts as (? & _). change PAGE with 8192 in *. nia.
Qed.

(** What [heap_at] does not look at. *)
Lemma heap_same a a' R G O D :
  hdrs a' = hdrs a → (∀ d, avail d a' = avail d a) → spare a' = spare a → chunks_dirty a' = chunks_dirty a →
  ndirty a' = ndirty a → nactive a' = nactive a → mapped (a_stats a') = mapped (a_stats a) → a_chunks a' = a_chunks a →
  runs a' = runs a → bins a' = bins a → length (lstats (a_stats a')) = length (lstats (a_stats a)) →
  (framed C (a_mem a) → framed C (a_mem a')) → heap a R G O D → heap a' R G O D.
Proof.
  intros E1 E2 E3 E4 E5 E6 E7 E8 E9 E10 E11 E12 [Ha Hb HO HS]. split; [by eapply at_same; [..|exact Ha]|by rewrite E9, E10|done|by rewrite E11].
Qed.

(** Writing to the pages of a run, to a region or to an object. *)
Lemma heap_mem a f R G O D c s m kd p n :
  heap a R G O D → R !! (c, s) = Some (m, kd) → mem_but p n (a_mem a) f → raddr c s ≤ p → p + n ≤ raddr c s + m * PAGE →
  heap (set_amem f a) R G O D.
Proof.
  intros Hh Hr Hf Hp1 Hp2. destruct (lay_run _ _ _ _ _ _ (heap_lay _ _ _ _ _ Hh) Hr) as (_ & Hc & _ & _ & ? & ? & ? & _).
  eapply heap_same; [..|exact Hh]; [done..|]. intros _. eapply (owns_write a C N c); [apply Hh|exact Hc|]. intros y Hy. apply Hf.
  pose proof chunksize_pages. pose proof page_facts as (? & _). unfold raddr in *. change PAGE with 8192 in *. lia.
Qed.

Lemma heap_slot_mem a f R G O D bi k A info i :
  heap a R G O D → has_run (allocated R) G bi k A info → 0 ≤ i < nregs info →
  mem_but (reg_addr k info i - redzone_size info) (reg_interval info) (a_mem a) f → heap (set_amem f a) R G O D.
Proof.
  intros Hh Hr Hi Hm. pose proof Hr as ((n & d & Ek) & _). destruct k as [c s]. pose proof Ek as [Ek' _]%allocated_lookup.
  destruct (region_in _ _ _ _ _ _ _ _ _ _ _ i (ha_bins _ _ _ _ _ _ _ Hh) Hr Ek Hi) as (? & ? & _). unfold kaddr in *. simpl in *.
  eapply heap_mem; [exact Hh|exact Ek'|exact Hm|lia|lia].
Qed.

Lemma heap_obj_mem a f R G O D p n q len :
  heap a R G O D → O !! p = Some n → mem_but q len (a_mem a) f → p ≤ q → q + len ≤ p + n → heap (set_amem f a) R G O D.
Proof.
  intros Hh Ep Hm Hq Hl. destruct (obj_in _ _ _ _ _ _ _ _ _ Hh Ep) as (_ & [c s] & m & kd & [Ek _]%allocated_lookup & _ & ? & ?).
  unfold kaddr in *. simpl in *. eapply heap_mem; [exact Hh|exact Ek|exact Hm|lia|lia].
Qed.

Lemma heap_set a ru bs R G O D G' O' D' :
  heap a R G O D → bins_ok ru bs (allocated R) G' D' → (∀ p n, O' !! p = Some n ↔ is_object (allocated R) G' p n) →
  heap (set_bins bs (set_runs ru a)) R G' O' D'.
Proof. intros [Ha Hb HO HS] Hb' HO'. split; [by eapply at_same; [..|exact Ha]|done|done|done]. Qed.

(** The bin of a run changes, and with it whether the run is detached. *)
Lemma heap_bin_run a R G O D D' bi k A info b' :
  heap a R G O D → has_run (allocated R) G bi k A info →
  (∀ k', k' ≠ k → D' !! k' = D !! k') → (D' !! k = None ∨ D' !! k = Some bi) → bin_ok (allocated R) G D' bi b' →
  heap (set_bins (<[Z.to_nat bi := b']> (bins a)) a) R G O D'.
Proof.
  intros Hh Hr HD HDk Hb'. destruct (has_run_hdr _ _ _ _ _ _ _ _ _ (ha_bins _ _ _ _ _ _ _ Hh) Hr) as (_ & r & Er & Ebin & Hok).
  pose proof Hr as (_ & EG & _). apply (heap_set a (runs a) _ R G O D G O D' Hh); [|apply Hh].
  rewrite <- (insert_id _ _ _ Er), <- (insert_id _ _ _ EG). eapply (bins_update _ _ _ _ _ _ _ _ _ _ _ info); [apply Hh|by eapply heap_apart|done..|].
  by rewrite insert_id.
Qed.

(** The bin changes without a change of attached runs. *)
Lemma heap_bin a R G O D bi b' :
  heap a R G O D → 0 ≤ bi < NBINS → bin_ok (allocated R) G D bi b' → heap (set_bins (<[Z.to_nat bi := b']> (bins a)) a) R G O D.
Proof.
  intros Hh Hbi Hb'. pose proof (ha_bins _ _ _ _ _ _ _ Hh) as Hb. apply (heap_set a (runs a) _ R G O D G O D Hh); [|apply Hh]. split; [|apply Hb| |apply Hb].
  - rewrite length_insert. apply Hb.
  - intros bi1 b1 Hge E1. destruct (decide (bi1 = bi)) as [->|Hne].
    + rewrite list_lookup_insert_eq in E1 by (pose proof (bo_len _ _ _ _ _ Hb); lia). by injection E1 as <-.
    + rewrite list_lookup_insert_ne in E1 by lia. by eapply bo_bins.
Qed.

Lemma bin_ok_st Al G D bi b f : bin_ok Al G D bi b → bin_ok Al G D bi (set_bin_st f b).
Proof. by intros []; split. Qed.

Lemma heap_get a R G O D bi : heap a R G O D → 0 ≤ bi < NBINS → ∃ b, bins a !! Z.to_nat bi = Some b ∧ bin_ok (allocated R) G D bi b.
Proof. intros Hh. apply (bins_lookup _ _ _ _ _ _ (ha_bins _ _ _ _ _ _ _ Hh)). Qed.

(** Statistics. *)
Lemma wp_bin_st a R G O D bi f (Q : unit → astate S T → Prop) :
  heap a R G O D → 0 ≤ bi < NBINS →
  (∀ a', heap a' R G O D → a_mem a' = a_mem a → Q tt a') → wp (on_bin bi (set_bin_st f)) a Q.
Proof.
  intros Hh Hbi HQ. destruct (heap_get _ _ _ _ _ _ Hh Hbi) as (b & Eb & Hb). eapply wp_on_bin; [lia|exact Eb|].
  apply HQ; [|done]. apply heap_bin; [done..|]. by apply bin_ok_st.
Qed.

(** ** The tree of a bin *)

Lemma wp_runs_insert a R G O D bi b k v (X : Z * Z → Prop) (Q : unit → astate S T → Prop) :
  heap a R G O D → allocated R !! k = Some v → 0 ≤ bi → bins a !! Z.to_nat bi = Some b → bin_tree (bin_runs b) X → ¬ X k →
  (∀ t, bin_tree t (λ k', X k' ∨ k' = k) → Q tt (set_bins (<[Z.to_nat bi := set_bin_runs t b]> (bins a)) a)) →
  wp (arena_bin_runs_insert bi (kaddr k)) a Q.
Proof.
  intros Hh Ek Hbi Eb Ht Hx HQ. pose proof (heap_key _ _ _ _ _ _ _ Hh Ek) as Hk. pose proof Ek as [Ek' _]%allocated_lookup. destruct k as [c s], v as [n kd].
  unfold arena_bin_runs_insert, kaddr. cbv zeta. cbn [fst snd]. rewrite (run_base _ _ _ _ _ _ (heap_lay _ _ _ _ _ Hh) Ek'), raddr_page. wsteps.
  apply wp_mapp; [apply Hk|]. wsteps. eapply wp_bin_get; [done|exact Eb|]. wsteps.
  apply wp_check; [apply bool_decide_eq_true; by apply (bt_search _ _ _ Ht)|]. wsteps.
  destruct (bt_insert _ _ _ Ht Hk Hx) as (t & Et & Ht'). eapply wp_lift; [exact Et|]. unfold bin_set. wsteps. by apply HQ.
Qed.

Lemma wp_runs_remove a R bi b k (X : Z * Z → Prop) (Q : unit → astate S T → Prop) :
  layout_ok (hdrs a) R → is_Some (allocated R !! k) → 0 ≤ bi → bins a !! Z.to_nat bi = Some b → bin_tree (bin_runs b) X → X k →
  (∀ t, bin_tree t (λ k', X k' ∧ k' ≠ k) → Q tt (set_bins (<[Z.to_nat bi := set_bin_runs t b]> (bins a)) a)) →
  wp (arena_bin_runs_remove bi (kaddr k)) a Q.
Proof.
  intros Hl [v Ek] Hbi Eb Ht Hx HQ. pose proof (lay_key _ _ _ _ Hl Ek) as Hk. pose proof Ek as [Ek' _]%allocated_lookup. destruct k as [c s], v as [n kd].
  unfold arena_bin_runs_remove, kaddr. cbv zeta. cbn [fst snd]. rewrite (run_base _ _ _ _ _ _ Hl Ek'), raddr_page. wsteps.
  apply wp_mapp; [apply Hk|]. wsteps. eapply wp_bin_get; [done|exact Eb|]. wsteps.
  apply wp_check; [rewrite bool_decide_false; [done|]; intros E; by apply (bt_search _ _ _ Ht Hk) in E|]. wsteps.
  destruct (bt_remove _ _ _ Ht Hx) as (t & Et & Ht'). eapply wp_lift; [exact Et|]. unfold bin_set. wsteps. by apply HQ.
Qed.

(** A run with free regions, not the current one, leaves the tree. *)
Lemma wp_tryget a R G O D bi (Q : option Z → astate S T → Prop) :
  heap a R G O D → 0 ≤ bi < NBINS → Q None a →
  (∀ a' k A info, heap a' R G O (<[k := bi]> D) → a_mem a' = a_mem a → has_run (allocated R) G bi k A info → D !! k = None →
     A ≠ ∅ → Z.of_nat (size A) < nregs info → Q (Some (kaddr k)) a') →
  wp (arena_bin_nonfull_run_tryget bi) a Q.
Proof.
  intros Hh Hbi Hnone Hsome. destruct (heap_get _ _ _ _ _ _ Hh Hbi) as (b & Eb & Hb). unfold arena_bin_nonfull_run_tryget, arena_bin_runs_first. wsteps.
  eapply wp_bin_get; [lia|exact Eb|]. pose proof (bt_first _ _ (bk_tree _ _ _ _ _ Hb)) as Hf. destruct (ot_first (bin_runs b)) as [m|]; [|by wsteps].
  destruct Hf as ([c s] & -> & Hx). pose proof Hx as (A & info & Hr & HD & Hc & Hs). pose proof Hr as ((n & d & Ek) & EG & Ei).
  pose proof Ek as [Ek' _]%allocated_lookup. pose proof (heap_key _ _ _ _ _ _ _ Hh Ek) as (Hk1 & Hk2 & Hk3). cbn [fst snd] in Hk1, Hk2, Hk3.
  unfold elm. cbn [fst snd]. rewrite mapelm_base, mapelm_page_ok by done. wsteps.
  destruct (lay_run _ _ _ _ _ _ (heap_lay _ _ _ _ _ Hh) Ek') as (_ & _ & _ & _ & _ & ? & _).
  eapply wp_run_of_page; [by eapply heap_lay|exact Ek'|lia|]. wsteps. change (raddr c s) with (kaddr (c, s)).
  eapply wp_runs_remove; [by eapply heap_lay|by eexists|lia|exact Eb|apply Hb|exact Hx|]. intros t Ht. wsteps.
  pose proof (detach_tree _ _ _ _ _ _ _ _ (heap_apart _ _ _ _ _ Hh) Hr A Hb HD t Hc Ht) as Hb'. rewrite (insert_id _ _ _ EG) in Hb'.
  assert (Hh' : heap (set_bins (<[Z.to_nat bi := set_bin_runs t b]> (bins a)) a) R G O (<[(c, s) := bi]> D)).
  { eapply heap_bin_run; [exact Hh|exact Hr| |right; apply lookup_insert_eq|exact Hb']. intros k' Hne. by rewrite lookup_insert_ne. }
  eapply wp_bin_st; [exact Hh'|done|]. intros a' Ha' Hm. wsteps. eapply Hsome; [exact Ha'|done|exact Hr|done| |done]. by eapply (bk_used _ _ _ _ _ Hb).
Qed.

(** Whether the current run has a free region. *)
Lemma wp_runcur_free a R G O D bi b (Q : option Z → astate S T → Prop) :
  heap a R G O D → 0 ≤ bi < NBINS → bins a !! Z.to_nat bi = Some b →
  ((∀ k A info, runcur b = Some (kaddr k) → has_run (allocated R) G bi k A info → nregs info ≤ Z.of_nat (size A)) → Q None a) →
  (∀ k A info, runcur b = Some (kaddr k) → has_run (allocated R) G bi k A info → D !! k = None →
     Z.of_nat (size A) < nregs info → Q (Some (kaddr k)) a) →
  wp (runcur_free bi) a Q.
Proof.
  intros Hh Hbi Eb Hnone Hsome. pose proof (bo_bins _ _ _ _ _ (ha_bins _ _ _ _ _ _ _ Hh) bi b ltac:(lia) Eb) as Hb. unfold runcur_free. wsteps.
  eapply wp_bin_get; [lia|exact Eb|]. destruct (runcur b) as [p|] eqn:Ec; [|wsteps; apply Hnone; by intros].
  destruct (bk_cur _ _ _ _ _ Hb p Ec) as (k & A & info & -> & Hr & HD).
  destruct (has_run_hdr _ _ _ _ _ _ _ _ _ (ha_bins _ _ _ _ _ _ _ Hh) Hr) as (_ & r & Er & _ & Hok). wsteps. eapply wp_run_get; [exact Er|]. wsteps.
  pose proof (ro_free _ _ _ Hok) as Hfr. destruct (Z.ltb_spec 0 (nfree r)) as [Hlt|Hge]; [eapply Hsome; [done|exact Hr|done|lia]|].
  apply Hnone. intros k1 A1 info1 [= E1] Hr1.
  pose proof (kaddr_run _ _ _ _ _ _ (heap_apart _ _ _ _ _ Hh) Hr1 _ _ _ Hr E1) as ->.
  destruct (has_run_inj _ _ _ _ _ _ _ _ _ Hr Hr1) as (_ & <- & <-). lia.
Qed.

Lemma clear_cur Al G D bi b :
  (∀ k A info, runcur b = Some (kaddr k) → has_run Al G bi k A info → nregs info ≤ Z.of_nat (size A)) →
  bin_ok Al G D bi b → bin_ok Al G D bi (set_runcur None b).
Proof.
  intros Hf [P1 P2 P3]. split; [done| |done]. eapply bt_ext; [|exact P2]. intros k. cbn [runcur set_runcur].
  split; intros (A & info & Hr & HD & Hc & Hs); exists A, info; split_and!; try done. intros Ec. specialize (Hf k A info Ec Hr). lia.
Qed.

(** The non-full attached runs, when the current run is full or in the tree. *)
Lemma tree_without_cur Al G D bi b :
  (∀ k A info, runcur b = Some (kaddr k) → has_run Al G bi k A info → nregs info ≤ Z.of_nat (size A)) →
  bin_ok Al G D bi b → bin_tree (bin_runs b) (λ k, ∃ A info, has_run Al G bi k A info ∧ D !! k = None ∧ Z.of_nat (size A) < nregs info).
Proof.
  intros Hf Hb. eapply bt_ext; [|apply Hb]. intros k. split; intros (A & info & Hr & HD & Hs); exists A, info; [tauto|].
  split_and!; try done. intros Ec. specialize (Hf k A info Ec Hr). lia.
Qed.

(** An attached state of the run [k], from a detached one. *)
Lemma heap_attach a R G O D bi k A info b' :
  heap a R G O D → has_run (allocated R) G bi k A info → D !! k = Some bi → bin_ok (allocated R) (<[k := A]> G) (delete k D) bi b' →
  heap (set_bins (<[Z.to_nat bi := b']> (bins a)) a) R G O (delete k D).
Proof.
  intros Hh Hr HD Hb'. pose proof Hr as (_ & EG & _). rewrite (insert_id _ _ _ EG) in Hb'.
  eapply heap_bin_run; [exact Hh|exact Hr| |left; apply lookup_delete_eq|exact Hb']. intros k' Hne. by rewrite lookup_delete_ne.
Qed.

Lemma heap_detach a R G O D bi k A info b' :
  heap a R G O D → has_run (allocated R) G bi k A info → bin_ok (allocated R) (<[k := A]> G) (<[k := bi]> D) bi b' →
  heap (set_bins (<[Z.to_nat bi := b']> (bins a)) a) R G O (<[k := bi]> D).
Proof.
  intros Hh Hr Hb'. pose proof Hr as (_ & EG & _). rewrite (insert_id _ _ _ EG) in Hb'.
  eapply heap_bin_run; [exact Hh|exact Hr| |right; apply lookup_insert_eq|exact Hb']. intros k' Hne. by rewrite lookup_insert_ne.
Qed.

Lemma bins_set_set a bi b b' :
  set_bins (<[Z.to_nat bi := b']> (bins (set_bins (<[Z.to_nat bi := b]> (bins a)) a))) (set_bins (<[Z.to_nat bi := b]> (bins a)) a) =
  set_bins (<[Z.to_nat bi := b']> (bins a)) a.
Proof. unfold set_bins. acbn. by rewrite list_insert_insert_eq. Qed.

Lemma bins_set_get a bi b : is_Some (bins a !! Z.to_nat bi) → bins (set_bins (<[Z.to_nat bi := b]> (bins a)) a) !! Z.to_nat bi = Some b.
Proof. intros [b0 E]. acbn. apply lookup_lt_Some in E. by apply list_lookup_insert_eq. Qed.

(** A detached run with free and allocated regions goes back to its bin. *)
Lemma wp_lower_run a R G O D bi k A info (Q : unit → astate S T → Prop) :
  heap a R G O D → has_run (allocated R) G bi k A info → D !! k = Some bi → A ≠ ∅ → Z.of_nat (size A) < nregs info →
  (∀ a', heap a' R G O (delete k D) → a_mem a' = a_mem a → Q tt a') →
  wp (arena_bin_lower_run (kaddr k) bi) a Q.
Proof.
  intros Hh Hr HD Hne Hs HQ. destruct (has_run_hdr _ _ _ _ _ _ _ _ _ (ha_bins _ _ _ _ _ _ _ Hh) Hr) as (Hbi & _).
  destruct (heap_get _ _ _ _ _ _ Hh Hbi) as (b & Eb & Hb). pose proof (heap_apart _ _ _ _ _ Hh) as Hap. pose proof Hr as ((n & d & Ek) & _).
  assert (Hins : wp (arena_bin_runs_insert bi (kaddr k)) a Q).
  { eapply wp_runs_insert; [exact Hh|exact Ek|lia|exact Eb|apply Hb| |].
    - intros (A1 & info1 & _ & HD1 & _). by rewrite HD in HD1.
    - intros t Ht. apply HQ; [|done]. eapply heap_attach; [exact Hh|exact Hr|exact HD|]. by eapply attach_tree. }
  unfold arena_bin_lower_run. wsteps. eapply wp_bin_get; [lia|exact Eb|]. destruct (runcur b) as [cur|] eqn:Ec; [|exact Hins].
  destruct (kaddr k <? cur); [|exact Hins]. destruct (bk_cur _ _ _ _ _ Hb cur Ec) as (k0 & A0 & info0 & -> & Hr0 & HD0).
  destruct (has_run_hdr _ _ _ _ _ _ _ _ _ (ha_bins _ _ _ _ _ _ _ Hh) Hr0) as (_ & r0 & Er0 & _ & Hok0). wsteps. eapply wp_run_get; [exact Er0|].
  pose proof (ro_free _ _ _ Hok0) as Hfr.
  assert (Hfin : ∀ t a1, a1 = set_bins (<[Z.to_nat bi := set_bin_runs t b]> (bins a)) a →
    bin_tree t (λ k', ∃ A info, has_run (allocated R) G bi k' A info ∧ D !! k' = None ∧ Z.of_nat (size A) < nregs info) →
    wp (on_bin bi (set_runcur (Some (kaddr k)));; on_bin bi (set_bin_st (bs_runs 0 1 0))) a1 Q).
  { intros t a1 -> Ht. wsteps. eapply wp_on_bin; [lia|apply bins_set_get; by eexists|]. rewrite bins_set_set.
    eapply wp_bin_st; [eapply heap_attach; [exact Hh|exact Hr|exact HD|]; by eapply attach_cur|done|]. intros a' Ha' Hm. by apply HQ. }
  destruct (Z.ltb_spec 0 (nfree r0)) as [Hlt|Hge]; apply wp_bind.
  - pose proof Hr0 as ((n0 & d0 & Ek0) & _). eapply wp_runs_insert; [exact Hh|exact Ek0|lia|exact Eb|apply Hb| |].
    { intros (A1 & info1 & _ & _ & Hc1 & _). exact (Hc1 Ec). }
    intros t Ht. eapply (Hfin t); [reflexivity|]. clear Hins Hfin HQ. eapply bt_ext; [|exact Ht]. intros k1. split.
    + intros [(A1 & info1 & ? & ? & ? & ?)| ->]; [by exists A1, info1|]. exists A0, info0. split_and!; [done..|lia].
    + intros (A1 & info1 & Hr1 & HD1 & Hs1). destruct (decide (k1 = k0)) as [->|Hk1]; [by right|left]. exists A1, info1. split_and!; try done.
      intros E. rewrite Ec in E. injection E as E. apply Hk1. symmetry. exact (kaddr_run _ _ _ _ _ _ Hap Hr1 _ _ _ Hr0 E).
  - apply wp_ret. eapply (Hfin (bin_runs b) a); clear Hins Hfin HQ.
    + replace (set_bin_runs (bin_runs b) b) with b by by destruct b. rewrite list_insert_id by done. by destruct a.
    + apply tree_without_cur; [|done]. intros k1 A1 info1 E1 Hr1. rewrite Ec in E1. injection E1 as E1.
      pose proof (kaddr_run _ _ _ _ _ _ Hap Hr1 _ _ _ Hr0 E1) as ->. destruct (has_run_inj _ _ _ _ _ _ _ _ _ Hr0 Hr1) as (_ & <- & <-). lia.
Qed.
End heap.
End ops.
