(* ===== verification/ArenaBinRun.v ===== *)
(** * Runs of bins come and go

    A new run for a bin and the release of a run without objects, and what a
    thread may rely on while others work on the arena. *)

From S2P Require Import Prelude OrdTree Bitmap SizeClass BinInfo ArenaBits ChunkIface Arena ArenaMap ArenaTree ArenaInv ArenaRun ArenaDalloc ArenaPurge ArenaTrim ArenaBin ArenaBinInv ArenaObj ArenaBinOps.

Section runs.
Context `{Config} `{Opts} {S : Type} `{CL : ChunkLayer S} {T : Type} `{OT : OrdTree T Z}.
Context `{!ChunkLayerLaws S} {FR : Frame} `{!OrdTreeLaws T Z} {HBI : BinInfos}.
Context (old_word : Z → Z → Z) (os_purge : Z → Z → (Z → Z) → (Z → Z)).
Context (C : list (Z * Z)) (N : list Z).
Abbreviation heap := (heap_at C N).
Implicit Types (a : astate S T) (R Al : layout) (G : regions) (D : detached) (A : gset Z) (O M E : gmap Z Z)
  (k : Z * Z) (bi n p : Z) (d : bool) (info : arena_bin_info) (b : arena_bin T).

(** ** A new run *)

Lemma wp_run_init a bi p info (Q : unit → astate S T → Prop) i0 :
  bin_infos !! i0 = Some info →
  (∀ r, run_ok info r ∅ → run_bin r = bi → Q tt (set_runs (<[p := r]> (runs a)) a)) → wp (run_init p bi info) a Q.
Proof.
  intros Ei HQ. destruct (info_facts _ _ Ei) as (_ & _ & _ & _ & _ & Hn & Hi & Enb). pose proof (ok_nlevels _ Hi) as Hlv.
  unfold run_init, bitmap_info_ngroups. rewrite (group_offset_off _ Hi) by lia. wsteps. eapply wp_lift; [reflexivity|]. wsteps.
  rewrite Z.shiftr_shiftl_l, Z.sub_diag, Z.shiftl_0_r by done.
  destruct (init_ok _ Hi (replicate (Z.to_nat (off (binfo info) (nlevels (binfo info)))) 0)) as (bm & Ebm & _ & Hbm).
  { rewrite length_replicate. lia. }
  eapply wp_lift; [exact Ebm|]. unfold run_set. wsteps. apply HQ; [|done]. split; cbn [run_bitmap nfree nextind]; [done| |lia|set_solver].
  rewrite size_empty. lia.
Qed.

(** Bytes of a run that was not allocated belong to no object. *)
Lemma keeps_new_run a R G O D a' R' k m kd :
  heap a R G O D → arena_inv a' R' C N → allocated R !! k = None → allocated R' = <[k := (m, kd)]> (allocated R) →
  mem_but (kaddr k) (m * PAGE) (a_mem a) (a_mem a') → keeps O (a_mem a) (a_mem a').
Proof.
  intros Hh Ha' Hk Hal Hm. eapply keeps_but; [exact Hm|]. intros q z Eq.
  destruct (obj_in _ _ _ _ _ _ _ _ _ Hh Eq) as (Hz & k' & m' & kd' & E' & Hm' & ? & ?). assert (Hne : k ≠ k') by congruence.
  assert (E1 : R' !! k = Some (m, kd)) by (apply (proj1 (allocated_lookup R' k (m, kd))); rewrite Hal; apply lookup_insert_eq).
  assert (E2 : R' !! k' = Some (m', kd')) by (apply (proj1 (allocated_lookup R' k' (m', kd'))); by rewrite Hal, lookup_insert_ne).
  destruct k as [c s], k' as [c' s'].
  pose proof (runs_apart _ _ _ _ _ _ _ _ _ _ (ac_lay _ _ _ (aa_core _ _ _ _ _ _ _ _ Ha')) E1 E2 Hne) as Hap.
  unfold ranges_apart, kaddr in *. simpl in *. lia.
Qed.

Lemma info_pages i info : bin_infos !! i = Some info → ∃ m, run_size info = m * PAGE ∧ 0 < m ≤ whole.
Proof.
  intros Ei. destruct (bo_run _ (bi_ok _ _ Ei)) as [Hr Hm]. apply Z.mod_divide in Hm as [m Em]; [|done]. exists m.
  destruct page_facts as (_ & _ & _ & _ & Hmax). fold whole in Hmax. rewrite Hmax in Hr. change PAGE with 8192 in *. lia.
Qed.

Lemma wp_new_bin_run a R G O D bi info (Q : option Z → astate S T → Prop) :
  heap a R G O D → 0 ≤ bi < NBINS → bin_infos !! Z.to_nat bi = Some info →
  (∀ a', heap a' R G O D → a_mem a' = a_mem a → Q None a') →
  (∀ a' R' k, heap a' R' (<[k := ∅]> G) O (<[k := bi]> D) → has_run (allocated R') (<[k := ∅]> G) bi k ∅ info →
     allocated R !! k = None → keeps O (a_mem a) (a_mem a') → Q (Some (kaddr k)) a') →
  wp (new_bin_run old_word bi info) a Q.
Proof.
  intros Hh Hbi Ei Hnone Hsome. destruct (info_pages _ _ Ei) as (m & Em & Hm). unfold new_bin_run. rewrite Em. wsteps.
  eapply wp_run_alloc; [apply Hh|exact Hm|by split|..].
  - intros a' _ _ Ha' (Eru & Ebs & Est) Hmem. wsteps. apply Hnone; [|done]. split; [done| |apply Hh|by rewrite (kept_lstats _ _ Est); apply Hh]. rewrite Eru, Ebs. apply Hh.
  - intros a' R' c s d Ha' (Eru & Ebs & Est) Hmem Hn Hal. cbn [new_kind] in Hal. wsteps.
    eapply wp_run_init; [exact Ei|]. intros r Hok Ebin. wsteps. change (raddr c s) with (kaddr (c, s)) in *.
    apply (Hsome _ R'); [|split_and!; [exists m, d; rewrite Hal; apply lookup_insert_eq|apply lookup_insert_eq|exact Ei]|done|].
    + split; acbn.
      * eapply at_same; [..|exact Ha']; [reflexivity..|exact id].
      * rewrite Eru, Ebs, Hal. eapply bins_add; [apply Hh|done|done| |exact Ei|exact Em|done|done]. rewrite <- Hal. by eapply inv_apart.
      * intros p z. rewrite Hal, objs_new_run by done. apply Hh.
      * rewrite (kept_lstats _ _ Est). apply Hh.
    + acbn. by eapply keeps_new_run.
Qed.

(** ** Releasing a run *)

(** The pages that regions were ever taken from. *)
Lemma past_range i info c s n r A :
  bin_infos !! i = Some info → run_size info = n * PAGE → run_ok info r A → 0 ≤ s → 0 < n → s + n ≤ chunk_npages →
  let past := Z.shiftr (PAGE_CEILING (raddr c s + reg0_offset info + (nextind r * reg_interval info - redzone_size info) - c)) LG_PAGE in
  0 < past - s ≤ n.
Proof.
  intros Ei Es Hok Hs Hn Hsn past. destruct (info_facts _ _ Ei) as (? & ? & ? & ? & ? & ? & _). pose proof (ro_next _ _ _ Hok) as Hnx.
  set (x := reg0_offset info + (nextind r * reg_interval info - redzone_size info)).
  assert (Hx : 0 < x ≤ n * PAGE) by (unfold x; nia).
  pose proof chunksize_pages as Hcp. pose proof chunk_npages_bounds as [_ Hcb]. change PAGE with 8192 in *.
  unfold past. replace (raddr c s + reg0_offset info + (nextind r * reg_interval info - redzone_size info) - c) with (s * 8192 + x) by (unfold x, raddr; change PAGE with 8192; lia).
  destruct (page_ceiling_cases (s * 8192 + x)) as [[_ ->]|[? _]]; [lia| |change PAGE with 8192 in *; lia]. change PAGE with 8192.
  destruct (round_up_spec (s * 8192 + x) 8192 ltac:(lia)) as [? Hm]. apply Z.mod_divide in Hm as [q Eq]; [|done]. rewrite Eq in *.
  change 8192 with PAGE. rewrite shiftr_page. lia.
Qed.

(** No object is in a run without regions. *)
Lemma empty_run_obj a R G O D k n bi d p z :
  heap a R G O D → allocated R !! k = Some (n, Small bi d) → G !! k = Some ∅ → O !! p = Some z →
  ∃ k' m kd, k' ≠ k ∧ allocated R !! k' = Some (m, kd) ∧ kaddr k' ≤ p ∧ p + z ≤ kaddr k' + m * PAGE.
Proof.
  intros Hh Ek HG Ep. destruct (obj_in _ _ _ _ _ _ _ _ _ Hh Ep) as (Hz & k' & m & kd & E' & Hm & ? & ?). exists k', m, kd. split; [|done]. intros ->.
  rewrite Ek in E'. injection E' as <- <-. pose proof Ek as [Er _]%allocated_lookup. pose proof (heap_lay _ _ _ _ _ _ _ Hh) as Hl.
  apply (ha_objs _ _ _ _ _ _ _ Hh) in Ep as [(k1 & m1 & d1 & E1 & -> & ->)|(k1 & bi1 & A1 & info1 & i1 & Hr1 & Hi1 & -> & ->)].
  - pose proof E1 as [E1' _]%allocated_lookup. assert (k1 = k) as ->; [|rewrite E1 in Ek; done].
    eapply (run_unique _ _ _ _ _ _ _ _ (kaddr k1)); [exact Hl|exact E1'|exact Er|lia|lia].
  - pose proof Hr1 as ((n1 & d1 & E1) & EG1 & Ei1). pose proof E1 as [E1' _]%allocated_lookup.
    destruct (has_run_hdr _ _ _ _ _ _ _ _ _ (ha_bins _ _ _ _ _ _ _ Hh) Hr1) as (_ & r1 & _ & _ & Hok1). pose proof (ro_range _ _ _ _ _ Ei1 Hok1 Hi1) as Hj1.
    destruct (region_in _ _ _ _ _ _ _ _ _ _ _ i1 (ha_bins _ _ _ _ _ _ _ Hh) Hr1 E1 Hj1) as (? & ? & ? & ? & ?).
    assert (k1 = k) as ->; [|rewrite HG in EG1; injection EG1 as <-; set_solver].
    eapply (run_unique _ _ _ _ _ _ _ _ (reg_addr k1 info1 i1)); [exact Hl|exact E1'|exact Er|lia|lia].
Qed.

Hypothesis os_purge_range : ∀ p n f, mem_but p n f (os_purge p n f).

(** The run is freed, whole or what was left of it. *)
Lemma wp_release_end a R G O D c s n bi d a2 R2 m kd (Q : unit → astate S T → Prop) :
  heap a R G O D → D !! (c, s) = Some bi → G !! (c, s) = Some ∅ → allocated R !! (c, s) = Some (n, Small bi d) →
  (∀ a' R', heap a' R' (delete (c, s) G) O (delete (c, s) D) → keeps O (a_mem a) (a_mem a') → Q tt a') →
  arena_inv a2 R2 C N → kept a a2 → run_hdrs a2 R2 → allocated R2 !! (c, s) = Some (m, kd) →
  delete (c, s) (allocated R2) = delete (c, s) (allocated R) →
  (∀ k' v, k' ≠ (c, s) → allocated R !! k' = Some v → ∀ y, kaddr k' ≤ y < kaddr k' + v.1 * PAGE → a_mem a2 y = a_mem a y) →
  wp (arena_run_dalloc old_word os_purge (raddr c s) true) a2 Q.
Proof using All.
  intros Hh HD HG Ek HQ Ha2 Hk2 Hh2 E2 Hal2 Hm2. eapply (wp_run_dalloc old_word os_purge os_purge_range); [exact Ha2|exact Hh2|exact E2|].
  intros a3 R3 [Ha3 Hal3 Hk3 Hm3]. assert (Hal : allocated R3 = delete (c, s) (allocated R)) by congruence.
  destruct (kept_trans _ _ _ Hk2 Hk3) as (Eru & Ebs & Est). apply (HQ _ R3).
  - split; [exact Ha3| | |].
    + rewrite Eru, Ebs, Hal. eapply bins_drop; [apply Hh|exact HD].
    + intros p z. rewrite Hal, (objs_drop_run _ _ _ n bi d) by done. apply Hh.
    + rewrite (kept_lstats _ _ Est). apply Hh.
  - intros p z Ep y Hy. destruct (empty_run_obj _ _ _ _ _ _ _ _ _ _ _ Hh Ek HG Ep) as ([c' s'] & m' & kd' & Hne & E' & ? & ?).
    rewrite (Hm3 c' s' m' kd'); [|done| |unfold kaddr in *; simpl in *; lia].
    + eapply (Hm2 (c', s') (m', kd')); [done|done|simpl; lia].
    + assert (E2' : delete (c, s) (allocated R2) !! (c', s') = Some (m', kd')) by (rewrite Hal2, lookup_delete_ne by congruence; done).
      by apply lookup_delete_Some in E2' as [_ ?].
Qed.

Lemma wp_release_run a R G O D c s n bi d info (Q : unit → astate S T → Prop) :
  heap a R G O D → D !! (c, s) = Some bi → G !! (c, s) = Some ∅ → allocated R !! (c, s) = Some (n, Small bi d) →
  bin_infos !! Z.to_nat bi = Some info →
  (∀ a' R', heap a' R' (delete (c, s) G) O (delete (c, s) D) → keeps O (a_mem a) (a_mem a') → Q tt a') →
  wp (release_run old_word os_purge c (raddr c s) info) a Q.
Proof using All.
  intros Hh HD HG Ek Ei HQ. pose proof Hh as [Ha Hb HO _]. pose proof Ek as [Er _]%allocated_lookup.
  destruct (bo_runs _ _ _ _ _ Hb _ _ _ _ Ek) as (Hbi & r & A & info' & Hrr & Hrb & EG & Ei' & Es & Hok).
  rewrite Ei in Ei'. injection Ei' as <-.
  destruct (at_run _ _ _ _ _ _ _ (aa_core _ _ _ _ _ _ _ _ Ha) Er) as (_ & _ & _ & _ & Hs & Hn & Hsn & Hw).
  pose proof (past_range _ _ c s n r A Ei Es Hok) as Hpast. destruct page_facts as (Hmb & _). specialize (Hpast ltac:(lia) Hn Hsn). cbv zeta in Hpast.
  assert (Hh0 : run_hdrs a R) by by eapply bins_hdrs.
  unfold release_run. cbv zeta. rewrite Es, shiftr_page, raddr_page. wsteps. eapply wp_run_get; [exact Hrr|]. wsteps.
  eapply wp_dirty_get; [exact (run_first _ _ _ _ _ Hn Hw)|]. wsteps. eapply wp_dirty_get; [exact (run_last _ _ _ _ _ Hn Hw)|]. wsteps. apply wp_check; [apply Z.eqb_refl|]. wsteps.
  set (past := Z.shiftr (PAGE_CEILING _) LG_PAGE) in *. cbn [kdirty].
  destruct ((dflag d =? 0) && (past - s <? n)) eqn:Econd.
  2:{ apply wp_ret. eapply (wp_release_end a R G O D c s n bi d a R n (Small bi d)); [exact Hh|exact HD|exact HG|exact Ek|exact HQ|exact Ha|apply kept_refl|exact Hh0|exact Ek|done|done]. }
  apply andb_true_iff in Econd as [Ed Elt]. assert (d = false) as -> by by destruct d. apply Z.ltb_lt in Elt.
  apply wp_bind. apply wp_check; [by apply Z.ltb_lt|]. apply wp_bind, wp_block2. change 0 with (dflag false).
  eapply wp_retag; [exact Ha|exact Er|lia|]. intros h Ha1. rewrite !shiftl_page.
  assert (Er1 : <[(c, s) := (n, Large false)]> R !! (c, s) = Some (n, Large false)) by apply lookup_insert_eq.
  assert (Hal1 : allocated (<[(c, s) := (n, Large false)]> R) = <[(c, s) := (n, Large false)]> (allocated R)) by (unfold allocated; by rewrite map_filter_insert_True).
  eapply (wp_trim_tail old_word os_purge os_purge_range); [exact Ha1| |exact Er1|lia|].
  { intros c1 s1 n1 k1. rewrite lookup_insert_Some. intros [[[= <- <-] [= <- <-]]|[_ E1]]; [done|by apply Hh0]. }
  intros a2 R2 [Ha2 Hal2 Hk2 Hm2 _].
  eapply (wp_release_end a R G O D c s n bi false a2 R2 (past - s) (Large false)); [exact Hh|exact HD|exact HG|exact Ek|exact HQ|exact Ha2|exact Hk2|..]; clear HQ.
  - intros c1 s1 n1 k1 E1. destruct (is_free k1) eqn:Hf1; [by destruct k1|].
    assert (E1' : allocated R2 !! (c1, s1) = Some (n1, k1)) by by apply allocated_lookup. rewrite Hal2, Hal1 in E1'.
    apply lookup_insert_Some in E1' as [[_ [= _ <-]]|[_ [Hne E1']%lookup_delete_Some]]; [done|].
    rewrite lookup_insert_ne in E1' by done. apply allocated_lookup in E1' as [E1' _].
    eapply run_hdrs_kept; [exact Hk2| |exact E1']. exact Hh0.
  - rewrite Hal2. apply lookup_insert_eq.
  - rewrite Hal2, Hal1. apply map_eq. intros k'. destruct (decide (k' = (c, s))) as [->|Hne]; [by rewrite !lookup_delete_eq|].
    rewrite !lookup_delete_ne by congruence. rewrite lookup_insert_ne, lookup_delete_ne, lookup_insert_ne by congruence. done.
  - intros [c' s'] [n' kd'] Hne E' y Hy. apply (Hm2 c' s' n' kd'); [done| |exact Hy]. by rewrite Hal1, lookup_insert_ne.
Qed.
End runs.
