(* ===== verification/ArenaSmall.v ===== *)
(** * Small objects

    Allocation and deallocation of regions, with other threads at work whenever
    the lock of the bin is released.  A thread owns objects and detached runs;
    [owned a M D] says that in state [a] it owns the objects [M] and the
    detached runs [D], whatever else there is. *)

From S2P Require Import Prelude OrdTree Bitmap SizeClass BinInfo ArenaBits ChunkIface Arena ArenaMap ArenaTree ArenaInv ArenaRun ArenaDalloc ArenaPurge ArenaTrim ArenaBin ArenaBinInv ArenaObj ArenaBinOps ArenaBinRun.

Section small.
Context `{Config} `{Opts} {S : Type} `{CL : ChunkLayer S} {T : Type} `{OT : OrdTree T Z}.
Context `{!ChunkLayerLaws S} {FR : Frame} `{!OrdTreeLaws T Z} {HBI : BinInfos}.
Context (old_word : Z → Z → Z) (os_purge : Z → Z → (Z → Z) → (Z → Z)).
Context (C : list (Z * Z)) (N : list Z).
(** What other threads may own: objects and detached runs. *)
Context (env_holds : gmap Z Z → detached → Prop).
Abbreviation heap := (heap_at C N).
Implicit Types (a : astate S T) (R Al : layout) (G : regions) (D F : detached) (A : gset Z) (O M E : gmap Z Z)
  (k : Z * Z) (bi n p : Z) (d : bool) (info : arena_bin_info) (b : arena_bin T).

(** ** Regions as objects *)

Lemma heap_region_alloc a R G O D D' bi k A info b' r' i :
  heap a R G O D → has_run (allocated R) G bi k A info → 0 ≤ i < nregs info → i ∉ A →
  run_ok info r' (A ∪ {[i]}) → run_bin r' = bi →
  (∀ k', k' ≠ k → D' !! k' = D !! k') → D' !! k = None → bin_ok (allocated R) (<[k := A ∪ {[i]}]> G) D' bi b' →
  heap (set_bins (<[Z.to_nat bi := b']> (bins a)) (set_runs (<[kaddr k := r']> (runs a)) a)) R (<[k := A ∪ {[i]}]> G)
    (<[reg_addr k info i := reg_size info]> O) D' ∧ O !! reg_addr k info i = None.
Proof.
  intros Hh Hr Hi HiA Hok Hrb HD HDk Hb'. destruct (objs_alloc _ _ _ _ _ _ _ _ _ _ _ _ Hh Hr Hi HiA) as [Hno Hob]. split; [|done].
  apply (heap_set C N a _ _ R G O D _ _ _ Hh); [|exact Hob].
  eapply (bins_update _ _ _ _ _ _ _ _ _ A _ info); [apply Hh|by eapply heap_apart|done|done|done|done|by left|done].
Qed.

(** A region of the current run. *)
Lemma wp_cur_alloc a R G O D bi k A info b (Q : Z → astate S T → Prop) :
  heap a R G O D → 0 ≤ bi < NBINS → bins a !! Z.to_nat bi = Some b → runcur b = Some (kaddr k) →
  has_run (allocated R) G bi k A info → D !! k = None → Z.of_nat (size A) < nregs info →
  (∀ a' i, 0 ≤ i < nregs info → i ∉ A → O !! reg_addr k info i = None →
     heap a' R (<[k := A ∪ {[i]}]> G) (<[reg_addr k info i := reg_size info]> O) D → a_mem a' = a_mem a → Q (reg_addr k info i) a') →
  wp (arena_run_reg_alloc (kaddr k) info) a Q.
Proof.
  intros Hh Hbi Eb Ec Hr HD Hs HQ. pose proof (bo_bins _ _ _ _ _ (ha_bins _ _ _ _ _ _ _ Hh) bi b ltac:(lia) Eb) as Hb.
  destruct (has_run_hdr _ _ _ _ _ _ _ _ _ (ha_bins _ _ _ _ _ _ _ Hh) Hr) as (_ & r & Er & Erb & Hok). pose proof Hr as (_ & _ & Ei).
  eapply wp_reg_alloc; [exact Ei|exact Er|exact Hok|exact Hs|]. intros i r' Hi HiA Hok' Erb'.
  destruct (heap_region_alloc a R G O D D bi k A info b r' i Hh Hr Hi HiA Hok' ltac:(congruence) (λ _ _, eq_refl) HD) as [Hh' Hno].
  - eapply adjust; [by eapply heap_apart|exact Hr|exact Hb|exact HD|set_solver|by left].
  - rewrite list_insert_id in Hh' by exact Eb. apply HQ; [done..| |done]. by destruct a.
Qed.

(** A detached run becomes the current one, and a region of it is taken. *)
Lemma wp_new_cur_alloc a R G O D bi k A info b (Q : option Z → astate S T → Prop) :
  heap a R G O D → 0 ≤ bi < NBINS → bins a !! Z.to_nat bi = Some b →
  (∀ k A info, runcur b = Some (kaddr k) → has_run (allocated R) G bi k A info → nregs info ≤ Z.of_nat (size A)) →
  has_run (allocated R) G bi k A info → D !! k = Some bi → Z.of_nat (size A) < nregs info →
  (∀ a' i, 0 ≤ i < nregs info → i ∉ A → O !! reg_addr k info i = None →
     heap a' R (<[k := A ∪ {[i]}]> G) (<[reg_addr k info i := reg_size info]> O) (delete k D) → a_mem a' = a_mem a →
     Q (Some (reg_addr k info i)) a') →
  wp (on_bin bi (set_runcur (Some (kaddr k)));; r ← run_get (kaddr k); check (0 <? nfree r);;
    ret ← arena_run_reg_alloc (kaddr k) info; mret (Some ret)) a Q.
Proof.
  intros Hh Hbi Eb Hfull Hr HD Hs HQ. pose proof (bo_bins _ _ _ _ _ (ha_bins _ _ _ _ _ _ _ Hh) bi b ltac:(lia) Eb) as Hb.
  destruct (has_run_hdr _ _ _ _ _ _ _ _ _ (ha_bins _ _ _ _ _ _ _ Hh) Hr) as (_ & r & Er & Erb & Hok). pose proof Hr as (_ & _ & Ei).
  wsteps. eapply wp_on_bin; [lia|exact Eb|]. wsteps. eapply wp_run_get; [exact Er|]. wsteps.
  apply wp_check; [apply Z.ltb_lt; rewrite (ro_free _ _ _ Hok); lia|]. wsteps.
  eapply wp_reg_alloc; [exact Ei|exact Er|exact Hok|exact Hs|]. intros i r' Hi HiA Hok' Erb'. wsteps.
  destruct (heap_region_alloc a R G O D (delete k D) bi k A info (set_runcur (Some (kaddr k)) b) r' i Hh Hr Hi HiA Hok' ltac:(congruence)) as [Hh' Hno].
  - intros k' Hne. by rewrite lookup_delete_ne.
  - apply lookup_delete_eq.
  - replace (set_runcur (Some (kaddr k)) b) with (set_runcur (Some (kaddr k)) (set_bin_runs (bin_runs b) b)) by done.
    eapply attach_cur; [by eapply heap_apart|exact Hr|exact Hb|exact HD|set_solver|]. by apply tree_without_cur.
  - apply HQ; [done..| |done]. by destruct a.
Qed.

(** ** Ownership *)

Definition opened a R G E F M D : Prop := env_holds E F ∧ M ##ₘ E ∧ D ##ₘ F ∧ heap a R G (M ∪ E) (D ∪ F).

Definition owned a M D : Prop := ∃ R G E F, opened a R G E F M D ∧ fresh G (D ∪ F).

Lemma det_free D F k : (D ∪ F) !! k = None → D !! k = None ∧ F !! k = None.
Proof. rewrite lookup_union_None. done. Qed.

Lemma opened_detach a R G E F M D k bi :
  env_holds E F → M ##ₘ E → D ##ₘ F → (D ∪ F) !! k = None → heap a R G (M ∪ E) (<[k := bi]> (D ∪ F)) → opened a R G E F M (<[k := bi]> D).
Proof.
  intros He HM HD Hk Hh. destruct (det_free _ _ _ Hk). split_and!; [done|done|by apply map_disjoint_insert_l|]. by rewrite <- insert_union_l.
Qed.

Lemma det_delete D F k bi : D !! k = None → F !! k = None → delete k (<[k := bi]> D ∪ F) = D ∪ F.
Proof. intros HD HF. by rewrite delete_union, delete_insert_eq, !delete_id. Qed.

Lemma det_insert_free D F k bi : <[k := bi]> D ##ₘ F → F !! k = None.
Proof. intros Hd. eapply map_disjoint_Some_l; [exact Hd|apply lookup_insert_eq]. Qed.

Lemma fresh_insert G D k bi : fresh G (<[k := bi]> D) → fresh G (delete k D) ∧ G !! k = Some ∅.
Proof.
  intros Hf. split; [|eapply Hf, lookup_insert_eq]. intros k' bi' [Hne E]%lookup_delete_Some. eapply (Hf k' bi'). by rewrite lookup_insert_ne.
Qed.

(** The objects of a thread change. *)
Lemma opened_insert a R G E F M D p z :
  env_holds E F → M ##ₘ E → D ##ₘ F → (M ∪ E) !! p = None → heap a R G (<[p := z]> (M ∪ E)) (D ∪ F) → opened a R G E F (<[p := z]> M) D ∧ M !! p = None.
Proof.
  intros He HM HD Hp Hh. apply lookup_union_None in Hp as [Hp1 Hp2]. split; [|done].
  split_and!; [done|by apply map_disjoint_insert_l|done|]. by rewrite <- insert_union_l.
Qed.

Lemma obj_delete M E p z : M ##ₘ E → M !! p = Some z → delete p (M ∪ E) = delete p M ∪ E.
Proof. intros HM Hp. rewrite delete_union. f_equal. apply delete_id. by eapply map_disjoint_Some_l. Qed.

Lemma keeps_mine M E f f' : keeps (M ∪ E) f f' → keeps M f f'.
Proof. apply keeps_mono, map_union_subseteq_l. Qed.

(** ** With others at work *)

Context (others : M (astate S T) unit).
Hypothesis os_purge_range : ∀ p n f, mem_but p n f (os_purge p n f).
Hypothesis others_ok : ∀ a M D, owned a M D → wp others a (λ _ a', owned a' M D ∧ keeps M (a_mem a) (a_mem a')).

Lemma wp_others a M D (Q : unit → astate S T → Prop) :
  owned a M D → (∀ a', owned a' M D → keeps M (a_mem a) (a_mem a') → Q tt a') → wp others a Q.
Proof using others_ok. intros Ho HQ. eapply wp_mono; [by apply others_ok|]. intros [] a' [? ?]. by apply HQ. Qed.

(** A run that a thread holds: detached, with a free region. *)
Definition got_run a M D bi p : Prop :=
  ∃ R G E F k A info, p = kaddr k ∧ D !! k = None ∧ opened a R G E F M (<[k := bi]> D) ∧ fresh G (D ∪ F) ∧
    has_run (allocated R) G bi k A info ∧ Z.of_nat (size A) < nregs info.

Lemma wp_tryget_owned a M D bi (Q : option Z → astate S T → Prop) :
  owned a M D → 0 ≤ bi < NBINS → (owned a M D → Q None a) →
  (∀ a' p, got_run a' M D bi p → a_mem a' = a_mem a → Q (Some p) a') →
  wp (arena_bin_nonfull_run_tryget bi) a Q.
Proof.
  intros Ho Hbi Hnone Hsome. pose proof Ho as (R & G & E & F & (He & HM & HD & Hh) & Hf). eapply wp_tryget; [exact Hh|exact Hbi|by apply Hnone|].
  intros a' k A info Hh' Hm Hr HDk _ Hs. apply Hsome; [|done]. destruct (det_free _ _ _ HDk).
  exists R, G, E, F, k, A, info. split_and!; try done. by apply opened_detach.
Qed.

Lemma wp_st_owned a M D bi f (Q : unit → astate S T → Prop) :
  owned a M D → 0 ≤ bi < NBINS → (∀ a', owned a' M D → a_mem a' = a_mem a → Q tt a') → wp (on_bin bi (set_bin_st f)) a Q.
Proof.
  intros (R & G & E & F & (He & HM & HD & Hh) & Hf) Hbi HQ. eapply wp_bin_st; [exact Hh|exact Hbi|]. intros a' Hh' Hm.
  apply HQ; [|done]. by exists R, G, E, F.
Qed.

(** Detached runs without regions, seen again after others worked. *)
Lemma owned_run a M D k bi info :
  owned a M (<[k := bi]> D) → D !! k = None → bin_infos !! Z.to_nat bi = Some info →
  ∃ R G E F, opened a R G E F M (<[k := bi]> D) ∧ fresh G (D ∪ F) ∧ has_run (allocated R) G bi k ∅ info ∧ F !! k = None.
Proof.
  intros (R & G & E & F & Ho & Hf) HD Ei. pose proof Ho as (He & HM & Hdj & Hh). exists R, G, E, F.
  rewrite <- insert_union_l in Hf. destruct (fresh_insert _ _ _ _ Hf) as [Hf' HG]. pose proof (det_insert_free _ _ _ _ Hdj) as HF.
  rewrite delete_id in Hf' by by apply lookup_union_None. split_and!; try done. split; [|done].
  eapply (bo_det _ _ _ _ _ (ha_bins _ _ _ _ _ _ _ Hh)). rewrite <- insert_union_l. apply lookup_insert_eq.
Qed.

Lemma wp_nonfull_run_get a M D bi (Q : option Z → astate S T → Prop) :
  owned a M D → 0 ≤ bi < NBINS →
  (∀ a', owned a' M D → keeps M (a_mem a) (a_mem a') → Q None a') →
  (∀ a' p, got_run a' M D bi p → keeps M (a_mem a) (a_mem a') → Q (Some p) a') →
  wp (arena_bin_nonfull_run_get old_word others bi) a Q.
Proof using others_ok OrdTreeLaws0 HBI.
  intros Ho Hbi Hnone Hsome. unfold arena_bin_nonfull_run_get. apply wp_bind. eapply wp_tryget_owned; [exact Ho|exact Hbi| |].
  2:{ intros a' p Hg Hm. apply wp_ret, Hsome; [exact Hg|]. rewrite Hm. apply keeps_refl. }
  intros _. destruct (lookup_lt_is_Some_2 bin_infos (Z.to_nat bi)) as [info Ei]; [pose proof bi_len; lia|].
  apply wp_bind. eapply wp_info_get; [lia|exact Ei|]. apply wp_bind. eapply wp_others; [exact Ho|]. intros a1 (R & G & E & F & (He & HM & HD & Hh) & Hf) K1.
  apply wp_bind. eapply wp_new_bin_run; [exact Hh|exact Hbi|exact Ei| |].
  - intros a2 Hh2 Hm2. apply wp_bind. eapply (wp_others a2 M D); [by exists R, G, E, F|]. intros a3 Ho3 K3. rewrite Hm2 in K3.
    eapply wp_tryget_owned; [exact Ho3|exact Hbi| |].
    + intros _. apply Hnone; [exact Ho3|]. by eapply keeps_trans.
    + intros a' p Hg Hm. apply Hsome; [exact Hg|]. rewrite Hm. by eapply keeps_trans.
  - intros a2 R2 k Hh2 Hr2 Hn2 K2. apply wp_bind.
    assert (Hk : (D ∪ F) !! k = None).
    { destruct ((D ∪ F) !! k) as [b0|] eqn:Ek; [|done]. destruct (bo_det _ _ _ _ _ (ha_bins _ _ _ _ _ _ _ Hh) _ _ Ek) as (n0 & d0 & Ek0). by rewrite Hn2 in Ek0. }
    destruct (det_free _ _ _ Hk) as [HDk HFk].
    assert (Ho2 : owned a2 M (<[k := bi]> D)).
    { exists R2, (<[k := ∅]> G), E, F. split; [by apply opened_detach|]. rewrite <- insert_union_l. intros k' b'. destruct (decide (k' = k)) as [->|Hne].
      - by rewrite !lookup_insert_eq.
      - rewrite !lookup_insert_ne by done. apply Hf. }
    eapply wp_others; [exact Ho2|]. intros a3 Ho3 K3. wsteps. eapply wp_st_owned; [exact Ho3|exact Hbi|]. intros a4 Ho4 Hm4. wsteps.
    destruct (owned_run _ _ _ _ _ _ Ho4 HDk Ei) as (R4 & G4 & E4 & F4 & Hop4 & Hf4 & Hr4 & _). apply Hsome.
    + exists R4, G4, E4, F4, k, ∅, info. split_and!; try done. rewrite size_empty. destruct (info_facts _ _ Ei) as (_ & _ & _ & _ & _ & ? & _). lia.
    + rewrite Hm4. eapply keeps_trans; [exact K1|]. eapply keeps_trans; [by eapply keeps_mine|exact K3].
Qed.

(** Releasing a run that a thread holds. *)
Lemma wp_dalloc_bin_run a M D c s bi (Q : unit → astate S T → Prop) :
  owned a M (<[(c, s) := bi]> D) → D !! (c, s) = None → 0 ≤ bi < NBINS →
  (∀ a', owned a' M D → keeps M (a_mem a) (a_mem a') → Q tt a') →
  wp (arena_dalloc_bin_run old_word os_purge others c (raddr c s) bi) a Q.
Proof using All.
  intros Ho HD Hbi HQ. destruct (lookup_lt_is_Some_2 bin_infos (Z.to_nat bi)) as [info Ei]; [pose proof bi_len; lia|].
  destruct (owned_run _ _ _ _ _ _ Ho HD Ei) as (R & G & E & F & (He & HM & Hdj & Hh) & Hf & Hr & HF).
  destruct (heap_get _ _ _ _ _ _ _ _ Hh Hbi) as (b & Eb & Hb). destruct (has_run_hdr _ _ _ _ _ _ _ _ _ (ha_bins _ _ _ _ _ _ _ Hh) Hr) as (_ & r & Er & Erb & _).
  assert (Hdet : (<[(c, s) := bi]> D ∪ F) !! (c, s) = Some bi) by (rewrite <- insert_union_l; apply lookup_insert_eq).
  pose proof Hr as ((n & d & Ek) & _). unfold arena_dalloc_bin_run. wsteps. eapply wp_bin_get; [lia|exact Eb|]. wsteps. apply wp_check.
  { rewrite bool_decide_false; [done|]. intros Ec. destruct (bk_cur _ _ _ _ _ Hb _ Ec) as (k1 & A1 & info1 & E1 & Hr1 & HD1).
    assert (k1 = (c, s)) as ->; [|by rewrite Hdet in HD1]. by eapply (kaddr_run _ _ _ _ _ _ (heap_apart _ _ _ _ _ _ _ Hh) Hr). }
  wsteps. rewrite raddr_page. pose proof (heap_key _ _ _ _ _ _ _ _ _ Hh Ek) as Hk. apply wp_mapp; [apply Hk|]. wsteps. apply wp_check.
  { apply bool_decide_eq_true. apply (bt_search _ _ _ (bk_tree _ _ _ _ _ Hb) Hk). intros (A1 & info1 & _ & HD1 & _). by rewrite Hdet in HD1. }
  wsteps. eapply wp_run_get; [exact Er|]. wsteps. rewrite Erb. eapply wp_info_get; [lia|exact Ei|]. wsteps. eapply wp_others; [exact Ho|].
  intros a1 Ho1 K1. wsteps. destruct (owned_run _ _ _ _ _ _ Ho1 HD Ei) as (R1 & G1 & E1 & F1 & (He1 & HM1 & Hdj1 & Hh1) & Hf1 & Hr1 & HF1).
  pose proof Hr1 as ((n1 & d1 & Ek1) & EG1 & _).
  eapply (wp_release_run old_word os_purge C N os_purge_range a1 R1 G1 _ _ c s n1 bi d1 info);
    [exact Hh1|rewrite <- insert_union_l; apply lookup_insert_eq|exact EG1|exact Ek1|exact Ei|].
  intros a2 R2 Hh2 K2. rewrite det_delete in Hh2 by done.
  assert (Ho2 : owned a2 M D).
  { exists R2, (delete (c, s) G1), E1, F1. split; [split_and!; [done|done| |exact Hh2]|].
    - rewrite <- (delete_id D (c, s)) by done. rewrite <- (delete_insert_eq D (c, s) bi). by apply map_disjoint_delete_l.
    - intros k' b' Ek'. rewrite lookup_delete_ne; [by eapply Hf1|]. intros <-. apply lookup_union_Some_raw in Ek' as [Ek'|[_ Ek']]; congruence. }
  wsteps. eapply wp_others; [exact Ho2|]. intros a3 Ho3 K3. eapply wp_st_owned; [exact Ho3|exact Hbi|]. intros a4 Ho4 Hm4.
  apply HQ; [exact Ho4|]. rewrite Hm4. eapply keeps_trans; [exact K1|]. eapply keeps_trans; [by eapply keeps_mine|exact K3].
Qed.

(** ** Allocation *)

Lemma fresh_upd G D k A : fresh G D → D !! k = None → fresh (<[k := A]> G) D.
Proof. intros Hf HD k' b' E. rewrite lookup_insert_ne; [by eapply Hf|]. intros <-. by rewrite HD in E. Qed.

(** The state after a region was taken, as its owner sees it. *)
Lemma owned_alloc a R G E F M D k A i info :
  env_holds E F → M ##ₘ E → D ##ₘ F → fresh G (D ∪ F) → (D ∪ F) !! k = None → (M ∪ E) !! reg_addr k info i = None →
  heap a R (<[k := A]> G) (<[reg_addr k info i := reg_size info]> (M ∪ E)) (D ∪ F) →
  M !! reg_addr k info i = None ∧ owned a (<[reg_addr k info i := reg_size info]> M) D.
Proof.
  intros He HM HD Hf HDk Hno Hh. destruct (opened_insert _ _ _ _ _ _ _ _ _ He HM HD Hno Hh) as [Ho Hp]. split; [done|].
  exists R, (<[k := A]> G), E, F. split; [done|]. by apply fresh_upd.
Qed.

(** From the bin's current run, when it has a free region. *)
Lemma wp_alloc_cur a M D bi info (Q : option Z → astate S T → Prop) :
  owned a M D → 0 ≤ bi < NBINS → bin_infos !! Z.to_nat bi = Some info →
  (∀ R G E F b, opened a R G E F M D → fresh G (D ∪ F) → bins a !! Z.to_nat bi = Some b →
     (∀ k A info, runcur b = Some (kaddr k) → has_run (allocated R) G bi k A info → nregs info ≤ Z.of_nat (size A)) → Q None a) →
  (∀ cur, wp (arena_run_reg_alloc cur info) a (λ p a', M !! p = None ∧ owned a' (<[p := reg_size info]> M) D ∧ a_mem a' = a_mem a) →
     Q (Some cur) a) →
  wp (runcur_free bi) a Q.
Proof.
  intros (R & G & E & F & Ho & Hf) Hbi Ei Hnone Hsome. pose proof Ho as (He & HM & HD & Hh). destruct (heap_get _ _ _ _ _ _ _ _ Hh Hbi) as (b & Eb & _).
  eapply wp_runcur_free; [exact Hh|exact Hbi|exact Eb|intros; by eapply Hnone|].
  intros k A info' Ec Hr HDk Hs. pose proof Hr as (_ & _ & Ei'). rewrite Ei in Ei'. injection Ei' as <-. apply Hsome.
  eapply wp_cur_alloc; [exact Hh|exact Hbi|exact Eb|exact Ec|exact Hr|exact HDk|exact Hs|]. intros a' i Hi HiA Hno Hh' Hm.
  destruct (owned_alloc a' R G E F M D k (A ∪ {[i]}) i info He HM HD Hf HDk Hno Hh') as [Hp Ho']. by split_and!.
Qed.

(** A run that was not needed is given back. *)
Definition return_run bi info (run : option Z) : M (astate S T) unit :=
  if run is Some run then
    let chunk := CHUNK_ADDR2BASE run in
    r ← run_get run;
    if nfree r =? nregs info then arena_dalloc_bin_run old_word os_purge others chunk run bi
    else arena_bin_lower_run run bi
  else mret tt.

Lemma wp_return_run a M D bi info p (Q : unit → astate S T → Prop) :
  got_run a M D bi p → 0 ≤ bi < NBINS → bin_infos !! Z.to_nat bi = Some info →
  (∀ a', owned a' M D → keeps M (a_mem a) (a_mem a') → Q tt a') → wp (return_run bi info (Some p)) a Q.
Proof using All.
  intros (R & G & E & F & k & A & info' & -> & HDk & (He & HM & HD & Hh) & Hf & Hr & Hs) Hbi Ei HQ.
  pose proof Hr as ((n & d & Ek) & EG & Ei'). rewrite Ei in Ei'. injection Ei' as <-. pose proof Ek as [Ek' _]%allocated_lookup.
  destruct (has_run_hdr _ _ _ _ _ _ _ _ _ (ha_bins _ _ _ _ _ _ _ Hh) Hr) as (_ & r & Er & _ & Hok). pose proof (det_insert_free _ _ _ _ HD) as HF.
  unfold return_run. cbv zeta. wsteps. eapply wp_run_get; [exact Er|]. pose proof (ro_free _ _ _ Hok) as Hfr.
  destruct (Z.eqb_spec (nfree r) (nregs info)) as [Eq|Hne].
  - destruct k as [c s]. unfold kaddr. cbn [fst snd]. rewrite (run_base _ _ _ _ _ _ (heap_lay _ _ _ _ _ _ _ Hh) Ek').
    assert (A = ∅) as -> by (apply leibniz_equiv, size_empty_inv; lia).
    eapply wp_dalloc_bin_run; [|exact HDk|exact Hbi|exact HQ]. exists R, G, E, F. split; [done|]. rewrite <- insert_union_l.
    intros k' b'. destruct (decide (k' = (c, s))) as [->|Hk]; [done|]. rewrite lookup_insert_ne by done. apply Hf.
  - eapply wp_lower_run; [exact Hh|exact Hr|rewrite <- insert_union_l; apply lookup_insert_eq| |exact Hs|].
    + intros ->. apply Hne. rewrite Hfr, size_empty. lia.
    + intros a' Hh' Hm. rewrite det_delete in Hh' by done. apply HQ; [|rewrite Hm; apply keeps_refl].
      exists R, G, E, F. split; [split_and!; [done|done| |done]|done]. rewrite <- (delete_id D k) by done.
      rewrite <- (delete_insert_eq D k bi). by apply map_disjoint_delete_l.
Qed.

(** The objects of a thread that holds a run, after it took a region elsewhere. *)
Lemma got_run_cur a M D bi info b p (Q : option Z → astate S T → Prop) :
  got_run a M D bi p → 0 ≤ bi < NBINS → bin_infos !! Z.to_nat bi = Some info → bins a !! Z.to_nat bi = Some b →
  (∀ R G E F k A, p = kaddr k → D !! k = None → opened a R G E F M (<[k := bi]> D) → fresh G (D ∪ F) → has_run (allocated R) G bi k A info →
     Z.of_nat (size A) < nregs info →
     (∀ k A info, runcur b = Some (kaddr k) → has_run (allocated R) G bi k A info → nregs info ≤ Z.of_nat (size A)) → Q None a) →
  (∀ cur, wp (arena_run_reg_alloc cur info) a (λ q a', M !! q = None ∧ got_run a' (<[q := reg_size info]> M) D bi p ∧ a_mem a' = a_mem a) →
     Q (Some cur) a) →
  wp (runcur_free bi) a Q.
Proof.
  intros (R & G & E & F & k & A & info' & -> & HDk & Ho & Hf & Hr & Hs) Hbi Ei Eb Hnone Hsome. pose proof Ho as (He & HM & HD & Hh).
  pose proof Hr as (_ & EG & Ei'). rewrite Ei in Ei'. injection Ei' as <-.
  eapply wp_runcur_free; [exact Hh|exact Hbi|exact Eb|intros; by eapply Hnone|].
  intros k0 A0 info0 Ec Hr0 HD0 Hs0. pose proof Hr0 as (_ & _ & Ei0). rewrite Ei in Ei0. injection Ei0 as <-. apply Hsome.
  eapply wp_cur_alloc; [exact Hh|exact Hbi|exact Eb|exact Ec|exact Hr0|exact HD0|exact Hs0|]. intros a' i Hi HiA Hno Hh' Hm.
  destruct (opened_insert _ _ _ _ _ _ _ _ _ He HM HD Hno Hh') as [Ho' Hp]. split_and!; [done| |done].
  assert (Hne : k ≠ k0). { intros <-. rewrite <- insert_union_l, lookup_insert_eq in HD0. done. }
  exists R, (<[k0 := A0 ∪ {[i]}]> G), E, F, k, A, info. split_and!; try done.
  - apply fresh_upd; [done|]. rewrite <- insert_union_l, lookup_insert_ne in HD0; done.
  - apply (has_run_upd _ _ _ _ _ _ Hr0). by right.
Qed.

Lemma wp_malloc_hard a R G E F M D bi info b (Q : option Z → astate S T → Prop) :
  opened a R G E F M D → fresh G (D ∪ F) → 0 ≤ bi < NBINS → bin_infos !! Z.to_nat bi = Some info → bins a !! Z.to_nat bi = Some b →
  (∀ k A info, runcur b = Some (kaddr k) → has_run (allocated R) G bi k A info → nregs info ≤ Z.of_nat (size A)) →
  (∀ a', owned a' M D → keeps M (a_mem a) (a_mem a') → Q None a') →
  (∀ a' p, M !! p = None → owned a' (<[p := reg_size info]> M) D → keeps M (a_mem a) (a_mem a') → Q (Some p) a') →
  wp (arena_bin_malloc_hard old_word os_purge others bi) a Q.
Proof using All.
  intros (He & HM & HD & Hh) Hf Hbi Ei Eb Hfull Hnone Hsome. unfold arena_bin_malloc_hard. apply wp_bind. eapply wp_info_get; [lia|exact Ei|].
  apply wp_bind. eapply wp_on_bin; [lia|exact Eb|].
  assert (Ho1 : owned (set_bins (<[Z.to_nat bi := set_runcur None b]> (bins a)) a) M D).
  { exists R, G, E, F. split; [split_and!; try done|done]. apply heap_bin; [done..|]. apply clear_cur; [done|].
    by apply (bo_bins _ _ _ _ _ (ha_bins _ _ _ _ _ _ _ Hh)); [lia|]. }
  apply wp_bind. eapply wp_nonfull_run_get; [exact Ho1|exact Hbi| |].
  - intros a2 Ho2 K2. apply wp_bind. eapply wp_alloc_cur; [exact Ho2|exact Hbi|exact Ei| |].
    + intros. by apply wp_ret, Hnone.
    + intros cur Hw. apply wp_bind. eapply wp_mono; [exact Hw|]. intros p a3 (Hp & Ho3 & Hm3). wsteps. apply Hsome; [done..|]. by rewrite Hm3.
  - intros a2 p Hg K2. pose proof Hg as (R2 & G2 & E2 & F2 & k2 & A2 & i2 & _ & _ & (_ & _ & _ & Hh2) & _).
    destruct (heap_get _ _ _ _ _ _ _ _ Hh2 Hbi) as (b2 & Eb2 & _). apply wp_bind. eapply got_run_cur; [exact Hg|exact Hbi|exact Ei|exact Eb2| |].
    + intros R3 G3 E3 F3 k A -> HDk (He3 & HM3 & HD3 & Hh3) Hf3 Hr3 Hs3 Hfull3. pose proof (det_insert_free _ _ _ _ HD3) as HF3.
      eapply wp_new_cur_alloc; [exact Hh3|exact Hbi|exact Eb2|exact Hfull3|exact Hr3|rewrite <- insert_union_l; apply lookup_insert_eq|exact Hs3|].
      intros a3 i Hi HiA Hno Hh4 Hm3. rewrite det_delete in Hh4 by done.
      assert (HD4 : D ##ₘ F3). { rewrite <- (delete_id D k) by done. rewrite <- (delete_insert_eq D k bi). by apply map_disjoint_delete_l. }
      destruct (owned_alloc a3 R3 G3 E3 F3 M D k (A ∪ {[i]}) i info He3 HM3 HD4 Hf3) as [Hp Ho3]; [by apply lookup_union_None|done|done|].
      apply Hsome; [done..|]. by rewrite Hm3.
    + intros cur Hw. apply wp_bind. eapply wp_mono; [exact Hw|]. intros q a3 (Hq & Hg3 & Hm3). apply wp_bind.
      eapply (wp_return_run a3 (<[q := reg_size info]> M) D bi info p); [exact Hg3|exact Hbi|exact Ei|]. intros a4 Ho4 K4. wsteps. apply Hsome; [done..|].
      eapply keeps_trans; [exact K2|]. rewrite <- Hm3. eapply keeps_mono; [|exact K4]. by apply insert_subseteq.
Qed.

(** ** Contents of a new region *)

Lemma info_class bi info : 0 ≤ bi → bin_infos !! Z.to_nat bi = Some info → reg_size_of bi = Some (reg_size info).
Proof using HBI.
  intros Hbi Ei. pose proof (lookup_lt_Some _ _ _ Ei) as Hlt. pose proof bi_len as Hl.
  assert (Hs : is_Some (reg_size_of bi)).
  { unfold reg_size_of. apply fmap_is_Some, lookup_lt_is_Some_2. change (length SIZE_CLASSES) with 32%nat. unfold NBINS in Hl. lia. }
  destruct Hs as [sz Es]. destruct (bi_size bi sz Hbi Es) as (info' & Ei' & <-). rewrite Ei in Ei'. by injection Ei' as <-.
Qed.

(** The size of a region tells its bin. *)
Lemma region_of a R G O D bi info p :
  heap a R G O D → 0 ≤ bi → bin_infos !! Z.to_nat bi = Some info → O !! p = Some (reg_size info) →
  ∃ k A i, has_run (allocated R) G bi k A info ∧ i ∈ A ∧ p = reg_addr k info i ∧ 0 ≤ i < nregs info.
Proof using HBI.
  intros Hh Hbi Ei Ep. pose proof (info_class _ _ Hbi Ei) as Hcl. destruct (reg_size_class _ _ Hbi Hcl) as [Hsz Hbin].
  destruct (obj_in _ _ _ _ _ _ _ _ _ Hh Ep) as (Hz & _).
  apply (ha_objs _ _ _ _ _ _ _ Hh) in Ep as [(k & m & d & _ & _ & Eq)|(k & bi' & A & info' & i & Hr & Hi & -> & Eq)].
  - exfalso. unfold SMALL_MAXCLASS in Hsz. change PAGE with 8192 in Eq. lia.
  - destruct (has_run_hdr _ _ _ _ _ _ _ _ _ (ha_bins _ _ _ _ _ _ _ Hh) Hr) as (Hbi' & r & _ & _ & Hok). pose proof Hr as (_ & _ & Ei').
    pose proof (info_class bi' info' ltac:(lia) Ei') as Hcl'. destruct (reg_size_class bi' _ ltac:(lia) Hcl') as [_ Hbin']. rewrite <- Eq in Hbin'.
    assert (bi' = bi) as -> by congruence. rewrite Ei in Ei'. injection Ei' as <-. exists k, A, i. split_and!; try done; by eapply ro_range.
Qed.

(** Writes inside the slot of a region keep the other objects. *)
Lemma owned_write a M D bi info p f :
  owned a (<[p := reg_size info]> M) D → M !! p = None → 0 ≤ bi → bin_infos !! Z.to_nat bi = Some info →
  mem_but (p - redzone_size info) (reg_interval info) (a_mem a) f →
  owned (set_amem f a) (<[p := reg_size info]> M) D ∧ keeps M (a_mem a) f.
Proof using HBI.
  intros (R & G & E & F & (He & HM & HD & Hh) & Hf) Hp Hbi Ei Hm.
  destruct (region_of _ _ _ _ _ bi info p Hh Hbi Ei) as (k & A & i & Hr & _ & -> & Hi); [rewrite <- insert_union_l; apply lookup_insert_eq|]. split.
  - exists R, G, E, F. split; [split_and!; try done|done]. by eapply heap_slot_mem.
  - eapply keeps_but; [exact Hm|]. intros q z Eq. assert (Hne : q ≠ reg_addr k info i) by congruence.
    eapply obj_slot_apart; [exact Hh| |exact Hr|exact Hi|exact Hne]. rewrite <- insert_union_l, lookup_insert_ne by done. by apply lookup_union_Some_l.
Qed.

(** The region of a new object is zeroed, junk or left alone. *)
Definition fill_small (ret : Z) info (zero : bool) : M (astate S T) unit :=
  if negb zero then
    if opt_junk then arena_alloc_junk_small ret info false
    else if opt_zero then a_memset ret 0 (reg_size info) else mret tt
  else
    (if opt_junk then arena_alloc_junk_small ret info true else mret tt);;
    a_memset ret 0 (reg_size info).

Lemma wp_slot_memset a M D bi info p q c n (Q : unit → astate S T → Prop) :
  owned a (<[p := reg_size info]> M) D → M !! p = None → 0 ≤ bi → bin_infos !! Z.to_nat bi = Some info →
  p - redzone_size info ≤ q → q + n ≤ p - redzone_size info + reg_interval info →
  (∀ a', owned a' (<[p := reg_size info]> M) D → keeps M (a_mem a) (a_mem a') → a_mem a' = memset_bytes q c n (a_mem a) → Q tt a') →
  wp (a_memset q c n) a Q.
Proof using HBI.
  intros Ho Hp Hbi Ei Hq1 Hq2 HQ. unfold a_memset. wsteps.
  destruct (owned_write a M D bi info p (memset_bytes q c n (a_mem a)) Ho Hp Hbi Ei) as [Ho' K']; [|by apply HQ].
  intros y Hy. unfold memset_bytes. destruct (Z.leb_spec q y), (Z.ltb_spec y (q + n)); try done; lia.
Qed.

Lemma wp_fill_small a M D bi info p zero (Q : unit → astate S T → Prop) :
  owned a (<[p := reg_size info]> M) D → M !! p = None → 0 ≤ bi → bin_infos !! Z.to_nat bi = Some info →
  (∀ a', owned a' (<[p := reg_size info]> M) D → keeps M (a_mem a) (a_mem a') →
     (zero = true → ∀ y, p ≤ y < p + reg_size info → a_mem a' y = 0) → Q tt a') →
  wp (fill_small p info zero) a Q.
Proof using HBI.
  intros Ho Hp Hbi Ei HQ. destruct (info_facts _ _ Ei) as (Hrs & Hrz & Hint & _).
  assert (Hset : ∀ a1 q c n (Q1 : unit → astate S T → Prop), owned a1 (<[p := reg_size info]> M) D → keeps M (a_mem a) (a_mem a1) →
    p - redzone_size info ≤ q → q + n ≤ p - redzone_size info + reg_interval info →
    (∀ a', owned a' (<[p := reg_size info]> M) D → keeps M (a_mem a) (a_mem a') → a_mem a' = memset_bytes q c n (a_mem a1) → Q1 tt a') →
    wp (a_memset q c n) a1 Q1).
  { intros a1 q c n Q1 Ho1 K1 Hq1 Hq2 HQ1. eapply wp_slot_memset; [exact Ho1|exact Hp|exact Hbi|exact Ei|lia|lia|].
    intros a' Ho' K' Hm'. apply HQ1; [done| |done]. by eapply keeps_trans. }
  pose proof (keeps_refl M (a_mem a)) as K0. unfold fill_small, arena_alloc_junk_small. destruct zero; cbn [negb].
  - apply wp_bind. assert (Hlast : ∀ a1, owned a1 (<[p := reg_size info]> M) D → keeps M (a_mem a) (a_mem a1) → wp (a_memset p 0 (reg_size info)) a1 Q).
    { intros a1 Ho1 K1. apply Hset; [done|done|lia|lia|]. intros a' Ho' K' Hm'. apply HQ; [done|done|]. intros _ y Hy. rewrite Hm'.
      unfold memset_bytes. by rewrite (proj2 (Z.leb_le p y)), (proj2 (Z.ltb_lt y _)) by lia. }
    destruct opt_junk; [|apply wp_ret; by apply Hlast]. apply wp_bind, Hset; [done|done|lia|lia|]. intros a1 Ho1 K1 _.
    apply Hset; [done|done|lia|lia|]. intros a2 Ho2 K2 _. by apply Hlast.
  - destruct opt_junk; [apply Hset; [done|done|lia|lia|]; intros a1 Ho1 K1 _; by apply HQ|].
    destruct opt_zero; [apply Hset; [done|done|lia|lia|]; intros a1 Ho1 K1 _; by apply HQ|]. apply wp_ret. by apply HQ.
Qed.

(** A new object that the thread owns. *)
Record new_object a M D (lo : Z) (zero : bool) p sz a' : Prop := {
  no_new : M !! p = None;
  no_size : lo ≤ sz;
  no_owned : owned a' (<[p := sz]> M) D;
  no_keeps : keeps M (a_mem a) (a_mem a');
  no_zero : zero = true → ∀ y, p ≤ y < p + sz → a_mem a' y = 0
}.

(** What follows the choice of a region. *)
Lemma wp_new_region a M D bi info p zero (Q : option Z → astate S T → Prop) :
  owned a (<[p := reg_size info]> M) D → M !! p = None → 0 ≤ bi < NBINS → bin_infos !! Z.to_nat bi = Some info →
  (∀ a', owned a' (<[p := reg_size info]> M) D → keeps M (a_mem a) (a_mem a') →
     (zero = true → ∀ y, p ≤ y < p + reg_size info → a_mem a' y = 0) → Q (Some p) a') →
  wp (on_bin bi (set_bin_st (bs_count (reg_size info) 1 0 1));; (fill_small p info zero;; mret (Some p))) a Q.
Proof using HBI.
  intros Ho Hp Hbi Ei HQ. apply wp_bind. eapply wp_st_owned; [exact Ho|exact Hbi|]. intros a2 Ho2 Hm2.
  apply wp_bind. eapply (wp_fill_small a2 M D bi info); [exact Ho2|exact Hp|lia|exact Ei|]. intros a3 Ho3 K3 Hz3. apply wp_ret.
  apply HQ; [exact Ho3|by rewrite <- Hm2|exact Hz3].
Qed.

(** The bin of a request and the size of its regions. *)
Lemma small_request size :
  1 ≤ size ≤ SMALL_MAXCLASS →
  ∃ bi info, SMALL_SIZE2BIN size = Some bi ∧ 0 ≤ bi < NBINS ∧ bin_infos !! Z.to_nat bi = Some info ∧ size ≤ reg_size info ∧ s2u size = Some (reg_size info).
Proof using HBI.
  intros Hsz. destruct (small_lookup size Hsz) as (bi & sz & Ebin & Esz & Hbi & Hle & _).
  destruct (bi_size bi sz ltac:(lia) Esz) as (info & Ei & Ers). exists bi, info. split; [done|]. split; [done|]. split; [done|]. split; [lia|].
  unfold s2u. rewrite (proj2 (Z.leb_le _ _)) by lia. rewrite Ebin. simpl. by rewrite Esz, Ers.
Qed.

Lemma wp_malloc_small a M D size zero (Q : option Z → astate S T → Prop) :
  owned a M D → 1 ≤ size ≤ SMALL_MAXCLASS →
  (∀ a', owned a' M D → keeps M (a_mem a) (a_mem a') → Q None a') →
  (∀ a' p sz, s2u size = Some sz → new_object a M D size zero p sz a' → Q (Some p) a') →
  wp (arena_malloc_small old_word os_purge others size zero) a Q.
Proof using All.
  intros Ho Hsz Hnone Hsome. destruct (small_request size Hsz) as (bi & info & Ebin & Hbi & Ei & Hle & Hs2u).
  unfold arena_malloc_small. wsteps. eapply wp_lift; [exact Ebin|]. wsteps.
  apply wp_check; [apply Z.ltb_lt; lia|]. wsteps. eapply wp_info_get; [lia|exact Ei|]. cbv zeta. apply wp_bind.
  assert (Hfin : ∀ a1 p, M !! p = None → owned a1 (<[p := reg_size info]> M) D → keeps M (a_mem a) (a_mem a1) →
    wp (on_bin bi (set_bin_st (bs_count (reg_size info) 1 0 1));; (fill_small p info zero;; mret (Some p))) a1 Q).
  { intros a1 p Hp Ho1 K1. eapply wp_new_region; [exact Ho1|exact Hp|exact Hbi|exact Ei|]. intros a2 Ho2 K2 Hz2.
    apply (Hsome a2 p (reg_size info) Hs2u). split; [done|lia|done|by eapply keeps_trans|done]. }
  eapply wp_alloc_cur; [exact Ho|exact Hbi|exact Ei| |].
  - intros R G E F b Hop Hf Eb Hfull. apply wp_bind. eapply wp_malloc_hard; [exact Hop|exact Hf|exact Hbi|exact Ei|exact Eb|exact Hfull| |].
    + intros a' Ho' K'. by apply wp_ret, Hnone.
    + intros a' p Hp Ho' K'. apply Hfin; [exact Hp|exact Ho'|exact K'].
  - intros cur Hw. apply wp_bind, wp_bind. eapply wp_mono; [exact Hw|]. intros p a' (Hp & Ho' & Hm'). apply wp_ret. apply (Hfin a' p Hp Ho').
    rewrite Hm'. apply keeps_refl.
Qed.

(** With a free region in the bin's current run the call succeeds at once. *)
Lemma wp_malloc_small_cur a M D size zero bi b cur r (Q : option Z → astate S T → Prop) :
  owned a M D → 1 ≤ size ≤ SMALL_MAXCLASS → SMALL_SIZE2BIN size = Some bi → bins a !! Z.to_nat bi = Some b →
  runcur b = Some cur → runs a !! cur = Some r → 0 < nfree r →
  (∀ a' p sz, s2u size = Some sz → new_object a M D size zero p sz a' → Q (Some p) a') →
  wp (arena_malloc_small old_word os_purge others size zero) a Q.
Proof using All.
  intros Ho Hsz Ebin0 Eb Ec Er Hfree Hsome. destruct (small_request size Hsz) as (bi' & info & Ebin & Hbi & Ei & Hle & Hs2u).
  rewrite Ebin0 in Ebin. injection Ebin as <-. unfold arena_malloc_small. wsteps. eapply wp_lift; [exact Ebin0|]. wsteps.
  apply wp_check; [apply Z.ltb_lt; lia|]. wsteps. eapply wp_info_get; [lia|exact Ei|]. cbv zeta. apply wp_bind.
  eapply wp_alloc_cur; [exact Ho|exact Hbi|exact Ei| |].
  - intros R G E F b1 (_ & _ & _ & Hh) Hf Eb1 Hfull. exfalso. rewrite Eb in Eb1. injection Eb1 as <-.
    pose proof (bo_bins _ _ _ _ _ (ha_bins _ _ _ _ _ _ _ Hh) bi b ltac:(lia) Eb) as Hb.
    destruct (bk_cur _ _ _ _ _ Hb _ Ec) as (k & A & info1 & -> & Hr & _). specialize (Hfull _ _ _ Ec Hr).
    destruct (has_run_hdr _ _ _ _ _ _ _ _ _ (ha_bins _ _ _ _ _ _ _ Hh) Hr) as (_ & r1 & Er1 & _ & Hok). rewrite Er in Er1. injection Er1 as <-.
    pose proof (ro_free _ _ _ Hok). lia.
  - intros cur1 Hw. apply wp_bind, wp_bind. eapply wp_mono; [exact Hw|]. intros p a' (Hp & Ho' & Hm'). apply wp_ret.
    eapply wp_new_region; [exact Ho'|exact Hp|exact Hbi|exact Ei|]. intros a2 Ho2 K2 Hz2.
    apply (Hsome a2 p (reg_size info) Hs2u). rewrite Hm' in K2. by split.
Qed.
End small.
