(* ===== verification/ArenaFree.v ===== *)
(** * Freeing small objects

    A region goes back to its run.  A run whose regions are all free leaves its
    bin and its pages are freed; a run that was full goes back to its bin. *)

From S2P Require Import Prelude OrdTree Bitmap SizeClass BinInfo ArenaBits ChunkIface Arena ArenaMap ArenaTree ArenaInv ArenaRun ArenaDalloc ArenaPurge ArenaTrim ArenaBin ArenaBinInv ArenaObj ArenaBinOps ArenaBinRun ArenaSmall.

Section free.
Context `{Config} `{Opts} {S : Type} `{CL : ChunkLayer S} {T : Type} `{OT : OrdTree T Z}.
Context `{!ChunkLayerLaws S} {FR : Frame} `{!OrdTreeLaws T Z} {HBI : BinInfos}.
Context (old_word : Z → Z → Z) (os_purge : Z → Z → (Z → Z) → (Z → Z)).
Context (C : list (Z * Z)) (N : list Z).
Context (env_holds : gmap Z Z → detached → Prop).
Abbreviation heap := (heap_at C N).
Abbreviation owned := (owned C N env_holds).
Abbreviation opened := (opened C N env_holds).
Implicit Types (a : astate S T) (R Al : layout) (G : regions) (D F : detached) (A : gset Z) (O M E : gmap Z Z)
  (k : Z * Z) (bi n p : Z) (d : bool) (info : arena_bin_info) (b : arena_bin T).

(** ** The run of a freed region *)

Lemma heap_region_free a R G O D D' bi k A info b' r' i :
  heap a R G O D → has_run (allocated R) G bi k A info → i ∈ A →
  run_ok info r' (A ∖ {[i]}) → run_bin r' = bi →
  (∀ k', k' ≠ k → D' !! k' = D !! k') → (D' !! k = None ∨ D' !! k = Some bi) → bin_ok (allocated R) (<[k := A ∖ {[i]}]> G) D' bi b' →
  heap (set_bins (<[Z.to_nat bi := b']> (bins a)) (set_runs (<[kaddr k := r']> (runs a)) a)) R (<[k := A ∖ {[i]}]> G)
    (delete (reg_addr k info i) O) D'.
Proof.
  intros Hh Hr Hi Hok Hrb HD HDk Hb'. apply (heap_set C N a _ _ R G O D _ _ _ Hh); [|by eapply objs_free].
  by eapply (bins_update _ _ _ _ _ _ _ _ _ A _ info); [apply Hh|eapply heap_apart|..].
Qed.

Lemma region_count A (i : Z) : i ∈ A → Z.of_nat (size A) = Z.of_nat (size (A ∖ {[i]})) + 1.
Proof.
  intros Hi. rewrite size_difference by set_solver. rewrite size_singleton.
  assert (size A ≠ 0%nat); [|lia]. intros E%size_empty_inv%leibniz_equiv. set_solver.
Qed.

Section region.
Context a R G O D bi k A info b (r' : arena_run) (i : Z) (Hh : heap a R G O D) (Hbi : 0 ≤ bi < NBINS) (Eb : bins a !! Z.to_nat bi = Some b).
Context (Hr : has_run (allocated R) G bi k A info) (HD : D !! k = None) (Hi : i ∈ A).
Context (Hok : run_ok info r' (A ∖ {[i]})) (Hrb : run_bin r' = bi).
Abbreviation a1 := (set_runs (<[kaddr k := r']> (runs a)) a).

Lemma region_bin : bin_ok (allocated R) G D bi b.
Proof using All. exact (bo_bins _ _ _ _ _ (ha_bins _ _ _ _ _ _ _ Hh) bi b ltac:(lia) Eb). Qed.

(** The run is detached. *)
Lemma region_detached b' :
  bin_ok (allocated R) (<[k := A ∖ {[i]}]> G) (<[k := bi]> D) bi b' →
  heap (set_bins (<[Z.to_nat bi := b']> (bins a)) a1) R (<[k := A ∖ {[i]}]> G) (delete (reg_addr k info i) O) (<[k := bi]> D).
Proof using All.
  intros Hb'. eapply (heap_region_free _ _ _ _ _ _ _ _ _ _ _ _ _ Hh Hr Hi Hok Hrb); [|right; apply lookup_insert_eq|exact Hb'].
  intros k' Hne. by rewrite lookup_insert_ne.
Qed.

(** The bin itself does not change. *)
Lemma region_same_bin : set_bins (<[Z.to_nat bi := b]> (bins a)) a1 = a1.
Proof using All. rewrite list_insert_id by exact Eb. by destruct a. Qed.

Lemma wp_dissociate (Q : unit → astate S T → Prop) :
  A ∖ {[i]} = ∅ →
  (∀ a', heap a' R (<[k := ∅]> G) (delete (reg_addr k info i) O) (<[k := bi]> D) → a_mem a' = a_mem a → Q tt a') →
  wp (arena_dissociate_bin_run (kaddr k) bi) a1 Q.
Proof using All.
  intros He HQ. pose proof region_bin as Hb. pose proof (region_count A i Hi) as Hc. pose proof region_detached as Hdet. pose proof Hr as ((n & d & Ek) & EG & Ei).
  rewrite He in Hc, Hdet. rewrite size_empty in Hc. pose proof (heap_apart _ _ _ _ _ _ _ Hh) as Hap.
  unfold arena_dissociate_bin_run. wsteps. eapply wp_bin_get; [lia|exact Eb|]. destruct (decide (runcur b = Some (kaddr k))) as [Ec|Ec].
  - unfold bin_set. wsteps. apply HQ; [|done]. apply Hdet. by eapply detach_cur.
  - wsteps. eapply wp_info_get; [lia|exact Ei|]. destruct (Z.eqb_spec (nregs info) 1) as [E1|E1]; cbn [negb].
    + apply wp_ret, HQ; [|done]. rewrite <- region_same_bin. apply Hdet. eapply detach_full; [exact Hap|exact Hr|exact Hb|exact HD|exact Ec|lia].
    + destruct (info_facts _ _ Ei) as (_ & _ & _ & _ & _ & Hn & _).
      eapply (wp_runs_remove a1 R bi b k); [eapply (heap_lay C N a); exact Hh|by eexists|lia|exact Eb|apply Hb| |].
      { exists A, info. split_and!; [done..|lia]. }
      intros t Ht. apply HQ; [|done]. apply Hdet. by eapply detach_tree.
Qed.

(** The run had no free region. *)
Lemma wp_no_longer_full (Q : unit → astate S T → Prop) :
  A ∖ {[i]} ≠ ∅ → nregs info ≤ Z.of_nat (size A) → Z.of_nat (size (A ∖ {[i]})) < nregs info → runcur b ≠ Some (kaddr k) →
  (∀ a', heap a' R (<[k := A ∖ {[i]}]> G) (delete (reg_addr k info i) O) D → a_mem a' = a_mem a → Q tt a') →
  wp (arena_bin_lower_run (kaddr k) bi) a1 Q.
Proof using All.
  intros Hne Hfull Hlt Hc HQ.
  assert (Hh1 : heap a1 R (<[k := A ∖ {[i]}]> G) (delete (reg_addr k info i) O) (<[k := bi]> D)).
  { rewrite <- region_same_bin. apply region_detached. eapply detach_full; [by eapply heap_apart|exact Hr|exact region_bin|exact HD|exact Hc|exact Hfull]. }
  eapply wp_lower_run; [exact Hh1| |apply lookup_insert_eq|exact Hne|exact Hlt|].
  - apply (has_run_upd _ _ _ _ _ _ Hr). by left.
  - intros a' Ha' Hm. rewrite delete_insert_id in Ha' by exact HD. by apply HQ.
Qed.

(** The run stays where it is. *)
Lemma region_stays :
  A ∖ {[i]} ≠ ∅ → runcur b = Some (kaddr k) ∨ Z.of_nat (size A) < nregs info →
  heap a1 R (<[k := A ∖ {[i]}]> G) (delete (reg_addr k info i) O) D.
Proof using All.
  intros Hne Hs. rewrite <- region_same_bin. eapply (heap_region_free _ _ _ _ _ _ _ _ _ _ _ _ _ Hh Hr Hi Hok Hrb); [done|by left|].
  eapply adjust; [by eapply heap_apart|exact Hr|exact region_bin|exact HD|exact Hne|]. pose proof (region_count A i Hi). destruct Hs; [by left|right; lia].
Qed.
End region.

(** ** Small objects and their runs *)

(** The object [p] is the region [i] of a run of the bin [bi]. *)
Record small_at a R G E F M D bi c s A info i p : Prop := {
  sa_open : opened a R G E F M D;
  sa_fresh : fresh G (D ∪ F);
  sa_bin : 0 ≤ bi < NBINS;
  sa_run : has_run (allocated R) G bi (c, s) A info;
  sa_reg : i ∈ A;
  sa_addr : p = reg_addr (c, s) info i;
  sa_att : (D ∪ F) !! (c, s) = None
}.

Lemma small_object a M D p sz :
  owned a M D → M !! p = Some sz → sz ≤ SMALL_MAXCLASS →
  ∃ R G E F bi c s A info i, small_at a R G E F M D bi c s A info i p ∧ sz = reg_size info.
Proof.
  intros (R & G & E & F & Ho & Hf) Ep Hsz. pose proof Ho as (He & HM & HD & Hh).
  assert (Ep' : (M ∪ E) !! p = Some sz) by by apply lookup_union_Some_l. destruct (obj_in _ _ _ _ _ _ _ _ _ Hh Ep') as (Hz & _).
  apply (ha_objs _ _ _ _ _ _ _ Hh) in Ep' as [(k & m & d & _ & _ & Eq)|([c s] & bi & A & info & i & Hr & Hi & -> & Eq)].
  - exfalso. unfold SMALL_MAXCLASS in Hsz. change PAGE with 8192 in Eq. lia.
  - destruct (has_run_hdr _ _ _ _ _ _ _ _ _ (ha_bins _ _ _ _ _ _ _ Hh) Hr) as (Hbi & _). exists R, G, E, F, bi, c, s, A, info, i. split; [|done].
    split; [done..|]. destruct ((D ∪ F) !! (c, s)) as [b0|] eqn:E0; [|done]. specialize (Hf _ _ E0). destruct Hr as (_ & EG & _).
    rewrite EG in Hf. injection Hf as ->. set_solver.
Qed.

(** Its chunk and its page. *)
Lemma small_place a R G E F M D bi c s A info i p :
  small_at a R G E F M D bi c s A info i p →
  ∃ n d, R !! (c, s) = Some (n, Small bi d) ∧ run_size info = n * PAGE ∧ CHUNK_ADDR2BASE p = c ∧ c < p ∧
    s ≤ Z.shiftr (p - c) LG_PAGE < s + n ∧ page_in (Z.shiftr (p - c) LG_PAGE) ∧ c mod chunksize = 0.
Proof.
  intros [(_ & _ & _ & Hh) _ Hbi Hr Hi -> _]. pose proof (ha_bins _ _ _ _ _ _ _ Hh) as Hb. pose proof (heap_lay _ _ _ _ _ _ _ Hh) as Hl.
  pose proof Hr as ((n & d & Ek) & EG & Ei). pose proof Ek as [Ek' _]%allocated_lookup. exists n, d.
  destruct (bo_runs _ _ _ _ _ Hb _ _ _ _ Ek) as (_ & r & A' & info' & _ & _ & EG' & Ei' & Es & Hok).
  rewrite Ei in Ei'. injection Ei' as <-. rewrite EG in EG'. injection EG' as <-.
  destruct (region_in _ _ _ _ _ _ _ _ _ _ _ i Hb Hr Ek (ro_range _ _ _ _ _ Ei Hok Hi)) as (? & ? & ? & ? & ?).
  assert (Hp : raddr c s ≤ reg_addr (c, s) info i < raddr c s + n * PAGE) by (unfold kaddr in *; simpl in *; lia).
  destruct (in_run_base _ _ _ _ _ _ _ Hl Ek' Hp). pose proof (page_of _ _ _ _ Hp). destruct (lay_run _ _ _ _ _ _ Hl Ek') as (_ & _ & ? & _ & ? & ? & ? & _).
  split_and!; try done; unfold page_in; lia.
Qed.

(** The word of its page says the bin. *)
Lemma small_bits a R G E F M D bi c s A info i p :
  small_at a R G E F M D bi c s A info i p →
  ∃ w dd, bits_at (hdrs a) c (Z.shiftr (p - c) LG_PAGE) = Some w ∧ small_ok w (Z.shiftr (p - c) LG_PAGE - s) bi dd.
Proof.
  intros Ha. destruct (small_place _ _ _ _ _ _ _ _ _ _ _ _ _ _ Ha) as (n & d & Ek & _ & _ & _ & Hpg & _). destruct Ha as [(_ & _ & _ & Hh) _ _ _ _ _ _].
  eapply small_word_at; [by eapply heap_lay|exact Ek|exact Hpg].
Qed.

Lemma small_mem a f R G E F M D bi c s A info i p :
  small_at a R G E F M D bi c s A info i p → mem_but (p - redzone_size info) (reg_interval info) (a_mem a) f →
  small_at (set_amem f a) R G E F M D bi c s A info i p.
Proof.
  intros [(He & HM & HD & Hh) ? ? Hr Hi Ep ?] Hm. split; try done. split_and!; try done. pose proof Hr as (_ & _ & Ei). rewrite Ep in Hm.
  destruct (has_run_hdr _ _ _ _ _ _ _ _ _ (ha_bins _ _ _ _ _ _ _ Hh) Hr) as (_ & r & _ & _ & Hok).
  eapply heap_slot_mem; [exact Hh|exact Hr|exact (ro_range _ _ _ _ _ Ei Hok Hi)|exact Hm].
Qed.

(** What the owner has after the region was freed. *)
Lemma owned_freed a R G E F M D bi c s A info i p a' A' :
  small_at a R G E F M D bi c s A info i p → is_Some (M !! p) → heap a' R (<[(c, s) := A']> G) (delete p (M ∪ E)) (D ∪ F) → owned a' (delete p M) D.
Proof.
  intros [(He & HM & HD & Hh) Hf _ _ _ _ Hatt] [z Ep] Hh'. rewrite (obj_delete _ _ _ z) in Hh' by done. exists R, (<[(c, s) := A']> G), E, F.
  split; [split_and!; [done|by apply map_disjoint_delete_l|done|done]|]. by apply fresh_upd.
Qed.

(** The same, with the run detached and without regions. *)
Lemma owned_emptied a R G E F M D bi c s A info i p a' :
  small_at a R G E F M D bi c s A info i p → is_Some (M !! p) →
  heap a' R (<[(c, s) := ∅]> G) (delete p (M ∪ E)) (<[(c, s) := bi]> (D ∪ F)) → owned a' (delete p M) (<[(c, s) := bi]> D).
Proof.
  intros [(He & HM & HD & Hh) Hf _ _ _ _ Hatt] [z Ep] Hh'. rewrite (obj_delete _ _ _ z) in Hh' by done. exists R, (<[(c, s) := ∅]> G), E, F. split.
  - apply opened_detach; [done|by apply map_disjoint_delete_l|done..].
  - rewrite <- insert_union_l. intros k' b'. destruct (decide (k' = (c, s))) as [->|Hne]; [by rewrite !lookup_insert_eq|].
    rewrite !lookup_insert_ne by done. apply Hf.
Qed.

(** ** Freeing *)

Context (others : M (astate S T) unit).
Hypothesis os_purge_range : ∀ p n f, mem_but p n f (os_purge p n f).
Hypothesis others_ok : ∀ a M D, owned a M D → wp others a (λ _ a', owned a' M D ∧ keeps M (a_mem a) (a_mem a')).

(** The region is junk, or as it was. *)
Definition junk_freed (ptr : Z) info : M (astate S T) unit :=
  if opt_junk then arena_dalloc_junk_small ptr info else mret tt.

Lemma wp_junk_freed a R G E F M D bi c s A info i p (Q : unit → astate S T → Prop) :
  small_at a R G E F M D bi c s A info i p →
  (∀ f, keeps (delete p M) (a_mem a) f → mem_but (p - redzone_size info) (reg_interval info) (a_mem a) f → Q tt (set_amem f a)) →
  wp (junk_freed p info) a Q.
Proof using HBI.
  intros Ha HQ. destruct Ha as [(_ & HM & _ & Hh) _ Hbi Hr Hi -> _]. pose proof Hr as (_ & _ & Ei). unfold junk_freed.
  destruct opt_junk eqn:Ej; [|apply wp_ret; specialize (HQ (a_mem a) (keeps_refl _ _) (λ _ _, eq_refl)); by destruct a].
  unfold arena_dalloc_junk_small. wsteps. apply wp_check.
  { destruct opt_abort eqn:Eab; [|done]. unfold redzone_error. by rewrite (bi_redzone _ _ Ei Ej Eab). }
  unfold a_memset. wsteps.
  match goal with |- Q tt (set_amem ?g a) => assert (Hm : mem_but (reg_addr (c, s) info i - redzone_size info) (reg_interval info) (a_mem a) g) end.
  { intros y Hy. unfold memset_bytes. destruct (Z.leb_spec (reg_addr (c, s) info i - redzone_size info) y),
      (Z.ltb_spec y (reg_addr (c, s) info i - redzone_size info + reg_interval info)); try done; lia. }
  apply HQ; [|exact Hm].
  destruct (has_run_hdr _ _ _ _ _ _ _ _ _ (ha_bins _ _ _ _ _ _ _ Hh) Hr) as (_ & r & _ & _ & Hok). pose proof (ro_range _ _ _ _ _ Ei Hok Hi) as Hri.
  eapply keeps_but; [exact Hm|]. intros q z [Hne Eq]%lookup_delete_Some. eapply obj_slot_apart; [exact Hh| |exact Hr|exact Hri|by apply not_eq_sym]. by apply lookup_union_Some_l.
Qed.

(** The run of the region, by how many of its regions are left. *)
Lemma wp_after_free a R G E F M D bi c s A info i p b r' (Q : unit → astate S T → Prop) :
  small_at a R G E F M D bi c s A info i p → is_Some (M !! p) → bins a !! Z.to_nat bi = Some b →
  run_ok info r' (A ∖ {[i]}) → run_bin r' = bi →
  (∀ a', owned a' (delete p M) D → keeps (delete p M) (a_mem a) (a_mem a') → Q tt a') →
  wp (if nfree r' =? nregs info then
        arena_dissociate_bin_run (raddr c s) bi;; arena_dalloc_bin_run old_word os_purge others c (raddr c s) bi
      else if (nfree r' =? 1) && negb (bool_decide (runcur b = Some (raddr c s))) then arena_bin_lower_run (raddr c s) bi
      else mret tt) (set_runs (<[raddr c s := r']> (runs a)) a) Q.
Proof using All.
  intros Ha HMp Eb Hok Hrb HQ. pose proof Ha as [(He & HM & HD & Hh) Hf Hbi Hr Hi Ep Hatt]. pose proof (ro_free _ _ _ Hok) as Hfr.
  pose proof (region_count A i Hi) as Hc. change (raddr c s) with (kaddr (c, s)). pose proof (det_free _ _ _ Hatt) as [HD0 _].
  destruct (Z.eqb_spec (nfree r') (nregs info)) as [E1|E1].
  - assert (He0 : A ∖ {[i]} = ∅) by (apply leibniz_equiv, size_empty_inv; lia). apply wp_bind.
    eapply (wp_dissociate a R G (M ∪ E) (D ∪ F) bi (c, s) A info b r' i); [exact Hh|exact Hbi|exact Eb|exact Hr|exact Hatt|exact Hi|exact Hok|exact Hrb|exact He0|].
    intros a1 Ha1 Hm1. rewrite <- Ep in Ha1. eapply (wp_dalloc_bin_run old_word os_purge C N env_holds others os_purge_range others_ok a1 (delete p M) D c s bi);
      [by eapply owned_emptied|exact HD0|exact Hbi|]. intros a2 Ho2 K2. apply HQ; [exact Ho2|]. by rewrite <- Hm1.
  - assert (Hne : A ∖ {[i]} ≠ ∅) by (intros He0; rewrite He0, size_empty in Hfr; lia).
    destruct ((nfree r' =? 1) && negb (bool_decide (runcur b = Some (kaddr (c, s))))) eqn:E2.
    + apply andb_true_iff in E2 as [E2 E3]. apply Z.eqb_eq in E2. apply negb_true_iff, bool_decide_eq_false in E3.
      eapply (wp_no_longer_full a R G (M ∪ E) (D ∪ F) bi (c, s) A info b r' i); [exact Hh|exact Hbi|exact Eb|exact Hr|exact Hatt|exact Hi|exact Hok|exact Hrb|exact Hne|lia|lia|exact E3|].
      intros a1 Ha1 Hm1. rewrite <- Ep in Ha1. apply HQ; [by eapply owned_freed|]. rewrite Hm1. apply keeps_refl.
    + apply wp_ret, HQ; [|apply keeps_refl]. eapply owned_freed; [exact Ha|exact HMp|]. rewrite Ep.
      eapply (region_stays a R G (M ∪ E) (D ∪ F) bi (c, s) A info b r' i); [exact Hh|exact Hbi|exact Eb|exact Hr|exact Hatt|exact Hi|exact Hok|exact Hrb|exact Hne|].
      apply andb_false_iff in E2 as [E2|E2]; [right; apply Z.eqb_neq in E2|left; by apply negb_false_iff, bool_decide_eq_true in E2].
      pose proof Hr as (_ & _ & Ei). destruct (has_run_hdr _ _ _ _ _ _ _ _ _ (ha_bins _ _ _ _ _ _ _ Hh) Hr) as (_ & r & _ & _ & Hok0).
      assert (Z.of_nat (size A) ≤ nregs info); [|lia]. destruct (info_facts _ _ Ei) as (_ & _ & _ & _ & _ & ? & _).
      apply regions_size; [lia|]. intros; by eapply ro_range.
Qed.

Lemma wp_dalloc_bin_locked a M D p sz (Q : unit → astate S T → Prop) :
  owned a M D → M !! p = Some sz → sz ≤ SMALL_MAXCLASS →
  (∀ a', owned a' (delete p M) D → keeps (delete p M) (a_mem a) (a_mem a') → Q tt a') →
  let c := CHUNK_ADDR2BASE p in
  wp (arena_dalloc_bin_locked old_word os_purge others c p (elm (c, Z.shiftr (p - c) LG_PAGE))) a Q.
Proof using All.
  intros Ho HMp Hsz HQ. destruct (small_object _ _ _ _ _ Ho HMp Hsz) as (R & G & E & F & bi & c & s & A & info & i & Ha & _). cbv zeta.
  destruct (small_place _ _ _ _ _ _ _ _ _ _ _ _ _ _ Ha) as (n & d & Ek & Es & -> & _ & Hpg & Hpi & Hcm).
  destruct (small_bits _ _ _ _ _ _ _ _ _ _ _ _ _ _ Ha) as (w & dd & Ew & (_ & _ & _ & Hw)).
  pose proof Ha as [(_ & _ & _ & Hh) _ Hbi Hr Hi Ep Hatt]. pose proof Hr as (_ & EG & Ei).
  destruct (has_run_hdr _ _ _ _ _ _ _ _ _ (ha_bins _ _ _ _ _ _ _ Hh) Hr) as (_ & r & Er & Erb & Hok).
  destruct (heap_get _ _ _ _ _ _ _ _ Hh Hbi) as (b & Eb & _).
  unfold arena_dalloc_bin_locked. apply wp_bind. eapply wp_run_of_page; [by eapply heap_lay|exact Ek|exact Hpg|].
  apply wp_bind. eapply wp_run_get; [exact Er|]. cbv zeta. apply wp_bind, wp_gets. unfold elm. cbn [fst snd]. rewrite (mapelm_bits_at _ _ _ w Hcm Ew), Hw, Erb.
  apply wp_bind. eapply wp_info_get; [lia|exact Ei|]. apply wp_bind. change (if opt_junk then _ else _) with (junk_freed p info).
  eapply wp_junk_freed; [exact Ha|]. intros f Kf Hf. pose proof (small_mem _ f _ _ _ _ _ _ _ _ _ _ _ _ _ Ha Hf) as Ha1.
  apply wp_bind. rewrite Ep. eapply wp_reg_dalloc; [eapply (heap_lay C N a), Hh|exact Ek|lia|exact Ei|exact Es|exact Er|exact Hok|exact Hi|].
  intros r' Hok' Erb'. apply wp_bind. eapply (wp_run_get _ _ r'); [apply lookup_insert_eq|]. apply wp_bind. eapply wp_bin_get; [lia|exact Eb|]. apply wp_bind.
  eapply (wp_after_free (set_amem f a)); [exact Ha1|by eexists|exact Eb|exact Hok'|congruence|]. intros a' Ho' K'. 
  eapply wp_st_owned; [exact Ho'|exact Hbi|]. intros a2 Ho2 Hm2. apply HQ; [exact Ho2|]. rewrite Hm2. eapply keeps_trans; [exact Kf|exact K'].
Qed.

Lemma wp_dalloc_small a M D p sz (Q : unit → astate S T → Prop) :
  owned a M D → M !! p = Some sz → sz ≤ SMALL_MAXCLASS →
  (∀ a', owned a' (delete p M) D → keeps (delete p M) (a_mem a) (a_mem a') → Q tt a') →
  let c := CHUNK_ADDR2BASE p in
  wp (arena_dalloc_small old_word os_purge others c p (Z.shiftr (p - c) LG_PAGE)) a Q.
Proof using All.
  intros Ho HMp Hsz HQ. pose proof (wp_dalloc_bin_locked a M D p sz Q Ho HMp Hsz HQ) as Hw. cbv zeta in *. clear HQ.
  destruct (small_object _ _ _ _ _ Ho HMp Hsz) as (R & G & E & F & bi & c & s & A & info & i & Ha & _).
  destruct (small_place _ _ _ _ _ _ _ _ _ _ _ _ _ _ Ha) as (n & d & Ek & Es & Ec & _ & Hpg & Hpi & Hcm). rewrite Ec in *.
  pose proof Ha as [(_ & _ & _ & Hh) _ Hbi Hr _ _ _]. destruct (has_run_hdr _ _ _ _ _ _ _ _ _ (ha_bins _ _ _ _ _ _ _ Hh) Hr) as (_ & r & Er & Erb & _).
  destruct (heap_get _ _ _ _ _ _ _ _ Hh Hbi) as (b & Eb & _).
  unfold arena_dalloc_small, arena_dalloc_bin. apply wp_bind. eapply wp_mapp; [exact Hpi|]. apply wp_bind.
  eapply wp_run_of_page; [by eapply heap_lay|exact Ek|exact Hpg|]. apply wp_bind. eapply wp_run_get; [exact Er|]. rewrite Erb.
  apply wp_bind. eapply wp_bin_get; [lia|exact Eb|]. exact Hw.
Qed.
End free.
