(* ===== verification/ArenaLarge.v ===== *)
(** * Large objects

    A large object is a run of its own.  The operations work under the lock of
    the arena, so nothing happens between their steps: allocation, aligned
    allocation, deallocation, and shrinking and growing in place. *)

From S2P Require Import Prelude OrdTree Bitmap SizeClass BinInfo ArenaBits ChunkIface Arena ArenaMap ArenaTree ArenaInv ArenaRun ArenaDalloc ArenaPurge ArenaTrim ArenaBin ArenaBinInv ArenaObj ArenaBinOps ArenaBinRun ArenaSmall.

Section large.
Context `{Config} `{Opts} {S : Type} `{CL : ChunkLayer S} {T : Type} `{OT : OrdTree T Z}.
Context `{!ChunkLayerLaws S} {FR : Frame} `{!OrdTreeLaws T Z} {HBI : BinInfos}.
Context (old_word : Z → Z → Z) (os_purge : Z → Z → (Z → Z) → (Z → Z)).
Context (C : list (Z * Z)) (N : list Z).
Context (env_holds : gmap Z Z → detached → Prop).
Abbreviation heap := (heap_at C N).
Abbreviation owned := (owned C N env_holds).
Abbreviation opened := (opened C N env_holds).
Abbreviation new_object := (new_object C N env_holds).
Implicit Types (a : astate S T) (R Al : layout) (G : regions) (D F : detached) (A : gset Z) (O M E : gmap Z Z)
  (k : Z * Z) (bi n p c s m : Z) (d : bool) (info : arena_bin_info) (b : arena_bin T).

(** ** Sizes in pages *)

Lemma ceil_pages size :
  0 < size ≤ arena_maxclass → ∃ m, PAGE_CEILING size = m * PAGE ∧ 0 < m ≤ whole ∧ size ≤ m * PAGE < size + PAGE.
Proof.
  intros Hs. destruct page_facts as (_ & _ & _ & _ & Hmax). fold whole in Hmax. pose proof (maxclass_31 bi_lg) as H31.
  destruct (page_ceiling_cases size) as [[_ ->]|[? _]]; [lia| |change PAGE with 8192 in *; lia].
  destruct (round_up_spec size PAGE) as [Hr Hm]; [done|]. apply Z.mod_divide in Hm as [m Em]; [|done]. rewrite Em in *. exists m.
  change PAGE with 8192 in *. split_and!; lia.
Qed.

(** ** States *)

(** The large object at [p], as its owner sees it. *)
Record large_at a R G E F M D c s n d p : Prop := {
  la_open : opened a R G E F M D;
  la_fresh : fresh G (D ∪ F);
  la_run : R !! (c, s) = Some (n, Large d);
  la_addr : p = raddr c s;
  la_obj : M !! p = Some (n * PAGE)
}.

Lemma large_owned a R G E F M D c s n d p : large_at a R G E F M D c s n d p → owned a M D.
Proof. intros [Ho Hf _ _ _]. by exists R, G, E, F. Qed.

(** An object larger than every region is a run. *)
Lemma large_object a M D p sz :
  owned a M D → M !! p = Some sz → SMALL_MAXCLASS < sz →
  ∃ R G E F c s n d, large_at a R G E F M D c s n d p ∧ sz = n * PAGE.
Proof using HBI.
  intros (R & G & E & F & Ho & Hf) Ep Hsz. pose proof Ho as (He & HM & HD & Hh).
  assert (Ep' : (M ∪ E) !! p = Some sz) by by apply lookup_union_Some_l.
  apply (ha_objs _ _ _ _ _ _ _ Hh) in Ep' as [([c s] & n & d & [Ek _]%allocated_lookup & -> & ->)|(k & bi & A & info & i & Hr & Hi & -> & ->)].
  - exists R, G, E, F, c, s, n, d. split; [|done]. by split.
  - exfalso. destruct (has_run_hdr _ _ _ _ _ _ _ _ _ (ha_bins _ _ _ _ _ _ _ Hh) Hr) as (Hbi & _). pose proof Hr as (_ & _ & Ei).
    pose proof (info_class bi info ltac:(lia) Ei) as Hcl. destruct (reg_size_class bi _ ltac:(lia) Hcl) as [? _]. lia.
Qed.

Lemma large_pos a R G E F M D c s n d p : large_at a R G E F M D c s n d p → 0 < n ≤ whole ∧ map_bias ≤ s ∧ s + n ≤ chunk_npages ∧ CHUNK_ADDR2BASE p = c ∧ c < p.
Proof.
  intros [(_ & _ & _ & Hh) _ Hr -> _]. pose proof (heap_lay _ _ _ _ _ _ _ Hh) as Hl. destruct (lay_run _ _ _ _ _ _ Hl Hr) as (_ & _ & _ & _ & ? & ? & ? & _).
  destruct (in_run_base _ _ _ _ _ _ (raddr c s) Hl Hr) as [? ?]; [change PAGE with 8192; lia|]. unfold whole. split_and!; (done || lia).
Qed.

Lemma large_mem a f R G E F M D c s n d p q len :
  large_at a R G E F M D c s n d p → mem_but q len (a_mem a) f → p ≤ q → q + len ≤ p + n * PAGE →
  large_at (set_amem f a) R G E F M D c s n d p.
Proof.
  intros [(He & HM & HD & Hh) ? Hr Ep EM] Hm Hq Hl. split; try done. split_and!; try done.
  eapply heap_mem; [exact Hh|exact Hr|exact Hm|by rewrite <- Ep|by rewrite <- Ep].
Qed.

(** What the bins see when only large runs and statistics change. *)
Lemma heap_runs a R G O D a' R' O' :
  heap a R G O D → arena_inv a' R' C N → kept a a' →
  (∀ k n bi d, allocated R' !! k = Some (n, Small bi d) ↔ allocated R !! k = Some (n, Small bi d)) →
  (∀ p n, O' !! p = Some n ↔ is_object (allocated R') G p n) → heap a' R' G O' D.
Proof.
  intros Hh Ha' (Eru & Ebs & Est) HA HO'. split; [done| |done|rewrite (kept_lstats _ _ Est); apply Hh].
  rewrite Eru, Ebs. eapply bins_large; [exact HA|apply Hh].
Qed.

(** Statistics. *)
Lemma wp_large_stats a R G E F M D m n (Q : unit → astate S T → Prop) :
  opened a R G E F M D → 0 < m ≤ whole →
  (∀ a', opened a' R G E F M D → a_mem a' = a_mem a → Q tt a') → wp (large_stats_update (m * PAGE) n) a Q.
Proof.
  intros (He & HM & HD & Hh) Hm HQ. unfold large_stats_update. wsteps. rewrite shiftr_page. apply wp_check; [apply Z.leb_le; lia|]. wsteps.
  pose proof (ha_lstats _ _ _ _ _ _ _ Hh) as Hl. destruct (lookup_lt_is_Some_2 (lstats (a_stats a)) (Z.to_nat (m - 1))) as [t Et].
  { unfold nlclasses in Hl. unfold whole in Hm. lia. }
  eapply wp_lift; [exact Et|]. unfold on_stats. wsteps. apply HQ; [|done]. split_and!; try done.
  eapply heap_same; [..|exact Hh]; [reflexivity..|apply length_insert|exact id].
Qed.

(** ** Allocation *)

Lemma opened_new a R G E F M D a' R' k n d :
  opened a R G E F M D → arena_inv a' R' C N → kept a a' → allocated R !! k = None → allocated R' = <[k := (n, Large d)]> (allocated R) →
  opened a' R' G E F (<[kaddr k := n * PAGE]> M) D ∧ M !! kaddr k = None.
Proof.
  intros (He & HM & HD & Hh) Ha' Hk Hn Hal. destruct (objs_new_large _ _ _ _ _ _ _ _ _ _ _ _ Hh Ha' Hn Hal) as [Hno HO].
  apply opened_insert; [done..|]. eapply heap_runs; [exact Hh|exact Ha'|exact Hk| |exact HO]. intros k' n' bi d'. rewrite Hal. split.
  - intros E'. rewrite lookup_insert_ne in E'; [done|]. intros <-. by rewrite lookup_insert_eq in E'.
  - intros E'. rewrite lookup_insert_ne; [done|]. congruence.
Qed.

(** A run of [m] pages as a new large object. *)
Lemma wp_alloc_run_at a R G E F M D m zero (Q : option Z → astate S T → Prop) :
  opened a R G E F M D → fresh G (D ∪ F) → 0 < m ≤ whole →
  (∀ a', no_fit a R m → spare a = None → owned a' M D → a_mem a' = a_mem a → Q None a') →
  (∀ a' R G E F c s d, M !! raddr c s = None → large_at a' R G E F (<[raddr c s := m * PAGE]> M) D c s m d (raddr c s) →
     keeps M (a_mem a) (a_mem a') → Q (Some (raddr c s)) a') →
  wp (arena_run_alloc old_word (m * PAGE) true BININD_INVALID zero) a Q.
Proof.
  intros Ho Hf Hm Hnone Hsome. pose proof Ho as (He & HM & HD & Hh).
  eapply wp_run_alloc; [apply Hh|exact Hm|done|..].
  - intros a' Hno Hsp Ha' Hk Hmem. apply Hnone; [exact Hno|apply Hsp| |done]. exists R, G, E, F. split; [|done]. split_and!; try done.
    eapply heap_runs; [exact Hh|exact Ha'|exact Hk|done|apply Hh].
  - intros a' R' c s d Ha' Hk Hmem Hn Hal. cbn [new_kind] in Hal.
    destruct (opened_new _ _ _ _ _ _ _ _ _ (c, s) _ _ Ho Ha' Hk Hn Hal) as [Ho' Hp]. apply (Hsome a' R' G E F c s d); [exact Hp| |].
    + split; [exact Ho'|exact Hf| |done|apply lookup_insert_eq]. apply (proj1 (allocated_lookup R' (c, s) (m, Large d))). rewrite Hal. apply lookup_insert_eq.
    + eapply keeps_mine. by eapply (keeps_new_run C N a R G _ _ a' R' (c, s)).
Qed.

Lemma wp_alloc_run a M D m zero (Q : option Z → astate S T → Prop) :
  owned a M D → 0 < m ≤ whole →
  (∀ a', owned a' M D → a_mem a' = a_mem a → Q None a') →
  (∀ a' R G E F c s d, M !! raddr c s = None → large_at a' R G E F (<[raddr c s := m * PAGE]> M) D c s m d (raddr c s) →
     keeps M (a_mem a) (a_mem a') → Q (Some (raddr c s)) a') →
  wp (arena_run_alloc old_word (m * PAGE) true BININD_INVALID zero) a Q.
Proof.
  intros (R & G & E & F & Ho & Hf) Hm Hnone Hsome. eapply wp_alloc_run_at; [exact Ho|exact Hf|exact Hm| |exact Hsome].
  intros a' _ _ Ho' Hm'. by apply Hnone.
Qed.

(** ** Contents *)

Lemma large_write a f R G E F M D c s n d p q len :
  large_at a R G E F M D c s n d p → mem_but q len (a_mem a) f → p ≤ q → q + len ≤ p + n * PAGE → keeps (delete p M) (a_mem a) f.
Proof.
  intros [(_ & _ & _ & Hh) _ _ _ Ep] Hm Hq Hl. eapply keeps_but; [exact Hm|]. intros r z [Hne Er]%lookup_delete_Some.
  assert (Hap : ranges_apart (p, n * PAGE) (r, z)) by (eapply obj_apart; [exact Hh|by apply lookup_union_Some_l..|done]).
  unfold ranges_apart in *. simpl in *. lia.
Qed.

Lemma memset_but p c n f : mem_but p n f (memset_bytes p c n f).
Proof. intros y Hy. unfold memset_bytes. destruct (Z.leb_spec p y), (Z.ltb_spec y (p + n)); try done; lia. Qed.

Lemma wp_large_memset a R G E F M D c s n d p q v len (Q : unit → astate S T → Prop) :
  large_at a R G E F M D c s n d p → p ≤ q → q + len ≤ p + n * PAGE →
  (∀ f, large_at (set_amem f a) R G E F M D c s n d p → keeps (delete p M) (a_mem a) f → mem_but q len (a_mem a) f → Q tt (set_amem f a)) →
  wp (a_memset q v len) a Q.
Proof.
  intros Hl Hq Hlen HQ. unfold a_memset. wsteps. pose proof (memset_but q v len (a_mem a)) as Hm. apply HQ; [by eapply large_mem|by eapply large_write|done].
Qed.

Lemma wp_fill_large a R G E F M D c s n d p zero (Q : unit → astate S T → Prop) :
  large_at a R G E F M D c s n d p →
  (∀ f, large_at (set_amem f a) R G E F M D c s n d p → keeps (delete p M) (a_mem a) f → Q tt (set_amem f a)) →
  wp (fill_large p (n * PAGE) zero) a Q.
Proof.
  intros Hl HQ. assert (Hset : ∀ v, wp (a_memset p v (n * PAGE)) a Q).
  { intros v. eapply wp_large_memset; [exact Hl|lia|lia|]. intros f Hf K _. by apply HQ. }
  unfold fill_large. specialize (HQ (a_mem a)). assert (Ea : set_amem (a_mem a) a = a) by by destruct a. rewrite Ea in HQ.
  destruct zero; [|destruct opt_junk; [exact (Hset _)|]; destruct opt_zero; [exact (Hset _)|]]; apply wp_ret; exact (HQ Hl (keeps_refl _ _)).
Qed.

(** What follows the allocation of the run. *)
Lemma wp_new_large a R G E F M D c s m d p zero (Q : option Z → astate S T → Prop) :
  large_at a R G E F (<[p := m * PAGE]> M) D c s m d p → M !! p = None →
  (∀ a', owned a' (<[p := m * PAGE]> M) D → keeps M (a_mem a) (a_mem a') → Q (Some p) a') →
  wp (large_stats_update (m * PAGE) 1;; fill_large p (m * PAGE) zero;; mret (Some p)) a Q.
Proof.
  intros Hl Hp HQ. destruct (large_pos _ _ _ _ _ _ _ _ _ _ _ _ Hl) as (Hm & _). apply wp_bind. eapply wp_large_stats; [apply Hl|exact Hm|].
  intros a2 Ho2 Hm2. apply wp_bind. eapply wp_fill_large; [split; [exact Ho2|apply Hl..]|]. intros f Hl3 K3. apply wp_ret.
  rewrite delete_insert_id in K3 by done. apply HQ; [by eapply large_owned|]. by rewrite Hm2 in K3.
Qed.

Lemma wp_malloc_large a M D size zero (Q : option Z → astate S T → Prop) :
  owned a M D → 0 < size ≤ arena_maxclass →
  (∀ a', owned a' M D → a_mem a' = a_mem a → Q None a') →
  (∀ a' p, new_object a M D size false p (PAGE_CEILING size) a' → Q (Some p) a') →
  wp (arena_malloc_large old_word size zero) a Q.
Proof using HBI OrdTreeLaws0.
  intros Ho Hs Hnone Hsome. destruct (ceil_pages size Hs) as (m & Em & Hm & Hle). unfold arena_malloc_large. cbv zeta. rewrite Em in *.
  apply wp_bind. eapply wp_alloc_run; [exact Ho|exact Hm|intros; by apply wp_ret, Hnone|].
  intros a1 R G E F c s d Hp Hl1 K1. eapply wp_new_large; [exact Hl1|exact Hp|]. intros a2 Ho2 K2. apply Hsome.
  split; [done|lia|done|by eapply keeps_trans|done].
Qed.

(** The call fails only when no free run is long enough and there is no spare chunk. *)
Lemma wp_malloc_large_fits a R G E F M D size zero c s n d (Q : option Z → astate S T → Prop) :
  opened a R G E F M D → fresh G (D ∪ F) → 0 < size ≤ arena_maxclass →
  (spare a ≠ None ∨ R !! (c, s) = Some (n, Free d) ∧ size ≤ n * PAGE) →
  (∀ a' p, new_object a M D size false p (PAGE_CEILING size) a' → Q (Some p) a') →
  wp (arena_malloc_large old_word size zero) a Q.
Proof using HBI OrdTreeLaws0.
  intros Ho Hf Hs Hfit Hsome. destruct (ceil_pages size Hs) as (m & Em & Hm & Hle). unfold arena_malloc_large. cbv zeta. rewrite Em in *.
  apply wp_bind. eapply wp_alloc_run_at; [exact Ho|exact Hf|exact Hm| |].
  - intros a' Hno Hsp. exfalso. destruct Hfit as [?|[Hr Hn]]; [done|]. specialize (Hno c s n d Hr).
    assert (Hsc : ¬ is_spare a c) by (unfold is_spare; by rewrite Hsp). specialize (Hno Hsc). change PAGE with 8192 in *. lia.
  - intros a1 R1 G1 E1 F1 c1 s1 d1 Hp Hl1 K1. eapply wp_new_large; [exact Hl1|exact Hp|]. intros a2 Ho2 K2. apply Hsome.
    split; [done|lia|done|by eapply keeps_trans|done].
Qed.

(** ** Large runs change *)

(** Objects outside the run keep their contents when the other runs do. *)
Lemma keeps_others a R G E F M D c s n d p f :
  large_at a R G E F M D c s n d p →
  (∀ c' s' n' kd', (c', s') ≠ (c, s) → allocated R !! (c', s') = Some (n', kd') → ∀ y, raddr c' s' ≤ y < raddr c' s' + n' * PAGE → f y = a_mem a y) →
  keeps (delete p M) (a_mem a) f.
Proof.
  intros [(_ & HM & _ & Hh) _ Hr -> Ep] Hf. assert (Ek : allocated R !! (c, s) = Some (n, Large d)) by by apply allocated_lookup.
  intros q z [Hne Eq]%lookup_delete_Some y Hy.
  assert (Eq' : delete (kaddr (c, s)) (M ∪ E) !! q = Some z) by (apply lookup_delete_Some; split; [done|by apply lookup_union_Some_l]).
  apply (objs_drop_large _ _ _ _ _ _ _ _ _ _ Hh Ek) in Eq'.
  destruct (object_in _ _ _ _ _ _ _ _ _ _ Hh (delete_subseteq _ _) Eq') as (_ & [c' s'] & n' & k' & [Hk E']%lookup_delete_Some & _ & ? & ?).
  apply (Hf c' s' n' k'); [congruence|done|]. unfold kaddr in *. simpl in *. lia.
Qed.

Lemma large_to a R G E F M D c s n d p a' R' s' m d' :
  large_at a R G E F M D c s n d p → arena_inv a' R' C N → kept a a' →
  allocated R' = <[(c, s') := (m, Large d')]> (delete (c, s) (allocated R)) → s' = s ∨ allocated R !! (c, s') = None →
  large_at a' R' G E F (<[raddr c s' := m * PAGE]> (delete p M)) D c s' m d' (raddr c s').
Proof.
  intros [(He & HM & HD & Hh) Hf Hr -> Ep] Ha' Hk Hal Hs'. assert (Ek : allocated R !! (c, s) = Some (n, Large d)) by by apply allocated_lookup.
  destruct (objs_add_large _ _ _ _ _ _ _ (delete (c, s) (allocated R)) (delete (raddr c s) (M ∪ E)) (hdrs a') R' (c, s') m d' Hh) as [Hno HO];
    [apply delete_subseteq|by eapply (objs_drop_large _ _ _ _ _ _ _ (c, s)); [exact Hh|exact Ek]|apply (aa_core _ _ _ _ _ _ _ _ Ha')| |exact Hal|].
  { destruct Hs' as [->|Hs']; [apply lookup_delete_eq|]. apply lookup_delete_None. by right. }
  rewrite (obj_delete _ _ _ (n * PAGE)) in Hno, HO by done. change (kaddr (c, s')) with (raddr c s') in *.
  apply lookup_union_None in Hno as [Hno1 Hno2]. split; [|done| |done|apply lookup_insert_eq].
  - split_and!; [done|apply map_disjoint_insert_l; split; [done|by apply map_disjoint_delete_l]|done|].
    rewrite <- insert_union_l. eapply heap_runs; [exact Hh|exact Ha'|exact Hk| |exact HO]. intros k' n' bi d0. rewrite Hal. split.
    + intros E'. apply lookup_insert_Some in E' as [[_ [=]]|[_ [_ E']%lookup_delete_Some]]. done.
    + intros E'. assert (k' ≠ (c, s)) by (intros ->; congruence). rewrite lookup_insert_ne; [by rewrite lookup_delete_ne|].
      intros <-. destruct Hs' as [->|Hs']; congruence.
  - apply (proj1 (allocated_lookup R' (c, s') (m, Large d'))). rewrite Hal. apply lookup_insert_eq.
Qed.

(** ** Deallocation *)

Hypothesis os_purge_range : ∀ p n f, mem_but p n f (os_purge p n f).

Lemma wp_free_run a R G E F M D c s n d p (Q : unit → astate S T → Prop) :
  large_at a R G E F M D c s n d p →
  (∀ a', owned a' (delete p M) D → keeps (delete p M) (a_mem a) (a_mem a') → Q tt a') →
  wp (arena_run_dalloc old_word os_purge p true) a Q.
Proof using os_purge_range OrdTreeLaws0 HBI.
  intros Hl HQ. pose proof Hl as [(He & HM & HD & Hh) Hf Hr -> Ep]. assert (Ek : allocated R !! (c, s) = Some (n, Large d)) by by apply allocated_lookup.
  eapply (wp_run_dalloc old_word os_purge os_purge_range); [apply Hh|eapply bins_hdrs, Hh|exact Ek|]. intros a' R' [Ha' Hal Hk Hm]. apply HQ.
  - exists R', G, E, F. split; [|done]. split_and!; [done|by apply map_disjoint_delete_l|done|].
    rewrite <- (obj_delete _ _ _ (n * PAGE)) by done. eapply heap_runs; [exact Hh|exact Ha'|exact Hk| |].
    + intros k' n' bi d0. rewrite Hal, lookup_delete_Some. split; [tauto|]. intros E'. split; [|done]. intros <-. congruence.
    + rewrite Hal. by eapply (objs_drop_large _ _ _ _ _ _ _ (c, s)); [exact Hh|exact Ek].
  - eapply keeps_others; [exact Hl|]. intros c' s' n' k' Hne E' y Hy. by eapply Hm.
Qed.

Lemma wp_dalloc_large a M D p sz (Q : unit → astate S T → Prop) :
  owned a M D → M !! p = Some sz → SMALL_MAXCLASS < sz →
  (∀ a', owned a' (delete p M) D → keeps (delete p M) (a_mem a) (a_mem a') → Q tt a') →
  wp (arena_dalloc_large old_word os_purge (CHUNK_ADDR2BASE p) p) a Q.
Proof using os_purge_range OrdTreeLaws0 HBI.
  intros Ho Ep Hsz HQ. destruct (large_object _ _ _ _ _ Ho Ep Hsz) as (R & G & E & F & c & s & n & d & Hl & _).
  destruct (large_pos _ _ _ _ _ _ _ _ _ _ _ _ Hl) as (Hn & _ & _ & -> & _). pose proof Hl as [Ho1 Hf Hr Epc EM].
  unfold arena_dalloc_large, arena_dalloc_large_locked. rewrite Epc at 1. rewrite raddr_page. apply wp_bind.
  eapply wp_large_size; [apply (lo_words _ _ (heap_lay _ _ _ _ _ _ _ (proj2 (proj2 (proj2 Ho1)))) _ _ _ _ Hr)|]. apply wp_bind.
  assert (Hrest : ∀ f, large_at (set_amem f a) R G E F M D c s n d p → keeps (delete p M) (a_mem a) f →
    wp (large_stats_update (n * PAGE) (-1);; arena_run_dalloc old_word os_purge p true) (set_amem f a) Q).
  { intros f Hl1 K1. apply wp_bind. eapply wp_large_stats; [apply Hl1|exact Hn|]. intros a2 Ho2 Hm2. eapply wp_free_run; [by split|].
    intros a3 Ho3 K3. apply HQ; [exact Ho3|]. rewrite Hm2 in K3. eapply keeps_trans; [exact K1|exact K3]. }
  destruct opt_junk.
  - eapply wp_large_memset; [exact Hl|lia|lia|]. intros f Hl1 K1 _. by apply Hrest.
  - apply wp_ret. specialize (Hrest (a_mem a)). assert (Ea : set_amem (a_mem a) a = a) by by destruct a. rewrite Ea in Hrest. apply Hrest; [exact Hl|apply keeps_refl].
Qed.

(** ** Trimming *)

(** The run of a large object is inside the 47 bits of user addresses. *)
Lemma large_below a R G E F M D c s n d p : large_at a R G E F M D c s n d p → 0 < p ∧ p mod PAGE = 0 ∧ p + n * PAGE ≤ 2 ^ 47.
Proof.
  intros Hl. destruct (large_pos _ _ _ _ _ _ _ _ _ _ _ _ Hl) as (Hn & Hs & Hsn & _). destruct Hl as [(_ & _ & _ & Hh) _ Hr -> _].
  destruct (lay_run _ _ _ _ _ _ (heap_lay _ _ _ _ _ _ _ Hh) Hr) as (_ & Hc & Hcm & Hc0 & _). destruct page_facts as (Hb & _ & Hcp & _).
  destruct (chunk_owned _ _ _ _ _ _ _ _ Hh Hc) as [Hcr _].
  destruct Hcr as (_ & _ & _ & _ & ?). unfold raddr. change PAGE with 8192 in *. split_and!; [lia| |lia].
  rewrite Z.mod_add by done. apply Z.mod_divide; [done|]. apply Z.mod_divide in Hcm as [q Eq]; [|pose proof chunksize_pos; lia]. exists (q * chunk_npages). lia.
Qed.

(** The run keeps its first [m] pages. *)
Lemma wp_trim_tail_obj a R G E F M D c s n m d p dirty (Q : unit → astate S T → Prop) :
  large_at a R G E F M D c s n d p → 0 < m < n →
  (∀ a' R', large_at a' R' G E F (<[p := m * PAGE]> M) D c s m d p → keeps (<[p := m * PAGE]> M) (a_mem a) (a_mem a') → Q tt a') →
  wp (arena_run_trim_tail old_word os_purge c p (n * PAGE) (m * PAGE) dirty) a Q.
Proof using os_purge_range OrdTreeLaws0 HBI.
  intros Hl Hm HQ. pose proof Hl as [(He & HM & HD & Hh) Hf Hr -> Ep].
  eapply (wp_trim_tail old_word os_purge os_purge_range); [apply Hh|eapply bins_hdrs, Hh|exact Hr|exact Hm|]. intros a' R' [Ha' Hal Hk Ho Hrest].
  pose proof (large_to _ _ _ _ _ _ _ _ _ _ _ _ _ _ _ _ _ Hl Ha' Hk Hal (or_introl eq_refl)) as Hl'. rewrite insert_delete_eq in Hl'.
  apply (HQ a' R'); [exact Hl'|]. intros q z [[<- <-]|[Hne Eq]]%lookup_insert_Some; [exact Hrest|].
  apply (keeps_others _ _ _ _ _ _ _ _ _ _ _ _ (a_mem a') Hl Ho). by apply lookup_delete_Some.
Qed.

(** The run keeps its last [m] pages. *)
Lemma wp_trim_head_obj a R G E F M D c s n m d p (Q : unit → astate S T → Prop) :
  large_at a R G E F M D c s n d p → 0 < m < n →
  (∀ a' R', large_at a' R' G E F (<[p + (n - m) * PAGE := m * PAGE]> (delete p M)) D c (s + (n - m)) m d (p + (n - m) * PAGE) →
     keeps (delete p M) (a_mem a) (a_mem a') → Q tt a') →
  wp (arena_run_trim_head old_word os_purge c p (n * PAGE) (m * PAGE)) a Q.
Proof using os_purge_range OrdTreeLaws0 HBI.
  intros Hl Hm HQ. pose proof Hl as [(He & HM & HD & Hh) Hf Hr -> Ep].
  eapply (wp_trim_head old_word os_purge os_purge_range); [apply Hh|eapply bins_hdrs, Hh|exact Hr|exact Hm|]. intros a' R' [Ha' Hal Hk Ho Hrest].
  assert (Hno : allocated R !! (c, s + (n - m)) = None).
  { apply eq_None_ne_Some. intros v [E' _]%allocated_lookup. by rewrite (pt_inside _ _ _ _ _ _ _ (lo_part _ _ (heap_lay _ _ _ _ _ _ _ Hh)) Hr) in E' by lia. }
  pose proof (large_to _ _ _ _ _ _ _ _ _ _ _ _ _ _ _ _ _ Hl Ha' Hk Hal (or_intror Hno)) as Hl'.
  replace (raddr c (s + (n - m))) with (raddr c s + (n - m) * PAGE) in Hl' by (unfold raddr; lia). apply (HQ a' R' Hl').
  exact (keeps_others _ _ _ _ _ _ _ _ _ _ _ _ (a_mem a') Hl Ho).
Qed.

(** ** Aligned allocation *)

(** An aligned object fits into the larger run. *)
Lemma palloc_lead p m l al :
  0 ≤ p → p mod PAGE = 0 → 0 < m → al = l * PAGE → 0 < l →
  ∃ lead, round_up p al - p = lead * PAGE ∧ 0 ≤ lead ≤ l - 1.
Proof.
  intros Hp Hpm Hm -> Hl. destruct (round_up_spec p (l * PAGE)) as [Hr Hrm]; [change PAGE with 8192; lia|].
  apply Z.mod_divide in Hpm as [q ->]; [|done]. apply Z.mod_divide in Hrm as [t Et]; [|change PAGE with 8192; lia]. rewrite Et in *.
  exists (t * l - q). change PAGE with 8192 in *. nia.
Qed.

(** What follows the trimming of the head of the larger run. *)
Lemma wp_palloc_tail a R G E F M D c s n m d p zero (Q : option Z → astate S T → Prop) :
  large_at a R G E F (<[p := n * PAGE]> M) D c s n d p → M !! p = None → 0 < m ≤ n →
  (∀ a', owned a' (<[p := m * PAGE]> M) D → keeps M (a_mem a) (a_mem a') → Q (Some p) a') →
  wp ((if negb ((n - m) * PAGE =? 0) then arena_run_trim_tail old_word os_purge c p (n * PAGE) (m * PAGE) false else mret tt);;
      large_stats_update (m * PAGE) 1;; fill_large p (m * PAGE) zero;; mret (Some p)) a Q.
Proof using os_purge_range OrdTreeLaws0 HBI.
  intros Hl Hp Hm HQ. apply wp_bind. destruct (Z.eqb_spec ((n - m) * PAGE) 0) as [E0|E0]; cbn [negb].
  - assert (n = m) as -> by (change PAGE with 8192 in *; lia). apply wp_ret. eapply wp_new_large; [exact Hl|exact Hp|exact HQ].
  - eapply wp_trim_tail_obj; [exact Hl|change PAGE with 8192 in *; lia|]. intros a1 R1 Hl1 K1. rewrite insert_insert_eq in Hl1, K1.
    eapply wp_new_large; [exact Hl1|exact Hp|]. intros a2 Ho2 K2. apply HQ; [exact Ho2|]. eapply keeps_trans; [|exact K2].
    eapply keeps_mono; [|exact K1]. by apply insert_subseteq.
Qed.

(** Another object does not begin inside a large one. *)
Lemma large_inside a R G E F M D c s n d p x :
  large_at a R G E F (<[p := n * PAGE]> M) D c s n d p → 0 < x < n → M !! (p + x * PAGE) = None.
Proof.
  intros [(_ & HM & _ & Hh) _ _ _ EM] Hx. apply eq_None_ne_Some. intros z Ez. assert (Hne : p ≠ p + x * PAGE) by (change PAGE with 8192; lia).
  assert (Ez' : (<[p := n * PAGE]> M ∪ E) !! (p + x * PAGE) = Some z) by (apply lookup_union_Some_l; by rewrite lookup_insert_ne).
  assert (Hap : ranges_apart (p, n * PAGE) (p + x * PAGE, z)) by (eapply obj_apart; [exact Hh|by apply lookup_union_Some_l|done|done]).
  destruct (obj_in _ _ _ _ _ _ _ _ _ Hh Ez') as (Hz & _). unfold ranges_apart in Hap. simpl in Hap. change PAGE with 8192 in *. lia.
Qed.

Lemma wp_palloc a M D m j zero (Q : option Z → astate S T → Prop) :
  let al := PAGE_CEILING (2 ^ j) in
  owned a M D → 0 ≤ j ≤ 46 → 0 < m → m * PAGE + al - PAGE ≤ arena_maxclass →
  (∀ a', owned a' M D → a_mem a' = a_mem a → Q None a') →
  (∀ a' p, new_object a M D (m * PAGE) false p (m * PAGE) a' → p mod al = 0 → Q (Some p) a') →
  wp (arena_palloc old_word os_purge (m * PAGE) (2 ^ j) zero) a Q.
Proof using os_purge_range OrdTreeLaws0 HBI.
  intros al Ho Hj Hm Hmax Hnone Hsome. destruct page_facts as (_ & _ & _ & _ & Hmc). fold whole in Hmc. pose proof (maxclass_31 bi_lg) as H31.
  set (x := Z.max j 13). assert (Eal : al = 2 ^ x) by (apply page_ceiling_pow2; lia). assert (Hx : 13 ≤ x ≤ 46) by (unfold x; lia).
  assert (Hpow : 2 ^ x = 2 ^ (x - 13) * PAGE) by (change PAGE with (2 ^ 13); rewrite <- Z.pow_add_r by lia; f_equal; lia).
  set (l := 2 ^ (x - 13)) in *. assert (Hl0 : 0 < l) by (apply pow2_pos; lia). assert (Hle : 2 ^ x ≤ 2 ^ 46) by (apply Z.pow_le_mono_r; lia).
  unfold arena_palloc. fold al. rewrite Eal, Hpow in *. cbv zeta. apply wp_bind. apply wp_check; [apply Z.eqb_eq, size_mask; by apply Z.mod_mul|].
  assert (Hu : 0 ≤ m * PAGE + l * PAGE - PAGE < 2 ^ 64) by (change PAGE with 8192 in *; lia). rewrite (u64_small _ Hu).
  replace (m * PAGE + l * PAGE - PAGE) with ((m + l - 1) * PAGE) by lia.
  apply wp_bind. eapply wp_alloc_run; [exact Ho|change PAGE with 8192 in *; lia|intros; by apply wp_ret, Hnone|].
  intros a1 R G E F c s d Hp Hl1 K1. destruct (large_below _ _ _ _ _ _ _ _ _ _ _ _ Hl1) as (Hp0 & Hpm & Hp47).
  destruct (large_pos _ _ _ _ _ _ _ _ _ _ _ _ Hl1) as (_ & _ & _ & -> & _). set (p := raddr c s) in *.
  assert (Eac : ALIGNMENT_CEILING p (l * PAGE) = round_up p (l * PAGE)).
  { rewrite <- Hpow, alignment_ceiling_mask by lia. apply ceil_mask_round_up; lia. }
  rewrite Eac. destruct (palloc_lead p m l (l * PAGE)) as (lead & Elead & Hlead); [lia|done|done|done|done|]. rewrite Elead.
  destruct (round_up_spec p (l * PAGE)) as [_ Hal]; [change PAGE with 8192; lia|].
  apply wp_bind. apply wp_check; [apply Z.leb_le; change PAGE with 8192; lia|]. apply wp_bind.
  replace ((m + l - 1) * PAGE - lead * PAGE - m * PAGE) with ((m + l - 1 - lead - m) * PAGE) by lia.
  replace ((m + l - 1) * PAGE - lead * PAGE) with ((m + l - 1 - lead) * PAGE) by lia.
  replace (m * PAGE + (m + l - 1 - lead - m) * PAGE) with ((m + l - 1 - lead) * PAGE) by lia.
  assert (Hend : ∀ a', owned a' (<[p + lead * PAGE := m * PAGE]> M) D → M !! (p + lead * PAGE) = None → keeps M (a_mem a) (a_mem a') → Q (Some (p + lead * PAGE)) a').
  { intros a' Ho' Hn' K'. apply Hsome; [by split|]. replace (p + lead * PAGE) with (round_up p (l * PAGE)) by lia. exact Hal. }
  clear Hsome Hnone. destruct (Z.eqb_spec (lead * PAGE) 0) as [E0|E0]; cbn [negb].
  - apply wp_ret. assert (lead = 0) as -> by (change PAGE with 8192 in *; lia). rewrite Z.mul_0_l, Z.add_0_r, Z.sub_0_r in *.
    eapply wp_palloc_tail; [exact Hl1|exact Hp|lia|]. intros a2 Ho2 K2. apply Hend; [exact Ho2|exact Hp|by eapply keeps_trans].
  - eapply wp_trim_head_obj; [exact Hl1|lia|]. intros a2 R2 Hl2 K2. rewrite delete_insert_id in Hl2, K2 by done.
    replace (m + l - 1 - (m + l - 1 - lead)) with lead in Hl2 by lia.
    assert (Hn2 : M !! (p + lead * PAGE) = None) by (eapply (large_inside a1 R G E F); [exact Hl1|change PAGE with 8192 in *; lia]).
    eapply wp_palloc_tail; [exact Hl2|exact Hn2|lia|]. intros a3 Ho3 K3.
    apply Hend; [exact Ho3|exact Hn2|]. eapply keeps_trans; [exact K1|]. by eapply keeps_trans.
Qed.
End large.
