(* ===== verification/ArenaResize.v ===== *)
(** * Resizing in place

    A large object loses its last pages or takes pages of the free run behind
    it; a small one stays where it is when its region fits the new size. *)

From S2P Require Import Prelude OrdTree Bitmap SizeClass BinInfo ArenaBits ChunkIface Arena ArenaMap ArenaTree ArenaInv ArenaRun ArenaDalloc ArenaPurge ArenaTrim ArenaBin ArenaBinInv ArenaObj ArenaBinOps ArenaBinRun ArenaSmall ArenaFree ArenaLarge.

Section resize.
Context `{Config} `{Opts} {S : Type} `{CL : ChunkLayer S} {T : Type} `{OT : OrdTree T Z}.
Context `{!ChunkLayerLaws S} {FR : Frame} `{!OrdTreeLaws T Z} {HBI : BinInfos}.
Context (old_word : Z → Z → Z) (os_purge : Z → Z → (Z → Z) → (Z → Z)).
Context (C : list (Z * Z)) (N : list Z).
Context (env_holds : gmap Z Z → detached → Prop).
Abbreviation heap := (heap_at C N).
Abbreviation owned := (owned C N env_holds).
Abbreviation opened := (opened C N env_holds).
Abbreviation large_at := (large_at C N env_holds).
Abbreviation small_at := (small_at C N env_holds).
Implicit Types (a : astate S T) (R Al : layout) (G : regions) (D F : detached) (A : gset Z) (O M E : gmap Z Z)
  (k : Z * Z) (bi n p c s m : Z) (d : bool) (info : arena_bin_info) (b : arena_bin T).
Hypothesis os_purge_range : ∀ p n f, mem_but p n f (os_purge p n f).

(** Statistics of an object that changed its size. *)
Lemma wp_resize_stats a R G E F M D c s n m d p (Q : unit → astate S T → Prop) :
  large_at a R G E F M D c s m d p → 0 < n ≤ whole →
  (∀ a', owned a' M D → a_mem a' = a_mem a → Q tt a') →
  wp (large_stats_update (n * PAGE) (-1);; large_stats_update (m * PAGE) 1) a Q.
Proof.
  intros Hl Hn HQ. destruct (large_pos _ _ _ _ _ _ _ _ _ _ _ _ _ _ _ Hl) as (Hm & _). apply wp_bind. eapply wp_large_stats; [apply Hl|exact Hn|].
  intros a1 Ho1 Hm1. eapply wp_large_stats; [exact Ho1|exact Hm|]. intros a2 Ho2 Hm2. apply HQ; [|congruence].
  exists R, G, E, F. split; [exact Ho2|apply Hl].
Qed.

(** ** Shrinking *)

Lemma wp_ralloc_shrink a R G E F M D c s n m d p (Q : unit → astate S T → Prop) :
  large_at a R G E F M D c s n d p → 0 < m < n →
  (∀ a', owned a' (<[p := m * PAGE]> M) D → keeps (<[p := m * PAGE]> M) (a_mem a) (a_mem a') → Q tt a') →
  wp (arena_ralloc_large_shrink old_word os_purge c p (n * PAGE) (m * PAGE)) a Q.
Proof using os_purge_range OrdTreeLaws0 HBI.
  intros Hl Hm HQ. destruct (large_pos _ _ _ _ _ _ _ _ _ _ _ _ _ _ _ Hl) as (Hn & _). unfold arena_ralloc_large_shrink. apply wp_bind.
  apply wp_check; [apply Z.ltb_lt; change PAGE with 8192; lia|]. apply wp_bind. eapply wp_trim_tail_obj; [exact os_purge_range|exact Hl|exact Hm|].
  intros a1 R1 Hl1 K1. eapply wp_resize_stats; [exact Hl1|exact Hn|]. intros a2 Ho2 Hm2. apply HQ; [exact Ho2|]. by rewrite Hm2.
Qed.

(** ** Growing *)

(** A chunk with an allocated run is not the spare one. *)
Lemma run_not_spare a R c s n kd : arena_inv a R C N → R !! (c, s) = Some (n, kd) → is_free kd = false → spare a ≠ Some c.
Proof.
  intros Ha Hr Hk Hs. destruct (ac_spare _ _ _ (aa_core _ _ _ _ _ _ _ _ Ha) _ Hs) as [[d Ew] _].
  pose proof (lo_part _ _ (ac_lay _ _ _ (aa_core _ _ _ _ _ _ _ _ Ha))) as Hp.
  pose proof (pt_whole _ _ _ _ _ _ _ _ Hp Ew eq_refl Hr) as ->. rewrite Ew in Hr. injection Hr as _ <-. done.
Qed.

(** The pages taken from the free run become part of the large one. *)
Lemma grow_allocated (P : Z → Prop) R c s n f y d1 d2 d :
  partition P R → R !! (c, s) = Some (n, Large d1) → R !! (c, s + n) = Some (f, Free d2) → 0 < y ≤ f → 0 < n →
  let R1 := carve R c (s + n) f y (Large d2) (Free d2) in
  R1 !! (c, s) = Some (n, Large d1) ∧ R1 !! (c, s + n) = Some (y, Large d2) ∧
  allocated (join R1 c s n y (Large d)) = <[(c, s) := (n + y, Large d)]> (delete (c, s) (allocated R)).
Proof.
  intros Hp Hr Hf Hy Hn R1.
  assert (E1 : R1 !! (c, s) = Some (n, Large d1)).
  { apply (carve_lookup P R c (s + n) f y (Free d2)); [done..|]. right; right. split; [|done]. intros [=]; lia. }
  assert (E2 : R1 !! (c, s + n) = Some (y, Large d2)) by (apply (carve_lookup P R c (s + n) f y (Free d2)); [done..|]; by left).
  split_and!; [done..|]. pose proof (carve_allocated P R c (s + n) f y (Large d2) d2 Hp Hf Hy eq_refl) as Hal.
  apply map_eq. intros [c1 s1]. apply option_eq. intros v. rewrite allocated_lookup, join_lookup by done.
  rewrite lookup_insert_Some, lookup_delete_Some. split.
  - intros [[(-> & -> & ->)|(Hne1 & Hne2 & E')] Hfr]; [by left|right]. split_and!; [by apply not_eq_sym..|].
    assert (Ea : allocated R1 !! (c1, s1) = Some v) by by apply allocated_lookup. unfold R1 in Ea. rewrite Hal, lookup_insert_ne in Ea by congruence. done.
  - intros [[[= <- <-] <-]|(_ & Hne & E')]; [split; [by left|done]|].
    assert (Hne2 : (c1, s1) ≠ (c, s + n)). { intros [= -> ->]. apply allocated_lookup in E' as [E' Hfr]. rewrite Hf in E'. injection E' as <-. done. }
    assert (Ea : allocated R1 !! (c1, s1) = Some v) by (unfold R1; rewrite Hal, lookup_insert_ne by congruence; done).
    apply allocated_lookup in Ea as [Ea Hfr]. split; [right; split_and!; [congruence|done|done]|done].
Qed.

Lemma dflag_or d1 d2 : Z.lor (dflag d1) (dflag d2) = dflag (d1 || d2).
Proof. by destruct d1, d2. Qed.

Lemma wp_grow_by a R G E F M D c s n d p f d2 y zero (Q : unit → astate S T → Prop) :
  large_at a R G E F M D c s n d p → R !! (c, s + n) = Some (f, Free d2) → 0 < y ≤ f →
  (∀ a', owned a' (<[p := (n + y) * PAGE]> M) D → keeps M (a_mem a) (a_mem a') → Q tt a') →
  wp (grow_by c s n (n * PAGE) (y * PAGE) zero) a Q.
Proof using OrdTreeLaws0 HBI.
  intros Hl Hf Hy HQ. destruct (large_pos _ _ _ _ _ _ _ _ _ _ _ _ _ _ _ Hl) as (Hn & _). pose proof Hl as [(He & HM & HD & Hh) Hfr Hr -> Ep].
  pose proof (ha_inv _ _ _ _ _ _ _ Hh) as Ha. pose proof (lo_part _ _ (heap_lay _ _ _ _ _ _ _ Hh)) as Hp.
  destruct (grow_allocated _ R c s n f y d d2 (d || d2) Hp Hr Hf Hy) as (E1 & E2 & Hal); [lia|].
  unfold grow_by. cbv zeta. rewrite shiftl_page, <- Z.mul_add_distr_r, shiftr_page. change (c + (s + n) * PAGE) with (raddr c (s + n)). apply wp_bind.
  eapply wp_run_split; [exact Ha|exact Hf|by eapply run_not_spare|exact Hy|done|]. cbn [new_kind]. intros a1 Ha1 Hk1 _ Hm1.
  pose proof (lo_words _ _ (ac_lay _ _ _ (aa_core _ _ _ _ _ _ _ _ Ha1)) _ _ _ _ E1) as W1.
  pose proof (lo_words _ _ (ac_lay _ _ _ (aa_core _ _ _ _ _ _ _ _ Ha1)) _ _ _ _ E2) as W2.
  apply wp_bind. eapply wp_dirty_get; [eapply run_first; [|exact W1]; lia|]. apply wp_bind.
  eapply wp_dirty_get; [replace (s + (n + y) - 1) with (s + n + y - 1) by lia; eapply run_last; [|exact W2]; lia|]. cbn [kdirty]. rewrite dflag_or.
  apply wp_bind, wp_block2. eapply wp_fuse; [exact Ha1|exact E1|exact E2|]. intros h Ha2.
  assert (Hk2 : kept a (set_hdrs h a1)) by (eapply kept_trans; [exact Hk1|done]).
  pose proof (large_to _ _ _ _ _ _ _ _ _ _ _ _ _ _ _ _ _ _ _ _ Hl Ha2 Hk2 Hal (or_introl eq_refl)) as Hl2. rewrite insert_delete_eq in Hl2.
  eapply wp_resize_stats; [exact Hl2|exact Hn|]. intros a3 Ho3 Hm3. apply HQ; [exact Ho3|]. rewrite Hm3.
  eapply (keeps_but _ (kaddr (c, s + n)) (f * PAGE)).
  - intros z Hz. apply Hm1. unfold kaddr in Hz. simpl in Hz. change PAGE with 8192 in *. lia.
  - intros q z Eq. eapply obj_run_apart; [exact Hh|by apply lookup_union_Some_l|exact Hf|]. intros kd [E' Hk']%allocated_lookup. rewrite Hf in E'. injection E' as <-. done.
Qed.

Lemma wp_ralloc_grow a R G E F M D c s n d p m x zero (Q : bool → astate S T → Prop) :
  large_at a R G E F M D c s n d p → 0 < m → 0 ≤ x → n < m + x → (m + x) * PAGE < 2 ^ 64 → Q true a →
  (∀ a' n', n ≤ m ≤ n' → n < n' ≤ m + x → owned a' (<[p := n' * PAGE]> M) D → keeps M (a_mem a) (a_mem a') → Q false a') →
  wp (arena_ralloc_large_grow c p (n * PAGE) (m * PAGE) (x * PAGE) zero) a Q.
Proof using OrdTreeLaws0 HBI.
  intros Hl Hm Hx Hlt Hmax Hno Hyes. destruct (large_pos _ _ _ _ _ _ _ _ _ _ _ _ _ _ _ Hl) as (Hn & Hs & Hsn & _). pose proof Hl as [(He & HM & HD & Hh) Hfr Hr Epc Ep].
  pose proof (ha_inv _ _ _ _ _ _ _ Hh) as Ha. pose proof (heap_lay _ _ _ _ _ _ _ Hh) as Hlay. pose proof (lo_part _ _ Hlay) as Hp.
  destruct page_facts as (Hb0 & _ & Hcp & _). destruct maxclass_facts as (_ & _ & _ & _ & _ & Hc64).
  unfold arena_ralloc_large_grow. rewrite Epc, raddr_page, shiftr_page. cbv zeta.
  assert (Hu : u64 (m * PAGE + x * PAGE) = (m + x) * PAGE) by (rewrite u64_small; [lia|split; change PAGE with 8192 in *; lia]). rewrite !Hu.
  apply wp_bind. eapply wp_large_size; [apply (lo_words _ _ Hlay _ _ _ _ Hr)|]. apply wp_bind. apply wp_check; [apply Z.eqb_refl|].
  apply wp_bind. apply wp_check; [apply Z.ltb_lt; change PAGE with 8192; lia|]. apply wp_bind.
  destruct (Z.ltb_spec (s + n) chunk_npages) as [Hnext|_]; [|by apply wp_ret, wp_ret].
  destruct (pt_next _ _ _ _ _ _ Hp Hr Hnext) as (f & kd & Hf). pose proof (lo_words _ _ Hlay _ _ _ _ Hf) as Wf.
  destruct (pt_range _ _ Hp _ _ _ _ Hf) as (_ & _ & Hf0 & Hf1). apply wp_bind. eapply wp_allocated_get; [by eapply run_first|].
  destruct kd as [d2|d2|bi d2]; cbn [is_free Z.eqb]; [|by apply wp_ret, wp_ret|by apply wp_ret, wp_ret].
  apply wp_bind. eapply wp_free_size; [apply Wf|]. apply wp_ret. destruct (Z.leb_spec (u64 (m * PAGE - n * PAGE)) (f * PAGE)) as [Hfit|_]; [|by apply wp_ret].
  assert (Hnm : n ≤ m).
  { destruct (Z_le_gt_dec n m) as [|Hgt]; [done|exfalso]. revert Hfit. rewrite u64_neg; change PAGE with 8192 in *; lia. }
  rewrite u64_small in Hfit by (split; change PAGE with 8192 in *; lia). set (y := Z.min f (m + x - n)).
  replace (if n * PAGE + f * PAGE <=? (m + x) * PAGE then f * PAGE else (m + x) * PAGE - n * PAGE) with (y * PAGE)
    by (destruct (Z.leb_spec (n * PAGE + f * PAGE) ((m + x) * PAGE)); unfold y; change PAGE with 8192 in *; lia).
  apply wp_bind. assert (Hy : 0 < y ≤ f) by (unfold y; lia). eapply wp_grow_by; [exact Hl|exact Hf|exact Hy|].
  intros a' Ho' K'. apply wp_ret. apply (Hyes a' (n + y)); [unfold y; change PAGE with 8192 in *; lia|unfold y; lia|exact Ho'|exact K'].
Qed.

(** ** Large objects *)

(** The object has [sz] bytes, at least [size], and the first [keep] are as before; a request
    without extra bytes gets its usable size. *)
Record resized a M D p size extra keep sz a' : Prop := {
  rz_size : size ≤ sz;
  rz_exact : extra = 0 → s2u size = Some sz;
  rz_owned : owned a' (<[p := sz]> M) D;
  rz_keeps : keeps (delete p M) (a_mem a) (a_mem a');
  rz_data y : p ≤ y < p + keep → a_mem a' y = a_mem a y
}.

Lemma ceil_pages_64 z : 0 < z → z + PAGE ≤ 2 ^ 64 → ∃ m, PAGE_CEILING z = m * PAGE ∧ 0 < m ∧ z ≤ m * PAGE < z + PAGE.
Proof.
  intros Hz H64. destruct (page_ceiling_cases z) as [[_ ->]|[? _]]; [change PAGE with 8192 in *; lia| |lia].
  destruct (round_up_spec z PAGE) as [Hr Hm]; [done|]. apply Z.mod_divide in Hm as [m Em]; [|done]. rewrite Em in *. exists m.
  change PAGE with 8192 in *. split_and!; lia.
Qed.

(** Junk in the part that is given up. *)
Lemma wp_junk_rest a R G E F M D c s n d p z (b : bool) (Q : unit → astate S T → Prop) :
  large_at a R G E F M D c s n d p → 0 < z ≤ n * PAGE →
  (∀ f, large_at (set_amem f a) R G E F M D c s n d p → keeps (delete p M) (a_mem a) f →
     (∀ y, p ≤ y < p + z → f y = a_mem a y) → Q tt (set_amem f a)) →
  wp (if b then a_memset (p + z) 0x5a (n * PAGE - z) else mret tt) a Q.
Proof.
  intros Hl Hz HQ. destruct b.
  - eapply wp_large_memset; [exact Hl|lia|lia|]. intros f Hl1 K1 Hm1. apply HQ; [exact Hl1|exact K1|]. intros y Hy. apply Hm1. lia.
  - apply wp_ret. assert (Ea : set_amem (a_mem a) a = a) by by destruct a. specialize (HQ (a_mem a)). rewrite Ea in HQ. apply HQ; [exact Hl|apply keeps_refl|done].
Qed.

(** Bytes of an object are written. *)
Lemma wp_obj_memset a M D p sz q v len (Q : unit → astate S T → Prop) :
  owned a M D → M !! p = Some sz → p ≤ q → q + len ≤ p + sz →
  (∀ a', owned a' M D → keeps (delete p M) (a_mem a) (a_mem a') → mem_but q len (a_mem a) (a_mem a') → Q tt a') → wp (a_memset q v len) a Q.
Proof.
  intros (R & G & E & F & (He & HM & HD & Hh) & Hf) EM Hq Hlen HQ. unfold a_memset. wsteps. pose proof (memset_but q v len (a_mem a)) as Hm. apply HQ; [| |exact Hm].
  - exists R, G, E, F. split; [split_and!; try done|done]. eapply heap_obj_mem; [exact Hh|by apply lookup_union_Some_l|exact Hm|done|done].
  - eapply keeps_but; [exact Hm|]. intros r z [Hne Er]%lookup_delete_Some.
    assert (Hap : ranges_apart (p, sz) (r, z)) by (eapply obj_apart; [exact Hh|by apply lookup_union_Some_l..|done]).
    unfold ranges_apart in *. simpl in *. lia.
Qed.

(** Zeros in the part that is new. *)
Lemma wp_zero_rest a M D p n n' size (b : bool) (Q : unit → astate S T → Prop) :
  owned a (<[p := n' * PAGE]> M) D → 0 < n * PAGE ≤ size → size ≤ n' * PAGE < 2 ^ 63 →
  (∀ a', owned a' (<[p := n' * PAGE]> M) D → keeps (delete p M) (a_mem a) (a_mem a') →
     (∀ y, p ≤ y < p + n * PAGE → a_mem a' y = a_mem a y) → Q tt a') →
  wp (if b then a_memset (p + n * PAGE) 0 (u64 (size - n * PAGE)) else mret tt) a Q.
Proof using HBI.
  intros Ho Hn Hsz HQ. destruct b; [|apply wp_ret, HQ; [exact Ho|apply keeps_refl|done]].
  rewrite u64_small by (split; lia). eapply wp_obj_memset; [exact Ho|apply lookup_insert_eq|lia|lia|]. intros a' Ho' K' Hm'.
  rewrite delete_insert_eq in K'. apply HQ; [exact Ho'|exact K'|]. intros y Hy. apply Hm'. lia.
Qed.

Lemma wp_ralloc_large a M D p old size extra zero (Q : bool → astate S T → Prop) :
  owned a M D → M !! p = Some old → SMALL_MAXCLASS < old → 0 < size ≤ arena_maxclass → 0 ≤ extra → size + extra + PAGE ≤ 2 ^ 64 →
  SMALL_MAXCLASS < size + extra → (opt_zero = false ∨ zero = true ∨ extra = 0) → Q true a →
  (∀ a' sz, resized a M D p size extra (Z.min size old) sz a' → Q false a') →
  wp (arena_ralloc_large old_word os_purge p old size extra zero) a Q.
Proof using os_purge_range OrdTreeLaws0 HBI.
  intros Ho EM Hold Hsz Hex H64 Hsm Hbug Hno Hyes. destruct (large_object _ _ _ _ _ _ _ _ Ho EM Hold) as (R & G & E & F & c & s & n & d & Hl & ->).
  destruct (large_pos _ _ _ _ _ _ _ _ _ _ _ _ _ _ _ Hl) as (Hn & _ & _ & Ec & _).
  destruct (ceil_pages_64 (size + extra)) as (t & Et & Ht & Htle); [lia..|]. destruct (ceil_pages_64 size) as (m & Em & Hm & Hmle); [lia..|].
  assert (Hs2u : extra = 0 → s2u size = Some (t * PAGE)).
  { intros ->. rewrite Z.add_0_r in *. unfold s2u. by rewrite (proj2 (Z.leb_gt size SMALL_MAXCLASS)), (proj2 (Z.leb_le size arena_maxclass)), Et by lia. }
  unfold arena_ralloc_large. rewrite (u64_small (size + extra)) by (split; change PAGE with 8192 in *; lia). rewrite Et, Em. cbv zeta.
  destruct (Z.eqb_spec (t * PAGE) (n * PAGE)) as [Eq|Hne]; [|destruct (Z.ltb_spec (t * PAGE) (n * PAGE)) as [Hlt|Hge]].
  - apply wp_bind. eapply wp_junk_rest; [exact Hl|lia|]. intros f Hl1 K1 Hd1. apply wp_ret, (Hyes _ (n * PAGE)).
    split; [lia|rewrite <- Eq; exact Hs2u|rewrite insert_id by exact EM; by eapply large_owned|exact K1|]. intros y Hy. apply Hd1. lia.
  - rewrite Ec. apply wp_bind. eapply wp_junk_rest; [exact Hl|lia|]. intros f Hl1 K1 Hd1. apply wp_bind.
    eapply wp_ralloc_shrink; [exact Hl1|change PAGE with 8192 in *; lia|]. intros a2 Ho2 K2. apply wp_ret, (Hyes _ (t * PAGE)).
    split; [lia|exact Hs2u|exact Ho2| |].
    + eapply keeps_trans; [exact K1|]. eapply keeps_mono; [|exact K2]. rewrite <- insert_delete_eq. apply insert_subseteq, lookup_delete_eq.
    + intros y Hy. rewrite (K2 p (t * PAGE)); [|apply lookup_insert_eq|lia]. apply Hd1. lia.
  - rewrite Ec. apply wp_bind. replace (t * PAGE - m * PAGE) with ((t - m) * PAGE) by lia.
    eapply wp_ralloc_grow; [exact Hl|done|change PAGE with 8192 in *; lia|change PAGE with 8192 in *; lia| | |].
    + change PAGE with 8192 in *. lia.
    + cbn [negb andb]. by apply wp_ret, wp_ret.
    + intros a1 n' Hn1 Hn2 Ho1 K1. cbn [negb andb]. apply wp_bind.
      assert (Hfin : ∀ a2, owned a2 (<[p := n' * PAGE]> M) D → keeps (delete p M) (a_mem a1) (a_mem a2) →
        (∀ y, p ≤ y < p + n * PAGE → a_mem a2 y = a_mem a1 y) → wp (mret false) a2 Q).
      { intros a2 Ho2 K2 Hd2. apply wp_ret, (Hyes a2 (n' * PAGE)). split; [change PAGE with 8192 in *; lia| |exact Ho2| |].
        - intros Hz. rewrite (Hs2u Hz). do 2 f_equal. subst extra. rewrite Z.add_0_r in Et. change PAGE with 8192 in *. lia.
        - eapply keeps_trans; [|exact K2]. eapply keeps_mono; [apply delete_subseteq|exact K1].
        - intros y Hy. rewrite Hd2 by lia. apply (K1 p (n * PAGE)); [exact EM|lia]. }
      destruct (negb zero && opt_zero) eqn:Ez; [|apply wp_ret, Hfin; [exact Ho1|apply keeps_refl|done]].
      apply andb_true_iff in Ez as [Ez1 Ez2]. assert (extra = 0) as -> by (destruct Hbug as [?|[->|?]]; [congruence|done|done]).
      destruct (large_object _ _ _ _ _ _ _ _ Ho1 (lookup_insert_eq _ _ _)) as (R1 & G1 & E1 & F1 & c1 & s1 & n1 & d1 & Hl1 & En1); [change PAGE with 8192 in *; lia|].
      destruct (large_pos _ _ _ _ _ _ _ _ _ _ _ _ _ _ _ Hl1) as (Hw & _). destruct page_facts as (_ & _ & _ & _ & Hmc). pose proof (maxclass_31 bi_lg).
      fold whole in Hmc. eapply (wp_zero_rest a1 M D p n n' size true); [exact Ho1|change PAGE with 8192 in *; lia..|exact Hfin].
Qed.

(** ** Objects of any size *)

Lemma wp_ralloc_no_move a M D p old size extra zero (Q : option Z → astate S T → Prop) :
  owned a M D → M !! p = Some old → 0 < size ≤ arena_maxclass → 0 ≤ extra → size + extra + PAGE ≤ 2 ^ 64 →
  (opt_zero = false ∨ zero = true ∨ extra = 0) → Q None a →
  (∀ a' sz, resized a M D p size extra (Z.min size old) sz a' → Q (Some p) a') →
  wp (arena_ralloc_no_move old_word os_purge p old size extra zero) a Q.
Proof using os_purge_range OrdTreeLaws0 HBI.
  intros Ho EM Hsz Hex H64 Hbug Hno Hyes. unfold arena_ralloc_no_move.
  assert (Hu : u64 (size + extra) = size + extra) by (apply u64_small; split; change PAGE with 8192 in *; lia). rewrite Hu.
  destruct (Z.leb_spec old arena_maxclass) as [Hold|_]; [|by apply wp_ret]. destruct (Z.leb_spec old SMALL_MAXCLASS) as [Hsmall|Hlarge].
  - destruct (small_object _ _ _ _ _ _ _ _ Ho EM Hsmall) as (R & G & E & F & bi & c & s & A & info & i & Ha & ->).
    pose proof Ha as [_ _ Hbi (_ & _ & Ei) _ _ _]. pose proof (info_class bi info ltac:(lia) Ei) as Hcl. destruct (reg_size_class bi _ ltac:(lia) Hcl) as [Hrs Hbin].
    apply wp_bind. eapply wp_lift; [exact Hbin|]. apply wp_bind. eapply wp_info_get; [lia|exact Ei|]. apply wp_bind. apply wp_check; [apply Z.eqb_refl|]. apply wp_bind.
    assert (Hend : ∀ same : bool, (same = true → size ≤ reg_size info ∧ (extra = 0 → s2u size = Some (reg_size info))) →
      wp (if same || ((size <=? reg_size info) && (reg_size info <=? size + extra)) then
            (if opt_junk && (size <? reg_size info) then a_memset (p + size) 0x5a (reg_size info - size) else mret tt);; mret (Some p) else mret None) a Q).
    { intros same Hs. destruct (same || _) eqn:Es; [|by apply wp_ret].
      assert (Hle : size ≤ reg_size info ∧ (extra = 0 → s2u size = Some (reg_size info))).
      { apply orb_true_iff in Es as [?|[Hle%Z.leb_le Hge%Z.leb_le]%andb_true_iff]; [auto|]. split; [done|]. intros ->.
        assert (size = reg_size info) as -> by lia. unfold s2u. by rewrite (proj2 (Z.leb_le _ SMALL_MAXCLASS)), Hbin by lia. }
      destruct Hle as [Hle Hex0].
      apply wp_bind. destruct (opt_junk && _).
      - eapply wp_obj_memset; [exact Ho|exact EM|lia|lia|]. intros a' Ho' K' Hm'. apply wp_ret, (Hyes a' (reg_size info)).
        split; [done|done|by rewrite insert_id|exact K'|]. intros y Hy. apply Hm'. lia.
      - apply wp_ret, wp_ret, (Hyes a (reg_size info)). split; [done|done|by rewrite insert_id|apply keeps_refl|done]. }
    destruct (Z.leb_spec (size + extra) SMALL_MAXCLASS) as [Hse|_]; [|apply wp_ret, (Hend false); done].
    destruct (small_lookup (size + extra)) as (b' & sz' & Eb' & Esz' & _ & Hle' & _); [lia|]. apply wp_bind. eapply wp_lift; [exact Eb'|].
    apply wp_ret, (Hend (b' =? bi)). intros ->%Z.eqb_eq. rewrite Hcl in Esz'. injection Esz' as <-. split; [lia|]. intros ->. rewrite Z.add_0_r in *.
    unfold s2u. by rewrite (proj2 (Z.leb_le size SMALL_MAXCLASS)), Eb' by lia.
  - apply wp_bind. apply wp_check; [apply Z.leb_le; lia|]. destruct (Z.ltb_spec SMALL_MAXCLASS (size + extra)); [|by apply wp_ret]. apply wp_bind.
    eapply wp_ralloc_large; [exact Ho|exact EM|exact Hlarge|exact Hsz|exact Hex|exact H64|lia|exact Hbug|by apply wp_ret|]. intros a' sz Hrz. by eapply wp_ret, Hyes.
Qed.
End resize.
