(* ===== verification/ArenaHeap.v ===== *)
(** * The arena as a heap of objects

    The functions that the rest of the allocator calls, for objects of any size
    an arena serves: what they return and what they do to the objects of the
    thread that calls them, with other threads at work in the windows where
    the lock of a bin is free. *)

From S2P Require Import Prelude OrdTree Bitmap SizeClass BinInfo ArenaBits ChunkIface Arena ArenaMap ArenaTree ArenaInv ArenaRun ArenaDalloc ArenaPurge ArenaTrim ArenaBin ArenaBinInv ArenaObj ArenaBinOps ArenaBinRun ArenaSmall ArenaFree ArenaLarge ArenaResize.

Section heap.
Context `{Config} `{Opts} {S : Type} `{CL : ChunkLayer S} {T : Type} `{OT : OrdTree T Z}.
Context `{!ChunkLayerLaws S} {FR : Frame} `{!OrdTreeLaws T Z} {HBI : BinInfos}.
Context (old_word : Z → Z → Z) (os_purge : Z → Z → (Z → Z) → (Z → Z)).
Context (C : list (Z * Z)) (N : list Z).
Context (env_holds : gmap Z Z → detached → Prop).
Abbreviation owned := (owned C N env_holds).
Abbreviation new_object := (new_object C N env_holds).
Implicit Types (a : astate S T) (R Al : layout) (G : regions) (D F : detached) (A : gset Z) (O M E : gmap Z Z)
  (k : Z * Z) (bi n p c s m : Z) (d : bool) (info : arena_bin_info) (b : arena_bin T).

(** ** The page of an object *)

Lemma small_read a R G E F M D bi c s A info i p (Q : Z → astate S T → Prop) :
  small_at C N env_holds a R G E F M D bi c s A info i p →
  (∀ w, Z.land w CHUNK_MAP_ALLOCATED = 1 → Z.land w CHUNK_MAP_LARGE = 0 → bits_binind w = bi → Q w a) →
  wp (arena_mapbits_get c (Z.shiftr (p - c) LG_PAGE)) a Q.
Proof.
  intros Ha HQ. destruct (small_bits _ _ _ _ _ _ _ _ _ _ _ _ _ _ _ _ _ Ha) as (w & dd & Ew & Hw). eapply wp_get; [exact Ew|].
  destruct (small_ok_flags _ _ _ _ Hw). apply HQ; [done..|apply Hw].
Qed.

Lemma large_read a R G E F M D c s n d p (Q : Z → astate S T → Prop) :
  large_at C N env_holds a R G E F M D c s n d p →
  (∀ w, Z.land w CHUNK_MAP_ALLOCATED = 1 → Z.land w CHUNK_MAP_LARGE = 2 → bits_binind w = BININD_INVALID → Q w a) →
  wp (arena_mapbits_get c (Z.shiftr (p - c) LG_PAGE)) a Q.
Proof.
  intros [(_ & _ & _ & Hh) _ Hr -> _] HQ. rewrite raddr_page. destruct (lo_words _ _ (heap_lay _ _ _ _ _ _ _ Hh) _ _ _ _ Hr) as [(w & Ew & Hw) _].
  eapply wp_get; [exact Ew|]. destruct (large_ok_flags _ _ _ Hw). apply HQ; [done..|apply Hw].
Qed.

(** ** The size of an object *)

Lemma wp_salloc_small a M D p sz (Q : Z → astate S T → Prop) :
  owned a M D → M !! p = Some sz → sz ≤ SMALL_MAXCLASS → Q sz a → wp (arena_salloc p) a Q.
Proof.
  intros Ho EM Hsz HQ. destruct (small_object _ _ _ _ _ _ _ _ Ho EM Hsz) as (R & G & E & F & bi & c & s & A & info & i & Ha & ->).
  destruct (small_place _ _ _ _ _ _ _ _ _ _ _ _ _ _ _ _ _ Ha) as (n & d & Ek & _ & Ec & Hcp & _). pose proof Ha as [(_ & _ & _ & Hh) _ Hbi (_ & _ & Ei) _ _ _].
  destruct (lay_run _ _ _ _ _ _ (heap_lay _ _ _ _ _ _ _ Hh) Ek) as (_ & _ & _ & Hc0 & _).
  unfold arena_salloc. rewrite Ec. cbv zeta. apply wp_bind. apply wp_check; [apply negb_true_iff, Z.eqb_neq; lia|].
  apply wp_bind. apply wp_check; [apply negb_true_iff, Z.eqb_neq; lia|]. apply wp_bind. unfold arena_mapbits_allocated_get. apply wp_bind.
  eapply small_read; [exact Ha|]. intros w -> _ _. apply wp_ret, wp_bind. apply wp_check; [done|]. apply wp_bind. unfold arena_mapbits_binind_get. apply wp_bind.
  eapply small_read; [exact Ha|]. intros w1 _ _ Ew1. eapply wp_lift.
  { unfold binind_get. rewrite Ew1, (proj2 (Z.ltb_lt bi NBINS)) by lia. reflexivity. }
  assert (Hinv : (bi =? BININD_INVALID) = false) by (apply Z.eqb_neq; unfold NBINS, BININD_INVALID in *; lia). rewrite Hinv. apply wp_bind. unfold arena_mapbits_large_get. apply wp_bind.
  eapply small_read; [exact Ha|]. intros w2 _ -> _. apply wp_ret. cbn [Z.eqb negb]. apply wp_bind, wp_bind. eapply small_read; [exact Ha|]. intros w3 _ _ ->.
  apply wp_check; [apply Z.eqb_refl|]. apply wp_bind. eapply wp_info_get; [lia|exact Ei|]. by apply wp_ret.
Qed.

Lemma wp_salloc_large a M D p sz (Q : Z → astate S T → Prop) :
  owned a M D → M !! p = Some sz → SMALL_MAXCLASS < sz → Q sz a → wp (arena_salloc p) a Q.
Proof using HBI OrdTreeLaws0.
  intros Ho EM Hsz HQ. destruct (large_object _ _ _ _ _ _ _ _ Ho EM Hsz) as (R & G & E & F & c & s & n & d & Hl & ->).
  destruct (large_pos _ _ _ _ _ _ _ _ _ _ _ _ _ _ _ Hl) as (Hn & _ & Hsn & Ec & Hcp). destruct (large_below _ _ _ _ _ _ _ _ _ _ _ _ _ _ _ Hl) as (Hp0 & Hpm & _).
  pose proof Hl as [(_ & _ & _ & Hh) _ Hr Epc _]. pose proof (lo_words _ _ (heap_lay _ _ _ _ _ _ _ Hh) _ _ _ _ Hr) as Hw. pose proof Hw as [W1 W2].
  unfold arena_salloc. rewrite Ec. cbv zeta. apply wp_bind. apply wp_check; [apply negb_true_iff, Z.eqb_neq; lia|].
  apply wp_bind. apply wp_check; [apply negb_true_iff, Z.eqb_neq; lia|]. apply wp_bind. unfold arena_mapbits_allocated_get. apply wp_bind.
  eapply large_read; [exact Hl|]. intros w -> _ _. apply wp_ret, wp_bind. apply wp_check; [done|]. apply wp_bind. unfold arena_mapbits_binind_get. apply wp_bind.
  eapply large_read; [exact Hl|]. intros w1 _ _ Ew1. eapply wp_lift; [unfold binind_get; rewrite Ew1; reflexivity|]. rewrite Z.eqb_refl.
  apply wp_bind. apply wp_check; [by apply Z.eqb_eq, size_mask|]. rewrite Epc, raddr_page. apply wp_bind. eapply wp_large_size; [exact W1|].
  apply wp_bind. apply wp_check; [apply negb_true_iff, Z.eqb_neq; change PAGE with 8192; lia|]. rewrite shiftr_page.
  apply wp_bind. apply wp_check; [apply Z.leb_le; lia|]. apply wp_bind.
  assert (Hlast : ∃ w2 z, bits_at (hdrs a) c (s + n - 1) = Some w2 ∧ large_ok w2 z d ∧ (n ≠ 1 → z = 0)).
  { destruct (decide (n = 1)) as [->|Hne]; [destruct W1 as (w2 & E2 & Hw2); exists w2, (1 * PAGE); by replace (s + 1 - 1) with s by lia|].
    destruct (W2 Hne) as (w2 & E2 & Hw2). by exists w2, 0. }
  destruct Hlast as (w2 & z & E2 & Hw2 & Hz).
  assert (Hrest : wp (b ← arena_mapbits_binind_get c (s + n - 1); check (BININD_INVALID =? b);;
    d1 ← arena_mapbits_dirty_get c s; d2 ← arena_mapbits_dirty_get c (s + n - 1); check (d1 =? d2);; mret (n * PAGE)) a Q).
  { apply wp_bind. unfold arena_mapbits_binind_get. apply wp_bind. eapply wp_get; [exact E2|]. pose proof Hw2 as (_ & _ & _ & Eb).
    eapply wp_lift; [unfold binind_get; rewrite Eb; reflexivity|]. apply wp_bind. apply wp_check; [apply Z.eqb_refl|]. apply wp_bind.
    eapply wp_dirty_get; [eapply run_first; [|exact Hw]; lia|]. apply wp_bind. eapply wp_dirty_get; [eapply run_last; [|exact Hw]; lia|].
    apply wp_bind. apply wp_check; [apply Z.eqb_refl|]. by apply wp_ret. }
  destruct (Z.eqb_spec (n * PAGE) PAGE) as [E1|E1]; [apply wp_ret; exact Hrest|]. apply wp_bind.
  eapply wp_large_size; [exists w2; split; [exact E2|exact Hw2]|]. apply wp_check; [rewrite Hz; [done|change PAGE with 8192 in *; lia]|]. exact Hrest.
Qed.

Lemma wp_salloc a M D p sz (Q : Z → astate S T → Prop) : owned a M D → M !! p = Some sz → Q sz a → wp (arena_salloc p) a Q.
Proof using HBI OrdTreeLaws0.
  intros Ho EM HQ. destruct (Z_le_gt_dec sz SMALL_MAXCLASS); [eapply wp_salloc_small|eapply wp_salloc_large]; try done; lia.
Qed.

(** Sizes of objects are usable sizes. *)
Lemma owned_s2u a M D p sz : owned a M D → M !! p = Some sz → s2u sz = Some sz.
Proof using OrdTreeLaws0 HBI.
  intros Ho EM. destruct (Z_le_gt_dec sz SMALL_MAXCLASS) as [Hsm|Hlg].
  - destruct (small_object _ _ _ _ _ _ _ _ Ho EM Hsm) as (R & G & E & F & bi & c & s & A & info & i & [_ _ Hbi (_ & _ & Ei) _ _ _] & ->).
    pose proof (info_class bi info ltac:(lia) Ei) as Hcl. destruct (reg_size_class bi _ ltac:(lia) Hcl) as [Hrs Hbin].
    unfold s2u. rewrite (proj2 (Z.leb_le _ _) Hsm), Hbin. exact Hcl.
  - destruct (large_object _ _ _ _ _ _ _ _ Ho EM ltac:(lia)) as (R & G & E & F & c & s & n & d & Hl & ->).
    destruct (large_pos _ _ _ _ _ _ _ _ _ _ _ _ _ _ _ Hl) as (Hn & _). destruct page_facts as (_ & _ & _ & _ & Hmc). fold whole in Hmc.
    destruct (ceil_pages (n * PAGE)) as (m & Em & _ & Hm); [change PAGE with 8192 in *; lia|].
    unfold s2u. rewrite (proj2 (Z.leb_gt _ SMALL_MAXCLASS)), (proj2 (Z.leb_le _ arena_maxclass)), Em by (change PAGE with 8192 in *; lia).
    f_equal. change PAGE with 8192 in *. lia.
Qed.

(** ** Allocation and deallocation *)

Context (others : M (astate S T) unit).
Hypothesis os_purge_range : ∀ p n f, mem_but p n f (os_purge p n f).
Hypothesis others_ok : ∀ a M D, owned a M D → wp others a (λ _ a', owned a' M D ∧ keeps M (a_mem a) (a_mem a')).

Lemma wp_malloc a M D size zero (Q : option Z → astate S T → Prop) :
  owned a M D → 0 < size ≤ arena_maxclass →
  (∀ a', owned a' M D → keeps M (a_mem a) (a_mem a') → Q None a') →
  (∀ a' p sz, s2u size = Some sz → new_object a M D size (zero && (size <=? SMALL_MAXCLASS)) p sz a' → Q (Some p) a') →
  wp (arena_malloc old_word os_purge others size zero) a Q.
Proof using All.
  intros Ho Hs Hnone Hsome. unfold arena_malloc. apply wp_bind. apply wp_check; [apply negb_true_iff, Z.eqb_neq; lia|].
  apply wp_bind. apply wp_check; [apply Z.leb_le; lia|]. destruct (Z.leb_spec size SMALL_MAXCLASS) as [Hsm|Hlg].
  - rewrite andb_true_r in Hsome. eapply wp_malloc_small; [exact os_purge_range|exact others_ok|exact Ho|lia|exact Hnone|exact Hsome].
  - rewrite andb_false_r in Hsome. eapply wp_malloc_large; [exact Ho|exact Hs| |].
    + intros a' Ho' Hm'. apply Hnone; [exact Ho'|]. rewrite Hm'. apply keeps_refl.
    + intros a' p Hn. eapply Hsome; [|exact Hn]. unfold s2u. by rewrite (proj2 (Z.leb_gt size SMALL_MAXCLASS)), (proj2 (Z.leb_le size arena_maxclass)) by lia.
Qed.

Lemma wp_dalloc a M D p sz (Q : unit → astate S T → Prop) :
  owned a M D → M !! p = Some sz →
  (∀ a', owned a' (delete p M) D → keeps (delete p M) (a_mem a) (a_mem a') → Q tt a') →
  wp (arena_dalloc old_word os_purge others (CHUNK_ADDR2BASE p) p) a Q.
Proof using All.
  intros Ho EM HQ. unfold arena_dalloc. cbv zeta. destruct (Z_le_gt_dec sz SMALL_MAXCLASS) as [Hsm|Hlg].
  - destruct (small_object _ _ _ _ _ _ _ _ Ho EM Hsm) as (R & G & E & F & bi & c & s & A & info & i & Ha & _).
    destruct (small_place _ _ _ _ _ _ _ _ _ _ _ _ _ _ _ _ _ Ha) as (n & d & Ek & _ & Ec & Hcp & _). pose proof Ha as [(_ & _ & _ & Hh) _ _ _ _ _ _].
    destruct (lay_run _ _ _ _ _ _ (heap_lay _ _ _ _ _ _ _ Hh) Ek) as (_ & _ & _ & Hc0 & _).
    apply wp_bind. apply wp_check; [apply negb_true_iff, Z.eqb_neq; lia|]. apply wp_bind. apply wp_check; [apply negb_true_iff, Z.eqb_neq; lia|].
    rewrite Ec. apply wp_bind. eapply small_read; [exact Ha|]. intros w1 _ Hlarge _. apply wp_bind. unfold arena_mapbits_allocated_get. apply wp_bind.
    eapply small_read; [exact Ha|]. intros w2 -> _ _. apply wp_ret, wp_bind. apply wp_check; [done|]. rewrite Hlarge. cbn [Z.eqb]. rewrite <- Ec.
    eapply wp_dalloc_small; [exact os_purge_range|exact others_ok|exact Ho|exact EM|exact Hsm|exact HQ].
  - destruct (large_object _ _ _ _ _ _ _ _ Ho EM ltac:(lia)) as (R & G & E & F & c & s & n & d & Hl & Esz).
    destruct (large_pos _ _ _ _ _ _ _ _ _ _ _ _ _ _ _ Hl) as (_ & _ & _ & Ec & Hcp). destruct (large_below _ _ _ _ _ _ _ _ _ _ _ _ _ _ _ Hl) as (Hp0 & Hpm & _).
    apply wp_bind. apply wp_check; [apply negb_true_iff, Z.eqb_neq; lia|]. apply wp_bind. apply wp_check; [apply negb_true_iff, Z.eqb_neq; lia|].
    rewrite Ec. apply wp_bind. eapply large_read; [exact Hl|]. intros w1 _ Hlarge _. apply wp_bind. unfold arena_mapbits_allocated_get. apply wp_bind.
    eapply large_read; [exact Hl|]. intros w2 -> _ _. apply wp_ret, wp_bind. apply wp_check; [done|]. rewrite Hlarge. cbn [Z.eqb].
    pose proof Hl as [(_ & _ & _ & Hh) _ Hr Epc _]. apply wp_bind. rewrite Epc at 1. rewrite raddr_page. eapply wp_large_size; [apply (lo_words _ _ (heap_lay _ _ _ _ _ _ _ Hh) _ _ _ _ Hr)|].
    apply wp_bind. apply wp_check; [by apply Z.eqb_eq, size_mask|]. rewrite <- Ec.
    eapply wp_dalloc_large; [exact os_purge_range|exact Ho|exact EM|lia|exact HQ].
Qed.
End heap.
