(* ===== verification/ArenaThreads.v ===== *)
(** * Threads and their objects

    What a thread sees of an arena: a map from addresses to sizes, that its own
    calls change as the specifications of the functions say, whatever other
    threads do in between.  The programs of threads are trees of calls; the
    other threads are programs too, that run in every window in which a bin is
    unlocked, to any depth. *)

From S2P Require Import Prelude OrdTree Rb Bitmap SizeClass BinInfo Chunk ArenaBits ChunkIface Arena ArenaMap ArenaTree ArenaInv ArenaRun ArenaDalloc ArenaPurge ArenaTrim ChunkSpec ChunkSystem ArenaSystem ArenaBin ArenaBinInv ArenaObj ArenaBinOps ArenaBinRun ArenaSmall ArenaFree ArenaLarge ArenaResize ArenaHeap.

(** ** Programs *)

(** A request that grows an object may be answered with any size between
    [size] and [size + extra], rounded up. *)
Inductive client :=
  | Done
  | Malloc (size : Z) (zero : bool) (k : option Z → client)
  | Memalign (pages lg : Z) (k : option Z → client)
  | Usable (p : Z) (k : Z → client)
  | Resize (p size extra : Z) (k : option Z → client)
  | Dealloc (p : Z) (k : client).

Section programs.
Context `{Config} `{Opts}.
Implicit Types (X : gmap Z Z) (cl : client).

(** The bytes of a new object belong to no other one. *)
Definition apart_from X p n : Prop := ∀ q m, X !! q = Some m → q ≠ p → ranges_apart (p, n) (q, m).

(** What a program that has the objects [X] may call. *)
Fixpoint client_ok X cl : Prop :=
  match cl with
  | Done => True
  | Malloc size zero k => 0 < size ≤ arena_maxclass ∧ client_ok X (k None) ∧
      ∀ p sz, X !! p = None → s2u size = Some sz → client_ok (<[p := sz]> X) (k (Some p))
  | Memalign m lg k => 0 < m ∧ 0 ≤ lg ≤ 46 ∧ m * PAGE + PAGE_CEILING (2 ^ lg) - PAGE ≤ arena_maxclass ∧ client_ok X (k None) ∧
      ∀ p, X !! p = None → client_ok (<[p := m * PAGE]> X) (k (Some p))
  | Usable p k => ∃ sz, X !! p = Some sz ∧ client_ok X (k sz)
  | Resize p size extra k => is_Some (X !! p) ∧ 0 < size ≤ arena_maxclass ∧ 0 ≤ extra ∧ size + extra + PAGE ≤ 2 ^ 64 ∧
      (opt_zero = false ∨ extra = 0) ∧ client_ok X (k None) ∧ ∀ sz, size ≤ sz → client_ok (<[p := sz]> X) (k (Some p))
  | Dealloc p k => is_Some (X !! p) ∧ client_ok (delete p X) k
  end.

(** The specification: how the map of objects changes. *)
Inductive runs_to : gmap Z Z → client → gmap Z Z → Prop :=
  | to_done X : runs_to X Done X
  | to_malloc_fail X X' size zero k : runs_to X (k None) X' → runs_to X (Malloc size zero k) X'
  | to_malloc X X' size zero k p sz : X !! p = None → s2u size = Some sz → size ≤ sz → apart_from X p sz →
      runs_to (<[p := sz]> X) (k (Some p)) X' → runs_to X (Malloc size zero k) X'
  | to_memalign_fail X X' m lg k : runs_to X (k None) X' → runs_to X (Memalign m lg k) X'
  | to_memalign X X' m lg k p : X !! p = None → p mod PAGE_CEILING (2 ^ lg) = 0 → apart_from X p (m * PAGE) →
      runs_to (<[p := m * PAGE]> X) (k (Some p)) X' → runs_to X (Memalign m lg k) X'
  | to_usable X X' p sz k : X !! p = Some sz → runs_to X (k sz) X' → runs_to X (Usable p k) X'
  | to_resize_fail X X' p size extra k : runs_to X (k None) X' → runs_to X (Resize p size extra k) X'
  | to_resize X X' p size extra k sz : is_Some (X !! p) → size ≤ sz → apart_from X p sz →
      runs_to (<[p := sz]> X) (k (Some p)) X' → runs_to X (Resize p size extra k) X'
  | to_free X X' p k : is_Some (X !! p) → runs_to (delete p X) k X' → runs_to X (Dealloc p k) X'.

(** A program that gives back all it takes. *)
Definition tidy cl : Prop := ∀ X, runs_to ∅ cl X → X = ∅.
End programs.

Section threads.
Context `{Config} `{Opts} {S : Type} `{CL : ChunkLayer S} {T : Type} `{OT : OrdTree T Z}.
Context `{!ChunkLayerLaws S} {FR : Frame} `{!OrdTreeLaws T Z} {HBI : BinInfos}.
Context (old_word : Z → Z → Z) (os_purge : Z → Z → (Z → Z) → (Z → Z)).
Context (C : list (Z * Z)) (N : list Z).
Implicit Types (a : astate S T) (R : layout) (G : regions) (D F : detached) (M X E : gmap Z Z) (p n size old extra m j : Z) (zero : bool) (cl : client) (cls : list client).
Hypothesis os_purge_range : ∀ p n f, mem_but p n f (os_purge p n f).

(** ** Running programs *)

Section run.
Context (others : M (astate S T) unit).

Fixpoint run_client cl : M (astate S T) unit :=
  match cl with
  | Done => mret tt
  | Malloc size zero k => r ← arena_malloc old_word os_purge others size zero; run_client (k r)
  | Memalign m lg k => r ← arena_palloc old_word os_purge (m * PAGE) (2 ^ lg) false; run_client (k r)
  | Usable p k => n ← arena_salloc p; run_client (k n)
  | Resize p size extra k =>
      oldsize ← arena_salloc p;
      r ← arena_ralloc_no_move old_word os_purge p oldsize size extra false; run_client (k r)
  | Dealloc p k => arena_dalloc old_word os_purge others (CHUNK_ADDR2BASE p) p;; run_client k
  end.
End run.

(** In the windows of a program the first of the others runs, in its windows the next one. *)
Fixpoint interfere (cls : list client) : M (astate S T) unit :=
  match cls with
  | [] => mret tt
  | cl :: cls => run_client (interfere cls) cl
  end.

(** Others may own anything, or nothing. *)
Definition anything (_ : gmap Z Z) (_ : detached) : Prop := True.
Definition nobody (E : gmap Z Z) (F : detached) : Prop := E = ∅ ∧ F = ∅.

(** The objects of all threads are exactly [O], the detached runs are [D]. *)
Definition objects_are a (O : gmap Z Z) D : Prop := ∃ R G, heap_at C N a R G O D ∧ fresh G D.

Lemma objects_owned a O D : objects_are a O D ↔ owned C N nobody a O D.
Proof.
  split.
  - intros (R & G & Hh & Hf). exists R, G, ∅, ∅. split; [split_and!; [done|apply map_disjoint_empty_r..|]|]; by rewrite ?map_union_empty.
  - intros (R & G & E & F & ([-> ->] & _ & _ & Hh) & Hf). exists R, G. rewrite !map_union_empty in *. done.
Qed.

Lemma objects_env (env : gmap Z Z → detached → Prop) a O D : env ∅ ∅ → objects_are a O D → owned C N env a O D.
Proof.
  intros He (R & G & Hh & Hf). exists R, G, ∅, ∅. split; [split_and!; [done|apply map_disjoint_empty_r..|]|]; by rewrite ?map_union_empty.
Qed.

Lemma owned_anything env a M D : owned C N env a M D → owned C N anything a M D.
Proof. intros (R & G & E & F & (_ & ?) & ?). by exists R, G, E, F. Qed.

Section env.
Context {env : gmap Z Z → detached → Prop}.
Abbreviation owned := (owned C N env).
Lemma owned_apart a M D p n : owned a M D → M !! p = Some n → apart_from M p n.
Proof using HBI.
  intros (R & G & E & F & (_ & HM & _ & Hh) & _) Ep q m Eq Hne. eapply obj_apart; [exact Hh|by apply lookup_union_Some_l..|done].
Qed.

Lemma apart_insert M X p n : M !! p = None → apart_from (<[p := n]> (M ∪ X)) p n → M ##ₘ X → apart_from X p n.
Proof.
  intros Hp Ha HX q m Eq Hne. apply Ha; [|done]. rewrite lookup_insert_ne by done. by apply lookup_union_Some_r.
Qed.

Section client.
Context (others : M (astate S T) unit).
Hypothesis others_ok : ∀ a M D, owned a M D → wp others a (λ _ a', owned a' M D ∧ keeps M (a_mem a) (a_mem a')).

(** The rest of a program, after a new object was returned. *)
Lemma owned_new a M X D p n : (M ∪ X) !! p = None → M ##ₘ X → owned a (<[p := n]> (M ∪ X)) D →
  M ##ₘ <[p := n]> X ∧ X !! p = None ∧ apart_from X p n ∧ owned a (M ∪ <[p := n]> X) D.
Proof using HBI.
  intros [Hp1 Hp2]%lookup_union_None HX Ho. split_and!; [by apply map_disjoint_insert_r|done| |by rewrite <- insert_union_r].
  eapply apart_insert; [exact Hp1| |exact HX]. eapply owned_apart; [exact Ho|apply lookup_insert_eq].
Qed.

Lemma wp_client cl M X D a (Q : unit → astate S T → Prop) :
  M ##ₘ X → client_ok X cl → owned a (M ∪ X) D →
  (∀ a' X', runs_to X cl X' → M ##ₘ X' → owned a' (M ∪ X') D → keeps M (a_mem a) (a_mem a') → Q tt a') →
  wp (run_client others cl) a Q.
Proof using All.
  revert X a Q. induction cl as [|size zero k IH|m lg k IH|p k IH|p size extra k IH|p k IH]; intros X a Q HX Hok Ho HQ; cbn [run_client client_ok] in *.
  - apply wp_ret. apply (HQ a X); [constructor|exact HX|exact Ho|apply keeps_refl].
  - destruct Hok as (Hs & Hn & Hk). apply wp_bind. eapply wp_malloc; [exact os_purge_range|exact others_ok|exact Ho|exact Hs| |].
    + intros a1 Ho1 K1. eapply IH; [exact HX|exact Hn|exact Ho1|]. intros a' X' Hr HX' Ho' K'. apply (HQ a' X'); [by constructor|exact HX'|exact Ho'|].
      eapply keeps_trans; [|exact K']. eapply keeps_mono; [apply map_union_subseteq_l|exact K1].
    + intros a1 p sz Es [Hp Hle Ho1 K1 _]. destruct (owned_new _ _ _ _ _ _ Hp HX Ho1) as (HX1 & Hp1 & Hap & Ho2).
      eapply IH; [exact HX1|by apply Hk|exact Ho2|]. intros a' X' Hr HX' Ho' K'. apply (HQ a' X'); [by eapply to_malloc|exact HX'|exact Ho'|].
      eapply keeps_trans; [|exact K']. eapply keeps_mono; [apply map_union_subseteq_l|exact K1].
  - destruct Hok as (Hm & Hlg & Hmax & Hn & Hk). apply wp_bind. eapply wp_palloc; [exact os_purge_range|exact Ho|exact Hlg|exact Hm|exact Hmax| |].
    + intros a1 Ho1 Hm1. eapply IH; [exact HX|exact Hn|exact Ho1|]. intros a' X' Hr HX' Ho' K'. apply (HQ a' X'); [by constructor|exact HX'|exact Ho'|].
      by rewrite <- Hm1.
    + intros a1 p [Hp Hle Ho1 K1 _] Hal. destruct (owned_new _ _ _ _ _ _ Hp HX Ho1) as (HX1 & Hp1 & Hap & Ho2).
      eapply IH; [exact HX1|by apply Hk|exact Ho2|]. intros a' X' Hr HX' Ho' K'. apply (HQ a' X'); [by eapply to_memalign|exact HX'|exact Ho'|].
      eapply keeps_trans; [|exact K']. eapply keeps_mono; [apply map_union_subseteq_l|exact K1].
  - destruct Hok as (sz & Ep & Hk). apply wp_bind. eapply wp_salloc; [exact Ho|by apply lookup_union_Some_r|].
    eapply IH; [exact HX|exact Hk|exact Ho|]. intros a' X' Hr. apply (HQ a' X'). by eapply to_usable.
  - destruct Hok as ([old Ep] & Hs & Hex & H64 & Hz & Hn & Hk). assert (EM : (M ∪ X) !! p = Some old) by by apply lookup_union_Some_r.
    pose proof (map_disjoint_Some_r _ _ _ _ HX Ep) as HMp. apply wp_bind. eapply wp_salloc; [exact Ho|exact EM|]. apply wp_bind.
    eapply wp_ralloc_no_move; [exact os_purge_range|exact Ho|exact EM|exact Hs|exact Hex|exact H64|tauto| |].
    + eapply IH; [exact HX|exact Hn|exact Ho|]. intros a' X' Hr. apply (HQ a' X'). by constructor.
    + intros a1 sz [Hle _ Ho1 K1 _]. rewrite insert_union_r in Ho1 by exact HMp.
      assert (HX1 : M ##ₘ <[p := sz]> X) by by apply map_disjoint_insert_r.
      assert (Hap : apart_from X p sz).
      { intros q z Eq Hne. eapply (owned_apart a1); [exact Ho1|apply lookup_union_Some_r; [exact HX1|apply lookup_insert_eq]| |exact Hne].
        apply lookup_union_Some_r; [exact HX1|]. by rewrite lookup_insert_ne. }
      eapply IH; [exact HX1|by apply Hk|exact Ho1|]. intros a' X' Hr HX' Ho' K'.
      apply (HQ a' X'); [by eapply to_resize|exact HX'|exact Ho'|]. eapply keeps_trans; [|exact K']. eapply keeps_mono; [|exact K1].
      apply map_subseteq_spec. intros q z Eq. apply lookup_delete_Some. split; [congruence|by apply lookup_union_Some_l].
  - destruct Hok as ([sz Ep] & Hk). pose proof (map_disjoint_Some_r _ _ _ _ HX Ep) as HMp. apply wp_bind.
    eapply wp_dalloc; [exact os_purge_range|exact others_ok|exact Ho|by apply lookup_union_Some_r|]. intros a1 Ho1 K1.
    rewrite delete_union, (delete_id M) in Ho1, K1 by exact HMp. assert (HX1 : M ##ₘ delete p X) by by apply map_disjoint_delete_r.
    eapply IH; [exact HX1|exact Hk|exact Ho1|]. intros a' X' Hr HX' Ho' K'. apply (HQ a' X'); [by constructor|exact HX'|exact Ho'|].
    eapply keeps_trans; [|exact K']. eapply keeps_mono; [apply map_union_subseteq_l|exact K1].
Qed.
End client.

(** Programs that begin without objects and give all back leave the others' objects as they were. *)
Lemma wp_interfere_tidy cls a M D :
  Forall (client_ok ∅) cls → Forall tidy cls → owned a M D → wp (interfere cls) a (λ _ a', owned a' M D ∧ keeps M (a_mem a) (a_mem a')).
Proof using All.
  intros Hc. revert a M D. induction Hc as [|cl cls Hcl _ IH]; intros a M D Ht Ho; cbn [interfere].
  - apply wp_ret. split; [exact Ho|apply keeps_refl].
  - apply Forall_cons in Ht as [Ht Hts]. eapply (wp_client (interfere cls) (λ a M D, IH a M D Hts) cl M ∅ D); [apply map_disjoint_empty_r|exact Hcl|by rewrite map_union_empty|].
    intros a' X' Hr _ Ho' K'. rewrite (Ht X' Hr), map_union_empty in Ho'. done.
Qed.
End env.
Abbreviation owned := (owned C N anything).

Lemma owned_give a M X D : M ##ₘ X → owned a (M ∪ X) D → owned a M D.
Proof.
  intros HX (R & G & E & F & (_ & HM & HD & Hh) & Hf). exists R, G, (X ∪ E), F. apply map_disjoint_union_l in HM as [HM1 HM2].
  split; [|done]. split_and!; [done|by apply map_disjoint_union_r_2|done|]. by rewrite map_union_assoc.
Qed.

(** Programs that begin without objects do no harm. *)
Lemma wp_interfere cls a M D :
  Forall (client_ok ∅) cls → owned a M D → wp (interfere cls) a (λ _ a', owned a' M D ∧ keeps M (a_mem a) (a_mem a')).
Proof using All.
  intros Hc. revert a M D. induction Hc as [|cl cls Hcl _ IH]; intros a M D Ho; cbn [interfere].
  - apply wp_ret. split; [exact Ho|apply keeps_refl].
  - eapply (wp_client (interfere cls) IH cl M ∅ D); [apply map_disjoint_empty_r|exact Hcl|by rewrite map_union_empty|].
    intros a' X' _ HX' Ho' K'. split; [by eapply owned_give|exact K'].
Qed.

(** ** A new arena *)

Lemma objects_arena_new (s0 : S) f ca : cl_inv s0 C N → framed C f → objects_are (arena_new s0 f ca) ∅ ∅.
Proof.
  intros Hs Hfr. exists ∅, ∅. split; [|by intros k bi; rewrite lookup_empty].
  assert (Hal : allocated ∅ = ∅) by (unfold allocated; apply map_filter_empty). split.
  - by apply arena_new_ok.
  - rewrite Hal. split.
    + by vm_compute.
    + intros k n bi d. by rewrite lookup_empty.
    + intros bi b Hbi Eb. cbn [bins arena_new] in Eb. apply lookup_replicate in Eb as [-> _]. split; cbn [runcur bin_runs]; [done| |].
      * eapply bt_ext; [|apply bt_new]. intros k. split; [done|]. intros (A & info & ((n & d & E) & _) & _). by rewrite lookup_empty in E.
      * intros k A info ((n & d & E) & _). by rewrite lookup_empty in E.
    + intros k bi. by rewrite lookup_empty.
  - intros p n. rewrite Hal, lookup_empty. split; [done|].
    intros [(k & z & d & E & _)|(k & bi & A & info & i & ((z & d & E) & _) & _)]; by rewrite lookup_empty in E.
  - cbn [a_stats arena_new lstats]. rewrite length_replicate. destruct page_facts as (_ & ? & _). unfold nlclasses. lia.
Qed.

Lemma owned_arena_new (s0 : S) f ca : cl_inv s0 C N → framed C f → owned (arena_new s0 f ca) ∅ ∅.
Proof. intros Hs Hfr. eapply owned_anything. apply objects_owned. by apply objects_arena_new. Qed.

(** ** Properties *)

Lemma runs_here cls a X D (A : Type) (f : M (astate S T) A) (Q : A → astate S T → Prop) :
  Forall (client_ok ∅) cls →
  ((∀ a X D, owned a X D → wp (interfere cls) a (λ _ a', owned a' X D ∧ keeps X (a_mem a) (a_mem a'))) → owned a X D → wp f a Q) →
  owned a X D → ∃ r a', f a = Some (r, a') ∧ Q r a'.
Proof using All. intros Hc Hf Ho. apply wp_Some. apply Hf; [|exact Ho]. intros a1 X1 D1. by apply wp_interfere. Qed.

(** C4 The arena refines a map from addresses to sizes.  A program of allocations, aligned
    allocations, resizings in place, size queries and deallocations, run while programs of
    other threads run in every window in which the lock of a bin is free, returns; it changes
    the objects of its thread as the specification of each call says. *)
Theorem arena_refines_objects cls cl X D a :
  Forall (client_ok ∅) cls → client_ok X cl → owned a X D →
  ∃ a' X', run_client (interfere cls) cl a = Some (tt, a') ∧ runs_to X cl X' ∧ owned a' X' D.
Proof using os_purge_range OrdTreeLaws0 HBI.
  intros Hc Hok Ho.
  assert (Hw : wp (run_client (interfere cls) cl) a (λ _ a', ∃ X', runs_to X cl X' ∧ owned a' X' D)).
  { eapply (wp_client (interfere cls) (λ a1 M1 D1, wp_interfere cls a1 M1 D1 Hc) cl ∅ X D); [apply map_disjoint_empty_l|exact Hok|by rewrite map_empty_union|].
    intros a' X' Hr _ Ho' _. exists X'. by rewrite map_empty_union in Ho'. }
  apply wp_Some in Hw as ([] & a' & E & X' & Hr & Ho'). exists a', X'. by split_and!.
Qed.

(** What a thread has after [arena_malloc]. *)
Definition malloc_result a M D size zero (r : option Z) a' : Prop :=
  match r with
  | None => owned a' M D ∧ keeps M (a_mem a) (a_mem a')
  | Some p => ∃ sz, s2u size = Some sz ∧ size ≤ sz ∧ M !! p = None ∧ apart_from M p sz ∧ owned a' (<[p := sz]> M) D ∧
      keeps M (a_mem a) (a_mem a') ∧ (zero = true → size ≤ SMALL_MAXCLASS → ∀ y, p ≤ y < p + sz → a_mem a' y = 0)
  end.

(** C5 Allocating an object, while other threads work on the arena: the call returns; a new
    object has the usable size of the request, shares no byte with the thread's objects, and
    is zeroed when a small object is asked for with zeros; the thread's objects keep their
    contents, also when the call fails. *)
Theorem arena_malloc_spec cls a M D size zero :
  Forall (client_ok ∅) cls → owned a M D → 0 < size ≤ arena_maxclass →
  ∃ r a', arena_malloc old_word os_purge (interfere cls) size zero a = Some (r, a') ∧ malloc_result a M D size zero r a'.
Proof using os_purge_range OrdTreeLaws0 HBI.
  intros Hc Ho Hs. apply (runs_here cls a M D _ _ (malloc_result a M D size zero) Hc); [|exact Ho]. intros Hoth _.
  eapply wp_malloc; [exact os_purge_range|exact Hoth|exact Ho|exact Hs|by intros; split|]. intros a' p sz Es [Hp Hle Ho' K' Hz]. exists sz.
  split_and!; try done.
  - intros q m Eq Hne. eapply (owned_apart a'); [exact Ho'|apply lookup_insert_eq| |done]. by rewrite lookup_insert_ne.
  - intros -> Hsm. apply Hz. by apply Z.leb_le.
Qed.

(** C6 Deallocating an object, small or large, while programs that give back what they
    take run in the windows of the bin's lock: the call returns, and the objects of all
    threads are exactly those of before without this one.  So its region or its run is free
    again, no run without objects is left in a bin, and the other objects keep their contents. *)
Theorem arena_dalloc_spec cls a O D p sz :
  Forall (client_ok ∅) cls → Forall tidy cls → objects_are a O D → O !! p = Some sz →
  ∃ a', arena_dalloc old_word os_purge (interfere cls) (CHUNK_ADDR2BASE p) p a = Some (tt, a') ∧
    objects_are a' (delete p O) D ∧ keeps (delete p O) (a_mem a) (a_mem a').
Proof using os_purge_range OrdTreeLaws0 HBI.
  intros Hc Ht Ho%objects_owned EM.
  assert (Hw : wp (arena_dalloc old_word os_purge (interfere cls) (CHUNK_ADDR2BASE p) p) a (λ _ a', objects_are a' (delete p O) D ∧ keeps (delete p O) (a_mem a) (a_mem a'))).
  { eapply wp_dalloc; [exact os_purge_range|intros; by apply wp_interfere_tidy|exact Ho|exact EM|]. intros a' Ho' K. split; [by apply objects_owned|exact K]. }
  apply wp_Some in Hw as ([] & a' & E & Hq). by exists a'.
Qed.

(** C7 The usable size of an object, small or large, is read from the page map: for every object
    that a thread owns, [arena_salloc] returns the size that the object has, changes nothing, and this
    size is one that [s2u] gives back unchanged. *)
Theorem arena_salloc_spec a M D p sz : owned a M D → M !! p = Some sz → arena_salloc p a = Some (sz, a) ∧ s2u sz = Some sz.
Proof using OrdTreeLaws0 HBI.
  intros Ho EM. split.
  - assert (Hw : wp (arena_salloc p) a (λ r a', r = sz ∧ a' = a)) by by eapply wp_salloc.
    apply wp_Some in Hw as (r & a' & E & -> & ->). done.
  - by eapply owned_s2u.
Qed.

(** C9 Aligned allocation: the object begins at a multiple of the alignment, has the size
    asked for, and is the only object that is new: what the larger run had before and after
    it is free again.  When the call fails the objects and the memory are as they were. *)
Theorem arena_palloc_spec a O D m j zero :
  objects_are a O D → 0 ≤ j ≤ 46 → 0 < m → m * PAGE + PAGE_CEILING (2 ^ j) - PAGE ≤ arena_maxclass →
  ∃ r a', arena_palloc old_word os_purge (m * PAGE) (2 ^ j) zero a = Some (r, a') ∧
    match r with
    | None => objects_are a' O D ∧ a_mem a' = a_mem a
    | Some p => p mod 2 ^ j = 0 ∧ p mod PAGE = 0 ∧ O !! p = None ∧ apart_from O p (m * PAGE) ∧
        objects_are a' (<[p := m * PAGE]> O) D ∧ keeps O (a_mem a) (a_mem a')
    end.
Proof using os_purge_range OrdTreeLaws0 HBI.
  intros Ho%objects_owned Hj Hm Hmax. apply wp_Some. eapply wp_palloc; [exact os_purge_range|exact Ho|exact Hj|exact Hm|exact Hmax|by intros; split; [apply objects_owned|]|].
  intros a' p [Hp _ Ho' K' _] Hal. rewrite page_ceiling_pow2 in Hal by lia. split_and!; try done.
  - by apply (mod_pow2_le _ j (Z.max j 13)); [lia|].
  - change PAGE with (2 ^ 13). by apply (mod_pow2_le _ 13 (Z.max j 13)); [lia|].
  - intros q z Eq Hne. eapply (owned_apart a'); [exact Ho'|apply lookup_insert_eq| |done]. by rewrite lookup_insert_ne.
  - by apply objects_owned.
Qed.

(** What a thread has after resizing in place. *)
Definition resize_result a M D p old size (r : option Z) a' : Prop :=
  match r with
  | None => a' = a
  | Some q => q = p ∧ ∃ sz, size ≤ sz ∧ owned a' (<[p := sz]> M) D ∧ keeps (delete p M) (a_mem a) (a_mem a') ∧
      ∀ y, p ≤ y < p + Z.min size old → a_mem a' y = a_mem a y
  end.

(** C8 Resizing in place: the object stays at its address with at least the size asked for,
    and the bytes that both sizes have keep their contents, as do the other objects; when the
    object cannot be resized in place nothing changes at all. *)
Theorem arena_ralloc_no_move_spec a M D p old size extra zero :
  owned a M D → M !! p = Some old → 0 < size ≤ arena_maxclass → 0 ≤ extra → size + extra + PAGE ≤ 2 ^ 64 →
  (opt_zero = false ∨ zero = true ∨ extra = 0) →
  ∃ r a', arena_ralloc_no_move old_word os_purge p old size extra zero a = Some (r, a') ∧ resize_result a M D p old size r a'.
Proof using os_purge_range OrdTreeLaws0 HBI.
  intros Ho EM Hs Hex H64 Hz. apply wp_Some. eapply wp_ralloc_no_move; [exact os_purge_range|exact Ho|exact EM|exact Hs|exact Hex|exact H64|exact Hz|done|].
  intros a' sz [Hle _ Ho' K' Hd]. split; [done|]. by exists sz.
Qed.

(** There is room for an object: a free region in the current run of its bin, or a free run
    or a spare chunk for a large object. *)
Definition room a (R : layout) (size : Z) : Prop :=
  if size <=? SMALL_MAXCLASS then
    ∃ bi b cur r, SMALL_SIZE2BIN size = Some bi ∧ bins a !! Z.to_nat bi = Some b ∧ runcur b = Some cur ∧ runs a !! cur = Some r ∧ 0 < nfree r
  else spare a ≠ None ∨ ∃ c s n d, R !! (c, s) = Some (n, Free d) ∧ size ≤ n * PAGE.

(** C10 Progress: when there is room for an object, [arena_malloc] does not fail. *)
Theorem arena_malloc_progress cls a R G E F M D size zero :
  Forall (client_ok ∅) cls → opened C N anything a R G E F M D → fresh G (D ∪ F) → 0 < size ≤ arena_maxclass → room a R size →
  ∃ p a' sz, arena_malloc old_word os_purge (interfere cls) size zero a = Some (Some p, a') ∧ s2u size = Some sz ∧ owned a' (<[p := sz]> M) D.
Proof using os_purge_range OrdTreeLaws0 HBI.
  intros Hc Hop Hf Hs Hroom. assert (Ho : owned a M D) by by exists R, G, E, F.
  assert (Hw : wp (arena_malloc old_word os_purge (interfere cls) size zero) a (λ r a', ∃ p sz, r = Some p ∧ s2u size = Some sz ∧ owned a' (<[p := sz]> M) D)).
  { unfold arena_malloc. apply wp_bind. apply wp_check; [apply negb_true_iff, Z.eqb_neq; lia|]. apply wp_bind. apply wp_check; [apply Z.leb_le; lia|].
    unfold room in Hroom. destruct (Z.leb_spec size SMALL_MAXCLASS) as [Hsm|Hlg].
    - destruct Hroom as (bi & b & cur & r & Ebin & Eb & Ec & Er & Hfree).
      eapply wp_malloc_small_cur; [exact os_purge_range|intros; by apply wp_interfere|exact Ho|lia|exact Ebin|exact Eb|exact Ec|exact Er|exact Hfree|].
      intros a' p sz Es [_ _ Ho' _ _]. by exists p, sz.
    - assert (Hfit : ∃ c s n d, spare a ≠ None ∨ R !! (c, s) = Some (n, Free d) ∧ size ≤ n * PAGE).
      { destruct Hroom as [Hsp|(c & s & n & d & Hr)]; [exists 0, 0, 0, false; by left|exists c, s, n, d; by right]. }
      destruct Hfit as (c & s & n & d & Hfit). eapply wp_malloc_large_fits; [exact Hop|exact Hf|exact Hs|exact Hfit|].
      intros a' p [_ _ Ho' _ _]. exists p, (PAGE_CEILING size). split_and!; try done. unfold s2u.
      by rewrite (proj2 (Z.leb_gt size SMALL_MAXCLASS)), (proj2 (Z.leb_le size arena_maxclass)) by lia. }
  apply wp_Some in Hw as (r & a' & E' & p & sz & -> & Es & Ho'). by exists p, a', sz.
Qed.
End threads.

(** ** Concrete runs over the real chunk layer *)

(** The layouts that [bin_info_init] computes are as the arena needs them. *)
Lemma bin_infos_ok `{Config} `{Opts} :
  opt_lg_chunk ≤ 31 → bin_info_init = Some bin_infos → opt_junk && opt_abort = false → BinInfos.
Proof.
  intros Hlg E Hj. destruct (bin_infos_all Hlg) as (infos & E' & Hall).
  rewrite E in E'. injection E' as <-. split.
  - by rewrite <- (Forall2_length _ _ _ Hall).
  - intros i info Ei. by destruct (Forall2_lookup_r _ _ _ _ _ Hall Ei) as ([[? ?] ?] & _ & _ & Hok & _).
  - intros bin sz Hb Hsz. unfold reg_size_of in Hsz. apply fmap_Some in Hsz as ([[? ?] ?] & Hl & ->).
    destruct (Forall2_lookup_l _ _ _ _ _ Hall Hl) as (b & Hbl & Hreg & _). eauto.
  - exact Hlg.
  - intros i info _ H1 H2. by rewrite H1, H2 in Hj.
Qed.

Section witnesses.
#[local] Existing Instance default_config.
#[local] Existing Instance sample_opts.
#[local] Existing Instance arena_layer.
#[local] Existing Instance arena_laws.
#[local] Existing Instance sample_frame.
Abbreviation cst := (state (T := rbt Z)).
Abbreviation ast := (astate cst (rbt Z)).

#[local] Instance sample_infos : BinInfos.
Proof.
  apply bin_infos_ok; [discriminate| |reflexivity]. unfold bin_infos, sample_opts.
  destruct (bin_infos_all (H := default_config) ltac:(discriminate)) as (infos & E & _). by rewrite E.
Qed.

(** Another thread that allocates and frees. *)
Definition visitor : client := Malloc 24 false (λ r, match r with Some p => Dealloc p Done | None => Done end).
Definition visitors : list client := [visitor; visitor].

Lemma visitors_ok : Forall (client_ok ∅) visitors.
Proof.
  assert (Hv : client_ok ∅ visitor).
  { cbn [client_ok visitor]. split_and!; [lia|by vm_compute|done|]. intros p sz _ _. split; [|done]. rewrite lookup_insert_eq. by eexists. }
  constructor; [exact Hv|]. constructor; [exact Hv|]. constructor.
Qed.

Lemma visitors_tidy : Forall tidy visitors.
Proof.
  assert (Hv : tidy visitor).
  { intros X Hr. inversion Hr as [|? ? ? ? ? Hd|? ? ? ? ? p sz Hp ? ? ? Hd| | | | | |]; subst; inversion Hd as [| | | | | | | |? ? ? ? ? He]; subst; [done|].
    inversion He; subst. by apply delete_insert_id. }
  by repeat constructor.
Qed.

Definition heap_malloc (size : Z) : M ast (option Z) := arena_malloc no_word zero_purge (interfere no_word zero_purge visitors) size false.
Definition small1 : ast := after (heap_malloc 100) arena0.
Definition small1_at : Z := default 0 (match heap_malloc 100 arena0 with Some (r, _) => r | None => None end).
Abbreviation mine := (owned [] [] anything).

Lemma small1_run : fst <$> heap_malloc 100 arena0 = Some (Some small1_at).
Proof. vm_compute. reflexivity. Qed.

Lemma size_100 : 0 < 100 ≤ arena_maxclass.
Proof. vm_compute. split; congruence. Qed.

Lemma arena0_objects : objects_are [] [] arena0 ∅ ∅.
Proof. apply objects_arena_new; [apply layer0|constructor]. Qed.

Lemma small1_objects : objects_are [] [] small1 {[small1_at := 112]} ∅.
Proof.
  assert (Hw : wp (heap_malloc 100) arena0 (λ r a, ∀ p, r = Some p → objects_are [] [] a {[p := 112]} ∅)).
  { eapply wp_malloc; [exact zero_purge_range|intros; apply wp_interfere_tidy; [exact zero_purge_range|exact visitors_ok|exact visitors_tidy|done]|apply objects_owned; exact arena0_objects|exact size_100|by intros|].
    intros a p sz Es [_ _ Ho _ _] q [= <-]. vm_compute in Es. injection Es as <-. rewrite insert_empty in Ho. by apply objects_owned. }
  pose proof small1_run as E. destruct (proj1 (wp_Some _ _ _) Hw) as (r & a & Er & Hr). rewrite Er in E. injection E as ->.
  unfold small1, after. rewrite Er. by apply Hr.
Qed.

Lemma small1_owned : mine small1 {[small1_at := 112]} ∅.
Proof. eapply owned_anything, objects_owned, small1_objects. Qed.

#[local] Opaque arena0 small1 small1_at.

Lemma arena_refines_objects_witness :
  ∃ a' X', run_client no_word zero_purge (interfere no_word zero_purge visitors) (Dealloc small1_at visitor) small1 = Some (tt, a') ∧ mine a' X' ∅.
Proof.
  assert (Hok : client_ok {[small1_at := 112]} (Dealloc small1_at visitor)).
  { cbn [client_ok]. split; [rewrite lookup_singleton_eq; by eexists|]. cbn [client_ok visitor]. split_and!; [lia|by vm_compute|done|].
    intros p sz _ _. split; [|done]. rewrite lookup_insert_eq. by eexists. }
  destruct (arena_refines_objects no_word zero_purge [] [] zero_purge_range visitors _ _ ∅ small1 visitors_ok Hok small1_owned) as (a' & X' & E & _ & Ho).
  exists a', X'. split; [exact E|exact Ho].
Defined.

Lemma arena_malloc_spec_witness :
  ∃ r a', arena_malloc no_word zero_purge (interfere no_word zero_purge visitors) 100 true small1 = Some (r, a').
Proof.
  destruct (arena_malloc_spec no_word zero_purge [] [] zero_purge_range visitors small1 _ ∅ 100 true visitors_ok small1_owned size_100) as (r & a' & E & _).
  exists r, a'. exact E.
Defined.

Lemma arena_dalloc_spec_witness :
  ∃ a', arena_dalloc no_word zero_purge (interfere no_word zero_purge visitors) (CHUNK_ADDR2BASE small1_at) small1_at small1 = Some (tt, a') ∧ objects_are [] [] a' ∅ ∅.
Proof.
  destruct (arena_dalloc_spec no_word zero_purge [] [] zero_purge_range visitors small1 _ ∅ small1_at 112 visitors_ok visitors_tidy small1_objects (lookup_singleton_eq _ _)) as (a' & E & Ho & _).
  exists a'. split; [exact E|]. rewrite delete_singleton_eq in Ho. exact Ho.
Defined.

Lemma arena_salloc_spec_witness : arena_salloc small1_at small1 = Some (112, small1) ∧ s2u 112 = Some 112.
Proof. apply (arena_salloc_spec [] [] small1 _ ∅ small1_at 112 small1_owned (lookup_singleton_eq _ _)). Defined.

Lemma arena_palloc_spec_witness : ∃ r a', arena_palloc no_word zero_purge (3 * PAGE) (2 ^ 15) false small1 = Some (r, a').
Proof.
  assert (Hm : 3 * PAGE + PAGE_CEILING (2 ^ 15) - PAGE ≤ arena_maxclass) by (vm_compute; congruence).
  destruct (arena_palloc_spec no_word zero_purge [] [] zero_purge_range small1 _ ∅ 3 15 false small1_objects ltac:(lia) ltac:(lia) Hm) as (r & a' & E & _).
  exists r, a'. exact E.
Defined.

Lemma arena_ralloc_no_move_spec_witness :
  ∃ r a', arena_ralloc_no_move no_word zero_purge small1_at 112 100 20 false small1 = Some (r, a') ∧ resize_result [] [] small1 {[small1_at := 112]} ∅ small1_at 112 100 r a'.
Proof.
  assert (H64 : 100 + 20 + PAGE ≤ 2 ^ 64) by (vm_compute; congruence).
  exact (arena_ralloc_no_move_spec no_word zero_purge [] [] zero_purge_range small1 _ ∅ small1_at 112 100 20 false small1_owned (lookup_singleton_eq _ _)
    size_100 ltac:(lia) H64 (or_introl eq_refl)).
Defined.

(** All of the address space is mapped already: there is no memory. *)
Definition arena_full : ast := arena_new (boot_state [(2 ^ 40, 2 ^ 47 - 2 ^ 40)]) (λ _, 0) 0.

Example arena_full_run : fst <$> heap_malloc 100 arena_full = Some None.
Proof. vm_compute. reflexivity. Qed.

#[local] Transparent small1 small1_at arena0.

Definition small1_room : bool :=
  match SMALL_SIZE2BIN 100 with
  | Some bi =>
      match bins small1 !! Z.to_nat bi with
      | Some b => match runcur b with Some cur => match runs small1 !! cur with Some r => 0 <? nfree r | None => false end | None => false end
      | None => false
      end
  | None => false
  end.

Lemma small1_room_true : small1_room = true.
Proof. vm_compute. reflexivity. Qed.

#[local] Opaque small1 small1_at.

Lemma arena_malloc_progress_witness :
  ∃ p a' sz, arena_malloc no_word zero_purge (interfere no_word zero_purge visitors) 100 false small1 = Some (Some p, a') ∧ s2u 100 = Some sz.
Proof.
  destruct small1_owned as (R & G & E & F & Ho & Hf).
  assert (Hroom : room small1 R 100).
  { change (∃ bi b cur r, SMALL_SIZE2BIN 100 = Some bi ∧ bins small1 !! Z.to_nat bi = Some b ∧ runcur b = Some cur ∧ runs small1 !! cur = Some r ∧ 0 < nfree r).
    pose proof small1_room_true as Hr. unfold small1_room in Hr. destruct (SMALL_SIZE2BIN 100) as [bi|] eqn:E1; [|discriminate Hr].
    destruct (bins small1 !! Z.to_nat bi) as [b|] eqn:E2; [|discriminate Hr]. destruct (runcur b) as [cur|] eqn:E3; [|discriminate Hr].
    destruct (runs small1 !! cur) as [r|] eqn:E4; [|discriminate Hr]. exists bi, b, cur, r. split_and!; [reflexivity|exact E2|exact E3|exact E4|by apply Z.ltb_lt]. }
  destruct (arena_malloc_progress no_word zero_purge [] [] zero_purge_range visitors small1 R G E F _ ∅ 100 false visitors_ok Ho Hf size_100 Hroom) as (p & a' & sz & E' & Es & _).
  exists p, a', sz. split; [exact E'|exact Es].
Defined.
End witnesses.
