(* ===== verification/Malloc.v ===== *)
(** * The entry points (jemalloc.c, jemalloc_internal.h)

    The malloc family on top of an arena and of the huge objects.  Both take
    chunks from one chunk layer and write one memory: the huge layer runs with
    the arena's state in the place of the chunk layer, so that whatever one of
    them does to the chunks is there for the other.  The thread that calls uses
    arena 0, as a program's first thread does; profiling, valgrind, utrace,
    xmalloc and the quarantine are off in this configuration.  What start-up
    does ([malloc_init_hard]) and the record of named objects
    ([nv_record_chunk]) are parameters. *)

From S2P Require Import Prelude OrdTree SizeClass BinInfo ChunkIface Arena ArenaBin Huge.

Definition ENOMEM : Z := 12.
Definition EINVAL : Z := 22.
Definition SIZE_T_MAX : Z := 2 ^ 64 - 1.

(** [jemalloc.h] *)
Definition ALLOCM_LG_ALIGN_MASK : Z := 0x3f.
Definition ALLOCM_ZERO : Z := 0x40.
Definition ALLOCM_NO_MOVE : Z := 0x80.
Definition ALLOCM_SUCCESS : Z := 0.
Definition ALLOCM_ERR_OOM : Z := 1.
Definition ALLOCM_ERR_NOT_MOVED : Z := 2.

(** The fields of a request for a named object that [je_malloc_] uses. *)
Record rqst_s := Rqst { rq_bytes : Z; rq_id : Z; rq_pid : Z; rq_nv_ptr : option Z; rq_commitsz : Z }.

(** The alignment and the flags in the last argument of the [allocm] functions. *)
Definition allocm_alignment (flags : Z) : Z := Z.land (u64 (Z.shiftl 1 (Z.land flags ALLOCM_LG_ALIGN_MASK))) (SIZE_T_MAX - 1).
Definition allocm_zero (flags : Z) : bool := negb (Z.land flags ALLOCM_ZERO =? 0).
Definition allocm_no_move (flags : Z) : bool := negb (Z.land flags ALLOCM_NO_MOVE =? 0).

Section malloc.
Context `{Config} `{Opts} {S : Type} `{CL : ChunkLayer S} {T : Type} `{OT : OrdTree T Z}.
Context (old_word : Z → Z → Z) (os_purge : Z → Z → (Z → Z) → (Z → Z)).
Context (others : M (astate S T) unit).

(** ** One chunk layer and one memory *)

#[local] Instance arena_chunks : ChunkLayer (astate S T) := {|
  cl_alloc sz al zero := Arena.on_chunks (cl_alloc sz al zero);
  cl_dealloc c sz unmap := Arena.on_chunks (cl_dealloc c sz unmap);
  cl_node_alloc := Arena.on_chunks cl_node_alloc;
  cl_node_dealloc n := Arena.on_chunks (cl_node_dealloc n)
|}.

Abbreviation hst := (hstate (astate S T) T).
Abbreviation MH := (M hst).

(** The arena as it is between operations on huge objects: the memory and the
    count of active bytes are those of the whole. *)
Definition arena_of (h : hst) : astate S T := set_cactive (stats_cactive h) (set_amem (mem h) (chunks h)).
Definition with_arena (h : hst) (a : astate S T) : hst :=
  HState a (huge h) (hnodes h) (hprof h) (huge_nmalloc h) (huge_ndalloc h) (huge_allocated h) (cactive a) (a_mem a).
Definition on_arena {A} (m : M (astate S T) A) : MH A := λ h,
  match m (arena_of h) with Some (r, a) => Some (r, with_arena h a) | None => None end.

Definition arena_malloc_ (size : Z) (zero : bool) : MH (option Z) := on_arena (arena_malloc old_word os_purge others size zero).
Definition arena_free (ptr : Z) : MH unit := on_arena (arena_dalloc old_word os_purge others (CHUNK_ADDR2BASE ptr) ptr).
Definition huge_malloc_ (size : Z) (zero : bool) : MH (option Z) := huge_malloc opt_junk opt_zero size zero.

(** ** Objects of any size *)

Definition imalloc (size : Z) : MH (option Z) :=
  check (negb (size =? 0));;
  if size <=? arena_maxclass then arena_malloc_ size false else huge_malloc_ size false.

Definition icalloc (size : Z) : MH (option Z) :=
  if size <=? arena_maxclass then arena_malloc_ size true else huge_malloc_ size true.

Definition ipalloc (usize alignment : Z) (zero : bool) : MH (option Z) :=
  check (negb (usize =? 0));;
  u ← lift (sa2u usize alignment);
  check (usize =? u);;
  ret ← (if (usize <=? arena_maxclass) && (alignment <=? PAGE) then arena_malloc_ usize zero
         else if usize <=? arena_maxclass then on_arena (arena_palloc old_word os_purge usize alignment zero)
         else if alignment <=? chunksize then huge_malloc_ usize zero
         else huge_palloc opt_junk opt_zero usize alignment zero);
  check (ALIGNMENT_ADDR2BASE (default 0 ret) alignment =? default 0 ret);;
  mret ret.

Definition isalloc (ptr : Z) : MH Z :=
  check (negb (ptr =? 0));;
  if negb (CHUNK_ADDR2BASE ptr =? ptr) then on_arena (arena_salloc ptr) else huge_salloc ptr.

Definition u2rz (usize : Z) : option Z :=
  if usize <=? SMALL_MAXCLASS then binind ← SMALL_SIZE2BIN usize; redzone_size <$> (bin_infos !! Z.to_nat binind)
  else Some 0.

Definition p2rz (ptr : Z) : MH Z := usize ← isalloc ptr; lift (u2rz usize).

(** The quarantine is off, so [iqalloc] is [idalloc]. *)
Definition iqalloc (ptr : Z) : MH unit := Huge.idalloc arena_free ptr.

(** Moving an object: at most [size] bytes are copied. *)
Definition move_object (ptr ret oldsize size : Z) : MH (option Z) :=
  let copysize := if size <? oldsize then size else oldsize in
  memcpy ret ptr copysize;; iqalloc ptr;; mret (Some ret).

(** The space for a moved object, first with [extra] and then without. *)
Definition alloc_twice (try : Z → MH (option Z)) (size extra : Z) : MH (option Z) :=
  ret ← try (u64 (size + extra));
  match ret with Some ret => mret (Some ret) | None => if extra =? 0 then mret None else try size end.
Definition try_aligned (alignment : Z) (zero : bool) (sz : Z) : MH (option Z) :=
  usize ← lift (sa2u sz alignment);
  if usize =? 0 then mret None else ipalloc usize alignment zero.

(** With an alignment, a usable size of 0 gives up at once. *)
Definition alloc_aligned (size extra alignment : Z) (zero : bool) : MH (option Z) :=
  usize ← lift (sa2u (u64 (size + extra)) alignment);
  if usize =? 0 then mret None else alloc_twice (try_aligned alignment zero) size extra.

Definition arena_ralloc (ptr oldsize size extra alignment : Z) (zero : bool) : MH (option Z) :=
  ret ← on_arena (arena_ralloc_no_move old_word os_purge ptr oldsize size extra zero);
  match ret with
  | Some ret => mret (Some ret)
  | None =>
      ret ← (if negb (alignment =? 0) then alloc_aligned size extra alignment zero
             else alloc_twice (λ sz, arena_malloc_ sz zero) size extra);
      match ret with None => mret None | Some ret => move_object ptr ret oldsize size end
  end.

Definition iralloc (ptr size extra alignment : Z) (zero no_move : bool) : MH (option Z) :=
  check (negb (ptr =? 0));;
  check (negb (size =? 0));;
  oldsize ← isalloc ptr;
  if negb (alignment =? 0) && negb (Z.land ptr (alignment - 1) =? 0) then
    if no_move then mret None
    else
      ret ← alloc_aligned size extra alignment zero;
      match ret with None => mret None | Some ret => move_object ptr ret oldsize size end
  else if no_move then
    if size <=? arena_maxclass then on_arena (arena_ralloc_no_move old_word os_purge ptr oldsize size extra zero)
    else huge_ralloc_no_move opt_junk ptr oldsize size extra
  else if u64 (size + extra) <=? arena_maxclass then arena_ralloc ptr oldsize size extra alignment zero
  else huge_ralloc opt_junk opt_zero arena_free ptr oldsize size extra alignment zero.

(** ** The entry points *)

(** The heap, the counters of the thread, [errno] and [proc_persist_id]. *)
Record mstate := MState {
  heap : hst;
  thr_allocated : Z;
  thr_deallocated : Z;
  errno : Z;
  proc_persist_id : Z;
  malloc_initialized : bool
}.
Abbreviation MM := (M mstate).

Definition set_heap (h : hst) (s : mstate) : mstate := MState h (thr_allocated s) (thr_deallocated s) (errno s) (proc_persist_id s) (malloc_initialized s).
Definition set_counts (al de : Z) (s : mstate) : mstate := MState (heap s) al de (errno s) (proc_persist_id s) (malloc_initialized s).
Definition set_errno (e : Z) (s : mstate) : mstate := MState (heap s) (thr_allocated s) (thr_deallocated s) e (proc_persist_id s) (malloc_initialized s).
Definition set_persist_id (i : Z) (s : mstate) : mstate := MState (heap s) (thr_allocated s) (thr_deallocated s) (errno s) i (malloc_initialized s).

Definition on_heap {A} (m : MH A) : MM A := λ s,
  match m (heap s) with Some (r, h) => Some (r, set_heap h s) | None => None end.

(** [usize == isalloc(ret)] is asserted, then counted. *)
Definition count_allocated (ret : option Z) (usize : Z) : MM unit :=
  match ret with
  | None => mret tt
  | Some p => n ← on_heap (isalloc p); check (usize =? n);; modify (λ s, set_counts (u64 (thr_allocated s + usize)) (thr_deallocated s) s)
  end.
Definition count_deallocated (n : Z) : MM unit := modify (λ s, set_counts (thr_allocated s) (u64 (thr_deallocated s + n)) s).
Definition no_memory (ret : option Z) : MM unit := if ret is None then modify (set_errno ENOMEM) else mret tt.

Context (malloc_init_hard : MM bool).
Context (nv_record_chunk : rqst_s → option Z → MM Z).

Definition malloc_init : MM bool :=
  b ← gets malloc_initialized; if b : bool then mret false else malloc_init_hard.

Definition je_malloc_ (size : Z) (rqst : rqst_s) : MM (option Z * rqst_s) :=
  modify (set_persist_id (rq_pid rqst));;
  let size := rq_commitsz rqst in
  failed ← malloc_init;
  '(ret, usize, size) ← (if (failed : bool) then mret (None, 0, size)
    else
      let size := if size =? 0 then 1 else size in
      usize ← lift (s2u size); ret ← on_heap (imalloc size); mret (ret, usize, size));
  no_memory ret;;
  count_allocated ret usize;;
  check (bool_decide (is_Some ret));;
  let rqst := Rqst size 0 (rq_pid rqst) ret (rq_commitsz rqst) in
  nv_record_chunk rqst ret;;
  mret (ret, rqst).

(** The result and what is stored in [*memptr], if anything is. *)
Definition imemalign (alignment size min_alignment : Z) : MM (Z * option Z) :=
  check (negb (min_alignment =? 0));;
  failed ← malloc_init;
  if (failed : bool) then mret (ENOMEM, None)
  else
    let size := if size =? 0 then 1 else size in
    if negb (Z.land (u64 (alignment - 1)) alignment =? 0) || (alignment <? min_alignment) then mret (EINVAL, None)
    else
      usize ← lift (sa2u size alignment);
      if usize =? 0 then mret (ENOMEM, None)
      else
        result ← on_heap (ipalloc usize alignment false);
        match result with
        | None => mret (ENOMEM, None)
        | Some p => count_allocated (Some p) usize;; mret (0, Some p)
        end.

Definition je_posix_memalign (alignment size : Z) : MM (Z * option Z) := imemalign alignment size 8.

Definition je_aligned_alloc (alignment size : Z) : MM (option Z) :=
  '(err, ret) ← imemalign alignment size 1;
  if negb (err =? 0) then modify (set_errno err);; mret None else mret ret.

(** [ret] is not initialised: [unset] is what it holds. *)
Definition je_memalign (unset : option Z) (alignment size : Z) : MM (option Z) :=
  '(_, ret) ← imemalign alignment size 1; mret (if ret is Some p then Some p else unset).

(** The test for overflow of the product. *)
Definition calloc_overflows (num size num_size : Z) : bool :=
  negb (Z.land (Z.lor num size) (u64 (Z.shiftl SIZE_T_MAX (Z.shiftl 8 2))) =? 0) && negb (num_size / size =? num).
Definition calloc_size (num size : Z) : option Z :=
  let num_size := u64 (num * size) in
  if num_size =? 0 then if (num =? 0) || (size =? 0) then Some 1 else None
  else if calloc_overflows num size num_size then None else Some num_size.

Definition je_calloc (num size : Z) : MM (option Z) :=
  failed ← malloc_init;
  '(ret, usize) ← (if (failed : bool) then mret (None, 0)
    else match calloc_size num size with
         | None => mret (None, 0)
         | Some num_size => usize ← lift (s2u num_size); ret ← on_heap (icalloc num_size); mret (ret, usize)
         end);
  no_memory ret;;
  count_allocated ret usize;;
  mret ret.

(** At [label_return]. *)
Definition realloc_counts (ret : option Z) (usize old_size : Z) : MM unit :=
  match ret with None => mret tt | Some _ => count_allocated ret usize;; count_deallocated old_size end.

Definition je_realloc (ptr : option Z) (size : Z) : MM (option Z) :=
  match ptr with
  | Some ptr =>
      if size =? 0 then
        old_size ← on_heap (isalloc ptr);
        on_heap (iqalloc ptr);;
        realloc_counts None 0 old_size;; mret None
      else
        check_init ← gets malloc_initialized; check check_init;;
        old_size ← on_heap (isalloc ptr);
        usize ← lift (s2u size);
        ret ← on_heap (iralloc ptr size 0 0 false false);
        no_memory ret;; realloc_counts ret usize old_size;; mret ret
  | None =>
      let size := if size =? 0 then 1 else size in
      failed ← malloc_init;
      '(ret, usize) ← (if (failed : bool) then mret (None, 0)
        else usize ← lift (s2u size); ret ← on_heap (imalloc size); mret (ret, usize));
      no_memory ret;; realloc_counts ret usize 0;; mret ret
  end.

Definition je_free (ptr : option Z) : MM unit :=
  match ptr with
  | None => mret tt
  | Some ptr =>
      init ← gets malloc_initialized; check init;;
      usize ← on_heap (isalloc ptr); count_deallocated usize;; on_heap (iqalloc ptr)
  end.

Definition je_malloc_usable_size (ptr : option Z) : MM Z :=
  init ← gets malloc_initialized; check init;;
  match ptr with None => mret 0 | Some ptr => on_heap (isalloc ptr) end.

(** ** The experimental interface *)

Definition usable (size alignment : Z) : option Z := if alignment =? 0 then s2u size else sa2u size alignment.

Definition iallocm (usize alignment : Z) (zero : bool) : MH (option Z) :=
  u ← lift (usable usize alignment); check (usize =? u);;
  if negb (alignment =? 0) then ipalloc usize alignment zero
  else if zero then icalloc usize else imalloc usize.

(** The result, [*ptr] and [*rsize]. *)
Definition je_allocm (size flags : Z) : MM (Z * option Z * option Z) :=
  let alignment := allocm_alignment flags in
  check (negb (size =? 0));;
  failed ← malloc_init;
  if (failed : bool) then mret (ALLOCM_ERR_OOM, None, None)
  else
    usize ← lift (usable size alignment);
    if usize =? 0 then mret (ALLOCM_ERR_OOM, None, None)
    else
      p ← on_heap (iallocm usize alignment (allocm_zero flags));
      match p with
      | None => mret (ALLOCM_ERR_OOM, None, None)
      | Some p => count_allocated (Some p) usize;; mret (ALLOCM_SUCCESS, Some p, Some usize)
      end.

(** The result, [*ptr] and [*rsize]. *)
Definition je_rallocm (p size extra flags : Z) : MM (Z * Z * option Z) :=
  check (negb (p =? 0));;
  check (negb (size =? 0));;
  check (extra <=? SIZE_T_MAX - size);;
  init ← gets malloc_initialized; check init;;
  old_size ← on_heap (isalloc p);
  q ← on_heap (iralloc p size extra (allocm_alignment flags) (allocm_zero flags) (allocm_no_move flags));
  match q with
  | None => mret (if allocm_no_move flags then ALLOCM_ERR_NOT_MOVED else ALLOCM_ERR_OOM, p, None)
  | Some q =>
      usize ← on_heap (isalloc q);
      modify (λ s, set_counts (u64 (thr_allocated s + usize)) (u64 (thr_deallocated s + old_size)) s);;
      mret (ALLOCM_SUCCESS, q, Some usize)
  end.

Definition je_sallocm (ptr : Z) : MM (Z * Z) :=
  init ← gets malloc_initialized; check init;;
  check (negb (ptr =? 0));;
  sz ← on_heap (isalloc ptr); mret (ALLOCM_SUCCESS, sz).

Definition je_dallocm (ptr : Z) : MM Z :=
  check (negb (ptr =? 0));;
  init ← gets malloc_initialized; check init;;
  usize ← on_heap (isalloc ptr); count_deallocated usize;; on_heap (iqalloc ptr);; mret ALLOCM_SUCCESS.

Definition je_nallocm (size flags : Z) : MM (Z * option Z) :=
  check (negb (size =? 0));;
  failed ← malloc_init;
  if (failed : bool) then mret (ALLOCM_ERR_OOM, None)
  else
    usize ← lift (usable size (allocm_alignment flags));
    if usize =? 0 then mret (ALLOCM_ERR_OOM, None) else mret (ALLOCM_SUCCESS, Some usize).

(** ** Allocation without thread-local data *)

Definition a0alloc (size : Z) (zero : bool) : MM (option Z) :=
  failed ← malloc_init;
  if (failed : bool) then mret None
  else
    let size := if size =? 0 then 1 else size in
    on_heap (if size <=? arena_maxclass then arena_malloc_ size zero else huge_malloc_ size zero).

Definition a0malloc (size : Z) : MM (option Z) := a0alloc size false.
Definition a0calloc (num size : Z) : MM (option Z) := a0alloc (u64 (num * size)) true.
Definition a0free (ptr : option Z) : MM unit :=
  match ptr with
  | None => mret tt
  | Some ptr => on_heap (if negb (CHUNK_ADDR2BASE ptr =? ptr) then arena_free ptr else huge_dalloc ptr true)
  end.
End malloc.
Arguments mstate S T : clear implicits.
