(* ===== verification/MallocInv.v ===== *)
(** * The heap as a whole

    [heap_ok h X]: in state [h] the program has the objects [X], some of them
    regions and runs of the arena and the others huge.  The arena and the huge
    layer each keep their own invariant, with the chunks of the other as the
    chunks of others; a step of one of them leaves the other's objects alone,
    because the arena does not write outside its chunks and a new huge object
    overlaps nothing. *)

From S2P Require Import Prelude OrdTree SizeClass BinInfo ChunkIface ChunkSpec Arena ArenaMap ArenaTree ArenaInv ArenaRun ArenaTrim ArenaBin ArenaBinInv ArenaObj ArenaBinOps ArenaSmall ArenaHeap ArenaThreads Huge Malloc.

(** What the other threads have in the arena. *)
Class Env := env : gmap Z Z → detached → Prop.

Section inv.
Context `{Config} `{Opts} {S : Type} `{CL : ChunkLayer S} {T : Type} `{OT : OrdTree T Z}.
Context `{!ChunkLayerLaws S} `{!OrdTreeLaws T Z} {HBI : BinInfos} {EN : Env}.
#[local] Existing Instance arena_chunks.
Abbreviation hst := (hstate (astate S T) T).
Implicit Types (h : hst) (a : astate S T) (X Xa Xh : gmap Z Z) (B : gset Z) (L : list Z) (p q n m : Z).

(** ** The arena in the place of the chunk layer *)

(** Nothing of the arena [a0] changes but the chunk layer in it. *)
Program Definition laws_at (a0 : astate S T) : ChunkLayerLaws (astate S T) := {|
  cl_inv a C N := a = set_chunks (a_chunks a) a0 ∧ cl_inv (a_chunks a) C N
|}.
Next Obligation. intros a0 a C C' N N' HC HN [E Hi]. split; [done|]. by eapply cl_perm. Qed.
Next Obligation. intros a0 a C N c sz [_ Hi]. by eapply cl_range. Qed.
Next Obligation. intros a0 a C N r [_ Hi]. by eapply cl_apart. Qed.
Next Obligation. intros a0 a C N p [_ Hi]. by eapply cl_node_new. Qed.
Next Obligation.
  intros a0 a C N sz al zero [Ea Hi] Hr. destruct (cl_alloc_ok _ _ _ sz al zero Hi Hr) as (r & z & s' & E & Hr').
  exists r, z, (set_chunks s' a). cbn. unfold Arena.on_chunks. rewrite E. split; [done|].
  assert (Es : set_chunks s' a = set_chunks s' a0) by (rewrite Ea; by destruct a0). destruct r; [destruct Hr' as [? ?]|]; by split_and!.
Qed.
Next Obligation.
  intros a0 a C N c sz unmap [Ea Hi]. destruct (cl_dealloc_ok _ _ _ _ _ unmap Hi) as (s' & E & Hi').
  exists (set_chunks s' a). cbn. unfold Arena.on_chunks. rewrite E. split; [done|]. split; [|done]. rewrite Ea. by destruct a0.
Qed.
Next Obligation.
  intros a0 a C N [Ea Hi]. destruct (cl_node_alloc_ok _ _ _ Hi) as (r & s' & E & Hr).
  exists r, (set_chunks s' a). cbn. unfold Arena.on_chunks. rewrite E. split; [done|].
  assert (Es : set_chunks s' a = set_chunks s' a0) by (rewrite Ea; by destruct a0). destruct r; by split.
Qed.
Next Obligation.
  intros a0 a C N p [Ea Hi]. destruct (cl_node_dealloc_ok _ _ _ _ Hi) as (s' & E & Hi').
  exists (set_chunks s' a). cbn. unfold Arena.on_chunks. rewrite E. split; [done|]. split; [|done]. rewrite Ea. by destruct a0.
Qed.

Definition chunk_list L : list (Z * Z) := (λ c, (c, chunksize)) <$> L.

(** The arena has the chunks [L]. *)
Definition has_chunks a L : Prop := NoDup L ∧ ∀ c, c ∈ L ↔ is_Some (hdrs a !! c).

Lemma has_chunks_perm a L L' : has_chunks a L → has_chunks a L' → L ≡ₚ L'.
Proof. intros [HL HL'] [HK HK']. apply NoDup_Permutation; [done..|]. intros c. by rewrite HL', HK'. Qed.

(** The arena with another chunk layer and memory, and other chunks of others. *)
Lemma owned_move (F F' : Frame) C N C' N' a M D L (s' : S) f ca :
  owned (FR := F) C N env a M D → has_chunks a L → cl_inv s' (chunk_list L ++ C') N' → framed (FR := F') C' f →
  owned (FR := F') C' N' env (set_cactive ca (set_amem f (set_chunks s' a))) M D.
Proof.
  intros (R & G & E & F0 & (He & HM & HD & [[Hcore Hd Hact Hmap Hown] Hb HO Hl]) & Hf) [HL HL'] Hs Hfr.
  exists R, G, E, F0. split; [|done]. split_and!; [done..|]. split; [|done..].
  destruct Hcore, Hd. split; [by split|by split|done|done|]. exists L. by split_and!.
Qed.

Lemma owned_chunks (F : Frame) C N a M D :
  owned (FR := F) C N env a M D → ∃ L, has_chunks a L ∧ cl_inv (a_chunks a) (chunk_list L ++ C) N ∧ framed (FR := F) C (a_mem a).
Proof.
  intros (R & G & E & F0 & (_ & _ & _ & Hh) & _). destruct (aa_owns _ _ _ _ _ _ _ _ (ha_inv _ _ _ _ _ _ _ Hh)) as (L & ? & ? & ? & ?).
  exists L. by split_and!.
Qed.

(** ** Both parts *)

Record parts h Xa Xh B L : Prop := {
  pa_huge : huge_rel (ChunkLayerLaws0 := laws_at (chunks h)) h B Xh (chunk_list L) [];
  pa_chunks : has_chunks (chunks h) L;
  pa_arena : owned (FR := mem h) (map_to_list Xh) (elements B) env (arena_of h) Xa ∅
}.

Definition heap_ok h X : Prop := ∃ Xa Xh B L, X = Xa ∪ Xh ∧ parts h Xa Xh B L.

(** Objects of an arena lie behind the header of a chunk; huge ones are chunks. *)
Lemma arena_object h Xa Xh B L p n :
  parts h Xa Xh B L → Xa !! p = Some n →
  let c := CHUNK_ADDR2BASE p in
  0 < n ≤ arena_maxclass ∧ 0 < c < p ∧ p + n ≤ c + chunksize ∧ c + chunksize ≤ 2 ^ 47 ∧ s2u n = Some n ∧ Forall (ranges_apart (p, n)) (map_to_list Xh).
Proof.
  intros Hp Ep c. pose proof (owned_s2u _ _ _ _ _ _ _ _ (pa_arena _ _ _ _ _ Hp) Ep) as Hs2.
  destruct (pa_arena _ _ _ _ _ Hp) as (R & G & E & F & (_ & HM & _ & Hh) & _).
  destruct (obj_chunk _ _ _ _ _ _ _ _ _ Hh (lookup_union_Some_l _ _ _ _ Ep)) as (? & Hc & ? & ? & ? & ?). fold c in Hc.
  destruct (chunk_owned _ _ _ _ _ _ _ _ Hh Hc) as [(? & _) _]. pose proof page_facts as (? & ? & ? & _ & ?).
  split_and!; (done || (unfold c; change PAGE with 8192 in *; lia)).
Qed.

Lemma huge_object h Xa Xh B L p n :
  parts h Xa Xh B L → Xh !! p = Some n →
  CHUNK_ADDR2BASE p = p ∧ 0 < p ∧ chunksize ≤ n ∧ p + n ≤ 2 ^ 47 ∧ n mod chunksize = 0 ∧ s2u n = Some n.
Proof.
  intros Hp Ep. pose proof (obj_range _ _ _ _ _ _ _ (pa_huge _ _ _ _ _ Hp) Ep) as (? & Hm & ? & Hz & ?).
  destruct maxclass_facts as (? & _ & Hmc & _ & Hc0 & Hc63). assert (Hge : chunksize ≤ n) by by apply mod_0_ge.
  split_and!; try done; [by apply chunk_base_addr|]. rewrite s2u_huge by lia. f_equal. by apply round_up_id.
Qed.

Lemma parts_disjoint h Xa Xh B L : parts h Xa Xh B L → Xa ##ₘ Xh.
Proof.
  intros Hp. apply map_disjoint_spec. intros p n m Ea Eh. destruct (arena_object _ _ _ _ _ _ _ Hp Ea) as (_ & ? & _).
  destruct (huge_object _ _ _ _ _ _ _ Hp Eh) as (? & _). lia.
Qed.

Lemma heap_object h X p n :
  heap_ok h X → X !! p = Some n → 0 < n ∧ 0 < p ∧ p + n ≤ 2 ^ 47 ∧ s2u n = Some n.
Proof.
  intros (Xa & Xh & B & L & -> & Hp) [Ea|[_ Eh]]%lookup_union_Some_raw.
  - destruct (arena_object _ _ _ _ _ _ _ Hp Ea) as (? & ? & ? & ? & ? & _). split_and!; (done || lia).
  - destruct (huge_object _ _ _ _ _ _ _ Hp Eh) as (? & ? & ? & ? & ? & ?). pose proof chunksize_pos. split_and!; (done || lia).
Qed.

Lemma heap_objs_apart h X p n : heap_ok h X → X !! p = Some n → apart_from X p n.
Proof.
  intros (Xa & Xh & B & L & -> & Hp) Ep q m Eq Hne.
  apply lookup_union_Some in Ep; [|by eapply parts_disjoint]. apply lookup_union_Some in Eq; [|by eapply parts_disjoint].
  assert (Hcross : ∀ p n q m, Xa !! p = Some n → Xh !! q = Some m → ranges_apart (p, n) (q, m)).
  { intros p' n' q' m' E1 E2. destruct (arena_object _ _ _ _ _ _ _ Hp E1) as (_ & _ & _ & _ & _ & Hf).
    rewrite Forall_forall in Hf. apply Hf. by apply elem_of_map_to_list. }
  destruct Ep as [Ep|Ep], Eq as [Eq|Eq].
  - eapply owned_apart; [apply Hp|done..].
  - by eapply Hcross.
  - specialize (Hcross _ _ _ _ Eq Ep). unfold ranges_apart in *. lia.
  - eapply (huge_apart (ChunkLayerLaws0 := laws_at (chunks h))); [apply Hp|done|]. apply elem_of_app. left. apply elem_of_map_to_list. by rewrite lookup_delete_ne.
Qed.

(** ** Steps of one part *)

Lemma arena_of_with h a : arena_of (with_arena h a) = a.
Proof. by destruct a. Qed.

Lemma arena_step h Xa Xh B L a Xa' :
  parts h Xa Xh B L → owned (FR := mem h) (map_to_list Xh) (elements B) env a Xa' ∅ →
  (∃ L', parts (with_arena h a) Xa' Xh B L') ∧ keeps Xh (mem h) (a_mem a).
Proof.
  intros Hp Ho. destruct (owned_chunks _ _ _ _ _ _ Ho) as (L' & HL' & Hi & Hfr). split.
  - exists L'. split.
    + destruct (pa_huge _ _ _ _ _ Hp). split; try done. split; [by destruct a|].
      eapply cl_perm; [..|exact Hi]; [apply Permutation_app_comm|by rewrite app_nil_r].
    + done.
    + rewrite arena_of_with. replace a with (set_cactive (cactive a) (set_amem (a_mem a) (set_chunks (a_chunks a) a))) by by destruct a.
      eapply owned_move; [exact Ho|exact HL'|exact Hi|]. apply Forall_forall. done.
  - intros p n Ep y Hy. unfold framed in Hfr. rewrite Forall_forall in Hfr. by apply (Hfr (p, n)); [apply elem_of_map_to_list|].
Qed.

Lemma huge_step h Xa Xh B L h' Xh' :
  parts h Xa Xh B L → huge_inv (ChunkLayerLaws0 := laws_at (chunks h)) h' Xh' (chunk_list L) [] →
  ∃ B', parts h' Xa Xh' B' L.
Proof.
  intros Hp [B' Hr]. exists B'. destruct (hr_chunks _ _ _ _ _ Hr) as [Ec Hi]. pose proof (pa_chunks _ _ _ _ _ Hp) as HL.
  assert (HL' : has_chunks (chunks h') L) by (rewrite Ec; exact HL). split.
  - destruct Hr. split; try done. split; [by destruct (chunks h')|exact Hi].
  - exact HL'.
  - assert (Ea : arena_of h' = set_cactive (stats_cactive h') (set_amem (mem h') (set_chunks (a_chunks (chunks h')) (arena_of h)))).
    { unfold arena_of. rewrite Ec at 1. by destruct (chunks h). }
    rewrite Ea. eapply owned_move; [exact (pa_arena _ _ _ _ _ Hp)|exact HL| |].
    + eapply cl_perm; [..|exact Hi]; [apply Permutation_app_comm|by rewrite app_nil_r].
    + apply Forall_forall. done.
Qed.
End inv.
