(* ===== verification/MallocOps.v ===== *)
(** * Objects of any size

    [imalloc], [icalloc], [ipalloc], [isalloc] and [iqalloc]: what
    they do to the map of the program's objects and to the contents, whether an
    object is in the arena or is huge. *)

From S2P Require Import Prelude OrdTree SizeClass BinInfo ChunkIface ChunkSpec Arena ArenaMap ArenaTree ArenaInv ArenaRun ArenaTrim ArenaBin ArenaBinInv ArenaObj ArenaBinOps ArenaSmall ArenaLarge ArenaResize ArenaHeap ArenaThreads Huge Malloc MallocInv.

Section ops.
Context `{Config} `{Opts} {S : Type} `{CL : ChunkLayer S} {T : Type} `{OT : OrdTree T Z}.
Context `{!ChunkLayerLaws S} `{!OrdTreeLaws T Z} {HBI : BinInfos} {EN : Env}.
Context (old_word : Z → Z → Z) (os_purge : Z → Z → (Z → Z) → (Z → Z)).
Context (others : M (astate S T) unit).
#[local] Existing Instance arena_chunks.
Abbreviation hst := (hstate (astate S T) T).
Implicit Types (h : hst) (a : astate S T) (X Xa Xh : gmap Z Z) (B : gset Z) (L : list Z) (p q n m sz size extra al k : Z) (zero : bool).
Hypothesis os_purge_range : ∀ p n f, mem_but p n f (os_purge p n f).
Hypothesis others_ok : ∀ (F : Frame) C N a M D, owned (FR := F) C N env a M D →
  wp others a (λ _ a', owned (FR := F) C N env a' M D ∧ keeps M (a_mem a) (a_mem a')).

Lemma wp_on_arena {A} (m : M (astate S T) A) h (Q : A → hst → Prop) :
  wp m (arena_of h) (λ r a, Q r (with_arena h a)) → wp (on_arena m) h Q.
Proof. unfold wp, on_arena. by destruct (m (arena_of h)) as [[r a]|]. Qed.

(** Contents may be written at any time. *)
Lemma heap_write h X f : heap_ok h X → heap_ok (set_mem f h) X.
Proof.
  intros (Xa & Xh & B & L & -> & Hp). destruct (huge_step h Xa Xh B L (set_mem f h) Xh Hp) as [B' Hp'].
  { exists B. destruct (pa_huge _ _ _ _ _ Hp). by split. }
  by exists Xa, Xh, B', L.
Qed.

(** A new object. *)
Record made h X lo p sz h' : Prop := {
  mk_new : X !! p = None;
  mk_size : lo ≤ sz;
  mk_ok : heap_ok h' (<[p := sz]> X);
  mk_keeps : keeps X (mem h) (mem h')
}.

Lemma keeps_union Xa Xh f f' : keeps Xa f f' → keeps Xh f f' → keeps (Xa ∪ Xh) f f'.
Proof. intros Ha Hh p n [Ea|[_ Eh]]%lookup_union_Some_raw; [by apply Ha|by apply Hh]. Qed.

(** What a step of the arena does to the whole. *)
Lemma arena_made h Xa Xh B L a p sz lo :
  parts h Xa Xh B L → Xa !! p = None → lo ≤ sz →
  owned (FR := mem h) (map_to_list Xh) (elements B) env a (<[p := sz]> Xa) ∅ → keeps Xa (mem h) (a_mem a) →
  made h (Xa ∪ Xh) lo p sz (with_arena h a).
Proof.
  intros Hp Hn Hle Ho K. destruct (arena_step _ _ _ _ _ _ _ Hp Ho) as [[L' Hp'] Kh].
  pose proof (parts_disjoint _ _ _ _ _ Hp') as Hd. apply map_disjoint_insert_l in Hd as [Hph _]. split.
  - by apply lookup_union_None.
  - done.
  - rewrite insert_union_l. by exists (<[p := sz]> Xa), Xh, B, L'.
  - by apply keeps_union.
Qed.

Lemma arena_kept h Xa Xh B L a Xa' :
  parts h Xa Xh B L → owned (FR := mem h) (map_to_list Xh) (elements B) env a Xa' ∅ → keeps Xa' (mem h) (a_mem a) →
  heap_ok (with_arena h a) (Xa' ∪ Xh) ∧ keeps (Xa' ∪ Xh) (mem h) (mem (with_arena h a)).
Proof.
  intros Hp Ho K. destruct (arena_step _ _ _ _ _ _ _ Hp Ho) as [[L' Hp'] Kh]. split; [by exists Xa', Xh, B, L'|by apply keeps_union].
Qed.

(** ** Allocation *)

Lemma wp_arena_malloc_ h X size zero (Q : option Z → hst → Prop) :
  heap_ok h X → 0 < size ≤ arena_maxclass →
  (∀ h', heap_ok h' X → keeps X (mem h) (mem h') → Q None h') →
  (∀ h' p sz, s2u size = Some sz → made h X size p sz h' →
     (zero = true → size ≤ SMALL_MAXCLASS → ∀ y, p ≤ y < p + sz → mem h' y = 0) → Q (Some p) h') →
  wp (arena_malloc_ old_word os_purge others size zero) h Q.
Proof using All.
  intros (Xa & Xh & B & L & -> & Hp) Hs Hnone Hsome. apply wp_on_arena.
  eapply wp_malloc; [exact os_purge_range|apply others_ok|exact (pa_arena _ _ _ _ _ Hp)|exact Hs| |].
  - intros a Ho K. destruct (arena_kept _ _ _ _ _ _ _ Hp Ho K). by apply Hnone.
  - intros a p sz Es [Hn Hle Ho K Hz]. eapply Hsome; [exact Es|by eapply arena_made|]. intros -> Hsm. apply Hz. by apply Z.leb_le.
Qed.

Lemma wp_huge_palloc h X sz al zero (Q : option Z → hst → Prop) :
  heap_ok h X → is_u64 sz → chunk_alignment al →
  (∀ h', heap_ok h' X → keeps X (mem h) (mem h') → Q None h') →
  (∀ h' p, p mod al = 0 → made h X sz p (CHUNK_CEILING sz) h' → Q (Some p) h') →
  wp (huge_palloc opt_junk opt_zero sz al zero) h Q.
Proof.
  intros (Xa & Xh & B & L & -> & Hp) Hsz Hal Hnone Hsome.
  assert (Hi : huge_inv (ChunkLayerLaws0 := laws_at (chunks h)) h Xh (chunk_list L) []) by (exists B; apply Hp).
  destruct (huge_palloc_ok (ChunkLayerLaws0 := laws_at (chunks h)) opt_junk opt_zero h Xh (chunk_list L) [] sz al zero Hi Hsz Hal) as (r & h' & E & Hr).
  unfold wp. rewrite E. destruct r as [p|].
  - destruct Hr as (Hn & Hm & Hle & Hi' & Hb & _). destruct (huge_step _ _ _ _ _ _ _ Hp Hi') as [B' Hp'].
    pose proof (parts_disjoint _ _ _ _ _ Hp') as Hd. apply map_disjoint_insert_r in Hd as [Hpa _].
    assert (Hok : heap_ok h' (<[p := CHUNK_CEILING sz]> (Xa ∪ Xh))) by (exists Xa, (<[p := CHUNK_CEILING sz]> Xh), B', L; by rewrite insert_union_r).
    apply Hsome; [done|]. split; [by apply lookup_union_None|done|done|].
    apply (keeps_but _ p (CHUNK_CEILING sz)); [exact Hb|]. intros q m Eq.
    eapply heap_objs_apart; [exact Hok|apply lookup_insert_eq| |].
    + rewrite lookup_insert_ne; [done|]. intros ->. apply lookup_union_Some_raw in Eq as [?|[_ ?]]; congruence.
    + intros ->. apply lookup_union_Some_raw in Eq as [?|[_ ?]]; congruence.
  - destruct Hr as [Hi' Hm]. destruct (huge_step _ _ _ _ _ _ _ Hp Hi') as [B' Hp']. apply Hnone; [by exists Xa, Xh, B', L|]. rewrite Hm. apply keeps_refl.
Qed.

Lemma wp_huge_malloc_ h X sz zero (Q : option Z → hst → Prop) :
  heap_ok h X → is_u64 sz →
  (∀ h', heap_ok h' X → keeps X (mem h) (mem h') → Q None h') →
  (∀ h' p, made h X sz p (CHUNK_CEILING sz) h' → Q (Some p) h') →
  wp (huge_malloc_ sz zero) h Q.
Proof. intros Hh Hsz Hn Hs. eapply wp_huge_palloc; [exact Hh|exact Hsz|apply chunksize_alignment|exact Hn|]. intros h' p _. apply Hs. Qed.

(** An object for a plain request, from the arena or huge. *)
Lemma wp_plain h X size zero (Q : option Z → hst → Prop) :
  heap_ok h X → 0 < size < 2 ^ 64 →
  (∀ h', heap_ok h' X → keeps X (mem h) (mem h') → Q None h') →
  (∀ h' p sz, s2u size = Some sz → made h X size p sz h' →
     (zero = true → size ≤ SMALL_MAXCLASS → ∀ y, p ≤ y < p + sz → mem h' y = 0) → Q (Some p) h') →
  wp (if size <=? arena_maxclass then arena_malloc_ old_word os_purge others size zero else huge_malloc_ size zero) h Q.
Proof using All.
  intros Hh Hs Hn Hsome. destruct maxclass_facts as (Hsm & _). destruct (Z.leb_spec size arena_maxclass).
  - eapply wp_arena_malloc_; [exact Hh|lia|exact Hn|exact Hsome].
  - eapply wp_huge_malloc_; [exact Hh|split; lia|exact Hn|]. intros h' p Hm. eapply Hsome; [|exact Hm|intros _ ?; exfalso; lia].
    unfold s2u. by rewrite (proj2 (Z.leb_gt size SMALL_MAXCLASS)), (proj2 (Z.leb_gt size arena_maxclass)) by lia.
Qed.

Lemma wp_imalloc h X size (Q : option Z → hst → Prop) :
  heap_ok h X → 0 < size < 2 ^ 64 →
  (∀ h', heap_ok h' X → keeps X (mem h) (mem h') → Q None h') →
  (∀ h' p sz, s2u size = Some sz → made h X size p sz h' → Q (Some p) h') → wp (imalloc old_word os_purge others size) h Q.
Proof using All.
  intros Hh Hs Hn Hsome. unfold imalloc. apply wp_bind. apply wp_check; [apply negb_true_iff, Z.eqb_neq; lia|].
  eapply wp_plain; [exact Hh|exact Hs|exact Hn|]. intros h' p sz Es Hm _. by eapply Hsome.
Qed.

(** ** Alignment *)

Lemma object_aligned h X p n k : heap_ok h X → X !! p = Some n → 0 ≤ k ≤ 13 → n mod 2 ^ k = 0 → p mod 2 ^ k = 0.
Proof.
  intros (Xa & Xh & B & L & -> & Hp) Ep Hk Hn. pose proof (pow2_pos k ltac:(lia)) as Hpk. apply lookup_union_Some_raw in Ep as [Ea|[_ Eh]].
  - destruct (pa_arena _ _ _ _ _ Hp) as (R & G & E & F & (_ & HM & _ & Hh) & _).
    pose proof (lookup_union_Some_l _ E _ _ Ea) as Eo. apply (ha_objs _ _ _ _ _ _ _ Hh) in Eo.
    assert (Hkey : ∀ key v, allocated R !! key = Some v → kaddr key mod 2 ^ k = 0).
    { intros [c s] v Ek. destruct (heap_key _ _ _ _ _ _ _ _ _ Hh Ek) as (Hc & _). apply (mod_pow2_le _ _ 13); [lia|]. unfold kaddr, raddr. simpl in *.
      apply mod_add_0; [done| |change PAGE with (2 ^ 13); by apply Z.mod_mul]. pose proof lg_chunk_range. rewrite chunksize_pow2 in Hc. by apply (mod_pow2_le _ 13 opt_lg_chunk); [lia|]. }
    destruct Eo as [(key & m & d & Ek & -> & _)|(key & bi & A & info & i & Hr & Hi & -> & ->)]; [by eapply Hkey|].
    pose proof Hr as ((m & d & Ek) & _ & Ei). pose proof (bi_ok _ _ Ei) as Hok. destruct (bo_aligned _ Hok k Hk Hn) as [H0' Hint]. unfold reg_addr.
    pose proof (Hkey _ _ Ek). apply Z.mod_divide in Hint as [z Hz]; [|lia]. rewrite Hz.
    apply mod_add_0; [exact Hpk|by apply mod_add_0|].
    replace (z * 2 ^ k * i) with (z * i * 2 ^ k) by lia. apply Z.mod_mul. lia.
  - pose proof (obj_range _ _ _ _ _ _ _ (pa_huge _ _ _ _ _ Hp) Eh) as (_ & Hm & _). pose proof lg_chunk_range. rewrite chunksize_pow2 in Hm.
    by apply (mod_pow2_le _ _ opt_lg_chunk); [lia|].
Qed.
Lemma addr2base_pow2 p k : 0 ≤ k → p mod 2 ^ k = 0 → ALIGNMENT_ADDR2BASE p (2 ^ k) = p.
Proof.
  intros Hk Hp. unfold ALIGNMENT_ADDR2BASE. replace (- 2 ^ k) with (Z.lnot (2 ^ k - 1)) by (unfold Z.lnot; lia).
  rewrite land_lnot_mask by done. lia.
Qed.

Lemma pow2_leb k m : 0 ≤ k → 0 ≤ m → (2 ^ k <=? 2 ^ m) = (k <=? m).
Proof.
  intros Hk Hm. destruct (Z.leb_spec k m).
  - apply Z.leb_le, Z.pow_le_mono_r; lia.
  - apply Z.leb_gt, Z.pow_lt_mono_r; lia.
Qed.

Lemma wp_ipalloc h X usize k zero (Q : option Z → hst → Prop) :
  heap_ok h X → 0 ≤ k ≤ 63 → 1 ≤ usize < 2 ^ 64 → sa2u usize (2 ^ k) = Some usize →
  (∀ h', heap_ok h' X → keeps X (mem h) (mem h') → Q None h') →
  (∀ h' p, p mod 2 ^ k = 0 → made h X usize p usize h' → Q (Some p) h') →
  wp (ipalloc old_word os_purge others usize (2 ^ k) zero) h Q.
Proof using All.
  intros Hh Hk Hu Hfix Hnone Hsome. pose proof lg_chunk_range as Hlg. unfold ipalloc. apply wp_bind. apply wp_check; [apply negb_true_iff, Z.eqb_neq; lia|].
  apply wp_bind. eapply wp_lift; [exact Hfix|]. apply wp_bind. apply wp_check; [apply Z.eqb_refl|].
  set (Q' := λ (ret : option Z) h', wp (check (ALIGNMENT_ADDR2BASE (default 0 ret) (2 ^ k) =? default 0 ret);; mret ret) h' Q).
  assert (Hn' : ∀ h', heap_ok h' X → keeps X (mem h) (mem h') → Q' None h').
  { intros h' Hh' K. apply wp_bind. apply wp_check; [apply Z.eqb_eq, addr2base_pow2; [lia|]; apply Z.mod_0_l; pose proof (pow2_pos k); lia|]. by apply wp_ret, Hnone. }
  assert (Hs' : ∀ h' p, p mod 2 ^ k = 0 → made h X usize p usize h' → Q' (Some p) h').
  { intros h' p Hp Hm. apply wp_bind. apply wp_check; [by apply Z.eqb_eq, addr2base_pow2; [lia|]|]. by apply wp_ret, Hsome. }
  apply wp_bind. change (wp (if (usize <=? arena_maxclass) && (2 ^ k <=? 2 ^ 13) then arena_malloc_ old_word os_purge others usize zero
    else if usize <=? arena_maxclass then on_arena (arena_palloc old_word os_purge usize (2 ^ k) zero)
    else if 2 ^ k <=? chunksize then huge_malloc_ usize zero else huge_palloc opt_junk opt_zero usize (2 ^ k) zero) h Q').
  rewrite pow2_leb, chunksize_pow2, pow2_leb by lia. clearbody Q'.
  destruct (sa2u_fixed usize k Hk Hu Hfix) as [(Hle & Hk13 & Es & Hmod)|[(Hle & Hk13 & Hmod & Hrun)|(Hgt & Hc)]].
  - rewrite (proj2 (Z.leb_le usize _)), (proj2 (Z.leb_le k 13)) by lia. cbn [andb]. eapply wp_arena_malloc_; [exact Hh|lia|exact Hn'|].
    intros h' p sz Esz Hm _. rewrite Es in Esz. injection Esz as <-. apply Hs'; [|exact Hm].
    eapply object_aligned; [exact (mk_ok _ _ _ _ _ _ Hm)|apply lookup_insert_eq|lia|done].
  - rewrite (proj2 (Z.leb_le usize _)), (proj2 (Z.leb_gt k 13)) by lia. cbn [andb]. apply Z.mod_divide in Hmod as [m Em]; [|done].
    destruct Hh as (Xa & Xh & B & L & -> & Hp). apply wp_on_arena. rewrite Em. pose proof (maxclass_31 bi_lg) as H31.
    assert (Hk46 : k ≤ 46). { apply Z.nlt_ge. intros Hgt. pose proof (Z.pow_le_mono_r 2 46 k ltac:(lia) ltac:(lia)). change PAGE with 8192 in *. lia. }
    eapply wp_palloc; [exact os_purge_range|exact (pa_arena _ _ _ _ _ Hp)|lia|change PAGE with 8192 in *; lia| | |].
    + rewrite page_ceiling_pow2, Z.max_l by lia. lia.
    + intros a Ho Hm. destruct (arena_kept _ _ _ _ _ _ _ Hp Ho) as [? ?]; [rewrite Hm; apply keeps_refl|]. by apply Hn'.
    + intros a p [Hnew _ Ho K _] Hal. rewrite page_ceiling_pow2, Z.max_l in Hal by lia. apply Hs'; [exact Hal|]. rewrite <- Em in *.
      by eapply arena_made.
  - rewrite (proj2 (Z.leb_gt usize arena_maxclass)) by lia. cbn [andb]. destruct (Z.leb_spec k opt_lg_chunk).
    + unfold huge_malloc_, huge_malloc. eapply wp_huge_palloc; [exact Hh|split; lia|apply chunksize_alignment|exact Hn'|].
      intros h' p Hal Hm. rewrite Hc in Hm. apply Hs'; [|exact Hm]. rewrite chunksize_pow2 in Hal. by apply (mod_pow2_le _ _ opt_lg_chunk); [lia|].
    + eapply wp_huge_palloc; [exact Hh|split; lia|exists k; split; [lia|done]|exact Hn'|]. intros h' p Hal Hm. rewrite Hc in Hm. by apply Hs'.
Qed.

(** ** Sizes, deallocation and moving *)

Lemma wp_isalloc h X p n (Q : Z → hst → Prop) :
  heap_ok h X → X !! p = Some n → (∀ h', heap_ok h' X → mem h' = mem h → Q n h') → wp (isalloc p) h Q.
Proof using OrdTreeLaws0 HBI.
  intros Hok Ep HQ. destruct (heap_object _ _ _ _ Hok Ep) as (_ & Hp0 & _). unfold isalloc. apply wp_bind.
  apply wp_check; [apply negb_true_iff, Z.eqb_neq; lia|]. pose proof Hok as (Xa & Xh & B & L & -> & Hp). apply lookup_union_Some_raw in Ep as [Ea|[_ Eh]].
  - destruct (arena_object _ _ _ _ _ _ _ Hp Ea) as (_ & Hc & _). rewrite (proj2 (Z.eqb_neq _ p)) by lia. cbn [negb]. apply wp_on_arena.
    eapply wp_salloc; [exact (pa_arena _ _ _ _ _ Hp)|exact Ea|]. apply HQ; [|done].
    destruct (arena_step _ _ _ _ _ _ _ Hp (pa_arena _ _ _ _ _ Hp)) as [[L' Hp'] _]. by exists Xa, Xh, B, L'.
  - destruct (huge_object _ _ _ _ _ _ _ Hp Eh) as (Hc & _). rewrite Hc, Z.eqb_refl. cbn [negb].
    assert (Hi : huge_inv (ChunkLayerLaws0 := laws_at (chunks h)) h Xh (chunk_list L) []) by (exists B; apply Hp).
    unfold wp. rewrite (huge_salloc_ok (ChunkLayerLaws0 := laws_at (chunks h)) h Xh (chunk_list L) [] p n Hi Eh). by apply HQ.
Qed.

Lemma wp_iqalloc h X p n (Q : unit → hst → Prop) :
  heap_ok h X → X !! p = Some n →
  (∀ h', heap_ok h' (delete p X) → keeps (delete p X) (mem h) (mem h') → Q tt h') → wp (iqalloc old_word os_purge others p) h Q.
Proof using All.
  intros Hok Ep HQ. destruct (heap_object _ _ _ _ Hok Ep) as (_ & Hp0 & _). unfold iqalloc, Huge.idalloc. apply wp_bind.
  apply wp_check; [apply negb_true_iff, Z.eqb_neq; lia|]. pose proof Hok as (Xa & Xh & B & L & -> & Hp). pose proof (parts_disjoint _ _ _ _ _ Hp) as Hd.
  apply lookup_union_Some in Ep as [Ea|Eh]; [..|done].
  - destruct (arena_object _ _ _ _ _ _ _ Hp Ea) as (_ & Hc & _). rewrite (proj2 (Z.eqb_neq _ p)) by lia. cbn [negb]. apply wp_on_arena.
    rewrite delete_union, (delete_id Xh) in HQ by by eapply map_disjoint_Some_l.
    eapply wp_dalloc; [exact os_purge_range|apply others_ok|exact (pa_arena _ _ _ _ _ Hp)|exact Ea|].
    intros a Ho K. destruct (arena_kept _ _ _ _ _ _ _ Hp Ho K). by apply HQ.
  - destruct (huge_object _ _ _ _ _ _ _ Hp Eh) as (Hc & _). rewrite Hc, Z.eqb_refl. cbn [negb].
    rewrite delete_union, (delete_id Xa) in HQ by by eapply map_disjoint_Some_r.
    assert (Hi : huge_inv (ChunkLayerLaws0 := laws_at (chunks h)) h Xh (chunk_list L) []) by (exists B; apply Hp).
    destruct (huge_dalloc_ok (ChunkLayerLaws0 := laws_at (chunks h)) h Xh (chunk_list L) [] p n true Hi Eh) as (h' & E & Hi' & Hm).
    unfold wp. rewrite E. destruct (huge_step _ _ _ _ _ _ _ Hp Hi') as [B' Hp']. apply HQ; [by exists Xa, (delete p Xh), B', L|]. rewrite Hm. apply keeps_refl.
Qed.
End ops.
