(* ===== verification/MallocRalloc.v ===== *)
(** * Resizing objects

    [arena_ralloc], [huge_ralloc] and [iralloc]: an object is resized where it
    is or moves, within the arena, within the huge objects or between them. *)

From S2P Require Import Prelude OrdTree SizeClass BinInfo ChunkIface ChunkSpec Arena ArenaMap ArenaTree ArenaInv ArenaRun ArenaTrim ArenaBin ArenaBinInv ArenaObj ArenaBinOps ArenaSmall ArenaLarge ArenaResize ArenaHeap ArenaThreads Huge Malloc MallocInv MallocOps.

Section resize.
Context `{Config} `{Opts} {S : Type} `{CL : ChunkLayer S} {T : Type} `{OT : OrdTree T Z}.
Context `{!ChunkLayerLaws S} `{!OrdTreeLaws T Z} {HBI : BinInfos} {EN : Env}.
Context (old_word : Z → Z → Z) (os_purge : Z → Z → (Z → Z) → (Z → Z)).
Context (others : M (astate S T) unit).
#[local] Existing Instance arena_chunks.
Abbreviation hst := (hstate (astate S T) T).
Implicit Types (h : hst) (a : astate S T) (X Xa Xh : gmap Z Z) (B : gset Z) (L : list Z) (p q n m sz size extra old al k s : Z) (zero : bool).
Hypothesis os_purge_range : ∀ p n f, mem_but p n f (os_purge p n f).
Hypothesis others_ok : ∀ (F : Frame) C N a M D, owned (FR := F) C N env a M D →
  wp others a (λ _ a', owned (FR := F) C N env a' M D ∧ keeps M (a_mem a) (a_mem a')).

(** The object [p] of [old] bytes is now [q] with [sz] bytes. *)
Record moved h X p old size q sz h' : Prop := {
  mv_size : size ≤ sz;
  mv_new : q = p ∨ X !! q = None;
  mv_ok : heap_ok h' (<[q := sz]> (delete p X));
  mv_keeps : keeps (delete p X) (mem h) (mem h');
  mv_data i : 0 ≤ i < Z.min size old → mem h' (q + i) = mem h (p + i)
}.

Lemma made_after h h1 X lo s p sz h' : keeps X (mem h) (mem h1) → lo ≤ s → made h1 X s p sz h' → made h X lo p sz h'.
Proof. intros K Hle [? ? ? ?]. split; [done|lia|done|]. by eapply keeps_trans. Qed.

(** ** Moving *)

Lemma wp_move h0 h X p old q sz size (Q : option Z → hst → Prop) :
  heap_ok h0 X → X !! p = Some old → made h0 X size q sz h → 0 ≤ size →
  (∀ h', moved h0 X p old size q sz h' → Q (Some q) h') → wp (move_object old_word os_purge others p q old size) h Q.
Proof using All.
  intros Hh0 Ep [Hq Hsz Hok K] Hs0 HQ. assert (Hne : q ≠ p) by congruence. destruct (heap_object _ _ _ _ Hh0 Ep) as (Hold & _).
  set (c := if size <? old then size else old). assert (Hc : c = Z.min size old) by (unfold c; destruct (Z.ltb_spec size old); lia).
  unfold move_object. fold c. unfold memcpy. wsteps. set (h1 := set_mem _ h).
  assert (Hm1 : mem_but q c (mem h) (mem h1)).
  { intros y Hy. cbn. unfold memcpy_bytes. destruct (Z.leb_spec q y), (Z.ltb_spec y (q + c)); try done; lia. }
  assert (K1 : keeps X (mem h) (mem h1)).
  { eapply keeps_but; [exact Hm1|]. intros r m Er. assert (r ≠ q) by congruence.
    assert (Ha : ranges_apart (q, sz) (r, m)) by (eapply heap_objs_apart; [exact Hok|apply lookup_insert_eq|by rewrite lookup_insert_ne|done]).
    unfold ranges_apart in *. simpl in *. lia. }
  assert (Hdel : delete p (<[q := sz]> X) = <[q := sz]> (delete p X)) by by rewrite delete_insert_ne.
  eapply wp_iqalloc; [exact os_purge_range|exact others_ok|by apply heap_write|by rewrite lookup_insert_ne|]. rewrite Hdel. intros h' Hok' K'.
  assert (Hdq : delete p X !! q = None) by (by rewrite lookup_delete_ne). wsteps. apply HQ. split; [done|by right|done| |].
  - eapply keeps_trans; [eapply keeps_mono; [apply delete_subseteq|]; eapply keeps_trans; [exact K|exact K1]|].
    eapply keeps_mono; [|exact K']. by apply insert_subseteq.
  - intros i Hi. rewrite (K' q sz) by (apply lookup_insert_eq || lia). cbn. unfold memcpy_bytes.
    rewrite (proj2 (Z.leb_le q _)), (proj2 (Z.ltb_lt _ (q + c))) by lia. cbn [andb]. replace (q + i - q + p) with (p + i) by lia.
    apply (K p old); [done|lia].
Qed.

(** Space for the object, tried twice. *)
Lemma wp_alloc_twice (try : Z → M hst (option Z)) (P : Z → Z → Z → Prop) h X size extra (Q : option Z → hst → Prop) :
  heap_ok h X → 0 ≤ extra → size + extra < 2 ^ 64 → 0 < size →
  (∀ s h1 (Q1 : option Z → hst → Prop), heap_ok h1 X → size ≤ s ≤ size + extra → s = size ∨ s = size + extra →
     (∀ h', heap_ok h' X → keeps X (mem h1) (mem h') → Q1 None h') →
     (∀ h' p sz, P s p sz → made h1 X s p sz h' → Q1 (Some p) h') → wp (try s) h1 Q1) →
  (∀ h', heap_ok h' X → keeps X (mem h) (mem h') → Q None h') →
  (∀ h' s p sz, (extra = 0 → s = size) → P s p sz → made h X size p sz h' → Q (Some p) h') → wp (alloc_twice try size extra) h Q.
Proof.
  intros Hh Hex H64 Hs Htry Hn Hsome. unfold alloc_twice. rewrite u64_small by (split; lia). apply wp_bind. apply Htry; [done|lia|by right| |].
  - intros h1 Hh1 K1. destruct (Z.eqb_spec extra 0) as [|Hne]; [by apply wp_ret, Hn|]. apply Htry; [done|lia|by left| |].
    + intros h2 Hh2 K2. apply Hn; [done|]. by eapply keeps_trans.
    + intros h2 p sz HP Hm. eapply Hsome; [done|exact HP|]. by eapply made_after.
  - intros h1 p sz HP Hm. apply wp_ret. eapply Hsome; [|exact HP|eapply (made_after h h); [apply keeps_refl| |exact Hm]; lia]. intros ->. lia.
Qed.

(** Alignments that may be asked for with [n] bytes; 0 is none. *)
Definition align_ok al n : Prop := al = 0 ∨ ∃ k, 0 ≤ k ≤ 63 ∧ al = 2 ^ k ∧ n + chunksize + PAGE + 2 ^ Z.max k 13 ≤ 2 ^ 64.
Definition is_aligned al p : Prop := al ≠ 0 → p mod al = 0.

Lemma wp_try_aligned h X k zero s (Q : option Z → hst → Prop) :
  heap_ok h X → 0 ≤ k ≤ 63 → 0 < s → s + chunksize + PAGE + 2 ^ Z.max k 13 ≤ 2 ^ 64 →
  (∀ h', heap_ok h' X → keeps X (mem h) (mem h') → Q None h') →
  (∀ h' p sz, sa2u s (2 ^ k) = Some sz → p mod 2 ^ k = 0 → made h X s p sz h' → Q (Some p) h') →
  wp (try_aligned old_word os_purge others (2 ^ k) zero s) h Q.
Proof using All.
  intros Hh Hk Hs H64 Hn Hsome. pose proof chunksize_pos. pose proof (pow2_pos (Z.max k 13) ltac:(lia)). change PAGE with 8192 in *.
  destruct (sa2u_ok s k Hk) as (r & Er & Hr); [lia|]. unfold try_aligned. apply wp_bind. eapply wp_lift; [exact Er|].
  destruct Hr as [[-> ?]|(Hr1 & Hr2 & _ & Hfix)]; [by apply wp_ret, Hn; [|apply keeps_refl]|]. rewrite (proj2 (Z.eqb_neq r 0)) by lia. change PAGE with 8192 in *.
  eapply wp_ipalloc; [exact os_purge_range|exact others_ok|exact Hh|exact Hk|lia|apply Hfix; lia|exact Hn|].
  intros h' p Hal Hm. eapply Hsome; [exact Er|exact Hal|]. eapply (made_after h h); [apply keeps_refl| |exact Hm]; lia.
Qed.

Lemma wp_alloc_aligned h X k zero size extra (Q : option Z → hst → Prop) :
  heap_ok h X → 0 ≤ k ≤ 63 → 0 < size → 0 ≤ extra → size + extra + chunksize + PAGE + 2 ^ Z.max k 13 ≤ 2 ^ 64 →
  (∀ h', heap_ok h' X → keeps X (mem h) (mem h') → Q None h') →
  (∀ h' p sz, p mod 2 ^ k = 0 → made h X size p sz h' → Q (Some p) h') →
  wp (alloc_aligned old_word os_purge others size extra (2 ^ k) zero) h Q.
Proof using All.
  intros Hh Hk Hs Hex H64 Hn Hsome. pose proof chunksize_pos. pose proof (pow2_pos (Z.max k 13) ltac:(lia)). assert (HP : PAGE = 8192) by done.
  destruct (sa2u_ok (size + extra) k Hk) as (r & Er & _); [lia|]. unfold alloc_aligned. rewrite u64_small by (split; lia). apply wp_bind.
  eapply wp_lift; [exact Er|]. destruct (r =? 0); [by apply wp_ret, Hn; [|apply keeps_refl]|].
  eapply (wp_alloc_twice _ (λ _ p _, p mod 2 ^ k = 0)); [exact Hh|lia|lia|lia| |exact Hn|].
  - intros s h1 Q1 Hh1 Hs1 _ Hn1 Hs2. eapply wp_try_aligned; [exact Hh1|lia|lia|lia|exact Hn1|]. intros h' p sz _ Hal Hm. by eapply Hs2.
  - intros h' s p sz _ Hal Hm. by eapply Hsome.
Qed.
(** ** In place *)

Lemma moved_same h X p old size h' :
  heap_ok h' X → X !! p = Some old → size ≤ old → keeps (delete p X) (mem h) (mem h') →
  (∀ i, 0 ≤ i < Z.min size old → mem h' (p + i) = mem h (p + i)) → moved h X p old size p old h'.
Proof. intros Hok Ep Hle K Hd. split; [done|by left|by rewrite insert_delete_id|done|done]. Qed.

Lemma wp_arena_resize h X p old size extra zero (Q : option Z → hst → Prop) :
  heap_ok h X → X !! p = Some old → 0 < size ≤ arena_maxclass → 0 ≤ extra → size + extra + PAGE ≤ 2 ^ 64 →
  (opt_zero = false ∨ zero = true ∨ extra = 0) →
  (∀ h', heap_ok h' X → mem h' = mem h → Q None h') →
  (∀ h' sz, (extra = 0 → s2u size = Some sz) → moved h X p old size p sz h' → Q (Some p) h') →
  wp (on_arena (arena_ralloc_no_move old_word os_purge p old size extra zero)) h Q.
Proof using os_purge_range OrdTreeLaws0 HBI.
  intros (Xa & Xh & B & L & -> & Hp) Ep Hs Hex H64 Hz Hn Hsome. pose proof (parts_disjoint _ _ _ _ _ Hp) as Hd. apply wp_on_arena.
  assert (Hstay : heap_ok (with_arena h (arena_of h)) (Xa ∪ Xh)).
  { destruct (arena_step _ _ _ _ _ _ _ Hp (pa_arena _ _ _ _ _ Hp)) as [[L' Hp'] _]. by exists Xa, Xh, B, L'. }
  apply lookup_union_Some in Ep as [Ea|Eh]; [| |done].
  - eapply wp_ralloc_no_move; [exact os_purge_range|exact (pa_arena _ _ _ _ _ Hp)|exact Ea|exact Hs|exact Hex|exact H64|exact Hz|by apply Hn|].
    intros a sz [Hle Hx Ho K Hdat]. apply (Hsome _ sz); [exact Hx|]. destruct (arena_step _ _ _ _ _ _ _ Hp Ho) as [[L' Hp'] Kh].
    pose proof (map_disjoint_Some_l _ _ _ _ Hd Ea) as Hph. split; [done|by left| | |].
    + rewrite insert_delete_eq, insert_union_l. by exists (<[p := sz]> Xa), Xh, B, L'.
    + rewrite delete_union. apply keeps_union; [exact K|]. by rewrite delete_id.
    + intros i Hi. apply Hdat. lia.
  - destruct (huge_object _ _ _ _ _ _ _ Hp Eh) as (_ & _ & Hbig & _). destruct maxclass_facts as (_ & _ & Hmc & _).
    unfold arena_ralloc_no_move. rewrite (proj2 (Z.leb_gt old arena_maxclass)) by lia. apply wp_ret. by apply Hn.
Qed.

Lemma wp_huge_resize h X p old size extra (Q : option Z → hst → Prop) :
  heap_ok h X → X !! p = Some old → 0 < size → 0 ≤ extra → size + extra < 2 ^ 64 →
  (∀ h', heap_ok h' X → mem h' = mem h → Q None h') →
  (∀ h', (extra = 0 → CHUNK_CEILING size = old) → moved h X p old size p old h' → Q (Some p) h') →
  wp (huge_ralloc_no_move opt_junk p old size extra) h Q.
Proof using OrdTreeLaws0 HBI.
  intros Hok Ep Hs Hex H64 Hn Hsome. pose proof Hok as (Xa & Xh & B & L & HX & Hp). pose proof (parts_disjoint _ _ _ _ _ Hp) as Hd.
  pose proof Ep as Ep'. rewrite HX in Ep'. apply lookup_union_Some in Ep' as [Ea|Eh]; [| |done].
  - destruct (arena_object _ _ _ _ _ _ _ Hp Ea) as (Hmax & _). unfold huge_ralloc_no_move. rewrite (proj2 (Z.ltb_ge arena_maxclass old)) by lia.
    apply wp_ret. by apply Hn.
  - assert (Hi : huge_inv (ChunkLayerLaws0 := laws_at (chunks h)) h Xh (chunk_list L) []) by (exists B; apply Hp).
    destruct (huge_ralloc_no_move_ok (ChunkLayerLaws0 := laws_at (chunks h)) opt_junk h Xh (chunk_list L) [] p old size extra Hi Eh) as (r & h' & E & Hi' & Hr & _ & Hout & Hdat); [split; lia|].
    unfold wp. rewrite E. destruct (huge_step _ _ _ _ _ _ _ Hp Hi') as [B' Hp']. assert (Hok' : heap_ok h' X) by (exists Xa, Xh, B', L; done).
    destruct Hr as [[-> ->]|[-> [Hc1 Hc2]]]; [by apply Hn|]. rewrite u64_small in Hc2 by (split; lia). pose proof chunksize_pos as Hcp.
    destruct (huge_object _ _ _ _ _ _ _ Hp Eh) as (_ & _ & Hbig & _).
    assert (Hle : size ≤ old).
    { destruct (chunk_ceiling_cases (size + extra)) as [[Hfit Hc]|[_ Hc]]; [lia| |lia].
      destruct (chunk_ceiling_cases size) as [[_ Hc']|[? _]]; [lia| |lia]. pose proof (round_up_spec size chunksize Hcp). lia. }
    apply Hsome; [intros ->; rewrite Z.add_0_r in Hc2; lia|]. apply moved_same; [done|done|done| |done].
    apply (keeps_but _ p old); [exact Hout|]. intros q m [Hne Eq]%lookup_delete_Some.
    eapply heap_objs_apart; [exact Hok|exact Ep|exact Eq|by apply not_eq_sym].
Qed.

(** ** Anywhere *)

(** What a resized object is to its owner. *)
Record realloced h X p old size extra al q sz h' : Prop := {
  rl_moved : moved h X p old size q sz h';
  rl_exact : extra = 0 → al = 0 → s2u size = Some sz;
  rl_aligned : is_aligned al q
}.

Lemma wp_arena_ralloc h X p old size extra al zero (Q : option Z → hst → Prop) :
  heap_ok h X → X !! p = Some old → 0 < size → 0 ≤ extra → size + extra ≤ arena_maxclass → align_ok al (size + extra) → is_aligned al p →
  (opt_zero = false ∨ zero = true ∨ extra = 0) →
  (∀ h', heap_ok h' X → keeps X (mem h) (mem h') → Q None h') →
  (∀ h' q sz, realloced h X p old size extra al q sz h' → Q (Some q) h') →
  wp (arena_ralloc old_word os_purge others p old size extra al zero) h Q.
Proof using All.
  intros Hh Ep Hs Hex Hmax Hal Hpal Hz Hn Hsome. pose proof (maxclass_31 bi_lg). assert (HP : PAGE = 8192) by done. unfold arena_ralloc. apply wp_bind.
  eapply wp_arena_resize; [exact Hh|exact Ep|lia|exact Hex|lia|exact Hz| |].
  - intros h1 Hh1 Hm1. apply wp_bind.
    assert (Hmv : ∀ h2 q sz, (extra = 0 → al = 0 → s2u size = Some sz) → is_aligned al q → made h1 X size q sz h2 →
      wp (move_object old_word os_purge others p q old size) h2 Q).
    { intros h2 q sz Hx Hq Hm. eapply (wp_move h1); [exact Hh1|exact Ep|exact Hm|lia|].
      intros h3 Hmv. apply (Hsome _ _ sz). split; [|done|done]. destruct Hmv as [? ? ? K Hd]. rewrite Hm1 in K, Hd. by split. }
    assert (Hno : ∀ h', heap_ok h' X → keeps X (mem h1) (mem h') → wp (mret None) h' Q).
    { intros h' Hh' K. apply wp_ret, Hn; [done|]. by rewrite <- Hm1. }
    destruct Hal as [->|(k & Hk & -> & Hk64)].
    + cbn [Z.eqb negb]. eapply (wp_alloc_twice _ (λ s _ sz, s2u s = Some sz)); [exact Hh1|lia|lia|lia| |exact Hno|].
      * intros s h2 Q2 Hh2 Hs2 _ Hn2 Hsome2. eapply wp_arena_malloc_; [exact os_purge_range|exact others_ok|exact Hh2|lia|exact Hn2|]. intros; by eapply Hsome2.
      * intros h2 s q sz Hx Es Hm. eapply Hmv; [|by intros []|exact Hm]. intros Hx0 _. by rewrite <- Hx.
    + pose proof (pow2_pos k ltac:(lia)). rewrite (proj2 (Z.eqb_neq (2 ^ k) 0)) by lia. cbn [negb].
      eapply wp_alloc_aligned; [exact Hh1|exact Hk|lia|lia|lia|exact Hno|]. intros h2 q sz Hq Hm. eapply Hmv; [intros _ ?; exfalso; lia|by intros _|exact Hm].
  - intros h' sz Hx Hm. apply wp_ret, (Hsome _ _ sz). split; [done|auto|done].
Qed.

Lemma wp_assoc {A C D} (m : M hst A) (f : A → M hst C) (g : C → M hst D) h (Q : D → hst → Prop) :
  wp (x ← (y ← m; f y); g x) h Q → wp (y ← m; x ← f y; g x) h Q.
Proof. unfold wp, mbind, M_bind. by destruct (m h) as [[y h1]|]. Qed.

Lemma wp_huge_ralloc h X p old size extra al zero (Q : option Z → hst → Prop) :
  heap_ok h X → X !! p = Some old → 0 < size → 0 ≤ extra → arena_maxclass < size + extra < 2 ^ 64 → align_ok al (size + extra) → is_aligned al p →
  (∀ h', heap_ok h' X → keeps X (mem h) (mem h') → Q None h') →
  (∀ h' q sz, realloced h X p old size extra al q sz h' → Q (Some q) h') →
  wp (huge_ralloc opt_junk opt_zero (arena_free old_word os_purge others) p old size extra al zero) h Q.
Proof using All.
  intros Hh Ep Hs Hex Hsz Hal Hpal Hn Hsome. destruct maxclass_facts as (Hsm & _ & Hmc & _).
  assert (Hs2u : extra = 0 → s2u size = Some (CHUNK_CEILING size)).
  { intros ->. unfold s2u. by rewrite (proj2 (Z.leb_gt size SMALL_MAXCLASS)), (proj2 (Z.leb_gt size arena_maxclass)) by lia. }
  unfold huge_ralloc. apply wp_bind. eapply wp_huge_resize; [exact Hh|exact Ep|lia|lia|lia| |].
  - intros h1 Hh1 Hm1. apply wp_assoc, wp_bind.
    apply (wp_alloc_twice (λ s, if chunksize <? al then huge_palloc opt_junk opt_zero s al zero else huge_malloc opt_junk opt_zero s zero)
      (λ s q sz, sz = CHUNK_CEILING s ∧ is_aligned al q) h1 X size extra); [exact Hh1|lia|lia|lia| | |].
    + intros s h2 Q2 Hh2 Hs2 _ Hn2 Hsome2. pose proof lg_chunk_range as Hlg. destruct (Z.ltb_spec chunksize al) as [Hbig|Hsmall].
      * destruct Hal as [->|(k & Hk & -> & _)]; [pose proof chunksize_pos; lia|]. rewrite chunksize_pow2 in Hbig. apply Z.pow_lt_mono_r_iff in Hbig; [|lia|lia].
        eapply wp_huge_palloc; [exact Hh2|split; lia|exists k; split; [lia|done]|exact Hn2|]. intros h' q Hq Hm. eapply Hsome2; [|exact Hm]. split; [done|by intros _].
      * eapply wp_huge_palloc; [exact Hh2|split; lia|apply chunksize_alignment|exact Hn2|]. intros h' q Hq Hm. eapply Hsome2; [|exact Hm]. split; [done|].
        intros Hne. destruct Hal as [->|(k & Hk & -> & _)]; [done|]. rewrite chunksize_pow2 in *. apply Z.pow_le_mono_r_iff in Hsmall; [|lia|lia].
        by apply (mod_pow2_le _ _ opt_lg_chunk); [lia|].
    + intros h' Hh' K. apply wp_ret, Hn; [done|]. by rewrite <- Hm1.
    + intros h2 s q sz Hx [-> Hq] Hm. eapply (wp_move h1); [exact Hh1|exact Ep|exact Hm|lia|].
      intros h3 Hmv. apply (Hsome _ _ (CHUNK_CEILING s)). split; [|intros Hx0 _; rewrite (Hx Hx0); auto|done].
      destruct Hmv as [? ? ? K Hd]. rewrite Hm1 in K, Hd. by split.
  - intros h' Hx Hm. apply wp_ret, (Hsome _ _ old). split; [done| |done]. intros Hx0 _. rewrite Hs2u by done. by rewrite Hx.
Qed.

Lemma wp_iralloc h X p old size extra al zero (no_move : bool) (Q : option Z → hst → Prop) :
  heap_ok h X → X !! p = Some old → 0 < size → 0 ≤ extra → size + extra < 2 ^ 64 → (no_move = true → size + extra + PAGE ≤ 2 ^ 64) →
  align_ok al (size + extra) → (opt_zero = false ∨ zero = true ∨ extra = 0) →
  (∀ h', heap_ok h' X → keeps X (mem h) (mem h') → Q None h') →
  (∀ h' q sz, realloced h X p old size extra al q sz h' → (no_move = true → q = p) → Q (Some q) h') →
  wp (iralloc old_word os_purge others p size extra al zero no_move) h Q.
Proof using All.
  intros Hh Ep Hs Hex H64 Hpg Hal Hz Hn Hsome. assert (HP : PAGE = 8192) by done. destruct (heap_object _ _ _ _ Hh Ep) as (_ & Hp0 & _).
  unfold iralloc. apply wp_bind. apply wp_check; [apply negb_true_iff, Z.eqb_neq; lia|]. apply wp_bind. apply wp_check; [apply negb_true_iff, Z.eqb_neq; lia|].
  apply wp_bind. eapply wp_isalloc; [exact Hh|exact Ep|]. intros h1 Hh1 Hm1.
  assert (Hno : ∀ h', heap_ok h' X → keeps X (mem h1) (mem h') → Q None h') by (intros h' ? ?; apply Hn; [done|]; by rewrite <- Hm1).
  assert (Hyes : ∀ h' q sz, realloced h1 X p old size extra al q sz h' → (no_move = true → q = p) → Q (Some q) h').
  { intros h' q sz [Hm ? ?] Hq. apply (Hsome _ _ sz); [|done]. split; [|done|done]. destruct Hm as [? ? ? K Hd]. rewrite Hm1 in K, Hd. by split. }
  destruct (negb (al =? 0) && _) eqn:Emis.
  { apply andb_true_iff in Emis as [Hal0%negb_true_iff%Z.eqb_neq _]. destruct no_move; [apply wp_ret, Hno; [done|apply keeps_refl]|].
    destruct Hal as [->|(k & Hk & -> & Hk64)]; [done|]. apply wp_bind.
    eapply wp_alloc_aligned; [exact Hh1|exact Hk|lia|lia|lia| |].
    - intros h' Hh' K. by apply wp_ret, Hno.
    - intros h2 q sz Hq Hm. eapply (wp_move h1); [exact Hh1|exact Ep|exact Hm|lia|].
      intros h3 Hmv. apply (Hyes _ _ sz); [|done]. split; [done|by intros _ ?|by intros _]. }
  assert (Hpal : is_aligned al p).
  { intros Hne. apply andb_false_iff in Emis as [E0|E0]; [by apply negb_false_iff, Z.eqb_eq in E0|]. apply negb_false_iff, Z.eqb_eq in E0.
    destruct Hal as [->|(k & Hk & -> & _)]; [done|]. by rewrite land_mask in E0 by lia. }
  destruct no_move.
  - destruct (Z.leb_spec size arena_maxclass) as [Hsmall|Hbig].
    + eapply wp_arena_resize; [exact Hh1|exact Ep|lia|lia|auto|exact Hz|intros h' ? E; apply Hno; [done|rewrite E; apply keeps_refl]|].
      intros h' sz Hx Hm. apply (Hyes _ _ sz); [split; [done|auto|done]|done].
    + eapply wp_huge_resize; [exact Hh1|exact Ep|lia|lia|lia|intros h' ? E; apply Hno; [done|rewrite E; apply keeps_refl]|].
      intros h' Hx Hm. apply (Hyes _ _ old); [|done]. split; [done| |done]. intros Hx0 _. unfold s2u. destruct maxclass_facts as (? & _).
      by rewrite (proj2 (Z.leb_gt size SMALL_MAXCLASS)), (proj2 (Z.leb_gt size arena_maxclass)), (Hx Hx0) by lia.
  - rewrite u64_small by (split; lia). destruct (Z.leb_spec (size + extra) arena_maxclass).
    + eapply wp_arena_ralloc; [exact Hh1|exact Ep|lia|lia|lia|exact Hal|exact Hpal|exact Hz|exact Hno|]. intros h' q sz Hr. by eapply Hyes.
    + eapply wp_huge_ralloc; [exact Hh1|exact Ep|lia|lia|lia|exact Hal|exact Hpal|exact Hno|]. intros h' q sz Hr. by eapply Hyes.
Qed.
End resize.
