(* ===== verification/MallocSpec.v ===== *)
(** * The entry points, as their callers see them

    [mok s X]: the allocator is initialised, the thread has the objects [X], and
    its counters differ by the sizes of these objects. *)

From S2P Require Import Prelude OrdTree SizeClass BinInfo ChunkIface ChunkSpec Arena ArenaMap ArenaInv ArenaRun ArenaTrim ArenaBin ArenaBinInv ArenaObj ArenaSmall ArenaThreads Huge Malloc MallocInv MallocOps MallocRalloc.

(** ** The test for overflow in [je_calloc] *)

Lemma land_high x : 0 ≤ x < 2 ^ 64 → Z.land x (u64 (Z.shiftl SIZE_T_MAX (Z.shiftl 8 2))) = 0 → x < 2 ^ 32.
Proof.
  intros Hx Hl. apply Z.nle_gt. intros Hge. change (u64 _) with (Z.shiftl (Z.ones 32) 32) in Hl.
  assert (Hpos : 0 < x) by lia. destruct (Z.log2_spec x Hpos) as [Hlo Hhi].
  assert (Hj : 32 ≤ Z.log2 x < 64) by (split; [by apply Z.log2_le_pow2|apply Z.log2_lt_pow2; lia]).
  assert (Hb : Z.testbit (Z.land x (Z.shiftl (Z.ones 32) 32)) (Z.log2 x) = true).
  { rewrite Z.land_spec, Z.bit_log2, Z.shiftl_spec, Z.ones_spec_low by lia. done. }
  by rewrite Hl, Z.bits_0 in Hb.
Qed.

Lemma calloc_size_ok num size :
  is_u64 num → is_u64 size → calloc_size num size = if 2 ^ 64 <=? num * size then None else Some (Z.max 1 (num * size)).
Proof.
  intros [Hn1 Hn2] [Hs1 Hs2]. unfold calloc_size. destruct (Z.leb_spec (2 ^ 64) (num * size)) as [Hov|Hfit].
  - assert (Hn0 : num ≠ 0) by nia. assert (Hs0 : size ≠ 0) by nia.
    destruct (Z.eqb_spec (u64 (num * size)) 0) as [|Hu]; [by rewrite (proj2 (Z.eqb_neq num 0)), (proj2 (Z.eqb_neq size 0))|].
    assert (Hh : calloc_overflows num size (u64 (num * size)) = true); [|by rewrite Hh].
    apply andb_true_iff. split; apply negb_true_iff, Z.eqb_neq.
    + intros Hl. rewrite Z.land_lor_distr_l in Hl. apply Z.lor_eq_0_iff in Hl as [Hl1%land_high Hl2%land_high]; [nia|lia|lia].
    + pose proof (u64_range (num * size)) as [Hr1 Hr2]. assert (u64 (num * size) < num * size) by lia.
      intros Hd. pose proof (Z.div_mod (u64 (num * size)) size Hs0). pose proof (Z.mod_pos_bound (u64 (num * size)) size ltac:(lia)). rewrite Hd in *. nia.
  - rewrite u64_small by (split; nia). destruct (Z.eqb_spec (num * size) 0) as [E0|E0].
    + rewrite E0. apply Z.mul_eq_0 in E0 as [->| ->]; [done|by rewrite orb_true_r].
    + assert (Hs0 : size ≠ 0) by nia. unfold calloc_overflows. rewrite Z.div_mul, Z.eqb_refl, andb_false_r by done. f_equal. nia.
Qed.

(** A power of two, by the test of [imemalign]. *)
Lemma pow2_test al : 0 < al < 2 ^ 64 → Z.land (al - 1) al = 0 → ∃ k, 0 ≤ k ≤ 63 ∧ al = 2 ^ k.
Proof.
  intros Hal Hl. destruct (Z.log2_spec al) as [Hlo Hhi]; [lia|]. pose proof (Z.log2_nonneg al). exists (Z.log2 al).
  assert (Hk : Z.log2 al < 64) by (apply Z.log2_lt_pow2; lia). split; [lia|]. destruct (Z_le_gt_dec al (2 ^ Z.log2 al)) as [|Hgt]; [lia|].
  assert (Hb : Z.testbit (Z.land (al - 1) al) (Z.log2 al) = true); [|by rewrite Hl, Z.bits_0 in Hb].
  rewrite Z.land_spec, Z.bit_log2, andb_true_r by lia. rewrite <- (Z.log2_unique (al - 1) (Z.log2 al)) at 1 by lia. apply Z.bit_log2. lia.
Qed.

Section entry.
Context `{Config} `{Opts} {S : Type} `{CL : ChunkLayer S} {T : Type} `{OT : OrdTree T Z}.
Context `{!ChunkLayerLaws S} `{!OrdTreeLaws T Z} {HBI : BinInfos} {EN : Env}.
Context (old_word : Z → Z → Z) (os_purge : Z → Z → (Z → Z) → (Z → Z)).
Context (others : M (astate S T) unit).
Context (malloc_init_hard : M (mstate S T) bool).
#[local] Existing Instance arena_chunks.
Abbreviation hst := (hstate (astate S T) T).
Implicit Types (s : mstate S T) (h : hst) (X : gmap Z Z) (p q n m sz size extra old al k : Z) (zero : bool).
Hypothesis os_purge_range : ∀ p n f, mem_but p n f (os_purge p n f).
Hypothesis others_ok : ∀ (F : Frame) C N a M D, owned (FR := F) C N env a M D →
  wp others a (λ _ a', owned (FR := F) C N env a' M D ∧ keeps M (a_mem a) (a_mem a')).

Definition smem s : Z → Z := mem (heap s).
Definition balance s : Z := u64 (thr_allocated s - thr_deallocated s).

Record mok s X : Prop := {
  mo_init : malloc_initialized s = true;
  mo_heap : heap_ok (heap s) X;
  mo_count : balance s = u64 (total X)
}.

Lemma wp_on_heap {A} (m : M hst A) s (Q : A → mstate S T → Prop) :
  wp m (heap s) (λ r h, Q r (set_heap h s)) → wp (on_heap m) s Q.
Proof. unfold wp, on_heap. by destruct (m (heap s)) as [[r h]|]. Qed.

Lemma wp_malloc_init s (Q : bool → mstate S T → Prop) :
  malloc_initialized s = true → Q false s → wp (malloc_init malloc_init_hard) s Q.
Proof. intros E HQ. unfold malloc_init. wsteps. rewrite E. by apply wp_ret. Qed.

Lemma wp_initialized s (Q : unit → mstate S T → Prop) :
  malloc_initialized s = true → Q tt s → wp (b ← gets malloc_initialized; check b) s Q.
Proof. intros E HQ. wsteps. by apply wp_check. Qed.

(** ** Counting *)

Lemma balance_add X d1 d2 n : u64 (d1 - d2) = u64 (total X) → u64 (u64 (d1 + n) - d2) = u64 (total X + n).
Proof.
  unfold u64. intros E. rewrite Zminus_mod_idemp_l. replace (d1 + n - d2) with (d1 - d2 + n) by lia.
  rewrite <- (Zplus_mod_idemp_l (d1 - d2)), E, Zplus_mod_idemp_l. done.
Qed.

Lemma balance_sub X d1 d2 n : u64 (d1 - d2) = u64 (total X) → u64 (d1 - u64 (d2 + n)) = u64 (total X - n).
Proof.
  unfold u64. intros E. rewrite Zminus_mod_idemp_r. replace (d1 - (d2 + n)) with (d1 - d2 - n) by lia.
  rewrite <- (Zminus_mod_idemp_l (d1 - d2)), E, Zminus_mod_idemp_l. done.
Qed.

(** The state of a thread that has got the object [p] but not counted it yet. *)
Lemma wp_count_new s X p n (Q : unit → mstate S T → Prop) :
  malloc_initialized s = true → heap_ok (heap s) (<[p := n]> X) → X !! p = None → balance s = u64 (total X) →
  (∀ s', mok s' (<[p := n]> X) → smem s' = smem s → errno s' = errno s → Q tt s') → wp (count_allocated (Some p) n) s Q.
Proof using OrdTreeLaws0 HBI.
  intros Hi Hok Hp Hb HQ. unfold count_allocated. apply wp_bind, wp_on_heap. eapply wp_isalloc; [exact Hok|apply lookup_insert_eq|].
  intros h' Hh' Hm'. apply wp_bind. apply wp_check; [apply Z.eqb_refl|]. wsteps. apply HQ; [|done|done]. split; [done|done|].
  unfold balance in *. cbn. rewrite total_insert by done. rewrite (Z.add_comm n (total X)). by apply balance_add.
Qed.

(** A new object for the caller. *)
Record got s X lo p sz s' : Prop := {
  gt_new : X !! p = None;
  gt_size : lo ≤ sz;
  gt_ok : mok s' (<[p := sz]> X);
  gt_keeps : keeps X (smem s) (smem s')
}.

Definition failed s X (s' : mstate S T) : Prop := mok s' X ∧ keeps X (smem s) (smem s').

Lemma mok_set_heap s h X : mok s X → heap_ok h X → mok (set_heap h s) X.
Proof. intros [? _ ?] Hh. by split. Qed.

Lemma wp_got s X lo p sz h (Q : unit → mstate S T → Prop) :
  mok s X → made (heap s) X lo p sz h →
  (∀ s', got s X lo p sz s' → smem s' = mem h → errno s' = errno s → Q tt s') → wp (count_allocated (Some p) sz) (set_heap h s) Q.
Proof using OrdTreeLaws0 HBI.
  intros [Hi _ Hb] [Hp Hle Hok K] HQ. eapply (wp_count_new _ X); [done|exact Hok|exact Hp|exact Hb|]. intros s' Hs' Hm He.
  apply HQ; [|done|done]. split; [done|done|done|]. by rewrite Hm.
Qed.

(** ** [malloc] and [calloc] *)

(** What follows the attempt to allocate. *)
Lemma wp_alloc_end (P : Z → Z → (Z → Z) → Prop) s X lo size (m : M hst (option Z)) (Q : option Z → mstate S T → Prop) :
  mok s X → s2u size = Some (default 0 (s2u size)) →
  (∀ (Q1 : option Z → hst → Prop),
     (∀ h, heap_ok h X → keeps X (mem (heap s)) (mem h) → Q1 None h) →
     (∀ h p sz, s2u size = Some sz → made (heap s) X lo p sz h → P p sz (mem h) → Q1 (Some p) h) → wp m (heap s) Q1) →
  (∀ s', failed s X s' → errno s' = ENOMEM → Q None s') →
  (∀ s' p sz, s2u size = Some sz → got s X lo p sz s' → P p sz (smem s') → errno s' = errno s → Q (Some p) s') →
  wp ('(ret, usize) ← (usize ← lift (s2u size); ret ← on_heap m; mret (ret, usize)); no_memory ret;; count_allocated ret usize;; mret ret) s Q.
Proof using OrdTreeLaws0 HBI.
  intros Hs Eu Hm Hn Hsome. apply wp_bind, wp_bind. eapply wp_lift; [exact Eu|]. apply wp_bind, wp_on_heap. apply Hm.
  - intros h Hh K. apply wp_ret. cbn [no_memory count_allocated]. wsteps. apply Hn; [|done]. split; [|done].
    destruct Hs as [? _ ?]. by split.
  - intros h p sz Es Hmade HP. apply wp_ret. cbn [no_memory]. wsteps. rewrite Es. cbn [default from_option id].
    eapply wp_got; [exact Hs|exact Hmade|]. intros s' Hg Hmem He. wsteps. eapply Hsome; [exact Es|exact Hg| |done]. by rewrite Hmem.
Qed.

Lemma s2u_default size : 0 < size < 2 ^ 64 → s2u size = Some (default 0 (s2u size)).
Proof.
  intros Hs. unfold s2u. destruct (Z.leb_spec size SMALL_MAXCLASS); [|by destruct (size <=? arena_maxclass)].
  destruct (small_lookup size) as (b & z & -> & Hz & _); [lia|]. simpl. by rewrite Hz.
Qed.

Definition calloc_result s X num size (r : option Z) s' : Prop :=
  match r with
  | None => failed s X s' ∧ errno s' = ENOMEM
  | Some p => num * size < 2 ^ 64 ∧ ∃ sz, s2u (Z.max 1 (num * size)) = Some sz ∧ got s X (Z.max 1 (num * size)) p sz s' ∧ errno s' = errno s ∧
      (num * size ≤ SMALL_MAXCLASS → ∀ y, p ≤ y < p + sz → smem s' y = 0)
  end.

Lemma wp_je_calloc s X num size :
  mok s X → is_u64 num → is_u64 size → wp (je_calloc old_word os_purge others malloc_init_hard num size) s (calloc_result s X num size).
Proof using All.
  intros Hs Hn Hz. unfold je_calloc. apply wp_bind. apply wp_malloc_init; [apply Hs|]. rewrite calloc_size_ok by done.
  destruct (Z.leb_spec (2 ^ 64) (num * size)) as [|Hfit].
  - wsteps. cbn [no_memory count_allocated]. wsteps. split; [|done]. split; [|apply keeps_refl]. destruct Hs. by split.
  - assert (Hpos : 0 < Z.max 1 (num * size) < 2 ^ 64) by lia.
    eapply (wp_alloc_end (λ p sz f, num * size ≤ SMALL_MAXCLASS → ∀ y, p ≤ y < p + sz → f y = 0)); [exact Hs|by apply s2u_default| | |].
    + intros Q1 Hn1 Hs1. unfold icalloc. eapply wp_plain; [exact os_purge_range|exact others_ok|apply Hs|exact Hpos|exact Hn1|].
      intros h p sz Es Hm Hz0. eapply Hs1; [exact Es|exact Hm|]. intros Hsm. apply Hz0; [done|]. unfold SMALL_MAXCLASS in *. lia.
    + by intros s' Hf He.
    + intros s' p sz Es Hg HP He. split; [done|]. by exists sz.
Qed.

Definition malloc_result_ s X size (r : option Z) s' : Prop :=
  match r with
  | None => failed s X s' ∧ errno s' = ENOMEM
  | Some p => ∃ sz, s2u (Z.max 1 size) = Some sz ∧ got s X (Z.max 1 size) p sz s' ∧ errno s' = errno s
  end.

(** [realloc(NULL, size)]. *)
Lemma wp_je_realloc_null s X size :
  mok s X → 0 ≤ size < 2 ^ 64 → wp (je_realloc old_word os_purge others malloc_init_hard None size) s (malloc_result_ s X size).
Proof using All.
  intros Hs Hz. unfold je_realloc. cbv zeta. apply wp_bind. apply wp_malloc_init; [apply Hs|].
  replace (if size =? 0 then 1 else size) with (Z.max 1 size) by (destruct (Z.eqb_spec size 0); lia).
  assert (Hpos : 0 < Z.max 1 size < 2 ^ 64) by lia. apply wp_bind, wp_bind. eapply wp_lift; [by apply s2u_default|]. apply wp_bind, wp_on_heap.
  eapply wp_imalloc; [exact os_purge_range|exact others_ok|apply Hs|exact Hpos| |].
  - intros h Hh K. wsteps. cbn [no_memory realloc_counts]. wsteps. split; [|done]. split; [|done]. destruct Hs as [? _ ?]. by split.
  - intros h p sz Es Hmade. wsteps. cbn [no_memory realloc_counts]. wsteps. rewrite Es. cbn [default from_option id].
    eapply wp_got; [exact Hs|exact Hmade|]. intros s' [Hnew Hle [Hi Hok Hb] K] Hmem He. unfold count_deallocated. wsteps. exists sz. split; [done|]. split; [|done].
    split; [done|done| |done]. split; [done|done|]. unfold balance in *. cbn. unfold u64 in *. by rewrite Zminus_mod_idemp_r, Z.add_0_r.
Qed.
(** ** [free] and [realloc] *)

Lemma wp_je_free s X p n :
  mok s X → X !! p = Some n →
  wp (je_free old_word os_purge others (Some p)) s (λ _ s', mok s' (delete p X) ∧ keeps (delete p X) (smem s) (smem s') ∧ errno s' = errno s).
Proof using All.
  intros [Hi Hok Hb] Ep. unfold je_free. wsteps. apply wp_check; [exact Hi|]. apply wp_bind, wp_on_heap.
  eapply wp_isalloc; [exact Hok|exact Ep|]. intros h1 Hh1 Hm1. unfold count_deallocated. wsteps. apply wp_on_heap.
  eapply wp_iqalloc; [exact os_purge_range|exact others_ok|exact Hh1|exact Ep|]. intros h2 Hh2 K2. split_and!; [split; [done|done|]| |done].
  - unfold balance in *. cbn. rewrite (total_delete _ _ _ Ep). by apply balance_sub.
  - unfold smem. cbn. cbn in K2. by rewrite <- Hm1.
Qed.

(** The object [p] is now [q] with [sz] bytes. *)
Record changed s X p old size q sz s' : Prop := {
  cg_size : size ≤ sz;
  cg_new : q = p ∨ X !! q = None;
  cg_ok : mok s' (<[q := sz]> (delete p X));
  cg_keeps : keeps (delete p X) (smem s) (smem s');
  cg_data i : 0 ≤ i < Z.min size old → smem s' (q + i) = smem s (p + i)
}.

Lemma total_moved X p old q sz : X !! p = Some old → q = p ∨ X !! q = None → total (<[q := sz]> (delete p X)) = total X + sz - old.
Proof.
  intros Ep Hq. rewrite total_insert, (total_delete _ _ _ Ep); [lia|]. destruct Hq as [->|Hq]; [apply lookup_delete_eq|]. by apply lookup_delete_None; right.
Qed.

Lemma balance_moved X d1 d2 n m : u64 (d1 - d2) = u64 (total X) → u64 (u64 (d1 + n) - u64 (d2 + m)) = u64 (total X + n - m).
Proof.
  unfold u64. intros E. rewrite Zminus_mod_idemp_l, Zminus_mod_idemp_r. replace (d1 + n - (d2 + m)) with (d1 - d2 + (n - m)) by lia.
  rewrite <- (Zplus_mod_idemp_l (d1 - d2)), E, Zplus_mod_idemp_l. f_equal. lia.
Qed.

Definition realloc_result s X p old size (r : option Z) s' : Prop :=
  match r with
  | None => failed s X s' ∧ errno s' = ENOMEM
  | Some q => errno s' = errno s ∧ ∃ sz, s2u size = Some sz ∧ changed s X p old size q sz s'
  end.

Lemma wp_je_realloc s X p old size :
  mok s X → X !! p = Some old → 0 < size < 2 ^ 64 →
  wp (je_realloc old_word os_purge others malloc_init_hard (Some p) size) s (realloc_result s X p old size).
Proof using All.
  intros [Hi Hok Hb] Ep Hs. unfold je_realloc. rewrite (proj2 (Z.eqb_neq size 0)) by lia. wsteps. apply wp_check; [exact Hi|].
  apply wp_bind, wp_on_heap. eapply wp_isalloc; [exact Hok|exact Ep|]. intros h1 Hh1 Hm1. apply wp_bind. eapply wp_lift; [by apply s2u_default|].
  apply wp_bind, wp_on_heap. eapply wp_iralloc; [exact os_purge_range|exact others_ok|exact Hh1|exact Ep|lia|lia|lia|done|by left|by right; right| |].
  - cbn. intros h2 Hh2 K2. wsteps. split; [|done]. split; [by split|]. unfold smem. cbn. by rewrite <- Hm1.
  - cbn. intros h2 q sz [[Hle Hq Hok2 K2 Hd2] Hx _] _. specialize (Hx eq_refl eq_refl). rewrite Hx. cbn [default from_option id no_memory realloc_counts count_allocated].
    wsteps. apply wp_on_heap. eapply wp_isalloc; [exact Hok2|apply lookup_insert_eq|]. cbn. intros h3 Hh3 Hm3. wsteps. apply wp_check; [apply Z.eqb_refl|].
    wsteps. unfold count_deallocated. wsteps. split; [done|]. exists sz. split; [done|]. unfold smem. cbn. rewrite Hm1 in K2, Hd2.
    split; [done|done| |unfold smem; cbn; by rewrite Hm3|unfold smem; cbn; by rewrite Hm3]. split; [done|done|]. unfold balance in *. cbn. rewrite (total_moved _ _ _ _ _ Ep Hq). by apply balance_moved.
Qed.

(** [realloc(ptr, 0)] frees the object, and does not count it. *)
Lemma wp_je_realloc_free s X p n :
  mok s X → X !! p = Some n →
  wp (je_realloc old_word os_purge others malloc_init_hard (Some p) 0) s (λ r s', r = None ∧ heap_ok (heap s') (delete p X) ∧
    keeps (delete p X) (smem s) (smem s') ∧ thr_allocated s' = thr_allocated s ∧ thr_deallocated s' = thr_deallocated s).
Proof using All.
  intros [Hi Hok Hb] Ep. unfold je_realloc. cbn [Z.eqb]. apply wp_bind, wp_on_heap. eapply wp_isalloc; [exact Hok|exact Ep|]. intros h1 Hh1 Hm1.
  apply wp_bind, wp_on_heap. eapply wp_iqalloc; [exact os_purge_range|exact others_ok|exact Hh1|exact Ep|]. cbn. intros h2 Hh2 K2. wsteps.
  unfold smem. cbn. split_and!; (done || by rewrite <- Hm1).
Qed.

Lemma wp_je_usable s X p n :
  mok s X → X !! p = Some n → wp (je_malloc_usable_size (Some p)) s (λ r s', r = n ∧ mok s' X ∧ smem s' = smem s).
Proof using OrdTreeLaws0 HBI.
  intros [Hi Hok Hb] Ep. unfold je_malloc_usable_size. wsteps. apply wp_check; [exact Hi|]. apply wp_on_heap. eapply wp_isalloc; [exact Hok|exact Ep|].
  intros h1 Hh1 Hm1. split_and!; [done|by split|done].
Qed.

(** ** Aligned allocation *)

Definition is_pow2 al : Prop := ∃ k, 0 ≤ k ∧ al = 2 ^ k.
Definition good_alignment al min : Prop := is_pow2 al ∧ min ≤ al.

Definition memalign_result s X al size min (r : Z * option Z) s' : Prop :=
  errno s' = errno s ∧
  match r with
  | (e, Some p) => e = 0 ∧ good_alignment al min ∧ p mod al = 0 ∧ ∃ sz, sa2u (Z.max 1 size) al = Some sz ∧ got s X (Z.max 1 size) p sz s'
  | (e, None) => failed s X s' ∧ (e = EINVAL ∧ ¬ good_alignment al min ∨ e = ENOMEM ∧ good_alignment al min)
  end.

(** Requests that do not end within the alignment and a chunk of the end of the
    address space. *)
Definition memalign_request al size : Prop := is_u64 al ∧ 0 ≤ size ∧ ∀ k, 0 ≤ k → al = 2 ^ k → align_ok al (Z.max 1 size).

Lemma alignment_test al min : 0 < min → is_u64 al →
  (negb (Z.land (u64 (al - 1)) al =? 0) || (al <? min) = false ↔ good_alignment al min) ∧
  (good_alignment al min → ∃ k, 0 ≤ k ≤ 63 ∧ al = 2 ^ k).
Proof.
  intros Hmin [Hal1 Hal2]. rewrite orb_false_iff, negb_false_iff, Z.eqb_eq, Z.ltb_ge. split.
  - destruct (decide (al = 0)) as [->|Hne].
    + split; [lia|]. intros [[k [Hk Ek]] _]. pose proof (pow2_pos k Hk). lia.
    + rewrite u64_small by (split; lia). split.
      * intros [Hl Hle]. destruct (pow2_test al) as (k & Hk & Ek); [lia|done|]. split; [|done]. exists k. split; [lia|done].
      * intros [[k [Hk ->]] Hle]. split; [|done]. by rewrite Z.land_comm, land_mask, Z.mod_same by (pose proof (pow2_pos k Hk); lia).
  - intros [[k [Hk ->]] _]. exists k. split; [|done]. split; [done|]. apply Z.lt_succ_r. apply (Z.pow_lt_mono_r_iff 2); lia.
Qed.

Lemma wp_imemalign s X al size min :
  mok s X → 0 < min → memalign_request al size →
  wp (imemalign old_word os_purge others malloc_init_hard al size min) s (memalign_result s X al size min).
Proof using All.
  intros Hs Hmin (Hal & Hsz & Hreq). unfold imemalign. apply wp_bind. apply wp_check; [apply negb_true_iff, Z.eqb_neq; lia|].
  apply wp_bind. apply wp_malloc_init; [apply Hs|]. cbv zeta. replace (if size =? 0 then 1 else size) with (Z.max 1 size) by (destruct (Z.eqb_spec size 0); lia).
  destruct (alignment_test al min Hmin Hal) as [Ht Hpow]. assert (Hsame : failed s X s) by (split; [done|apply keeps_refl]).
  destruct (negb _ || _) eqn:Et.
  { apply wp_ret. split; [done|]. split; [done|]. left. split; [done|]. intros Hg%Ht. done. }
  pose proof (proj1 Ht eq_refl) as Hg. destruct (Hpow Hg) as (k & Hk & ->). destruct (Hreq k ltac:(lia) eq_refl) as [E0|(k' & Hk' & Ek & H64)]; [pose proof (pow2_pos k); lia|].
  assert (k' = k) as -> by (apply (Z.pow_inj_r 2); lia). pose proof chunksize_pos. pose proof (pow2_pos (Z.max k 13) ltac:(lia)). assert (HP : PAGE = 8192) by done.
  destruct (sa2u_ok (Z.max 1 size) k Hk) as (r & Er & Hr); [lia|]. apply wp_bind. eapply wp_lift; [exact Er|].
  destruct Hr as [[-> ?]|(Hr1 & Hr2 & _ & Hfix)]; [lia|]. rewrite (proj2 (Z.eqb_neq r 0)) by lia. apply wp_bind, wp_on_heap.
  eapply wp_ipalloc; [exact os_purge_range|exact others_ok|apply Hs|exact Hk|lia|apply Hfix; lia| |].
  - intros h Hh K. wsteps. split; [done|]. split; [|by right]. split; [|done]. by apply mok_set_heap.
  - intros h p Hp Hm. wsteps. eapply (wp_got s X (Z.max 1 size)); [exact Hs|eapply (made_after (heap s) (heap s)); [apply keeps_refl| |exact Hm]; lia|].
    intros s' Hgot _ He. wsteps. split; [done|]. split_and!; [done|done|done|]. by exists r.
Qed.
End entry.
