(* ===== verification/MallocX.v ===== *)
(** * The experimental interface and the other entry points

    [allocm], [rallocm], [sallocm], [dallocm] and [nallocm] take an alignment
    and flags packed in one word; [je_malloc_] takes a request for a named
    object. *)

From S2P Require Import Prelude OrdTree SizeClass BinInfo ChunkIface ChunkSpec Arena ArenaMap ArenaInv ArenaRun ArenaTrim ArenaBin ArenaBinInv ArenaObj ArenaSmall ArenaThreads Huge Malloc MallocInv MallocOps MallocRalloc MallocSpec.

Lemma allocm_alignment_ok flags :
  allocm_alignment flags = if Z.land flags 63 =? 0 then 0 else 2 ^ Z.land flags 63.
Proof.
  unfold allocm_alignment, ALLOCM_LG_ALIGN_MASK. change 0x3f with (2 ^ 6 - 1). rewrite land_mask by done.
  pose proof (Z.mod_pos_bound flags (2 ^ 6) ltac:(done)) as Hr. set (lg := flags mod 2 ^ 6) in *. clearbody lg.
  assert (Hall : Forall (λ lg, Z.land (u64 (Z.shiftl 1 lg)) (SIZE_T_MAX - 1) = if lg =? 0 then 0 else 2 ^ lg) (Z.of_nat <$> seq 0 64)).
  { apply (bool_decide_unpack _). by vm_compute. }
  rewrite Forall_forall in Hall. apply Hall. apply list_elem_of_fmap. exists (Z.to_nat lg). split; [lia|]. apply elem_of_seq. lia.
Qed.

Lemma s2u_idem `{Config} size u : 0 < size < 2 ^ 64 → s2u size = Some u → u ≠ 0 → s2u u = Some u ∧ size ≤ u < 2 ^ 64.
Proof.
  intros Hs Eu Hne. pose proof maxclass_facts as (Hm1 & Hm2 & Hm3 & Hm4 & Hm5). destruct (Z_le_gt_dec size SMALL_MAXCLASS) as [Hsm|Hsm].
  - pose proof (s2u_small_idem size u ltac:(lia) Eu) as Hid. unfold s2u in Eu. rewrite (proj2 (Z.leb_le size SMALL_MAXCLASS)) in Eu by lia.
    destruct (small_lookup size) as (b & z & Eb & Ez & _ & Hle & _ & Hmax & _); [lia|]. rewrite Eb in Eu. simpl in Eu. rewrite Ez in Eu. injection Eu as <-.
    split; [done|]. unfold SMALL_MAXCLASS in *. lia.
  - destruct (Z_le_gt_dec size arena_maxclass) as [Hlg|Hhg].
    + rewrite s2u_large in Eu by lia. injection Eu as <-. destruct (round_up_bounds size PAGE arena_maxclass) as [Hb Hid]; [done|lia|done|].
      rewrite s2u_large, Hid by lia. split; [done|lia].
    + unfold s2u in Eu. rewrite (proj2 (Z.leb_gt size SMALL_MAXCLASS)), (proj2 (Z.leb_gt size arena_maxclass)) in Eu by lia. injection Eu as Eu.
      destruct (chunk_ceiling_cases size) as [[Hf Hc]|[_ Hc]]; [lia| |lia]. rewrite <- Eu, Hc.
      destruct (round_up_bounds size chunksize (2 ^ 64 - chunksize)) as [Hb Hid]; [apply Hm5|lia|apply chunk_top|].
      rewrite s2u_huge, Hid by lia. split; [done|lia].
Qed.

Section entry.
Context `{Config} `{Opts} {S : Type} `{CL : ChunkLayer S} {T : Type} `{OT : OrdTree T Z}.
Context `{!ChunkLayerLaws S} `{!OrdTreeLaws T Z} {HBI : BinInfos} {EN : Env}.
Context (old_word : Z → Z → Z) (os_purge : Z → Z → (Z → Z) → (Z → Z)).
Context (others : M (astate S T) unit).
Context (malloc_init_hard : M (mstate S T) bool).
#[local] Existing Instance arena_chunks.
Abbreviation hst := (hstate (astate S T) T).
Implicit Types (s : mstate S T) (h : hst) (X : gmap Z Z) (p q n m sz size extra old al k : Z) (zero : bool).
Hypothesis os_purge_range : ∀ p n f, mem_but p n f (os_purge p n f).
Hypothesis others_ok : ∀ (F : Frame) C N a M D, owned (FR := F) C N env a M D →
  wp others a (λ _ a', owned (FR := F) C N env a' M D ∧ keeps M (a_mem a) (a_mem a')).

(** A usable size and what it is again. *)
Lemma usable_ok al size :
  0 < size < 2 ^ 64 → align_ok al size →
  ∃ u, usable size al = Some u ∧ (u = 0 ∨ size ≤ u < 2 ^ 64 ∧ usable u al = Some u).
Proof.
  intros Hs [->|(k & Hk & -> & H64)]; unfold usable.
  - cbn [Z.eqb]. pose proof (s2u_default size Hs) as Eu. set (u := default 0 (s2u size)) in *. exists u. split; [done|].
    destruct (decide (u = 0)) as [|Hne]; [by left|right]. destruct (s2u_idem size u Hs Eu Hne). by split.
  - pose proof (pow2_pos k ltac:(lia)). rewrite (proj2 (Z.eqb_neq (2 ^ k) 0)) by lia. pose proof (pow2_pos (Z.max k 13) ltac:(lia)).
    destruct (sa2u_ok size k Hk) as (r & Er & Hr); [lia|]. exists r. split; [done|]. destruct Hr as [[? _]|(? & ? & _ & Hfix)]; [by left|right].
    split; [done|]. apply Hfix. change PAGE with 8192 in *. lia.
Qed.

Definition flags_ok flags n : Prop := align_ok (allocm_alignment flags) n.

Definition allocm_result s X size flags (r : Z * option Z * option Z) s' : Prop :=
  match r with
  | (c, Some p, Some u) => c = ALLOCM_SUCCESS ∧ usable size (allocm_alignment flags) = Some u ∧ got s X size p u s' ∧ is_aligned (allocm_alignment flags) p
  | (c, None, None) => c = ALLOCM_ERR_OOM ∧ failed s X s'
  | _ => False
  end.

Lemma wp_iallocm h X al u zero (Q : option Z → hst → Prop) :
  heap_ok h X → 0 < u < 2 ^ 64 → usable u al = Some u → (al = 0 ∨ ∃ k, 0 ≤ k ≤ 63 ∧ al = 2 ^ k) →
  (∀ h', heap_ok h' X → keeps X (mem h) (mem h') → Q None h') →
  (∀ h' p, is_aligned al p → made h X u p u h' → Q (Some p) h') → wp (iallocm old_word os_purge others u al zero) h Q.
Proof using All.
  intros Hh Hu Hfix Hal Hn Hsome. unfold iallocm. apply wp_bind. eapply wp_lift; [exact Hfix|]. apply wp_bind. apply wp_check; [apply Z.eqb_refl|].
  destruct Hal as [->|(k & Hk & ->)]; unfold usable in Hfix.
  - cbn [Z.eqb negb] in *. assert (Hyes : ∀ h' p sz, s2u u = Some sz → made h X u p sz h' → Q (Some p) h').
    { intros h' p sz Es Hm. rewrite Hfix in Es. injection Es as <-. by apply Hsome; [intros []|]. }
    destruct zero; [|by eapply wp_imalloc]. eapply wp_plain; [exact os_purge_range|exact others_ok|exact Hh|exact Hu|exact Hn|]. intros; by eapply Hyes.
  - pose proof (pow2_pos k ltac:(lia)). rewrite (proj2 (Z.eqb_neq (2 ^ k) 0)) in Hfix |- * by lia. cbn [negb].
    eapply wp_ipalloc; [exact os_purge_range|exact others_ok|exact Hh|exact Hk|lia|exact Hfix|exact Hn|]. intros h' p Hp Hm. apply Hsome; [by intros _|done].
Qed.

Lemma wp_je_allocm s X size flags :
  mok s X → 0 < size < 2 ^ 64 → flags_ok flags size →
  wp (je_allocm old_word os_purge others malloc_init_hard size flags) s (allocm_result s X size flags).
Proof using All.
  intros Hs Hz Hal. unfold je_allocm. apply wp_bind. apply wp_check; [apply negb_true_iff, Z.eqb_neq; lia|].
  apply wp_bind. apply wp_malloc_init; [apply Hs|]. destruct (usable_ok _ _ Hz Hal) as (u & Eu & Hu). apply wp_bind. eapply wp_lift; [exact Eu|].
  destruct Hu as [->|[Hu Hfix]]; [apply wp_ret; split; [done|split; [done|apply keeps_refl]]|]. rewrite (proj2 (Z.eqb_neq u 0)) by lia.
  apply wp_bind, wp_on_heap. eapply wp_iallocm; [apply Hs|lia|exact Hfix| | |].
  - destruct Hal as [?|(k & ? & ? & _)]; [by left|right; by exists k].
  - intros h Hh K. wsteps. split; [done|]. split; [by apply mok_set_heap|done].
  - intros h p Hp Hm. wsteps. eapply (wp_got s X size); [exact Hs|eapply (made_after (heap s) (heap s)); [apply keeps_refl| |exact Hm]; lia|].
    intros s' Hg _ _. wsteps. by split_and!.
Qed.

Definition rallocm_result s X p old size flags (r : Z * Z * option Z) s' : Prop :=
  match r with
  | (c, q, Some u) => c = ALLOCM_SUCCESS ∧ changed s X p old size q u s' ∧ is_aligned (allocm_alignment flags) q ∧ (allocm_no_move flags = true → q = p)
  | (c, q, None) => c = (if allocm_no_move flags then ALLOCM_ERR_NOT_MOVED else ALLOCM_ERR_OOM) ∧ q = p ∧ failed s X s'
  end.

Lemma wp_je_rallocm s X p old size extra flags :
  mok s X → X !! p = Some old → 0 < size → 0 ≤ extra → size + extra + PAGE ≤ 2 ^ 64 → flags_ok flags (size + extra) →
  (opt_zero = false ∨ allocm_zero flags = true ∨ extra = 0) →
  wp (je_rallocm old_word os_purge others p size extra flags) s (rallocm_result s X p old size flags).
Proof using All.
  intros [Hi Hok Hb] Ep Hs Hex H64 Hal Hz. assert (HP : PAGE = 8192) by done. destruct (heap_object _ _ _ _ Hok Ep) as (_ & Hp0 & _). unfold je_rallocm.
  do 3 (apply wp_bind; apply wp_check; [rewrite ?negb_true_iff, ?Z.eqb_neq, ?Z.leb_le; unfold SIZE_T_MAX; lia|]). wsteps. apply wp_check; [exact Hi|].
  apply wp_bind, wp_on_heap. eapply wp_isalloc; [exact Hok|exact Ep|]. intros h1 Hh1 Hm1. apply wp_bind, wp_on_heap.
  eapply wp_iralloc; [exact os_purge_range|exact others_ok|exact Hh1|exact Ep|lia|lia|lia|intros _; lia|exact Hal|exact Hz| |].
  - cbn. intros h2 Hh2 K2. wsteps. split; [done|]. split; [done|]. split; [by split|]. unfold smem. cbn. by rewrite <- Hm1.
  - cbn. intros h2 q sz [[Hle Hq Hok2 K2 Hd2] _ Hqa] Hmv. apply wp_bind, wp_on_heap. eapply wp_isalloc; [exact Hok2|apply lookup_insert_eq|].
    cbn. intros h3 Hh3 Hm3. wsteps. rewrite Hm1 in K2, Hd2. split; [done|]. split_and!; [|done|done].
    split; [done|done| |unfold smem; cbn; by rewrite Hm3|unfold smem; cbn; by rewrite Hm3]. split; [done|done|].
    unfold balance in *. cbn. rewrite (total_moved _ _ _ _ _ Ep Hq). by apply balance_moved.
Qed.

Lemma wp_je_sallocm s X p n : mok s X → X !! p = Some n →
  wp (je_sallocm p) s (λ r s', r = (ALLOCM_SUCCESS, n) ∧ mok s' X ∧ smem s' = smem s).
Proof using OrdTreeLaws0 HBI.
  intros [Hi Hok Hb] Ep. destruct (heap_object _ _ _ _ Hok Ep) as (_ & Hp0 & _). unfold je_sallocm. wsteps. apply wp_check; [exact Hi|].
  apply wp_bind. apply wp_check; [apply negb_true_iff, Z.eqb_neq; lia|]. apply wp_bind, wp_on_heap. eapply wp_isalloc; [exact Hok|exact Ep|].
  intros h1 Hh1 Hm1. wsteps. split_and!; [done|by split|done].
Qed.

(** [dallocm] does what [free] does. *)
Lemma je_dallocm_free s X p n (Q : Z → mstate S T → Prop) :
  mok s X → X !! p = Some n → wp (je_free old_word os_purge others (Some p)) s (λ _ s', Q ALLOCM_SUCCESS s') → wp (je_dallocm old_word os_purge others p) s Q.
Proof.
  intros [Hi Hok Hb] Ep Hw. destruct (heap_object _ _ _ _ Hok Ep) as (_ & Hp0 & _). unfold je_dallocm. apply wp_bind.
  apply wp_check; [apply negb_true_iff, Z.eqb_neq; lia|]. revert Hw. unfold je_free, wp, mbind, M_bind, gets. rewrite Hi. cbn [check assert_ lift].
  unfold on_heap at 1 3. destruct (isalloc p (heap s)) as [[n' h1]|]; [|done]. unfold count_deallocated, modify. cbn.
  unfold on_heap. by destruct (iqalloc _ _ _ p _) as [[[] h2]|].
Qed.

Lemma wp_je_dallocm s X p n :
  mok s X → X !! p = Some n →
  wp (je_dallocm old_word os_purge others p) s (λ r s', r = ALLOCM_SUCCESS ∧ mok s' (delete p X) ∧ keeps (delete p X) (smem s) (smem s')).
Proof using All.
  intros Hs Ep. eapply je_dallocm_free; [exact Hs|exact Ep|]. eapply wp_mono; [by eapply wp_je_free|]. intros [] s' (? & ? & _). done.
Qed.

(** [nallocm] tells the size that [allocm] would give. *)
Lemma wp_je_nallocm s X size flags :
  mok s X → 0 < size < 2 ^ 64 → flags_ok flags size →
  wp (je_nallocm malloc_init_hard size flags) s (λ r s', s' = s ∧ ∃ u, usable size (allocm_alignment flags) = Some u ∧
    r = if u =? 0 then (ALLOCM_ERR_OOM, None) else (ALLOCM_SUCCESS, Some u)).
Proof.
  intros Hs Hz Hal. unfold je_nallocm. apply wp_bind. apply wp_check; [apply negb_true_iff, Z.eqb_neq; lia|]. apply wp_bind. apply wp_malloc_init; [apply Hs|].
  destruct (usable_ok _ _ Hz Hal) as (u & Eu & _). apply wp_bind. eapply wp_lift; [exact Eu|]. destruct (u =? 0) eqn:E0; apply wp_ret; (split; [done|]); exists u; by rewrite E0.
Qed.

(** ** Named objects *)

Section named.
Context (nv_record_chunk : rqst_s → option Z → M (mstate S T) Z).
(** The object store records the address and leaves the program's objects alone. *)
Hypothesis record_ok : ∀ rq ret s X, mok s X → wp (nv_record_chunk rq ret) s (λ _ s', mok s' X ∧ keeps X (smem s) (smem s')).
Implicit Types (rqst : rqst_s).

(** The object has the size [commitsz] of the request; the size argument plays no part. *)
Definition named_size rqst : Z := Z.max 1 (rq_commitsz rqst).

Definition named_result s X rqst (r : option Z * rqst_s) s' : Prop :=
  ∃ p sz, r = (Some p, Rqst (named_size rqst) 0 (rq_pid rqst) (Some p) (rq_commitsz rqst)) ∧ s2u (named_size rqst) = Some sz ∧ got s X (named_size rqst) p sz s'.

Lemma got_record s X lo p sz s1 rq ret (Q : Z → mstate S T → Prop) :
  got s X lo p sz s1 → (∀ r s', got s X lo p sz s' → Q r s') → wp (nv_record_chunk rq ret) s1 Q.
Proof using record_ok.
  intros [Hp Hle Hok K] HQ. eapply wp_mono; [by apply record_ok|]. intros r s' [Hok' K']. apply HQ. split; [done|done|done|].
  eapply keeps_trans; [exact K|]. eapply keeps_mono; [by apply insert_subseteq|exact K'].
Qed.

(** [je_malloc_] has a result unless there is no memory; then its assertion on the result fails. *)
Lemma wp_je_malloc_ s X size rqst :
  mok s X → 0 ≤ rq_commitsz rqst < 2 ^ 32 →
  match je_malloc_ old_word os_purge others malloc_init_hard nv_record_chunk size rqst s with
  | Some (r, s') => named_result s X rqst r s' ∧ ∃ p h, imalloc old_word os_purge others (named_size rqst) (heap s) = Some (Some p, h)
  | None => ∃ h, imalloc old_word os_purge others (named_size rqst) (heap s) = Some (None, h)
  end.
Proof using All.
  intros Hs Hz. pose proof (mo_init _ _ Hs) as Hi. assert (Hpos : 0 < named_size rqst < 2 ^ 64) by (unfold named_size; lia).
  assert (Hsz : (if rq_commitsz rqst =? 0 then 1 else rq_commitsz rqst) = named_size rqst) by (unfold named_size; destruct (Z.eqb_spec (rq_commitsz rqst) 0); lia).
  assert (Hw : wp (imalloc old_word os_purge others (named_size rqst)) (heap s) (λ r h, match r with None => True | Some p => ∃ sz, s2u (named_size rqst) = Some sz ∧ made (heap s) X (named_size rqst) p sz h end)).
  { eapply wp_imalloc; [exact os_purge_range|exact others_ok|apply Hs|exact Hpos|done|]. intros h p sz Es Hm. by exists sz. }
  apply wp_Some in Hw as ([p|] & h & E & Hr).
  - assert (Hj : wp (je_malloc_ old_word os_purge others malloc_init_hard nv_record_chunk size rqst) s (named_result s X rqst)).
    { destruct Hr as (sz & Es & Hm). unfold je_malloc_. cbv zeta. wsteps. apply wp_malloc_init; [exact Hi|]. rewrite Hsz.
      apply wp_bind, wp_bind. eapply wp_lift; [exact Es|]. apply wp_bind, wp_on_heap, wp_Some. exists (Some p), h. split; [exact E|]. wsteps. cbn [no_memory]. wsteps.
      eapply (wp_got (set_persist_id (rq_pid rqst) s)); [by destruct Hs; split|exact Hm|]. intros s1 Hg _ _. apply wp_bind. apply wp_check; [done|].
      apply wp_bind. eapply (got_record s); [destruct Hg; by split|]. intros r s' Hg'. wsteps. exists p, sz. by split_and!. }
    apply wp_Some in Hj as (r & s' & -> & Hn). split; [exact Hn|]. by exists p, h.
  - assert (Hnone : je_malloc_ old_word os_purge others malloc_init_hard nv_record_chunk size rqst s = None).
    { unfold je_malloc_, malloc_init, on_heap. mrun. cbn [malloc_initialized set_persist_id heap]. rewrite Hi, Hsz, (s2u_default _ Hpos). cbn [set_persist_id heap]. rewrite E. reflexivity. }
    rewrite Hnone. by exists h.
Qed.
End named.
End entry.
