(* ===== verification/MallocProg.v ===== *)
(** * Programs and their objects

    The allocator as its users rely on it: a program that calls the malloc
    family and reads and writes its objects sees a map of disjoint objects and
    reads back what it wrote, through every resizing, while other threads use
    the arena. *)

From S2P Require Import Prelude OrdTree Rb SizeClass BinInfo Bitmap Chunk ChunkIface ChunkSpec ChunkSystem Arena ArenaMap ArenaInv ArenaRun ArenaTrim ArenaSystem ArenaBin ArenaBinInv ArenaObj ArenaSmall ArenaThreads Huge Malloc MallocInv MallocOps MallocRalloc MallocSpec MallocX.

(** Other threads may have anything. *)
Definition any_env : Env := anything.

(** ** Programs *)

Inductive prog :=
  | PStop
  | PReallocNull (size : Z) (k : option Z → prog)
  | PCalloc (num size : Z) (k : option Z → prog)
  | PMemalign (al size : Z) (k : Z * option Z → prog)
  | PRealloc (p size : Z) (k : option Z → prog)
  | PFree (p : Z) (k : prog)
  | PUsable (p : Z) (k : Z → prog)
  | PStore (x b : Z) (k : prog)
  | PLoad (x : Z) (k : Z → prog).

(** What the program knows of memory. *)
Definition known_bytes := Z → option Z.

Section programs.
Context `{Config}.
Implicit Types (X : gmap Z Z) (V : known_bytes) (pr : prog).

Definition in_object X x : Prop := ∃ p n, X !! p = Some n ∧ p ≤ x < p + n.

(** What a program that has the objects [X] may call. *)
Fixpoint prog_ok X pr : Prop :=
  match pr with
  | PStop => True
  | PReallocNull size k => 0 ≤ size < 2 ^ 64 ∧ prog_ok X (k None) ∧
      ∀ p sz, X !! p = None → s2u (Z.max 1 size) = Some sz → prog_ok (<[p := sz]> X) (k (Some p))
  | PCalloc num size k => is_u64 num ∧ is_u64 size ∧ prog_ok X (k None) ∧
      ∀ p sz, X !! p = None → s2u (Z.max 1 (num * size)) = Some sz → prog_ok (<[p := sz]> X) (k (Some p))
  | PMemalign al size k => memalign_request al size ∧ (∀ e, prog_ok X (k (e, None))) ∧
      ∀ p sz, X !! p = None → sa2u (Z.max 1 size) al = Some sz → prog_ok (<[p := sz]> X) (k (0, Some p))
  | PRealloc p size k => 0 < size < 2 ^ 64 ∧ is_Some (X !! p) ∧ prog_ok X (k None) ∧
      ∀ q sz, q = p ∨ X !! q = None → s2u size = Some sz → prog_ok (<[q := sz]> (delete p X)) (k (Some q))
  | PFree p k => is_Some (X !! p) ∧ prog_ok (delete p X) k
  | PUsable p k => ∃ n, X !! p = Some n ∧ prog_ok X (k n)
  | PStore x b k => in_object X x ∧ prog_ok X k
  | PLoad x k => in_object X x ∧ ∀ b, prog_ok X (k b)
  end.

(** ** The specification *)

Definition forget p n V : known_bytes := λ x, if (p <=? x) && (x <? p + n) then None else V x.
Definition learn x b V : known_bytes := λ y, if y =? x then Some b else V y.
Definition zeroed p n V : known_bytes := λ x, if (p <=? x) && (x <? p + n) then Some 0 else V x.
(** The first [c] bytes move from [p] to [q]. *)
Definition transfer p old q c V : known_bytes := λ x, if (q <=? x) && (x <? q + c) then V (x - q + p) else forget p old V x.

Inductive steps : gmap Z Z → known_bytes → prog → gmap Z Z → known_bytes → Prop :=
  | st_stop X V : steps X V PStop X V
  | st_no_malloc X V X' V' size k : steps X V (k None) X' V' → steps X V (PReallocNull size k) X' V'
  | st_malloc X V X' V' size k p sz :
      X !! p = None → size ≤ sz → s2u (Z.max 1 size) = Some sz → apart_from X p sz →
      steps (<[p := sz]> X) V (k (Some p)) X' V' → steps X V (PReallocNull size k) X' V'
  | st_no_calloc X V X' V' num size k : steps X V (k None) X' V' → steps X V (PCalloc num size k) X' V'
  | st_calloc X V X' V' num size k p sz :
      num * size < 2 ^ 64 → X !! p = None → num * size ≤ sz → apart_from X p sz →
      steps (<[p := sz]> X) (if num * size <=? SMALL_MAXCLASS then zeroed p sz V else V) (k (Some p)) X' V' → steps X V (PCalloc num size k) X' V'
  | st_no_memalign X V X' V' al size k e :
      (e = EINVAL ∧ ¬ good_alignment al 8 ∨ e = ENOMEM ∧ good_alignment al 8) → steps X V (k (e, None)) X' V' → steps X V (PMemalign al size k) X' V'
  | st_memalign X V X' V' al size k p sz :
      good_alignment al 8 → p mod al = 0 → X !! p = None → size ≤ sz → apart_from X p sz →
      steps (<[p := sz]> X) V (k (0, Some p)) X' V' → steps X V (PMemalign al size k) X' V'
  | st_no_realloc X V X' V' p size k : steps X V (k None) X' V' → steps X V (PRealloc p size k) X' V'
  | st_realloc X V X' V' p old size k q sz :
      X !! p = Some old → size ≤ sz → apart_from (delete p X) q sz →
      steps (<[q := sz]> (delete p X)) (transfer p old q (Z.min size old) V) (k (Some q)) X' V' → steps X V (PRealloc p size k) X' V'
  | st_free X V X' V' p n k : X !! p = Some n → steps (delete p X) (forget p n V) k X' V' → steps X V (PFree p k) X' V'
  | st_usable X V X' V' p n k : X !! p = Some n → steps X V (k n) X' V' → steps X V (PUsable p k) X' V'
  | st_store X V X' V' x b k : in_object X x → steps X (learn x b V) k X' V' → steps X V (PStore x b k) X' V'
  | st_load X V X' V' x b k : in_object X x → (∀ b', V x = Some b' → b = b') → steps X V (k b) X' V' → steps X V (PLoad x k) X' V'.

(** The memory [f] agrees with what the program knows, and it knows its own objects only. *)
Definition known X V (f : Z → Z) : Prop := ∀ x b, V x = Some b → in_object X x ∧ f x = b.

Lemma known_keeps X X' V f f' : known X V f → keeps X f f' → X ⊆ X' → known X' V f'.
Proof.
  intros Hk K Hs x b E. destruct (Hk x b E) as [(p & n & Ep & Hx) Hf]. split; [exists p, n; split; [by eapply lookup_weaken|done]|].
  by rewrite (K p n Ep).
Qed.

Lemma known_delete X V f p n :
  known X V f → X !! p = Some n → known (delete p X) (forget p n V) f.
Proof.
  intros Hk Ep x b. unfold forget. destruct (Z.leb_spec p x), (Z.ltb_spec x (p + n)); cbn [andb]; try done; intros E;
    destruct (Hk x b E) as [(q & m & Eq & Hx) Hf]; (split; [|done]); exists q, m; (split; [|done]);
    rewrite lookup_delete_ne; try done; intros ->; rewrite Ep in Eq; injection Eq as ->; lia.
Qed.

Lemma known_zeroed X V f p n : known X V f → X !! p = Some n → (∀ y, p ≤ y < p + n → f y = 0) → known X (zeroed p n V) f.
Proof.
  intros Hk Ep Hz x b. unfold zeroed. destruct (Z.leb_spec p x), (Z.ltb_spec x (p + n)); cbn [andb]; [|by apply Hk..].
  intros [= <-]. split; [by exists p, n|]. by apply Hz.
Qed.

Lemma known_learn X V f x b : known X V f → in_object X x → known X (learn x b V) (memset_bytes x b 1 f).
Proof.
  intros Hk Hx y c. unfold learn, memset_bytes. destruct (Z.eqb_spec y x) as [->|Hne].
  - intros [= <-]. split; [done|]. by rewrite Z.leb_refl, (proj2 (Z.ltb_lt x (x + 1))) by lia.
  - intros E. destruct (Hk y c E) as [? ?]. split; [done|]. destruct (Z.leb_spec x y), (Z.ltb_spec y (x + 1)); cbn [andb]; try done. lia.
Qed.

Lemma known_transfer X V f f' p old q sz size :
  known X V f → X !! p = Some old → keeps (delete p X) f f' → size ≤ sz → (q = p ∨ X !! q = None) →
  (∀ i, 0 ≤ i < Z.min size old → f' (q + i) = f (p + i)) →
  known (<[q := sz]> (delete p X)) (transfer p old q (Z.min size old) V) f'.
Proof.
  intros Hk Ep K Hle Hq Hd x b. unfold transfer. destruct (Z.leb_spec q x), (Z.ltb_spec x (q + Z.min size old)); cbn [andb].
  1: { intros E. destruct (Hk _ _ E) as [_ Hf]. split; [exists q, sz; split; [apply lookup_insert_eq|lia]|].
       rewrite <- Hf. specialize (Hd (x - q)). replace (q + (x - q)) with x in Hd by lia. rewrite Hd by lia. f_equal. lia. }
  all: intros E; destruct (known_delete _ _ _ _ _ Hk Ep x b E) as [(r & m & Er & Hx) Hf];
    (split; [|by rewrite (K r m Er)]); exists r, m; (split; [|done]); apply lookup_insert_Some; right; (split; [|done]);
    apply lookup_delete_Some in Er as [? Er]; destruct Hq as [->|Hq]; congruence.
Qed.
End programs.

Section run.
Context `{Config} `{Opts} {S : Type} `{CL : ChunkLayer S} {T : Type} `{OT : OrdTree T Z}.
Context `{!ChunkLayerLaws S} `{!OrdTreeLaws T Z} {HBI : BinInfos}.
Context (old_word : Z → Z → Z) (os_purge : Z → Z → (Z → Z) → (Z → Z)).
Context (malloc_init_hard : M (mstate S T) bool).
#[local] Existing Instance arena_chunks.
#[local] Existing Instance any_env.
Implicit Types (s : mstate S T) (X : gmap Z Z) (V : known_bytes) (pr : prog) (cls : list client).
Hypothesis os_purge_range : ∀ p n f, mem_but p n f (os_purge p n f).

Section prog.
Context (others : M (astate S T) unit).

Fixpoint run_prog pr : M (mstate S T) unit :=
  match pr with
  | PStop => mret tt
  | PReallocNull size k => r ← je_realloc old_word os_purge others malloc_init_hard None size; run_prog (k r)
  | PCalloc num size k => r ← je_calloc old_word os_purge others malloc_init_hard num size; run_prog (k r)
  | PMemalign al size k => r ← je_posix_memalign old_word os_purge others malloc_init_hard al size; run_prog (k r)
  | PRealloc p size k => r ← je_realloc old_word os_purge others malloc_init_hard (Some p) size; run_prog (k r)
  | PFree p k => je_free old_word os_purge others (Some p);; run_prog k
  | PUsable p k => n ← je_malloc_usable_size (Some p); run_prog (k n)
  | PStore x b k => modify (λ s, set_heap (set_mem (memset_bytes x b 1 (smem s)) (heap s)) s);; run_prog k
  | PLoad x k => b ← gets (λ s, smem s x); run_prog (k b)
  end.
End prog.

Lemma others_interfere cls (F : Frame) C N (a : astate S T) M D :
  Forall (client_ok ∅) cls → owned (FR := F) C N anything a M D →
  wp (interfere old_word os_purge cls) a (λ _ a', owned (FR := F) C N anything a' M D ∧ keeps M (a_mem a) (a_mem a')).
Proof using ChunkLayerLaws0 OrdTreeLaws0 HBI os_purge_range. intros Hc Ho. by apply wp_interfere. Qed.

(** Programs that give back what they take leave the other threads' objects as they are. *)
Lemma others_tidy (EN : Env) cls (F : Frame) C N (a : astate S T) M D :
  Forall (client_ok ∅) cls → Forall tidy cls → owned (FR := F) C N env a M D →
  wp (interfere old_word os_purge cls) a (λ _ a', owned (FR := F) C N env a' M D ∧ keeps M (a_mem a) (a_mem a')).
Proof using ChunkLayerLaws0 OrdTreeLaws0 HBI os_purge_range. intros Hc Ht Ho. by apply wp_interfere_tidy. Qed.

Lemma mok_apart s X p n : mok s X → X !! p = Some n → apart_from X p n.
Proof using OrdTreeLaws0 HBI. intros Hs. eapply heap_objs_apart, mo_heap, Hs. Qed.

Lemma apart_new X p n : apart_from (<[p := n]> X) p n → apart_from X p n.
Proof. intros Ha q m Eq Hne. apply Ha; [by rewrite lookup_insert_ne|done]. Qed.

Section wp.
Context (others : M (astate S T) unit).
Hypothesis others_ok : ∀ (F : Frame) C N a M D, owned (FR := F) C N anything a M D →
  wp others a (λ _ a', owned (FR := F) C N anything a' M D ∧ keeps M (a_mem a) (a_mem a')).

(** After a new object was returned. *)
Lemma known_got s X lo p sz s' V : got s X lo p sz s' → known X V (smem s) → known (<[p := sz]> X) V (smem s').
Proof. intros [Hp _ _ K] Hk. eapply known_keeps; [exact Hk|exact K|by apply insert_subseteq]. Qed.

Lemma got_apart s X lo p sz s' : got s X lo p sz s' → apart_from X p sz.
Proof using OrdTreeLaws0 HBI. intros [_ _ Hok _]. eapply apart_new, mok_apart; [exact Hok|apply lookup_insert_eq]. Qed.

Lemma wp_prog pr X V s (Q : unit → mstate S T → Prop) :
  prog_ok X pr → mok s X → known X V (smem s) →
  (∀ s' X' V', steps X V pr X' V' → mok s' X' → known X' V' (smem s') → Q tt s') → wp (run_prog others pr) s Q.
Proof using All.
  revert X V s Q. induction pr as [|size k IH|num size k IH|al size k IH|p size k IH|p k IH|p k IH|x b k IH|x k IH];
    intros X V s Q Hok Hs Hk HQ; cbn [run_prog prog_ok] in *.
  - apply wp_ret. apply (HQ s X V); [constructor|done|done].
  - destruct Hok as (Hz & Hno & Hyes). apply wp_bind. eapply wp_mono; [eapply wp_je_realloc_null; done|]. intros [p|] s1; cbn [malloc_result_].
    + intros (sz & Es & Hg & _). eapply IH; [by apply Hyes; [apply Hg|]|apply Hg|by eapply known_got|]. intros s' X' V' Hst. apply HQ.
      eapply st_malloc with (sz := sz); [apply Hg|pose proof (gt_size _ _ _ _ _ _ Hg); lia|exact Es|by eapply got_apart|exact Hst].
    + intros [[Hs1 K1] _]. eapply IH; [exact Hno|exact Hs1|by eapply known_keeps|]. intros s' X' V' Hst. apply HQ. by apply st_no_malloc.
  - destruct Hok as (Hn & Hz & Hno & Hyes). apply wp_bind. eapply wp_mono; [eapply wp_je_calloc; done|]. intros [p|] s1; cbn [calloc_result].
    + intros (Hfit & sz & Es & Hg & _ & Hz0). eapply (IH _ _ (if num * size <=? SMALL_MAXCLASS then zeroed p sz V else V)); [by apply Hyes; [apply Hg|]|apply Hg| |].
      * destruct (Z.leb_spec (num * size) SMALL_MAXCLASS); [|by eapply known_got]. apply known_zeroed; [by eapply known_got|apply lookup_insert_eq|auto].
      * intros s' X' V' Hst. apply HQ. eapply st_calloc with (sz := sz); [done|apply Hg|pose proof (gt_size _ _ _ _ _ _ Hg); lia|by eapply got_apart|exact Hst].
    + intros [[Hs1 K1] _]. eapply IH; [exact Hno|exact Hs1|by eapply known_keeps|]. intros s' X' V' Hst. apply HQ. by apply st_no_calloc.
  - destruct Hok as (Hreq & Hno & Hyes). apply wp_bind. eapply wp_mono; [eapply wp_imemalign; done|]. intros [e [p|]] s1 [_ Hr].
    + destruct Hr as (-> & Hgood & Hpal & sz & Es & Hg). eapply IH; [by apply Hyes; [apply Hg|]|apply Hg|by eapply known_got|]. intros s' X' V' Hst. apply HQ.
      eapply st_memalign with (sz := sz); [done|done|apply Hg|pose proof (gt_size _ _ _ _ _ _ Hg); lia|by eapply got_apart|exact Hst].
    + destruct Hr as [[Hs1 K1] He]. eapply IH; [apply Hno|exact Hs1|by eapply known_keeps|]. intros s' X' V' Hst. apply HQ. by eapply st_no_memalign.
  - destruct Hok as (Hz & [old Ep] & Hno & Hyes). apply wp_bind. eapply wp_mono; [eapply wp_je_realloc; done|]. intros [q|] s1; cbn [realloc_result].
    + intros (_ & sz & Es & [Hle Hq Hok1 K1 Hd]). eapply IH; [by apply Hyes|exact Hok1|eapply known_transfer; [exact Hk|exact Ep|exact K1|exact Hle|exact Hq|exact Hd]|].
      intros s' X' V' Hst. apply HQ. eapply st_realloc; [exact Ep|exact Hle| |exact Hst].
      eapply apart_new, mok_apart; [exact Hok1|apply lookup_insert_eq].
    + intros [[Hs1 K1] _]. eapply IH; [exact Hno|exact Hs1|by eapply known_keeps|]. intros s' X' V' Hst. apply HQ. by apply st_no_realloc.
  - destruct Hok as ([n Ep] & Hok). apply wp_bind. eapply wp_mono; [eapply wp_je_free; done|]. intros [] s1 (Hs1 & K1 & _).
    eapply IH; [exact Hok|exact Hs1|eapply known_keeps; [by eapply known_delete|exact K1|done]|]. intros s' X' V' Hst. apply HQ. by eapply st_free.
  - destruct Hok as (n & Ep & Hok). apply wp_bind. eapply wp_mono; [eapply wp_je_usable; done|]. intros r s1 (-> & Hs1 & Hm1).
    eapply IH; [exact Hok|exact Hs1|by rewrite Hm1|]. intros s' X' V' Hst. apply HQ. by eapply st_usable.
  - destruct Hok as [Hx Hok]. wsteps. eapply IH; [exact Hok| |by apply (known_learn X V (smem s) x b)|].
    + destruct Hs. split; [done|by apply heap_write|done].
    + intros s' X' V' Hst. apply HQ. by eapply st_store.
  - destruct Hok as [Hx Hok]. wsteps. eapply IH; [apply Hok|exact Hs|exact Hk|]. intros s' X' V' Hst. apply HQ. eapply st_load; [done| |exact Hst].
    intros b' E. by destruct (Hk _ _ E).
Qed.
End wp.

(** ** A new heap *)

Lemma heap_new (EN : Env) (s0 : S) f ca : env ∅ ∅ → cl_inv s0 [] [] → heap_ok (EN := EN) (huge_boot (arena_new s0 f ca) ca f) ∅.
Proof using ChunkLayerLaws0 OrdTreeLaws0 HBI.
  clear dependent os_purge.
  intros He Hs. exists ∅, ∅, ∅, []. split; [done|]. split.
  - split; simpl; [apply tree_new, extent_ad_comp_order|set_solver|done| |done|done]. split; [done|]. rewrite elements_empty. exact Hs.
  - split; [constructor|]. intros c. simpl. rewrite lookup_empty. split; [by intros ?%elem_of_nil|by intros [? ?]].
  - rewrite elements_empty. apply (objects_env (FR := f)); [exact He|]. apply (objects_arena_new (FR := f)); [exact Hs|constructor].
Qed.
End run.
