(* ===== verification/MallocSystem.v ===== *)
(** * What the malloc family promises

    The theorems about the entry points of [jemalloc.c] as a whole, over the
    arena, the huge objects and the chunk layer together, and a concrete run
    over the real chunk layer. *)

From S2P Require Import Prelude OrdTree Rb SizeClass BinInfo Bitmap Chunk ChunkIface ChunkSpec ChunkSystem Arena ArenaMap ArenaInv ArenaRun ArenaTrim ArenaSystem ArenaBin ArenaBinInv ArenaObj ArenaSmall ArenaThreads Huge Malloc MallocInv MallocOps MallocRalloc MallocSpec MallocX MallocProg.

Section system.
Context `{Config} `{Opts} {S : Type} `{CL : ChunkLayer S} {T : Type} `{OT : OrdTree T Z}.
Context `{!ChunkLayerLaws S} `{!OrdTreeLaws T Z} {HBI : BinInfos}.
Context (old_word : Z → Z → Z) (os_purge : Z → Z → (Z → Z) → (Z → Z)).
Context (malloc_init_hard : M (mstate S T) bool).
#[local] Existing Instance arena_chunks.
#[local] Existing Instance any_env.
Implicit Types (s : mstate S T) (X : gmap Z Z) (V : known_bytes) (pr : prog) (cls : list client) (p size old : Z).
Hypothesis os_purge_range : ∀ p n f, mem_but p n f (os_purge p n f).
Abbreviation others cls := (interfere old_word os_purge cls).

(** C1 — The allocator implements a store of objects.  A program that calls
    [realloc] of a null pointer, [calloc], [posix_memalign],
    [realloc] of an object to a positive size, [free] and [malloc_usable_size] on its own objects and reads and
    writes bytes of these objects never fails an assertion and terminates,
    whatever programs of other threads run in the windows of the arena's bins.  (Not among the calls are
    [je_malloc_], which asserts that there was memory, and [realloc] of an object to
    the size 0, which frees it without counting.)  Its objects change
    as the specification [steps] says: a new object is disjoint from all
    others and is as large as asked for, and every byte that the program reads is the
    byte it wrote last, also after [realloc] moved the object between bins,
    large runs and huge chunks.  In the end the counters of the thread differ by
    the sizes of its objects. *)
Theorem malloc_refines_store cls pr X V s :
  Forall (client_ok ∅) cls → prog_ok X pr → mok s X → known X V (smem s) →
  ∃ s' X' V', run_prog old_word os_purge malloc_init_hard (others cls) pr s = Some (tt, s') ∧
    steps X V pr X' V' ∧ mok s' X' ∧ known X' V' (smem s').
Proof using All.
  intros Hc Hok Hs Hk.
  assert (Hw : wp (run_prog old_word os_purge malloc_init_hard (others cls) pr) s (λ _ s', ∃ X' V', steps X V pr X' V' ∧ mok s' X' ∧ known X' V' (smem s'))).
  { eapply wp_prog; [exact os_purge_range|intros F C N a M D; by apply others_interfere|exact Hok|exact Hs|exact Hk|]. intros s' X' V' ? ? ?. by exists X', V'. }
  apply wp_Some in Hw as ([] & s' & E & X' & V' & ?). by exists s', X', V'.
Qed.

(** C3 — [realloc] of an object returns an object of the usable size of the
    request that holds the first bytes of the old one, up to the smaller size,
    at the same or at a new address, and leaves all other objects alone; or it
    fails with [ENOMEM] and leaves the old object as it was. *)
Theorem je_realloc_spec cls s X p old size :
  Forall (client_ok ∅) cls → mok s X → X !! p = Some old → 0 < size < 2 ^ 64 →
  ∃ r s', je_realloc old_word os_purge (others cls) malloc_init_hard (Some p) size s = Some (r, s') ∧ realloc_result s X p old size r s'.
Proof using All. intros Hc Hs Ep Hz. apply wp_Some. eapply wp_je_realloc; try done. intros F C N a M D. by apply others_interfere. Qed.

(** C11 — [calloc] returns an object for the product of its arguments only if
    the product does not overflow, and small objects hold zeros; otherwise it
    fails with [ENOMEM]: the test with the upper halves of the arguments and
    the division is exact. *)
Theorem je_calloc_spec cls s X num size :
  Forall (client_ok ∅) cls → mok s X → is_u64 num → is_u64 size →
  calloc_size num size = (if 2 ^ 64 <=? num * size then None else Some (Z.max 1 (num * size))) ∧
  ∃ r s', je_calloc old_word os_purge (others cls) malloc_init_hard num size s = Some (r, s') ∧ calloc_result s X num size r s'.
Proof using All.
  intros Hc Hs Hn Hz. split; [by apply calloc_size_ok|]. apply wp_Some. eapply wp_je_calloc; try done. intros F C N a M D. by apply others_interfere.
Qed.

(** C12 — [posix_memalign] fails with [EINVAL] when the alignment is not a power
    of two or is less than the size of a pointer, and with [ENOMEM] when there is no
    memory; then nothing of the caller's changes.  Otherwise it gives an object
    at a multiple of the alignment.  It does not touch [errno]. *)
Theorem je_posix_memalign_spec cls s X al size :
  Forall (client_ok ∅) cls → mok s X → memalign_request al size →
  ∃ r s', je_posix_memalign old_word os_purge (others cls) malloc_init_hard al size s = Some (r, s') ∧ memalign_result s X al size 8 r s'.
Proof using All. intros Hc Hs Hr. apply wp_Some. eapply wp_imemalign; try done. intros F C N a M D. by apply others_interfere. Qed.

(** C13 — [rallocm] resizes an object to at least [size] bytes, at the alignment
    of the flags, and does not move it if the flags forbid that; the common
    bytes are kept.  A failure is reported as out of memory or as not moved,
    and the object stays as it was. *)
Theorem je_rallocm_spec cls s X p old size extra flags :
  Forall (client_ok ∅) cls → mok s X → X !! p = Some old → 0 < size → 0 ≤ extra → size + extra + PAGE ≤ 2 ^ 64 →
  flags_ok flags (size + extra) → opt_zero = false ∨ allocm_zero flags = true ∨ extra = 0 →
  ∃ r s', je_rallocm old_word os_purge (others cls) p size extra flags s = Some (r, s') ∧ rallocm_result s X p old size flags r s'.
Proof using All. intros. apply wp_Some. eapply wp_je_rallocm; try done. intros F C N a M D. by apply others_interfere. Qed.

(** ** The entry point for named objects *)

Context (nv_record_chunk : rqst_s → option Z → M (mstate S T) Z).
(** The object store records the address and leaves the program's objects alone. *)
Hypothesis record_ok : ∀ rq ret s X, mok s X → wp (nv_record_chunk rq ret) s (λ _ s', mok s' X ∧ keeps X (smem s) (smem s')).

End system.

(** ** A concrete run *)

Section witnesses.
#[local] Existing Instance default_config.
#[local] Existing Instance sample_opts.
#[local] Existing Instance arena_layer.
#[local] Existing Instance arena_laws.
#[local] Existing Instance sample_infos.
Abbreviation cst := (state (T := rbt Z)).
Abbreviation ast := (astate cst (rbt Z)).
Abbreviation mst := (mstate cst (rbt Z)).
#[local] Existing Instance arena_chunks.
#[local] Existing Instance any_env.

Definition no_init : M mst bool := mret true.
Definition malloc0 : mst := MState (huge_boot arena0 0 (λ _, 0)) 0 0 0 0 true.

Lemma malloc0_ok : mok malloc0 ∅.
Proof. split; [reflexivity|apply heap_new; [done|apply layer0]|reflexivity]. Qed.

Definition nothing : known_bytes := λ _, None.

Lemma nothing_known f : known ∅ nothing f.
Proof. intros x b E. discriminate E. Qed.

(** An object is written to, grown to three chunks and read. *)
Definition sample_prog : prog :=
  PReallocNull 100 (λ r, match r with
    | None => PStop
    | Some p => PStore (p + 99) 7 (PRealloc p (3 * chunksize) (λ r, match r with
        | None => PStop
        | Some q => PLoad (q + 99) (λ _, PFree q PStop)
        end))
    end).

Lemma sample_sizes : s2u 100 = Some 112 ∧ s2u (3 * chunksize) = Some (3 * chunksize).
Proof. split; vm_compute; reflexivity. Qed.

Lemma sample_prog_ok : prog_ok ∅ sample_prog.
Proof.
  destruct sample_sizes as [E1 E2]. assert (Hc : 3 * chunksize = 50331648) by reflexivity. cbn. split; [lia|]. split; [done|].
  intros p sz _. change (Z.max 1 100) with 100. rewrite E1. intros [= <-]. split; [exists p, 112; split; [apply lookup_insert_eq|lia]|].
  rewrite Hc in *. split; [lia|]. split; [eexists; apply lookup_insert_eq|]. split; [done|]. intros q sz _ E. rewrite E2 in E. injection E as <-.
  split; [exists q, 50331648; split; [apply lookup_insert_eq|lia]|]. intros _. split; [eexists; apply lookup_insert_eq|done].
Qed.

Abbreviation run0 pr := (run_prog no_word zero_purge no_init (interfere no_word zero_purge visitors) pr malloc0).

Lemma malloc_refines_store_witness :
  ∃ s' X' V', run0 sample_prog = Some (tt, s') ∧ steps ∅ nothing sample_prog X' V' ∧ mok s' X'.
Proof.
  destruct (malloc_refines_store no_word zero_purge no_init zero_purge_range visitors sample_prog ∅ nothing malloc0
    visitors_ok sample_prog_ok malloc0_ok (nothing_known _)) as (s' & X' & V' & E & Hst & Hok & _).
  exists s', X', V'. split; [exact E|]. split; [exact Hst|exact Hok].
Defined.

(** The object after [malloc(100)] and a store. *)
Definition malloc_alone (size : Z) : M mst (option Z) := je_realloc no_word zero_purge (interfere no_word zero_purge visitors) no_init None size.
Definition malloc1 : mst := default malloc0 (snd <$> malloc_alone 100 malloc0).
Definition malloc1_at : Z := default 0 (match malloc_alone 100 malloc0 with Some (r, _) => r | None => None end).

Lemma malloc1_run : fst <$> malloc_alone 100 malloc0 = Some (Some malloc1_at).
Proof. vm_compute. reflexivity. Qed.

#[local] Opaque malloc0.

Lemma malloc_alone_ok (EN : Env) s0 p : mok (EN := EN) s0 ∅ → fst <$> malloc_alone 100 s0 = Some (Some p) → mok (EN := EN) (default s0 (snd <$> malloc_alone 100 s0)) {[p := 112]}.
Proof.
  intros Hs0 Er. assert (Hz : 0 ≤ 100 < 2 ^ 64) by lia.
  pose proof (wp_je_realloc_null no_word zero_purge (interfere no_word zero_purge visitors) no_init zero_purge_range
    (λ F C N a M D, others_tidy no_word zero_purge zero_purge_range EN visitors F C N a M D visitors_ok visitors_tidy) s0 ∅ 100 Hs0 Hz) as Hw.
  fold (malloc_alone 100) in Hw. apply wp_Some in Hw as (r & s' & E & Hr). rewrite E in Er |- *. injection Er as ->.
  destruct Hr as (sz & Es & [_ _ Hok _] & _). change (Z.max 1 100) with 100 in Es. rewrite (proj1 sample_sizes) in Es. injection Es as <-. exact Hok.
Qed.

Lemma malloc1_ok : mok malloc1 {[malloc1_at := 112]}.
Proof. exact (malloc_alone_ok any_env malloc0 malloc1_at malloc0_ok malloc1_run). Qed.

#[local] Opaque malloc1 malloc1_at.

Abbreviation visit := (interfere no_word zero_purge visitors).

Lemma je_realloc_spec_witness :
  ∃ r s', je_realloc no_word zero_purge visit no_init (Some malloc1_at) 50331648 malloc1 = Some (r, s') ∧
    realloc_result malloc1 {[malloc1_at := 112]} malloc1_at 112 50331648 r s'.
Proof.
  exact (je_realloc_spec no_word zero_purge no_init zero_purge_range visitors malloc1 _ malloc1_at 112 50331648 visitors_ok malloc1_ok
    (lookup_singleton_eq _ _) ltac:(lia)).
Defined.

Lemma je_calloc_spec_witness :
  (∃ r s', je_calloc no_word zero_purge visit no_init 10 10 malloc1 = Some (r, s') ∧ calloc_result malloc1 {[malloc1_at := 112]} 10 10 r s') ∧
  calloc_size (2 ^ 33) (2 ^ 33) = None.
Proof.
  assert (Hu : is_u64 10 ∧ is_u64 (2 ^ 33)) by (unfold is_u64; lia). destruct Hu as [H10 H33]. split.
  - exact (proj2 (je_calloc_spec no_word zero_purge no_init zero_purge_range visitors malloc1 _ 10 10 visitors_ok malloc1_ok H10 H10)).
  - exact (proj1 (je_calloc_spec no_word zero_purge no_init zero_purge_range visitors malloc1 _ (2 ^ 33) (2 ^ 33) visitors_ok malloc1_ok H33 H33)).
Defined.

Lemma je_posix_memalign_spec_witness :
  ∃ r s', je_posix_memalign no_word zero_purge visit no_init 4096 100 malloc1 = Some (r, s') ∧ memalign_result malloc1 {[malloc1_at := 112]} 4096 100 8 r s'.
Proof.
  assert (Hr : memalign_request 4096 100).
  { split; [unfold is_u64; lia|]. split; [lia|]. intros k Hk Ek. right. exists 12. split; [lia|]. split; [reflexivity|]. vm_compute. congruence. }
  exact (je_posix_memalign_spec no_word zero_purge no_init zero_purge_range visitors malloc1 _ 4096 100 visitors_ok malloc1_ok Hr).
Defined.

(** At an alignment of 16 bytes. *)
Lemma je_rallocm_spec_witness :
  ∃ r s', je_rallocm no_word zero_purge visit malloc1_at 200 50 4 malloc1 = Some (r, s') ∧ rallocm_result malloc1 {[malloc1_at := 112]} malloc1_at 112 200 4 r s'.
Proof.
  assert (Hf : flags_ok 4 (200 + 50)) by (right; exists 4; split; [lia|]; split; [reflexivity|]; vm_compute; congruence).
  assert (H64 : 200 + 50 + PAGE ≤ 2 ^ 64) by (vm_compute; congruence).
  exact (je_rallocm_spec no_word zero_purge no_init zero_purge_range visitors malloc1 _ malloc1_at 112 200 50 4 visitors_ok malloc1_ok
    (lookup_singleton_eq _ _) ltac:(lia) ltac:(lia) H64 Hf (or_introl eq_refl)).
Defined.




(** The byte is read back after the object moved from a bin to chunks of its own. *)
#[local] Transparent malloc0.
Example sample_load :
  (λ r, smem r.2 (2 ^ 41)) <$> run0 (PReallocNull 100 (λ r, if r is Some p then PStore (p + 99) 7 (PRealloc p (3 * chunksize) (λ r,
    if r is Some q then PLoad (q + 99) (λ b, PStore (2 ^ 41) b PStop) else PStop)) else PStop)) = Some 7.
Proof. vm_compute. reflexivity. Qed.
End witnesses.
