(* ===== verification/Util.v ===== *)
(** * Numbers as text (util.c)

    [malloc_strtoumax], which reads the numbers of option strings, and the
    conversions [u2s], [d2s], [o2s] and [x2s] of [malloc_vsnprintf].  A C string
    is the list of its bytes without the terminator; a pointer into it is the
    rest of the list, and the end of the list reads as 0.  The conversions fill
    a buffer from its end: the model counts down the room left in it, and has
    no result when it would run over the front. *)

From S2P Require Import Prelude.

Abbreviation str := (list Z) (only parsing).

Definition EINVAL : Z := 22.
Definition ERANGE : Z := 34.
Definition UINTMAX_MAX : Z := 2 ^ 64 - 1.

(** ** [malloc_strtoumax] *)

(** Tab, newline, vertical tab, form feed, carriage return and blank. *)
Definition is_space (c : Z) : bool := ((9 <=? c) && (c <=? 13)) || (c =? 32).

Fixpoint skip_space (p : str) : str :=
  match p with
  | [] => []
  | c :: q => if is_space c then skip_space q else p
  end.

(** ['-'] is 45 and ['+'] is 43. *)
Definition get_sign (p : str) : bool * str :=
  match p with
  | [] => (false, p)
  | c :: q => if c =? 45 then (true, q) else if c =? 43 then (false, q) else (false, p)
  end.

Definition is_octal (c : Z) : bool := (48 <=? c) && (c <=? 55).
Definition is_hex (c : Z) : bool := ((48 <=? c) && (c <=? 57)) || ((65 <=? c) && (c <=? 70)) || ((97 <=? c) && (c <=? 102)).

(** The base may follow from a prefix ["0"] or ["0x"]; the prefix is skipped
    when it fits the base. *)
Definition get_prefix (b : Z) (p : str) : Z * str :=
  match p with
  | c0 :: c1 :: q =>
      if c0 =? 48 then
        if is_octal c1 then
          let b := if b =? 0 then 8 else b in (b, if b =? 8 then c1 :: q else p)
        else if (c1 =? 120) && (match q with c2 :: _ => is_hex c2 | [] => false end) then
          let b := if b =? 0 then 16 else b in (b, if b =? 16 then q else p)
        else (b, p)
      else (b, p)
  | _ => (b, p)
  end.

Definition digit_of (b c : Z) : option Z :=
  if (48 <=? c) && (c <=? 57) && (c - 48 <? b) then Some (c - 48)
  else if (65 <=? c) && (c <=? 90) && (10 + c - 65 <? b) then Some (10 + c - 65)
  else if (97 <=? c) && (c <=? 122) && (10 + c - 97 <? b) then Some (10 + c - 97)
  else None.

(** The number read, or [None] for an overflow that is noticed, and what follows. *)
Fixpoint convert (b ret : Z) (p : str) : option Z * str :=
  match p with
  | [] => (Some ret, [])
  | c :: q =>
      match digit_of b c with
      | None => (Some ret, p)
      | Some digit =>
          let pret := ret in
          let ret := u64 (u64 (ret * b) + digit) in
          if ret <? pret then (None, p) else convert b ret q
      end
  end.

(** The result, what [errno] is set to and the offset stored in [*endptr], if they are. *)
Record strto := Strto { st_value : Z; st_errno : option Z; st_end : option nat }.

Definition malloc_strtoumax (nptr : str) (base : Z) : strto :=
  if (base <? 0) || (base =? 1) || (36 <? base) then Strto UINTMAX_MAX (Some EINVAL) None
  else
    let '(neg, ns) := get_sign (skip_space nptr) in
    let '(b, p) := get_prefix base ns in
    let b := if b =? 0 then 10 else b in
    match convert b 0 p with
    | (None, _) => Strto UINTMAX_MAX (Some ERANGE) None
    | (Some ret, p) =>
        Strto (if neg then u64 (- ret) else ret) None
          (Some (if (length p =? length ns)%nat then O else (length nptr - length p)%nat))
    end.

(** ** Printing *)

Definition U2S_BUFSIZE : nat := 65.

(** ["0123456789abcdefghijklmnopqrstuvwxyz"[d]], or its upper case. *)
Definition digit_char (uppercase : bool) (d : Z) : Z :=
  if d <? 10 then 48 + d else if uppercase then 55 + d else 87 + d.

(** The last digit and what is left. *)
Definition last_digit (base x : Z) : Z * Z :=
  if base =? 16 then (Z.land x 0xf, Z.shiftr x 4) else (x mod base, x / base).

(** [i] is the index before the decrement, [acc] what the buffer holds from there. *)
Fixpoint u2s_loop (i : nat) (base : Z) (uppercase : bool) (x : Z) (acc : str) : option str :=
  match i with
  | O => None
  | S i =>
      let '(d, x) := last_digit base x in
      let acc := digit_char uppercase d :: acc in
      if 0 <? x then u2s_loop i base uppercase x acc else Some acc
  end.

Definition u2s (x base : Z) (uppercase : bool) : option str :=
  if (base =? 10) || (base =? 16) then u2s_loop (U2S_BUFSIZE - 1) base (uppercase && (base =? 16)) x []
  else assert! (2 <=? base) && (base <=? 36); u2s_loop (U2S_BUFSIZE - 1) base uppercase x [].

(** [s--; *s = c]: the number ends before the last byte of its buffer, so there is room for [U2S_BUFSIZE - 1] characters in front. *)
Definition put_front (c : Z) (s : str) : option str := assert! (length s <? U2S_BUFSIZE - 1)%nat; Some (c :: s).

(** [sign] is ['-'], [' '] (32) or ['+']; the negation of the least number wraps around. *)
Definition d2s (x sign : Z) : option str :=
  let neg := x <? 0 in
  s ← u2s (if neg then u64 (- x) else x) 10 false;
  let sign := if neg then 45 else sign in
  if sign =? 45 then if neg then put_front sign s else Some s
  else assert! (sign =? 32) || (sign =? 43); put_front sign s.

Definition o2s (x : Z) (alt_form : bool) : option str :=
  s ← u2s x 8 false;
  if alt_form && negb (default 0 (head s) =? 48) then put_front 48 s else Some s.

Definition x2s (x : Z) (alt_form uppercase : bool) : option str :=
  s ← u2s x 16 uppercase;
  if alt_form then s ← put_front (if uppercase then 88 else 120) s; put_front 48 s else Some s.

(** ** Digits *)

Definition digits_value (b ret : Z) (ds : list Z) : Z := fold_left (λ r d, r * b + d) ds ret.
Definition is_digits (b : Z) (ds : list Z) : Prop := Forall (λ d, 0 ≤ d < b) ds.
Definition print_digits (up : bool) (ds : list Z) : str := digit_char up <$> ds.

Lemma digit_of_char b d up : b ≤ 36 → 0 ≤ d < b → digit_of b (digit_char up d) = Some d.
Proof.
  intros Hb Hd. assert (Hc : d < 10 ∧ digit_char up d = 48 + d ∨ 10 ≤ d ∧ digit_char up d = (if up then 55 else 87) + d).
  { unfold digit_char. destruct up, (Z.ltb_spec d 10); lia. }
  unfold digit_of. destruct Hc as [[? ->]|[? ->]].
  - rewrite (proj2 (Z.leb_le 48 (48 + d))), (proj2 (Z.leb_le (48 + d) 57)), (proj2 (Z.ltb_lt (48 + d - 48) b)) by lia. cbn [andb]. f_equal. lia.
  - destruct up.
    + rewrite (proj2 (Z.leb_gt (55 + d) 57)), andb_false_r by lia. cbn [andb].
      rewrite (proj2 (Z.leb_le 65 (55 + d))), (proj2 (Z.leb_le (55 + d) 90)), (proj2 (Z.ltb_lt (10 + (55 + d) - 65) b)) by lia. cbn [andb]. f_equal. lia.
    + rewrite (proj2 (Z.leb_gt (87 + d) 57)), (proj2 (Z.leb_gt (87 + d) 90)), !andb_false_r by lia. cbn [andb].
      rewrite (proj2 (Z.leb_le 97 (87 + d))), (proj2 (Z.leb_le (87 + d) 122)), (proj2 (Z.ltb_lt (10 + (87 + d) - 97) b)) by lia. cbn [andb]. f_equal. lia.
Qed.

Lemma digits_value_ge b ret ds : 1 ≤ b → 0 ≤ ret → is_digits b ds → ret ≤ digits_value b ret ds.
Proof.
  intros Hb. revert ret. induction ds as [|d ds IH]; intros ret Hr Hd; [done|]. apply Forall_cons in Hd as [Hd Hds].
  cbn [digits_value fold_left]. specialize (IH (ret * b + d) ltac:(nia) Hds). unfold digits_value in IH. nia.
Qed.

Lemma digits_value_app b ret ds ds' : digits_value b ret (ds ++ ds') = digits_value b (digits_value b ret ds) ds'.
Proof. apply fold_left_app. Qed.

(** Reading digits whose number fits. *)
Lemma convert_digits b ret ds up t :
  2 ≤ b ≤ 36 → 0 ≤ ret → is_digits b ds → digits_value b ret ds < 2 ^ 64 →
  convert b ret (print_digits up ds ++ t) = convert b (digits_value b ret ds) t.
Proof.
  intros Hb. revert ret. induction ds as [|d ds IH]; intros ret Hr Hd Hv; [done|]. apply Forall_cons in Hd as [Hd Hds].
  cbn [print_digits fmap list_fmap app convert]. rewrite digit_of_char by lia.
  pose proof (digits_value_ge b (ret * b + d) ds ltac:(lia) ltac:(nia) Hds) as Hge. change (digits_value b ret (d :: ds)) with (digits_value b (ret * b + d) ds) in *.
  rewrite (u64_small (ret * b)) by (split; nia). rewrite u64_small by (split; nia). rewrite (proj2 (Z.ltb_ge _ _)) by nia. apply IH; [nia|done|done].
Qed.

(** Nothing that reads as a digit in any base. *)
Definition no_digit (t : str) : Prop := match t with [] => True | c :: _ => digit_of 36 c = None end.

Lemma digit_of_mono b c : b ≤ 36 → digit_of 36 c = None → digit_of b c = None.
Proof.
  intros Hb. unfold digit_of. assert (Hm : ∀ x, (x <? 36) = false → (x <? b) = false) by (intros x; rewrite !Z.ltb_ge; lia).
  repeat (case_match; [done|]). intros _.
  repeat match goal with H : ?p && (?x <? 36) = false |- _ => assert (p && (x <? b) = false) as -> by (destruct p; [by apply Hm|done]); clear H end. done.
Qed.

Lemma convert_stop b ret t : b ≤ 36 → no_digit t → convert b ret t = (Some ret, t).
Proof. intros Hb Ht. destruct t as [|c t]; [done|]. cbn [convert]. by rewrite (digit_of_mono b c Hb Ht). Qed.

(** What [u2s] writes: the digits of the number, without leading zeros. *)
Definition decimal_of (b x : Z) (ds : list Z) : Prop :=
  is_digits b ds ∧ digits_value b 0 ds = x ∧ ∃ d ds', ds = d :: ds' ∧ (d = 0 → x = 0 ∧ ds' = []).

Lemma last_digit_spec b x : 2 ≤ b → 0 ≤ x → last_digit b x = (x mod b, x / b).
Proof.
  intros Hb Hx. unfold last_digit. destruct (Z.eqb_spec b 16) as [->|]; [|done].
  f_equal; [apply (Z.land_ones x 4); lia|by rewrite Z.shiftr_div_pow2 by lia].
Qed.

Lemma u2s_loop_ok i b up x acc :
  2 ≤ b → (0 < i)%nat → 0 ≤ x < b ^ Z.of_nat i →
  ∃ ds, u2s_loop i b up x acc = Some (print_digits up ds ++ acc) ∧ decimal_of b x ds ∧ (length ds ≤ i)%nat.
Proof.
  intros Hb. revert x acc. induction i as [|i IH]; intros x acc Hi Hx; [lia|]. cbn [u2s_loop]. rewrite last_digit_spec by lia.
  pose proof (Z.mod_pos_bound x b ltac:(lia)) as Hm. pose proof (Z.div_mod x b ltac:(lia)) as Hdm. pose proof (Z.div_pos x b ltac:(lia) ltac:(lia)) as Hq.
  destruct (Z.ltb_spec 0 (x / b)) as [Hpos|Hz].
  - assert (Hlt : x / b < b ^ Z.of_nat i) by (apply Z.div_lt_upper_bound; [lia|]; rewrite Nat2Z.inj_succ, Z.pow_succ_r in Hx by lia; lia).
    destruct i as [|i']; [cbn in Hlt; lia|].
    destruct (IH (x / b) (digit_char up (x mod b) :: acc) ltac:(lia) ltac:(lia)) as (ds & E & (Hds & Hv & d & ds' & -> & Hnz) & Hlen).
    exists ((d :: ds') ++ [x mod b]). unfold decimal_of. split_and!; [|apply Forall_app_2; [done|by apply Forall_singleton]|rewrite digits_value_app, Hv; cbn; lia| |rewrite length_app; cbn in *; lia].
    + rewrite E. unfold print_digits. by rewrite fmap_app, <- app_assoc.
    + exists d, (ds' ++ [x mod b]). split; [done|]. intros Hd. destruct (Hnz Hd). lia.
  - exists [x mod b]. unfold decimal_of. split_and!; [done|by apply Forall_singleton|cbn; nia| |cbn; lia]. exists (x mod b), []. split; [done|]. intros. split; [nia|done].
Qed.

Lemma pow_64 b : 2 ≤ b → 2 ^ 64 ≤ b ^ 64.
Proof. intros Hb. apply Z.pow_le_mono_l. lia. Qed.

(** The buffer is large enough for every base. *)
Lemma u2s_ok x b up :
  2 ≤ b ≤ 36 → is_u64 x → ∃ up' ds, u2s x b up = Some (print_digits up' ds) ∧ decimal_of b x ds ∧ (length ds ≤ 64)%nat ∧ (up = false → up' = false).
Proof.
  intros Hb [Hx1 Hx2]. pose proof (pow_64 b ltac:(lia)). change (2 ^ 64) with 18446744073709551616 in *. unfold u2s. destruct ((b =? 10) || (b =? 16)).
  - exists (up && (b =? 16)). destruct (u2s_loop_ok 64 b (up && (b =? 16)) x []) as (ds & E & ? & ?); [lia..|change (Z.of_nat 64) with 64; lia|].
    exists ds. rewrite app_nil_r in E. split_and!; [done|done|done|by intros ->].
  - exists up. rewrite (proj2 (Z.leb_le 2 b)), (proj2 (Z.leb_le b 36)) by lia. cbn [andb assert_ mbind option_bind].
    destruct (u2s_loop_ok 64 b up x []) as (ds & E & ? & ?); [lia..|change (Z.of_nat 64) with 64; lia|]. exists ds. rewrite app_nil_r in E. by split_and!.
Qed.

Lemma u2s_hex x up : is_u64 x → ∃ ds, u2s x 16 up = Some (print_digits up ds) ∧ decimal_of 16 x ds.
Proof.
  intros [Hx1 Hx2]. destruct (u2s_loop_ok 64 16 up x []) as (ds & E & Hd & _); [lia..|pose proof (pow_64 16); change (Z.of_nat 64) with 64; lia|]. exists ds. split; [|done].
  unfold u2s. cbn [Z.eqb Pos.eqb orb]. rewrite andb_true_r. by rewrite app_nil_r in E.
Qed.

(** ** Reading back *)

Lemma digit_char_range up d : 0 ≤ d < 36 → 48 ≤ digit_char up d ∧ (digit_char up d = 48 → d = 0).
Proof. intros Hd. unfold digit_char. destruct (Z.ltb_spec d 10), up; lia. Qed.

Lemma print_cons up d ds t : print_digits up (d :: ds) ++ t = digit_char up d :: print_digits up ds ++ t.
Proof. done. Qed.

(** No blank and no sign in front. *)
Lemma no_sign c q : 48 ≤ c → skip_space (c :: q) = c :: q ∧ get_sign (c :: q) = (false, c :: q).
Proof.
  intros Hc. unfold skip_space, get_sign, is_space. rewrite (proj2 (Z.leb_gt c 13)), (proj2 (Z.eqb_neq c 32)), andb_false_r, (proj2 (Z.eqb_neq c 45)), (proj2 (Z.eqb_neq c 43)) by lia.
  by split.
Qed.

Lemma no_digit_prefix c : digit_of 36 c = None → is_octal c = false ∧ c ≠ 120.
Proof.
  unfold digit_of, is_octal. intros E. split; [|intros ->; vm_compute in E; discriminate E].
  destruct (Z.leb_spec 48 c), (Z.leb_spec c 55); try done. rewrite (proj2 (Z.leb_le c 57)), (proj2 (Z.ltb_lt (c - 48) 36)) in E by lia. done.
Qed.

(** Digits without a leading zero have no prefix. *)
Lemma no_prefix base b x ds up t :
  b ≤ 36 → decimal_of b x ds → no_digit t → get_prefix base (print_digits up ds ++ t) = (base, print_digits up ds ++ t).
Proof.
  intros Hb (Hds & _ & d & ds' & -> & Hz) Ht. apply Forall_cons in Hds as [Hd Hds]. destruct (digit_char_range up d ltac:(lia)) as [_ H0].
  rewrite print_cons. unfold get_prefix. destruct (Z.eqb_spec (digit_char up d) 48) as [E|E]; [|by destruct (print_digits up ds' ++ t)].
  destruct (Hz (H0 E)) as [_ ->]. change (print_digits up [] ++ t) with t. destruct t as [|c t]; [done|]. cbn [no_digit] in Ht.
  destruct (no_digit_prefix c Ht) as [-> Hx]. by rewrite (proj2 (Z.eqb_neq c 120) Hx).
Qed.

(** The text [p] behind the sign, when a prefix of [k] characters and digits of the base [b] follow. *)
Definition reads_as (base b : Z) (p : str) (k : nat) (ds : list Z) (up : bool) (t : str) : Prop :=
  get_prefix base p = (b, print_digits up ds ++ t) ∧ length p = (k + length ds + length t)%nat.

Lemma read_number (neg : bool) (lead : str) base b b' p k ds up t x :
  0 ≤ base ≤ 36 → base ≠ 1 → b' = (if b =? 0 then 10 else b) → 2 ≤ b' ≤ 36 → is_u64 x →
  get_sign (skip_space (lead ++ p)) = (neg, p) → reads_as base b p k ds up t → decimal_of b' x ds → no_digit t →
  malloc_strtoumax (lead ++ p) base = Strto (if neg then u64 (- x) else x) None (Some (length lead + k + length ds)%nat).
Proof.
  intros Hbase H1 Eb Hb' [Hx0 Hx] Hsign [Hpre Hlen] (Hds & Hv & d & ds' & Eds & _) Ht. unfold malloc_strtoumax.
  rewrite (proj2 (Z.ltb_ge base 0)), (proj2 (Z.eqb_neq base 1)), (proj2 (Z.ltb_ge 36 base)) by lia. cbn [orb]. rewrite Hsign, Hpre, <- Eb.
  rewrite (convert_digits b' 0 ds up t) by (rewrite ?Hv; done || lia). rewrite Hv, (convert_stop b' x t) by (done || lia). f_equal. f_equal.
  rewrite length_app, Hlen, Eds. cbn [length]. destruct (Nat.eqb_spec (length t) (k + S (length ds') + length t)); lia.
Qed.

Lemma digits_head b x ds up t : b ≤ 36 → decimal_of b x ds → ∃ c q, print_digits up ds ++ t = c :: q ∧ 48 ≤ c.
Proof.
  intros Hb (Hds & _ & d & ds' & -> & _). apply Forall_cons in Hds as [Hd _]. exists (digit_char up d), (print_digits up ds' ++ t). split; [done|].
  apply digit_char_range. lia.
Qed.

Lemma read_digits base b x ds up t :
  2 ≤ b ≤ 36 → (base = b ∨ base = 0 ∧ b = 10) → is_u64 x → decimal_of b x ds → no_digit t →
  malloc_strtoumax (print_digits up ds ++ t) base = Strto x None (Some (length ds)).
Proof.
  intros Hb Hbase Hx Hd Ht. assert (Hb' : b = if base =? 0 then 10 else base) by (destruct Hbase as [->|[-> ->]]; [destruct (Z.eqb_spec b 0); lia|done]).
  apply (read_number false [] base base b (print_digits up ds ++ t) 0 ds up t x); [lia|lia|exact Hb'|done|done| |split; [by apply (no_prefix base b x); [lia|..]|by rewrite length_app; unfold print_digits; rewrite length_fmap]|done|done].
  destruct (digits_head b x ds up t ltac:(lia) Hd) as (c & q & E & Hc). rewrite app_nil_l, E. destruct (no_sign c q Hc) as [-> ->]. done.
Qed.

(** The prefixes that the alternative forms print. *)
Lemma octal_prefix x ds t : x ≠ 0 → decimal_of 8 x ds → reads_as 0 8 (48 :: print_digits false ds ++ t) 1 ds false t.
Proof.
  intros Hx (Hds & _ & d & ds' & -> & _). apply Forall_cons in Hds as [Hd _]. split; [|unfold print_digits; cbn; by rewrite length_app, length_fmap].
  cbn. assert (Ho : is_octal (digit_char false d) = true) by (unfold is_octal, digit_char; rewrite (proj2 (Z.ltb_lt d 10)) by lia; apply andb_true_iff; rewrite !Z.leb_le; lia).
  by rewrite Ho.
Qed.

Lemma hex_prefix x ds t : decimal_of 16 x ds → reads_as 0 16 (48 :: 120 :: print_digits false ds ++ t) 2 ds false t.
Proof.
  intros (Hds & _ & d & ds' & -> & _). apply Forall_cons in Hds as [Hd _]. split; [|unfold print_digits; cbn; by rewrite length_app, length_fmap].
  cbn. assert (Ho : is_hex (digit_char false d) = true).
  { unfold is_hex, digit_char. destruct (Z.ltb_spec d 10); rewrite !orb_true_iff, !andb_true_iff, !Z.leb_le; lia. }
  by rewrite Ho.
Qed.

Lemma u2s_reads x base up t :
  is_u64 x → 2 ≤ base ≤ 36 → no_digit t →
  ∃ s, u2s x base up = Some s ∧ (length s ≤ 64)%nat ∧ malloc_strtoumax (s ++ t) base = Strto x None (Some (length s)).
Proof.
  intros Hx Hb Ht. destruct (u2s_ok x base up Hb Hx) as (up' & ds & E & Hd & Hl & _). exists (print_digits up' ds). split; [done|].
  unfold print_digits at 1 3. rewrite length_fmap. split; [done|]. apply (read_digits base base); [done|by left|done..].
Qed.

Lemma decimal_zero b x d ds : 1 ≤ b → decimal_of b x (d :: ds) → (x = 0 → d = 0 ∧ ds = []) ∧ (x ≠ 0 → d ≠ 0) ∧ 0 ≤ d < b.
Proof.
  intros Hb (Hds & Hv & d' & ds' & [= <- <-] & Hz). apply Forall_cons in Hds as [Hd Hds].
  pose proof (digits_value_ge b d ds Hb ltac:(lia) Hds) as Hge. change (digits_value b 0 (d :: ds)) with (digits_value b d ds) in Hv.
  split_and!; [|intros Hx Hd0; by destruct (Hz Hd0)|lia|lia]. intros ->. assert (d = 0) by lia. by destruct Hz.
Qed.

(** A number has no more digits than it needs. *)
Lemma digits_value_pow b ret ds : 1 ≤ b → 0 ≤ ret → is_digits b ds → ret * b ^ Z.of_nat (length ds) ≤ digits_value b ret ds.
Proof.
  intros Hb. revert ret. induction ds as [|d ds IH]; intros ret Hr Hd; [cbn; lia|]. apply Forall_cons in Hd as [Hd Hds]. cbn [length digits_value fold_left].
  specialize (IH (ret * b + d) ltac:(nia) Hds). unfold digits_value in IH. rewrite Nat2Z.inj_succ, Z.pow_succ_r by lia.
  pose proof (Z.pow_pos_nonneg b (Z.of_nat (length ds)) ltac:(lia) ltac:(lia)). nia.
Qed.

Lemma decimal_length b x ds k : 2 ≤ b → decimal_of b x ds → x < b ^ Z.of_nat k → (0 < k)%nat → (length ds ≤ k)%nat.
Proof.
  intros Hb (Hds & Hv & d & ds' & -> & Hz) Hx Hk. cbn [length]. destruct (decide (d = 0)) as [E0|Hd]; [destruct (Hz E0) as [_ ->]; cbn; lia|].
  apply Forall_cons in Hds as [Hd0 Hds]. pose proof (digits_value_pow b d ds' ltac:(lia) ltac:(lia) Hds) as Hp. change (digits_value b 0 (d :: ds')) with (digits_value b d ds') in Hv.
  assert (Hlt : b ^ Z.of_nat (length ds') < b ^ Z.of_nat k) by (pose proof (Z.pow_pos_nonneg b (Z.of_nat (length ds')) ltac:(lia) ltac:(lia)); nia).
  apply Z.pow_lt_mono_r_iff in Hlt; lia.
Qed.

Lemma u2s_short x b up k : 2 ≤ b ≤ 36 → is_u64 x → 2 ^ 64 ≤ b ^ Z.of_nat k → (0 < k)%nat →
  ∃ up' ds, u2s x b up = Some (print_digits up' ds) ∧ decimal_of b x ds ∧ (length (print_digits up' ds) ≤ k)%nat ∧ (up = false → up' = false).
Proof.
  intros Hb Hx Hk Hk0. destruct (u2s_ok x b up Hb Hx) as (up' & ds & E & Hd & _ & Hup). exists up', ds. split_and!; [done|done| |done].
  unfold print_digits. rewrite length_fmap. apply (decimal_length b x); [lia|exact Hd|unfold is_u64 in Hx; lia|done].
Qed.

Lemma put_front_ok c s : (length s < 64)%nat → put_front c s = Some (c :: s).
Proof. intros Hs. unfold put_front. replace (length s <? U2S_BUFSIZE - 1)%nat with true; [done|]. symmetry. apply Nat.ltb_lt. unfold U2S_BUFSIZE. lia. Qed.

(** Text that is printed within [k] characters and read back with the base [base] as [y]. *)
Definition reads_back (print : option str) (k : nat) (base y : Z) (t : str) : Prop :=
  ∃ s, print = Some s ∧ (length s ≤ k)%nat ∧ malloc_strtoumax (s ++ t) base = Strto y None (Some (length s)).

Lemma o2s_reads x t : is_u64 x → no_digit t → reads_back (o2s x true) 23 0 x t ∧ reads_back (o2s x false) 22 8 x t.
Proof.
  intros Hx Ht. destruct (u2s_short x 8 false 22 ltac:(lia) Hx ltac:(vm_compute; discriminate) ltac:(lia)) as (up & ds & E & Hd & Hl & Hup). rewrite (Hup eq_refl) in *.
  assert (Hlen : length (print_digits false ds) = length ds) by apply length_fmap. unfold reads_back, o2s. rewrite E. cbn [mbind option_bind andb]. split.
  2: { exists (print_digits false ds). rewrite Hlen in *. split_and!; [done|done|]. apply (read_digits 8 8); [lia|by left|done..]. }
  destruct ds as [|d ds]; [by destruct Hd as (_ & _ & ? & ? & ? & _)|]. destruct (decimal_zero 8 x d ds ltac:(lia) Hd) as (H0 & Hne & Hd8).
  destruct (digit_char_range false d ltac:(lia)) as [_ Hc]. change (default 0 (head (print_digits false (d :: ds)))) with (digit_char false d). destruct (decide (x = 0)) as [->|Hx0].
  - destruct (H0 eq_refl) as [-> ->]. exists [48]. split_and!; [done|cbn; lia|]. apply (read_digits 0 10 0 [0] false t); [lia|by right|done| |done].
    split; [by apply Forall_singleton|]. split; [done|]. by exists 0, [].
  - rewrite (proj2 (Z.eqb_neq (digit_char false d) 48)) by (intros Hq; by apply (Hne Hx0), Hc). cbn [negb]. rewrite put_front_ok by lia. exists (48 :: print_digits false (d :: ds)). split_and!; [done|cbn [length] in *; lia|].
    eapply eq_trans; [apply (read_number false [] 0 8 8 (48 :: print_digits false (d :: ds) ++ t) 1 (d :: ds) false t x); try done; [by apply (octal_prefix x)]|].
    cbn [length] in *. by rewrite Hlen.
Qed.

Lemma x2s_reads x up t : is_u64 x → no_digit t → reads_back (x2s x true false) 18 0 x t ∧ reads_back (x2s x false up) 16 16 x t.
Proof.
  intros Hx Ht. split.
  - destruct (u2s_short x 16 false 16 ltac:(lia) Hx ltac:(vm_compute; discriminate) ltac:(lia)) as (up' & ds & E & Hd & Hl & Hup). rewrite (Hup eq_refl) in *. unfold reads_back, x2s. rewrite E. cbn [mbind option_bind].
    rewrite put_front_ok by lia. cbn [mbind option_bind]. rewrite put_front_ok by (cbn [length]; lia).
    assert (Hlen : length (print_digits false ds) = length ds) by apply length_fmap. exists (48 :: 120 :: print_digits false ds). split_and!; [done|cbn [length]; lia|].
    eapply eq_trans; [apply (read_number false [] 0 16 16 (48 :: 120 :: print_digits false ds ++ t) 2 ds false t x); try done; [by apply (hex_prefix x)]|].
    cbn [length]. by rewrite Hlen.
  - destruct (u2s_short x 16 up 16 ltac:(lia) Hx ltac:(vm_compute; discriminate) ltac:(lia)) as (up' & ds & E & Hd & Hl & _). unfold reads_back, x2s. rewrite E. cbn [mbind option_bind].
    exists (print_digits up' ds). split_and!; [done|done|]. unfold print_digits at 2. rewrite length_fmap. apply (read_digits 16 16); [lia|by left|done..].
Qed.

(** A sign in front of digits. *)
Lemma read_signed (neg : bool) (lead : str) x ds up t :
  is_u64 x → decimal_of 10 x ds → no_digit t → (∀ p, get_sign (skip_space (lead ++ p)) = (neg, p) ∨ get_sign (skip_space (lead ++ p)) = get_sign (skip_space p) ∧ neg = false) →
  malloc_strtoumax ((lead ++ print_digits up ds) ++ t) 0 = Strto (if neg then u64 (- x) else x) None (Some (length (lead ++ print_digits up ds))).
Proof.
  intros Hx Hd Ht Hs. assert (Hlen : length (lead ++ print_digits up ds) = (length lead + 0 + length ds)%nat) by (rewrite length_app; unfold print_digits; rewrite length_fmap; lia).
  rewrite Hlen, <- app_assoc. apply (read_number neg lead 0 0 10 (print_digits up ds ++ t) 0 ds up t x); try done.
  - destruct (Hs (print_digits up ds ++ t)) as [E|[E ->]]; [exact E|]. rewrite E. destruct (digits_head 10 x ds up t ltac:(lia) Hd) as (c & q & Ec & Hc). rewrite Ec. destruct (no_sign c q Hc) as [-> ->]. done.
  - split; [by apply (no_prefix 0 10 x)|]. unfold print_digits. by rewrite length_app, length_fmap.
Qed.

Lemma d2s_reads x sign t : - 2 ^ 63 ≤ x < 2 ^ 63 → sign ∈ [45; 32; 43] → no_digit t → reads_back (d2s x sign) 21 0 (u64 x) t.
Proof.
  intros Hx Hsign Ht. unfold reads_back, d2s. destruct (Z.ltb_spec x 0) as [Hneg|Hpos].
  - assert (Hu : is_u64 (- x)) by (split; lia). rewrite (u64_small (- x) Hu).
    destruct (u2s_short (- x) 10 false 20 ltac:(lia) Hu ltac:(vm_compute; discriminate) ltac:(lia)) as (up & ds & E & Hd & Hl & _). rewrite E. cbn [mbind option_bind Z.eqb Pos.eqb]. rewrite put_front_ok by lia.
    exists (45 :: print_digits up ds). split_and!; [done|cbn [length]; lia|]. pose proof (read_signed true [45] (- x) ds up t Hu Hd Ht ltac:(by left)) as Er. by rewrite Z.opp_involutive in Er.
  - assert (Hu : is_u64 x) by (split; lia). rewrite (u64_small x Hu). destruct (u2s_short x 10 false 20 ltac:(lia) Hu ltac:(vm_compute; discriminate) ltac:(lia)) as (up & ds & E & Hd & Hl & _). rewrite E. cbn [mbind option_bind].
    rewrite !elem_of_cons, elem_of_nil in Hsign. destruct Hsign as [->|[->|[->|[]]]]; cbn [Z.eqb Pos.eqb orb assert_ mbind option_bind]; rewrite ?put_front_ok by lia.
    + exists (print_digits up ds). split_and!; [done|lia|]. exact (read_signed false [] x ds up t Hu Hd Ht ltac:(by right)).
    + exists (32 :: print_digits up ds). split_and!; [done|cbn [length]; lia|]. exact (read_signed false [32] x ds up t Hu Hd Ht ltac:(by right)).
    + exists (43 :: print_digits up ds). split_and!; [done|cbn [length]; lia|]. exact (read_signed false [43] x ds up t Hu Hd Ht ltac:(by left)).
Qed.

(** C31 Numbers are read back as they were printed: those of [u2s] in every
    base with that base; those of [o2s] and [x2s] with the base 8 and 16, and in the alternative
    form, for [x2s] in lower case, with the base that the prefix tells; those of [d2s] with any
    sign, modulo 2^64.  The end that is reported is the end of the number, whatever follows it.
    (The prefix that [x2s] prints in upper case is not read.)  The text fits into the buffers: at most
    64 characters for [u2s], 23 for [o2s], 18 for [x2s] and 21 for [d2s]. *)
Theorem number_roundtrip x y base uppercase sign t :
  is_u64 x → - 2 ^ 63 ≤ y < 2 ^ 63 → 2 ≤ base ≤ 36 → sign ∈ [45; 32; 43] → no_digit t →
  reads_back (u2s x base uppercase) 64 base x t ∧
  reads_back (o2s x true) 23 0 x t ∧ reads_back (o2s x false) 22 8 x t ∧
  reads_back (x2s x true false) 18 0 x t ∧ reads_back (x2s x false uppercase) 16 16 x t ∧
  reads_back (d2s y sign) 21 0 (u64 y) t.
Proof.
  intros Hx Hy Hb Hs Ht. destruct (o2s_reads x t Hx Ht), (x2s_reads x uppercase t Hx Ht). split_and!; [by apply u2s_reads|done..|by apply d2s_reads].
Qed.

(** The number 2^63 with a comma behind it. *)
Lemma number_roundtrip_witness :
  is_u64 (2 ^ 63) ∧ ∃ s, u2s (2 ^ 63) 2 false = Some s ∧ malloc_strtoumax (s ++ [44; 48]) 2 = Strto (2 ^ 63) None (Some (length s)).
Proof.
  assert (Hx : is_u64 (2 ^ 63)) by (unfold is_u64; lia). assert (Hb : 2 ≤ 2 ≤ 36) by lia. split; [exact Hx|].
  assert (Hy : - 2 ^ 63 ≤ -5 < 2 ^ 63) by lia. assert (Hs : 43 ∈ [45; 32; 43]) by (apply (bool_decide_unpack _); reflexivity).
  destruct (number_roundtrip (2 ^ 63) (-5) 2 false 43 [44; 48] Hx Hy Hb Hs eq_refl) as [(s & E & _ & Er) _]. exists s. split; [exact E|exact Er].
Defined.

(** ** Overflow *)

(** A failure with [ERANGE] is an overflow, and a success is right modulo 2^64. *)
Lemma convert_error b ret p q :
  2 ≤ b ≤ 36 → is_u64 ret → convert b ret p = (None, q) → ∃ ds, is_digits b ds ∧ 2 ^ 64 ≤ digits_value b ret ds.
Proof.
  intros Hb. revert ret. induction p as [|c p IH]; intros ret [Hr1 Hr2]; [done|]. cbn [convert]. destruct (digit_of b c) as [d|] eqn:Ed; [|done].
  assert (Hd : 0 ≤ d < b).
  { revert Ed. unfold digit_of. repeat case_match; intros [= <-]; repeat match goal with H : _ && _ = true |- _ => apply andb_true_iff in H as [? ?] end; lia. }
  assert (Hu : u64 (u64 (ret * b) + d) = u64 (ret * b + d)) by (unfold u64; by rewrite Zplus_mod_idemp_l). rewrite Hu.
  destruct (Z_lt_le_dec (ret * b + d) (2 ^ 64)) as [Hlt|Hge].
  - rewrite u64_small by (split; nia). rewrite (proj2 (Z.ltb_ge _ _)) by nia. intros E. destruct (IH (ret * b + d) ltac:(split; nia) E) as (ds & Hds & Hv).
    exists (d :: ds). split; [by constructor|exact Hv].
  - intros _. exists [d]. split; [by apply Forall_singleton|exact Hge].
Qed.

(** Not every overflow is noticed: thirty quintillion is read as another number. *)
Example strtoumax_overflow_unnoticed :
  malloc_strtoumax (51 :: replicate 19 48) 10 = Strto (30000000000000000000 - 2 ^ 64) None (Some 20%nat).
Proof. vm_compute. reflexivity. Qed.

(** The prefix that [x2s] prints in upper case is not read. *)
Example upper_prefix_unread :
  x2s 255 true true = Some [48; 88; 70; 70] ∧ malloc_strtoumax [48; 88; 70; 70] 0 = Strto 0 None (Some 1%nat).
Proof. vm_compute. split; reflexivity. Qed.
