(* ===== verification/Conf.v ===== *)
(** * Options (jemalloc.c)

    [malloc_conf_init] reads option strings of the form
    ["key:value,key:value"] from three places.  [malloc_conf_next] splits off one
    pair; the chain of [CONF_HANDLE_*] macros compares the key with the names of
    the options, reads the value and stores it, or prints a message.  The
    pointers into the option string are the rests of the list they point to, so
    that the values are read with all that follows them. *)

From Stdlib Require Ascii String.
From S2P Require Import Prelude Util.
Import String.StringSyntax.

Fixpoint bytes (s : String.string) : str :=
  match s with
  | String.EmptyString => []
  | String.String c s => Z.of_N (Ascii.N_of_ascii c) :: bytes s
  end.

Arguments bytes _%_string_scope.

Record options := Options {
  opt_abort : bool;
  opt_lg_chunk : Z;
  opt_narenas : Z;
  opt_lg_dirty_mult : Z;
  opt_stats_print : bool;
  opt_junk : bool;
  opt_quarantine : Z;
  opt_redzone : bool;
  opt_zero : bool;
  opt_tcache : bool;
  opt_lg_tcache_max : Z
}.

Definition set_abort b o := Options b (opt_lg_chunk o) (opt_narenas o) (opt_lg_dirty_mult o) (opt_stats_print o) (opt_junk o) (opt_quarantine o) (opt_redzone o) (opt_zero o) (opt_tcache o) (opt_lg_tcache_max o).
Definition set_lg_chunk x o := Options (opt_abort o) x (opt_narenas o) (opt_lg_dirty_mult o) (opt_stats_print o) (opt_junk o) (opt_quarantine o) (opt_redzone o) (opt_zero o) (opt_tcache o) (opt_lg_tcache_max o).
Definition set_narenas x o := Options (opt_abort o) (opt_lg_chunk o) x (opt_lg_dirty_mult o) (opt_stats_print o) (opt_junk o) (opt_quarantine o) (opt_redzone o) (opt_zero o) (opt_tcache o) (opt_lg_tcache_max o).
Definition set_lg_dirty_mult x o := Options (opt_abort o) (opt_lg_chunk o) (opt_narenas o) x (opt_stats_print o) (opt_junk o) (opt_quarantine o) (opt_redzone o) (opt_zero o) (opt_tcache o) (opt_lg_tcache_max o).
Definition set_stats_print b o := Options (opt_abort o) (opt_lg_chunk o) (opt_narenas o) (opt_lg_dirty_mult o) b (opt_junk o) (opt_quarantine o) (opt_redzone o) (opt_zero o) (opt_tcache o) (opt_lg_tcache_max o).
Definition set_junk b o := Options (opt_abort o) (opt_lg_chunk o) (opt_narenas o) (opt_lg_dirty_mult o) (opt_stats_print o) b (opt_quarantine o) (opt_redzone o) (opt_zero o) (opt_tcache o) (opt_lg_tcache_max o).
Definition set_quarantine x o := Options (opt_abort o) (opt_lg_chunk o) (opt_narenas o) (opt_lg_dirty_mult o) (opt_stats_print o) (opt_junk o) x (opt_redzone o) (opt_zero o) (opt_tcache o) (opt_lg_tcache_max o).
Definition set_redzone b o := Options (opt_abort o) (opt_lg_chunk o) (opt_narenas o) (opt_lg_dirty_mult o) (opt_stats_print o) (opt_junk o) (opt_quarantine o) b (opt_zero o) (opt_tcache o) (opt_lg_tcache_max o).
Definition set_zero b o := Options (opt_abort o) (opt_lg_chunk o) (opt_narenas o) (opt_lg_dirty_mult o) (opt_stats_print o) (opt_junk o) (opt_quarantine o) (opt_redzone o) b (opt_tcache o) (opt_lg_tcache_max o).
Definition set_tcache b o := Options (opt_abort o) (opt_lg_chunk o) (opt_narenas o) (opt_lg_dirty_mult o) (opt_stats_print o) (opt_junk o) (opt_quarantine o) (opt_redzone o) (opt_zero o) b (opt_lg_tcache_max o).
Definition set_lg_tcache_max x o := Options (opt_abort o) (opt_lg_chunk o) (opt_narenas o) (opt_lg_dirty_mult o) (opt_stats_print o) (opt_junk o) (opt_quarantine o) (opt_redzone o) (opt_zero o) (opt_tcache o) x.

(** What the program starts with. *)
Definition default_options : options := Options false 24 0 5 false false 0 false false true 15.

(** What is written to the standard error output. *)
Inductive message :=
  | EndsWithKey
  | EndsWithComma
  | Malformed
  | InvalidValue (k v : str)
  | OutOfRange (k v : str)
  | InvalidPair (k v : str).

Record conf := Conf { opts : options; log : list message }.
Abbreviation MC := (M conf).

Definition malloc_write (m : message) : MC unit := modify (λ c, Conf (opts c) (log c ++ [m])).
Definition set_opt (f : options → options) : MC unit := modify (λ c, Conf (f (opts c)) (log c)).

(** ** [malloc_conf_next] *)

(** Letters, digits and the underscore. *)
Definition key_char (c : Z) : bool :=
  ((65 <=? c) && (c <=? 90)) || ((97 <=? c) && (c <=? 122)) || ((48 <=? c) && (c <=? 57)) || (c =? 95).

(** The first loop: the length of the key and what follows the colon (58). *)
Inductive key_scan := KeyEnd (n : nat) | KeyBad | KeyOk (klen : nat) (v : str).

Fixpoint scan_key (p : str) (n : nat) : key_scan :=
  match p with
  | [] => KeyEnd n
  | c :: q => if key_char c then scan_key q (S n) else if c =? 58 then KeyOk n q else KeyBad
  end.

(** The second loop: the length of the value, what follows the comma (44), and whether nothing does. *)
Fixpoint scan_value (p : str) (n : nat) : nat * str * bool :=
  match p with
  | [] => (n, [], false)
  | c :: q => if c =? 44 then (n, q, bool_decide (q = [])) else scan_value q (S n)
  end.

(** Key, length, value, length, and the rest of the options; [None] for [true]. *)
Definition malloc_conf_next (p : str) : MC (option (str * nat * str * nat * str)) :=
  match scan_key p 0 with
  | KeyEnd n => (if (n =? 0)%nat then mret tt else malloc_write EndsWithKey);; mret None
  | KeyBad => malloc_write Malformed;; mret None
  | KeyOk klen v =>
      let '(vlen, rest, comma) := scan_value v 0 in
      (if comma : bool then malloc_write EndsWithComma else mret tt);;
      mret (Some (p, klen, v, vlen, rest))
  end.

(** ** The options *)

(** [strncmp(a, b, n) == 0]. *)
Fixpoint strncmp_eq (a b : str) (n : nat) : bool :=
  match n with
  | O => true
  | S n =>
      match a, b with
      | [], [] => true
      | x :: a, y :: b => (x =? y) && strncmp_eq a b n
      | _, _ => false
      end
  end.

(** [strtol] of the C library, with base 0: [LONG_MAX] or [LONG_MIN] and [ERANGE] when the number does not fit. *)
Fixpoint span_digits (b : Z) (p : str) : list Z * str :=
  match p with
  | [] => ([], [])
  | c :: q =>
      match digit_of b c with
      | None => ([], p)
      | Some d => let '(ds, r) := span_digits b q in (d :: ds, r)
      end
  end.

Definition strtol_prefix (p : str) : Z * str :=
  match p with
  | c0 :: q =>
      if c0 =? 48 then
        match q with
        | c1 :: ((c2 :: _) as r) => if ((c1 =? 120) || (c1 =? 88)) && is_hex c2 then (16, r) else (8, p)
        | _ => (8, p)
        end
      else (10, p)
  | [] => (10, p)
  end.

Definition strtol (nptr : str) : strto :=
  let '(neg, ns) := get_sign (skip_space nptr) in
  let '(b, p) := strtol_prefix ns in
  let '(ds, r) := span_digits b p in
  let x := if neg : bool then - digits_value b 0 ds else digits_value b 0 ds in
  let end_ := Some (if decide (ds = []) then O else (length nptr - length r)%nat) in
  if x <? - 2 ^ 63 then Strto (- 2 ^ 63) (Some ERANGE) end_
  else if 2 ^ 63 <=? x then Strto (2 ^ 63 - 1) (Some ERANGE) end_
  else Strto x None end_.

Section handle.
Context (k : str) (klen : nat) (v : str) (vlen : nat).

Definition key_is (n : str) : bool := (length n =? klen)%nat && strncmp_eq n k klen.
Definition value_is (n : str) : bool := strncmp_eq n v vlen && (vlen =? length n)%nat.
Definition malloc_conf_error (m : str → str → message) : MC unit := malloc_write (m (take klen k) (take vlen v)).

Definition conf_handle_bool (n : str) (set : bool → options → options) : MC bool :=
  if key_is n then
    (if value_is (bytes "true") then set_opt (set true)
     else if value_is (bytes "false") then set_opt (set false)
     else malloc_conf_error InvalidValue);;
    mret true
  else mret false.

(** [min] and [max] bound what [strto] reads. *)
Definition conf_handle_number (read : str → strto) (n : str) (set : Z → options → options) (min max : Z) : MC bool :=
  if key_is n then
    let r := read v in
    (if bool_decide (is_Some (st_errno r)) || negb (bool_decide (st_end r = Some vlen)) then malloc_conf_error InvalidValue
     else if (st_value r <? min) || (max <? st_value r) then malloc_conf_error OutOfRange
     else set_opt (set (st_value r)));;
    mret true
  else mret false.

Definition conf_handle_size_t := conf_handle_number (λ v, malloc_strtoumax v 0).
Definition conf_handle_ssize_t := conf_handle_number strtol.

Definition SIZE_T_MAX : Z := 2 ^ 64 - 1.

(** The options of this configuration, in the order of the code. *)
Definition conf_handlers : list (MC bool) := [
  conf_handle_bool (bytes "abort") set_abort;
  conf_handle_size_t (bytes "lg_chunk") set_lg_chunk (13 + 2) 63;
  conf_handle_size_t (bytes "narenas") set_narenas 1 SIZE_T_MAX;
  conf_handle_ssize_t (bytes "lg_dirty_mult") set_lg_dirty_mult (-1) 63;
  conf_handle_bool (bytes "stats_print") set_stats_print;
  conf_handle_bool (bytes "junk") set_junk;
  conf_handle_size_t (bytes "quarantine") set_quarantine 0 SIZE_T_MAX;
  conf_handle_bool (bytes "redzone") set_redzone;
  conf_handle_bool (bytes "zero") set_zero;
  conf_handle_bool (bytes "tcache") set_tcache;
  conf_handle_ssize_t (bytes "lg_tcache_max") set_lg_tcache_max (-1) 63
].

(** The first handler that hits ends the chain. *)
Fixpoint first_hit (hs : list (MC bool)) : MC bool :=
  match hs with
  | [] => mret false
  | h :: hs => hit ← h; if hit : bool then mret true else first_hit hs
  end.

Definition conf_handle : MC unit :=
  hit ← first_hit conf_handlers;
  if hit : bool then mret tt else malloc_conf_error InvalidPair.
End handle.

(** ** [malloc_conf_init] *)

(** Every pair takes at least one character, so the length of the options bounds the loop. *)
Fixpoint conf_loop (fuel : nat) (p : str) : MC unit :=
  match p with
  | [] => mret tt
  | _ :: _ =>
      match fuel with
      | O => lift None
      | S fuel =>
          r ← malloc_conf_next p;
          match r with
          | None => mret tt
          | Some (k, klen, v, vlen, rest) => conf_handle k klen v vlen;; conf_loop fuel rest
          end
      end
  end.

Definition conf_source (s : option str) : MC unit := let p := default [] s in conf_loop (length p) p.

(** [je_malloc_conf], the link [/etc/malloc.conf] and the variable [MALLOC_CONF]. *)
Definition malloc_conf_init (je_malloc_conf link env : option str) : MC unit :=
  conf_source je_malloc_conf;; conf_source link;; conf_source env.

(** ** The loop ends, and the options stay in range *)

Lemma scan_key_length p n klen v : scan_key p n = KeyOk klen v → (length v < length p)%nat.
Proof.
  revert n. induction p as [|c p IH]; intros n; [done|]. cbn [scan_key length]. destruct (key_char c); [intros E%IH; lia|].
  destruct (c =? 58); [|done]. intros [= _ <-]. lia.
Qed.

Lemma scan_value_length p n : (length (scan_value p n).1.2 ≤ length p)%nat.
Proof.
  revert n. induction p as [|c p IH]; intros n; [done|]. cbn [scan_value length]. destruct (c =? 44); [cbn; lia|]. specialize (IH (S n)). lia.
Qed.

Lemma convert_u64 b ret p r q : is_u64 ret → convert b ret p = (Some r, q) → is_u64 r.
Proof.
  revert ret. induction p as [|c p IH]; intros ret Hr; cbn [convert]; [by intros [= <- _]|].
  destruct (digit_of b c); [|by intros [= <- _]]. case_match; [done|]. apply IH, u64_range.
Qed.

Lemma strtoumax_range v base : is_u64 (st_value (malloc_strtoumax v base)).
Proof.
  unfold malloc_strtoumax. destruct (_ || _ || _); [done|]. destruct (get_sign _) as [neg ns]. destruct (get_prefix base ns) as [b p].
  destruct (convert _ 0 p) as [[r|] q] eqn:E; cbn; [|done]. destruct neg; [apply u64_range|]. eapply convert_u64; [|exact E]. done.
Qed.

Record options_ok (o : options) : Prop := {
  ok_lg_chunk : 15 ≤ opt_lg_chunk o ≤ 63;
  ok_narenas : is_u64 (opt_narenas o);
  ok_lg_dirty_mult : -1 ≤ opt_lg_dirty_mult o ≤ 63;
  ok_quarantine : is_u64 (opt_quarantine o);
  ok_lg_tcache_max : -1 ≤ opt_lg_tcache_max o ≤ 63
}.

(** A step that keeps the options in range and always returns. *)
Definition keeps_ok {A} (m : MC A) : Prop := ∀ c, options_ok (opts c) → wp m c (λ _ c', options_ok (opts c')).

Lemma keeps_ret {A} (x : A) : keeps_ok (mret x).
Proof. intros c Hc. by apply wp_ret. Qed.

Lemma keeps_bind {A B} (m : MC A) (f : A → MC B) : keeps_ok m → (∀ x, keeps_ok (f x)) → keeps_ok (m ≫= f).
Proof. intros Hm Hf c Hc. apply wp_bind. eapply wp_mono; [by apply Hm|]. intros x c' Hc'. by apply Hf. Qed.

Lemma keeps_write m : keeps_ok (malloc_write m).
Proof. intros c Hc. by apply wp_modify. Qed.

Lemma keeps_set f : (∀ o, options_ok o → options_ok (f o)) → keeps_ok (set_opt f).
Proof. intros Hf c Hc. apply wp_modify. by apply Hf. Qed.

Create HintDb conf.
#[local] Hint Resolve keeps_ret keeps_write : conf.

Lemma keeps_handle_bool k klen v vlen n set :
  (∀ b o, options_ok o → options_ok (set b o)) → keeps_ok (conf_handle_bool k klen v vlen n set).
Proof.
  intros Hs. unfold conf_handle_bool, malloc_conf_error. destruct (key_is _ _ _); [|auto with conf].
  apply keeps_bind; [|auto with conf]. repeat case_match; auto using keeps_set with conf.
Qed.

Lemma keeps_handle_number k klen v vlen read n set min max :
  (∀ o, min ≤ st_value (read v) ≤ max → options_ok o → options_ok (set (st_value (read v)) o)) → keeps_ok (conf_handle_number k klen v vlen read n set min max).
Proof.
  intros Hs. unfold conf_handle_number, malloc_conf_error. destruct (key_is _ _ _); [|auto with conf]. apply keeps_bind; [|auto with conf].
  destruct (_ || negb _); [auto with conf|]. destruct (Z.ltb_spec (st_value (read v)) min), (Z.ltb_spec max (st_value (read v))); cbn [orb]; auto with conf.
  apply keeps_set. intros o Ho. apply Hs; [lia|done].
Qed.

Lemma keeps_first_hit hs : Forall keeps_ok hs → keeps_ok (first_hit hs).
Proof. induction 1 as [|h hs Hh _ IH]; cbn [first_hit]; [auto with conf|]. apply keeps_bind; [done|]. intros []; auto with conf. Qed.

Lemma keeps_handle k klen v vlen : keeps_ok (conf_handle k klen v vlen).
Proof.
  apply keeps_bind; [|intros []; unfold malloc_conf_error; auto with conf]. apply keeps_first_hit. pose proof (strtoumax_range v 0) as Hr.
  repeat (constructor; [first [apply keeps_handle_bool; intros b o Ho; destruct Ho; by split|apply keeps_handle_number; intros o Hrange Ho; destruct Ho; split; done]|]). constructor.
Qed.

(** The rest of the options is shorter. *)
Lemma wp_conf_next p c (Q : option (str * nat * str * nat * str) → conf → Prop) :
  options_ok (opts c) → (∀ c', options_ok (opts c') → Q None c') →
  (∀ c' k klen v vlen rest, options_ok (opts c') → (length rest < length p)%nat → Q (Some (k, klen, v, vlen, rest)) c') → wp (malloc_conf_next p) c Q.
Proof.
  intros Hc Hn Hs. unfold malloc_conf_next. destruct (scan_key p 0) as [n| |klen v] eqn:Ek.
  - apply wp_bind. destruct (n =? 0)%nat; [apply wp_ret|apply wp_modify]; apply wp_ret; by apply Hn.
  - apply wp_bind, wp_modify, wp_ret. by apply Hn.
  - pose proof (scan_key_length _ _ _ _ Ek). pose proof (scan_value_length v 0). destruct (scan_value v 0) as [[vlen rest] comma]. cbn in *.
    apply wp_bind. destruct comma; [apply wp_modify|apply wp_ret]; apply wp_ret; apply Hs; (done || lia).
Qed.

Lemma conf_loop_ok fuel p : (length p ≤ fuel)%nat → keeps_ok (conf_loop fuel p).
Proof.
  revert p. induction fuel as [|fuel IH]; intros [|c p] Hl; cbn [conf_loop]; auto with conf; [cbn in Hl; lia|].
  intros s Hs. apply wp_bind, wp_conf_next; [done|intros; by apply wp_ret|]. intros s' k klen v vlen rest Hs' Hr. revert s' Hs'. fold (keeps_ok (conf_handle k klen v vlen;; conf_loop fuel rest)).
  apply keeps_bind; [apply keeps_handle|]. intros []. apply IH. cbn in *. lia.
Qed.

Lemma conf_source_ok s : keeps_ok (conf_source s).
Proof. by apply conf_loop_ok. Qed.

(** C29 Reading the options ends, whatever the three strings hold, and leaves
    every option in the range that the allocator is made for. *)
Theorem conf_init_ok je_malloc_conf link env c :
  options_ok (opts c) → ∃ c', malloc_conf_init je_malloc_conf link env c = Some (tt, c') ∧ options_ok (opts c').
Proof.
  intros Hc. assert (Hw : wp (malloc_conf_init je_malloc_conf link env) c (λ _ c', options_ok (opts c'))).
  { revert c Hc. repeat (apply keeps_bind; [apply conf_source_ok|intros []]). apply conf_source_ok. }
  apply wp_Some in Hw as ([] & c' & E & Hc'). by exists c'.
Qed.

Definition conf0 : conf := Conf default_options [].

Lemma conf_init_ok_witness :
  ∃ c', malloc_conf_init (Some (bytes "lg_chunk:99,junk:true")) None (Some (bytes "narenas:0x10,abort,")) conf0 = Some (tt, c') ∧ options_ok (opts c').
Proof. apply (conf_init_ok (Some (bytes "lg_chunk:99,junk:true")) None (Some (bytes "narenas:0x10,abort,")) conf0). split; vm_compute; split; discriminate || reflexivity. Defined.

(** The size out of range and the key without a value are reported. *)
Example conf_sample :
  malloc_conf_init (Some (bytes "lg_chunk:99,junk:true")) None (Some (bytes "narenas:0x10,abort,")) conf0
  = Some (tt, Conf (set_narenas 16 (set_junk true default_options)) [OutOfRange (bytes "lg_chunk") (bytes "99"); Malformed]).
Proof. vm_compute. reflexivity. Qed.

(** ** What an option string means *)

(** Nothing or a comma. *)
Definition stops (t : str) : Prop := match t with [] => True | c :: _ => c = 44 end.

Lemma skip_space_app v t : stops t → skip_space (v ++ t) = skip_space v ++ t.
Proof. intros Ht. induction v as [|c v IH]; cbn; [destruct t; [done|cbn in Ht; by subst]|]. by destruct (is_space c). Qed.

Lemma get_sign_app p t : stops t → get_sign (p ++ t) = ((get_sign p).1, (get_sign p).2 ++ t).
Proof. intros Ht. destruct p as [|c p]; cbn; [destruct t; [done|cbn in Ht; by subst]|]. by destruct (c =? 45), (c =? 43). Qed.

Lemma get_prefix_app b p t : stops t → get_prefix b (p ++ t) = ((get_prefix b p).1, (get_prefix b p).2 ++ t).
Proof.
  intros Ht. destruct p as [|c0 [|c1 q]]; cbn.
  - destruct t as [|c [|? ?]]; [done..|]. cbn in Ht. by subst c.
  - destruct t as [|c t]; [done|]. cbn in Ht. subst c. cbn. by destruct (c0 =? 48).
  - assert (Hq : match q ++ t with c2 :: _ => is_hex c2 | [] => false end = match q with c2 :: _ => is_hex c2 | [] => false end).
    { destruct q as [|? ?]; [|done]. destruct t as [|c t]; [done|]. cbn in Ht. by subst c. }
    rewrite Hq. destruct (c0 =? 48); [|done]. destruct (is_octal c1); [by destruct (_ =? 8)|]. destruct (_ && _); [|done]. by destruct (_ =? 16).
Qed.

Lemma convert_app b ret p t : stops t → convert b ret (p ++ t) = ((convert b ret p).1, (convert b ret p).2 ++ t).
Proof.
  intros Ht. revert ret. induction p as [|c p IH]; intros ret; cbn; [destruct t; [done|cbn in Ht; by subst]|].
  destruct (digit_of b c); [|done]. destruct (_ <? _); [done|]. apply IH.
Qed.

Lemma eqb_length_app {A} (p q t : list A) : (length (p ++ t) =? length (q ++ t))%nat = (length p =? length q)%nat.
Proof. rewrite !length_app. destruct (Nat.eqb_spec (length p) (length q)), (Nat.eqb_spec (length p + length t) (length q + length t)); lia || done. Qed.

Lemma sub_length_app {A} (p q t : list A) : (length (p ++ t) - length (q ++ t))%nat = (length p - length q)%nat.
Proof. rewrite !length_app. lia. Qed.

(** A number is read as if nothing followed it. *)
Lemma strtoumax_app v t : stops t → malloc_strtoumax (v ++ t) 0 = malloc_strtoumax v 0.
Proof.
  intros Ht. unfold malloc_strtoumax. cbn [Z.ltb Z.eqb orb Z.compare Pos.compare Pos.compare_cont]. rewrite skip_space_app, get_sign_app by done. destruct (get_sign (skip_space v)) as [neg ns]. cbn [fst snd].
  rewrite get_prefix_app by done. destruct (get_prefix 0 ns) as [b p]. cbn [fst snd]. rewrite convert_app by done.
  destruct (convert _ 0 p) as [[r|] q]; cbn [fst snd]; [|done]. by rewrite eqb_length_app, sub_length_app.
Qed.

Lemma span_digits_app b p t : stops t → span_digits b (p ++ t) = ((span_digits b p).1, (span_digits b p).2 ++ t).
Proof.
  intros Ht. induction p as [|c p IH]; cbn; [destruct t; [done|cbn in Ht; by subst]|]. destruct (digit_of b c); [|done]. rewrite IH. by destruct (span_digits b p).
Qed.

Lemma strtol_prefix_app p t : stops t → strtol_prefix (p ++ t) = ((strtol_prefix p).1, (strtol_prefix p).2 ++ t).
Proof.
  intros Ht. destruct p as [|c0 [|c1 [|c2 q]]]; cbn.
  - destruct t as [|c t]; [done|]. cbn in Ht. by subst c.
  - destruct (c0 =? 48); [|done]. destruct t as [|c [|? ?]]; [done..|]. cbn in Ht. by subst c.
  - destruct (c0 =? 48); [|done]. destruct t as [|c t]; [done|]. cbn in Ht. subst c. by rewrite andb_false_r.
  - destruct (c0 =? 48); [|done]. by destruct (_ && _).
Qed.

Lemma strtol_app v t : stops t → strtol (v ++ t) = strtol v.
Proof.
  intros Ht. unfold strtol. rewrite skip_space_app, get_sign_app by done. destruct (get_sign (skip_space v)) as [neg ns]. cbn [fst snd].
  rewrite strtol_prefix_app by done. destruct (strtol_prefix ns) as [b p]. cbn [fst snd]. rewrite span_digits_app by done.
  destruct (span_digits b p) as [ds r]. cbn [fst snd]. by rewrite sub_length_app.
Qed.

Lemma strncmp_app a b t : strncmp_eq a (b ++ t) (length b) = strncmp_eq a b (length b).
Proof. revert a. induction b as [|y b IH]; intros [|x a]; cbn; try done. by rewrite IH. Qed.

(** The handlers see the key and the value only. *)
Definition conf_apply (kv : str * str) : MC unit := conf_handle kv.1 (length kv.1) kv.2 (length kv.2).

Lemma conf_handle_app k v t1 t2 : stops t2 → conf_handle (k ++ t1) (length k) (v ++ t2) (length v) = conf_apply (k, v).
Proof.
  intros Ht. assert (He : ∀ m, malloc_conf_error (k ++ t1) (length k) (v ++ t2) (length v) m = malloc_conf_error k (length k) v (length v) m).
  { intros m. unfold malloc_conf_error. by rewrite !take_app_length, !firstn_all. }
  unfold conf_apply, conf_handle, conf_handlers, conf_handle_size_t, conf_handle_ssize_t, conf_handle_bool, conf_handle_number, key_is, value_is. cbn [fst snd].
  by rewrite !strncmp_app, !strtoumax_app, !strtol_app, !He.
Qed.

(** ** Printing options *)

Definition print_pair (kv : str * str) : str := kv.1 ++ 58 :: kv.2.

Fixpoint conf_print (kvs : list (str * str)) : str :=
  match kvs with
  | [] => []
  | [kv] => print_pair kv
  | kv :: kvs => print_pair kv ++ 44 :: conf_print kvs
  end.

Definition pair_ok (kv : str * str) : Prop := Forall (λ c, key_char c = true) kv.1 ∧ Forall (λ c, c ≠ 44) kv.2.

Lemma scan_key_app k w n : Forall (λ c, key_char c = true) k → scan_key (k ++ 58 :: w) n = KeyOk (n + length k) w.
Proof. intros Hk. revert n. induction Hk as [|c k Hc _ IH]; intros n; cbn; [by rewrite Nat.add_0_r|]. rewrite Hc, IH. f_equal. lia. Qed.

Lemma scan_value_app v t n : Forall (λ c, c ≠ 44) v → scan_value (v ++ t) n = scan_value t (n + length v).
Proof. intros Hv. revert n. induction Hv as [|c v Hc _ IH]; intros n; cbn; [by rewrite Nat.add_0_r|]. rewrite (proj2 (Z.eqb_neq c 44) Hc), IH. f_equal. lia. Qed.

Lemma conf_next_pair k v t c :
  pair_ok (k, v) → stops t → t ≠ [44] →
  malloc_conf_next (print_pair (k, v) ++ t) c = Some (Some (print_pair (k, v) ++ t, length k, v ++ t, length v, tail t), c).
Proof.
  intros [Hk Hv] Ht H44. unfold malloc_conf_next, print_pair. cbn [fst snd] in *. rewrite <- app_assoc, <- app_comm_cons, scan_key_app by done. rewrite scan_value_app by done.
  destruct t as [|x t]; [done|]. cbn in Ht. subst x. cbn [scan_value Z.eqb Pos.eqb]. rewrite bool_decide_false by (intros ->; done). done.
Qed.

Lemma print_nonempty kv t : print_pair kv ++ t ≠ [].
Proof. unfold print_pair. destruct kv as [[|? ?] v]; done. Qed.

Lemma conf_print_cons kv kvs : ∃ t, conf_print (kv :: kvs) = print_pair kv ++ t ∧ stops t ∧ t ≠ [44] ∧ tail t = conf_print kvs.
Proof.
  destruct kvs as [|kv' kvs]; [exists []; cbn; by rewrite app_nil_r|]. exists (44 :: conf_print (kv' :: kvs)). split_and!; [done|done| |done].
  intros [= E]. destruct kvs; cbn in E; [|by apply print_nonempty in E]. apply (print_nonempty kv' []). by rewrite app_nil_r.
Qed.

(** The options in the order of the pairs. *)
Fixpoint apply_all (kvs : list (str * str)) : MC unit :=
  match kvs with
  | [] => mret tt
  | kv :: kvs => conf_apply kv;; apply_all kvs
  end.

Lemma conf_loop_print fuel kvs c :
  Forall pair_ok kvs → (length (conf_print kvs) ≤ fuel)%nat → conf_loop fuel (conf_print kvs) c = apply_all kvs c.
Proof.
  intros Hk. revert fuel c. induction Hk as [|[k v] kvs Hkv _ IH]; intros fuel c Hl; [by destruct fuel|].
  destruct (conf_print_cons (k, v) kvs) as (t & E & Ht & H44 & Etl). rewrite E in Hl |- *. assert (Hne := print_nonempty (k, v) t).
  assert (Hlen : (length (conf_print kvs) < length (print_pair (k, v) ++ t))%nat).
  { rewrite <- Etl, length_app. unfold print_pair. rewrite length_app. destruct t; cbn; lia. }
  destruct fuel as [|fuel]; [destruct (print_pair (k, v) ++ t); [done|cbn in Hl; lia]|].
  assert (Eloop : conf_loop (S fuel) (print_pair (k, v) ++ t) c =
    (r ← malloc_conf_next (print_pair (k, v) ++ t); match r with None => mret tt | Some (k, klen, v, vlen, rest) => conf_handle k klen v vlen;; conf_loop fuel rest end) c) by (by destruct (print_pair (k, v) ++ t)).
  rewrite Eloop, (bind_Some _ _ c _ c (conf_next_pair k v t c Hkv Ht H44)). unfold print_pair. cbn [fst snd]. rewrite <- app_assoc, conf_handle_app, Etl by done.
  cbn [apply_all]. unfold mbind, M_bind. destruct (conf_apply (k, v) c) as [[[] c']|]; [|done]. apply IH. lia.
Qed.

(** An option string means its pairs, in order. *)
Lemma conf_source_print kvs c : Forall pair_ok kvs → conf_source (Some (conf_print kvs)) c = apply_all kvs c.
Proof. intros Hk. by apply conf_loop_print. Qed.

(** ** Single options *)

Lemma key_is_self n : key_is n (length n) n = true.
Proof.
  unfold key_is. rewrite Nat.eqb_refl. cbn [andb]. induction n as [|x n IH]; [done|]. cbn. by rewrite Z.eqb_refl.
Qed.

(** What a decimal number does to a numeric option. *)
Definition number_effect (n : str) (set : Z → options → options) (min max x : Z) (v : str) (c : conf) : conf :=
  if (x <? min) || (max <? x) then Conf (opts c) (log c ++ [OutOfRange n v]) else Conf (set x (opts c)) (log c).

Lemma size_t_number n set min max x v c :
  is_u64 x → u2s x 10 false = Some v →
  conf_handle_size_t n (length n) v (length v) n set min max c = Some (true, number_effect n set min max x v c).
Proof.
  intros Hx Ev. unfold conf_handle_size_t, conf_handle_number. rewrite key_is_self.
  destruct (u2s_ok x 10 false ltac:(lia) Hx) as (up & ds & E & Hd & _). rewrite Ev in E. injection E as ->.
  pose proof (read_digits 0 10 x ds up [] ltac:(lia) (or_intror (conj eq_refl eq_refl)) Hx Hd I) as Er. rewrite app_nil_r in Er. rewrite Er. cbn [st_errno st_end st_value].
  rewrite (bool_decide_false (is_Some None)) by (by intros [? ?]). assert (Hl : length (print_digits up ds) = length ds) by apply length_fmap.
  rewrite Hl, bool_decide_true by done. cbn [orb negb]. unfold number_effect, malloc_conf_error.
  rewrite <- Hl, !firstn_all. by destruct (_ || _).
Qed.

Lemma hit_skip h hs c : h c = Some (false, c) → first_hit (h :: hs) c = first_hit hs c.
Proof. intros E. cbn [first_hit]. by rewrite (bind_Some _ _ _ _ _ E). Qed.

Ltac skip_one := etransitivity; [apply hit_skip; reflexivity|].

Lemma hit_stop h hs c c' : h c = Some (true, c') → first_hit (h :: hs) c = Some (true, c').
Proof. intros E. cbn [first_hit]. by rewrite (bind_Some _ _ _ _ _ E). Qed.

Lemma handle_hit k klen v vlen c c' : first_hit (conf_handlers k klen v vlen) c = Some (true, c') → conf_handle k klen v vlen c = Some (tt, c').
Proof. intros E. unfold conf_handle. by rewrite (bind_Some _ _ _ _ _ E). Qed.

(** A number printed in decimal, given to one of the options that hold
    sizes, is stored if it is in the range of the option; otherwise the value
    is reported and nothing changes. *)
Theorem conf_size_options x v c :
  is_u64 x → u2s x 10 false = Some v →
  conf_apply (bytes "lg_chunk", v) c = Some (tt, number_effect (bytes "lg_chunk") set_lg_chunk 15 63 x v c) ∧
  conf_apply (bytes "narenas", v) c = Some (tt, number_effect (bytes "narenas") set_narenas 1 SIZE_T_MAX x v c) ∧
  conf_apply (bytes "quarantine", v) c = Some (tt, number_effect (bytes "quarantine") set_quarantine 0 SIZE_T_MAX x v c).
Proof.
  intros Hx Ev. pose proof (λ n set min max, size_t_number n set min max x v c Hx Ev) as Hn.
  unfold conf_apply. cbn [fst snd]. split; [|split]; apply handle_hit; unfold conf_handlers.
  - skip_one. apply hit_stop. exact (Hn (bytes "lg_chunk") set_lg_chunk 15 63).
  - do 2 skip_one. apply hit_stop. exact (Hn (bytes "narenas") set_narenas 1 SIZE_T_MAX).
  - do 6 skip_one. apply hit_stop. exact (Hn (bytes "quarantine") set_quarantine 0 SIZE_T_MAX).
Qed.

(** ** Settings as text *)

Inductive setting :=
  | Abort (b : bool) | LgChunk (x : Z) | Narenas (x : Z) | LgDirtyMult (x : Z) | StatsPrint (b : bool) | Junk (b : bool)
  | SetQuarantine (x : Z) | Redzone (b : bool) | Zero (b : bool) | Tcache (b : bool) | LgTcacheMax (x : Z).

Definition bool_text (b : bool) : str := if b then bytes "true" else bytes "false".
Definition size_text (x : Z) : str := default [] (u2s x 10 false).
Definition int_text (x : Z) : str := default [] (d2s x 45).

(** How a setting is written, what it means, and the documented values. *)
Definition setting_pair (st : setting) : str * str :=
  match st with
  | Abort b => (bytes "abort", bool_text b)
  | LgChunk x => (bytes "lg_chunk", size_text x)
  | Narenas x => (bytes "narenas", size_text x)
  | LgDirtyMult x => (bytes "lg_dirty_mult", int_text x)
  | StatsPrint b => (bytes "stats_print", bool_text b)
  | Junk b => (bytes "junk", bool_text b)
  | SetQuarantine x => (bytes "quarantine", size_text x)
  | Redzone b => (bytes "redzone", bool_text b)
  | Zero b => (bytes "zero", bool_text b)
  | Tcache b => (bytes "tcache", bool_text b)
  | LgTcacheMax x => (bytes "lg_tcache_max", int_text x)
  end.

Definition set_setting (o : options) (st : setting) : options :=
  match st with
  | Abort b => set_abort b o
  | LgChunk x => set_lg_chunk x o
  | Narenas x => set_narenas x o
  | LgDirtyMult x => set_lg_dirty_mult x o
  | StatsPrint b => set_stats_print b o
  | Junk b => set_junk b o
  | SetQuarantine x => set_quarantine x o
  | Redzone b => set_redzone b o
  | Zero b => set_zero b o
  | Tcache b => set_tcache b o
  | LgTcacheMax x => set_lg_tcache_max x o
  end.

Definition setting_ok (st : setting) : Prop :=
  match st with
  | LgChunk x => 15 ≤ x ≤ 63
  | Narenas x => 1 ≤ x < 2 ^ 64
  | SetQuarantine x => is_u64 x
  | LgDirtyMult x | LgTcacheMax x => -1 ≤ x ≤ 63
  | _ => True
  end.

Definition settings_text (l : list setting) : str := conf_print (setting_pair <$> l).

(** All values of the signed options. *)
Lemma small_ints x : -1 ≤ x ≤ 63 → strtol (int_text x) = Strto x None (Some (length (int_text x))) ∧ Forall (λ c, c ≠ 44) (int_text x).
Proof.
  intros Hx. set (ok y := bool_decide (st_value (strtol (int_text y)) = y ∧ st_errno (strtol (int_text y)) = None ∧
    st_end (strtol (int_text y)) = Some (length (int_text y)) ∧ Forall (λ c, c ≠ 44) (int_text y))).
  assert (Hall : forallb ok (seqZ (-1) 65) = true) by (vm_compute; reflexivity). rewrite forallb_forall in Hall.
  specialize (Hall x). rewrite <- list_elem_of_In, elem_of_seqZ in Hall. specialize (Hall ltac:(lia)). apply bool_decide_eq_true in Hall as (E1 & E2 & E3 & E4).
  clear ok. split; [|done]. destruct (strtol (int_text x)) as [a b e]. cbn [st_value st_errno st_end] in E1, E2, E3. congruence.
Qed.

Lemma ssize_t_number n set x c :
  -1 ≤ x ≤ 63 → conf_handle_ssize_t n (length n) (int_text x) (length (int_text x)) n set (-1) 63 c = Some (true, Conf (set x (opts c)) (log c)).
Proof.
  intros Hx. unfold conf_handle_ssize_t, conf_handle_number. rewrite key_is_self, (proj1 (small_ints x Hx)). cbn [st_errno st_end st_value].
  rewrite bool_decide_false, bool_decide_true by (done || by intros [? ?]). cbn [orb negb]. by rewrite (proj2 (Z.ltb_ge x (-1))), (proj2 (Z.ltb_ge 63 x)) by lia.
Qed.

Lemma size_text_ok x : is_u64 x → u2s x 10 false = Some (size_text x) ∧ Forall (λ c, c ≠ 44) (size_text x).
Proof.
  intros Hx. destruct (u2s_ok x 10 false ltac:(lia) Hx) as (up & ds & E & (Hds & _) & _). unfold size_text. rewrite E. split; [done|]. apply Forall_fmap.
  eapply Forall_impl; [exact Hds|]. intros d Hd. cbv beta in Hd. pose proof (proj1 (digit_char_range up d ltac:(lia))) as Hc. intros E44. unfold compose in E44. rewrite E44 in Hc. lia.
Qed.

Lemma setting_pair_ok st : setting_ok st → pair_ok (setting_pair st).
Proof.
  assert (Hkeys : Forall (λ k, Forall (λ c, key_char c = true) k) [bytes "abort"; bytes "lg_chunk"; bytes "narenas"; bytes "lg_dirty_mult"; bytes "stats_print"; bytes "junk"; bytes "quarantine"; bytes "redzone"; bytes "zero"; bytes "tcache"; bytes "lg_tcache_max"])
    by (repeat constructor).
  rewrite !Forall_cons in Hkeys. assert (Hb : ∀ b, Forall (λ c, c ≠ 44) (bool_text b)) by (intros []; repeat constructor; done).
  destruct st; cbn [setting_ok setting_pair]; intros Hx; (split; cbn [fst snd]; [tauto|]); try apply Hb; try (apply small_ints; exact Hx); apply size_text_ok; unfold is_u64 in *; lia.
Qed.

(** One setting, as the handlers see it. *)
Lemma apply_setting st c : setting_ok st → conf_apply (setting_pair st) c = Some (tt, Conf (set_setting (opts c) st) (log c)).
Proof.
  assert (Hn : ∀ n set lo hi x, is_u64 x → lo ≤ x ≤ hi → number_effect n set lo hi x (size_text x) c = Conf (set x (opts c)) (log c))
    by (intros n set lo hi x _ Hx; unfold number_effect; by rewrite (proj2 (Z.ltb_ge x lo)), (proj2 (Z.ltb_ge hi x)) by lia).
  destruct st as [b|x|x|x|b|b|x|b|b|b|x]; cbn [setting_ok setting_pair set_setting]; intros Hx;
    [by destruct b| | | |by destruct b|by destruct b| |by destruct b|by destruct b|by destruct b|].
  - assert (Hu : is_u64 x) by (unfold is_u64; lia). rewrite (proj1 (conf_size_options x _ c Hu (proj1 (size_text_ok x Hu)))). by rewrite Hn.
  - assert (Hu : is_u64 x) by (unfold is_u64; lia). rewrite (proj1 (proj2 (conf_size_options x _ c Hu (proj1 (size_text_ok x Hu))))). rewrite Hn; [done|done|unfold SIZE_T_MAX; lia].
  - unfold conf_apply. cbn [fst snd]. apply handle_hit. unfold conf_handlers. do 3 skip_one. apply hit_stop. by apply ssize_t_number.
  - rewrite (proj2 (proj2 (conf_size_options x _ c Hx (proj1 (size_text_ok x Hx))))). rewrite Hn; [done|done|unfold is_u64, SIZE_T_MAX in *; lia].
  - unfold conf_apply. cbn [fst snd]. apply handle_hit. unfold conf_handlers. do 10 skip_one. apply hit_stop. by apply ssize_t_number.
Qed.

Lemma source_settings l c : Forall setting_ok l → conf_source (Some (settings_text l)) c = Some (tt, Conf (fold_left set_setting l (opts c)) (log c)).
Proof.
  intros Hl. unfold settings_text. rewrite conf_source_print by (apply Forall_fmap; eapply Forall_impl; [exact Hl|apply setting_pair_ok]).
  revert c. induction Hl as [|st l Hst _ IH]; intros c; [by destruct c|]. cbn [fmap list_fmap apply_all fold_left]. rewrite (bind_Some _ _ _ _ _ (apply_setting st c Hst)). rewrite IH. reflexivity.
Qed.

(** C30 Reading back what is written: option strings that list any settings with
    documented values, in the three places the options come from, set exactly these options to these
    values, the later ones over the earlier ones, and print no message. *)
Theorem conf_roundtrip l1 l2 l3 c :
  Forall setting_ok l1 → Forall setting_ok l2 → Forall setting_ok l3 →
  malloc_conf_init (Some (settings_text l1)) (Some (settings_text l2)) (Some (settings_text l3)) c
  = Some (tt, Conf (fold_left set_setting (l1 ++ l2 ++ l3) (opts c)) (log c)).
Proof.
  intros H1 H2 H3. unfold malloc_conf_init. rewrite (bind_Some _ _ _ _ _ (source_settings l1 c H1)), (bind_Some _ _ _ _ _ (source_settings l2 _ H2)), source_settings by done.
  cbn [opts log]. by rewrite !fold_left_app.
Qed.

Lemma conf_roundtrip_witness :
  malloc_conf_init (Some (bytes "junk:true,lg_chunk:20")) (Some []) (Some (bytes "lg_dirty_mult:-1,junk:false")) conf0
  = Some (tt, Conf (set_junk false (set_lg_dirty_mult (-1) (set_lg_chunk 20 (set_junk true default_options)))) []).
Proof. apply (conf_roundtrip [Junk true; LgChunk 20] [] [LgDirtyMult (-1); Junk false] conf0); repeat constructor; discriminate. Defined.
