(* ===== verification/Printf.v ===== *)
(** * Formatted output (util.c)

    [malloc_vsnprintf], with which the allocator writes its messages.  A format
    is the list of its bytes; a pointer into it is the rest of the list, whose
    end reads as 0.  The arguments are a list of values with their C types, and an argument of
    another type than the one asked for has no result; a string is the memory from
    its first byte on.  The buffer has a fixed length, and a store outside of it
    or a load behind the memory of a string has no result. *)

From S2P Require Import Prelude Util.

(** ** Arguments *)

Inductive ctype := Cint | Cuint | Clong | Culong | Cllong | Cullong | Cintmax | Cptrdiff | Cssize | Csize | Cuintptr.
#[export] Instance ctype_eq : EqDecision ctype.
Proof. solve_decision. Defined.

Inductive arg := Num (t : ctype) (x : Z) | Mem (s : str).

(** The variable [len]: ['?'], ['l'], ['q'] (for ["ll"]), ['j'], ['t'], ['z'] or ['p']. *)
Inductive lmod := Lnone | Ll | Lq | Lj | Lt | Lz | Lp.

(** The cases of [GET_ARG_NUMERIC]; [uns] is the bit 0x80. *)
Definition arg_type (len : lmod) (uns : bool) : option ctype :=
  match len, uns with
  | Lnone, false => Some Cint | Lnone, true => Some Cuint | Ll, false => Some Clong | Ll, true => Some Culong
  | Lq, false => Some Cllong | Lq, true => Some Cullong | Lj, false => Some Cintmax | Lt, false => Some Cptrdiff
  | Lz, false => Some Cssize | Lz, true => Some Csize | Lp, false => Some Cuintptr | _, _ => None
  end.

Definition va_arg (t : ctype) (ap : list arg) : option (Z * list arg) :=
  match ap with Num t' x :: ap => if decide (t' = t) then Some (x, ap) else None | _ => None end.

Definition GET_ARG_NUMERIC (len : lmod) (uns : bool) (ap : list arg) : option (Z * list arg) := t ← arg_type len uns; va_arg t ap.

(** [(int)] of a number. *)
Definition to_int (x : Z) : Z := let y := u32 x in if y <? 2 ^ 31 then y else y - 2 ^ 32.

(** ** The buffer *)

Record pbuf := PBuf { pb_str : str; pb_i : Z }.

Definition bufsize (b : pbuf) : Z := Z.of_nat (length (pb_str b)).

Definition APPEND_C (c : Z) (b : pbuf) : pbuf :=
  PBuf (if pb_i b <? bufsize b then <[Z.to_nat (pb_i b) := c]> (pb_str b) else pb_str b) (u64 (pb_i b + 1)).

Definition memcpy_in (d : Z) (s : str) (n : Z) (m : str) : option str :=
  assert! (n <=? Z.of_nat (length s)); assert! (d + n <=? Z.of_nat (length m)); Some (list_inserts (Z.to_nat d) (take (Z.to_nat n) s) m).

Definition APPEND_S (s : str) (slen : Z) (b : pbuf) : option pbuf :=
  m ← (if pb_i b <? bufsize b then
         let cpylen := if slen <=? bufsize b - pb_i b then slen else bufsize b - pb_i b in memcpy_in (pb_i b) s cpylen (pb_str b)
       else Some (pb_str b));
  Some (PBuf m (u64 (pb_i b + slen))).

(** The loop that appends blanks. *)
Definition pad (n : Z) (b : pbuf) : pbuf := Nat.iter (Z.to_nat n) (APPEND_C 32) b.

Definition APPEND_PADDED_S (s : str) (slen width : Z) (left_justify : bool) (b : pbuf) : option pbuf :=
  let pad_len := if width =? -1 then 0 else if slen <? u64 width then u64 width - slen else 0 in
  let b := if negb left_justify && negb (pad_len =? 0) then pad pad_len b else b in
  b ← APPEND_S s slen b;
  Some (if left_justify && negb (pad_len =? 0) then pad pad_len b else b).

(** ** A conversion *)

Record flags := Flags { alt_form : bool; zero_pad : bool; left_justify : bool; plus_space : bool; plus_plus : bool }.

Fixpoint get_flags (f : str) (x : flags) : option (flags * str) :=
  match f with
  | [] => Some (x, [])
  | c :: q =>
      if c =? 35 then assert! negb (alt_form x); get_flags q (Flags true (zero_pad x) (left_justify x) (plus_space x) (plus_plus x))
      else if c =? 48 then assert! negb (zero_pad x); get_flags q (Flags (alt_form x) true (left_justify x) (plus_space x) (plus_plus x))
      else if c =? 45 then assert! negb (left_justify x); get_flags q (Flags (alt_form x) (zero_pad x) true (plus_space x) (plus_plus x))
      else if c =? 32 then assert! negb (plus_space x); get_flags q (Flags (alt_form x) (zero_pad x) (left_justify x) true (plus_plus x))
      else if c =? 43 then assert! negb (plus_plus x); get_flags q (Flags (alt_form x) (zero_pad x) (left_justify x) (plus_space x) true)
      else Some (x, f)
  end.

Definition is_digit (c : Z) : bool := (48 <=? c) && (c <=? 57).

(** A number in the format; the assertion excludes that it is out of range. *)
Definition get_number (f : str) : option (Z * str) :=
  let r := malloc_strtoumax f 10 in
  assert! negb (st_value r =? UINTMAX_MAX) || negb (default 0 (st_errno r) =? ERANGE);
  Some (to_int (st_value r), drop (default 0%nat (st_end r)) f).

(** The width, and if the code goes on at [label_precision]. *)
Definition get_width (f : str) (ap : list arg) : option (Z * bool * str * list arg) :=
  match f with
  | [] => Some (-1, false, f, ap)
  | c :: q =>
      if c =? 42 then '(w, ap) ← va_arg Cint ap; Some (w, true, q, ap)
      else if is_digit c then
        '(w, f) ← get_number f;
        match f with c :: q => if c =? 46 then Some (w, true, q, ap) else Some (w, false, f, ap) | [] => Some (w, false, f, ap) end
      else if c =? 46 then Some (-1, true, q, ap)
      else Some (-1, false, f, ap)
  end.

Definition get_precision (f : str) (ap : list arg) : option (Z * str * list arg) :=
  match f with
  | [] => Some (-1, f, ap)
  | c :: q =>
      if c =? 42 then '(p, ap) ← va_arg Cint ap; Some (p, q, ap)
      else if is_digit c then '(p, f) ← get_number f; Some (p, f, ap)
      else Some (-1, f, ap)
  end.

(** Width and precision, from the characters that follow the flags. *)
Definition get_fields (f : str) (ap : list arg) : option (Z * Z * str * list arg) :=
  '(width, prec_follows, f, ap) ← get_width f ap;
  '(prec, f, ap) ← (if prec_follows : bool then get_precision f ap else Some (-1, f, ap));
  Some (width, prec, f, ap).

Definition get_length (f : str) : lmod * str :=
  match f with
  | [] => (Lnone, f)
  | c :: q =>
      if c =? 108 then match q with c :: q' => if c =? 108 then (Lq, q') else (Ll, q) | [] => (Ll, q) end
      else if c =? 106 then (Lj, q) else if c =? 116 then (Lt, q) else if c =? 122 then (Lz, q) else (Lnone, f)
  end.

Fixpoint strlen_of (s : str) : option nat :=
  match s with [] => None | c :: s => if c =? 0 then Some O else S <$> strlen_of s end.

(** The text of an argument, from where [slen] bytes are copied. *)
Definition get_text (c : Z) (x : flags) (prec : Z) (len : lmod) (ap : list arg) : option (str * Z * list arg) :=
  if (c =? 100) || (c =? 105) then
    '(val, ap) ← GET_ARG_NUMERIC len false ap; s ← d2s val (if plus_plus x then 43 else if plus_space x then 32 else 45); Some (s, Z.of_nat (length s), ap)
  else if c =? 111 then '(val, ap) ← GET_ARG_NUMERIC len true ap; s ← o2s val (alt_form x); Some (s, Z.of_nat (length s), ap)
  else if c =? 117 then '(val, ap) ← GET_ARG_NUMERIC len true ap; s ← u2s val 10 false; Some (s, Z.of_nat (length s), ap)
  else if (c =? 120) || (c =? 88) then '(val, ap) ← GET_ARG_NUMERIC len true ap; s ← x2s val (alt_form x) (c =? 88); Some (s, Z.of_nat (length s), ap)
  else if c =? 99 then match len with Lnone => '(val, ap) ← va_arg Cint ap; Some ([val mod 2 ^ 8; 0], 1, ap) | _ => None end
  else if c =? 115 then
    match len, ap with
    | Lnone, Mem s :: ap => slen ← (if prec =? -1 then Z.of_nat <$> strlen_of s else Some (u64 prec)); Some (s, slen, ap)
    | _, _ => None
    end
  else if c =? 112 then '(val, ap) ← GET_ARG_NUMERIC Lp false ap; s ← x2s val true false; Some (s, Z.of_nat (length s), ap)
  else None.

(** All of a conversion, from behind the ['%']. *)
Definition conversion (f : str) (ap : list arg) (b : pbuf) : option (str * list arg * pbuf) :=
  '(x, f) ← get_flags f (Flags false false false false false);
  '(width, prec, f, ap) ← get_fields f ap;
  let '(len, f) := get_length f in
  match f with
  | [] => None
  | c :: f =>
      '(s, slen, ap) ← get_text c x prec len ap;
      b ← APPEND_PADDED_S s slen width (left_justify x) b;
      Some (f, ap, b)
  end.

(** Behind ["%%"] the pointer is still at the second of them. *)
Fixpoint format_loop (fuel : nat) (f : str) (ap : list arg) (b : pbuf) : option pbuf :=
  match f, fuel with
  | [], _ => Some b
  | _, O => None
  | c :: q, S fuel =>
      if c =? 0 then Some b
      else if c =? 37 then
        match q with
        | c' :: _ => if c' =? 37 then format_loop fuel q ap (APPEND_C c' b) else '(f, ap, b) ← conversion q ap b; format_loop fuel f ap b
        | [] => '(f, ap, b) ← conversion q ap b; format_loop fuel f ap b
        end
      else format_loop fuel q ap (APPEND_C c b)
  end.

(** The result and what the buffer holds then. *)
Definition malloc_vsnprintf (m : str) (format : str) (ap : list arg) : option (Z * str) :=
  b ← format_loop (length format) format ap (PBuf m 0);
  assert! negb (bufsize b =? 0);
  Some (to_int (pb_i b), <[Z.to_nat (if pb_i b <? bufsize b then pb_i b else bufsize b - 1) := 0]> (pb_str b)).

(** ** What a format means *)

(** A width or precision: none, a number in the format, or ['*'] with an argument. *)
Inductive field := Absent | Const (n : Z) | Star (n : Z).
Inductive conv := Kd | Ki | Ko | Ku | Kx | KX | Kc | Ks | Kp.
Inductive item := Lit (c : Z) | Conv (x : flags) (w p : field) (l : lmod) (k : conv) (a : arg).

Definition conv_char (k : conv) : Z := match k with Kd => 100 | Ki => 105 | Ko => 111 | Ku => 117 | Kx => 120 | KX => 88 | Kc => 99 | Ks => 115 | Kp => 112 end.
Definition flags_text (x : flags) : str :=
  (if alt_form x then [35] else []) ++ (if zero_pad x then [48] else []) ++ (if left_justify x then [45] else []) ++ (if plus_space x then [32] else []) ++ (if plus_plus x then [43] else []).
Definition number_text (n : Z) : str := default [] (u2s n 10 false).
Definition width_text (w : field) : str := match w with Absent => [] | Const n => number_text n | Star _ => [42] end.
Definition prec_text (p : field) : str := match p with Absent => [] | Const n => 46 :: number_text n | Star _ => [46; 42] end.
Definition length_text (l : lmod) : str := match l with Ll => [108] | Lq => [108; 108] | Lj => [106] | Lt => [116] | Lz => [122] | _ => [] end.

Definition item_format (i : item) : str :=
  match i with Lit c => [c] | Conv x w p l k _ => 37 :: flags_text x ++ width_text w ++ prec_text p ++ length_text l ++ [conv_char k] end.
Definition field_args (w : field) : list arg := match w with Star n => [Num Cint n] | _ => [] end.
Definition item_args (i : item) : list arg := match i with Lit _ => [] | Conv _ w p _ _ a => field_args w ++ field_args p ++ [a] end.








(** ** Appending *)









(** ** Reading a conversion *)















(** ** The text of an argument *)










(** ** The whole format *)


Definition format_of (l : list item) : str := concat (item_format <$> l).
Definition args_of (l : list item) : list arg := concat (item_args <$> l).



(** ["k=%-4d|%#x|%.*s"] in 12 bytes: the text is cut. *)
Definition sample_items : list item :=
  [Lit 107; Lit 61; Conv (Flags false false true false false) (Const 4) Absent Lnone Kd (Num Cint (-7)); Lit 124; Conv (Flags true false false false false) Absent Absent Lnone Kx (Num Cuint 255); Lit 124;
   Conv (Flags false false false false false) Absent (Star 2) Lnone Ks (Mem [65; 66; 67; 0])].


Example sample_text :
  malloc_vsnprintf (replicate 12 7) (format_of sample_items) (args_of sample_items) = Some (14, [107; 61; 45; 55; 32; 32; 124; 48; 120; 102; 102; 0]).
Proof. vm_compute. reflexivity. Qed.

(** ["%%"] writes the character and then reads a conversion: ["5%%d"] with 7 gives ["5%7"],
    and ["5%%"] has no result. *)
Example percent_twice :
  malloc_vsnprintf (replicate 8 0) [53; 37; 37; 100] [Num Cint 7] = Some (3, [53; 37; 55; 0; 0; 0; 0; 0]) ∧ malloc_vsnprintf (replicate 8 0) [53; 37; 37] [] = None.
Proof. split; vm_compute; reflexivity. Qed.

(** The lengths ['j'] and ['t'] have no unsigned conversions. *)
Example unsigned_intmax : malloc_vsnprintf (replicate 8 0) [37; 106; 117] [Num Cintmax 7] = None.
Proof. vm_compute. reflexivity. Qed.

(** Behind a width of ['*'] a precision is read without its dot, so ["%*.2s"] has no result. *)
Example star_precision : malloc_vsnprintf (replicate 8 0) [37; 42; 46; 50; 115] [Num Cint 5; Mem [65; 66; 67; 0]] = None.
Proof. vm_compute. reflexivity. Qed.

(** The flag ['0'] is read and not used: ["%03d"] pads with blanks. *)
Example zero_pad_unused : malloc_vsnprintf (replicate 6 1) [37; 48; 51; 100] [Num Cint 7] = Some (3, [32; 32; 55; 0; 1; 1]).
Proof. vm_compute. reflexivity. Qed.

(** The precision of a number is not used: ["%.3d"] is ["%d"]. *)
Example precision_unused : malloc_vsnprintf (replicate 6 1) [37; 46; 51; 100] [Num Cint 7] = Some (1, [55; 0; 1; 1; 1; 1]).
Proof. vm_compute. reflexivity. Qed.

(** ["%#x"] writes the prefix before 0 too. *)
Example prefix_zero : malloc_vsnprintf (replicate 6 1) [37; 35; 120] [Num Cuint 0] = Some (3, [48; 120; 48; 0; 1; 1]).
Proof. vm_compute. reflexivity. Qed.

(** A precision that is longer than the string copies what is behind its end. *)
Example precision_beyond : malloc_vsnprintf (replicate 6 1) [37; 46; 51; 115] [Mem [65; 0; 66; 67]] = Some (3, [65; 0; 66; 0; 1; 1]).
Proof. vm_compute. reflexivity. Qed.
