(* ===== verification/ObjIface.v ===== *)
(** * What the allocator promises the code that uses it

    Parts of the allocator keep their own data in objects of the allocator
    itself.  They rely on the functions of jemalloc_internal.h for objects of
    any size; the laws say what these do to the map of all objects in use. *)

From S2P Require Import Prelude ArenaObj.

Class ObjLayer (H : Type) := {
  ol_malloc : Z → M H (option Z);
  ol_size : Z → M H Z;
  ol_free : Z → M H unit;
  ol_mem : H → Z → Z;
  ol_set_mem : (Z → Z) → H → H
}.

Class ObjLayerLaws (H : Type) `{ObjLayer H} := {
  ol_inv : H → gmap Z Z → Prop;
  ol_object h X p n : ol_inv h X → X !! p = Some n → 0 < p ∧ 0 < n ∧ p + n ≤ 2 ^ 47;
  ol_malloc_ok h X size : ol_inv h X → 0 < size < 2 ^ 64 → wp (ol_malloc size) h (λ r h', keeps X (ol_mem h) (ol_mem h') ∧
    match r with None => ol_inv h' X | Some p => X !! p = None ∧ ∃ sz, size ≤ sz ∧ ol_inv h' (<[p := sz]> X) end);
  ol_size_ok h X p n : ol_inv h X → X !! p = Some n → wp (ol_size p) h (λ r h', r = n ∧ ol_inv h' X ∧ ol_mem h' = ol_mem h);
  ol_free_ok h X p n : ol_inv h X → X !! p = Some n → wp (ol_free p) h (λ _ h', ol_inv h' (delete p X) ∧ keeps (delete p X) (ol_mem h) (ol_mem h'));
  ol_set_mem_ok h X f : ol_inv h X → ol_inv (ol_set_mem f h) X;
  ol_set_mem_get h f : ol_mem (ol_set_mem f h) = f;
  ol_apart h X p n q m : ol_inv h X → X !! p = Some n → X !! q = Some m → q ≠ p → p + n ≤ q ∨ q + m ≤ p
}.
