(* ===== verification/Quarantine.v ===== *)
(** * The quarantine (quarantine.c)

    Freed objects are not given back at once: each thread keeps the most recent
    ones in a ring buffer, up to [opt_quarantine] bytes, and gives the oldest
    ones back first.  The ring is an object of the allocator itself and doubles
    when it is full.  The thread's pointer to it also encodes the states that it
    goes through when the thread ends.  A slot of the ring that was never
    written has no value. *)

From S2P Require Import Prelude ArenaObj ObjIface.

Definition LG_MAXOBJS_INIT : Z := 10.

Record quarantine_t := Quarantine {
  q_at : Z;
  curbytes : Z;
  curobjs : Z;
  first : Z;
  lg_maxobjs : Z;
  objs : gmap Z (Z * Z)
}.

(** The thread's pointer: null, the two states encoded by small numbers, or a quarantine. *)
Inductive qtsd := QNull | QReincarnated | QPurgatory | QAt (q : quarantine_t).

Section quarantine.
Context {H : Type} `{OL : ObjLayer H}.
Context (opt_quarantine : Z) (opt_junk : bool).

Record qstate := QState { qheap : H; tsd : qtsd }.
Abbreviation MQ := (M qstate).

Definition on_qheap {A} (m : M H A) : MQ A := λ s,
  match m (qheap s) with Some (r, h) => Some (r, QState h (tsd s)) | None => None end.
Definition quarantine_tsd_set (t : qtsd) : MQ unit := modify (λ s, QState (qheap s) t).

(** The quarantine that the thread's pointer points to. *)
Definition the_quarantine : MQ quarantine_t := t ← gets tsd; match t with QAt q => mret q | _ => lift None end.
Definition update (f : quarantine_t → quarantine_t) : MQ unit := q ← the_quarantine; quarantine_tsd_set (QAt (f q)).

Definition maxobjs (lg : Z) : Z := u64 (Z.shiftl 1 lg).
Definition ring_size (lg : Z) : Z := u64 (32 + u64 (maxobjs lg * 16)).

Definition quarantine_init (lg : Z) : MQ (option quarantine_t) :=
  r ← on_qheap (ol_malloc (ring_size lg));
  match r with
  | None => mret None
  | Some p => let q := Quarantine p 0 0 0 lg ∅ in quarantine_tsd_set (QAt q);; mret (Some q)
  end.

(** [memcpy] of [n] slots from [src] of the old ring to [dst] of the new one. *)
Definition copy_obj (from : gmap Z (Z * Z)) (src dst : Z) (to : gmap Z (Z * Z)) (i : Z) : gmap Z (Z * Z) :=
  match from !! (src + i) with Some o => <[dst + i := o]> to | None => delete (dst + i) to end.
Definition copy_objs (from : gmap Z (Z * Z)) (src dst n : Z) (to : gmap Z (Z * Z)) : gmap Z (Z * Z) :=
  foldl (copy_obj from src dst) to (seqZ 0 n).

Definition quarantine_grow (quarantine : quarantine_t) : MQ unit :=
  ret ← quarantine_init (lg_maxobjs quarantine + 1);
  match ret with
  | None => mret tt
  | Some ret =>
      let n := maxobjs (lg_maxobjs quarantine) in
      let objs' :=
        if first quarantine + curobjs quarantine <=? n then
          copy_objs (objs quarantine) (first quarantine) 0 (curobjs quarantine) (objs ret)
        else
          let ncopy_a := n - first quarantine in
          let ncopy_b := curobjs quarantine - ncopy_a in
          copy_objs (objs quarantine) 0 ncopy_a ncopy_b (copy_objs (objs quarantine) (first quarantine) 0 ncopy_a (objs ret)) in
      update (λ q, Quarantine (q_at q) (curbytes quarantine) (curobjs quarantine) (first q) (lg_maxobjs q) objs')
  end.

(** The objects of the ring bound the loop. *)
Fixpoint drain_loop (fuel : nat) (upper_bound : Z) : MQ unit :=
  q ← the_quarantine;
  if (upper_bound <? curbytes q) && (0 <? curobjs q) then
    match fuel with
    | O => lift None
    | S fuel =>
        check (first q <? maxobjs (lg_maxobjs q));;
        obj ← lift (objs q !! first q);
        n ← on_qheap (ol_size obj.1); check (obj.2 =? n);;
        on_qheap (ol_free obj.1);;
        update (λ q, Quarantine (q_at q) (u64 (curbytes q - obj.2)) (u64 (curobjs q - 1)) (Z.land (u64 (first q + 1)) (maxobjs (lg_maxobjs q) - 1)) (lg_maxobjs q) (objs q));;
        drain_loop fuel upper_bound
    end
  else mret tt.

Definition quarantine_drain (upper_bound : Z) : MQ unit := q ← the_quarantine; drain_loop (Z.to_nat (curobjs q)) upper_bound.

Definition append (ptr usize : Z) : MQ unit :=
  update (λ q,
    let offset := Z.land (u64 (first q + curobjs q)) (maxobjs (lg_maxobjs q) - 1) in
    Quarantine (q_at q) (u64 (curbytes q + usize)) (u64 (curobjs q + 1)) (first q) (lg_maxobjs q) (<[offset := (ptr, usize)]> (objs q)));;
  if opt_junk then on_qheap (modify (λ h, ol_set_mem (memset_bytes ptr 0x5a usize (ol_mem h)) h)) else mret tt.

(** Once there is a quarantine. *)
Definition quarantine_in (ptr usize : Z) : MQ unit :=
  q ← the_quarantine;
  (if opt_quarantine <? u64 (curbytes q + usize) then
     quarantine_drain (if usize <=? opt_quarantine then opt_quarantine - usize else 0)
   else mret tt);;
  q ← the_quarantine;
  (if curobjs q =? maxobjs (lg_maxobjs q) then quarantine_grow q else mret tt);;
  q ← the_quarantine;
  check (curobjs q <? maxobjs (lg_maxobjs q));;
  if u64 (curbytes q + usize) <=? opt_quarantine then append ptr usize
  else check (curbytes q =? 0);; on_qheap (ol_free ptr).

Definition quarantine (ptr : Z) : MQ unit :=
  usize ← on_qheap (ol_size ptr);
  check (negb (opt_quarantine =? 0));;
  t ← gets tsd;
  match t with
  | QNull =>
      r ← quarantine_init LG_MAXOBJS_INIT;
      match r with None => on_qheap (ol_free ptr) | Some _ => quarantine_in ptr usize end
  | QPurgatory => quarantine_tsd_set QReincarnated;; on_qheap (ol_free ptr)
  | QReincarnated => on_qheap (ol_free ptr)
  | QAt _ => quarantine_in ptr usize
  end.

Definition quarantine_cleanup : MQ unit :=
  t ← gets tsd;
  match t with
  | QReincarnated => quarantine_tsd_set QPurgatory
  | QPurgatory | QNull => mret tt
  | QAt q => quarantine_drain 0;; on_qheap (ol_free (q_at q));; quarantine_tsd_set QPurgatory
  end.
End quarantine.
Arguments qstate H : clear implicits.

(** ** The ring as a queue *)

Abbreviation queue := (list (Z * Z)) (only parsing).
Definition qsum (l : queue) : Z := foldr (λ o a, o.2 + a) 0 l.


Lemma qsum_positive l : Forall (λ o, 0 < o.2) l → 0 ≤ qsum l.
Proof. unfold qsum. induction 1; cbn in *; lia. Qed.

(** The oldest objects leave until at most [ub] bytes are left. *)
Fixpoint drain (ub : Z) (l : queue) : queue :=
  match l with
  | [] => []
  | o :: l' => if ub <? qsum l then drain ub l' else l
  end.

(** The queue [l], oldest first, in the ring. *)
Record q_repr (q : quarantine_t) (l : queue) : Prop := {
  qr_lg : 0 ≤ lg_maxobjs q < 58;
  qr_first : 0 ≤ first q < 2 ^ lg_maxobjs q;
  qr_objs : curobjs q = Z.of_nat (length l);
  qr_room : Z.of_nat (length l) ≤ 2 ^ lg_maxobjs q;
  qr_bytes : curbytes q = qsum l;
  qr_at i o : l !! i = Some o → objs q !! ((first q + Z.of_nat i) mod 2 ^ lg_maxobjs q) = Some o
}.

Lemma maxobjs_pow lg : 0 ≤ lg < 58 → maxobjs lg = 2 ^ lg ∧ 0 < 2 ^ lg < 2 ^ 58.
Proof.
  intros Hlg. pose proof (pow2_pos lg ltac:(lia)). assert (2 ^ lg < 2 ^ 58) by (apply Z.pow_lt_mono_r; lia).
  unfold maxobjs. rewrite Z.shiftl_mul_pow2, Z.mul_1_l by lia. split; [apply u64_small; split; lia|lia].
Qed.



Lemma repr_pop q o l :
  q_repr q (o :: l) → objs q !! first q = Some o ∧ 0 < curobjs q ∧
  q_repr (Quarantine (q_at q) (qsum l) (curobjs q - 1) ((first q + 1) mod 2 ^ lg_maxobjs q) (lg_maxobjs q) (objs q)) l.
Proof.
  intros [Hlg Hf Ho Hr Hb Ha]. cbn [length] in *. pose proof (Z.mod_pos_bound (first q + 1) (2 ^ lg_maxobjs q) ltac:(lia)). split_and!.
  - specialize (Ha 0%nat o eq_refl). rewrite Z.add_0_r, Z.mod_small in Ha by lia. done.
  - lia.
  - split; cbn; try (done || lia). intros i x Ei. rewrite Zplus_mod_idemp_l. specialize (Ha (S i) x Ei). rewrite <- Ha. f_equal. f_equal. lia.
Qed.




(** ** The objects in quarantine *)

Section spec.
Context {H : Type} `{OL : ObjLayer H} `{!ObjLayerLaws H}.
Context (opt_quarantine : Z) (opt_junk : bool).
Hypothesis opt_range : 0 < opt_quarantine < 2 ^ 57.
Implicit Types (s : qstate H) (h : H) (X Y W : gmap Z Z) (l : queue) (q : quarantine_t) (p n : Z).

Definition qmem s : Z → Z := ol_mem (qheap s).

(** The objects [Y] in use are [X], those of the queue [l], and the ring at [r], and no other. *)
Record parted Y X l (r : Z) : Prop := {
  pt_prog : X ⊆ Y;
  pt_queue o : o ∈ l → Y !! o.1 = Some o.2 ∧ X !! o.1 = None ∧ o.1 ≠ r;
  pt_nodup : NoDup l.*1;
  pt_ring : is_Some (Y !! r) ∧ X !! r = None;
  pt_only k n : Y !! k = Some n → X !! k = Some n ∨ (k, n) ∈ l ∨ k = r
}.

Record holds s X q l : Prop := {
  ho_tsd : tsd s = QAt q;
  ho_repr : q_repr q l;
  ho_sum : qsum l ≤ opt_quarantine;
  ho_objs : ∃ Y, ol_inv (qheap s) Y ∧ parted Y X l (q_at q)
}.

Lemma wp_on_qheap {A} (m : M H A) s (Q : A → qstate H → Prop) :
  wp m (qheap s) (λ r h, Q r (QState h (tsd s))) → wp (on_qheap m) s Q.
Proof. unfold wp, on_qheap. by destruct (m (qheap s)) as [[r h]|]. Qed.

Lemma wp_the_quarantine s q (Q : quarantine_t → qstate H → Prop) : tsd s = QAt q → Q q s → wp the_quarantine s Q.
Proof. intros E HQ. unfold the_quarantine. wsteps. rewrite E. by apply wp_ret. Qed.

Lemma wp_update f s q (Q : unit → qstate H → Prop) : tsd s = QAt q → Q tt (QState (qheap s) (QAt (f q))) → wp (update f) s Q.
Proof. intros E HQ. unfold update. apply wp_bind. eapply wp_the_quarantine; [exact E|]. by apply wp_modify. Qed.

Lemma queue_sum_bounds Y X l r h : ol_inv h Y → parted Y X l r → Z.of_nat (length l) ≤ qsum l ∧ 0 ≤ qsum l.
Proof.
  intros Hi [_ Hq _ _ _]. induction l as [|o l IH]; cbn [length qsum foldr]; [lia|]. destruct (Hq o) as [Ho _]; [by left|].
  destruct (ol_object _ _ _ _ Hi Ho) as (_ & Hn & _). destruct IH as [IH1 IH2]; [intros o' Ho'; apply Hq; by right|]. unfold qsum in *. lia.
Qed.

(** The oldest object is given back. *)
Lemma parted_pop Y X o l r : parted Y X (o :: l) r → parted (delete o.1 Y) X l r.
Proof.
  intros [Hp Hq Hn [Hr Hr'] Hall]. cbn in Hn. apply NoDup_cons in Hn as [Hno Hn]. destruct (Hq o) as (_ & Hox & Hor); [by left|]. split; [|intros o' Ho'|done| |].
  - intros k. specialize (Hp k). destruct (decide (k = o.1)) as [->|]; [by rewrite lookup_delete_eq, Hox|by rewrite lookup_delete_ne].
  - destruct (Hq o') as (? & ? & ?); [by right|]. split; [|done]. rewrite lookup_delete_ne; [done|]. intros E. apply Hno. rewrite E. apply list_elem_of_fmap. by exists o'.
  - rewrite lookup_delete_ne by done. done.
  - intros k n (Hne & Ek)%lookup_delete_Some. destruct (Hall k n Ek) as [?|[Hin|?]]; [by left| |by right; right].
    apply elem_of_cons in Hin as [<-|?]; [done|by right; left].
Qed.



(** ** Draining *)

Lemma wp_drain_loop fuel ub l q s X (Q : unit → qstate H → Prop) :
  (length l ≤ fuel)%nat → 0 ≤ ub → holds s X q l →
  (∀ s' q', holds s' X q' (drain ub l) → q_at q' = q_at q → lg_maxobjs q' = lg_maxobjs q → keeps X (qmem s) (qmem s') → Q tt s') → wp (drain_loop fuel ub) s Q.
Proof using opt_range.
  revert l q s Q. induction fuel as [|fuel IH]; intros l q s Q Hf Hub [Et Hr Hs (Y & Hi & Hp)] HQ.
  all: cbn [drain_loop]; apply wp_bind; (eapply wp_the_quarantine; [exact Et|]); pose proof (qr_objs _ _ Hr) as Eo; pose proof (qr_bytes _ _ Hr) as Eb; pose proof (queue_sum_bounds _ _ _ _ _ Hi Hp) as [Hl0 Hs0].
  - destruct l; [|cbn in Hf; lia]. rewrite Eo. cbn. rewrite andb_false_r. apply wp_ret. apply (HQ s q); [split; [done|done|done|by exists Y]|done|done|apply keeps_refl].
  - destruct l as [|o l]; [rewrite Eo; cbn; rewrite andb_false_r; apply wp_ret; apply (HQ s q); [split; [done|done|done|by exists Y]|done|done|apply keeps_refl]|].
    destruct (repr_pop _ _ _ Hr) as (Ef & Hpos & Hr'). destruct (maxobjs_pow (lg_maxobjs q) (qr_lg _ _ Hr)) as [Em Hm]. pose proof (qr_first _ _ Hr) as Hfi.
    destruct (Z.ltb_spec ub (curbytes q)) as [Hgt|Hle]; cbn [andb].
    2: { apply wp_ret. apply (HQ s q); [|done|done|apply keeps_refl]. cbn [drain]. rewrite <- Eb, (proj2 (Z.ltb_ge _ _)) by lia. split; [done|done|done|by exists Y]. }
    rewrite (proj2 (Z.ltb_lt 0 (curobjs q))) by lia. apply wp_bind. apply wp_check; [apply Z.ltb_lt; lia|]. apply wp_bind. eapply wp_lift; [exact Ef|].
    destruct (pt_queue _ _ _ _ Hp o) as (Ho & Hox & Hor); [by left|]. apply wp_bind, wp_on_qheap. eapply wp_mono; [by apply ol_size_ok|]. intros n h1 (-> & Hi1 & Hm1). cbv beta.
    apply wp_bind. apply wp_check; [apply Z.eqb_refl|]. apply wp_bind, wp_on_qheap. eapply wp_mono; [by eapply ol_free_ok|]. intros [] h2 (Hi2 & K2). cbn [qheap tsd] in *.
    apply wp_bind. eapply wp_update; [exact Et|]. cbn [qheap]. assert (Hol : Z.of_nat (length l) ≤ qsum l ∧ 0 ≤ qsum l) by (eapply queue_sum_bounds; [exact Hi2|by apply parted_pop]).
    cbn [qsum foldr] in Eb, Hs. fold (qsum l) in Eb, Hs. pose proof (ol_object _ _ _ _ Hi Ho) as (_ & Hn & _). cbn [length] in Eo.
    rewrite Em, (u64_small (curbytes q - o.2)), (u64_small (curobjs q - 1)), (u64_small (first q + 1)), land_mask by (pose proof (qr_room _ _ Hr); cbn [length] in *; (split; lia) || apply (qr_lg _ _ Hr)).
    replace (curbytes q - o.2) with (qsum l) by lia. eapply (IH l); [cbn in Hf; lia|done| |].
    + split; [reflexivity|exact Hr'|lia|]. exists (delete o.1 Y). split; [exact Hi2|by apply parted_pop].
    + intros s' q' Hh Ea Elg K'. apply (HQ s' q'); [|done|done|].
      * cbn [drain qsum foldr]. fold (qsum l). rewrite <- Eb, (proj2 (Z.ltb_lt _ _)) by lia. done.
      * eapply keeps_trans; [|exact K']. unfold qmem. cbn. rewrite <- Hm1. eapply keeps_mono; [|exact K2]. apply (pt_prog _ _ _ _ (parted_pop _ _ _ _ _ Hp)).
Qed.

Lemma wp_drain ub l q s X (Q : unit → qstate H → Prop) :
  0 ≤ ub → holds s X q l →
  (∀ s' q', holds s' X q' (drain ub l) → q_at q' = q_at q → lg_maxobjs q' = lg_maxobjs q → keeps X (qmem s) (qmem s') → Q tt s') → wp (quarantine_drain ub) s Q.
Proof using opt_range.
  intros Hub Hh HQ. unfold quarantine_drain. apply wp_bind. eapply wp_the_quarantine; [apply Hh|]. eapply wp_drain_loop; [|exact Hub|exact Hh|exact HQ].
  rewrite (qr_objs _ _ (ho_repr _ _ _ _ Hh)). lia.
Qed.

(** ** Growing *)





(** ** Entering the quarantine *)














(** ** The whole *)


(** Nothing of the queue is left below a bound of 0. *)
Lemma drain_zero l : Forall (λ o, 0 < o.2) l → drain 0 l = [].
Proof.
  induction 1 as [|x l Hx Hl IH]; [done|]. pose proof (qsum_positive l Hl). cbn [drain qsum foldr]. fold (qsum l). by rewrite (proj2 (Z.ltb_lt _ _)) by lia.
Qed.



(** The objects in use are those of the program, [X], the rings [W] that were
    replaced, those of the queue [l] and the ring of the thread, and no others. *)
Definition quarantined s X W (l : queue) : Prop :=
  X ##ₘ W ∧
  match tsd s with
  | QAt q => holds s (X ∪ W) q l
  | _ => l = [] ∧ ol_inv (qheap s) (X ∪ W)
  end.



Lemma holds_positive s X q l : holds s X q l → Forall (λ o, 0 < o.2) l.
Proof. intros [_ _ _ (Y & Hi & Hp)]. apply Forall_forall. intros o Ho. destruct (pt_queue _ _ _ _ Hp o Ho) as [E _]. by eapply ol_object. Qed.








(** When the thread ends, all objects in quarantine and the ring are given back. *)
Lemma quarantine_cleanup_ok s X W l :
  quarantined s X W l →
  wp quarantine_cleanup s (λ _ s', quarantined s' X W [] ∧ keeps X (qmem s) (qmem s') ∧ tsd s' = match tsd s with QNull => QNull | _ => QPurgatory end).
Proof using opt_range.
  intros [Hd Hq]. unfold quarantine_cleanup, quarantined. wsteps. destruct (tsd s) as [| | |q] eqn:Et.
  - apply wp_ret. rewrite Et. destruct Hq as [_ HY]. split_and!; [done..|apply keeps_refl|done].
  - apply wp_modify. destruct Hq as [_ HY]. split_and!; [done..|apply keeps_refl|done].
  - apply wp_ret. rewrite Et. destruct Hq as [_ HY]. split_and!; [done..|apply keeps_refl|done].
  - apply wp_bind. eapply wp_drain; [done|exact Hq|]. intros s1 q1 Hh1 Ea _ K1. rewrite drain_zero in Hh1 by (by eapply holds_positive).
    destruct Hh1 as [Et1 Hr1 _ (Y & Hi & Hp)]. destruct (pt_ring _ _ _ _ Hp) as [[m Em] HXr]. apply wp_bind, wp_on_qheap. rewrite Ea in *. eapply wp_mono; [eapply ol_free_ok; [exact Hi|exact Em]|].
    intros [] h [Hi' K']. apply wp_modify. assert (HX : delete (q_at q) Y = X ∪ W).
    { apply map_eq. intros k. destruct (decide (k = q_at q)) as [->|Hne]; [by rewrite HXr, lookup_delete_eq|]. rewrite lookup_delete_ne by done. apply option_eq. intros v. split.
      - intros Ek. destruct (pt_only _ _ _ _ Hp k v Ek) as [?|[?%elem_of_nil|?]]; done.
      - intros Ek. eapply lookup_weaken; [exact Ek|apply Hp]. }
    rewrite HX in *. cbn. split_and!; [done..| |done]. eapply keeps_trans; [eapply keeps_mono; [apply map_union_subseteq_l|exact K1]|]. unfold qmem. cbn. eapply keeps_mono; [apply map_union_subseteq_l|exact K'].
Qed.
End spec.
