(* ===== verification/QuarantineSystem.v ===== *)
(** * The quarantine over the allocator

    The functions of jemalloc_internal.h keep the laws that the quarantine
    relies on, so its theorem holds of objects in the arena and of huge ones. *)

From S2P Require Import Prelude OrdTree Rb SizeClass BinInfo Bitmap Chunk ChunkIface ChunkSpec ChunkSystem Arena ArenaMap ArenaInv ArenaRun ArenaTrim ArenaSystem ArenaBin ArenaBinInv ArenaObj ArenaSmall ArenaThreads Huge Malloc MallocInv MallocOps MallocSpec MallocProg MallocSystem ObjIface Quarantine.

Section instance.
Context `{Config} `{Opts} {S : Type} `{CL : ChunkLayer S} {T : Type} `{OT : OrdTree T Z}.
Context `{!ChunkLayerLaws S} `{!OrdTreeLaws T Z} {HBI : BinInfos} {EN : Env}.
Context (old_word : Z → Z → Z) (os_purge : Z → Z → (Z → Z) → (Z → Z)).
Context (others : M (astate S T) unit).
#[local] Existing Instance arena_chunks.
Abbreviation hst := (hstate (astate S T) T).
Hypothesis os_purge_range : ∀ p n f, mem_but p n f (os_purge p n f).
Hypothesis others_ok : ∀ (F : Frame) C N a M D, owned (FR := F) C N env a M D →
  wp others a (λ _ a', owned (FR := F) C N env a' M D ∧ keeps M (a_mem a) (a_mem a')).

#[export] Instance malloc_objects : ObjLayer hst := {|
  ol_malloc := imalloc old_word os_purge others;
  ol_size := isalloc;
  ol_free := iqalloc old_word os_purge others;
  ol_mem := mem;
  ol_set_mem := set_mem
|}.

#[export] Instance malloc_objects_laws : ObjLayerLaws hst.
Proof using All.
  refine {| ol_inv := heap_ok |}.
  - intros h X p n Hh Ep. destruct (heap_object _ _ _ _ Hh Ep) as (? & ? & ? & _). done.
  - intros h X size Hh Hs. eapply wp_imalloc; [exact os_purge_range|exact others_ok|exact Hh|exact Hs|by intros h' ? ?|]. intros h' p sz _ [? ? ? ?]. cbn. eauto 6.
  - intros h X p n Hh Ep. eapply wp_isalloc; [exact Hh|exact Ep|]. intros h' ? ?. done.
  - intros h X p n Hh Ep. eapply wp_iqalloc; [exact os_purge_range|exact others_ok|exact Hh|exact Ep|]. intros h' ? ?. done.
  - intros h X f Hh. by apply heap_write.
  - done.
  - intros h X p n q m Hh Ep Eq Hne. exact (heap_objs_apart _ _ _ _ Hh Ep q m Eq Hne).
Defined.
End instance.

(** ** A concrete run *)

Section witnesses.
#[local] Existing Instance default_config.
#[local] Existing Instance sample_opts.
#[local] Existing Instance arena_layer.
#[local] Existing Instance arena_laws.
#[local] Existing Instance sample_infos.
#[local] Existing Instance arena_chunks.
Abbreviation cst := (state (T := rbt Z)).
Abbreviation visit := (interfere no_word zero_purge visitors).

#[local] Instance sample_objects : ObjLayer (hstate (astate cst (rbt Z)) (rbt Z)) := malloc_objects no_word zero_purge visit.
(** No other thread has objects: those of the map are all. *)
#[local] Instance alone : Env := nobody.
#[local] Instance sample_objects_laws : ObjLayerLaws (hstate (astate cst (rbt Z)) (rbt Z)) :=
  malloc_objects_laws no_word zero_purge visit zero_purge_range (λ F C N a M D, MallocProg.others_tidy no_word zero_purge zero_purge_range alone visitors F C N a M D visitors_ok visitors_tidy).

Definition quarantine0 : qstate (hstate (astate cst (rbt Z)) (rbt Z)) := QState (heap malloc1) QNull.



(** The first object that is freed is the oldest in the ring. *)
Example quarantine_sample :
  (λ r, match tsd r.2 with QAt q => Some (curbytes q, curobjs q, objs q !! 0) | _ => None end) <$> quarantine 1000 true malloc1_at quarantine0
  = Some (Some (112, 1, Some (malloc1_at, 112))).
Proof. vm_compute. reflexivity. Qed.
End witnesses.
