(* ===== verification/Rtree.v ===== *)
(** * The radix tree of chunks (rtree.c, rtree.h)

    A map from the upper bits of addresses to words.  Each level takes a few
    bits of the key, from the top; a node is an array of words, that are the
    addresses of the nodes of the next level, or 0, and the values in the last
    level.  Nodes come from the base allocator, of which the file assumes no
    more than that it hands out memory that was not handed out before.  What is
    done under the lock of the tree is one step; [rtree_get] takes no lock and
    reads one word per level. *)

From S2P Require Import Prelude SizeClass BinInfo ChunkIface.

Class BaseLayer (S : Type) := { bl_alloc : Z → M S (option Z) }.

(** [bl_inv s B]: the ranges [B] are in use. *)
Class BaseLayerLaws (S : Type) `{BaseLayer S} := {
  bl_inv : S → list (Z * Z) → Prop;
  bl_alloc_ok s B sz : bl_inv s B → 0 < sz ≤ 2 ^ 62 →
    ∃ r s', bl_alloc sz s = Some (r, s') ∧
      match r with None => bl_inv s' B | Some p => 0 < p ∧ Forall (ranges_apart (p, sz)) B ∧ bl_inv s' ((p, sz) :: B) end
}.

Definition RTREE_NODESIZE : Z := 64.
Definition bits_per_level : Z := ffs (pow2_ceil (RTREE_NODESIZE / 8)) - 1.

(** The record behind the pointer; the mutex is left out. *)
Record rtree := Rtree { root : Z; height : Z; level2bits : list Z }.

Section rtree.
Context {S : Type} `{BL : BaseLayer S}.
Context (malloc_mutex_init : bool).

(** The base allocator and the words of memory, by address. *)
Record rstate := RState { rbase : S; words : Z → Z }.
Abbreviation MR := (M rstate).

Definition base_alloc (sz : Z) : MR (option Z) := λ s,
  match bl_alloc sz (rbase s) with Some (r, b) => Some (r, RState b (words s)) | None => None end.
Definition zero_words (p n : Z) : MR unit := modify (λ s, RState (rbase s) (λ a, if (p <=? a) && (a <? p + n) then 0 else words s a)).
Definition put_word (a v : Z) : MR unit := modify (λ s, RState (rbase s) (λ b, if b =? a then v else words s b)).

(** The size of a node whose key has [bits] bits. *)
Definition node_size (bits : Z) : Z := Z.shiftl 8 bits.

Definition level_bits (bits height : Z) : list Z :=
  (if bits <? bits_per_level * height then bits mod bits_per_level else bits_per_level) :: replicate (Z.to_nat (height - 1)) bits_per_level.

(** 52 is the offset of [level2bits]. *)
Definition rtree_new (bits : Z) : MR (option rtree) :=
  let height := bits / bits_per_level in
  let height := if height * bits_per_level =? bits then height else height + 1 in
  check (bits <=? height * bits_per_level);;
  ret ← base_alloc (52 + 4 * height);
  match ret with
  | None => mret None
  | Some ret =>
      zero_words ret (52 + 4 * height);;
      if malloc_mutex_init then mret None
      else
        let l2b := level_bits bits height in
        b0 ← lift (head l2b);
        root ← base_alloc (node_size b0);
        match root with
        | None => mret None
        | Some root => zero_words root (node_size b0);; mret (Some (Rtree root height l2b))
        end
  end.

Definition subkey (key lshift bits : Z) : Z := Z.shiftr (u64 (Z.shiftl key lshift)) (64 - bits).

(** The levels from the one of [node] on, and the bits above them. *)
Fixpoint get_loop (l2b : list Z) (key lshift node : Z) (w : Z → Z) : option Z :=
  match l2b with
  | [] => None
  | [bits] => Some (w (node + 8 * subkey key lshift bits))
  | bits :: l2b =>
      let child := w (node + 8 * subkey key lshift bits) in
      if child =? 0 then Some 0 else get_loop l2b key (lshift + bits) child w
  end.

Definition rtree_get (rtree : rtree) (key : Z) : MR Z := w ← gets words; lift (get_loop (level2bits rtree) key 0 (root rtree) w).

(** The result is true on failure, as in the code. *)
Fixpoint set_loop (l2b : list Z) (key lshift node val : Z) : MR bool :=
  match l2b with
  | [] => lift None
  | [bits] => put_word (node + 8 * subkey key lshift bits) val;; mret false
  | bits :: ((bits' :: _) as l2b) =>
      let at_ := node + 8 * subkey key lshift bits in
      child ← gets (λ s, words s at_);
      if child =? 0 then
        child ← base_alloc (node_size bits');
        match child with
        | None => mret true
        | Some child => zero_words child (node_size bits');; put_word at_ child;; set_loop l2b key (lshift + bits) child val
        end
      else set_loop l2b key (lshift + bits) child val
  end.

Definition rtree_set (rtree : rtree) (key val : Z) : MR bool := set_loop (level2bits rtree) key 0 (root rtree) val.
End rtree.
Arguments rstate S : clear implicits.

(** ** Keys *)

(** The first [n] bits of a key. *)
Definition prefix (key n : Z) : Z := Z.shiftr key (64 - n).

Lemma subkey_spec key lshift bits :
  is_u64 key → 0 ≤ lshift → 0 ≤ bits → lshift + bits ≤ 64 →
  0 ≤ subkey key lshift bits < 2 ^ bits ∧ prefix key (lshift + bits) = prefix key lshift * 2 ^ bits + subkey key lshift bits.
Proof.
  intros [Hk1 Hk2] Hl Hb Hs. unfold subkey, prefix, u64. rewrite !Z.shiftr_div_pow2, Z.shiftl_mul_pow2 by lia.
  set (r := 64 - (lshift + bits)). assert (Hr : 0 ≤ r) by (subst r; lia). replace (64 - lshift) with (bits + r) by (subst r; lia). replace (64 - bits) with (lshift + r) by (subst r; lia).
  assert (E64 : 2 ^ 64 = 2 ^ lshift * (2 ^ bits * 2 ^ r)) by (rewrite <- !Z.pow_add_r by lia; f_equal; subst r; lia).
  rewrite E64, (Z.mul_comm key), Z.mul_mod_distr_l by (pose proof (pow2_pos lshift); pose proof (pow2_pos bits); pose proof (pow2_pos r); nia).
  rewrite !Z.pow_add_r by lia. pose proof (pow2_pos lshift Hl) as P1. pose proof (pow2_pos bits Hb) as P2. pose proof (pow2_pos r Hr) as P3.
  rewrite Z.div_mul_cancel_l by lia. rewrite (Z.mul_comm (2 ^ bits) (2 ^ r)), Z.rem_mul_r, Z.mul_comm, Z.div_add by lia.
  rewrite (Z.div_small (key mod 2 ^ r)) by (apply Z.mod_pos_bound; lia). rewrite Z.add_0_l. split; [apply Z.mod_pos_bound; lia|].
  rewrite <- Z.div_div by lia. rewrite Z.mul_comm. apply Z.div_mod. lia.
Qed.

Lemma pair_div p j m : 0 ≤ j < m → (p * m + j) / m = p ∧ (p * m + j) mod m = j.
Proof. intros Hj. rewrite (Z.add_comm (p * m)), Z.div_add, Z.mod_add, Z.div_small, Z.mod_small by lia. lia. Qed.

Lemma drop_cons_inv {A} (l : list A) i x xs : drop i l = x :: xs → l !! i = Some x ∧ drop (S i) l = xs ∧ (i < length l)%nat.
Proof.
  revert i. induction l as [|y l IH]; intros [|i] E; cbn in E |- *; [done|done|injection E as -> ->; auto with lia|].
  destruct (IH i E) as (? & ? & ?). auto with lia.
Qed.

(** ** The nodes of a tree

    [N] has the nodes by level and by the bits of the keys that lead to them. *)

Section inv.
Context {S : Type} `{BL : BaseLayer S} `{!BaseLayerLaws S}.
Context (L : list Z).
Implicit Types (N : gmap (nat * Z) Z) (w : Z → Z) (B : list (Z * Z)) (i : nat) (p a j key : Z).

Definition lbits i : Z := L !!! i.
Definition lsum i : Z := foldr Z.add 0 (take i L).
Abbreviation h := (length L).
Hypothesis L_pos : Forall (λ b, 1 ≤ b) L.
Hypothesis L_sum : lsum h ≤ 64.

(** The memory of a node. *)
Definition node_range i a : Z * Z := (a, 8 * 2 ^ lbits i).

Record rt_inv (root : Z) w N B : Prop := {
  ri_root : N !! (0%nat, 0) = Some root;
  ri_node i p a : N !! (i, p) = Some a → (i < h)%nat ∧ 0 < a ∧ node_range i a ∈ B;
  ri_apart x y a b : N !! x = Some a → N !! y = Some b → x ≠ y → ranges_apart (node_range x.1 a) (node_range y.1 b);
  ri_child i p a j : N !! (i, p) = Some a → (Datatypes.S i < h)%nat → 0 ≤ j < 2 ^ lbits i → w (a + 8 * j) = default 0 (N !! (Datatypes.S i, p * 2 ^ lbits i + j));
  ri_parent i p : is_Some (N !! (Datatypes.S i, p)) → is_Some (N !! (i, p / 2 ^ lbits i))
}.

(** The value at the upper bits [P] of keys. *)
Definition value w N (P : Z) : Z :=
  match N !! ((h - 1)%nat, P / 2 ^ lbits (h - 1)) with
  | Some a => w (a + 8 * (P mod 2 ^ lbits (h - 1)))
  | None => 0
  end.

Lemma lbits_pos i : (i < h)%nat → 1 ≤ lbits i.
Proof using L_pos. intros Hi. destruct (lookup_lt_is_Some_2 L i Hi) as [b Eb]. unfold lbits. rewrite (list_lookup_total_correct _ _ _ Eb). by eapply (Forall_lookup_1 _ _ _ _ L_pos). Qed.

Lemma lsum_S i : (i < h)%nat → lsum (Datatypes.S i) = lsum i + lbits i.
Proof.
  intros Hi. destruct (lookup_lt_is_Some_2 L i Hi) as [b Eb]. unfold lsum, lbits. rewrite (take_S_r _ _ _ Eb), (list_lookup_total_correct _ _ _ Eb), foldr_app. cbn.
  generalize (take i L). clear. intros l. induction l as [|x l IH]; cbn; lia.
Qed.

Lemma lsum_range i : (i ≤ h)%nat → 0 ≤ lsum i ≤ 64.
Proof using L_pos L_sum.
  intros Hi. split.
  - unfold lsum. assert (Hf : Forall (λ b, 1 ≤ b) (take i L)) by (by apply Forall_take). induction Hf; cbn; lia.
  - etrans; [|exact L_sum]. remember (h - i)%nat as d eqn:Ed. revert i Hi Ed. induction d as [|d IH]; intros i Hi Ed; [by replace h with i by lia|].
    pose proof (lsum_S i ltac:(lia)). pose proof (lbits_pos i ltac:(lia)). specialize (IH (Datatypes.S i) ltac:(lia) ltac:(lia)). lia.
Qed.

Lemma prefix_0 key : is_u64 key → prefix key (lsum 0) = 0.
Proof. intros [? ?]. unfold prefix. change (lsum 0) with 0. rewrite Z.shiftr_div_pow2 by done. apply Z.div_small. done. Qed.

(** One level down. *)
Lemma prefix_S key i : is_u64 key → (i < h)%nat →
  0 ≤ subkey key (lsum i) (lbits i) < 2 ^ lbits i ∧ prefix key (lsum (Datatypes.S i)) = prefix key (lsum i) * 2 ^ lbits i + subkey key (lsum i) (lbits i).
Proof using L_pos L_sum.
  intros Hk Hi. rewrite lsum_S by done. pose proof (lsum_range i ltac:(lia)). pose proof (lsum_range (Datatypes.S i) ltac:(lia)) as Hs. rewrite lsum_S in Hs by done.
  pose proof (lbits_pos i Hi). apply subkey_spec; [done|lia..].
Qed.

Lemma prefix_up key i : is_u64 key → (i < h)%nat → prefix key (lsum (Datatypes.S i)) / 2 ^ lbits i = prefix key (lsum i) ∧ prefix key (lsum (Datatypes.S i)) mod 2 ^ lbits i = subkey key (lsum i) (lbits i).
Proof using L_pos L_sum.
  intros Hk Hi. destruct (prefix_S key i Hk Hi) as [Hs ->]. by apply pair_div.
Qed.

(** Below a missing node there is none. *)
Lemma missing root w N B key i i' :
  rt_inv root w N B → is_u64 key → (i ≤ i' < h)%nat → N !! (i, prefix key (lsum i)) = None → N !! (i', prefix key (lsum i')) = None.
Proof using L_pos L_sum.
  intros HI Hk [Hi Hi'] Hn. induction Hi as [|i' Hi IH]; [done|]. specialize (IH ltac:(lia)). apply eq_None_not_Some. intros Hs%(ri_parent _ _ _ _ HI).
  destruct (prefix_up key i' Hk ltac:(lia)) as [E _]. rewrite E, IH in Hs. by destruct Hs.
Qed.

Lemma value_at w N key : is_u64 key → (0 < h)%nat →
  value w N (prefix key (lsum h)) = match N !! ((h - 1)%nat, prefix key (lsum (h - 1))) with Some a => w (a + 8 * subkey key (lsum (h - 1)) (lbits (h - 1))) | None => 0 end.
Proof using L_pos L_sum.
  intros Hk Hh. unfold value. destruct (prefix_up key (h - 1) Hk ltac:(lia)) as [E1 E2]. replace (Datatypes.S (h - 1)) with h in * by lia. by rewrite E1, E2.
Qed.

(** ** Reading *)

Lemma get_loop_ok root w N B key i bs node :
  rt_inv root w N B → is_u64 key → drop i L = bs → bs ≠ [] → N !! (i, prefix key (lsum i)) = Some node →
  get_loop bs key (lsum i) node w = Some (value w N (prefix key (lsum h))).
Proof using L_pos L_sum.
  intros HI Hk. revert i node. induction bs as [|b bs IH]; intros i node Ed Hne En; [done|].
  destruct (drop_cons_inv _ _ _ _ Ed) as (Eb & Ed' & Hi). assert (Elb : lbits i = b) by (by apply list_lookup_total_correct).
  destruct (prefix_S key i Hk Hi) as [Hs Ep]. rewrite Elb in Hs, Ep. destruct bs as [|b' bs].
  - assert (Eh : h = Datatypes.S i) by (apply (f_equal length) in Ed'; rewrite length_drop in Ed'; cbn in Ed'; lia).
    rewrite value_at by (done || lia). replace (h - 1)%nat with i by lia. by rewrite En, Elb.
  - assert (Hi' : (Datatypes.S i < h)%nat) by (apply (f_equal length) in Ed'; rewrite length_drop in Ed'; cbn in Ed'; lia).
    change (get_loop (b :: b' :: bs) key (lsum i) node w) with (let child := w (node + 8 * subkey key (lsum i) b) in if child =? 0 then Some 0 else get_loop (b' :: bs) key (lsum i + b) child w).
    cbv zeta. pose proof (ri_child _ _ _ _ HI i _ _ (subkey key (lsum i) b) En Hi' ltac:(rewrite Elb; exact Hs)) as Ec. rewrite Elb, <- Ep in Ec. rewrite Ec.
    destruct (N !! (Datatypes.S i, prefix key (lsum (Datatypes.S i)))) as [c|] eqn:En'; cbn [default from_option id].
    + destruct (ri_node _ _ _ _ HI _ _ _ En') as (_ & Hc & _). rewrite (proj2 (Z.eqb_neq c 0)) by lia. rewrite <- Elb, <- lsum_S by done. by apply IH.
    + cbn [Z.eqb]. rewrite value_at by (done || lia). by rewrite (missing _ _ _ _ key (Datatypes.S i) (h - 1) HI Hk ltac:(lia) En').
Qed.

(** ** Writing *)

(** The words of nodes are apart. *)
Lemma word_ne root w N B x y a b j k :
  rt_inv root w N B → N !! x = Some a → N !! y = Some b → 0 ≤ j < 2 ^ lbits x.1 → 0 ≤ k < 2 ^ lbits y.1 → (x, j) ≠ (y, k) → a + 8 * j ≠ b + 8 * k.
Proof.
  intros HI Ea Eb Hj Hk Hne. destruct (decide (x = y)) as [->|Hxy]; [rewrite Ea in Eb; injection Eb as ->; intros ?; apply Hne; f_equal; lia|].
  pose proof (ri_apart _ _ _ _ HI _ _ _ _ Ea Eb Hxy) as Hap. unfold ranges_apart, node_range in Hap. cbn [fst snd] in Hap. lia.
Qed.

Lemma word_fresh root w N B x a j i c :
  rt_inv root w N B → N !! x = Some a → 0 ≤ j < 2 ^ lbits x.1 → Forall (ranges_apart (node_range i c)) B → ¬ (c ≤ a + 8 * j < c + 8 * 2 ^ lbits i).
Proof.
  intros HI Ea Hj HB. destruct x as [i' p']. destruct (ri_node _ _ _ _ HI _ _ _ Ea) as (_ & _ & Hin). rewrite Forall_forall in HB.
  specialize (HB _ Hin). unfold ranges_apart, node_range in HB. cbn [fst snd] in *. lia.
Qed.

Definition put (w : Z → Z) (a v : Z) : Z → Z := λ b, if b =? a then v else w b.
Definition cleared (w : Z → Z) (c n : Z) : Z → Z := λ a, if (c <=? a) && (a <? c + n) then 0 else w a.

Lemma put_ne w a v b : b ≠ a → put w a v b = w b.
Proof. intros Hb. unfold put. by rewrite (proj2 (Z.eqb_neq b a)). Qed.
Lemma put_eq w a v : put w a v a = v.
Proof. unfold put. by rewrite Z.eqb_refl. Qed.
Lemma cleared_out w c n a : ¬ (c ≤ a < c + n) → cleared w c n a = w a.
Proof. intros Ha. unfold cleared. destruct (Z.leb_spec c a), (Z.ltb_spec a (c + n)); cbn [andb]; (done || lia). Qed.
Lemma cleared_in w c n a : c ≤ a < c + n → cleared w c n a = 0.
Proof. intros Ha. unfold cleared. by rewrite (proj2 (Z.leb_le c a)), (proj2 (Z.ltb_lt a (c + n))) by lia. Qed.

(** A new node below another one. *)
Lemma add_node root w N B i p node j c :
  rt_inv root w N B → N !! (i, p) = Some node → (Datatypes.S i < h)%nat → 0 ≤ j < 2 ^ lbits i → N !! (Datatypes.S i, p * 2 ^ lbits i + j) = None →
  0 < c → Forall (ranges_apart (node_range (Datatypes.S i) c)) B →
  let w' := put (cleared w c (8 * 2 ^ lbits (Datatypes.S i))) (node + 8 * j) c in let N' := <[(Datatypes.S i, p * 2 ^ lbits i + j) := c]> N in
  rt_inv root w' N' (node_range (Datatypes.S i) c :: B) ∧ ∀ P, value w' N' P = value w N P.
Proof using L_pos L_sum.
  intros HI En Hi Hj Hnone Hc HB w' N'.
  assert (Hold : ∀ x a k, N !! x = Some a → 0 ≤ k < 2 ^ lbits x.1 → (x, k) ≠ ((i, p), j) → w' (a + 8 * k) = w (a + 8 * k)).
  { intros x a k Ea Hk Hne. unfold w'. rewrite put_ne by (eapply word_ne; [exact HI|exact Ea|exact En|exact Hk|exact Hj|exact Hne]). rewrite cleared_out; [done|]. by eapply word_fresh. }
  assert (Hnew : ∀ k, 0 ≤ k < 2 ^ lbits (Datatypes.S i) → w' (c + 8 * k) = 0).
  { intros k Hk. pose proof (word_fresh _ _ _ _ _ _ j _ _ HI En Hj HB). unfold w'. rewrite put_ne by lia. apply cleared_in. lia. }
  assert (Hlb : ∀ i, (i < h)%nat → 0 < 2 ^ lbits i) by (intros i' Hi'; apply pow2_pos; pose proof (lbits_pos i' Hi'); lia). split; [split|].
  - unfold N'. rewrite lookup_insert_ne by (by intros [= ?]). apply HI.
  - intros i' p' a [[[= <- <-] <-]|[_ Ea]]%lookup_insert_Some; [split_and!; [done|done|by left]|]. destruct (ri_node _ _ _ _ HI _ _ _ Ea) as (? & ? & ?). split_and!; [done|done|by right].
  - assert (Hfar : ∀ x a, N !! x = Some a → ranges_apart (node_range (Datatypes.S i) c) (node_range x.1 a)).
    { intros [i' p'] a Ea. rewrite Forall_forall in HB. apply HB. by apply (ri_node _ _ _ _ HI i' p'). }
    intros x y a b [[<- <-]|[_ Ea]]%lookup_insert_Some [[<- <-]|[_ Eb]]%lookup_insert_Some Hne; [done|by apply Hfar| |by eapply ri_apart].
    specialize (Hfar _ _ Ea). unfold ranges_apart in *. tauto.
  - intros i' p' a k [[[= <- <-] <-]|[Hne Ea]]%lookup_insert_Some Hi' Hk.
    + rewrite Hnew by done. unfold N'. rewrite lookup_insert_ne by (intros [= ?]; lia). destruct (N !! (Datatypes.S (Datatypes.S i), (p * 2 ^ lbits i + j) * 2 ^ lbits (Datatypes.S i) + k)) as [d|] eqn:Ed; [|done].
      assert (Hs : is_Some (N !! (Datatypes.S i, p * 2 ^ lbits i + j))); [|by rewrite Hnone in Hs; destruct Hs].
      replace (p * 2 ^ lbits i + j) with (((p * 2 ^ lbits i + j) * 2 ^ lbits (Datatypes.S i) + k) / 2 ^ lbits (Datatypes.S i)) by (by apply pair_div).
      eapply ri_parent; [exact HI|by rewrite Ed].
    + destruct (decide ((i', p', k) = (i, p, j))) as [[= -> -> ->]|Hne'].
      * rewrite En in Ea. injection Ea as <-. unfold w'. rewrite put_eq. unfold N'. by rewrite lookup_insert_eq.
      * rewrite (Hold (i', p')) by done. unfold N'. rewrite lookup_insert_ne; [by eapply ri_child|]. intros [= <- E]. apply Hne'.
        assert (E1 : (p * 2 ^ lbits i + j) / 2 ^ lbits i = (p' * 2 ^ lbits i + k) / 2 ^ lbits i) by (by rewrite E). rewrite (proj1 (pair_div p j _ Hj)), (proj1 (pair_div p' k _ Hk)) in E1.
        subst p'. assert (k = j) as -> by lia. done.
  - intros i' p'. unfold N' at 1. intros [d [[[= <- <-] <-]|[_ Ed]]%lookup_insert_Some].
    + rewrite (proj1 (pair_div p j _ Hj)). unfold N'. rewrite lookup_insert_ne by (intros [= ?]; lia). by rewrite En.
    + assert (Hs : is_Some (N !! (i', p' / 2 ^ lbits i'))) by (eapply ri_parent; [exact HI|by rewrite Ed]). unfold N'.
      destruct (decide ((Datatypes.S i, p * 2 ^ lbits i + j) = (i', p' / 2 ^ lbits i'))) as [->|Hne]; [rewrite lookup_insert_eq; by eexists|by rewrite lookup_insert_ne].
  - intros P. unfold value. pose proof (Z.mod_pos_bound P (2 ^ lbits (h - 1)) (Hlb (h - 1)%nat ltac:(lia))) as Hm. unfold N'.
    destruct (decide ((Datatypes.S i, p * 2 ^ lbits i + j) = ((h - 1)%nat, P / 2 ^ lbits (h - 1)))) as [E|Hne].
    + rewrite <- E, lookup_insert_eq, Hnone. injection E as Ei _. apply Hnew. by rewrite Ei.
    + rewrite lookup_insert_ne by done. destruct (N !! ((h - 1)%nat, P / 2 ^ lbits (h - 1))) as [a|] eqn:Ea; [|done]. apply (Hold ((h - 1)%nat, P / 2 ^ lbits (h - 1))); [done|done|].
      intros [= E1 _]. lia.
Qed.

(** A value in the last level. *)
Lemma put_value root w N B p a j v :
  rt_inv root w N B → (0 < h)%nat → N !! ((h - 1)%nat, p) = Some a → 0 ≤ j < 2 ^ lbits (h - 1) →
  let w' := put w (a + 8 * j) v in
  rt_inv root w' N B ∧ ∀ P, value w' N P = if P =? p * 2 ^ lbits (h - 1) + j then v else value w N P.
Proof using L_pos L_sum.
  intros HI Hh Ea Hj w'. assert (Hpos : 0 < 2 ^ lbits (h - 1)) by lia.
  assert (Hold : ∀ x b k, N !! x = Some b → 0 ≤ k < 2 ^ lbits x.1 → (x, k) ≠ ((h - 1)%nat, p, j) → w' (b + 8 * k) = w (b + 8 * k)).
  { intros x b k Eb Hk Hne. apply put_ne. by eapply (word_ne _ _ _ _ x ((h - 1)%nat, p)). }
  split; [destruct HI; split; try done|].
  - intros i p' b k Eb Hi Hk. rewrite (Hold (i, p')) by (done || (intros [= -> _ _]; lia)). by apply ri_child0.
  - intros P. unfold value. pose proof (Z.mod_pos_bound P _ Hpos) as Hm. pose proof (Z.div_mod P (2 ^ lbits (h - 1)) ltac:(lia)) as Hdm. destruct (Z.eqb_spec P (p * 2 ^ lbits (h - 1) + j)) as [->|Hne].
    + destruct (pair_div p j _ Hj) as [-> ->]. rewrite Ea. apply put_eq.
    + destruct (N !! ((h - 1)%nat, P / 2 ^ lbits (h - 1))) as [b|] eqn:Eb; [|done]. apply (Hold ((h - 1)%nat, P / 2 ^ lbits (h - 1))); [done|done|]. intros [= E1 E2]. apply Hne. nia.
Qed.

(** The words and the base allocator describe a tree with the values [V]. *)
Definition tree_of (root : Z) (s : rstate S) (V : Z → Z) : Prop := ∃ N B, rt_inv root (words s) N B ∧ bl_inv (rbase s) B ∧ ∀ P, value (words s) N P = V P.

Lemma wp_base_alloc sz s B (Q : option Z → rstate S → Prop) :
  bl_inv (rbase s) B → 0 < sz ≤ 2 ^ 62 → (∀ b, bl_inv b B → Q None (RState b (words s))) →
  (∀ b p, 0 < p → Forall (ranges_apart (p, sz)) B → bl_inv b ((p, sz) :: B) → Q (Some p) (RState b (words s))) → wp (base_alloc sz) s Q.
Proof.
  intros Hb Hsz Hn Hs. destruct (bl_alloc_ok _ _ _ Hb Hsz) as (r & b & E & Hr). unfold wp, base_alloc. rewrite E. destruct r as [p|]; [|by apply Hn]. destruct Hr as (? & ? & ?). by apply Hs.
Qed.

Lemma node_size_range i : (i < h)%nat → node_size (lbits i) = 8 * 2 ^ lbits i ∧ 0 < 8 * 2 ^ lbits i.
Proof using L_pos. intros Hi. pose proof (lbits_pos i Hi). unfold node_size. rewrite Z.shiftl_mul_pow2 by lia. pose proof (pow2_pos (lbits i) ltac:(lia)). lia. Qed.

(** Nodes are not so large that the base allocator cannot serve them. *)
Hypothesis L_small : Forall (λ b, b ≤ 58) L.

Lemma lbits_small i : (i < h)%nat → 8 * 2 ^ lbits i ≤ 2 ^ 62.
Proof using L_pos L_small.
  intros Hi. destruct (lookup_lt_is_Some_2 L i Hi) as [b Eb]. assert (Hb : lbits i ≤ 58) by (unfold lbits; rewrite (list_lookup_total_correct _ _ _ Eb); by eapply (Forall_lookup_1 _ _ _ _ L_small)).
  pose proof (lbits_pos i Hi). assert (2 ^ lbits i ≤ 2 ^ 58) by (apply Z.pow_le_mono_r; lia). lia.
Qed.

Definition set_value (V : Z → Z) P v : Z → Z := λ P', if P' =? P then v else V P'.

Lemma wp_set_loop root key v bs i node s N B V (Q : bool → rstate S → Prop) :
  is_u64 key → drop i L = bs → bs ≠ [] → rt_inv root (words s) N B → bl_inv (rbase s) B → (∀ P, value (words s) N P = V P) →
  N !! (i, prefix key (lsum i)) = Some node →
  (∀ s', tree_of root s' V → Q true s') → (∀ s', tree_of root s' (set_value V (prefix key (lsum h)) v) → Q false s') → wp (set_loop bs key (lsum i) node v) s Q.
Proof using L_pos L_sum L_small.
  intros Hk. revert i node s N B. induction bs as [|b bs IH]; intros i node s N B Ed Hne HI Hb HV En Hoom Hok; [done|].
  destruct (drop_cons_inv _ _ _ _ Ed) as (Eb & Ed' & Hi). assert (Elb : lbits i = b) by (by apply list_lookup_total_correct).
  destruct (prefix_S key i Hk Hi) as [Hs Ep]. destruct bs as [|b' bs].
  - assert (Eh : h = Datatypes.S i) by (apply (f_equal length) in Ed'; rewrite length_drop in Ed'; cbn in Ed'; lia).
    cbn [set_loop]. unfold put_word. wsteps. assert (Ei : (h - 1)%nat = i) by lia. rewrite <- Elb.
    destruct (put_value root (words s) N B (prefix key (lsum i)) node (subkey key (lsum i) (lbits i)) v HI ltac:(lia)) as [HI' HV']; [by rewrite Ei|by rewrite Ei|].
    apply Hok. exists N, B. cbn [words rbase]. split_and!; [exact HI'|done|]. intros P. change (value (put (words s) (node + 8 * subkey key (lsum i) (lbits i)) v) N P = set_value V (prefix key (lsum h)) v P).
    rewrite HV', Ei, <- Ep, <- Eh. unfold set_value. by destruct (P =? _).
  - destruct (drop_cons_inv _ _ _ _ Ed') as (Eb' & _ & Hi'). assert (Elb' : lbits (Datatypes.S i) = b') by (by apply list_lookup_total_correct).
    assert (Els : lsum i + b = lsum (Datatypes.S i)) by (rewrite lsum_S by done; lia).
    pose proof (ri_child _ _ _ _ HI i _ _ _ En Hi' Hs) as Ec. rewrite <- Ep in Ec.
    change (set_loop (b :: b' :: bs) key (lsum i) node v) with
      (let at_ := node + 8 * subkey key (lsum i) b in child ← gets (λ s : rstate S, words s at_);
       if child =? 0 then child ← base_alloc (node_size b'); match child with None => mret true | Some child => zero_words child (node_size b');; put_word at_ child;; set_loop (b' :: bs) key (lsum i + b) child v end
       else set_loop (b' :: bs) key (lsum i + b) child v). cbv zeta. subst b b'. rewrite Els. wsteps. rewrite Ec.
    destruct (N !! (Datatypes.S i, prefix key (lsum (Datatypes.S i)))) as [c|] eqn:En'; cbn [default from_option id].
    + destruct (ri_node _ _ _ _ HI _ _ _ En') as (_ & Hc & _). rewrite (proj2 (Z.eqb_neq c 0)) by lia. by eapply IH.
    + cbn [Z.eqb]. destruct (node_size_range (Datatypes.S i) Hi') as [Esz Hsz]. rewrite Esz. apply wp_bind. eapply wp_base_alloc; [exact Hb|split; [done|by apply lbits_small]| |].
      * intros b0 Hb0. apply wp_ret. apply Hoom. exists N, B. by split_and!.
      * intros b0 c Hc Hap Hb0. unfold zero_words, put_word. wsteps. cbn [words rbase]. rewrite Ep in En'. destruct (add_node root (words s) N B i _ node _ c HI En Hi' Hs En' Hc Hap) as [HI1 HV1].
        eapply (IH (Datatypes.S i) c _ (<[(Datatypes.S i, prefix key (lsum i) * 2 ^ lbits i + subkey key (lsum i) (lbits i)) := c]> N) (node_range (Datatypes.S i) c :: B));
          [done|done|exact HI1|exact Hb0| | |exact Hoom|exact Hok].
        -- intros P. rewrite <- HV. exact (HV1 P).
        -- rewrite Ep. apply lookup_insert_eq.
Qed.
End inv.

(** ** A tree as a map *)

Lemma bits_per_level_3 : bits_per_level = 3.
Proof. vm_compute. reflexivity. Qed.

Definition levels (bits : Z) : Z := if bits / bits_per_level * bits_per_level =? bits then bits / bits_per_level else bits / bits_per_level + 1.

Lemma level_bits_ok bits : 1 ≤ bits ≤ 64 →
  let L := level_bits bits (levels bits) in
  Forall (λ b, 1 ≤ b) L ∧ Forall (λ b, b ≤ 58) L ∧ lsum L (length L) = bits ∧ 1 ≤ levels bits ≤ 22 ∧ bits ≤ levels bits * bits_per_level.
Proof.
  intros Hb. assert (Hall : Forall (λ bits, Forall (λ b, 1 ≤ b) (level_bits bits (levels bits)) ∧ Forall (λ b, b ≤ 58) (level_bits bits (levels bits)) ∧
    lsum (level_bits bits (levels bits)) (length (level_bits bits (levels bits))) = bits ∧ 1 ≤ levels bits ≤ 22 ∧ bits ≤ levels bits * bits_per_level) (Z.of_nat <$> seq 1 64)).
  { apply (bool_decide_unpack _). by vm_compute. }
  rewrite Forall_forall in Hall. apply Hall. apply list_elem_of_fmap. exists (Z.to_nat bits). split; [lia|]. apply elem_of_seq. lia.
Qed.

Section map.
Context {S : Type} `{BL : BaseLayer S} `{!BaseLayerLaws S}.
Context (malloc_mutex_init : bool).
Implicit Types (s : rstate S) (V : Z → Z) (key : Z) (rt : rtree).

Definition rtree_ok rt bits s V : Prop := level2bits rt = level_bits bits (levels bits) ∧ tree_of (level2bits rt) (root rt) s V.

Lemma wp_rtree_new bits s B (Q : option rtree → rstate S → Prop) :
  1 ≤ bits ≤ 64 → bl_inv (rbase s) B → (∀ s', Q None s') → (∀ rt s', rtree_ok rt bits s' (λ _, 0) → Q (Some rt) s') → wp (rtree_new malloc_mutex_init bits) s Q.
Proof.
  intros Hb Hi Hn Hs. destruct (level_bits_ok bits Hb) as (Hpos & Hsmall & Hsum & Hlv & Hle). unfold rtree_new. fold (levels bits). cbv zeta. apply wp_bind.
  apply wp_check; [by apply Z.leb_le|]. apply wp_bind. eapply wp_base_alloc; [exact Hi|lia|intros; by apply wp_ret|]. intros b p _ _ Hi1. unfold zero_words. wsteps.
  destruct malloc_mutex_init; [by apply wp_ret|]. set (L := level_bits bits (levels bits)) in *. apply wp_bind. assert (Hh : (0 < length L)%nat) by (cbn; lia).
  eapply (wp_lift _ (lbits L 0)); [done|]. destruct (node_size_range L Hpos 0 Hh) as [Esz Hsz]. rewrite Esz. apply wp_bind.
  eapply wp_base_alloc; [exact Hi1|split; [done|by apply lbits_small]|intros; by apply wp_ret|]. intros b1 r Hr Hap Hi2. wsteps. cbn [words rbase]. apply Hs. split; [done|].
  exists {[(0%nat, 0) := r]}, (node_range L 0 r :: (p, 52 + 4 * levels bits) :: B). cbn [words rbase root level2bits].
  split_and!; [split|exact Hi2|].
  - apply lookup_singleton_eq.
  - intros i q a [[= <- <-] <-]%lookup_singleton_Some. split_and!; [done|done|by left].
  - intros x y a c [<- <-]%lookup_singleton_Some [<- <-]%lookup_singleton_Some. done.
  - intros i q a j [[= <- <-] <-]%lookup_singleton_Some Hi' Hj. rewrite (proj2 (Z.leb_le r _)), (proj2 (Z.ltb_lt _ (r + 8 * 2 ^ lbits L 0))), lookup_singleton_ne by (done || lia). done.
  - intros i q [a [[= ?] _]%lookup_singleton_Some].
  - intros P. unfold value. destruct (_ !! _) as [a|] eqn:E; [|done]. apply lookup_singleton_Some in E as [E0%(f_equal fst) <-]. change (0%nat = (length L - 1)%nat) in E0. rewrite <- E0.
    pose proof (Z.mod_pos_bound P (2 ^ lbits L 0) ltac:(lia)). by rewrite (proj2 (Z.leb_le r _)), (proj2 (Z.ltb_lt _ (r + 8 * 2 ^ lbits L 0))) by lia.
Qed.

Lemma rtree_get_ok rt bits s V key :
  1 ≤ bits ≤ 64 → rtree_ok rt bits s V → is_u64 key → rtree_get rt key s = Some (V (prefix key bits), s).
Proof.
  intros Hb [EL (N & B & HI & _ & HV)] Hk. destruct (level_bits_ok bits Hb) as (Hpos & _ & Hsum & Hlv & _). rewrite <- EL in *.
  unfold rtree_get, mbind, M_bind, gets, lift. assert (Hne : level2bits rt ≠ []) by (rewrite EL; done).
  pose proof (prefix_0 (level2bits rt) key Hk) as Hp.
  pose proof (get_loop_ok (level2bits rt) Hpos ltac:(rewrite Hsum; lia) (root rt) (words s) N B key 0 (level2bits rt) (root rt) HI Hk eq_refl Hne) as Hg.
  rewrite Hp in Hg. specialize (Hg (ri_root _ _ _ _ _ HI)). change (lsum (level2bits rt) 0) with 0 in Hg. rewrite Hg, Hsum, HV. done.
Qed.

Lemma wp_rtree_set rt bits s V key v (Q : bool → rstate S → Prop) :
  1 ≤ bits ≤ 64 → rtree_ok rt bits s V → is_u64 key →
  (∀ s', rtree_ok rt bits s' V → Q true s') → (∀ s', rtree_ok rt bits s' (set_value V (prefix key bits) v) → Q false s') → wp (rtree_set rt key v) s Q.
Proof.
  intros Hb [EL (N & B & HI & Hi & HV)] Hk Hoom Hok. destruct (level_bits_ok bits Hb) as (Hpos & Hsmall & Hsum & Hlv & _). rewrite <- EL in *. unfold rtree_set.
  change 0 with (lsum (level2bits rt) 0) at 1. eapply (wp_set_loop (level2bits rt) Hpos _ Hsmall (root rt) key v (level2bits rt) 0);
    [exact Hk|done|by rewrite EL|exact HI|exact Hi|exact HV|rewrite prefix_0 by done; apply HI| |].
  - intros s' Ht. by apply Hoom.
  - intros s' Ht. apply Hok. split; [done|]. by rewrite Hsum in Ht.
    Unshelve. rewrite Hsum. lia.
Qed.

(** A sequence of calls of [rtree_set], with their results. *)
Fixpoint run_sets rt (ops : list (Z * Z)) : M (rstate S) (list bool) :=
  match ops with
  | [] => mret []
  | (key, v) :: ops => r ← rtree_set rt key v; rs ← run_sets rt ops; mret (r :: rs)
  end.

(** The map that the calls which did not fail leave. *)
Fixpoint stored (bits : Z) V (ops : list (Z * Z)) (rs : list bool) : Z → Z :=
  match ops, rs with
  | (key, v) :: ops, r :: rs => stored bits (if r then V else set_value V (prefix key bits) v) ops rs
  | _, _ => V
  end.

Lemma wp_run_sets rt bits ops s V :
  1 ≤ bits ≤ 64 → rtree_ok rt bits s V → Forall (λ o, is_u64 o.1) ops →
  wp (run_sets rt ops) s (λ rs s', length rs = length ops ∧ rtree_ok rt bits s' (stored bits V ops rs)).
Proof.
  intros Hb Ht Hops. revert s V Ht. induction Hops as [|[key v] ops Hk _ IH]; intros s V Ht; cbn [run_sets]; [by apply wp_ret|].
  apply wp_bind. eapply wp_rtree_set; [done|exact Ht|exact Hk| |]; intros s' Ht'; apply wp_bind; (eapply wp_mono; [by apply IH|]);
    intros rs s'' [El Hs]; apply wp_ret; cbn [length stored]; (split; [by rewrite El|exact Hs]).
Qed.

(** C28 The radix tree is a map from the upper [bits] bits of keys to values.
    After any calls of [rtree_set] on a new tree, [rtree_get] returns the value
    of the last call with the same upper bits that did not fail, and 0 when there is
    none; a call that fails for want of memory changes no value. *)
Theorem rtree_refines_map bits s B :
  1 ≤ bits ≤ 64 → bl_inv (rbase s) B →
  ∃ r s', rtree_new malloc_mutex_init bits s = Some (r, s') ∧
    ∀ rt ops, r = Some rt → Forall (λ o, is_u64 o.1) ops →
      ∃ rs s'', run_sets rt ops s' = Some (rs, s'') ∧ length rs = length ops ∧
        ∀ key, is_u64 key → rtree_get rt key s'' = Some (stored bits (λ _, 0) ops rs (prefix key bits), s'').
Proof.
  intros Hb Hi. apply wp_Some. eapply wp_rtree_new; [exact Hb|exact Hi|by intros s' rt ops [=]|]. intros rt s' Ht rt' ops [= <-] Hops.
  pose proof (wp_run_sets rt bits ops s' _ Hb Ht Hops) as Hw. apply wp_Some in Hw as (rs & s'' & E & El & Ht'). exists rs, s''. split_and!; [done|done|].
  intros key Hk. by apply rtree_get_ok.
Qed.
End map.
