(* ===== verification/RtreeSystem.v ===== *)
(** * The radix tree over the base allocator

    The base allocator of the chunk layer never hands out memory twice, which
    is all that the radix tree asks of it. *)

From S2P Require Import Prelude OrdTree Rb SizeClass BinInfo Chunk ChunkIface ChunkSpec ChunkSystem Rtree.

Section instance.
Context `{Config} {T : Type} `{OT : OrdTree T Z} `{!OrdTreeLaws T Z}.
Context (os_mmap : list (Z * Z) → Z → option Z).
Hypothesis Hmmap : mmap_ok os_mmap.
Implicit Types (s : state (T := T)).

#[export] Instance chunk_base : BaseLayer (state (T := T)) := {| bl_alloc := Chunk.base_alloc os_mmap |}.

(** The ranges in use lie in what the base allocator gave away, whose sizes are rounded up. *)
Definition base_in_use s (B : list (Z * Z)) : Prop := ∃ C B', good s C B' ∧ Forall2 (λ b b', b.1 = b'.1 ∧ b.2 ≤ b'.2) B B'.

#[export] Instance chunk_base_laws : BaseLayerLaws (state (T := T)).
Proof using Type*.
  refine {| bl_inv := base_in_use |}. intros s B sz (C & B' & Hg & HB) Hsz. destruct (good_base os_mmap Hmmap s C B' sz Hg Hsz) as (r & s' & E & Hg').
  exists r, s'. split; [exact E|]. destruct (cacheline_ceiling_ok sz Hsz) as [Hc _]. destruct r as [p|]; [|by exists C, B']. cbn in Hg'.
  assert (Hp : (C ++ (p, CACHELINE_CEILING sz) :: B') !! length C = Some (p, CACHELINE_CEILING sz)) by (by apply list_lookup_middle). split_and!.
  - destruct Hg' as (X & Hi & _). by destruct (inv_live _ _ _ Hi (p, CACHELINE_CEILING sz) ltac:(by eapply list_elem_of_lookup_2)) as (? & _).
  - apply Forall_lookup_2. intros i b Eb. destruct (Forall2_lookup_l _ _ _ _ _ HB Eb) as (b' & Eb' & E1 & E2).
    assert (Hq : (C ++ (p, CACHELINE_CEILING sz) :: B') !! (length C + S i)%nat = Some b') by (rewrite lookup_app_r by lia; by replace (length C + S i - length C)%nat with (S i) by lia).
    assert (Hne : length C ≠ (length C + S i)%nat) by lia. pose proof (good_disjoint _ _ _ _ _ _ _ Hg' Hp Hq Hne) as Hap. unfold ranges_apart in *. cbn in *. lia.
  - exists C, ((p, CACHELINE_CEILING sz) :: B'). split; [done|]. constructor; [cbn; lia|done].
Defined.
End instance.

(** ** A concrete tree *)

Section witnesses.
#[local] Existing Instance default_config.
Abbreviation cst := (state (T := rbt Z)).
#[local] Instance sample_base : BaseLayer cst := chunk_base bump_mmap.
#[local] Instance sample_base_laws : BaseLayerLaws cst := chunk_base_laws bump_mmap bump_mmap_ok.

Definition rtree0 : rstate cst := RState (boot_state []) (λ _, 99).

Lemma rtree0_ok : bl_inv (rbase rtree0) [].
Proof. exists [], []. split; [apply (boot_good bump_mmap bump_mmap_ok [] no_mappings)|constructor]. Qed.

Definition two_chunks : list (Z * Z) := [(2 ^ 40, 7); (2 ^ 40 + 2 ^ 24, 8)].

(** The upper 40 bits, for chunks of 2^24 bytes. *)
Lemma rtree_refines_map_witness :
  ∃ r s', rtree_new false 40 rtree0 = Some (r, s') ∧
    ∀ rt, r = Some rt → ∃ rs s'', run_sets rt two_chunks s' = Some (rs, s'') ∧
      ∀ key, is_u64 key → rtree_get rt key s'' = Some (stored 40 (λ _, 0) two_chunks rs (prefix key 40), s'').
Proof.
  assert (Hb : 1 ≤ 40 ≤ 64) by lia. destruct (rtree_refines_map false 40 rtree0 [] Hb rtree0_ok) as (r & s' & E & Hr).
  exists r, s'. split; [exact E|]. intros rt Ert. destruct (Hr rt two_chunks Ert) as (rs & s'' & E' & _ & Hg).
  - repeat (constructor; [split; cbn; lia|]). constructor.
  - exists rs, s''. split; [exact E'|exact Hg].
Defined.

Example rtree_sample :
  (rt ← rtree_new false 40; match rt with None => mret [] | Some rt => run_sets rt two_chunks;; a ← rtree_get rt (2 ^ 40 + 5); b ← rtree_get rt (2 ^ 40 + 2 ^ 24); c ← rtree_get rt 0; mret [a; b; c] end) rtree0
  ≫= (λ r, Some r.1) = Some [7; 8; 0].
Proof. vm_compute. reflexivity. Qed.
End witnesses.
