(* ===== verification/Rbtree.v ===== *)
(** * The trees of the object store (rbtree.cc)

    Red-black trees whose nodes point to their parents.  A tree is its root
    and the memory of its nodes by address; 0 is the null pointer, and
    following it has no result.  [malloc] of a node is an argument of which
    only the documented behaviour is assumed: the address is not null and not
    in use.  Loops and recursions have as fuel the number of nodes. *)

From S2P Require Import Prelude.

Inductive color := RED | BLACK.
#[export] Instance color_eq_dec : EqDecision color.
Proof. solve_decision. Defined.

Record node (V : Type) := Node { key : Z; value : V; left : Z; right : Z; parent : Z; ncolor : color }.
Arguments Node {V} _ _ _ _ _ _.
Arguments key {V} _.
Arguments value {V} _.
Arguments left {V} _.
Arguments right {V} _.
Arguments parent {V} _.
Arguments ncolor {V} _.

Record rbtree (V : Type) := RbTree { root : Z; nodes : gmap Z (node V) }.
Arguments RbTree {V} _ _.
Arguments root {V} _.
Arguments nodes {V} _.

Section rbtree.
Context {V : Type}.
(** The address that [malloc] returns, from those in use. *)
Context (malloc : gset Z → Z).
Abbreviation MT := (M (rbtree V)).
Implicit Types (n oldn newn : Z) (x : node V).

Definition set_key k x := Node k (value x) (left x) (right x) (parent x) (ncolor x).
Definition set_value (v : V) x := Node (key x) v (left x) (right x) (parent x) (ncolor x).
Definition set_left l x := Node (key x) (value x) l (right x) (parent x) (ncolor x).
Definition set_right r x := Node (key x) (value x) (left x) r (parent x) (ncolor x).
Definition set_parent p x := Node (key x) (value x) (left x) (right x) p (ncolor x).
Definition set_color c x := Node (key x) (value x) (left x) (right x) (parent x) c.

(** [n->field] and [n->field = ...]. *)
Definition get {A} (f : node V → A) n : MT A := t ← gets id; x ← lift (nodes t !! n); mret (f x).
Definition put (f : node V → node V) n : MT unit := x ← get id n; modify (λ t, RbTree (root t) (<[n := f x]> (nodes t))).
Definition set_root n : MT unit := modify (λ t, RbTree n (nodes t)).

Definition grandparent n : MT Z :=
  p ← get parent n; check (negb (p =? 0));; g ← get parent p; check (negb (g =? 0));; mret g.
Definition sibling n : MT Z :=
  p ← get parent n; check (negb (p =? 0));; l ← get left p; if n =? l then get right p else get left p.
Definition uncle n : MT Z :=
  p ← get parent n; check (negb (p =? 0));; g ← get parent p; check (negb (g =? 0));; sibling p.

Definition node_color n : MT color := if n =? 0 then mret BLACK else get ncolor n.
Definition is_color (c : color) (m : MT Z) : MT bool := n ← m; c' ← node_color n; mret (bool_decide (c' = c)).

(** ** Checks of the red-black properties *)

Fixpoint verify_property_1 (fuel : nat) n : MT unit :=
  match fuel with
  | O => lift None
  | S fuel =>
      c ← node_color n; check (bool_decide (c = RED ∨ c = BLACK));;
      if n =? 0 then mret tt
      else l ← get left n; verify_property_1 fuel l;; r ← get right n; verify_property_1 fuel r
  end.

Definition verify_property_2 n : MT unit := c ← node_color n; check (bool_decide (c = BLACK)).

Fixpoint verify_property_4 (fuel : nat) n : MT unit :=
  match fuel with
  | O => lift None
  | S fuel =>
      c ← node_color n;
      (if decide (c = RED) then
         b ← is_color BLACK (get left n); check b;;
         b ← is_color BLACK (get right n); check b;;
         b ← is_color BLACK (get parent n); check b
       else mret tt);;
      if n =? 0 then mret tt
      else l ← get left n; verify_property_4 fuel l;; r ← get right n; verify_property_4 fuel r
  end.

(** The pointed-to count is passed on and returned. *)
Fixpoint verify_property_5_helper (fuel : nat) n (black_count path_black_count : Z) : MT Z :=
  match fuel with
  | O => lift None
  | S fuel =>
      c ← node_color n;
      let black_count := if decide (c = BLACK) then black_count + 1 else black_count in
      if n =? 0 then
        if path_black_count =? -1 then mret black_count
        else check (black_count =? path_black_count);; mret path_black_count
      else
        l ← get left n; path_black_count ← verify_property_5_helper fuel l black_count path_black_count;
        r ← get right n; verify_property_5_helper fuel r black_count path_black_count
  end.

Definition verify_property_5 (fuel : nat) n : MT unit := verify_property_5_helper fuel n 0 (-1);; mret tt.

Definition fuel_of (t : rbtree V) : nat := S (size (nodes t)).

Definition verify_properties : MT unit :=
  t ← gets id; let fuel := fuel_of t in
  verify_property_1 fuel (root t);; verify_property_2 (root t);; verify_property_4 fuel (root t);; verify_property_5 fuel (root t).

(** ** Searching *)

(** [compare n key n->key]: negative, 0 or positive. *)
Abbreviation compare_func := (option (node V) → Z → Z → Z).

Fixpoint lookup_loop (fuel : nat) (k : Z) (compare : compare_func) n : MT Z :=
  if n =? 0 then mret n
  else
    match fuel with
    | O => lift None
    | S fuel =>
        x ← get id n;
        let comp_result := compare (Some x) k (key x) in
        if comp_result =? 0 then mret n
        else if comp_result <? 0 then lookup_loop fuel k compare (left x)
        else lookup_loop fuel k compare (right x)
    end.

Definition lookup_node (k : Z) (compare : compare_func) : MT Z := t ← gets id; lookup_loop (fuel_of t) k compare (root t).

Definition rbtree_lookup (k : Z) (compare : compare_func) : MT (option V) :=
  n ← lookup_node k compare; if n =? 0 then mret None else v ← get value n; mret (Some v).

(** ** Rotations *)

Definition replace_node oldn newn : MT unit :=
  p ← get parent oldn;
  (if p =? 0 then set_root newn
   else l ← get left p; if oldn =? l then put (set_left newn) p else put (set_right newn) p);;
  if newn =? 0 then mret tt else p ← get parent oldn; put (set_parent p) newn.

Definition rotate_left n : MT unit :=
  r ← get right n;
  replace_node n r;;
  rl ← get left r;
  put (set_right rl) n;;
  (if rl =? 0 then mret tt else put (set_parent n) rl);;
  put (set_left n) r;;
  put (set_parent r) n.

Definition rotate_right n : MT unit :=
  l ← get left n;
  replace_node n l;;
  lr ← get right l;
  put (set_left lr) n;;
  (if lr =? 0 then mret tt else put (set_parent n) lr);;
  put (set_right n) l;;
  put (set_parent l) n.

(** ** Insertion *)

Definition new_node (k : Z) (v : V) (c : color) (l r : Z) : MT Z :=
  t ← gets id;
  let result := malloc (dom (nodes t)) in
  modify (λ t, RbTree (root t) (<[result := Node k v l r 0 c]> (nodes t)));;
  (if l =? 0 then mret tt else put (set_parent result) l);;
  (if r =? 0 then mret tt else put (set_parent result) r);;
  mret result.

Definition free n : MT unit := get id n;; modify (λ t, RbTree (root t) (delete n (nodes t))).

(** Whether [n] is the left or the right child of its parent. *)
Definition is_left n : MT bool := p ← get parent n; l ← get left p; mret (n =? l).
Definition is_right n : MT bool := p ← get parent n; r ← get right p; mret (n =? r).

Definition insert_case5 n : MT unit :=
  p ← get parent n; put (set_color BLACK) p;;
  g ← grandparent n; put (set_color RED) g;;
  b ← is_left n; b' ← is_left p;
  if b && b' then rotate_right g
  else c ← is_right n; c' ← is_right p; check (c && c');; rotate_left g.

Definition insert_case4 n : MT unit :=
  p ← get parent n;
  b ← is_right n; g ← grandparent n; l ← get left g;
  if b && (p =? l) then rotate_left p;; n ← get left n; insert_case5 n
  else
    b ← is_left n; r ← get right g;
    if b && (p =? r) then rotate_right p;; n ← get right n; insert_case5 n
    else insert_case5 n.

Definition insert_case3 (insert_case1 : Z → MT unit) n : MT unit :=
  b ← is_color RED (uncle n);
  if b : bool then
    p ← get parent n; put (set_color BLACK) p;;
    u ← uncle n; put (set_color BLACK) u;;
    g ← grandparent n; put (set_color RED) g;;
    insert_case1 g
  else insert_case4 n.

Definition insert_case2 (insert_case1 : Z → MT unit) n : MT unit :=
  b ← is_color BLACK (get parent n); if b : bool then mret tt else insert_case3 insert_case1 n.

Fixpoint insert_case1 (fuel : nat) n : MT unit :=
  match fuel with
  | O => lift None
  | S fuel => p ← get parent n; if p =? 0 then put (set_color BLACK) n else insert_case2 (insert_case1 fuel) n
  end.

(** The node below which the new one was put, or [None] if the key was there. *)
Fixpoint insert_loop (fuel : nat) (k : Z) (v : V) (compare : compare_func) (inserted_node n : Z) : MT (option Z) :=
  match fuel with
  | O => lift None
  | S fuel =>
      x ← get id n;
      let comp_result := compare None k (key x) in
      if comp_result =? 0 then put (set_value v) n;; free inserted_node;; mret None
      else if comp_result <? 0 then
        if left x =? 0 then put (set_left inserted_node) n;; mret (Some n)
        else insert_loop fuel k v compare inserted_node (left x)
      else
        if right x =? 0 then put (set_right inserted_node) n;; mret (Some n)
        else insert_loop fuel k v compare inserted_node (right x)
  end.

Definition rbtree_insert (k : Z) (v : V) (compare : compare_func) : MT unit :=
  inserted_node ← new_node k v RED 0 0;
  t ← gets id;
  if root t =? 0 then set_root inserted_node;; insert_case1 (fuel_of t) inserted_node
  else
    n ← insert_loop (fuel_of t) k v compare inserted_node (root t);
    match n with
    | None => mret tt
    | Some n => put (set_parent n) inserted_node;; insert_case1 (fuel_of t) inserted_node
    end.

(** ** Deletion *)

Fixpoint maximum_node (fuel : nat) n : MT Z :=
  match fuel with
  | O => lift None
  | S fuel => r ← get right n; if r =? 0 then mret n else maximum_node fuel r
  end.

Definition delete_case6 n : MT unit :=
  p ← get parent n; c ← node_color p; s ← sibling n; put (set_color c) s;;
  put (set_color BLACK) p;;
  b ← is_left n;
  if b : bool then
    s ← sibling n; r ← get right s; c ← node_color r; check (bool_decide (c = RED));;
    put (set_color BLACK) r;; rotate_left p
  else
    s ← sibling n; l ← get left s; c ← node_color l; check (bool_decide (c = RED));;
    put (set_color BLACK) l;; rotate_right p.

(** The conjunction of C: what follows is evaluated only if [b] holds. *)
Definition and_then (b : bool) (m : MT bool) : MT bool := if b then m else mret false.

Definition delete_case5 n : MT unit :=
  l ← is_left n;
  b ← and_then l (is_color BLACK (sibling n));
  b ← and_then b (is_color RED (s ← sibling n; get left s));
  b ← and_then b (is_color BLACK (s ← sibling n; get right s));
  (if b : bool then
     s ← sibling n; put (set_color RED) s;; sl ← get left s; put (set_color BLACK) sl;; rotate_right s
   else
     r ← is_right n;
     b ← and_then r (is_color BLACK (sibling n));
     b ← and_then b (is_color RED (s ← sibling n; get right s));
     b ← and_then b (is_color BLACK (s ← sibling n; get left s));
     if b : bool then
       s ← sibling n; put (set_color RED) s;; sr ← get right s; put (set_color BLACK) sr;; rotate_left s
     else mret tt);;
  delete_case6 n.

(** The parent has color [c]; the sibling and its children are black. *)
Definition black_sibling (c : color) n : MT bool :=
  b ← is_color c (get parent n);
  b ← and_then b (is_color BLACK (sibling n));
  b ← and_then b (is_color BLACK (s ← sibling n; get left s));
  and_then b (is_color BLACK (s ← sibling n; get right s)).

Definition delete_case4 n : MT unit :=
  b ← black_sibling RED n;
  if b : bool then s ← sibling n; put (set_color RED) s;; p ← get parent n; put (set_color BLACK) p
  else delete_case5 n.

Definition delete_case3 (delete_case1 : Z → MT unit) n : MT unit :=
  b ← black_sibling BLACK n;
  if b : bool then s ← sibling n; put (set_color RED) s;; p ← get parent n; delete_case1 p
  else delete_case4 n.

Definition delete_case2 (delete_case1 : Z → MT unit) n : MT unit :=
  b ← is_color RED (sibling n);
  (if b : bool then
     p ← get parent n; put (set_color RED) p;;
     s ← sibling n; put (set_color BLACK) s;;
     b ← is_left n; if b : bool then rotate_left p else rotate_right p
   else mret tt);;
  delete_case3 delete_case1 n.

Fixpoint delete_case1 (fuel : nat) n : MT unit :=
  match fuel with
  | O => lift None
  | S fuel => p ← get parent n; if p =? 0 then mret tt else delete_case2 (delete_case1 fuel) n
  end.

(** The node that is taken out: [n], or its predecessor after its key and value were copied to [n]. *)
Definition delete_at n : MT Z :=
  x ← get id n;
  if (left x =? 0) || (right x =? 0) then mret n
  else
    t ← gets id;
    pred ← maximum_node (fuel_of t) (left x);
    k ← get key pred; put (set_key k) n;;
    v ← get value pred; put (set_value v) n;;
    mret pred.

Definition rbtree_delete (k : Z) (compare : compare_func) : MT unit :=
  n ← lookup_node k compare;
  if n =? 0 then mret tt
  else
    n ← delete_at n;
    x ← get id n;
    check ((left x =? 0) || (right x =? 0));;
    let child := if right x =? 0 then left x else right x in
    c ← node_color n;
    (if decide (c = BLACK) then
       c' ← node_color child; put (set_color c') n;;
       t ← gets id; delete_case1 (fuel_of t) n
     else mret tt);;
    replace_node n child;;
    p ← get parent n;
    (if (p =? 0) && negb (child =? 0) then put (set_color BLACK) child else mret tt);;
    free n.
End rbtree.

Definition rbtree_create {V} : rbtree V := RbTree 0 ∅.

(** The comparison of all insertions and deletions (nv_map.cc). *)
Definition IntComp {V} (n : option (node V)) (a b : Z) : Z := if b <? a then 1 else if a <? b then -1 else 0.
