(* ===== verification/RbtreeSpec.v ===== *)
(** * The trees of the object store: lemmas

    The tree that the nodes in memory form, with a focus: a subtree and the path
    above it.  Each step of the code is a step between such trees. *)

From S2P Require Import Prelude Rbtree.

(** What the addresses of a focused tree being different says. *)
Ltac nodup :=
  repeat match goal with
  | H : NoDup ((_ ++ _) ++ _) |- _ => rewrite <- app_assoc in H
  | H : NoDup ((_ :: _) ++ _) |- _ => rewrite <- app_comm_cons in H
  | H : NoDup (_ :: _) |- _ => rewrite NoDup_cons in H
  | H : NoDup (_ ++ _) |- _ => rewrite NoDup_app in H
  | H : _ ∉ _ :: _ |- _ => rewrite not_elem_of_cons in H
  | H : _ ∉ _ ++ _ |- _ => rewrite not_elem_of_app in H
  | H : _ ∧ _ |- _ => destruct H
  end.
(** That the addresses of a part are none of others. *)
Ltac apart :=
  let b := fresh "b" in let Hb := fresh "Hb" in
  intros b Hb; repeat match goal with H : ∀ x, x ∈ ?A → x ∉ _, Hb : b ∈ ?A |- _ => specialize (H b Hb) end; nodup;
  repeat match goal with
  | |- _ ∧ _ => split
  | |- b ≠ _ => intros ->; contradiction
  | |- b ∉ _ :: _ => rewrite not_elem_of_cons
  | |- b ∉ _ ++ _ => rewrite not_elem_of_app
  | |- b ∉ ?B => first [assumption | let Hc := fresh in intros Hc; match goal with H : ∀ x, x ∈ B → x ∉ _ |- _ => specialize (H b Hc); nodup; contradiction end]
  end.

(** Both sides list the same keys and values. *)
Ltac in_order := cbn; repeat (rewrite <- app_assoc; cbn); reflexivity.

Section tree.
Context {V : Type}.
Implicit Types (h : gmap Z (node V)) (s : rbtree V) (a n : Z) (D : gset Z).

Inductive tree := E | N (a : Z) (c : color) (l : tree) (k : Z) (v : V) (r : tree).

Definition is_E (t : tree) : bool := match t with E => true | N _ _ _ _ _ _ => false end.
Definition tcolor (t : tree) : color := match t with E => BLACK | N _ c _ _ _ _ => c end.
Definition addr (t : tree) : Z := match t with E => 0 | N a _ _ _ _ _ => a end.
Fixpoint addrs (t : tree) : list Z := match t with E => [] | N a _ l _ _ r => a :: addrs l ++ addrs r end.
Fixpoint inord (t : tree) : list (Z * V) := match t with E => [] | N _ _ l k v r => inord l ++ (k, v) :: inord r end.

(** A node whose left, or right, child is the focus. *)
Inductive frame := FL (a : Z) (c : color) (k : Z) (v : V) (r : tree) | FR (a : Z) (c : color) (l : tree) (k : Z) (v : V).
Abbreviation path := (list frame).
Implicit Types (t l r : tree) (f : frame) (p : path).

Definition f_addr f : Z := match f with FL a _ _ _ _ => a | FR a _ _ _ _ => a end.
Definition f_color f : color := match f with FL _ c _ _ _ => c | FR _ c _ _ _ => c end.
Definition f_other f : tree := match f with FL _ _ _ _ r => r | FR _ _ l _ _ => l end.
Definition fill f t : tree := match f with FL a c k v r => N a c t k v r | FR a c l k v => N a c l k v t end.
Fixpoint plug p t : tree := match p with [] => t | f :: p => plug p (fill f t) end.
Definition up p : Z := match p with [] => 0 | f :: _ => f_addr f end.
Definition f_node f (x u : Z) : node V :=
  match f with FL _ c k v r => Node k v x (addr r) u c | FR _ c l k v => Node k v (addr l) x u c end.
Definition faddrs f : list Z := f_addr f :: addrs (f_other f).
Fixpoint paddrs p : list Z := match p with [] => [] | f :: p => faddrs f ++ paddrs p end.

Fixpoint repr h (u : Z) t : Prop :=
  match t with
  | E => True
  | N a c l k v r => a ≠ 0 ∧ h !! a = Some (Node k v (addr l) (addr r) u c) ∧ repr h a l ∧ repr h a r
  end.

Fixpoint rpath h (rt : Z) p (x : Z) : Prop :=
  match p with
  | [] => rt = x
  | f :: p => f_addr f ≠ 0 ∧ h !! f_addr f = Some (f_node f x (up p)) ∧ repr h (f_addr f) (f_other f) ∧ rpath h rt p (f_addr f)
  end.

(** The memory of [s] is the tree [plug p t] and other nodes; all nodes are at [D]. *)
Record zip D s p t : Prop := {
  z_path : rpath (nodes s) (root s) p (addr t);
  z_tree : repr (nodes s) (up p) t;
  z_nd : NoDup (addrs t ++ paddrs p);
  z_dom : dom (nodes s) = D
}.

Lemma addrs_fill f p t : addrs (fill f t) ++ paddrs p ≡ₚ addrs t ++ paddrs (f :: p).
Proof. destruct f; cbn; rewrite <- ?app_assoc; cbn; solve_Permutation. Qed.

Lemma zip_up D s f p t : zip D s (f :: p) t ↔ zip D s p (fill f t).
Proof.
  pose proof (addrs_fill f p t) as Hp.
  split; intros [Hr Ht Hn Hd]; (constructor; [| |by (rewrite Hp || rewrite <- Hp)|done]); destruct f; cbn in *; destruct_and!; auto.
Qed.

Lemma zip_plug D s p t : zip D s p t ↔ zip D s [] (plug p t).
Proof. revert t. induction p as [|f p IH]; intros t; cbn; [done|]. by rewrite zip_up, IH. Qed.

Lemma repr_frame h u t a x : a ∉ addrs t → repr (<[a := x]> h) u t ↔ repr h u t.
Proof.
  revert u. induction t as [|b c l IHl k v r IHr]; intros u Ha; cbn in *; [done|]. rewrite not_elem_of_cons, not_elem_of_app in Ha. destruct_and!.
  by rewrite lookup_insert_ne, IHl, IHr by done.
Qed.

Lemma repr_frame_del h u t a : a ∉ addrs t → repr (delete a h) u t ↔ repr h u t.
Proof.
  revert u. induction t as [|b c l IHl k v r IHr]; intros u Ha; cbn in *; [done|]. rewrite not_elem_of_cons, not_elem_of_app in Ha. destruct_and!.
  by rewrite lookup_delete_ne, IHl, IHr by done.
Qed.

Lemma rpath_frame h rt p y a x : a ∉ paddrs p → rpath (<[a := x]> h) rt p y ↔ rpath h rt p y.
Proof.
  revert y. induction p as [|f p IH]; intros y Ha; cbn in *; [done|]. rewrite not_elem_of_cons, not_elem_of_app in Ha. destruct_and!.
  by rewrite lookup_insert_ne, repr_frame, IH by done.
Qed.

Lemma rpath_frame_del h rt p y a : a ∉ paddrs p → rpath (delete a h) rt p y ↔ rpath h rt p y.
Proof.
  revert y. induction p as [|f p IH]; intros y Ha; cbn in *; [done|]. rewrite not_elem_of_cons, not_elem_of_app in Ha. destruct_and!.
  by rewrite lookup_delete_ne, repr_frame_del, IH by done.
Qed.

(** ** Steps of the code *)

Lemma wp_get_node {A} (g : node V → A) n x s Q : nodes s !! n = Some x → Q (g x) s → wp (get g n) s Q.
Proof. intros E HQ. unfold wp, get. mrun. by rewrite E. Qed.

Lemma wp_put (g : node V → node V) n x s Q : nodes s !! n = Some x → Q tt (RbTree (root s) (<[n := g x]> (nodes s))) → wp (put g n) s Q.
Proof. intros E HQ. unfold put. apply wp_bind. eapply wp_get_node; [done|]. done. Qed.

Lemma repr_at h u t : repr h u t → t ≠ E → ∃ a c l k v r, t = N a c l k v r ∧ a ≠ 0 ∧ h !! a = Some (Node k v (addr l) (addr r) u c).
Proof. destruct t as [|a c l k v r]; [done|]. intros (? & ? & _) _. by exists a, c, l, k, v, r. Qed.

Lemma zip_at D s p a c l k v r : zip D s p (N a c l k v r) → a ≠ 0 ∧ nodes s !! a = Some (Node k v (addr l) (addr r) (up p) c).
Proof. by intros [_ (? & ? & _) _ _]. Qed.

Lemma zip_frame D s f p t : zip D s (f :: p) t → f_addr f ≠ 0 ∧ nodes s !! f_addr f = Some (f_node f (addr t) (up p)).
Proof. by intros [(? & ? & _) _ _ _]. Qed.

Lemma addr_zero D s p t : zip D s p t → (addr t =? 0) = is_E t.
Proof.
  intros Hz. destruct t as [|a c l k v r]; [done|]. destruct (zip_at _ _ _ _ _ _ _ _ _ Hz) as [? _]. cbn. by apply Z.eqb_neq.
Qed.

Lemma wp_node_color D s p t Q : zip D s p t → Q (tcolor t) s → wp (node_color (addr t)) s Q.
Proof.
  intros Hz HQ. unfold node_color. rewrite (addr_zero _ _ _ _ Hz). destruct t as [|a c l k v r]; cbn; [done|].
  destruct (zip_at _ _ _ _ _ _ _ _ _ Hz) as [? E]. by eapply wp_get_node.
Qed.

Lemma repr_ext h h' u t : (∀ b, b ∈ addrs t → h' !! b = h !! b) → repr h u t → repr h' u t.
Proof.
  revert u. induction t as [|b c l IHl k v r IHr]; intros u He; cbn in *; [done|]. intros (? & E & ? & ?).
  split_and!; [done|rewrite He by set_solver; done|apply IHl; set_solver|apply IHr; set_solver].
Qed.

Lemma rpath_ext h h' rt p y : (∀ b, b ∈ paddrs p → h' !! b = h !! b) → rpath h rt p y → rpath h' rt p y.
Proof.
  revert y. induction p as [|f p IH]; intros y He; cbn in *; [done|]. intros (? & E & Hr & ?).
  split_and!; [done|rewrite He by set_solver; done|eapply repr_ext; [|done]; set_solver|apply IH; set_solver].
Qed.

(** The node above [oldn] points to [newn] instead, and back. *)
Lemma wp_replace_node s p oldn newn x Q :
  rpath (nodes s) (root s) p oldn → NoDup (oldn :: paddrs p) → oldn ≠ 0 → nodes s !! oldn = Some x → parent x = up p →
  newn ∉ paddrs p → newn ≠ oldn → (newn ≠ 0 → is_Some (nodes s !! newn)) →
  (∀ s', rpath (nodes s') (root s') p newn → (∀ b, b ∉ paddrs p → b ≠ newn → nodes s' !! b = nodes s !! b) →
    (newn ≠ 0 → nodes s' !! newn = set_parent (up p) <$> nodes s !! newn) → dom (nodes s') = dom (nodes s) → Q tt s') →
  wp (replace_node oldn newn) s Q.
Proof.
  intros Hp Hnd Ho Ex Epx Hnp Hne Hnew HQ. apply NoDup_cons in Hnd as [Hop Hnd]. unfold replace_node. apply wp_bind. eapply wp_get_node; [exact Ex|]. rewrite Epx. apply wp_bind.
  assert (Hset : ∀ s1, rpath (nodes s1) (root s1) p newn → (∀ b, b ∉ paddrs p → nodes s1 !! b = nodes s !! b) → dom (nodes s1) = dom (nodes s) →
    wp (if newn =? 0 then mret tt else p ← get parent oldn; put (set_parent p) newn) s1 Q).
  { intros s1 Hp1 He1 Hd1. destruct (Z.eqb_spec newn 0) as [->|Hn0]; [apply wp_ret, HQ; auto; done|].
    apply wp_bind. eapply wp_get_node; [rewrite He1 by done; exact Ex|]. rewrite Epx. destruct (Hnew Hn0) as [y Ey].
    eapply wp_put; [rewrite He1 by done; exact Ey|]. apply HQ; cbn.
    - by apply rpath_frame.
    - intros b Hb Hbn. rewrite lookup_insert_ne by done. by apply He1.
    - intros _. by rewrite lookup_insert_eq, Ey.
    - rewrite dom_insert_L, <- Hd1. assert (Hin : newn ∈ dom (nodes s1)) by (apply elem_of_dom; rewrite He1 by done; eauto). revert Hin; clear; set_solver. }
  destruct p as [|f p]; cbn [up].
  - rewrite Z.eqb_refl. apply wp_modify, Hset; [done..|]. done.
  - cbn in Hp. destruct Hp as (Hf & Ef & Ho' & Hp). rewrite (proj2 (Z.eqb_neq _ _)) by done. cbn in Hnd, Hop, Hnp. nodup.
    assert (Hch : wp (l ← get left (f_addr f); if oldn =? l then put (set_left newn) (f_addr f) else put (set_right newn) (f_addr f)) s
      (λ _ s1, s1 = RbTree (root s) (<[f_addr f := f_node f newn (up p)]> (nodes s)))).
    { apply wp_bind. eapply wp_get_node; [exact Ef|]. destruct f as [a c k v r|a c l k v]; cbn in *.
      - rewrite Z.eqb_refl. eapply wp_put; [exact Ef|]. done.
      - rewrite (proj2 (Z.eqb_neq _ _)). { eapply wp_put; [exact Ef|]. done. }
        intros ->. destruct l; cbn in *; [done|]. nodup. congruence. }
    eapply wp_mono; [exact Hch|]. intros [] s1 ->. apply Hset; cbn.
    + split_and!; [done|by rewrite lookup_insert_eq|by apply repr_frame|by apply rpath_frame].
    + intros b Hb. cbn in Hb. nodup. by rewrite lookup_insert_ne.
    + rewrite dom_insert_L. assert (Hin : f_addr f ∈ dom (nodes s)) by (apply elem_of_dom; eauto). revert Hin; clear; set_solver.
Qed.

Lemma dom_put h (n : Z) x y : h !! n = Some y → dom (<[n := x]> h) = dom h.
Proof. intros E. rewrite dom_insert_L. assert (n ∈ dom h) by (apply elem_of_dom; eauto). set_solver. Qed.

Lemma wp_reparent s u t n Q :
  repr (nodes s) u t → NoDup (addrs t) →
  (∀ s', root s' = root s → repr (nodes s') n t → dom (nodes s') = dom (nodes s) → (∀ b, b ∉ addrs t → nodes s' !! b = nodes s !! b) → Q tt s') →
  wp (if addr t =? 0 then mret tt else put (set_parent n) (addr t)) s Q.
Proof.
  intros Ht Hn HQ. destruct t as [|a c l k v r]; cbn [addr].
  - rewrite Z.eqb_refl. apply wp_ret, HQ; done.
  - cbn in *. destruct Ht as (Ha0 & Ea & Hl & Hr). nodup. rewrite (proj2 (Z.eqb_neq _ _)) by done. eapply wp_put; [exact Ea|]. apply HQ; cbn.
    + done.
    + by rewrite lookup_insert_eq, !repr_frame.
    + by eapply dom_put.
    + intros b Hb. nodup. by rewrite lookup_insert_ne.
Qed.

(** The part of a rotation that follows [replace_node]: [m] gets the child [n], which gets the subtree [t2] of [m]. *)
Record rotating s D p n xn m xm (t1 t2 t3 : tree) : Prop := {
  ro_path : rpath (nodes s) (root s) p m;
  ro_n : n ≠ 0 ∧ nodes s !! n = Some xn;
  ro_m : m ≠ 0 ∧ nodes s !! m = Some xm;
  ro_up : parent xm = up p;
  ro_1 : repr (nodes s) n t1;
  ro_2 : repr (nodes s) m t2;
  ro_3 : repr (nodes s) m t3;
  ro_nd : NoDup (n :: m :: addrs t1 ++ addrs t2 ++ addrs t3 ++ paddrs p);
  ro_dom : dom (nodes s) = D
}.

Lemma wp_replace_rotate s D p n xn m xm t1 t2 t3 Q :
  rpath (nodes s) (root s) p n → parent xn = up p →
  nodes s !! n = Some xn → nodes s !! m = Some xm → n ≠ 0 → m ≠ 0 → repr (nodes s) n t1 → repr (nodes s) m t2 → repr (nodes s) m t3 →
  NoDup (n :: m :: addrs t1 ++ addrs t2 ++ addrs t3 ++ paddrs p) → dom (nodes s) = D →
  (∀ s', rotating s' D p n xn m (set_parent (up p) xm) t1 t2 t3 → Q tt s') →
  wp (replace_node n m) s Q.
Proof.
  intros Hp Eu En Em Hn0 Hm0 H1 H2 H3 Hnd Hd HQ. set (P := NoDup _) in Hnd. pose proof Hnd as Hk. subst P. set (P := NoDup _) in Hk. nodup.
  eapply wp_replace_node; [exact Hp|by constructor|done|exact En|done|done|done|eauto|].
  intros s1 Hp1 Hf1 Hm1 Hd1. specialize (Hm1 Hm0). rewrite Em in Hm1. cbn in Hm1. rewrite <- Hf1 in En by done.
  assert (Hsub : ∀ u t, (∀ b, b ∈ addrs t → b ∉ paddrs p ∧ b ≠ m) → repr (nodes s) u t → repr (nodes s1) u t) by (intros u t Ht; apply repr_ext; intros b Hb; apply Hf1; by apply Ht).
  apply Hsub in H1; [|apart]. apply Hsub in H2; [|apart]. apply Hsub in H3; [|apart]. apply HQ. constructor; [done..|exact Hk|congruence].
Qed.

Lemma wp_rotate_tail s D p n xn m xm t1 t2 t3 (g1 g2 : Z → node V → node V) Q :
  rotating s D p n xn m xm t1 t2 t3 → (∀ a x, parent (g1 a x) = parent x) → (∀ a x, parent (g2 a x) = parent x) →
  (∀ s', rpath (nodes s') (root s') p m → nodes s' !! n = Some (set_parent m (g1 (addr t2) xn)) → nodes s' !! m = Some (g2 n xm) →
    repr (nodes s') n t1 → repr (nodes s') n t2 → repr (nodes s') m t3 → dom (nodes s') = D → Q tt s') →
  wp (put (g1 (addr t2)) n;; ((if addr t2 =? 0 then mret tt else put (set_parent n) (addr t2));; (put (g2 n) m;; put (set_parent m) n))) s Q.
Proof.
  intros [Hp [Hn0 En] [Hm0 Em] Eu H1 H2 H3 Hnd Hd] Hg1 Hg2 HQ. nodup. apply wp_bind. eapply wp_put; [exact En|]. apply wp_bind.
  eapply wp_reparent; [cbn; apply repr_frame; [done|exact H2]|done|]. cbn. intros s2 Er2 Ht2 Hd2 Hf2.
  apply wp_bind. eapply wp_put; [rewrite Hf2, lookup_insert_ne by done; exact Em|].
  eapply wp_put; [cbn; rewrite lookup_insert_ne, Hf2, lookup_insert_eq by done; done|].
  assert (Hsub : ∀ u t, (∀ b, b ∈ addrs t → b ≠ n ∧ b ≠ m ∧ b ∉ addrs t2) → repr (nodes s) u t → repr (<[n := set_parent m (g1 (addr t2) xn)]> (<[m := g2 n xm]> (nodes s2))) u t).
  { intros u t Ht. apply repr_ext. intros b Hb. destruct (Ht b Hb) as (? & ? & ?). by rewrite !lookup_insert_ne, Hf2, lookup_insert_ne by done. }
  apply HQ; cbn.
  - rewrite Er2. eapply rpath_ext; [|exact Hp]. assert (Hpp : ∀ b, b ∈ paddrs p → b ≠ n ∧ b ≠ m ∧ b ∉ addrs t2) by apart.
    intros b Hb. destruct (Hpp b Hb) as (? & ? & ?). by rewrite !lookup_insert_ne, Hf2, lookup_insert_ne by done.
  - by rewrite lookup_insert_eq.
  - by rewrite lookup_insert_ne, lookup_insert_eq by done.
  - apply Hsub; [apart|done].
  - by rewrite !repr_frame.
  - apply Hsub; [apart|done].
  - erewrite dom_put, dom_put; [rewrite Hd2; by erewrite dom_put|..]; [rewrite Hf2, lookup_insert_ne by done; exact Em|rewrite lookup_insert_ne, Hf2, lookup_insert_eq by done; done].
Qed.

Lemma wp_rotate_left D s p n cn t1 kn vn m cm t2 km vm t3 Q :
  zip D s p (N n cn t1 kn vn (N m cm t2 km vm t3)) →
  (∀ s', zip D s' p (N m cm (N n cn t1 kn vn t2) km vm t3) → Q tt s') →
  wp (rotate_left n) s Q.
Proof.
  intros [Hp Ht Hn Hd] HQ. cbn in Ht, Hp, Hn. destruct Ht as (Hn0 & En & H1 & Hm0 & Em & H2 & H3).
  unfold rotate_left. apply wp_bind. eapply wp_get_node; [exact En|]. cbn. apply wp_bind.
  eapply (wp_replace_rotate s D p n _ m _ t1 t2 t3 _ Hp _ En Em Hn0 Hm0 H1 H2 H3 _ Hd). Unshelve. 2: reflexivity. 2: { eapply NoDup_Permutation_proper; [|exact Hn]; solve_Permutation. }
  intros s1 Hro. apply wp_bind. eapply wp_get_node; [apply Hro|]. eapply (wp_rotate_tail _ _ _ _ _ _ _ _ _ _ set_right set_left); [exact Hro|done|done|].
  cbn. intros s2 ? ? ? ? ? ? ?. apply HQ. constructor; [done|by cbn| |done]. eapply NoDup_Permutation_proper; [|exact Hn]. cbn. solve_Permutation.
Qed.

Lemma wp_rotate_right D s p n cn m cm t3 km vm t2 kn vn t1 Q :
  zip D s p (N n cn (N m cm t3 km vm t2) kn vn t1) →
  (∀ s', zip D s' p (N m cm t3 km vm (N n cn t2 kn vn t1)) → Q tt s') →
  wp (rotate_right n) s Q.
Proof.
  intros [Hp Ht Hn Hd] HQ. cbn in Ht, Hp, Hn. destruct Ht as (Hn0 & En & (Hm0 & Em & H3 & H2) & H1).
  unfold rotate_right. apply wp_bind. eapply wp_get_node; [exact En|]. cbn. apply wp_bind.
  eapply (wp_replace_rotate s D p n _ m _ t1 t2 t3 _ Hp _ En Em Hn0 Hm0 H1 H2 H3 _ Hd). Unshelve. 2: reflexivity. 2: { eapply NoDup_Permutation_proper; [|exact Hn]; solve_Permutation. }
  intros s1 Hro. apply wp_bind. eapply wp_get_node; [apply Hro|]. eapply (wp_rotate_tail _ _ _ _ _ _ _ _ _ _ set_left set_right); [exact Hro|done|done|].
  cbn. intros s2 ? ? ? ? ? ? ?. apply HQ. constructor; [done|by cbn| |done]. eapply NoDup_Permutation_proper; [|exact Hn]. cbn. solve_Permutation.
Qed.

(** ** Reading around the focus *)

Definition f_swap f t : frame := match f with FL a c k v r => FR a c t k v | FR a c l k v => FL a c k v t end.
Definition f_left f : bool := match f with FL _ _ _ _ _ => true | FR _ _ _ _ _ => false end.
Definition f_paint c f : frame := match f with FL a _ k v r => FL a c k v r | FR a _ l k v => FR a c l k v end.

Lemma f_addr_paint c f : f_addr (f_paint c f) = f_addr f.
Proof. by destruct f. Qed.

Lemma zip_swap D s f p t : zip D s (f :: p) t ↔ zip D s (f_swap f t :: p) (f_other f).
Proof. rewrite !zip_up. by destruct f. Qed.

Lemma zip_ne D s f p t : zip D s (f :: p) t → t ≠ E → addr t ≠ addr (f_other f).
Proof.
  intros [_ Ht Hn _] Hne. destruct t as [|a c l k v r]; [done|]. destruct Ht as (Ha & _). destruct f as [? ? ? ? o|? ? o ? ?], o; cbn in *; [done| |done|]; nodup; congruence.
Qed.

Lemma wp_parent D s p t Q : zip D s p t → t ≠ E → Q (up p) s → wp (get parent (addr t)) s Q.
Proof. intros Hz Hne HQ. destruct t as [|a c l k v r]; [done|]. destruct (zip_at _ _ _ _ _ _ _ _ _ Hz) as [_ Ea]. by eapply wp_get_node. Qed.

Lemma wp_is_left D s f p t Q : zip D s (f :: p) t → t ≠ E → Q (f_left f) s → wp (is_left (addr t)) s Q.
Proof.
  intros Hz Hne HQ. unfold is_left. apply wp_bind. eapply wp_parent; [done..|]. pose proof (zip_ne _ _ _ _ _ Hz Hne). destruct (zip_frame _ _ _ _ _ Hz) as [_ Ef].
  apply wp_bind. eapply wp_get_node; [exact Ef|]. apply wp_ret. destruct f; cbn in *; [by rewrite Z.eqb_refl|by rewrite (proj2 (Z.eqb_neq _ _))].
Qed.

Lemma wp_is_right D s f p t Q : zip D s (f :: p) t → t ≠ E → Q (negb (f_left f)) s → wp (is_right (addr t)) s Q.
Proof.
  intros Hz Hne HQ. unfold is_right. apply wp_bind. eapply wp_parent; [done..|]. pose proof (zip_ne _ _ _ _ _ Hz Hne). destruct (zip_frame _ _ _ _ _ Hz) as [_ Ef].
  apply wp_bind. eapply wp_get_node; [exact Ef|]. apply wp_ret. destruct f; cbn in *; [by rewrite (proj2 (Z.eqb_neq _ _))|by rewrite Z.eqb_refl].
Qed.

Lemma wp_sibling D s f p t Q : zip D s (f :: p) t → t ≠ E → Q (addr (f_other f)) s → wp (sibling (addr t)) s Q.
Proof.
  intros Hz Hne HQ. unfold sibling. apply wp_bind. eapply wp_parent; [done..|]. pose proof (zip_ne _ _ _ _ _ Hz Hne). destruct (zip_frame _ _ _ _ _ Hz) as [Hf Ef].
  apply wp_bind, wp_check; [cbn; by rewrite (proj2 (Z.eqb_neq _ _))|]. apply wp_bind. eapply wp_get_node; [exact Ef|].
  destruct f; cbn in *; [rewrite Z.eqb_refl|rewrite (proj2 (Z.eqb_neq _ _)) by done]; (eapply wp_get_node; [exact Ef|done]).
Qed.

Lemma zip_parent D s f p t : zip D s (f :: p) t → zip D s p (fill f t) ∧ fill f t ≠ E ∧ addr (fill f t) = f_addr f.
Proof. intros Hz. apply zip_up in Hz. by destruct f. Qed.

Lemma wp_grandparent D s f g p t Q : zip D s (f :: g :: p) t → t ≠ E → Q (f_addr g) s → wp (grandparent (addr t)) s Q.
Proof.
  intros Hz Hne HQ. unfold grandparent. apply wp_bind. eapply wp_parent; [done..|]. cbn. destruct (zip_frame _ _ _ _ _ Hz) as [Hf _].
  apply wp_bind, wp_check; [by rewrite (proj2 (Z.eqb_neq _ _))|]. destruct (zip_parent _ _ _ _ _ Hz) as (Hz' & ? & <-). apply wp_bind. eapply wp_parent; [done..|]. cbn.
  destruct (zip_frame _ _ _ _ _ Hz') as [Hg _]. apply wp_bind, wp_check; [by rewrite (proj2 (Z.eqb_neq _ _))|]. done.
Qed.

Lemma wp_uncle D s f g p t Q : zip D s (f :: g :: p) t → t ≠ E → Q (addr (f_other g)) s → wp (uncle (addr t)) s Q.
Proof.
  intros Hz Hne HQ. unfold uncle. apply wp_bind. eapply wp_parent; [done..|]. cbn. destruct (zip_frame _ _ _ _ _ Hz) as [Hf _].
  apply wp_bind, wp_check; [by rewrite (proj2 (Z.eqb_neq _ _))|]. destruct (zip_parent _ _ _ _ _ Hz) as (Hz' & ? & <-). apply wp_bind. eapply wp_parent; [done..|]. cbn.
  destruct (zip_frame _ _ _ _ _ Hz') as [Hg _]. apply wp_bind, wp_check; [by rewrite (proj2 (Z.eqb_neq _ _))|]. eapply wp_sibling; [exact Hz'|done..].
Qed.

Lemma wp_is_color D s p t c (m : M (rbtree V) Z) Q :
  zip D s p t → wp m s (λ n s', n = addr t ∧ s' = s) → Q (bool_decide (tcolor t = c)) s → wp (is_color c m) s Q.
Proof.
  intros Hz Hm HQ. unfold is_color. apply wp_bind. eapply wp_mono; [exact Hm|]. intros n s' [-> ->]. apply wp_bind. by eapply wp_node_color.
Qed.

(** ** Writing at the focus *)

Lemma wp_put_data D s p a c l k v r (g : node V → node V) Q :
  zip D s p (N a c l k v r) → (∀ x, left (g x) = left x ∧ right (g x) = right x ∧ parent (g x) = parent x) →
  let x := g (Node k v (addr l) (addr r) (up p) c) in
  (∀ s', zip D s' p (N a (ncolor x) l (key x) (value x) r) → (∀ b, b ≠ a → nodes s' !! b = nodes s !! b) → Q tt s') → wp (put g a) s Q.
Proof.
  intros [Hp (Ha & Ea & Hl & Hr) Hn Hd] Hg x HQ. eapply wp_put; [exact Ea|]. fold x. apply HQ.
  pose proof (Hg (Node k v (addr l) (addr r) (up p) c)) as (E1 & E2 & E3). cbn in E1, E2, E3. fold x in E1, E2, E3.
  2: { intros b Hb. cbn. by rewrite lookup_insert_ne. }
  constructor; [| |done|].
  - cbn in *. apply rpath_frame; [|done]. nodup. done.
  - cbn in *. nodup. rewrite lookup_insert_eq, !repr_frame by done. split_and!; [done| |done..]. destruct x; cbn in *. by subst.
  - cbn. rewrite (dom_put _ _ _ _ Ea). done.
Qed.

Lemma wp_paint D s p a c l k v r c' Q :
  zip D s p (N a c l k v r) → (∀ s', zip D s' p (N a c' l k v r) → Q tt s') → wp (put (set_color c') a) s Q.
Proof. intros Hz HQ. eapply wp_put_data; [exact Hz|done|]. cbn. auto. Qed.

Lemma wp_paint_frame D s f p t c' Q :
  zip D s (f :: p) t → (∀ s', zip D s' (f_paint c' f :: p) t → Q tt s') → wp (put (set_color c') (f_addr f)) s Q.
Proof. intros Hz HQ. apply zip_up in Hz. destruct f; (eapply wp_paint; [exact Hz|]; intros s' Hz'; apply HQ; apply zip_up; exact Hz'). Qed.

(** ** Red-black trees *)

(** [n] black nodes on every way down; the children of a red node are black. *)
Fixpoint rb t (n : nat) : Prop :=
  match t with
  | E => n = O
  | N _ RED l _ _ r => tcolor l = BLACK ∧ tcolor r = BLACK ∧ rb l n ∧ rb r n
  | N _ BLACK l _ _ r => match n with O => False | S n => rb l n ∧ rb r n end
  end.

Definition pcolor p : color := match p with [] => BLACK | f :: _ => f_color f end.

(** What remains of such a tree around a subtree with [n] black nodes on every way down. *)
Fixpoint rbp p (n : nat) : Prop :=
  match p with
  | [] => True
  | f :: p =>
      rb (f_other f) n ∧
      match f_color f with
      | RED => tcolor (f_other f) = BLACK ∧ pcolor p = BLACK ∧ p ≠ [] ∧ rbp p n
      | BLACK => rbp p (S n)
      end
  end.

Definition ok_root t : Prop := tcolor t = BLACK ∧ ∃ n : nat, rb t n.

Lemma rb_fill f t (n : nat) : rb (f_other f) n → rb t n →
  match f_color f with RED => tcolor (f_other f) = BLACK → tcolor t = BLACK → rb (fill f t) n | BLACK => rb (fill f t) (S n) end.
Proof. by destruct f as [? [] ? ? ?|? [] ? ? ?]; cbn. Qed.

Lemma plug_ok p t (n : nat) : rbp p n → rb t n → (pcolor p = RED ∨ p = [] → tcolor t = BLACK) → ok_root (plug p t).
Proof.
  revert t n. induction p as [|f p IH]; intros t n Hp Ht Hc; cbn in *.
  - split; [auto|]. by exists n.
  - destruct Hp as [Ho Hp]. pose proof (rb_fill f t n Ho Ht) as Hf. destruct (f_color f) eqn:Ef.
    + destruct Hp as (Hc1 & Hc2 & Hne & Hp). apply (IH _ n); [done|auto|]. intros [?|?]; congruence.
    + apply (IH _ (S n)); [done..|]. intros _. by destruct f.
Qed.

Lemma plug_rb p t : ok_root (plug p t) → ∃ n : nat, rbp p n ∧ rb t n ∧ (pcolor p = RED ∨ p = [] → tcolor t = BLACK).
Proof.
  revert t. induction p as [|f p IH]; intros t Hok; cbn in *; [destruct Hok as [Hc [n Hn]]; by exists n|].
  destruct (IH _ Hok) as (n & Hp & Hf & Hc). destruct f as [a [] k v r|a [] l k v]; cbn in *.
  - destruct Hf as (? & ? & ? & ?). exists n. split_and!; [done|done| | |done|done|naive_solver]; [destruct (pcolor p); naive_solver|naive_solver].
  - destruct n as [|n]; [done|]. destruct Hf. exists n. split_and!; [done..|]. intros [?|?]; done.
  - destruct Hf as (? & ? & ? & ?). exists n. split_and!; [done|done| | |done|done|naive_solver]; [destruct (pcolor p); naive_solver|naive_solver].
  - destruct n as [|n]; [done|]. destruct Hf. exists n. split_and!; [done..|]. intros [?|?]; done.
Qed.

(** ** The keys and values in order *)

Fixpoint before p : list (Z * V) := match p with [] => [] | FL _ _ _ _ _ :: p => before p | FR _ _ l k v :: p => before p ++ inord l ++ [(k, v)] end.
Fixpoint after p : list (Z * V) := match p with [] => [] | FL _ _ k v r :: p => (k, v) :: inord r ++ after p | FR _ _ _ _ _ :: p => after p end.

Lemma inord_plug p t : inord (plug p t) = before p ++ inord t ++ after p.
Proof. revert t. induction p as [|[? ? ? ? ?|? ? ? ? ?] p IH]; intros t; cbn; [by rewrite app_nil_r|..]; rewrite IH; cbn; rewrite <- ?app_assoc; cbn; by rewrite <- ?app_assoc. Qed.

(** A whole tree with the keys and values [L]. *)
Definition tree_ok D s (L : list (Z * V)) : Prop := ∃ t, zip D s [] t ∧ ok_root t ∧ inord t = L.

Lemma finish D s p t (n : nat) L :
  zip D s p t → rbp p n → rb t n → (pcolor p = RED ∨ p = [] → tcolor t = BLACK) → before p ++ inord t ++ after p = L → tree_ok D s L.
Proof. intros Hz Hp Ht Hc HL. exists (plug p t). split; [by apply (proj1 (zip_plug _ _ _ _))|]. split; [by eapply plug_ok|by rewrite inord_plug]. Qed.

(** ** Insertion *)

Lemma wp_insert_case5 D s f g p a l k v r (n : nat) Q :
  zip D s (f :: g :: p) (N a RED l k v r) → f_left f = f_left g → f_color f = RED → f_color g = BLACK →
  tcolor l = BLACK → tcolor r = BLACK → rb l n → rb r n → rb (f_other f) n → tcolor (f_other f) = BLACK → rb (f_other g) n → tcolor (f_other g) = BLACK → rbp p (S n) →
  (∀ s', tree_ok D s' (before (f :: g :: p) ++ inord (N a RED l k v r) ++ after (f :: g :: p)) → Q tt s') →
  wp (insert_case5 a) s Q.
Proof.
  intros Hz Hs Ef Eg Hcl Hcr Hl Hr Hof Hcf Hog Hcg Hp HQ. set (t := N a RED l k v r) in *. change a with (addr t). assert (Hne : t ≠ E) by done.
  unfold insert_case5. apply wp_bind. eapply wp_parent; [done..|]. apply wp_bind. eapply wp_paint_frame; [exact Hz|]. clear Hz. intros s1 Hz.
  apply wp_bind. eapply wp_grandparent; [done..|]. destruct (zip_parent _ _ _ _ _ Hz) as (Hz' & _ & _). apply wp_bind. eapply wp_paint_frame; [exact Hz'|]. clear Hz Hz'. intros s2 Hz'. apply zip_up in Hz'.
  apply wp_bind. eapply wp_is_left; [exact Hz'|done|]. apply wp_bind. destruct (zip_parent _ _ _ _ _ Hz') as (Hz & Hne' & Ea). rewrite f_addr_paint in Ea. cbn. rewrite <- Ea. eapply wp_is_left; [exact Hz|done|]. clear Ea Hne'.
  destruct f as [af cf kf vf tf|af cf tf kf vf], g as [ag cg kg vg tg|ag cg tg kg vg]; try done; cbn in *; subst cf cg.
  - rewrite zip_up in Hz. cbn in Hz. eapply wp_rotate_right; [exact Hz|]. intros s3 Hz3. apply HQ. eapply (finish _ _ _ _ (S n)); [exact Hz3|done|by cbn|done|in_order].
  - apply wp_bind, (wp_is_right D s2 _ _ t _ Hz' Hne), wp_bind, (wp_is_right D s2 _ _ (N af BLACK tf kf vf t) _ Hz); [done|]. apply wp_bind, wp_check; [done|].
    rewrite zip_up in Hz. cbn in Hz. eapply wp_rotate_left; [exact Hz|]. intros s3 Hz3. apply HQ. eapply (finish _ _ _ _ (S n)); [exact Hz3|done|by cbn|done|in_order].
Qed.

Lemma wp_insert_case4 D s f g p a l k v r (n : nat) Q :
  zip D s (f :: g :: p) (N a RED l k v r) → f_color f = RED → f_color g = BLACK →
  tcolor l = BLACK → tcolor r = BLACK → rb l n → rb r n → rb (f_other f) n → tcolor (f_other f) = BLACK → rb (f_other g) n → tcolor (f_other g) = BLACK → rbp p (S n) →
  (∀ s', tree_ok D s' (before (f :: g :: p) ++ inord (N a RED l k v r) ++ after (f :: g :: p)) → Q tt s') →
  wp (insert_case4 a) s Q.
Proof.
  intros Hz Ef Eg Hcl Hcr Hl Hr Hof Hcf Hog Hcg Hp HQ. set (t := N a RED l k v r) in *. assert (Hne : t ≠ E) by done.
  destruct (zip_parent _ _ _ _ _ Hz) as (Hz1 & Hne1 & Ea1). destruct (zip_parent _ _ _ _ _ Hz1) as (Hz2 & _ & _).
  pose proof (zip_ne _ _ _ _ _ Hz1 Hne1) as Hne2. rewrite Ea1 in Hne2. destruct (zip_frame _ _ _ _ _ Hz1) as [_ Eg1].
  unfold insert_case4. apply wp_bind, (wp_parent D s _ t _ Hz Hne), wp_bind, (wp_is_right D s _ _ t _ Hz Hne), wp_bind, (wp_grandparent D s _ _ _ t _ Hz Hne), wp_bind. eapply wp_get_node; [exact Eg1|].
  destruct f as [af cf kf vf tf|af cf tf kf vf], g as [ag cg kg vg tg|ag cg tg kg vg]; cbn in *; subst cf cg.
  - apply wp_bind, (wp_is_left D s _ _ t _ Hz Hne), wp_bind. eapply wp_get_node; [exact Eg1|]. cbn. rewrite (proj2 (Z.eqb_neq _ _)) by done. cbn.
    eapply wp_insert_case5; [exact Hz|done..].
  - apply wp_bind, (wp_is_left D s _ _ t _ Hz Hne), wp_bind. eapply wp_get_node; [exact Eg1|]. cbn. rewrite Z.eqb_refl. cbn.
    apply wp_bind. eapply wp_rotate_right; [exact Hz1|]. intros s1 Hz3. destruct (zip_at _ _ _ _ _ _ _ _ _ Hz3) as [_ Ea3]. apply wp_bind. eapply wp_get_node; [exact Ea3|]. cbn.
    apply (zip_up D s1 (FR a RED l k v)) in Hz3. eapply wp_insert_case5; [exact Hz3|done..|]. intros s2 Hok. apply HQ. revert Hok. match goal with |- tree_ok _ _ ?A → tree_ok _ _ ?B => replace B with A; [done|] end. in_order.
  - rewrite Z.eqb_refl. cbn.
    apply wp_bind. eapply wp_rotate_left; [exact Hz1|]. intros s1 Hz3. destruct (zip_at _ _ _ _ _ _ _ _ _ Hz3) as [_ Ea3]. apply wp_bind. eapply wp_get_node; [exact Ea3|]. cbn.
    apply (zip_up D s1 (FL a RED k v r)) in Hz3. eapply wp_insert_case5; [exact Hz3|done..|]. intros s2 Hok. apply HQ. revert Hok. match goal with |- tree_ok _ _ ?A → tree_ok _ _ ?B => replace B with A; [done|] end. in_order.
  - rewrite (proj2 (Z.eqb_neq _ _)) by done. cbn. apply wp_bind, (wp_is_left D s _ _ t _ Hz Hne), wp_bind. eapply wp_get_node; [exact Eg1|]. cbn.
    eapply wp_insert_case5; [exact Hz|done..].
Qed.

Lemma wp_insert_case1 D fuel s p a l k v r (n : nat) Q :
  zip D s p (N a RED l k v r) → (length p < fuel)%nat → tcolor l = BLACK → tcolor r = BLACK → rb l n → rb r n → rbp p n →
  (∀ s', tree_ok D s' (before p ++ inord (N a RED l k v r) ++ after p) → Q tt s') →
  wp (insert_case1 fuel a) s Q.
Proof.
  revert s p a l k v r n. induction fuel as [|fuel IH]; intros s p a l k v r n Hz Hf Hcl Hcr Hl Hr Hp HQ; [lia|].
  set (t := N a RED l k v r) in *. assert (Hne : t ≠ E) by done. cbn [insert_case1]. apply wp_bind, (wp_parent D s _ t _ Hz Hne).
  destruct p as [|f p]; cbn [up].
  { rewrite Z.eqb_refl. eapply wp_paint; [exact Hz|]. intros s1 Hz1. apply HQ. eapply (finish _ _ _ _ (S n)); [exact Hz1|done|by cbn|done|in_order]. }
  destruct (zip_frame _ _ _ _ _ Hz) as [Hf0 _]. rewrite (proj2 (Z.eqb_neq _ _)) by done. destruct (zip_parent _ _ _ _ _ Hz) as (Hz1 & Hne1 & Ea1).
  unfold insert_case2. apply wp_bind. eapply wp_is_color; [exact Hz1|apply (wp_parent D s _ t _ Hz Hne); done|].
  replace (tcolor (fill f t)) with (f_color f) by (by destruct f). cbn in Hp. destruct Hp as [Hof Hp]. destruct (f_color f) eqn:Ecf; cbn.
  2: { apply wp_ret, HQ. eapply (finish _ _ _ _ n); [exact Hz|cbn; by rewrite Ecf|done|intros [Hx|?]; [cbn in Hx; congruence|done]|in_order]. }
  destruct Hp as (Hcf & Hcp & Hpn & Hp). destruct p as [|g p]; [done|]. cbn in Hcp, Hp. rewrite Hcp in Hp. destruct Hp as [Hog Hp].
  unfold insert_case3. apply wp_bind. pose proof (proj1 (zip_swap _ _ _ _ _) Hz1) as Hzu. eapply wp_is_color; [exact Hzu|apply (wp_uncle D s _ _ _ t _ Hz Hne); done|].
  destruct (f_other g) as [|au [] lu ku vu ru] eqn:Eu; cbn [tcolor]; [|rewrite bool_decide_eq_true_2 by done|].
  - eapply wp_insert_case4; [exact Hz|done..| | |done|]; [by rewrite Eu|by rewrite Eu|done].
  - clear Hzu Hz1 Ea1. apply wp_bind, (wp_parent D s _ t _ Hz Hne), wp_bind. eapply wp_paint_frame; [exact Hz|]. clear s Hz. intros s Hz.
    apply wp_bind, (wp_uncle D s _ _ _ t _ Hz Hne). rewrite Eu. destruct (zip_parent _ _ _ _ _ Hz) as (Hz1 & _ & _). apply zip_swap in Hz1. rewrite Eu in Hz1.
    apply wp_bind. eapply wp_paint; [exact Hz1|]. clear s Hz Hz1. intros s Hz1. apply zip_swap in Hz1.
    replace (f_other (f_swap g (fill (f_paint BLACK f) t))) with (fill (f_paint BLACK f) t) in Hz1 by (by destruct g).
    pose proof (proj2 (zip_up _ _ _ _ _) Hz1) as Hz. apply wp_bind, (wp_grandparent D s _ _ _ t _ Hz Hne), wp_bind. clear Hz.
    eapply wp_paint_frame; [exact Hz1|]. clear s Hz1. intros s Hz. rewrite zip_up in Hz. cbn in Hf, Hog. destruct Hog as (? & ? & ? & ?).
    destruct f as [af cf kf vf tf|af cf tf kf vf], g as [ag cg kg vg tg|ag cg tg kg vg]; cbn in *; subst; (eapply (IH _ _ _ _ _ _ _ (S n)); [exact Hz|lia|done|done|by cbn|done|done|]; intros s' Hok; apply HQ; revert Hok; match goal with |- tree_ok _ _ ?A → tree_ok _ _ ?B => replace B with A; [done|] end; in_order).
  - eapply wp_insert_case4; [exact Hz|done..| | |done|]; [by rewrite Eu|by rewrite Eu|done].
Qed.
End tree.
Arguments tree V : clear implicits.
Arguments frame V : clear implicits.
