(* ===== verification/RbtreeDel.v ===== *)
(** * The trees of the object store: rebalancing after a deletion

    The subtree in focus has one black node too few on every way down; the cases
    of the code move nodes of its path until the path asks for one less. *)

From S2P Require Import Prelude Rbtree RbtreeSpec.

Section delete.
Context {V : Type}.
Implicit Types (s : rbtree V) (a : Z) (D : gset Z) (t l r : tree V) (f g : frame V) (p q : list (frame V)) (n : nat).

(** What the cases leave: the path asks for one black node less and the node above the focus is black. *)
Definition repaired D p n t (Q : unit → rbtree V → Prop) : Prop :=
  ∀ s' p', zip D s' p' t → before p' = before p → after p' = after p → rbp p' n → pcolor p' = BLACK → (p' = [] → p = []) → Q tt s'.

Lemma repaired_path D p q n t Q : repaired D p n t Q → before q = before p → after q = after p → (q = [] → p = []) → repaired D q n t Q.
Proof. intros HQ Eb Ea Hn s' p' Hz Eb' Ea' Hr Hc Hn'. apply (HQ s' p'); [done|congruence..|done|done|auto]. Qed.

Lemma before_cons f q : before (f :: q) = before q ++ before [f].
Proof. destruct f; cbn; by rewrite ?app_nil_r. Qed.

Lemma after_cons f q : after (f :: q) = after [f] ++ after q.
Proof. destruct f; cbn; by rewrite ?app_nil_r. Qed.

Lemma f_addr_swap f t : f_addr (f_swap f t) = f_addr f.
Proof. by destruct f. Qed.

(** Reading and painting the sibling. *)
Lemma wp_paint_sibling D s f p t a c l k v r c' Q :
  zip D s (f :: p) t → f_other f = N a c l k v r →
  (∀ s', zip D s' (match f with FL b cf kf vf _ => FL b cf kf vf (N a c' l k v r) | FR b cf _ kf vf => FR b cf (N a c' l k v r) kf vf end :: p) t → Q tt s') →
  wp (put (set_color c') a) s Q.
Proof.
  intros Hz Eo HQ. apply zip_swap in Hz. rewrite Eo in Hz. eapply wp_paint; [exact Hz|]. intros s' Hz'. apply HQ. apply zip_swap in Hz'. by destruct f.
Qed.

Lemma wp_sibling_get {A} (x : node V → A) D s f p t a c l k v r Q :
  zip D s (f :: p) t → f_other f = N a c l k v r → Q (x (Node k v (addr l) (addr r) (f_addr f) c)) s → wp (get x a) s Q.
Proof.
  intros Hz Eo HQ. apply zip_swap in Hz. rewrite Eo in Hz. destruct (zip_at _ _ _ _ _ _ _ _ _ Hz) as [_ Ea]. cbn in Ea. rewrite f_addr_swap in Ea. by eapply wp_get_node.
Qed.

(** The colors of the sibling and of its children. *)
Lemma wp_sibling_color D s f p t c Q :
  zip D s (f :: p) t → t ≠ E → Q (bool_decide (tcolor (f_other f) = c)) s → wp (is_color c (sibling (addr t))) s Q.
Proof.
  intros Hz Hne HQ. eapply wp_is_color; [exact (proj1 (zip_swap _ _ _ _ _) Hz)|by eapply wp_sibling|done].
Qed.

Lemma wp_nephew_left D s f p t a c l k v r c' Q :
  zip D s (f :: p) t → t ≠ E → f_other f = N a c l k v r → Q (bool_decide (tcolor l = c')) s → wp (is_color c' (s ← sibling (addr t); get left s)) s Q.
Proof.
  intros Hz Hne Eo HQ. pose proof Hz as Hz'. apply zip_swap in Hz'. rewrite Eo in Hz'. apply (zip_up D s (FL a c k v r)) in Hz'.
  eapply wp_is_color; [exact Hz'| |done]. apply wp_bind. eapply wp_sibling; [exact Hz|done|]. rewrite Eo. eapply wp_sibling_get; [exact Hz|exact Eo|]. done.
Qed.

Lemma wp_nephew_right D s f p t a c l k v r c' Q :
  zip D s (f :: p) t → t ≠ E → f_other f = N a c l k v r → Q (bool_decide (tcolor r = c')) s → wp (is_color c' (s ← sibling (addr t); get right s)) s Q.
Proof.
  intros Hz Hne Eo HQ. pose proof Hz as Hz'. apply zip_swap in Hz'. rewrite Eo in Hz'. apply (zip_up D s (FR a c l k v)) in Hz'.
  eapply wp_is_color; [exact Hz'| |done]. apply wp_bind. eapply wp_sibling; [exact Hz|done|]. rewrite Eo. eapply wp_sibling_get; [exact Hz|exact Eo|]. done.
Qed.

Lemma wp_parent_color D s f p t c Q :
  zip D s (f :: p) t → t ≠ E → Q (bool_decide (f_color f = c)) s → wp (is_color c (get parent (addr t))) s Q.
Proof.
  intros Hz Hne HQ. destruct (zip_parent _ _ _ _ _ Hz) as (Hz' & _ & Ea). eapply wp_is_color; [exact Hz'|eapply wp_parent; [exact Hz|done|done]|].
  by replace (tcolor (fill f t)) with (f_color f) by (by destruct f).
Qed.

Lemma wp_and_then (b b' : bool) (m : M (rbtree V) bool) s Q : (b = true → wp m s (λ x s', x = b' ∧ s' = s)) → Q (b && b') s → wp (and_then b m) s Q.
Proof. intros Hm HQ. destruct b; cbn in *; [|done]. eapply wp_mono; [by apply Hm|]. by intros x s' [-> ->]. Qed.

(** ** The last cases: a child of the sibling is red *)

Lemma wp_delete_case6 D s f q t a l k v r n Q :
  zip D s (f :: q) t → t ≠ E → f_other f = N a BLACK l k v r → rbp (f :: q) (S n) →
  tcolor (if f_left f then r else l) = RED → repaired D (f :: q) n t Q → wp (delete_case6 (addr t)) s Q.
Proof.
  intros Hz Hne Eo Hp Hc HQ. cbn in Hp. rewrite Eo in Hp. destruct Hp as [[Hl Hr] Hp]. destruct (zip_parent _ _ _ _ _ Hz) as (Hz1 & _ & Ea).
  unfold delete_case6. apply wp_bind. eapply wp_parent; [exact Hz|done|]. cbn. apply wp_bind. rewrite <- Ea. eapply wp_node_color; [exact Hz1|].
  replace (tcolor (fill f t)) with (f_color f) by (by destruct f). rewrite Ea. apply wp_bind. eapply wp_sibling; [exact Hz|done|]. rewrite Eo.
  apply wp_bind. eapply wp_paint_sibling; [exact Hz|exact Eo|]. clear s Hz Hz1 Ea. intros s Hz.
  apply wp_bind. destruct f as [b cf kf vf o|b cf o kf vf]; cbn in Eo, Hc, Hp, Hz |- *; subst o.
  - apply (wp_paint_frame D s (FL b cf kf vf (N a cf l k v r)) q t _ _ Hz). clear s Hz. cbn. intros s Hz.
    apply wp_bind, (wp_is_left D s _ _ t _ Hz Hne), wp_bind, (wp_sibling D s _ _ t _ Hz Hne), wp_bind. cbn. eapply wp_sibling_get; [exact Hz|done|]. cbn.
    rewrite zip_swap in Hz. cbn in Hz. apply (zip_up D s (FR a cf l k v)) in Hz. destruct r as [|ar [] rl rk rv rr]; try done.
    apply wp_bind. eapply wp_node_color; [exact Hz|]. apply wp_bind, wp_check; [done|]. apply wp_bind. eapply wp_paint; [exact Hz|]. clear s Hz. intros s Hz.
    rewrite !zip_up in Hz. cbn in Hz. eapply wp_rotate_left; [exact Hz|]. clear s Hz. intros s Hz.
    apply (zip_up D s (FL a cf k v _)) in Hz. apply (zip_up D s (FL b BLACK kf vf l)) in Hz. cbn in Hr. destruct Hr as (? & ? & ? & ?).
    apply (HQ s _ Hz); [done|in_order| |done|done]. cbn. split_and!; [done..|]. by destruct cf.
  - apply (wp_paint_frame D s (FR b cf (N a cf l k v r) kf vf) q t _ _ Hz). clear s Hz. cbn. intros s Hz.
    apply wp_bind, (wp_is_left D s _ _ t _ Hz Hne), wp_bind, (wp_sibling D s _ _ t _ Hz Hne), wp_bind. cbn. eapply wp_sibling_get; [exact Hz|done|]. cbn.
    rewrite zip_swap in Hz. cbn in Hz. apply (zip_up D s (FL a cf k v r)) in Hz. destruct l as [|al [] ll lk lv lr]; try done.
    apply wp_bind. eapply wp_node_color; [exact Hz|]. apply wp_bind, wp_check; [done|]. apply wp_bind. eapply wp_paint; [exact Hz|]. clear s Hz. intros s Hz.
    rewrite !zip_up in Hz. cbn in Hz. eapply wp_rotate_right; [exact Hz|]. clear s Hz. intros s Hz.
    apply (zip_up D s (FR a cf _ k v)) in Hz. apply (zip_up D s (FR b BLACK r kf vf)) in Hz. cbn in Hl. destruct Hl as (? & ? & ? & ?).
    apply (HQ s _ Hz); [in_order|done| |done|done]. cbn. split_and!; [done..|]. by destruct cf.
Qed.

Lemma wp_delete_case5 D s f q t a l k v r n Q :
  zip D s (f :: q) t → t ≠ E → f_other f = N a BLACK l k v r → rbp (f :: q) (S n) →
  tcolor l = RED ∨ tcolor r = RED → repaired D (f :: q) n t Q → wp (delete_case5 (addr t)) s Q.
Proof.
  intros Hz Hne Eo Hp Hc HQ. unfold delete_case5. apply wp_bind, (wp_is_left D s _ _ t _ Hz Hne), wp_bind.
  apply (wp_and_then _ true); [intros _; eapply wp_sibling_color; [exact Hz|done|by rewrite Eo]|]. rewrite andb_true_r. apply wp_bind.
  apply (wp_and_then _ (bool_decide (tcolor l = RED))); [intros _; eapply wp_nephew_left; [exact Hz|done|exact Eo|done]|]. apply wp_bind.
  apply (wp_and_then _ (bool_decide (tcolor r = BLACK))); [intros _; eapply wp_nephew_right; [exact Hz|done|exact Eo|done]|]. apply wp_bind.
  destruct f as [b cf kf vf o|b cf o kf vf]; cbn in Eo; subst o; cbn [f_left andb negb].
  - destruct (decide (tcolor r = RED)) as [Hr|Hr].
    + rewrite Hr, andb_false_r. apply wp_bind, (wp_is_right D s _ _ t _ Hz Hne). cbn. eapply wp_delete_case6; [exact Hz|done..].
    + destruct Hc as [Hl|?]; [|done]. destruct l as [|al [] ll lk lv lr]; try done. destruct (tcolor r) eqn:Er; [done|]. cbn.
      apply wp_bind, (wp_sibling D s _ _ t _ Hz Hne), wp_bind. eapply wp_paint_sibling; [exact Hz|done|]. clear s Hz. cbn. intros s Hz. apply wp_bind. eapply wp_sibling_get; [exact Hz|done|]. cbn.
      rewrite zip_swap in Hz. cbn in Hz. apply (zip_up D s (FL a RED k v r)) in Hz. apply wp_bind. eapply wp_paint; [exact Hz|]. clear s Hz. intros s Hz. rewrite zip_up in Hz. cbn in Hz.
      eapply wp_rotate_right; [exact Hz|]. clear s Hz. intros s Hz. apply (zip_swap D s (FL b cf kf vf (N al BLACK ll lk lv (N a RED lr k v r)))) in Hz.
      cbn in Hp. destruct Hp as [[(? & ? & ? & ?) ?] Hp]. eapply wp_delete_case6; [exact Hz|done|done|cbn; split_and!; [done..|by destruct cf]|done|].
      eapply repaired_path; [exact HQ|in_order|in_order|done].
  - apply wp_bind, (wp_is_right D s _ _ t _ Hz Hne), wp_bind.
    apply (wp_and_then _ true); [intros _; eapply wp_sibling_color; [exact Hz|done|done]|]. rewrite andb_true_r. apply wp_bind.
    apply (wp_and_then _ (bool_decide (tcolor r = RED))); [intros _; eapply wp_nephew_right; [exact Hz|done|done|done]|]. apply wp_bind.
    apply (wp_and_then _ (bool_decide (tcolor l = BLACK))); [intros _; eapply wp_nephew_left; [exact Hz|done|done|done]|].
    cbn [f_left andb negb]. destruct (decide (tcolor l = RED)) as [Hl|Hl].
    + rewrite Hl, andb_false_r. cbn. eapply wp_delete_case6; [exact Hz|done..].
    + destruct Hc as [?|Hr]; [done|]. destruct r as [|ar [] rl rk rv rr]; try done. destruct (tcolor l) eqn:Er; [done|]. cbn.
      apply wp_bind, (wp_sibling D s _ _ t _ Hz Hne), wp_bind. eapply wp_paint_sibling; [exact Hz|done|]. clear s Hz. cbn. intros s Hz. apply wp_bind. eapply wp_sibling_get; [exact Hz|done|]. cbn.
      rewrite zip_swap in Hz. cbn in Hz. apply (zip_up D s (FR a RED l k v)) in Hz. apply wp_bind. eapply wp_paint; [exact Hz|]. clear s Hz. intros s Hz. rewrite zip_up in Hz. cbn in Hz.
      eapply wp_rotate_left; [exact Hz|]. clear s Hz. intros s Hz. apply (zip_swap D s (FR b cf (N ar BLACK (N a RED l k v rl) rk rv rr) kf vf)) in Hz.
      cbn in Hp. destruct Hp as [[? (? & ? & ? & ?)] Hp]. eapply wp_delete_case6; [exact Hz|done|done|cbn; split_and!; [done..|by destruct cf]|done|].
      eapply repaired_path; [exact HQ|in_order|in_order|done].
Qed.

(** ** The cases that climb *)

Lemma wp_black_sibling D s f q t a l k v r c Q :
  zip D s (f :: q) t → t ≠ E → f_other f = N a BLACK l k v r →
  Q (bool_decide (f_color f = c) && (bool_decide (tcolor l = BLACK) && bool_decide (tcolor r = BLACK))) s → wp (black_sibling c (addr t)) s Q.
Proof.
  intros Hz Hne Eo HQ. unfold black_sibling. apply wp_bind. eapply wp_parent_color; [exact Hz|done|]. apply wp_bind.
  apply (wp_and_then _ true); [intros _; eapply wp_sibling_color; [exact Hz|done|by rewrite Eo]|]. rewrite andb_true_r. apply wp_bind.
  apply (wp_and_then _ (bool_decide (tcolor l = BLACK))); [intros _; eapply wp_nephew_left; [exact Hz|done|exact Eo|done]|].
  apply (wp_and_then _ (bool_decide (tcolor r = BLACK))); [intros _; eapply wp_nephew_right; [exact Hz|done|exact Eo|done]|]. by rewrite <- andb_assoc.
Qed.

Lemma wp_delete_case4 D s f q t a l k v r n Q :
  zip D s (f :: q) t → t ≠ E → f_other f = N a BLACK l k v r → rbp (f :: q) (S n) →
  (f_color f = BLACK → tcolor l = RED ∨ tcolor r = RED) → repaired D (f :: q) n t Q → wp (delete_case4 (addr t)) s Q.
Proof.
  intros Hz Hne Eo Hp Hc HQ. unfold delete_case4. apply wp_bind. eapply wp_black_sibling; [exact Hz|done|exact Eo|].
  destruct (decide (tcolor l = RED ∨ tcolor r = RED)) as [Hred|Hblack].
  - replace (bool_decide (tcolor l = BLACK) && bool_decide (tcolor r = BLACK)) with false by (by destruct Hred as [-> | ->]; rewrite ?andb_false_r).
    rewrite andb_false_r. by eapply wp_delete_case5.
  - assert (Hl : tcolor l = BLACK) by (destruct (tcolor l); naive_solver). assert (Hr : tcolor r = BLACK) by (destruct (tcolor r); naive_solver).
    assert (Hf : f_color f = RED) by (destruct (f_color f); naive_solver). rewrite Hl, Hr, Hf. cbn.
    apply wp_bind, (wp_sibling D s _ _ t _ Hz Hne), wp_bind. rewrite Eo. eapply wp_paint_sibling; [exact Hz|exact Eo|]. clear s Hz. intros s Hz.
    apply wp_bind, (wp_parent D s _ t _ Hz Hne). cbn [up]. eapply wp_paint_frame; [exact Hz|]. clear s Hz. intros s Hz. cbn in Hp. rewrite Hf, Eo in Hp. destruct Hp as ([? ?] & _ & ? & ? & ?).
    apply (HQ s _ Hz); destruct f; cbn in *; subst; done.
Qed.

(** What the recursive call does for the parent. *)
Abbreviation climbs D case1 q := (∀ s t n Q, zip D s q t → t ≠ E → rbp q (S n) → repaired D q n t Q → wp (case1 (addr t)) s Q).

Lemma wp_delete_case3 D s f q t a l k v r n (case1 : Z → M (rbtree V) unit) Q :
  zip D s (f :: q) t → t ≠ E → f_other f = N a BLACK l k v r → rbp (f :: q) (S n) → (f_color f = BLACK → climbs D case1 q) →
  repaired D (f :: q) n t Q → wp (delete_case3 case1 (addr t)) s Q.
Proof.
  intros Hz Hne Eo Hp Hrec HQ. unfold delete_case3. apply wp_bind. eapply wp_black_sibling; [exact Hz|done|exact Eo|].
  destruct (bool_decide (f_color f = BLACK) && (bool_decide (tcolor l = BLACK) && bool_decide (tcolor r = BLACK))) eqn:Eb.
  2: { eapply wp_delete_case4; [exact Hz|done|exact Eo|done| |done]. intros Hf. rewrite bool_decide_eq_true_2 in Eb by done.
    destruct (tcolor l), (tcolor r); cbn in Eb; auto; done. }
  apply andb_prop in Eb as [Hf%bool_decide_eq_true [Hl%bool_decide_eq_true Hr%bool_decide_eq_true]%andb_prop].
  apply wp_bind, (wp_sibling D s _ _ t _ Hz Hne), wp_bind. rewrite Eo. eapply wp_paint_sibling; [exact Hz|exact Eo|]. clear s Hz. intros s Hz.
  apply wp_bind, (wp_parent D s _ t _ Hz Hne). cbn [up]. cbn in Hp. rewrite Hf, Eo in Hp. destruct Hp as [[? ?] Hp].
  match type of Hz with zip _ _ (?g :: _) _ => set (f' := g) in *; assert (Hf' : f_color f' = BLACK ∧ rb (f_other f') n ∧ before [f'] = before [f] ∧ after [f'] = after [f]) end.
  { destruct f; cbn in *; subst; done. }
  destruct Hf' as (Hc' & Ho' & Eb & Ea). destruct (zip_parent _ _ _ _ _ Hz) as (Hz' & Hne' & <-). eapply (Hrec Hf); [exact Hz'|done|exact Hp|].
  intros s' q' Hz1 Eb1 Ea1 Hp1 Hcq1 Hn1. apply zip_up in Hz1. apply (HQ s' _ Hz1).
  - by rewrite before_cons, (before_cons f), Eb, Eb1.
  - by rewrite after_cons, (after_cons f), Ea, Ea1.
  - cbn. by rewrite Hc'.
  - done.
  - done.
Qed.

Lemma wp_delete_case2 D s f q t n (case1 : Z → M (rbtree V) unit) Q :
  zip D s (f :: q) t → t ≠ E → rbp (f :: q) (S n) → climbs D case1 q →
  repaired D (f :: q) n t Q → wp (delete_case2 case1 (addr t)) s Q.
Proof.
  intros Hz Hne Hp Hrec HQ. unfold delete_case2. apply wp_bind. eapply wp_sibling_color; [exact Hz|done|].
  cbn in Hp. destruct Hp as [Ho Hp]. destruct (f_other f) as [|a [] l k v r] eqn:Eo; [done|cbn|].
  - destruct Ho as (Hl & Hr & ? & ?). destruct (f_color f) eqn:Ef; [by destruct Hp|].
    apply wp_bind, wp_bind, (wp_parent D s _ t _ Hz Hne), wp_bind. eapply wp_paint_frame; [exact Hz|]. clear s Hz. intros s Hz.
    assert (Eo' : f_other (f_paint RED f) = N a RED l k v r) by (by destruct f). apply wp_bind, (wp_sibling D s _ _ t _ Hz Hne), wp_bind. rewrite Eo'.
    eapply wp_paint_sibling; [exact Hz|exact Eo'|]. clear s Hz. intros s Hz.
    destruct f as [b cf kf vf o|b cf o kf vf]; cbn in Eo, Ef, Hz; subst o cf; apply wp_bind, (wp_is_left D s _ _ t _ Hz Hne); cbn; rewrite zip_up in Hz; cbn in Hz.
    + eapply wp_rotate_left; [exact Hz|]. clear s Hz. intros s Hz. apply (zip_up D s (FL a BLACK k v r)) in Hz. apply (zip_up D s (FL b RED kf vf l)) in Hz.
      destruct l as [|al [] ll lk lv lr]; try done. eapply wp_delete_case3; [exact Hz|done|done|cbn in *; destruct_and!; by split_and!|done|]. eapply repaired_path; [exact HQ|in_order|in_order|done].
    + eapply wp_rotate_right; [exact Hz|]. clear s Hz. intros s Hz. apply (zip_up D s (FR a BLACK l k v)) in Hz. apply (zip_up D s (FR b RED r kf vf)) in Hz.
      destruct r as [|ar [] rl rk rv rr]; try done. eapply wp_delete_case3; [exact Hz|done|done|cbn in *; destruct_and!; by split_and!|done|]. eapply repaired_path; [exact HQ|in_order|in_order|done].
  - rewrite bool_decide_eq_false_2 by done. apply wp_bind, wp_ret. eapply wp_delete_case3; [exact Hz|done|exact Eo|cbn; by rewrite Eo|done|done].
Qed.

Lemma wp_delete_case1 D fuel s p t n Q :
  zip D s p t → t ≠ E → (length p < fuel)%nat → rbp p (S n) → repaired D p n t Q → wp (delete_case1 fuel (addr t)) s Q.
Proof.
  revert s p t n Q. induction fuel as [|fuel IH]; intros s p t n Q Hz Hne Hf Hp HQ; [lia|]. cbn [delete_case1]. apply wp_bind, (wp_parent D s _ t _ Hz Hne).
  destruct p as [|f q]; cbn [up].
  - rewrite Z.eqb_refl. apply wp_ret, (HQ s []); done.
  - destruct (zip_frame _ _ _ _ _ Hz) as [Hf0 _]. rewrite (proj2 (Z.eqb_neq _ _)) by done. cbn in Hf.
    eapply wp_delete_case2; [exact Hz|done|exact Hp| |exact HQ]. intros s' t' n' Q' Hz' Hne' Hp' HQ'. eapply IH; [exact Hz'|done|lia|done|done].
Qed.
End delete.
