(* ===== verification/RbtreeMap.v ===== *)
(** * The trees of the object store as finite maps

    Insertion, deletion and lookup of rbtree.cc on a map from keys to values; the
    code's own checks of the red-black properties always succeed, and no node is leaked. *)

From S2P Require Import Prelude OrdTree Rbtree RbtreeSpec RbtreeDel.

Section map.
Context {V : Type} (malloc : gset Z → Z).
Hypothesis malloc_fresh : ∀ D, malloc D ≠ 0 ∧ malloc D ∉ D.
Implicit Types (s : rbtree V) (a k : Z) (D : gset Z) (t l r : tree V) (f g : frame V) (p q : list (frame V)) (L : list (Z * V)) (m : gmap Z V).

Definition sorted L : Prop := StronglySorted (λ x y, x.1 < y.1) L.

(** ** Fuel *)

Lemma addrs_dom D s p t a : zip D s p t → a ∈ addrs t ++ paddrs p → is_Some (nodes s !! a).
Proof.
  intros Hz Ha.
  assert (Hrepr : ∀ t u, repr (nodes s) u t → a ∈ addrs t → is_Some (nodes s !! a)).
  { clear. induction t as [|b c l IHl k v r IHr]; intros u Ht Ha; cbn in *; [by apply elem_of_nil in Ha|].
    destruct Ht as (_ & Eb & Hl & Hr). apply elem_of_cons in Ha as [->|[Ha|Ha]%elem_of_app]; eauto. }
  apply elem_of_app in Ha as [Ha|Ha]; [by eapply Hrepr, Ha; apply Hz|].
  pose proof (z_path _ _ _ _ Hz) as Hp. revert Hp Ha. generalize (addr t). clear Hz. induction p as [|f p IH]; intros x Hp Ha; cbn in *; [by apply elem_of_nil in Ha|].
  destruct Hp as (_ & Ef & Ho & Hp). apply elem_of_cons in Ha as [->|[Ha|Ha]%elem_of_app]; [eauto..|]. by eapply IH.
Qed.

Lemma size_nodes D s p t : zip D s p t → (length (addrs t) + length (paddrs p) ≤ size (nodes s))%nat.
Proof.
  intros Hz. pose proof (z_nd _ _ _ _ Hz) as Hnd. rewrite <- length_app, <- (size_list_to_set (C := gset Z) _ Hnd), <- size_dom.
  apply subseteq_size. intros a Ha. apply elem_of_list_to_set in Ha. apply elem_of_dom. by eapply addrs_dom.
Qed.

Lemma length_paddrs p : (length p ≤ length (paddrs p))%nat.
Proof. induction p as [|f p IH]; cbn; [lia|]. rewrite length_app. lia. Qed.

Lemma IntComp_spec (o : option (node V)) a b : (a < b ∧ IntComp o a b < 0) ∨ (a = b ∧ IntComp o a b = 0) ∨ (b < a ∧ 0 < IntComp o a b).
Proof. unfold IntComp. destruct (Z.ltb_spec b a), (Z.ltb_spec a b); lia. Qed.

(** ** Putting a new node below a leaf *)

Lemma hang D s f p a k (v : V) Q :
  zip D s p (fill f E) → nodes s !! a = Some (Node k v 0 0 0 RED) → a ≠ 0 → a ∉ faddrs f ++ paddrs p →
  (∀ s', zip D s' (f :: p) (N a RED E k v E) → Q tt s') →
  wp (put (set_parent (f_addr f)) a) (RbTree (root s) (<[f_addr f := f_node f a (up p)]> (nodes s))) Q.
Proof.
  intros Hz Ea Ha0 Hna HQ. apply zip_up in Hz. pose proof Hz as Hz'. destruct Hz' as [(Hf0 & Ef & Hof & Hp) _ Hnd Hd]. cbn in Hnd, Hna. nodup.
  eapply wp_put; [cbn; rewrite lookup_insert_ne by done; exact Ea|]. apply HQ. constructor.
  - cbn. rewrite lookup_insert_ne, lookup_insert_eq, !repr_frame, !rpath_frame by done. done.
  - cbn. by rewrite lookup_insert_eq.
  - cbn. rewrite NoDup_cons, NoDup_cons, NoDup_app, not_elem_of_cons, !not_elem_of_app. auto 10.
  - cbn. erewrite !dom_put; [exact Hd|exact Ef|by rewrite lookup_insert_ne].
Qed.

(** ** Insertion *)

(** All keys before the focus are smaller than [k], all keys after it larger. *)
Definition around p k : Prop := Forall (λ x, x.1 < k) (before p) ∧ Forall (λ x, k < x.1) (after p).

Lemma sorted_app L1 L2 : sorted (L1 ++ L2) ↔ sorted L1 ∧ sorted L2 ∧ ∀ x y, x ∈ L1 → y ∈ L2 → x.1 < y.1.
Proof. apply SSorted_app. Qed.

Lemma sorted_cons x L : sorted (x :: L) ↔ (∀ y, y ∈ L → x.1 < y.1) ∧ sorted L.
Proof. apply SSorted_cons. Qed.

Lemma around_left p k a c k' (v' : V) r : around p k → sorted (inord r) → (∀ y, y ∈ inord r → k' < y.1) → k < k' → around (FL a c k' v' r :: p) k.
Proof.
  intros [Hb Ha] Hs Hr Hk. split; [done|]. cbn. constructor; [done|]. apply Forall_app. split; [|done]. apply Forall_forall. intros y Hy. pose proof (Hr y Hy). lia.
Qed.

Lemma around_right p k a c l k' (v' : V) : around p k → (∀ y, y ∈ inord l → y.1 < k') → k' < k → around (FR a c l k' v' :: p) k.
Proof.
  intros [Hb Ha] Hl Hk. split; [|done]. cbn. rewrite !Forall_app. split_and!; [done| |by constructor]. apply Forall_forall. intros y Hy. pose proof (Hl y Hy). lia.
Qed.

Lemma sorted_node l k (v : V) r : sorted (inord l ++ (k, v) :: inord r) → sorted (inord l) ∧ sorted (inord r) ∧ (∀ y, y ∈ inord l → y.1 < k) ∧ (∀ y, y ∈ inord r → k < y.1).
Proof.
  rewrite sorted_app, sorted_cons. intros (Hl & [Hr1 Hr] & Hlr). split_and!; [done..| |done]. intros y Hy. apply (Hlr y (k, v)); [done|constructor].
Qed.

(** What the loop leaves for the statements that follow it. *)
Definition placed D p t k v i (r : option Z) s : Prop :=
  match r with
  | None => ∃ q a c l v' r, zip (D ∖ {[i]}) s q (N a c l k v r) ∧ plug q (N a c l k v' r) = plug p t
  | Some n => ∃ f q, n = f_addr f ∧ plug (f :: q) E = plug p t ∧ around (f :: q) k ∧
      ∀ Q, (∀ s', zip D s' (f :: q) (N i RED E k v E) → Q tt s') → wp (put (set_parent n) i) s Q
  end.

Lemma zip_free D s p t i x : zip D s p t → nodes s !! i = Some x → i ∉ addrs t ++ paddrs p → wp (free i) s (λ _ s', zip (D ∖ {[i]}) s' p t).
Proof.
  intros [Hp Ht Hn Hd] Ei Hi. rewrite not_elem_of_app in Hi. destruct Hi. unfold free. apply wp_bind. eapply wp_get_node; [exact Ei|]. apply wp_modify.
  constructor; cbn; [by apply rpath_frame_del|by apply repr_frame_del|done|]. by rewrite dom_delete_L, Hd.
Qed.

Lemma wp_insert_loop D fuel s p t k v i :
  zip D s p t → t ≠ E → (length (addrs t) ≤ fuel)%nat → nodes s !! i = Some (Node k v 0 0 0 RED) → i ≠ 0 → i ∉ addrs t ++ paddrs p →
  sorted (inord t) → around p k →
  wp (insert_loop fuel k v IntComp i (addr t)) s (placed D p t k v i).
Proof.
  revert s p t. induction fuel as [|fuel IH]; intros s p t Hz Hne Hf Ei Hi0 Hi Hs Ha; [destruct t; cbn in *; [done|lia]|].
  destruct t as [|a c l k' v' r]; [done|]. cbn [addr insert_loop]. destruct (zip_at _ _ _ _ _ _ _ _ _ Hz) as [Ha0 Ea]. apply wp_bind. eapply wp_get_node; [exact Ea|]. cbn [id key left right].
  cbn in Hs. destruct (sorted_node _ _ _ _ Hs) as (Hsl & Hsr & Hlk & Hrk). pose proof Hi as Hia. cbn in Hf. rewrite length_app in Hf. cbn in Hia. rewrite not_elem_of_cons, !not_elem_of_app in Hia. destruct Hia as (? & [? ?] & ?).
  destruct (IntComp_spec None k k') as [[Hk Hc]|[[-> Hc]|[Hk Hc]]].
  - rewrite (proj2 (Z.eqb_neq _ _)), (proj2 (Z.ltb_lt _ _)) by lia. destruct l as [|al cl ll lk lv lr]; cbn [addr].
    + rewrite Z.eqb_refl. apply wp_bind. eapply wp_put; [exact Ea|]. apply wp_ret. cbn. exists (FL a c k' v' r), p. split_and!; [done|done|by apply around_left|].
      intros Q HQ. eapply (hang D s (FL a c k' v' r)); [exact Hz|exact Ei|done|cbn; set_solver|done].
    + set (l := N al cl ll lk lv lr) in *. apply (zip_up D s (FL a c k' v' r)) in Hz. pose proof (addr_zero _ _ _ _ Hz) as Hl0. cbn in Hl0. rewrite Hl0.
      apply (IH s (FL a c k' v' r :: p) l); [done|done|lia|done|done|by rewrite <- addrs_fill|done|by apply around_left].
  - rewrite Hc. cbn. apply wp_bind. eapply wp_put_data; [exact Hz|done|]. cbn. intros s1 Hz1 Hf1. apply wp_bind.
    eapply wp_mono; [eapply zip_free; [exact Hz1|rewrite Hf1 by done; exact Ei|exact Hi]|]. intros [] s2 Hz2. apply wp_ret. exists p, a, c, l, v', r. done.
  - rewrite (proj2 (Z.eqb_neq _ _)), (proj2 (Z.ltb_ge _ _)) by lia. destruct r as [|ar cr rl rk rv rr]; cbn [addr].
    + rewrite Z.eqb_refl. apply wp_bind. eapply wp_put; [exact Ea|]. apply wp_ret. cbn. exists (FR a c l k' v'), p. split_and!; [done|done|by apply around_right|].
      intros Q HQ. eapply (hang D s (FR a c l k' v')); [exact Hz|exact Ei|done|cbn; set_solver|done].
    + set (r := N ar cr rl rk rv rr) in *. apply (zip_up D s (FR a c l k' v')) in Hz. pose proof (addr_zero _ _ _ _ Hz) as Hr0. cbn in Hr0. rewrite Hr0.
      apply (IH s (FR a c l k' v' :: p) r); [done|done|lia|done|done|by rewrite <- addrs_fill|done|by apply around_right].
Qed.

(** ** A tree as a map *)

Definition rb_map s m : Prop := ∃ L, tree_ok (dom (nodes s)) s L ∧ sorted L ∧ size (nodes s) = length L ∧ list_to_map L = m.

Lemma sorted_keys L : sorted L → NoDup L.*1.
Proof.
  induction L as [|x L IH]; cbn; [constructor|]. rewrite sorted_cons. intros [Hx HL]. constructor; [|auto].
  intros (y & Ey & Hy)%list_elem_of_fmap. pose proof (Hx y Hy). lia.
Qed.

Lemma map_middle L1 L2 k (v : V) : sorted (L1 ++ (k, v) :: L2) → list_to_map (L1 ++ (k, v) :: L2) = <[k := v]> (list_to_map (L1 ++ L2) : gmap Z V) ∧ (list_to_map (L1 ++ L2) : gmap Z V) !! k = None.
Proof.
  intros Hs. pose proof (sorted_keys _ Hs) as Hk. assert (Hp : L1 ++ (k, v) :: L2 ≡ₚ (k, v) :: L1 ++ L2) by (by rewrite Permutation_middle).
  rewrite (list_to_map_proper _ _ Hk Hp). split; [done|]. apply not_elem_of_list_to_map. rewrite Hp in Hk. cbn in Hk. by apply NoDup_cons in Hk as [? _].
Qed.

Lemma sorted_middle L1 L2 k (v : V) : sorted (L1 ++ L2) → Forall (λ x, x.1 < k) L1 → Forall (λ x, k < x.1) L2 → sorted (L1 ++ (k, v) :: L2).
Proof.
  rewrite !sorted_app, sorted_cons, !Forall_forall. intros (H1 & H2 & H12) Hb Ha. split_and!; [done|done|done|]. intros x y Hx [->|Hy]%elem_of_cons; [by apply Hb|by apply H12].
Qed.

Lemma sorted_value L1 L2 k (v v' : V) : sorted (L1 ++ (k, v) :: L2) → sorted (L1 ++ (k, v') :: L2).
Proof.
  rewrite !sorted_app, !sorted_cons. intros (H1 & [Hx H2] & H12). split_and!; [done|done|done|]. intros x y Hx' [->|Hy]%elem_of_cons; [|apply H12; [done|by constructor]].
  cbn. apply (H12 x (k, v)); [done|constructor].
Qed.

Lemma rb_map_empty : rb_map rbtree_create ∅.
Proof. exists []. split; [|by split_and!; [constructor|..]]. exists E. split; [by constructor; cbn; [..|constructor|]|]. split; [|done]. split; [done|by exists O]. Qed.

Lemma rb_map_done D s L m : tree_ok D s L → sorted L → size D = length L → list_to_map L = m → rb_map s m.
Proof.
  intros (t & Hz & Hok & HL) Hs Hsz Hm. pose proof (z_dom _ _ _ _ Hz) as Hd. exists L. split_and!; [|done|by rewrite <- size_dom, Hd|done]. rewrite Hd. by exists t.
Qed.

Lemma rbtree_insert_ok s m k v : rb_map s m → wp (rbtree_insert malloc k v IntComp) s (λ _ s', rb_map s' (<[k := v]> m)).
Proof using malloc_fresh.
  intros (L & (t & Hz & Hok & <-) & Hs & Hsz & Hm). destruct (malloc_fresh (dom (nodes s))) as [Hi0 Hi]. set (i := malloc (dom (nodes s))) in *.
  unfold rbtree_insert. apply wp_bind. unfold new_node. apply wp_bind, wp_gets. cbn [id]. fold i. apply wp_bind, wp_modify, wp_bind, wp_ret, wp_bind, wp_ret, wp_ret, wp_bind, wp_gets. cbn [id].
  set (s1 := RbTree (root s) (<[i := Node k v 0 0 0 RED]> (nodes s))). set (D := {[i]} ∪ dom (nodes s)).
  assert (Hit : i ∉ addrs t) by (intros Hit; apply Hi, elem_of_dom; eapply (addrs_dom _ _ _ _ _ Hz), elem_of_app; auto).
  assert (Hsz1 : size (nodes s1) = S (length (inord t))) by (cbn; rewrite map_size_insert_None by (by apply not_elem_of_dom); lia).
  assert (Hz1 : zip D s1 [] t).
  { destruct Hz as [Hp Ht Hn Hd]. constructor; cbn in *; [done|by apply repr_frame|done|]. by rewrite dom_insert_L. }
  assert (Ei : nodes s1 !! i = Some (Node k v 0 0 0 RED)) by (cbn; by rewrite lookup_insert_eq).
  pose proof (z_path _ _ _ _ Hz1) as Hroot. change (root s1 = addr t) in Hroot. rewrite Hroot, (addr_zero _ _ _ _ Hz1).
  assert (Hsd : size D = S (length (inord t))) by (rewrite <- Hsz1, <- (z_dom _ _ _ _ Hz1); by rewrite size_dom).
  destruct t as [|a c l k' v' r]; cbn [is_E].
  - apply wp_bind, wp_modify. cbn in Hm, Hsd. subst m. eapply (wp_insert_case1 D _ _ [] i E k v E O); [|unfold fuel_of; cbn; lia|done..|].
    + constructor; cbn; [done|by rewrite lookup_insert_eq|repeat constructor; by apply not_elem_of_nil|]. by rewrite dom_insert_L.
    + intros s' Hok'. eapply (rb_map_done D); [exact Hok'|cbn; repeat constructor|cbn; lia|done].
  - set (t := N a c l k' v' r) in *. apply wp_bind. eapply wp_mono.
    { apply (wp_insert_loop D _ s1 [] t k v i Hz1); [done| |done|done|by rewrite app_nil_r|done|done].
      pose proof (size_nodes _ _ _ _ Hz1). unfold fuel_of. lia. }
    intros [n|] s2; cbn [placed].
    + intros (f & q & -> & Ep & Har & Hput). apply wp_bind, Hput. intros s3 Hz3. change (plug [] t) with t in Ep.
      assert (EL : inord t = before (f :: q) ++ after (f :: q)) by (rewrite <- Ep; apply (inord_plug (f :: q) E)). rewrite EL in Hs, Hm. rewrite <- Ep in Hok. clear Ep.
      destruct (plug_rb (f :: q) E Hok) as (n & Hp & HE & _). cbn in HE. subst n.
      eapply (wp_insert_case1 D _ s3 (f :: q) i E k v E O); [exact Hz3| |done..|].
      { pose proof (size_nodes _ _ _ _ Hz3). pose proof (length_paddrs (f :: q)). unfold fuel_of. rewrite Hsz1, <- Hsd, <- (z_dom _ _ _ _ Hz3), size_dom. lia. }
      intros s' Hok'. destruct Har. pose proof (sorted_middle _ _ k v Hs ltac:(done) ltac:(done)) as Hs'. eapply (rb_map_done D); [exact Hok'|done| |].
      * rewrite Hsd, EL, !length_app. cbn. lia.
      * rewrite <- Hm. by apply map_middle.
    + intros (q & a' & c' & l' & v'' & r' & Hz2 & Ep). apply wp_ret. change (plug [] t) with t in Ep.
      assert (EL : inord t = before q ++ inord (N a' c' l' k v'' r') ++ after q) by (rewrite <- Ep; apply inord_plug). rewrite <- Ep in Hok. clear Ep. rewrite EL in Hs, Hm, Hsz. cbn [inord] in *. rewrite <- app_assoc in *. cbn [app] in *.
      destruct (plug_rb _ _ Hok) as (n & Hp & Ht & Hc).
      pose proof (sorted_value (before q ++ inord l') (inord r' ++ after q) k v'' v) as Hs'. rewrite <- !app_assoc in Hs'. specialize (Hs' Hs).
      eapply (rb_map_done (D ∖ {[i]})); [|exact Hs'| |].
      * eapply (finish _ _ q _ n); [exact Hz2|done|done|done|in_order].
      * replace (D ∖ {[i]}) with (dom (nodes s)) by (subst D; set_solver). rewrite size_dom, Hsz, !length_app. cbn. by rewrite !length_app.
      * rewrite <- Hm. pose proof (map_middle (before q ++ inord l') (inord r' ++ after q) k v) as M1. pose proof (map_middle (before q ++ inord l') (inord r' ++ after q) k v'') as M2.
        rewrite <- !app_assoc in M1, M2. destruct (M1 Hs') as [-> _], (M2 Hs) as [-> _]. by rewrite insert_insert_eq.
Qed.

(** ** Lookup *)

(** The comparison does not turn back along the list. *)
Definition directed (g : Z * V → Z) L : Prop := StronglySorted (λ x y, (g x < 0 → g y < 0) ∧ (0 < g y → 0 < g x)) L.

Lemma directed_int k L : sorted L → directed (λ x, IntComp (@None (node V)) k x.1) L.
Proof.
  induction 1 as [|x L HL IH Hx]; constructor; [done|]. eapply Forall_impl; [exact Hx|]. intros y Hy. cbn in Hy.
  destruct (IntComp_spec None k x.1) as [|[|]], (IntComp_spec None k y.1) as [|[|]]; lia.
Qed.

(** A node of the tree whose key compares equal, or the null pointer if there is none. *)
Definition found D s p t (g : Z * V → Z) (n : Z) : Prop :=
  n = 0 ∧ (∀ x, x ∈ inord t → g x ≠ 0) ∨
  ∃ q c l k' v' r, zip D s q (N n c l k' v' r) ∧ plug q (N n c l k' v' r) = plug p t ∧ (k', v') ∈ inord t ∧ g (k', v') = 0.

Lemma wp_lookup_loop D fuel s p t k (compare : option (node V) → Z → Z → Z) (g : Z * V → Z) :
  zip D s p t → (length (addrs t) ≤ fuel)%nat → (∀ x, compare (Some x) k (key x) = g (key x, value x)) → directed g (inord t) →
  wp (lookup_loop fuel k compare (addr t)) s (λ n s', s' = s ∧ found D s p t g n).
Proof.
  revert p t. induction fuel as [|fuel IH]; intros p t Hz Hf Hc Hg; cbn [lookup_loop]; rewrite (addr_zero _ _ _ _ Hz);
    (destruct t as [|a c l k' v' r]; cbn [is_E]; [apply wp_ret; split; [done|]; left; split; [done|]; intros x Hx; by apply elem_of_nil in Hx|]); [cbn in Hf; lia|].
  destruct (zip_at _ _ _ _ _ _ _ _ _ Hz) as [_ Ea]. apply wp_bind. eapply wp_get_node; [exact Ea|]. cbn [id key left right]. rewrite Hc. cbn [key value].
  cbn in Hg. apply SSorted_app in Hg as (Hgl & Hgr & Hglr). apply SSorted_cons in Hgr as [Hgx Hgr]. cbn in Hf. rewrite length_app in Hf.
  destruct (Z.eqb_spec (g (k', v')) 0) as [Eg|Ng].
  { apply wp_ret. split; [done|]. right. exists p, c, l, k', v', r. split_and!; [done|done| |done]. cbn. apply elem_of_app. right. constructor. }
  destruct (Z.ltb_spec (g (k', v')) 0) as [Hlt|Hge].
  - eapply wp_mono; [apply (IH (FL a c k' v' r :: p) l); [by apply zip_up|lia|done|done]|]. intros n s' [-> Hn]. split; [done|].
    destruct Hn as [[-> Hn]|(q & c' & l' & k'' & v'' & r' & ? & ? & Hin & ?)].
    + left. split; [done|]. cbn. intros x [Hx|[->|Hx]%elem_of_cons]%elem_of_app; [by apply Hn|done|]. pose proof (proj1 (Hgx x Hx) Hlt). lia.
    + right. exists q, c', l', k'', v'', r'. split_and!; [done|done| |done]. cbn. apply elem_of_app. by left.
  - eapply wp_mono; [apply (IH (FR a c l k' v' :: p) r); [by apply zip_up|lia|done|done]|]. intros n s' [-> Hn]. split; [done|].
    destruct Hn as [[-> Hn]|(q & c' & l' & k'' & v'' & r' & ? & ? & Hin & ?)].
    + left. split; [done|]. cbn. intros x [Hx|[->|Hx]%elem_of_cons]%elem_of_app; [|done|by apply Hn]. assert (Hp : 0 < g (k', v')) by lia.
      pose proof (proj2 (Hglr x (k', v') Hx ltac:(constructor)) Hp). lia.
    + right. exists q, c', l', k'', v'', r'. split_and!; [done|done| |done]. cbn. apply elem_of_app. right. by constructor.
Qed.

Lemma wp_lookup_node D s t k compare (g : Z * V → Z) :
  zip D s [] t → (∀ x, compare (Some x) k (key x) = g (key x, value x)) → directed g (inord t) →
  wp (lookup_node k compare) s (λ n s', s' = s ∧ found D s [] t g n).
Proof.
  intros Hz Hc Hg. unfold lookup_node. apply wp_bind, wp_gets. cbn [id]. rewrite (z_path _ _ _ _ Hz). eapply wp_lookup_loop; [done| |done|done].
  pose proof (size_nodes _ _ _ _ Hz). unfold fuel_of. lia.
Qed.

(** A lookup with any comparison that follows the order of the keys. *)
Lemma rbtree_lookup_by s m k compare (g : Z * V → Z) :
  rb_map s m → (∀ x, compare (Some x) k (key x) = g (key x, value x)) →
  (∀ x y, m !! x.1 = Some x.2 → m !! y.1 = Some y.2 → x.1 < y.1 → (g x < 0 → g y < 0) ∧ (0 < g y → 0 < g x)) →
  wp (rbtree_lookup k compare) s (λ (o : option V) s', s' = s ∧
    match o with None => ∀ x, m !! x.1 = Some x.2 → g x ≠ 0 | Some v => ∃ k', m !! k' = Some v ∧ g (k', v) = 0 end).
Proof.
  intros (L & (t & Hz & Hok & <-) & Hs & Hsz & Hm) Hc Hg. assert (Hin : ∀ x, x ∈ inord t ↔ m !! x.1 = Some x.2).
  { intros [k1 v1]. rewrite <- Hm. cbn. rewrite elem_of_list_to_map by (by apply sorted_keys). done. }
  assert (Hd : directed g (inord t)).
  { assert (Hsub : ∀ x, x ∈ inord t → m !! x.1 = Some x.2) by (intros x; apply Hin). revert Hs Hsub. generalize (inord t). clear -Hg. intros L Hs Hsub.
    induction Hs as [|x L HL IH Hx]; constructor; [apply IH; intros y Hy; apply Hsub; by constructor|].
    apply Forall_forall. intros y Hy. rewrite Forall_forall in Hx. apply Hg; [apply Hsub; constructor|apply Hsub; by constructor|by apply Hx]. }
  unfold rbtree_lookup. apply wp_bind. eapply wp_mono; [by eapply wp_lookup_node|]. cbn. intros n s' [-> Hn]. destruct Hn as [[-> Hn]|(q & c & l & k' & v' & r & Hz' & Ep & Hx & Eg)].
  - apply wp_ret. split; [done|]. intros x Hx. apply Hn. by apply Hin.
  - destruct (zip_at _ _ _ _ _ _ _ _ _ Hz') as [Hn0 En]. rewrite (proj2 (Z.eqb_neq _ _)) by done. apply wp_bind. eapply wp_get_node; [exact En|]. apply wp_ret. split; [done|].
    exists k'. split; [|done]. by apply (Hin (k', v')).
Qed.

Lemma rbtree_lookup_ok s m k : rb_map s m → wp (rbtree_lookup k IntComp) s (λ (o : option V) s', s' = s ∧ o = m !! k).
Proof.
  intros Hm. eapply wp_mono; [apply (rbtree_lookup_by s m k IntComp (λ x, IntComp (@None (node V)) k x.1) Hm)|].
  - done.
  - cbn. intros x y _ _ Hxy. destruct (IntComp_spec None k x.1) as [|[|]], (IntComp_spec None k y.1) as [|[|]]; lia.
  - cbn. intros r s' [-> Hr]. split; [done|]. destruct r as [v|].
    + destruct Hr as (k' & Ek & Eg). destruct (IntComp_spec None k k') as [|[[-> _]|]]; [lia|done|lia].
    + destruct (m !! k) as [v|] eqn:E; [|done]. exfalso. apply (Hr (k, v) E). destruct (IntComp_spec None k k) as [|[|]]; cbn; lia.
Qed.

(** ** Deletion *)

Lemma zip_app D s q p t : zip D s (q ++ p) t ↔ zip D s p (plug q t).
Proof. revert t. induction q as [|f q IH]; intros t; cbn; [done|]. by rewrite zip_up, IH. Qed.

Lemma zip_left D s p a c q t k v r : zip D s p (N a c (plug q t) k v r) → zip D s (q ++ FL a c k v r :: p) t.
Proof. intros Hz. apply zip_app, zip_up. exact Hz. Qed.

Lemma plug_app q p t : plug (q ++ p) t = plug p (plug q t).
Proof. revert t. induction q as [|f q IH]; intros t; cbn; [done|]. by rewrite IH. Qed.

Lemma before_app q p : before (q ++ p) = before p ++ before q.
Proof. induction q as [|[] q IH]; cbn; [by rewrite app_nil_r|done|]. by rewrite IH, <- !app_assoc. Qed.

Lemma after_app q p : after (q ++ p) = after q ++ after p.
Proof. induction q as [|[] q IH]; cbn; [done| |done]. by rewrite IH, <- !app_assoc. Qed.

(** The predecessor: the last node of the left subtree. *)
Lemma wp_maximum_node D fuel s p t :
  zip D s p t → t ≠ E → (length (addrs t) ≤ fuel)%nat →
  wp (maximum_node fuel (addr t)) s (λ n s', s' = s ∧ ∃ q c l k v, plug q (N n c l k v E) = t ∧ after q = []).
Proof.
  revert p t. induction fuel as [|fuel IH]; intros p t Hz Hne Hf; destruct t as [|a c l k v r]; try done; cbn in Hf; [lia|]. rewrite length_app in Hf.
  cbn [maximum_node addr]. destruct (zip_at _ _ _ _ _ _ _ _ _ Hz) as [_ Ea]. apply wp_bind. eapply wp_get_node; [exact Ea|]. cbn [right].
  apply (zip_up D s (FR a c l k v)) in Hz. rewrite (addr_zero _ _ _ _ Hz). destruct r as [|ar cr lr kr vr rr]; cbn [is_E].
  - apply wp_ret. split; [done|]. by exists [], c, l, k, v.
  - eapply wp_mono; [eapply IH; [exact Hz|done|lia]|]. cbn. intros n s' [-> (q & c' & l' & k' & v' & Eq & Ea')]. split; [done|].
    exists (q ++ [FR a c l k v]), c', l', k', v'. rewrite plug_app, Eq. split; [done|]. clear -Ea'. induction q as [|[] q IHq]; cbn in *; [done|done|]. by apply IHq.
Qed.

Lemma ok_data p a c l k v k' (v' : V) r : ok_root (plug p (N a c l k v r)) → ok_root (plug p (N a c l k' v' r)).
Proof. intros (n & Hp & Ht & Hc)%plug_rb. eapply plug_ok; [exact Hp|by destruct c|done]. Qed.

(** The node to take out has at most one child; without it the list has lost the key. *)
Lemma wp_delete_at D s p a c l k v r L1 L2 :
  zip D s p (N a c l k v r) → ok_root (plug p (N a c l k v r)) → before p ++ inord l = L1 → inord r ++ after p = L2 →
  wp (delete_at a) s (λ n s', ∃ q c' l' k' v' r', zip D s' q (N n c' l' k' v' r') ∧ ok_root (plug q (N n c' l' k' v' r')) ∧ (l' = E ∨ r' = E) ∧
    before q ++ (inord l' ++ inord r') ++ after q = L1 ++ L2).
Proof.
  intros Hz Hok <- <-. unfold delete_at. destruct (zip_at _ _ _ _ _ _ _ _ _ Hz) as [_ Ea]. apply wp_bind. eapply wp_get_node; [exact Ea|]. cbn [id left right].
  pose proof (proj2 (zip_up D s (FL a c k v r) p l) Hz) as Hzl. pose proof (proj2 (zip_up D s (FR a c l k v) p r) Hz) as Hzr. rewrite (addr_zero _ _ _ _ Hzl), (addr_zero _ _ _ _ Hzr).
  destruct (is_E l || is_E r) eqn:Ech.
  { apply wp_ret. exists p, c, l, k, v, r. split_and!; [done|done|destruct l, r; auto; done|]. by rewrite <- !app_assoc. }
  apply wp_bind, wp_gets. cbn [id]. assert (Hl : l ≠ E) by (by destruct l). apply wp_bind. eapply wp_mono.
  { eapply wp_maximum_node; [exact Hzl|done|]. pose proof (size_nodes _ _ _ _ Hzl). unfold fuel_of. lia. }
  cbn. intros n s1 [-> (q & cn & ln & kn & vn & El & Eq)]. rewrite <- El in Hz, Hok |- *. clear El Hzl Hzr Ech Hl Ea.
  pose proof (zip_left _ _ _ _ _ _ _ _ _ _ Hz) as Hzn. destruct (zip_at _ _ _ _ _ _ _ _ _ Hzn) as [_ En].
  apply wp_bind. eapply wp_get_node; [exact En|]. cbn [key]. apply wp_bind. eapply wp_put_data; [exact Hz|done|]. cbn [set_key set_value ncolor key value]. intros s' Hz' _. clear s Hz Hzn En. rename s' into s, Hz' into Hz.
  pose proof (zip_left _ _ _ _ _ _ _ _ _ _ Hz) as Hzn. destruct (zip_at _ _ _ _ _ _ _ _ _ Hzn) as [_ En].
  apply wp_bind. eapply wp_get_node; [exact En|]. cbn [value]. apply wp_bind. eapply wp_put_data; [exact Hz|done|]. cbn [set_key set_value ncolor key value]. intros s' Hz' _. clear s Hz Hzn En. rename s' into s, Hz' into Hz.
  pose proof (zip_left _ _ _ _ _ _ _ _ _ _ Hz) as Hzn.
  apply wp_ret. eexists _, cn, ln, kn, vn, E. split; [exact Hzn|]. split; [|split; [by right|]].
  - rewrite plug_app. cbn. by eapply ok_data.
  - rewrite before_app, after_app, Eq, inord_plug, Eq. in_order.
Qed.

Lemma tree_zero h u t : repr h u t → 0 ∉ addrs t.
Proof. revert u. induction t as [|b c l IHl k v r IHr]; intros u Ht; cbn; [apply not_elem_of_nil|]. destruct Ht as (Hb & _ & Hl & Hr). rewrite not_elem_of_cons, not_elem_of_app. eauto. Qed.

Lemma path_zero h rt q (x : Z) : rpath h rt q x → 0 ∉ @paddrs V q.
Proof.
  revert x. induction q as [|f q IH]; intros x Hp; cbn; [apply not_elem_of_nil|]. destruct Hp as (Hf & _ & Ho & Hp). rewrite not_elem_of_cons, not_elem_of_app.
  split_and!; [done|by eapply tree_zero|by eapply IH].
Qed.

(** The only child takes the place of its parent, which is still in memory. *)
Lemma wp_replace_child D s q a c l k v r ch Q :
  zip D s q (N a c l k v r) → (ch = l ∧ r = E) ∨ (ch = r ∧ l = E) →
  (∀ s', zip D s' q ch → (∃ x, nodes s' !! a = Some x ∧ parent x = up q) → a ∉ addrs ch ++ paddrs q → Q tt s') →
  wp (replace_node a (addr ch)) s Q.
Proof.
  clear malloc malloc_fresh.
  intros [Hp (Ha & Ea & Hl & Hr) Hn Hd] Hch HQ. assert (Hrc : repr (nodes s) a ch) by (by destruct Hch as [[-> _]|[-> _]]).
  assert (Hnd : NoDup (a :: addrs ch ++ paddrs q)) by (destruct Hch as [[-> ->]|[-> ->]]; cbn in Hn; by rewrite ?app_nil_r in Hn). clear Hn Hch Hl Hr.
  assert (Hac : a ∉ addrs ch ++ paddrs q) by (by apply NoDup_cons in Hnd as [? _]).
  assert (Hn : NoDup (addrs ch ++ paddrs q)) by (by apply NoDup_cons in Hnd as [_ ?]). assert (Hap : a ∉ paddrs q) by (rewrite not_elem_of_app in Hac; tauto).
  assert (Hcp : ∀ b, b ∈ addrs ch → b ∉ paddrs q) by (by apply NoDup_app in Hn as (_ & ? & _)). assert (Hnp : NoDup (paddrs q)) by (by apply NoDup_app in Hn as (_ & _ & ?)).
  assert (Hac' : addr ch ≠ a) by (destruct ch; cbn in *; [by intros <-|intros ->; apply Hac; constructor]).
  assert (Hcq : addr ch ∉ paddrs q).
  { destruct ch as [|b ? ? ? ? ?]; cbn; [by eapply path_zero|apply Hcp; constructor]. }
  eapply wp_replace_node; [exact Hp|by constructor|done|exact Ea|done|done|done| |].
  { intros Hc0. destruct ch as [|b cb lb kb vb rb]; [done|]. destruct Hrc as (_ & Eb & _). eauto. }
  intros s' Hp' Hf' Hb' Hd'. apply HQ; [|exists (Node k v (addr l) (addr r) (up q) c); split; [by rewrite Hf'|done]|done].
  constructor; [done| |done|congruence].
  destruct ch as [|b cb lb kb vb rb]; [done|]. cbn in Hrc, Hb', Hcp, Hn |- *. destruct Hrc as (Hb0 & Eb & Hlb & Hrb). nodup. split_and!; [done|by rewrite Hb', Eb|..].
  - eapply repr_ext; [|exact Hlb]. intros x Hx. apply Hf'; [apply Hcp; set_solver|]. intros ->. contradiction.
  - eapply repr_ext; [|exact Hrb]. intros x Hx. apply Hf'; [apply Hcp; set_solver|]. intros ->. contradiction.
Qed.

Lemma size_D D s p t : zip D s p t → size D = size (nodes s).
Proof. intros Hz. by rewrite <- (z_dom _ _ _ _ Hz), size_dom. Qed.

(** What is left to do once the black nodes are balanced: take the node out. *)
Lemma wp_take_out D s q a c l k v r ch n L m :
  zip D s q (N a c l k v r) → (ch = l ∧ r = E) ∨ (ch = r ∧ l = E) → rbp q n → rb ch n → (pcolor q = RED → tcolor ch = BLACK) →
  before q ++ inord ch ++ after q = L → sorted L → size D = S (length L) → list_to_map L = m →
  wp (replace_node a (addr ch);; p ← get parent a; (if (p =? 0) && negb (addr ch =? 0) then put (set_color BLACK) (addr ch) else mret tt);; free a) s (λ _ s', rb_map s' m).
Proof.
  clear malloc malloc_fresh.
  intros Hz Hch Hq Hc Hcol HL Hs Hsz Hm. pose proof (zip_at _ _ _ _ _ _ _ _ _ Hz) as [Ha0 Ea]. assert (HaD : a ∈ D) by (rewrite <- (z_dom _ _ _ _ Hz); apply elem_of_dom; eauto).
  apply wp_bind. eapply wp_replace_child; [exact Hz|exact Hch|]. clear s Hz Ea. intros s Hz (x & Ex & Eu) Ha. apply wp_bind. eapply wp_get_node; [exact Ex|]. rewrite Eu.
  assert (Hend : ∀ s' ch', zip D s' q ch' → nodes s' !! a = Some x → addrs ch' = addrs ch → inord ch' = inord ch → ok_root (plug q ch') → wp (free a) s' (λ _ s'', rb_map s'' m)).
  { intros s' ch' Hz' Ex' Ead Ein Hok. eapply wp_mono; [eapply zip_free; [exact Hz'|exact Ex'|by rewrite Ead]|]. intros [] s'' Hz''. eapply (rb_map_done (D ∖ {[a]})); [|done| |exact Hm].
    - exists (plug q ch'). split; [by apply (proj1 (zip_plug _ _ _ _))|]. split; [done|]. by rewrite inord_plug, Ein.
    - rewrite size_difference by set_solver. rewrite size_singleton. lia. }
  apply wp_bind. destruct q as [|f q]; cbn [up].
  - rewrite Z.eqb_refl. cbn [andb]. pose proof (addr_zero _ _ _ _ Hz) as Hz0. rewrite Hz0. destruct ch as [|b cb lb kb vb rb]; cbn [is_E negb].
    + apply wp_ret. apply (Hend s E); [done|done|done|done|]. split; [done|by exists n].
    + eapply wp_put_data; [exact Hz|done|]. cbn [set_color ncolor key value addr]. intros s' Hz' Hf'. apply (Hend s' (N b BLACK lb kb vb rb)); [done| |done|done|].
      * rewrite Hf'; [done|]. intros ->. apply Ha. cbn. constructor.
      * split; [done|]. destruct cb; cbn in Hc; [exists (S n)|exists n]; cbn; [tauto|done].
  - destruct (zip_frame _ _ _ _ _ Hz) as [Hf0 _]. rewrite (proj2 (Z.eqb_neq _ _)) by done. cbn [andb]. apply wp_ret. apply (Hend s ch); [done..|].
    eapply plug_ok; [exact Hq|done|]. intros [?|?]; [by apply Hcol|done].
Qed.

Lemma wp_delete_node D s q n c l k v r L m :
  zip D s q (N n c l k v r) → ok_root (plug q (N n c l k v r)) → l = E ∨ r = E →
  before q ++ (inord l ++ inord r) ++ after q = L → sorted L → size D = S (length L) → list_to_map L = m →
  wp (x ← get id n;
      check ((left x =? 0) || (right x =? 0));;
      let child := if right x =? 0 then left x else right x in
      c ← node_color n;
      (if decide (c = BLACK) then c' ← node_color child; put (set_color c') n;; t ← gets id; delete_case1 (fuel_of t) n else mret tt);;
      replace_node n child;;
      p ← get parent n;
      (if (p =? 0) && negb (child =? 0) then put (set_color BLACK) child else mret tt);;
      free n) s (λ _ s', rb_map s' m).
Proof.
  clear malloc malloc_fresh.
  intros Hz Hok Hlr HL Hs Hsz Hm. destruct (zip_at _ _ _ _ _ _ _ _ _ Hz) as [Hn0 En]. apply wp_bind. eapply wp_get_node; [exact En|]. cbn [id left right].
  pose proof (proj2 (zip_up D s (FL n c k v r) q l) Hz) as Hzl. pose proof (proj2 (zip_up D s (FR n c l k v) q r) Hz) as Hzr. rewrite (addr_zero _ _ _ _ Hzl), (addr_zero _ _ _ _ Hzr).
  apply wp_bind, wp_check; [by destruct Hlr as [-> | ->]; rewrite ?orb_true_r|]. cbv zeta.
  set (ch := if is_E r then l else r). replace (if is_E r then addr l else addr r) with (addr ch) by (subst ch; by destruct r).
  assert (Hch : (ch = l ∧ r = E) ∨ (ch = r ∧ l = E)) by (subst ch; destruct r; [by left|right; destruct Hlr; [done|done]]).
  assert (HLc : before q ++ inord ch ++ after q = L) by (rewrite <- HL; destruct Hch as [[-> ->]|[-> ->]]; cbn; by rewrite ?app_nil_r).
  apply wp_bind. unfold node_color at 1. rewrite (proj2 (Z.eqb_neq _ _)) by done. eapply wp_get_node; [exact En|]. cbn [ncolor].
  destruct (plug_rb _ _ Hok) as (b & Hq & Ht & Hcol). destruct c.
  - rewrite decide_False by done. apply wp_bind, wp_ret. cbn in Ht. destruct Ht as (Hcl & Hcr & Hl & Hr).
    assert (Eb : b = O) by (by destruct Hlr as [-> | ->]). subst b. assert (Hblack : ∀ t, tcolor t = BLACK → rb t O → t = E) by (intros [|? [] ? ? ? ?]; done).
    assert (Ec : ch = E) by (destruct Hch as [[-> _]|[-> _]]; auto). rewrite Ec in *.
    eapply (wp_take_out D s q n RED l k v r E O); [exact Hz|exact Hch|done|done|done|exact HLc|done|done|done].
  - rewrite decide_True by done. destruct b as [|b]; [done|]. destruct Ht as [Hl Hr]. assert (Hrc : rb ch b) by (by destruct Hch as [[-> _]|[-> _]]).
    apply wp_bind, wp_bind. assert (Hzc : ∃ q', zip D s q' ch) by (destruct Hch as [[-> _]|[-> _]]; eauto). destruct Hzc as [q' Hzc]. eapply wp_node_color; [exact Hzc|].
    apply wp_bind. eapply wp_paint; [exact Hz|]. clear s Hz En Hzl Hzr Hzc. intros s Hz. apply wp_bind, wp_gets. cbn [id].
    eapply (wp_delete_case1 D _ s q (N n (tcolor ch) l k v r) b); [exact Hz|done| |exact Hq|].
    { pose proof (size_nodes _ _ _ _ Hz). pose proof (length_paddrs q). unfold fuel_of. lia. }
    intros s1 q1 Hz1 Eb1 Ea1 Hq1 Hc1 _. eapply (wp_take_out D s1 q1 n (tcolor ch) l k v r ch b); [exact Hz1|exact Hch|done|done|congruence|by rewrite Eb1, Ea1|done|done|done].
Qed.

Lemma rbtree_delete_ok s m k : rb_map s m → wp (rbtree_delete k IntComp) s (λ _ s', rb_map s' (delete k m)).
Proof.
  intros Hm0. pose proof Hm0 as (L & (t & Hz & Hok & <-) & Hs & Hsz & Hm). set (D := dom (nodes s)) in *.
  unfold rbtree_delete. apply wp_bind. eapply wp_mono; [eapply (wp_lookup_node D s t k _ (λ x, IntComp (@None (node V)) k x.1) Hz); [done|by apply directed_int]|].
  cbn. intros n s1 [-> Hn]. destruct Hn as [[-> Hn]|(p & c & l & k' & v & r & Hz' & Ep & _ & Ek)].
  { apply wp_ret. rewrite delete_id; [done|]. rewrite <- Hm. apply not_elem_of_list_to_map. intros ([k1 v1] & -> & Hx)%list_elem_of_fmap. apply (Hn _ Hx). cbn.
    destruct (IntComp_spec None k1 k1) as [|[|]]; lia. }
  cbn in Ek. assert (k' = k) as -> by (destruct (IntComp_spec None k k') as [|[|]]; lia). clear Ek. destruct (zip_at _ _ _ _ _ _ _ _ _ Hz') as [Hn0 _]. rewrite (proj2 (Z.eqb_neq _ _)) by done.
  cbn [plug] in Ep. rewrite <- Ep in Hok. assert (EL : inord t = (before p ++ inord l) ++ (k, v) :: (inord r ++ after p)) by (rewrite <- Ep, inord_plug; in_order).
  rewrite EL in Hs, Hm, Hsz. set (L1 := before p ++ inord l) in *. set (L2 := inord r ++ after p) in *.
  assert (Hsd : size D = S (length (L1 ++ L2))) by (subst D; rewrite size_dom, Hsz, !length_app; cbn; lia).
  assert (Hs' : sorted (L1 ++ L2)) by (rewrite sorted_app, sorted_cons in Hs; apply sorted_app; destruct Hs as (? & [? ?] & H12); split_and!; [done|done|]; intros x y Hx Hy; apply H12; [done|by constructor]).
  assert (Hm' : list_to_map (L1 ++ L2) = delete k m) by (destruct (map_middle _ _ _ _ Hs) as [E1 E2]; rewrite <- Hm, E1; by rewrite delete_insert_id).
  apply wp_bind. eapply wp_mono; [eapply wp_delete_at; [exact Hz'|exact Hok|done|done]|]. cbn.
  intros n' s1 (q & c' & l' & k' & v' & r' & Hz1 & Hok1 & Hlr & HL). eapply wp_delete_node; done.
Qed.

(** ** The checks of the code *)

(** The subtrees of a node, with the fuel that is left for them. *)
Lemma zip_children D s p a c l k v r fuel :
  zip D s p (N a c l k v r) → (length (addrs (N a c l k v r)) ≤ fuel)%nat →
  zip D s (FL a c k v r :: p) l ∧ zip D s (FR a c l k v :: p) r ∧ (length (addrs l) < fuel)%nat ∧ (length (addrs r) < fuel)%nat ∧ (a =? 0) = false ∧
  nodes s !! a = Some (Node k v (addr l) (addr r) (up p) c).
Proof.
  intros Hz Hf. cbn in Hf. rewrite length_app in Hf. destruct (zip_at _ _ _ _ _ _ _ _ _ Hz) as [Ha Ea]. split_and!; [by apply zip_up|by apply zip_up|lia|lia|by apply Z.eqb_neq|done].
Qed.

Lemma wp_verify_1 D fuel s p t (Q : unit → rbtree V → Prop) : zip D s p t → (length (addrs t) < fuel)%nat → Q tt s → wp (verify_property_1 fuel (addr t)) s Q.
Proof.
  revert p t Q. induction fuel as [|fuel IH]; intros p t Q Hz Hf HQ; [lia|]. cbn [verify_property_1]. apply wp_bind. eapply wp_node_color; [exact Hz|].
  apply wp_bind, wp_check; [apply bool_decide_eq_true; destruct (tcolor t); auto|]. rewrite (addr_zero _ _ _ _ Hz). destruct t as [|a c l k v r]; cbn [is_E]; [done|].
  destruct (zip_children _ _ _ _ _ _ _ _ _ fuel Hz ltac:(lia)) as (Hl & Hr & Hfl & Hfr & _ & Ea). apply wp_bind. eapply wp_get_node; [exact Ea|]. apply wp_bind. eapply IH; [exact Hl|lia|].
  apply wp_bind. eapply wp_get_node; [exact Ea|]. eapply IH; [exact Hr|lia|done].
Qed.

Lemma wp_verify_4 D fuel s p t n (Q : unit → rbtree V → Prop) :
  zip D s p t → (length (addrs t) < fuel)%nat → rb t n → (pcolor p = RED → tcolor t = BLACK) → Q tt s → wp (verify_property_4 fuel (addr t)) s Q.
Proof.
  clear malloc malloc_fresh.
  revert p t n Q. induction fuel as [|fuel IH]; intros p t n Q Hz Hf Ht Hp HQ; [lia|]. cbn [verify_property_4]. apply wp_bind. eapply wp_node_color; [exact Hz|]. apply wp_bind.
  apply wp_mono with (Q := λ _ s', s' = s).
  { destruct t as [|a c l k v r]; [done|]. destruct (zip_children _ _ _ _ _ _ _ _ _ fuel Hz ltac:(lia)) as (Hl & Hr & _ & _ & _ & Ea). destruct c; [|by rewrite decide_False].
    rewrite decide_True by done. destruct Ht as (Hcl & Hcr & _). apply wp_bind. eapply wp_is_color; [exact Hl|by eapply wp_get_node|]. apply wp_bind, wp_check; [by rewrite Hcl|].
    apply wp_bind. eapply wp_is_color; [exact Hr|by eapply wp_get_node|]. apply wp_bind, wp_check; [by rewrite Hcr|]. apply wp_bind. destruct p as [|f p].
    - unfold is_color. apply wp_bind. eapply wp_get_node; [exact Ea|]. done.
    - eapply wp_parent_color; [exact Hz|done|]. apply wp_check; [|done]. apply bool_decide_eq_true. cbn in Hp. destruct (f_color f); [by specialize (Hp eq_refl)|done]. }
  intros [] s' ->. rewrite (addr_zero _ _ _ _ Hz). destruct t as [|a c l k v r]; cbn [is_E]; [done|].
  destruct (zip_children _ _ _ _ _ _ _ _ _ fuel Hz ltac:(lia)) as (Hl & Hr & Hfl & Hfr & _ & Ea).
  assert (Hsub : ∃ n', rb l n' ∧ rb r n' ∧ (c = RED → tcolor l = BLACK) ∧ (c = RED → tcolor r = BLACK)).
  { destruct c; cbn in Ht; [exists n|destruct n as [|n]; [done|exists n]]; naive_solver. }
  destruct Hsub as (n' & Hbl & Hbr & Hcl & Hcr). apply wp_bind. eapply wp_get_node; [exact Ea|]. apply wp_bind. eapply IH; [exact Hl|lia|exact Hbl|exact Hcl|].
  apply wp_bind. eapply wp_get_node; [exact Ea|]. eapply IH; [exact Hr|lia|exact Hbr|exact Hcr|done].
Qed.

Lemma wp_verify_5 D fuel s p t n bc pbc Q :
  zip D s p t → (length (addrs t) < fuel)%nat → rb t n → 0 ≤ bc → pbc = -1 ∨ pbc = bc + Z.of_nat n + 1 → Q (bc + Z.of_nat n + 1) s →
  wp (verify_property_5_helper fuel (addr t) bc pbc) s Q.
Proof.
  clear malloc malloc_fresh.
  revert p t n bc pbc Q. induction fuel as [|fuel IH]; intros p t n bc pbc Q Hz Hf Ht Hbc Hpbc HQ; [lia|]. cbn [verify_property_5_helper]. apply wp_bind. eapply wp_node_color; [exact Hz|]. cbv zeta.
  rewrite (addr_zero _ _ _ _ Hz). destruct t as [|a c l k v r]; cbn [is_E tcolor].
  - cbn in Ht. subst n. rewrite decide_True by done. destruct Hpbc as [-> | ->]; [cbn; by replace (bc + 1) with (bc + Z.of_nat 0 + 1) by lia|].
    rewrite (proj2 (Z.eqb_neq _ _)) by lia. apply wp_bind, wp_check; [apply Z.eqb_eq; lia|]. done.
  - destruct (zip_children _ _ _ _ _ _ _ _ _ fuel Hz ltac:(lia)) as (Hl & Hr & Hfl & Hfr & _ & Ea).
    set (bc' := if decide (c = BLACK) then bc + 1 else bc). assert (Hsub : ∃ n', rb l n' ∧ rb r n' ∧ bc' + Z.of_nat n' + 1 = bc + Z.of_nat n + 1 ∧ 0 ≤ bc').
    { subst bc'. destruct c; cbn in Ht; [exists n; rewrite decide_False by done; naive_solver|]. destruct n as [|n]; [done|exists n]. rewrite decide_True by done. split_and!; [apply Ht|apply Ht|lia|lia]. }
    destruct Hsub as (n' & Hbl & Hbr & En & Hbc'). rewrite <- En in Hpbc, HQ. apply wp_bind. eapply wp_get_node; [exact Ea|]. apply wp_bind. eapply IH; [exact Hl|lia|exact Hbl|done|done|].
    apply wp_bind. eapply wp_get_node; [exact Ea|]. eapply IH; [exact Hr|lia|exact Hbr|done|by right|done].
Qed.

Lemma verify_properties_ok s m : rb_map s m → wp verify_properties s (λ _ s', s' = s).
Proof.
  intros (L & (t & Hz & [Hc [n Hn]] & _) & _). unfold verify_properties. apply wp_bind, wp_gets. cbv zeta. cbn [id]. assert (Er : root s = addr t) by exact (z_path _ _ _ _ Hz). rewrite !Er. pose proof (size_nodes _ _ _ _ Hz).
  apply wp_bind. eapply wp_verify_1; [exact Hz|unfold fuel_of; lia|]. apply wp_bind. unfold verify_property_2. apply wp_bind. eapply wp_node_color; [exact Hz|]. apply wp_check; [by rewrite Hc|].
  apply wp_bind. eapply wp_verify_4; [exact Hz|unfold fuel_of; lia|exact Hn|done|]. unfold verify_property_5. apply wp_bind. eapply wp_verify_5; [exact Hz|unfold fuel_of; lia|exact Hn|lia|by left|done].
Qed.

Lemma rb_map_size s m : rb_map s m → size (nodes s) = size m.
Proof. intros (L & _ & Hs & -> & <-). symmetry. by apply map_size_list_to_map, sorted_keys. Qed.

(** ** Programs *)

Inductive tree_op := Insert (k : Z) (v : V) | Delete (k : Z) | Lookup (k : Z).

(** Each operation is followed by the checks, as with [VERIFY_RBTREE]. *)
Definition run_op (o : tree_op) : M (rbtree V) (option V) :=
  match o with
  | Insert k v => rbtree_insert malloc k v IntComp;; verify_properties;; mret None
  | Delete k => rbtree_delete k IntComp;; verify_properties;; mret None
  | Lookup k => rbtree_lookup k IntComp
  end.

Fixpoint run_ops (os : list tree_op) : M (rbtree V) (list (option V)) :=
  match os with [] => mret [] | o :: os => r ← run_op o; rs ← run_ops os; mret (r :: rs) end.

Definition map_op (o : tree_op) m : option V * gmap Z V :=
  match o with Insert k v => (None, <[k := v]> m) | Delete k => (None, delete k m) | Lookup k => (m !! k, m) end.

Fixpoint map_ops (os : list tree_op) m : list (option V) * gmap Z V :=
  match os with [] => ([], m) | o :: os => let '(r, m) := map_op o m in let '(rs, m) := map_ops os m in (r :: rs, m) end.

Lemma run_op_ok o s m : rb_map s m → wp (run_op o) s (λ x s', x = (map_op o m).1 ∧ rb_map s' (map_op o m).2).
Proof using malloc_fresh.
  intros Hm. destruct o as [k v|k|k]; cbn [run_op map_op].
  - apply wp_bind. eapply wp_mono; [by apply rbtree_insert_ok|]. intros [] s1 H1. apply wp_bind. eapply wp_mono; [by eapply verify_properties_ok|]. by intros [] s2 ->.
  - apply wp_bind. eapply wp_mono; [by apply rbtree_delete_ok|]. intros [] s1 H1. apply wp_bind. eapply wp_mono; [by eapply verify_properties_ok|]. by intros [] s2 ->.
  - eapply wp_mono; [by apply rbtree_lookup_ok|]. by intros x s1 [-> ->].
Qed.

(** C26 Any sequence of insertions, deletions and lookups on a new tree of
    rbtree.cc has a result, which is that of a finite map: no assertion fails,
    no null pointer is followed and the loops end.  The code's checks of the
    red-black properties succeed after every change, and the tree has as many
    nodes in memory as the map has keys. *)
Theorem rbtree_refines_map os :
  ∃ s, run_ops os rbtree_create = Some ((map_ops os ∅).1, s) ∧ size (nodes s) = size (map_ops os ∅).2.
Proof using malloc_fresh.
  cut (∀ s m, rb_map s m → wp (run_ops os) s (λ x s', x = (map_ops os m).1 ∧ rb_map s' (map_ops os m).2)).
  { intros Hrun. specialize (Hrun _ _ rb_map_empty). apply wp_Some in Hrun as (rs & s & E & -> & Hs). exists s. split; [done|]. by apply rb_map_size. }
  induction os as [|o os IH]; intros s m Hm; cbn [run_ops map_ops]; [done|]. apply wp_bind. eapply wp_mono; [by apply run_op_ok|].
  intros x s1 [-> H1]. destruct (map_op o m) as [x m1]. apply wp_bind. eapply wp_mono; [by apply IH|]. cbn. intros xs s2 [-> H2]. by destruct (map_ops os m1).
Qed.
End map.

(** An allocator that takes the address after the last. *)
Definition bump_malloc (D : gset Z) : Z := 1 + set_fold Z.max 0 D.

Lemma bump_malloc_fresh D : bump_malloc D ≠ 0 ∧ bump_malloc D ∉ D.
Proof.
  assert (Hb : 0 ≤ set_fold Z.max 0 D ∧ ∀ a, a ∈ D → a ≤ set_fold Z.max 0 D).
  { apply (set_fold_ind_L (λ b (X : gset Z), 0 ≤ b ∧ ∀ a, a ∈ X → a ≤ b)); [set_solver by lia|]. intros a X b Ha [Hb0 Hb]. split; [lia|].
    intros c [->%elem_of_singleton|Hc]%elem_of_union; [lia|]. pose proof (Hb c Hc). lia. }
  destruct Hb as [Hb0 Hb]. unfold bump_malloc. split; [lia|]. intros Hin. pose proof (Hb _ Hin). lia.
Qed.

(** Ascending keys, so that insertion rotates, and a deletion at the root. *)
Lemma rbtree_refines_map_witness :
  let os := [Insert 1 10; Insert 2 20; Insert 3 30; Insert 4 40; Insert 3 31; Delete 2; Lookup 2; Lookup 3] in
  ∃ s, run_ops bump_malloc os rbtree_create = Some ((map_ops os ∅).1, s) ∧ size (nodes s) = size (map_ops os ∅).2.
Proof. intros os. exact (rbtree_refines_map bump_malloc bump_malloc_fresh os). Defined.

Example rbtree_sample :
  (λ r, (r.1, root r.2)) <$> run_ops bump_malloc [Insert 1 10; Insert 2 20; Insert 3 30; Insert 4 40; Insert 3 31; Delete 2; Lookup 2; Lookup 3] rbtree_create
  = Some ([None; None; None; None; None; None; None; Some 31], 3).
Proof. vm_compute. reflexivity. Qed.
