(* ===== verification/Store.v ===== *)
(** * The persistent object store (nv_map.cc, hash_maps.cc, util_func.cc, c_io.cc)

    Named objects are kept in files that are mapped into memory: one file of
    metadata per process ([proc_s] and an array of [mmapobj_s]), and per chunk
    that the allocator maps one file of data and one of metadata (an array of
    [chunkobj_s]).  Trees in the heap find them; they are built again from
    the files when a process starts.

    The model keeps the files with the records and bytes in them, the mappings
    of the running process, and the global variables.  A pointer is an
    address; it is followed through the mappings, and a pointer outside of
    them, or beyond the end of the file, has no result.  What was never written
    to a file reads as zero.  A block that is set or copied lies in one mapping.

    [malloc] (of tree nodes and trees) and [mmap] are arguments, of which
    the documented behaviour is assumed where the theorems need it.  Files can
    always be opened and created.  The configuration is that of
    the Makefile: files instead of the kernel's calls, no transactions, shadow copies, caches or statistics;
    [check_modify_access] is 1. *)

From stdpp Require Import strings pretty sorting.
From S2P Require Import Prelude Rbtree.

(** ** Data (nv_structs.h, nv_def.h) *)

Definition VALID : Z := 0.
Definition INVALID : Z := 9.
Definition MAXOBJNAMELEN : Z := 255.
Definition PROC_METADAT_SZ : Z := 5 * 1024 * 1024.
Definition MMAP_METADATA_SZ : Z := 10 * 1024 * 1024.
Definition BASE_METADATA_NVID : Z := 2777.
Definition PROCMETADATA_PATH : string := "/mnt/pmfs/chkproc".
Definition PROCMAPMETADATA_PATH : string := "/mnt/pmfs/chkprocmap".
Definition PROCMAPDATAPATH : string := "/mnt/pmfs/chkprocmapdata".
Definition SUCCESS : Z := 0.
Definition MAP_FAILED : Z := 2 ^ 64 - 1.

Record mmapobj_s := Mmapobj {
  m_strt_addr : Z; m_data_addr : Z; m_vma_id : Z; m_length : Z; m_offset : Z; m_proc_obj : Z; m_chunkobj_tree : Z;
  m_chunk_tree_init : Z; m_proc_id : Z; m_numchunks : Z; m_mmap_offset : Z; m_meta_offset : Z; m_mmapobjname : string }.

Record chunkobj_s := Chunkobj {
  c_length : Z; c_offset : Z; c_chunkid : Z; c_pid : Z; c_vma_id : Z; c_commitsz : Z; c_nv_ptr : Z; c_valid : Z; c_objname : string }.

Record proc_s := Proc {
  p_pid : Z; p_mmapobj_tree : Z; p_mmapobj_initialized : Z; p_start_addr : Z; p_size : Z; p_offset : Z; p_data_map_size : Z;
  p_pesist_mmaps : Z; p_num_mmaps : Z; p_meta_offset : Z }.

Record rqst_s := Rqst { r_bytes : Z; r_var_name : string; r_id : Z; r_pid : Z; r_nv_ptr : Z; r_offset : Z; r_commitsz : Z }.

Record mmapobj_nodes := MmapNode { n_start_addr : Z; n_end_addr : Z; n_map_id : Z; n_proc_id : Z }.

(** What memory that holds zeros reads as. *)
Definition zero_mmapobj : mmapobj_s := Mmapobj 0 0 0 0 0 0 0 0 0 0 0 0 "".
Definition zero_chunkobj : chunkobj_s := Chunkobj 0 0 0 0 0 0 0 0 "".
Definition zero_proc : proc_s := Proc 0 0 0 0 0 0 0 0 0 0.

(** [sizeof] of the structures. *)
Definition sizeof_chunkobj : Z := 288.
Definition sizeof_mmapobj : Z := 336.
Definition sizeof_proc : Z := 80.

(** Assignments to fields. *)
Definition set_p_tree (t i : Z) (p : proc_s) : proc_s :=
  Proc (p_pid p) t i (p_start_addr p) (p_size p) (p_offset p) (p_data_map_size p) (p_pesist_mmaps p) (p_num_mmaps p) (p_meta_offset p).
Definition set_p_pesist_mmaps (n : Z) (p : proc_s) : proc_s :=
  Proc (p_pid p) (p_mmapobj_tree p) (p_mmapobj_initialized p) (p_start_addr p) (p_size p) (p_offset p) (p_data_map_size p) n (p_num_mmaps p) (p_meta_offset p).
Definition set_p_num_mmaps (n : Z) (p : proc_s) : proc_s :=
  Proc (p_pid p) (p_mmapobj_tree p) (p_mmapobj_initialized p) (p_start_addr p) (p_size p) (p_offset p) (p_data_map_size p) (p_pesist_mmaps p) n (p_meta_offset p).
Definition set_p_meta_offset (n : Z) (p : proc_s) : proc_s :=
  Proc (p_pid p) (p_mmapobj_tree p) (p_mmapobj_initialized p) (p_start_addr p) (p_size p) (p_offset p) (p_data_map_size p) (p_pesist_mmaps p) (p_num_mmaps p) n.

Definition set_m_strt_addr (a : Z) (m : mmapobj_s) : mmapobj_s :=
  Mmapobj a (m_data_addr m) (m_vma_id m) (m_length m) (m_offset m) (m_proc_obj m) (m_chunkobj_tree m) (m_chunk_tree_init m) (m_proc_id m) (m_numchunks m) (m_mmap_offset m) (m_meta_offset m) (m_mmapobjname m).
Definition set_m_data_addr (a : Z) (m : mmapobj_s) : mmapobj_s :=
  Mmapobj (m_strt_addr m) a (m_vma_id m) (m_length m) (m_offset m) (m_proc_obj m) (m_chunkobj_tree m) (m_chunk_tree_init m) (m_proc_id m) (m_numchunks m) (m_mmap_offset m) (m_meta_offset m) (m_mmapobjname m).
Definition set_m_ids (vma len proc off data : Z) (m : mmapobj_s) : mmapobj_s :=
  Mmapobj (m_strt_addr m) data vma len off (m_proc_obj m) (m_chunkobj_tree m) (m_chunk_tree_init m) proc (m_numchunks m) (m_mmap_offset m) (m_meta_offset m) (m_mmapobjname m).
Definition set_m_proc_obj (a : Z) (m : mmapobj_s) : mmapobj_s :=
  Mmapobj (m_strt_addr m) (m_data_addr m) (m_vma_id m) (m_length m) (m_offset m) a (m_chunkobj_tree m) (m_chunk_tree_init m) (m_proc_id m) (m_numchunks m) (m_mmap_offset m) (m_meta_offset m) (m_mmapobjname m).
Definition set_m_chunkobj_tree (t : Z) (m : mmapobj_s) : mmapobj_s :=
  Mmapobj (m_strt_addr m) (m_data_addr m) (m_vma_id m) (m_length m) (m_offset m) (m_proc_obj m) t (m_chunk_tree_init m) (m_proc_id m) (m_numchunks m) (m_mmap_offset m) (m_meta_offset m) (m_mmapobjname m).
Definition set_m_chunk_tree_init (i : Z) (m : mmapobj_s) : mmapobj_s :=
  Mmapobj (m_strt_addr m) (m_data_addr m) (m_vma_id m) (m_length m) (m_offset m) (m_proc_obj m) (m_chunkobj_tree m) i (m_proc_id m) (m_numchunks m) (m_mmap_offset m) (m_meta_offset m) (m_mmapobjname m).
Definition set_m_numchunks (n : Z) (m : mmapobj_s) : mmapobj_s :=
  Mmapobj (m_strt_addr m) (m_data_addr m) (m_vma_id m) (m_length m) (m_offset m) (m_proc_obj m) (m_chunkobj_tree m) (m_chunk_tree_init m) (m_proc_id m) n (m_mmap_offset m) (m_meta_offset m) (m_mmapobjname m).
Definition set_m_mmap_offset (n : Z) (m : mmapobj_s) : mmapobj_s :=
  Mmapobj (m_strt_addr m) (m_data_addr m) (m_vma_id m) (m_length m) (m_offset m) (m_proc_obj m) (m_chunkobj_tree m) (m_chunk_tree_init m) (m_proc_id m) (m_numchunks m) n (m_meta_offset m) (m_mmapobjname m).
Definition set_m_meta_offset (n : Z) (m : mmapobj_s) : mmapobj_s :=
  Mmapobj (m_strt_addr m) (m_data_addr m) (m_vma_id m) (m_length m) (m_offset m) (m_proc_obj m) (m_chunkobj_tree m) (m_chunk_tree_init m) (m_proc_id m) (m_numchunks m) (m_mmap_offset m) n (m_mmapobjname m).
Definition set_m_mmapobjname (n : string) (m : mmapobj_s) : mmapobj_s :=
  Mmapobj (m_strt_addr m) (m_data_addr m) (m_vma_id m) (m_length m) (m_offset m) (m_proc_obj m) (m_chunkobj_tree m) (m_chunk_tree_init m) (m_proc_id m) (m_numchunks m) (m_mmap_offset m) (m_meta_offset m) n.

Definition set_c_chunkid (i : Z) (c : chunkobj_s) : chunkobj_s :=
  Chunkobj (c_length c) (c_offset c) i (c_pid c) (c_vma_id c) (c_commitsz c) (c_nv_ptr c) (c_valid c) (c_objname c).
Definition set_c_commitsz (n : Z) (c : chunkobj_s) : chunkobj_s :=
  Chunkobj (c_length c) (c_offset c) (c_chunkid c) (c_pid c) (c_vma_id c) n (c_nv_ptr c) (c_valid c) (c_objname c).
Definition set_c_nv_ptr (a : Z) (c : chunkobj_s) : chunkobj_s :=
  Chunkobj (c_length c) (c_offset c) (c_chunkid c) (c_pid c) (c_vma_id c) (c_commitsz c) a (c_valid c) (c_objname c).
Definition set_c_valid (v : Z) (c : chunkobj_s) : chunkobj_s :=
  Chunkobj (c_length c) (c_offset c) (c_chunkid c) (c_pid c) (c_vma_id c) (c_commitsz c) (c_nv_ptr c) v (c_objname c).
Definition set_c_objname (n : string) (c : chunkobj_s) : chunkobj_s :=
  Chunkobj (c_length c) (c_offset c) (c_chunkid c) (c_pid c) (c_vma_id c) (c_commitsz c) (c_nv_ptr c) (c_valid c) n.

Definition set_r_id (i : Z) (r : rqst_s) : rqst_s := Rqst (r_bytes r) (r_var_name r) i (r_pid r) (r_nv_ptr r) (r_offset r) (r_commitsz r).
Definition set_r_bytes (n : Z) (r : rqst_s) : rqst_s := Rqst n (r_var_name r) (r_id r) (r_pid r) (r_nv_ptr r) (r_offset r) (r_commitsz r).

(** ** Files and mappings *)

Inductive record := RProc (p : proc_s) | RMmap (m : mmapobj_s) | RChunk (c : chunkobj_s).

(** The length of a file, the structures in it by their offset, its bytes. *)
Record file := File { f_size : Z; f_recs : gmap Z record; f_bytes : Z → Z }.

Record nvstate := NvState {
  files : gmap string file;
  maps : gmap Z (string * Z);
  trees : gmap Z (rbtree Z);
  map_tree : option (rbtree mmapobj_nodes);
  proc_tree : rbtree Z;
  proc_list_init : bool;
  proc_map_start : Z;
  g_initialized : bool;
  objnamemap : gmap string Z;
  proc_vmas : gmap Z Z;
  chunkmap : gmap Z Z
}.

Definition set_files x s := NvState x (maps s) (trees s) (map_tree s) (proc_tree s) (proc_list_init s) (proc_map_start s) (g_initialized s) (objnamemap s) (proc_vmas s) (chunkmap s).
Definition set_maps x s := NvState (files s) x (trees s) (map_tree s) (proc_tree s) (proc_list_init s) (proc_map_start s) (g_initialized s) (objnamemap s) (proc_vmas s) (chunkmap s).
Definition set_trees x s := NvState (files s) (maps s) x (map_tree s) (proc_tree s) (proc_list_init s) (proc_map_start s) (g_initialized s) (objnamemap s) (proc_vmas s) (chunkmap s).
Definition set_map_tree x s := NvState (files s) (maps s) (trees s) x (proc_tree s) (proc_list_init s) (proc_map_start s) (g_initialized s) (objnamemap s) (proc_vmas s) (chunkmap s).
Definition set_proc_tree x s := NvState (files s) (maps s) (trees s) (map_tree s) x true (proc_map_start s) (g_initialized s) (objnamemap s) (proc_vmas s) (chunkmap s).
Definition set_proc_map_start x s := NvState (files s) (maps s) (trees s) (map_tree s) (proc_tree s) (proc_list_init s) x (g_initialized s) (objnamemap s) (proc_vmas s) (chunkmap s).
Definition set_g_initialized x s := NvState (files s) (maps s) (trees s) (map_tree s) (proc_tree s) (proc_list_init s) (proc_map_start s) x (objnamemap s) (proc_vmas s) (chunkmap s).
Definition set_objnamemap x s := NvState (files s) (maps s) (trees s) (map_tree s) (proc_tree s) (proc_list_init s) (proc_map_start s) (g_initialized s) x (proc_vmas s) (chunkmap s).
Definition set_proc_vmas x s := NvState (files s) (maps s) (trees s) (map_tree s) (proc_tree s) (proc_list_init s) (proc_map_start s) (g_initialized s) (objnamemap s) x (chunkmap s).
Definition set_chunkmap x s := NvState (files s) (maps s) (trees s) (map_tree s) (proc_tree s) (proc_list_init s) (proc_map_start s) (g_initialized s) (objnamemap s) (proc_vmas s) x.

(** The process ends and another starts: the files stay, all else is as the loader leaves it. *)
Definition restart (s : nvstate) : nvstate := NvState (files s) ∅ ∅ None rbtree_create false 0 false ∅ ∅ ∅.

Abbreviation MN := (M nvstate).

Definition when (b : bool) (m : MN unit) : MN unit := if b then m else mret tt.

(** The file behind an address, with the offset and the length of the mapping. *)
Definition find_map (a : Z) (l : gmap Z (string * Z)) : option (string * Z * Z) :=
  '(_, (b, (f, len))) ← list_find (λ x : Z * (string * Z), x.1 ≤ a < x.1 + x.2.2) (map_to_list l); Some (f, a - b, len).

(** The file and the offset of [n] bytes at [a]. *)
Definition resolve (a n : Z) : MN (string * Z * file) :=
  s ← gets id;
  '(f, o, len) ← lift (find_map a (maps s));
  x ← lift (files s !! f);
  check ((o + n <=? len) && (o + n <=? f_size x));;
  mret (f, o, x).

Definition load_rec (a n : Z) : MN (option record) := '(_, o, x) ← resolve a n; mret (f_recs x !! o).
Definition store_rec (a n : Z) (r : record) : MN unit :=
  '(f, o, x) ← resolve a n; modify (λ s, set_files (<[f := File (f_size x) (<[o := r]> (f_recs x)) (f_bytes x)]> (files s)) s).

Definition load_proc (a : Z) : MN proc_s :=
  r ← load_rec a sizeof_proc; lift (match r with None => Some zero_proc | Some (RProc p) => Some p | _ => None end).
Definition load_mmapobj (a : Z) : MN mmapobj_s :=
  r ← load_rec a sizeof_mmapobj; lift (match r with None => Some zero_mmapobj | Some (RMmap m) => Some m | _ => None end).
Definition load_chunkobj (a : Z) : MN chunkobj_s :=
  r ← load_rec a sizeof_chunkobj; lift (match r with None => Some zero_chunkobj | Some (RChunk c) => Some c | _ => None end).
Definition upd_proc (a : Z) (g : proc_s → proc_s) : MN unit := p ← load_proc a; store_rec a sizeof_proc (RProc (g p)).
Definition upd_mmapobj (a : Z) (g : mmapobj_s → mmapobj_s) : MN unit := m ← load_mmapobj a; store_rec a sizeof_mmapobj (RMmap (g m)).
Definition upd_chunkobj (a : Z) (g : chunkobj_s → chunkobj_s) : MN unit := c ← load_chunkobj a; store_rec a sizeof_chunkobj (RChunk (g c)).

Definition load_byte (a : Z) : MN Z := '(_, o, x) ← resolve a 1; mret (f_bytes x o).
Definition set_bytes (a n : Z) (v : Z → Z) : MN unit :=
  '(f, o, x) ← resolve a n;
  modify (λ s, set_files (<[f := File (f_size x) (f_recs x) (λ i, if (o <=? i) && (i <? o + n) then v (i - o) else f_bytes x i)]> (files s)) s).
Definition store_byte (a v : Z) : MN unit := set_bytes a 1 (λ _, v).
Definition memset (a v n : Z) : MN unit := set_bytes a n (λ _, v).
(** Source and destination do not overlap. *)
Definition memcpy (d a n : Z) : MN unit := '(_, o, x) ← resolve a n; set_bytes d n (λ i, f_bytes x (o + i)).

(** ** Names and files (util_func.cc) *)

(** A [char] as an [int]: characters are signed. *)
Definition char_val (c : Ascii.ascii) : Z := let n := Z.of_N (Ascii.N_of_ascii c) in if n <? 128 then n else n - 256.

Fixpoint sdbm (str : string) (hash : Z) : Z :=
  match str with
  | EmptyString => hash
  | String c str => sdbm str (u32 (char_val c + Z.shiftl hash 6 + Z.shiftl hash 16 - hash))
  end.
Definition gen_id_from_str (k : string) : Z := sdbm k 0.

Definition strlen (x : string) : Z := Z.of_nat (String.length x).

Definition generate_file_name (base_name : string) (pid : Z) : string := base_name +:+ pretty pid.
Definition create_map_file (basepath : string) (pid vmaid : Z) : string := generate_file_name basepath pid +:+ "_" +:+ pretty vmaid.

Definition setup_map_file (filepath : string) (bytes : Z) : MN unit :=
  modify (λ s, set_files (<[filepath := File (u32 bytes) ∅ (λ _, 0)]> (files s)) s).
Definition check_existing_map_file (filepath : string) : MN bool := s ← gets id; mret (bool_decide (is_Some (files s !! filepath))).

Definition objnamemap_insert (k : string) (v : Z) : MN unit := modify (λ s, set_objnamemap (<[k := v]> (objnamemap s)) s).
Definition objnamemap_delete (k : string) : MN unit := modify (λ s, set_objnamemap (delete k (objnamemap s)) s).
(** The names in the order of the map. *)
Definition get_object_list : MN (list string) := s ← gets id; mret (merge_sort String.le (map_to_list (objnamemap s)).*1).
Definition objnamemap_find (k : string) : MN Z := s ← gets id; mret (match objnamemap s !! k with Some _ => 0 | None => -1 end).

(** ** Tables by address and by map (hash_maps.cc) *)

Definition record_chunks (a chunk : Z) : MN unit := modify (λ s, set_chunkmap (<[a := chunk]> (chunkmap s)) s).
Definition record_vmas (vmaid sz : Z) : MN unit := modify (λ s, set_proc_vmas (<[vmaid := sz]> (proc_vmas s)) s).
(** Looking up a key that is not there makes an entry for it. *)
Definition get_vma_size (vmaid : Z) : MN Z :=
  s ← gets id;
  match proc_vmas s !! vmaid with
  | Some sz => mret sz
  | None => record_vmas vmaid 0;; mret 0
  end.

(** ** The store (nv_map.cc) *)

(** The key is compared with the start of a range; an address inside the range is equal to it. *)
Definition CompRange (key_node : option (node mmapobj_nodes)) (a b : Z) : Z :=
  match key_node with
  | Some n => if (b <? a) && (a <? n_end_addr (value n)) then 0 else if b <? a then 1 else if a <? b then -1 else 0
  | None => 0
  end.

(** [int] of an [unsigned]. *)
Definition s32 (x : Z) : Z := let y := u32 x in if y <? 2 ^ 31 then y else y - 2 ^ 32.

Definition is_null (a : Z) : bool := a =? 0.
Definition not_null (a : Z) : bool := negb (a =? 0).

Section store.
(** The address of new heap memory, from those in use; the address of a new
    mapping, from the mappings, a hint and the length. *)
Context (malloc : gset Z → Z).
Context (mmap : gmap Z (string * Z) → Z → Z → Z).

Definition os_mmap (addr sz : Z) (fd : string) : MN Z :=
  s ← gets id;
  let r := mmap (maps s) addr sz in
  when (negb (r =? MAP_FAILED)) (modify (λ s, set_maps (<[r := (fd, sz)]> (maps s)) s));;
  mret r.

Definition mmap_wrap (addr sz : Z) (fd : string) : MN Z := nvmap ← os_mmap addr sz fd; check (not_null nvmap);; mret nvmap.

(** An operation on the tree at address [t]. *)
Definition on_tree {A} (t : Z) (op : M (rbtree Z) A) : MN A :=
  s ← gets id;
  tr ← lift (trees s !! t);
  '(r, tr') ← lift (op tr);
  modify (λ s, set_trees (<[t := tr']> (trees s)) s);;
  mret r.
Definition on_proc_tree {A} (op : M (rbtree Z) A) : MN A :=
  s ← gets id; '(r, tr') ← lift (op (proc_tree s)); modify (set_proc_tree tr');; mret r.
Definition on_map_tree {A} (op : M (rbtree mmapobj_nodes) A) : MN A :=
  s ← gets id; tr ← lift (map_tree s); '(r, tr') ← lift (op tr); modify (set_map_tree (Some tr'));; mret r.

Definition new_tree : MN Z :=
  s ← gets id;
  let t := malloc (dom (trees s)) in
  modify (λ s, set_trees (<[t := rbtree_create]> (trees s)) s);; mret t.

(** A value of a tree, or null. *)
Definition or_null (o : option Z) : Z := default 0 o.

Definition init_chunk_tree (mmapobj : Z) : MN unit :=
  check (not_null mmapobj);;
  t ← new_tree;
  upd_mmapobj mmapobj (set_m_chunkobj_tree t);;
  upd_mmapobj mmapobj (set_m_chunk_tree_init 1).

Definition initialize_mmapobj_tree (proc_obj : Z) : MN unit :=
  check (not_null proc_obj);;
  p ← load_proc proc_obj;
  when (is_null (p_mmapobj_tree p)) (t ← new_tree; check (not_null t);; upd_proc proc_obj (set_p_tree t 1)).

(** *** Finding *)

Definition find_proc_obj (proc_id : Z) : MN Z :=
  s ← gets id;
  if negb (proc_list_init s) then modify (set_proc_tree rbtree_create);; mret 0
  else o ← on_proc_tree (rbtree_lookup proc_id IntComp); mret (or_null o).

Definition find_process (pid : Z) : MN Z :=
  s ← gets id;
  if negb (proc_list_init s) then mret 0 else o ← on_proc_tree (rbtree_lookup pid IntComp); mret (or_null o).

Definition find_chunk (t_mmapobj chunkid : Z) : MN Z :=
  if is_null t_mmapobj then mret 0
  else
    m ← load_mmapobj t_mmapobj;
    if is_null (m_chunkobj_tree m) then mret 0
    else o ← on_tree (m_chunkobj_tree m) (rbtree_lookup chunkid IntComp); mret (or_null o).

(** The nodes of the tree are read while nothing changes it. *)
Fixpoint find_vmaid_from_chunk (fuel : nat) (h : gmap Z (node Z)) (n chunkid : Z) : MN Z :=
  if is_null n then mret 0
  else
    match fuel with
    | O => lift None
    | S fuel =>
        x ← lift (h !! n);
        ret ← (if not_null (right x) then find_vmaid_from_chunk fuel h (right x) chunkid else mret 0);
        if not_null ret then mret ret
        else
          let t_mmapobj := value x in
          found ← (if is_null t_mmapobj then mret None
                   else
                     m ← load_mmapobj t_mmapobj;
                     if is_null (m_chunk_tree_init m) then mret None
                     else chunkobj ← find_chunk t_mmapobj chunkid; mret (if not_null chunkobj then Some (s32 (m_vma_id m)) else None));
          match found with
          | Some vma_id => mret vma_id
          | None => if not_null (left x) then find_vmaid_from_chunk fuel h (left x) chunkid else mret 0
          end
    end.

Definition find_mmapobj_from_chunkid (chunkid proc_obj : Z) : MN Z :=
  if is_null proc_obj then mret 0
  else
    p ← load_proc proc_obj;
    if is_null (p_mmapobj_initialized p) then initialize_mmapobj_tree proc_obj;; mret 0
    else if is_null (p_mmapobj_tree p) then mret 0
    else
      s ← gets id;
      tr ← lift (trees s !! p_mmapobj_tree p);
      vmid_l ← find_vmaid_from_chunk (fuel_of tr) (nodes tr) (root tr) chunkid;
      if is_null vmid_l then mret 0
      else o ← on_tree (p_mmapobj_tree p) (rbtree_lookup (u64 vmid_l) IntComp); mret (or_null o).

Definition find_mmapobj (vmid_l proc_obj : Z) : MN Z :=
  if is_null proc_obj then mret 0
  else
    p ← load_proc proc_obj;
    if is_null (p_mmapobj_initialized p) then initialize_mmapobj_tree proc_obj;; mret 0
    else o ← on_tree (p_mmapobj_tree p) (rbtree_lookup vmid_l IntComp); mret (or_null o).

(** The array [var_name] of a request is never null. *)
Definition get_chunk (rqst : rqst_s) : MN Z :=
  let chunkid := if is_null (r_id rqst) then gen_id_from_str (r_var_name rqst) else u32 (r_id rqst) in
  check (not_null chunkid);;
  check (not_null (r_pid rqst));;
  proc_obj ← find_proc_obj (r_pid rqst);
  if is_null proc_obj then mret 0
  else
    mmapobj_ptr ← find_mmapobj_from_chunkid chunkid proc_obj;
    if is_null mmapobj_ptr then mret 0 else find_chunk mmapobj_ptr chunkid.

Definition check_if_chunk_exists (rqst : rqst_s) : MN Z :=
  chunk ← get_chunk rqst;
  if is_null chunk then mret 0
  else
    c ← load_chunkobj chunk;
    if negb (c_valid c =? INVALID) && not_null (c_length c)
    then upd_chunkobj chunk (set_c_chunkid (gen_id_from_str (r_var_name rqst)));; mret chunk
    else mret 0.

(** *** Adding *)

Definition add_mmapobj (mmapobj proc_obj : Z) : MN Z :=
  if is_null mmapobj then mret 1
  else if is_null proc_obj then mret (-1)
  else
    p ← load_proc proc_obj;
    when (is_null (p_mmapobj_initialized p)) (initialize_mmapobj_tree proc_obj);;
    p ← load_proc proc_obj;
    check (not_null (p_mmapobj_tree p));;
    m ← load_mmapobj mmapobj;
    on_tree (p_mmapobj_tree p) (rbtree_insert malloc (m_vma_id m) mmapobj IntComp);;
    upd_mmapobj mmapobj (set_m_proc_obj proc_obj);;
    mret 0.

Definition add_chunkobj (mmapobj chunk_obj : Z) : MN Z :=
  if is_null mmapobj then mret (-1)
  else
    m ← load_mmapobj mmapobj;
    check (not_null (m_chunkobj_tree m));;
    if is_null chunk_obj then mret (-1)
    else
      c ← load_chunkobj chunk_obj;
      check (not_null (c_length c));;
      on_tree (m_chunkobj_tree m) (rbtree_insert malloc (c_chunkid c) chunk_obj IntComp);;
      objnamemap_insert (c_objname c) 0;;
      mret 0.

(** The request is changed: its id and size become those of the file of metadata. *)
Definition create_mmapobj (rqst : rqst_s) (curr_offset proc_obj data_addr : Z) : MN (rqst_s * Z) :=
  check (not_null proc_obj);;
  s ← gets id;
  check (not_null (proc_map_start s));;
  p ← load_proc proc_obj;
  let mmapobj := proc_map_start s + p_meta_offset p in
  upd_proc proc_obj (set_p_meta_offset (u32 (p_meta_offset p + sizeof_mmapobj)));;
  upd_mmapobj mmapobj (set_m_ids (u32 (r_id rqst)) (r_bytes rqst) (r_pid rqst) curr_offset data_addr);;
  m ← load_mmapobj mmapobj;
  let rqst := set_r_bytes MMAP_METADATA_SZ (set_r_id (BASE_METADATA_NVID + m_vma_id m) rqst) in
  let file_name := create_map_file PROCMAPMETADATA_PATH (r_pid rqst) (r_id rqst) in
  setup_map_file file_name (r_bytes rqst);;
  addr ← os_mmap 0 (r_bytes rqst) file_name;
  check (negb (addr =? MAP_FAILED));;
  upd_mmapobj mmapobj (set_m_strt_addr addr);;
  check (strlen file_name <? MAXOBJNAMELEN);;
  upd_mmapobj mmapobj (set_m_mmapobjname file_name);;
  init_chunk_tree mmapobj;;
  m ← load_mmapobj mmapobj;
  check (not_null (m_chunkobj_tree m));;
  mret (rqst, mmapobj).

(** All fields of the structure are written. *)
Definition update_chunkobj (rqst : rqst_s) (mmapobj chunkobj : Z) : MN unit :=
  check (not_null chunkobj);;
  m ← load_mmapobj mmapobj;
  let len := u32 (r_bytes rqst) in
  upd_chunkobj chunkobj (λ c, Chunkobj len (u32 (r_offset rqst)) (u32 (r_id rqst)) (r_pid rqst) (m_vma_id m) 0 (r_nv_ptr rqst) VALID (c_objname c));;
  memset (r_nv_ptr rqst) 0 len;;
  check (negb (strlen (r_var_name rqst) =? 0));;
  check (strlen (r_var_name rqst) <? MAXOBJNAMELEN);;
  upd_chunkobj chunkobj (set_c_objname (r_var_name rqst)).

Definition create_chunkobj (rqst : rqst_s) (mmapobj : Z) : MN Z :=
  m ← load_mmapobj mmapobj;
  check (not_null (m_strt_addr m));;
  let chunkobj := m_strt_addr m + m_meta_offset m in
  upd_mmapobj mmapobj (set_m_meta_offset (u32 (m_meta_offset m + sizeof_chunkobj)));;
  update_chunkobj rqst mmapobj chunkobj;;
  mret chunkobj.

Definition add_mmapobj_to_proc (proc_obj : Z) (rqst : rqst_s) (offset data_addr : Z) : MN (rqst_s * Z) :=
  '(rqst, mmapobj) ← create_mmapobj rqst offset proc_obj data_addr;
  check (not_null mmapobj);;
  add_mmapobj mmapobj proc_obj;;
  upd_proc proc_obj (λ p, set_p_pesist_mmaps (p_pesist_mmaps p + 1) p);;
  mret (rqst, mmapobj).

Definition add_chunk_to_mmapobj (mmapobj : Z) (rqst : rqst_s) : MN Z :=
  chunkobj ← create_chunkobj rqst mmapobj;
  check (not_null chunkobj);;
  add_chunkobj mmapobj chunkobj;;
  mret chunkobj.

(** *** Processes *)

Definition intialize_proc_obj (pid : Z) (proc_obj : Z) : MN unit :=
  upd_proc proc_obj (λ p, Proc pid (p_mmapobj_tree p) (p_mmapobj_initialized p) 0 0 0 (p_data_map_size p) 0 0 sizeof_proc).

Definition create_or_load_proc_obj (pid : Z) : MN Z :=
  proc_obj ← find_process pid;
  if not_null proc_obj then mret proc_obj
  else
    let file_name := generate_file_name PROCMETADATA_PATH pid in
    fd ← check_existing_map_file file_name;
    proc_obj ← (if negb fd then
                  setup_map_file file_name PROC_METADAT_SZ;;
                  proc_obj ← os_mmap 0 PROC_METADAT_SZ file_name;
                  check (negb (proc_obj =? MAP_FAILED));;
                  store_rec proc_obj sizeof_proc (RProc zero_proc);;
                  intialize_proc_obj pid proc_obj;; mret proc_obj
                else
                  proc_obj ← os_mmap 0 PROC_METADAT_SZ file_name;
                  check (negb (proc_obj =? MAP_FAILED));; mret proc_obj);
    modify (set_proc_map_start proc_obj);;
    mret proc_obj.

Definition add_proc_obj (proc_obj : Z) : MN Z :=
  if is_null proc_obj then mret 1
  else
    s ← gets id;
    when (negb (proc_list_init s)) (modify (set_proc_tree rbtree_create));;
    p ← load_proc proc_obj;
    on_proc_tree (rbtree_insert malloc (p_pid p) proc_obj IntComp);;
    mret 0.

(** The file is made if it is not there. *)
Definition map_to_get_chunk_list (mmapobj : Z) (rqst : rqst_s) : MN unit :=
  let file_name := create_map_file PROCMAPMETADATA_PATH (r_pid rqst) (r_id rqst) in
  fd ← check_existing_map_file file_name;
  when (negb fd) (setup_map_file file_name 0);;
  addr ← os_mmap 0 (r_bytes rqst) file_name;
  upd_mmapobj mmapobj (set_m_strt_addr addr).

(** The loop over the structures at [addr]: objects that are not valid are skipped. *)
Fixpoint restore_loop (n : nat) (mmapobj addr : Z) : MN unit :=
  match n with
  | O => mret tt
  | S n =>
      c ← load_chunkobj addr;
      when (negb (c_valid c =? INVALID))
        (m ← load_mmapobj mmapobj;
         upd_chunkobj addr (set_c_nv_ptr (m_data_addr m + c_offset c));;
         r ← add_chunkobj mmapobj addr; check (r =? 0));;
      upd_mmapobj mmapobj (λ m, set_m_mmap_offset (m_mmap_offset m + sizeof_chunkobj) m);;
      restore_loop n mmapobj (addr + sizeof_chunkobj)
  end.

Definition restore_chunk_objs (mmapobj : Z) : MN Z :=
  check (not_null mmapobj);;
  m ← load_mmapobj mmapobj;
  let rqst := Rqst MMAP_METADATA_SZ "" (BASE_METADATA_NVID + m_vma_id m) (m_proc_id m) 0 0 0 in
  upd_mmapobj mmapobj (set_m_chunk_tree_init 0);;
  map_to_get_chunk_list mmapobj rqst;;
  m ← load_mmapobj mmapobj;
  check (negb (m_strt_addr m =? MAP_FAILED));;
  check (not_null (m_strt_addr m));;
  let addr := m_strt_addr m in
  upd_mmapobj mmapobj (set_m_mmap_offset 0);;
  let file_name := create_map_file PROCMAPDATAPATH (m_proc_id m) (m_vma_id m) in
  fd ← check_existing_map_file file_name;
  if negb fd then mret 0
  else
    data ← os_mmap 0 (m_length m) file_name;
    upd_mmapobj mmapobj (set_m_data_addr data);;
    check (not_null data);;
    m ← load_mmapobj mmapobj;
    when (is_null (m_chunk_tree_init m) && not_null (m_numchunks m)) (init_chunk_tree mmapobj);;
    restore_loop (Z.to_nat (m_numchunks m)) mmapobj addr;;
    mret 0.

(** The loop over the maps; [false] if one cannot be restored. *)
Fixpoint load_loop (n : nat) (proc_obj addr : Z) : MN bool :=
  match n with
  | O => mret true
  | S n =>
      add_mmapobj addr proc_obj;;
      r ← restore_chunk_objs addr;
      if not_null r then mret false else load_loop n proc_obj (addr + sizeof_mmapobj)
  end.

Definition load_process (pid : Z) : MN Z :=
  s ← gets id;
  check (g_initialized s);;
  nv_proc_obj ← create_or_load_proc_obj pid;
  let addr := nv_proc_obj + sizeof_proc in
  let proc_obj := nv_proc_obj in
  upd_proc proc_obj (set_p_tree 0 0);;
  add_proc_obj proc_obj;;
  p ← load_proc proc_obj;
  when (is_null (p_mmapobj_initialized p)) (initialize_mmapobj_tree proc_obj);;
  p ← load_proc proc_obj;
  ok ← load_loop (Z.to_nat (p_pesist_mmaps p)) proc_obj addr;
  mret (if ok : bool then proc_obj else 0).

Definition nv_initialize (pid : Z) : MN Z :=
  s ← gets id;
  if g_initialized s then mret 0
  else modify (set_g_initialized true);; load_process pid;; mret 0.

Definition create_new_process (pid : Z) : MN Z :=
  nv_initialize pid;;
  proc_obj ← create_or_load_proc_obj pid;
  check (not_null proc_obj);;
  add_proc_obj proc_obj;;
  mret proc_obj.

(** *** Mappings *)

Definition insert_mmapobj_node (val sz id proc_id : Z) : MN unit :=
  s ← gets (λ s, s);
  (match map_tree s with None => modify (set_map_tree (Some rbtree_create)) | Some _ => mret tt end);;
  on_map_tree (rbtree_insert malloc val (MmapNode val (val + sz) id proc_id) IntComp).

(** The id of the map around an address and the start of the map; 0 if there is none. *)
Definition locate_mmapobj_node (addr : Z) : MN (Z * Z) :=
  o ← on_map_tree (rbtree_lookup addr CompRange);
  mret (match o with Some mmapobj_struct => (u32 (n_map_id mmapobj_struct), n_start_addr mmapobj_struct) | None => (0, 0) end).

(** The counter of maps is a signed integer. *)
Definition _mmap (addr sz proc_id : Z) : MN Z :=
  check (not_null proc_id);;
  proc_obj ← find_proc_obj proc_id;
  proc_obj ← (if is_null proc_obj then proc_obj ← create_or_load_proc_obj proc_id; check (not_null proc_obj);; mret proc_obj else mret proc_obj);
  p ← load_proc proc_obj;
  check (p_num_mmaps p <? 2 ^ 31 - 1);;
  let vma_id := p_num_mmaps p + 1 in
  upd_proc proc_obj (set_p_num_mmaps (p_num_mmaps p + 1));;
  let file_name := create_map_file PROCMAPDATAPATH proc_id vma_id in
  setup_map_file file_name sz;;
  ret ← mmap_wrap addr sz file_name;
  check (not_null ret);;
  insert_mmapobj_node ret sz vma_id proc_id;;
  record_vmas vma_id sz;;
  mret ret.

(** *** Objects *)

Definition nv_delete (rqst : rqst_s) : MN Z :=
  check (not_null (r_pid rqst));;
  proc_obj ← find_proc_obj (r_pid rqst);
  check (not_null proc_obj);;
  chunk ← get_chunk rqst;
  if is_null chunk then mret (-1)
  else
    upd_chunkobj chunk (λ c, set_c_valid INVALID (set_c_commitsz 0 c));;
    c ← load_chunkobj chunk;
    mmapobj ← find_mmapobj_from_chunkid (c_chunkid c) proc_obj;
    if is_null mmapobj then mret (-1)
    else
      m ← load_mmapobj mmapobj;
      when (not_null (m_chunkobj_tree m)) (on_tree (m_chunkobj_tree m) (rbtree_delete (c_chunkid c) IntComp));;
      objnamemap_delete (r_var_name rqst);;
      mret 0.

(** The object that had the name before gives its contents to the new one. *)
Definition replace_object (rqst : rqst_s) (chunk oldchunk : Z) : MN rqst_s :=
  old ← load_chunkobj oldchunk;
  c ← load_chunkobj chunk;
  let bytes := if c_length old <? c_length c then c_length old else c_length c in
  memcpy (c_nv_ptr c) (c_nv_ptr old) bytes;;
  upd_chunkobj chunk (set_c_commitsz (c_commitsz old));;
  let rqst := Rqst (c_length old) (c_objname old) (r_id rqst) (c_pid old) (c_nv_ptr old) (r_offset rqst) (r_commitsz rqst) in
  nv_delete rqst;;
  mret rqst.

(** The result and the request, whose id is set. *)
Definition nv_record_chunk (rqst : rqst_s) (addr : Z) : MN (Z * rqst_s) :=
  s ← gets id;
  check (g_initialized s);;
  proc_obj ← find_proc_obj (r_pid rqst);
  proc_obj ← (if is_null proc_obj then create_new_process (r_pid rqst) else mret proc_obj);
  check (not_null proc_obj);;
  oldchunk ← check_if_chunk_exists rqst;
  '(vma_id, start_addr) ← locate_mmapobj_node addr;
  check (not_null vma_id);;
  check (not_null start_addr);;
  mmapobj ← find_mmapobj vma_id proc_obj;
  '(bytes, mmapobj) ← (if is_null mmapobj then
      sz ← get_vma_size vma_id;
      '(lcl_rqst, mmapobj) ← add_mmapobj_to_proc proc_obj (Rqst sz "" vma_id (r_pid rqst) 0 0 0) 0 start_addr;
      check (not_null mmapobj);; mret (r_bytes lcl_rqst, mmapobj)
    else m ← load_mmapobj mmapobj; mret (m_length m, mmapobj));
  check (not_null bytes);;
  let chunkid := gen_id_from_str (r_var_name rqst) in
  let rqst := set_r_id chunkid rqst in
  check (not_null chunkid);;
  let lcl_rqst := Rqst (r_bytes rqst) (r_var_name rqst) chunkid (r_pid rqst) addr (u32 (addr - start_addr)) 0 in
  chunk ← add_chunk_to_mmapobj mmapobj lcl_rqst;
  upd_mmapobj mmapobj (λ m, set_m_numchunks (m_numchunks m + 1) m);;
  rqst ← (if not_null oldchunk then replace_object rqst chunk oldchunk else mret rqst);
  c ← load_chunkobj chunk;
  record_chunks (c_nv_ptr c) chunk;;
  mret (SUCCESS, rqst).

(** The pointer, or null, and the request with the size and the committed size. *)
Definition nv_map_read (rqst : rqst_s) : MN (Z * rqst_s) :=
  proc_obj ← find_process (r_pid rqst);
  proc_obj ← (if is_null proc_obj then proc_obj ← load_process (r_pid rqst); check (not_null proc_obj);; mret proc_obj else mret proc_obj);
  let chunk_id := if not_null (r_id rqst) then u32 (r_id rqst) else gen_id_from_str (r_var_name rqst) in
  let error := Rqst (r_bytes rqst) (r_var_name rqst) (r_id rqst) (r_pid rqst) 0 (r_offset rqst) (r_commitsz rqst) in
  mmapobj_ptr ← find_mmapobj_from_chunkid chunk_id proc_obj;
  if is_null mmapobj_ptr then mret (0, error)
  else
    m ← load_mmapobj mmapobj_ptr;
    o ← on_tree (m_chunkobj_tree m) (rbtree_lookup chunk_id IntComp);
    let chunkobj := or_null o in
    check (not_null chunkobj);;
    c ← load_chunkobj chunkobj;
    check (not_null (c_nv_ptr c));;
    check (not_null (c_length c));;
    if c_valid c =? INVALID then mret (0, error)
    else mret (c_nv_ptr c, Rqst (c_length c) (r_var_name rqst) (r_id rqst) (r_pid rqst) (c_nv_ptr c) (r_offset rqst) (c_commitsz c)).

Definition nv_commit (rqst : rqst_s) : MN Z :=
  chunk ← get_chunk rqst;
  check (not_null chunk);;
  c ← load_chunkobj chunk;
  check (not_null (c_length c));;
  mret 0.

Definition nv_commit_len (rqst : rqst_s) (sz : Z) : MN Z :=
  chunk ← get_chunk rqst;
  check (not_null chunk);;
  upd_chunkobj chunk (set_c_commitsz (u32 sz));;
  c ← load_chunkobj chunk;
  check (not_null (c_length c));;
  mret 0.

Definition nv_rename (src_rqst : rqst_s) (destname : string) : MN unit :=
  oldchunk ← get_chunk src_rqst;
  if is_null oldchunk then mret tt
  else
    proc_obj ← find_proc_obj (r_pid src_rqst);
    check (not_null proc_obj);;
    c ← load_chunkobj oldchunk;
    mmapobj ← find_mmapobj_from_chunkid (c_chunkid c) proc_obj;
    if is_null mmapobj then mret tt
    else
      when (not_null (c_length c))
        (check (strlen destname <? MAXOBJNAMELEN);;
         upd_chunkobj oldchunk (λ c, set_c_valid VALID (set_c_objname destname (set_c_chunkid (gen_id_from_str destname) c)));;
         add_chunkobj mmapobj oldchunk;; mret tt);;
      objnamemap_delete (r_var_name src_rqst);;
      objnamemap_insert destname 0.

(** ** The interface for programs (c_io.cc) *)

Definition BASEID_GET : Z := 900.

(** The name is copied to an array of the request. *)
Definition named (var : string) : MN rqst_s :=
  check (strlen var <? MAXOBJNAMELEN);; mret (Rqst 0 var 0 (BASEID_GET + 1) 0 0 0).

Definition nvinit : MN Z := nv_initialize (BASEID_GET + 1).

(** [je_malloc_] (jemalloc.c): the size is taken from the request, where it has
    32 bits; [alloc] is the allocation, and the new block is recorded. *)
Definition je_malloc_ (alloc : Z → MN Z) (rqst : rqst_s) : MN (Z * rqst_s) :=
  let size := r_commitsz rqst in
  let size := if size =? 0 then 1 else size in
  ret ← alloc size;
  check (not_null ret);;
  '(_, rqst) ← nv_record_chunk (Rqst size (r_var_name rqst) 0 (r_pid rqst) ret (r_offset rqst) (r_commitsz rqst)) ret;
  mret (ret, rqst).

Definition p_c_nvalloc_id (alloc : Z → MN Z) (sz : Z) (var : string) : MN (Z * Z) :=
  rqst ← named var;
  '(buffer, rqst) ← je_malloc_ alloc (Rqst sz (r_var_name rqst) 0 (r_pid rqst) 0 0 (u32 sz));
  check (not_null buffer);;
  mret (buffer, u32 (r_id rqst)).

(** Without a name the array of the request keeps what was on the stack, [junk]. *)
Definition p_c_nvalloc_ (alloc : Z → MN Z) (sz : Z) (var : option string) (rqstid : Z) (junk : string) : MN Z :=
  rqst ← (match var with
          | Some var => rqst ← named var; mret (Rqst sz (r_var_name rqst) 0 (r_pid rqst) 0 0 (u32 sz))
          | None => mret (Rqst sz junk rqstid (BASEID_GET + 1) 0 0 (u32 sz))
          end);
  '(buffer, _) ← je_malloc_ alloc rqst;
  mret buffer.

(** The buffer and, from the request, the size that was committed; [stack] is
    what the uninitialised request holds before. *)
Definition p_c_nvread_len (var : string) (id : Z) (stack : rqst_s) : MN (Z * Z) :=
  rqst ← (if id =? 0 then check (strlen var <? MAXOBJNAMELEN);; mret (Rqst (r_bytes stack) var 0 (BASEID_GET + 1) (r_nv_ptr stack) (r_offset stack) (r_commitsz stack))
          else mret (Rqst (r_bytes stack) (r_var_name stack) id (BASEID_GET + 1) (r_nv_ptr stack) (r_offset stack) (r_commitsz stack)));
  '(buffer, rqst) ← nv_map_read rqst;
  mret (buffer, r_commitsz rqst).

Definition nvread_ (var : string) : MN Z :=
  rqst ← named var; '(buffer, _) ← nv_map_read rqst; check (not_null buffer);; mret buffer.

Definition nvread_id_ (varid : Z) : MN Z :=
  '(buffer, _) ← nv_map_read (Rqst 0 "" varid (BASEID_GET + 1) 0 0 0); check (not_null buffer);; mret buffer.

Definition p_c_nvcommitsz (ptr : string) (commitsz : Z) : MN unit := rqst ← named ptr; nv_commit_len rqst commitsz;; mret tt.
Definition p_c_nvcommitsz_id (objid commitsz : Z) : MN unit :=
  nv_commit_len (Rqst 0 "" objid (BASEID_GET + 1) 0 0 0) commitsz;; mret tt.
Definition nvdelete (ptr : string) : MN unit := rqst ← named ptr; nv_delete rqst;; mret tt.
Definition nv_renameobj (src dest : string) : MN unit := rqst ← named src; nv_rename rqst dest.
End store.
