(* ===== verification/StoreMem.v ===== *)
(** * The object store: files, mappings and trees

    What the loads, stores and calls of the model do to the files and the
    trees, for pointers that the mappings know. *)

From stdpp Require Import strings pretty.
From S2P Require Import Prelude Rbtree RbtreeSpec RbtreeMap Store.

Implicit Types (fs : gmap string file) (mp : gmap Z (string * Z)) (s : nvstate).

(** ** The names of files are different *)

Definition pid0 : Z := BASEID_GET + 1.
Definition fproc : string := generate_file_name PROCMETADATA_PATH pid0.
Definition fmeta (v : Z) : string := create_map_file PROCMAPMETADATA_PATH pid0 (BASE_METADATA_NVID + v).
Definition fdata (v : Z) : string := create_map_file PROCMAPDATAPATH pid0 v.

Lemma fmeta_eq v : fmeta v = "/mnt/pmfs/chkprocmap901_" +:+ pretty (BASE_METADATA_NVID + v).
Proof. reflexivity. Qed.
Lemma fdata_eq v : fdata v = "/mnt/pmfs/chkprocmapdata901_" +:+ pretty v.
Proof. reflexivity. Qed.
Lemma fproc_eq : fproc = "/mnt/pmfs/chkproc901".
Proof. vm_compute. reflexivity. Qed.

Lemma fmeta_inj v w : fmeta v = fmeta w → v = w.
Proof. rewrite !fmeta_eq. intros E%(inj _)%(inj pretty). lia. Qed.
Lemma fdata_inj v w : fdata v = fdata w → v = w.
Proof. rewrite !fdata_eq. by intros E%(inj _)%(inj pretty). Qed.
Lemma fmeta_fdata v w : fmeta v ≠ fdata w.
Proof. rewrite fmeta_eq, fdata_eq. discriminate. Qed.
Lemma fproc_fmeta v : fproc ≠ fmeta v.
Proof. rewrite fmeta_eq, fproc_eq. discriminate. Qed.
Lemma fproc_fdata v : fproc ≠ fdata v.
Proof. rewrite fdata_eq, fproc_eq. discriminate. Qed.
(** The names fit into their arrays. *)
Lemma length_pretty_N_go d x y : (x < 10 ^ N.of_nat d)%N → (String.length (pretty_N_go x y) ≤ d + String.length y)%nat.
Proof.
  revert x y. induction d as [|d IH]; intros x y Hx.
  - assert (x = 0)%N as -> by (cbn in Hx; lia). by rewrite pretty_N_go_0.
  - destruct (N.eq_0_gt_0_cases x) as [->|Hpos]; [rewrite pretty_N_go_0; lia|]. rewrite pretty_N_go_step by done.
    rewrite Nat2N.inj_succ, N.pow_succ_r' in Hx. etransitivity; [apply IH|cbn; lia]. apply N.Div0.div_lt_upper_bound. lia.
Qed.

Lemma length_pretty z : 0 ≤ z < 10 ^ 11 → (String.length (pretty z) ≤ 12)%nat.
Proof.
  intros Hz. destruct z as [|p|p]; [cbn; lia| |lia]. change (pretty (Z.pos p)) with (pretty (N.pos p)). unfold pretty, pretty_N. rewrite decide_False by done.
  etransitivity; [apply (length_pretty_N_go 11); lia|cbn; lia].
Qed.

Lemma strlen_fmeta v : 0 ≤ v < 2 ^ 31 → strlen (fmeta v) < MAXOBJNAMELEN.
Proof.
  intros Hv. rewrite fmeta_eq. unfold strlen. pose proof (length_pretty (BASE_METADATA_NVID + v) ltac:(unfold BASE_METADATA_NVID; lia)) as Hp.
  change (Z.of_nat (24 + String.length (pretty (BASE_METADATA_NVID + v))) < 255). lia.
Qed.

#[export] Hint Resolve fmeta_fdata fproc_fmeta fproc_fdata not_eq_sym : nv.

(** ** Files *)

Definition rec_at fs (f : string) (o : Z) : option record := x ← fs !! f; f_recs x !! o.
Definition size_at fs (f : string) : option Z := f_size <$> fs !! f.
Definition byte_at fs (f : string) (o : Z) : Z := match fs !! f with Some x => f_bytes x o | None => 0 end.

Definition fput (f : string) (o : Z) (r : record) fs : gmap string file :=
  alter (λ x, File (f_size x) (<[o := r]> (f_recs x)) (f_bytes x)) f fs.
Definition fset (f : string) (o n : Z) (v : Z → Z) fs : gmap string file :=
  alter (λ x, File (f_size x) (f_recs x) (λ i, if (o <=? i) && (i <? o + n) then v (i - o) else f_bytes x i)) f fs.
Definition fnew (f : string) (n : Z) fs : gmap string file := <[f := File n ∅ (λ _, 0)]> fs.

Lemma size_fput f o r fs g : size_at (fput f o r fs) g = size_at fs g.
Proof. unfold size_at, fput. destruct (decide (f = g)) as [<-|Hne]; [rewrite lookup_alter_eq; by destruct (fs !! f)|by rewrite lookup_alter_ne]. Qed.
Lemma byte_fput f o r fs g i : byte_at (fput f o r fs) g i = byte_at fs g i.
Proof. unfold byte_at, fput. destruct (decide (f = g)) as [<-|Hne]; [rewrite lookup_alter_eq; by destruct (fs !! f)|by rewrite lookup_alter_ne]. Qed.
Lemma rec_fput f o r fs : is_Some (size_at fs f) → rec_at (fput f o r fs) f o = Some r.
Proof. unfold size_at, rec_at, fput. rewrite lookup_alter_eq. destruct (fs !! f); cbn; [by rewrite lookup_insert_eq|intros [? [=]]]. Qed.
Lemma rec_fput_ne f o r fs g i : g ≠ f ∨ i ≠ o → rec_at (fput f o r fs) g i = rec_at fs g i.
Proof.
  intros Hne. unfold rec_at, fput. destruct (decide (f = g)) as [<-|]; [|by rewrite lookup_alter_ne].
  rewrite lookup_alter_eq. destruct (fs !! f); cbn; [|done]. rewrite lookup_insert_ne; [done|naive_solver].
Qed.

Lemma size_fset f o n v fs g : size_at (fset f o n v fs) g = size_at fs g.
Proof. unfold size_at, fset. destruct (decide (f = g)) as [<-|Hne]; [rewrite lookup_alter_eq; by destruct (fs !! f)|by rewrite lookup_alter_ne]. Qed.
Lemma rec_fset f o n v fs g i : rec_at (fset f o n v fs) g i = rec_at fs g i.
Proof. unfold rec_at, fset. destruct (decide (f = g)) as [<-|Hne]; [rewrite lookup_alter_eq; by destruct (fs !! f)|by rewrite lookup_alter_ne]. Qed.
Lemma byte_fset f o n v fs g i :
  is_Some (size_at fs f) → byte_at (fset f o n v fs) g i = if decide (g = f ∧ o ≤ i < o + n) then v (i - o) else byte_at fs g i.
Proof.
  unfold size_at, byte_at, fset. intros Hs. destruct (decide (f = g)) as [<-|Hne]; [|rewrite lookup_alter_ne by done; by rewrite decide_False by naive_solver].
  rewrite lookup_alter_eq. destruct (fs !! f); [|by destruct Hs as [? [=]]]. case_decide as Hd; cbn;
    destruct (Z.leb_spec o i), (Z.ltb_spec i (o + n)); try done; [lia..|]. by destruct Hd.
Qed.

Lemma size_fnew f n fs : size_at (fnew f n fs) f = Some n.
Proof. unfold size_at, fnew. by rewrite lookup_insert_eq. Qed.
Lemma size_fnew_ne f n fs g : g ≠ f → size_at (fnew f n fs) g = size_at fs g.
Proof. intros. unfold size_at, fnew. by rewrite lookup_insert_ne. Qed.
Lemma rec_fnew f n fs o : rec_at (fnew f n fs) f o = None.
Proof. unfold rec_at, fnew. by rewrite lookup_insert_eq. Qed.
Lemma rec_fnew_ne f n fs g o : g ≠ f → rec_at (fnew f n fs) g o = rec_at fs g o.
Proof. intros. unfold rec_at, fnew. by rewrite lookup_insert_ne. Qed.
Lemma byte_fnew f n fs o : byte_at (fnew f n fs) f o = 0.
Proof. unfold byte_at, fnew. by rewrite lookup_insert_eq. Qed.
Lemma byte_fnew_ne f n fs g o : g ≠ f → byte_at (fnew f n fs) g o = byte_at fs g o.
Proof. intros. unfold byte_at, fnew. by rewrite lookup_insert_ne. Qed.

Lemma fput_fput f o r r' fs : fput f o r' (fput f o r fs) = fput f o r' fs.
Proof.
  unfold fput. apply map_eq. intros g. destruct (decide (f = g)) as [<-|]; [|by rewrite !lookup_alter_ne].
  rewrite !lookup_alter_eq. destruct (fs !! f) as [x|]; [|done]. cbn. by rewrite insert_insert_eq.
Qed.

(** ** Pointers *)

(** Address [a] is offset [o] of file [f]. *)
Definition points mp (a : Z) (f : string) (o : Z) : Prop := ∃ b len, mp !! b = Some (f, len) ∧ a = b + o ∧ 0 ≤ o < len.

(** Mappings do not overlap and are as long as their files. *)
Record maps_ok mp fs : Prop := {
  mo_size : ∀ b f len, mp !! b = Some (f, len) → 0 < b ∧ 0 < len ∧ size_at fs f = Some len;
  mo_apart : ∀ b1 b2 x1 x2, mp !! b1 = Some x1 → mp !! b2 = Some x2 → b1 ≠ b2 → b1 + x1.2 ≤ b2 ∨ b2 + x2.2 ≤ b1
}.

Lemma maps_ok_sizes mp fs fs' : maps_ok mp fs → (∀ b f len, mp !! b = Some (f, len) → size_at fs' f = size_at fs f) → maps_ok mp fs'.
Proof. intros [Hs Ha] He. constructor; [|done]. intros b f len Eb. rewrite (He _ _ _ Eb). by eapply Hs. Qed.

Lemma points_pos mp fs a f o : maps_ok mp fs → points mp a f o → 0 < a.
Proof. intros [Hs _] (b & len & Eb & -> & Ho). destruct (Hs _ _ _ Eb). lia. Qed.

Lemma points_size mp fs a f o : maps_ok mp fs → points mp a f o → ∃ n, size_at fs f = Some n ∧ 0 ≤ o < n.
Proof. intros [Hs _] (b & len & Eb & -> & Ho). destruct (Hs _ _ _ Eb) as (_ & _ & ?). eauto. Qed.

Lemma points_mono mp mp' a f o : mp ⊆ mp' → points mp a f o → points mp' a f o.
Proof. intros Hs (b & len & Eb & ? & ?). exists b, len. split; [by eapply lookup_weaken|done]. Qed.

Lemma points_add mp fs a f o d n : maps_ok mp fs → points mp a f o → size_at fs f = Some n → 0 ≤ o + d < n → points mp (a + d) f (o + d).
Proof.
  intros [Hs _] (b & len & Eb & -> & Ho) En Hd. destruct (Hs _ _ _ Eb) as (_ & _ & Es). assert (n = len) as -> by congruence. exists b, len. split_and!; [done|lia|lia|lia].
Qed.

Lemma points_here mp fs b f len : maps_ok mp fs → mp !! b = Some (f, len) → points mp b f 0.
Proof. intros [Hs _] Eb. destruct (Hs _ _ _ Eb). exists b, len. split_and!; [done|lia|lia|lia]. Qed.

Lemma find_map_points mp fs a f o : maps_ok mp fs → points mp a f o → ∃ len, find_map a mp = Some (f, o, len) ∧ size_at fs f = Some len.
Proof.
  intros [Hs Ha] (b & len & Eb & -> & Ho). exists len. split; [|by eapply Hs]. unfold find_map.
  destruct (list_find_elem_of (λ x : Z * (string * Z), x.1 ≤ b + o < x.1 + x.2.2) (map_to_list mp) (b, (f, len))) as [[i [b' [f' len']]] E]; [by apply elem_of_map_to_list|cbn; lia|].
  rewrite E. cbn. apply list_find_Some in E as (E & Hin & _). cbn in Hin. apply list_elem_of_lookup_2, elem_of_map_to_list in E.
  destruct (decide (b' = b)) as [->|Hne]; [rewrite E in Eb; injection Eb as -> ->; f_equal; f_equal; f_equal; lia|].
  destruct (Ha _ _ _ _ E Eb Hne); cbn in *; lia.
Qed.



Lemma wp_resolve s a n f o z (Q : string * Z * file → nvstate → Prop) :
  maps_ok (maps s) (files s) → points (maps s) a f o → size_at (files s) f = Some z → o + n ≤ z →
  (∀ x, files s !! f = Some x → f_size x = z → Q (f, o, x) s) → wp (resolve a n) s Q.
Proof.
  intros Hm Hp Hz Hn HQ. destruct (find_map_points _ _ _ _ _ Hm Hp) as (len & Ef & Es). assert (len = z) as -> by congruence.
  unfold size_at in Es. destruct (files s !! f) as [x|] eqn:Ex; [|done]. injection Es as Es.
  unfold resolve. apply wp_bind, wp_gets. cbn [id]. apply wp_bind. eapply wp_lift; [exact Ef|]. apply wp_bind. eapply wp_lift; [exact Ex|].
  apply wp_bind, wp_check; [rewrite Es; destruct (Z.leb_spec (o + n) z); [done|lia]|]. apply wp_ret. by apply HQ.
Qed.

Lemma alter_insert_eq (g : file → file) f x (m : gmap string file) : m !! f = Some x → <[f := g x]> m = alter g f m.
Proof. intros E. apply map_eq. intros i. destruct (decide (f = i)) as [<-|]; [by rewrite lookup_insert_eq, lookup_alter_eq, E|by rewrite lookup_insert_ne, lookup_alter_ne]. Qed.

Lemma wp_store_rec s a n f o z r (Q : unit → nvstate → Prop) :
  maps_ok (maps s) (files s) → points (maps s) a f o → size_at (files s) f = Some z → o + n ≤ z →
  Q tt (set_files (fput f o r (files s)) s) → wp (store_rec a n r) s Q.
Proof.
  intros Hm Hp Hz Hn HQ. unfold store_rec. apply wp_bind. eapply wp_resolve; [done..|]. intros x Ex _. cbn. apply wp_modify.
  unfold fput in HQ. by rewrite <- (alter_insert_eq _ f x) in HQ.
Qed.

Lemma wp_load_rec s a n f o z (Q : option record → nvstate → Prop) :
  maps_ok (maps s) (files s) → points (maps s) a f o → size_at (files s) f = Some z → o + n ≤ z →
  Q (rec_at (files s) f o) s → wp (load_rec a n) s Q.
Proof.
  intros Hm Hp Hz Hn HQ. unfold load_rec. apply wp_bind. eapply wp_resolve; [done..|]. intros x Ex _. cbn. apply wp_ret. unfold rec_at in HQ. by rewrite Ex in HQ.
Qed.

Lemma wp_set_bytes s a n f o z v (Q : unit → nvstate → Prop) :
  maps_ok (maps s) (files s) → points (maps s) a f o → size_at (files s) f = Some z → o + n ≤ z →
  Q tt (set_files (fset f o n v (files s)) s) → wp (set_bytes a n v) s Q.
Proof.
  intros Hm Hp Hz Hn HQ. unfold set_bytes. apply wp_bind. eapply wp_resolve; [done..|]. intros x Ex _. cbn. apply wp_modify.
  unfold fset in HQ. by rewrite <- (alter_insert_eq _ f x) in HQ.
Qed.

Lemma wp_load_byte s a f o (Q : Z → nvstate → Prop) :
  maps_ok (maps s) (files s) → points (maps s) a f o → Q (byte_at (files s) f o) s → wp (load_byte a) s Q.
Proof.
  intros Hm Hp HQ. destruct (points_size _ _ _ _ _ Hm Hp) as (z & Hz & Ho). unfold load_byte. apply wp_bind. eapply wp_resolve; [done..|lia|]. intros x Ex _. cbn. apply wp_ret.
  unfold byte_at in HQ. by rewrite Ex in HQ.
Qed.


(** ** Structures in files *)

Section structs.
Context (s : nvstate) (a : Z) (f : string) (o z : Z).
Hypothesis Hm : maps_ok (maps s) (files s).
Hypothesis Hp : points (maps s) a f o.
Hypothesis Hz : size_at (files s) f = Some z.

Lemma wp_load_proc p (Q : proc_s → nvstate → Prop) : o + sizeof_proc ≤ z → rec_at (files s) f o = Some (RProc p) → Q p s → wp (load_proc a) s Q.
Proof using Type*. intros Hn E HQ. unfold load_proc. apply wp_bind. eapply wp_load_rec; [done..|]. by rewrite E. Qed.
Lemma wp_load_mmapobj m (Q : mmapobj_s → nvstate → Prop) : o + sizeof_mmapobj ≤ z → rec_at (files s) f o = Some (RMmap m) → Q m s → wp (load_mmapobj a) s Q.
Proof using Type*. intros Hn E HQ. unfold load_mmapobj. apply wp_bind. eapply wp_load_rec; [done..|]. by rewrite E. Qed.
Lemma wp_load_chunkobj c (Q : chunkobj_s → nvstate → Prop) : o + sizeof_chunkobj ≤ z → rec_at (files s) f o = Some (RChunk c) → Q c s → wp (load_chunkobj a) s Q.
Proof using Type*. intros Hn E HQ. unfold load_chunkobj. apply wp_bind. eapply wp_load_rec; [done..|]. by rewrite E. Qed.

Lemma wp_upd_proc g p (Q : unit → nvstate → Prop) :
  o + sizeof_proc ≤ z → rec_at (files s) f o = Some (RProc p) → Q tt (set_files (fput f o (RProc (g p)) (files s)) s) → wp (upd_proc a g) s Q.
Proof using Type*. intros Hn E HQ. unfold upd_proc. apply wp_bind. eapply wp_load_proc; [done..|]. by eapply wp_store_rec. Qed.
Lemma wp_upd_mmapobj g m (Q : unit → nvstate → Prop) :
  o + sizeof_mmapobj ≤ z → rec_at (files s) f o = Some (RMmap m) → Q tt (set_files (fput f o (RMmap (g m)) (files s)) s) → wp (upd_mmapobj a g) s Q.
Proof using Type*. intros Hn E HQ. unfold upd_mmapobj. apply wp_bind. eapply wp_load_mmapobj; [done..|]. by eapply wp_store_rec. Qed.
Lemma wp_upd_mmapobj_new g (Q : unit → nvstate → Prop) :
  o + sizeof_mmapobj ≤ z → rec_at (files s) f o = None → Q tt (set_files (fput f o (RMmap (g zero_mmapobj)) (files s)) s) → wp (upd_mmapobj a g) s Q.
Proof using Type*. intros Hn E HQ. unfold upd_mmapobj. apply wp_bind. unfold load_mmapobj. apply wp_bind. eapply wp_load_rec; [done..|]. rewrite E. by eapply wp_store_rec. Qed.
Lemma wp_upd_chunkobj g c (Q : unit → nvstate → Prop) :
  o + sizeof_chunkobj ≤ z → rec_at (files s) f o = Some (RChunk c) → Q tt (set_files (fput f o (RChunk (g c)) (files s)) s) → wp (upd_chunkobj a g) s Q.
Proof using Type*. intros Hn E HQ. unfold upd_chunkobj. apply wp_bind. eapply wp_load_chunkobj; [done..|]. by eapply wp_store_rec. Qed.
Lemma wp_upd_chunkobj_any g (Q : unit → nvstate → Prop) :
  o + sizeof_chunkobj ≤ z → (∀ r, rec_at (files s) f o = Some r → ∃ c, r = RChunk c) →
  (∀ c, Q tt (set_files (fput f o (RChunk (g c)) (files s)) s)) → wp (upd_chunkobj a g) s Q.
Proof using Type*.
  intros Hn E HQ. unfold upd_chunkobj. apply wp_bind. unfold load_chunkobj. apply wp_bind. eapply wp_load_rec; [done..|].
  destruct (rec_at (files s) f o) as [r|]; [destruct (E r eq_refl) as [c ->]|]; (eapply wp_lift; [done|]); by eapply wp_store_rec.
Qed.
End structs.

Lemma maps_ok_fput mp fs f o r : maps_ok mp fs → maps_ok mp (fput f o r fs).
Proof. intros Hm. eapply maps_ok_sizes; [done|]. intros. apply size_fput. Qed.
Lemma maps_ok_fset mp fs f o n v : maps_ok mp fs → maps_ok mp (fset f o n v fs).
Proof. intros Hm. eapply maps_ok_sizes; [done|]. intros. apply size_fset. Qed.
#[export] Hint Resolve maps_ok_fput maps_ok_fset : nv.

(** ** Trees in the heap *)

Lemma set_trees_id t tr s : trees s !! t = Some tr → set_trees (<[t := tr]> (trees s)) s = s.
Proof. intros E. rewrite insert_id by done. by destruct s. Qed.

Lemma wp_on_tree {A} t tr (op : M (rbtree Z) A) s Q :
  trees s !! t = Some tr → wp op tr (λ r tr', Q r (set_trees (<[t := tr']> (trees s)) s)) → wp (on_tree t op) s Q.
Proof.
  intros E Hw. unfold on_tree. apply wp_bind, wp_gets. cbn [id]. apply wp_bind. eapply wp_lift; [exact E|]. apply wp_Some in Hw as (r & tr' & Eo & HQ).
  apply wp_bind. eapply wp_lift; [exact Eo|]. cbn. by apply wp_bind, wp_modify, wp_ret.
Qed.

Lemma wp_lookup_at t tr C k s (Q : option Z → nvstate → Prop) :
  trees s !! t = Some tr → rb_map tr C → Q (C !! k) s → wp (on_tree t (rbtree_lookup k IntComp)) s Q.
Proof.
  intros E HC HQ. eapply wp_on_tree; [exact E|]. eapply wp_mono; [by apply rbtree_lookup_ok|]. cbn. intros r s' [-> ->]. by rewrite set_trees_id.
Qed.

Lemma wp_remove_at t tr C k s (Q : unit → nvstate → Prop) :
  trees s !! t = Some tr → rb_map tr C → (∀ tr', rb_map tr' (delete k C) → Q tt (set_trees (<[t := tr']> (trees s)) s)) → wp (on_tree t (rbtree_delete k IntComp)) s Q.
Proof. intros E HC HQ. eapply wp_on_tree; [exact E|]. eapply wp_mono; [by apply rbtree_delete_ok|]. cbn. intros [] s' Hs. by apply HQ. Qed.

(** What the heap and the kernel promise: memory that is not in use, and a mapping
    that overlaps no other. *)
Definition fresh_malloc (malloc : gset Z → Z) : Prop := ∀ D, malloc D ≠ 0 ∧ malloc D ∉ D.
Definition fresh_mmap (mmap : gmap Z (string * Z) → Z → Z → Z) : Prop :=
  ∀ mp a n, 0 < n → mmap mp a n ≠ MAP_FAILED ∧ 0 < mmap mp a n ∧ ∀ b x, mp !! b = Some x → 0 < x.2 → b + x.2 ≤ mmap mp a n ∨ mmap mp a n + n ≤ b.

Section heap.
Context (malloc : gset Z → Z).
Hypothesis malloc_fresh : fresh_malloc malloc.
Context (mmap : gmap Z (string * Z) → Z → Z → Z).
Hypothesis mmap_fresh : fresh_mmap mmap.

Lemma wp_insert_at t tr C k v s (Q : unit → nvstate → Prop) :
  trees s !! t = Some tr → rb_map tr C → (∀ tr', rb_map tr' (<[k := v]> C) → Q tt (set_trees (<[t := tr']> (trees s)) s)) →
  wp (on_tree t (rbtree_insert malloc k v IntComp)) s Q.
Proof using malloc_fresh. intros E HC HQ. eapply wp_on_tree; [exact E|]. eapply wp_mono; [by apply rbtree_insert_ok|]. cbn. intros [] s' Hs. by apply HQ. Qed.

Lemma wp_new_tree s (Q : Z → nvstate → Prop) :
  (∀ t, t ≠ 0 → trees s !! t = None → Q t (set_trees (<[t := rbtree_create]> (trees s)) s)) → wp (new_tree malloc) s Q.
Proof using malloc_fresh.
  intros HQ. unfold new_tree. apply wp_bind, wp_gets. cbn [id]. destruct (malloc_fresh (dom (trees s))) as [H0 Hn]. apply wp_bind, wp_modify, wp_ret, HQ; [done|by apply not_elem_of_dom].
Qed.

Lemma wp_os_mmap s addr n f (Q : Z → nvstate → Prop) :
  maps_ok (maps s) (files s) → size_at (files s) f = Some n → 0 < n →
  (∀ r, r ≠ MAP_FAILED → 0 < r → maps s !! r = None → maps_ok (<[r := (f, n)]> (maps s)) (files s) → maps s ⊆ <[r := (f, n)]> (maps s) → Q r (set_maps (<[r := (f, n)]> (maps s)) s)) →
  wp (os_mmap mmap addr n f) s Q.
Proof using mmap_fresh.
  intros Hm Hs Hn HQ. unfold os_mmap. apply wp_bind, wp_gets. cbn [id]. destruct (mmap_fresh (maps s) addr n Hn) as (Hf & H0 & Ha). set (r := mmap (maps s) addr n) in *.
  assert (Hr : maps s !! r = None). { destruct (maps s !! r) as [[g len]|] eqn:E; [|done]. destruct (mo_size _ _ Hm _ _ _ E) as (_ & ? & _). destruct (Ha _ _ E); cbn in *; lia. }
  rewrite (proj2 (Z.eqb_neq _ _) Hf). apply wp_bind, wp_modify, wp_ret, HQ; [done..| |by apply insert_subseteq]. constructor.
  - intros b g len. rewrite lookup_insert_Some. intros [[<- [= <- <-]]|[_ E]]; [done|]. by eapply (mo_size _ _ Hm).
  - intros b1 b2 x1 x2. rewrite !lookup_insert_Some. intros [[<- <-]|[Hn1 E1]] [[<- <-]|[Hn2 E2]] Hne; [done|..].
    + destruct x2 as [g len]. destruct (mo_size _ _ Hm _ _ _ E2) as (_ & ? & _). destruct (Ha _ _ E2); cbn in *; lia.
    + destruct x1 as [g len]. destruct (mo_size _ _ Hm _ _ _ E1) as (_ & ? & _). destruct (Ha _ _ E1); cbn in *; lia.
    + by eapply (mo_apart _ _ Hm).
Qed.
End heap.
