(* ===== verification/StoreInv.v ===== *)
(** * The object store: invariant and searches

    What the files hold ([img]), how the trees and the mappings of the running
    process stand for it ([vol]), and what the searches find. *)

From stdpp Require Import strings.
From S2P Require Import Prelude Rbtree RbtreeSpec RbtreeMap Store StoreMem.

(** ** What the files hold *)

(** The process, its maps in the order of the file, per map the structures of
    the chunks and the bytes of the file of data. *)
Record img := Img { i_proc : proc_s; i_ix : list Z; i_mo : Z → mmapobj_s; i_ch : Z → Z → chunkobj_s; i_by : Z → Z → Z }.
Implicit Types (I : img) (s : nvstate) (mp : gmap Z (string * Z)) (fs : gmap string file) (v j id : Z) (st : gset Z).

Definition mo_off (k : nat) : Z := sizeof_proc + sizeof_mmapobj * Z.of_nat k.
Definition ch_off (j : Z) : Z := sizeof_chunkobj * j.

Record disk fs I : Prop := {
  d_size : size_at fs fproc = Some PROC_METADAT_SZ;
  d_proc : rec_at fs fproc 0 = Some (RProc (i_proc I));
  d_mo : ∀ k v, i_ix I !! k = Some v → rec_at fs fproc (mo_off k) = Some (RMmap (i_mo I v));
  d_free : ∀ o, mo_off (length (i_ix I)) ≤ o → rec_at fs fproc o = None;
  d_meta : ∀ v, v ∈ i_ix I → size_at fs (fmeta v) = Some MMAP_METADATA_SZ;
  d_type : ∀ v o r, v ∈ i_ix I → rec_at fs (fmeta v) o = Some r → ∃ c, r = RChunk c;
  d_ch : ∀ v j, v ∈ i_ix I → 0 ≤ j < m_numchunks (i_mo I v) → rec_at fs (fmeta v) (ch_off j) = Some (RChunk (i_ch I v j));
  d_data : ∀ v, v ∈ i_ix I → size_at fs (fdata v) = Some (m_length (i_mo I v));
  d_by : ∀ v o, v ∈ i_ix I → byte_at fs (fdata v) o = i_by I v o
}.

Definition live I v j : Prop := v ∈ i_ix I ∧ 0 ≤ j < m_numchunks (i_mo I v) ∧ c_valid (i_ch I v j) ≠ INVALID.

(** How many objects were ever recorded is bounded by [n], the number of mappings ever made by [k]. *)
Record gwf (n k : Z) I : Prop := {
  g_pid : p_pid (i_proc I) = pid0;
  g_pesist : p_pesist_mmaps (i_proc I) = Z.of_nat (length (i_ix I));
  g_moff : p_meta_offset (i_proc I) = mo_off (length (i_ix I));
  g_ixn : Z.of_nat (length (i_ix I)) ≤ n;
  g_num : 0 ≤ p_num_mmaps (i_proc I) ≤ k;
  g_nd : NoDup (i_ix I);
  g_ix : ∀ v, v ∈ i_ix I → 1 ≤ v ≤ p_num_mmaps (i_proc I);
  g_m : ∀ v, v ∈ i_ix I → let m := i_mo I v in m_vma_id m = v ∧ m_proc_id m = pid0 ∧ 0 ≤ m_numchunks m ≤ n ∧ m_meta_offset m = ch_off (m_numchunks m) ∧ 0 < m_length m < 2 ^ 32;
  g_c : ∀ v j, live I v j → let c := i_ch I v j in
    0 < c_length c ∧ 0 ≤ c_offset c ∧ c_offset c + c_length c ≤ m_length (i_mo I v) ∧ c_chunkid c = gen_id_from_str (c_objname c) ∧ c_chunkid c ≠ 0 ∧ is_u32 (c_chunkid c);
  g_uniq : ∀ v j v' j', live I v j → live I v' j' → c_chunkid (i_ch I v j) = c_chunkid (i_ch I v' j') → v = v' ∧ j = j';
  g_apart : ∀ v j j', live I v j → live I v j' → j ≠ j' →
    c_offset (i_ch I v j) + c_length (i_ch I v j) ≤ c_offset (i_ch I v j') ∨ c_offset (i_ch I v j') + c_length (i_ch I v j') ≤ c_offset (i_ch I v j)
}.

(** ** The running process *)

(** The tree of the chunks of map [v] is the finite map [C]. *)
Definition vtree (T : gmap Z (rbtree Z)) I v (C : gmap Z Z) : Prop :=
  m_chunk_tree_init (i_mo I v) ≠ 0 ∧ m_chunkobj_tree (i_mo I v) ≠ 0 ∧ ∃ tr, T !! m_chunkobj_tree (i_mo I v) = Some tr ∧ rb_map tr C.

(** The tree finds the valid objects; ids of [st] may find others. *)
Record ctree mp (T : gmap Z (rbtree Z)) I st v (C : gmap Z Z) : Prop := {
  ct_tree : vtree T I v C;
  ct_sound : ∀ id a, C !! id = Some a → ∃ j, 0 ≤ j < m_numchunks (i_mo I v) ∧ points mp a (fmeta v) (ch_off j) ∧ (id ∈ st ∨ (live I v j ∧ c_chunkid (i_ch I v j) = id));
  ct_complete : ∀ j, live I v j → ∃ a, C !! c_chunkid (i_ch I v j) = Some a ∧ points mp a (fmeta v) (ch_off j)
}.

(** The tree of the maps. *)
Definition ptree mp (T : gmap Z (rbtree Z)) I (M : gmap Z Z) : Prop :=
  p_mmapobj_initialized (i_proc I) = 1 ∧ p_mmapobj_tree (i_proc I) ≠ 0 ∧ (∃ tr, T !! p_mmapobj_tree (i_proc I) = Some tr ∧ rb_map tr M) ∧
  (∀ v a, M !! v = Some a → ∃ k, i_ix I !! k = Some v ∧ points mp a fproc (mo_off k)) ∧ (∀ v, v ∈ i_ix I → is_Some (M !! v)).

(** The mappings that the allocator got in this run. *)
Record node_ok mp (vm : gmap Z Z) I (b : Z) (x : mmapobj_nodes) : Prop := {
  no_start : n_start_addr x = b;
  no_id : 1 ≤ n_map_id x ≤ p_num_mmaps (i_proc I);
  no_map : mp !! b = Some (fdata (n_map_id x), n_end_addr x - b);
  no_len : 0 < n_end_addr x - b < 2 ^ 32;
  no_vma : vm !! n_map_id x = Some (n_end_addr x - b);
  no_mo : n_map_id x ∈ i_ix I → m_data_addr (i_mo I (n_map_id x)) = b ∧ m_length (i_mo I (n_map_id x)) = n_end_addr x - b ∧ m_chunk_tree_init (i_mo I (n_map_id x)) ≠ 0
}.

Definition maptree (mt : option (rbtree mmapobj_nodes)) (N : gmap Z mmapobj_nodes) : Prop := match mt with None => N = ∅ | Some tr => rb_map tr N end.

Record vol s I st : Prop := {
  v_init : g_initialized s = true;
  v_list : proc_list_init s = true;
  v_proc : ∃ pp, rb_map (proc_tree s) {[pid0 := pp]} ∧ points (maps s) pp fproc 0;
  v_start : points (maps s) (proc_map_start s) fproc 0;
  v_ptree : ∃ M, ptree (maps s) (trees s) I M;
  v_ctree : ∀ v, v ∈ i_ix I → m_chunk_tree_init (i_mo I v) ≠ 0 → ∃ C, ctree (maps s) (trees s) I st v C;
  v_noinit : ∀ v, v ∈ i_ix I → m_chunk_tree_init (i_mo I v) = 0 → m_numchunks (i_mo I v) = 0;
  v_strt : ∀ v, v ∈ i_ix I → points (maps s) (m_strt_addr (i_mo I v)) (fmeta v) 0;
  v_data : ∀ v, v ∈ i_ix I → points (maps s) (m_data_addr (i_mo I v)) (fdata v) 0;
  v_nv : ∀ v j, live I v j → c_nv_ptr (i_ch I v j) = m_data_addr (i_mo I v) + c_offset (i_ch I v j);
  v_roots : ∀ v w, v ∈ i_ix I → w ∈ i_ix I → m_chunk_tree_init (i_mo I v) ≠ 0 → m_chunk_tree_init (i_mo I w) ≠ 0 → m_chunkobj_tree (i_mo I v) = m_chunkobj_tree (i_mo I w) → v = w;
  v_root : ∀ v, v ∈ i_ix I → m_chunk_tree_init (i_mo I v) ≠ 0 → m_chunkobj_tree (i_mo I v) ≠ p_mmapobj_tree (i_proc I);
  v_map : ∃ N, maptree (map_tree s) N ∧ (∀ b x, N !! b = Some x → node_ok (maps s) (proc_vmas s) I b x) ∧
    (∀ b1 b2 x1 x2, N !! b1 = Some x1 → N !! b2 = Some x2 → n_map_id x1 = n_map_id x2 → b1 = b2);
  v_stale : ∀ v j, live I v j → c_chunkid (i_ch I v j) ∉ st;
  v_fdata : ∀ b v len, maps s !! b = Some (fdata v, len) → v ≤ p_num_mmaps (i_proc I);
  v_fmeta : ∀ b v len, maps s !! b = Some (fmeta v, len) → v ∈ i_ix I
}.

(** ** What a client sees *)

(** The address is that of the running process. *)
Record aobj := Aobj { a_name : string; a_ptr : Z; a_commit : Z; a_data : list Z }.

Definition block (by_ : Z → Z) (o n : Z) : list Z := (λ i, by_ (o + i)) <$> seqZ 0 n.
Definition to_obj I v j : aobj := let c := i_ch I v j in Aobj (c_objname c) (c_nv_ptr c) (c_commitsz c) (block (i_by I v) (c_offset c) (c_length c)).
Definition objs_of I (m : gmap Z aobj) : Prop := ∀ id o, m !! id = Some o ↔ ∃ v j, live I v j ∧ c_chunkid (i_ch I v j) = id ∧ o = to_obj I v j.
Definition names_ok (om : gmap string Z) (m : gmap Z aobj) : Prop := ∀ x z, om !! x = Some z ↔ z = 0 ∧ ∃ id o, m !! id = Some o ∧ a_name o = x.

(** The limits: the file of a process has room for [MAX_RECORDS] maps. *)
Definition MAX_RECORDS : Z := 15000.

Record good (n k : Z) s I st : Prop := {
  gd_disk : disk (files s) I;
  gd_wf : gwf n k I;
  gd_maps : maps_ok (maps s) (files s);
  gd_vol : vol s I st;
  gd_n : n ≤ MAX_RECORDS;
  gd_k : k < 2 ^ 31
}.

Definition inv (n k : Z) s (m : gmap Z aobj) st : Prop := ∃ I, good n k s I st ∧ objs_of I m ∧ names_ok (objnamemap s) m.

Lemma rb_map_unique {V} (tr : rbtree V) C C' : rb_map tr C → rb_map tr C' → C = C'.
Proof.
  intros HC HC'. apply map_eq. intros k. pose proof (rbtree_lookup_ok tr C k HC) as H1. pose proof (rbtree_lookup_ok tr C' k HC') as H2.
  apply wp_Some in H1 as (r & s1 & E1 & _ & Hr). apply wp_Some in H2 as (r' & s2 & E2 & _ & Hr'). congruence.
Qed.

Lemma vtree_unique T I v C C' : vtree T I v C → vtree T I v C' → C = C'.
Proof. intros (_ & _ & tr & E & H) (_ & _ & tr' & E' & H'). assert (tr = tr') as <- by congruence. by eapply rb_map_unique. Qed.

(** ** Searches *)

Section search.
Context (n k : Z) (s : nvstate) (I : img) (st : gset Z).
Hypothesis Hg : good n k s I st.

Lemma proc_found : ∃ pp, rb_map (proc_tree s) {[pid0 := pp]} ∧ points (maps s) pp fproc 0 ∧ pp ≠ 0.
Proof using Hg. destruct (v_proc _ _ _ (gd_vol _ _ _ _ _ Hg)) as (pp & Hr & Hp). exists pp. split_and!; [done|done|]. pose proof (points_pos _ _ _ _ _ (gd_maps _ _ _ _ _ Hg) Hp). lia. Qed.

Lemma mo_room kk v : i_ix I !! kk = Some v → mo_off kk + sizeof_mmapobj ≤ PROC_METADAT_SZ.
Proof using Hg.
  intros E%lookup_lt_Some. pose proof (g_ixn _ _ _ (gd_wf _ _ _ _ _ Hg)). pose proof (gd_n _ _ _ _ _ Hg). unfold MAX_RECORDS, mo_off, sizeof_proc, sizeof_mmapobj, PROC_METADAT_SZ in *. lia.
Qed.
Lemma ch_room v j : v ∈ i_ix I → 0 ≤ j < m_numchunks (i_mo I v) → ch_off j + sizeof_chunkobj ≤ MMAP_METADATA_SZ.
Proof using Hg.
  intros Hv Hj. destruct (g_m _ _ _ (gd_wf _ _ _ _ _ Hg) v Hv) as (_ & _ & Hn & _). pose proof (gd_n _ _ _ _ _ Hg). unfold MAX_RECORDS, ch_off, sizeof_chunkobj, MMAP_METADATA_SZ in *. lia.
Qed.

Lemma wp_get_proc a (Q : proc_s → nvstate → Prop) : points (maps s) a fproc 0 → Q (i_proc I) s → wp (load_proc a) s Q.
Proof using Hg. intros Hp HQ. destruct Hg as [Hd _ Hm _]. eapply wp_load_proc; [done..|apply Hd|done|apply Hd|done]. Qed.
Lemma wp_get_mo a kk v (Q : mmapobj_s → nvstate → Prop) : i_ix I !! kk = Some v → points (maps s) a fproc (mo_off kk) → Q (i_mo I v) s → wp (load_mmapobj a) s Q.
Proof using Hg. intros Hk Hp HQ. pose proof (mo_room _ _ Hk). destruct Hg as [Hd _ Hm _]. eapply wp_load_mmapobj; [done..|apply Hd|done|by apply Hd|done]. Qed.
Lemma wp_get_ch a v j (Q : chunkobj_s → nvstate → Prop) : v ∈ i_ix I → 0 ≤ j < m_numchunks (i_mo I v) → points (maps s) a (fmeta v) (ch_off j) → Q (i_ch I v j) s → wp (load_chunkobj a) s Q.
Proof using Hg. intros Hv Hj Hp HQ. pose proof (ch_room _ _ Hv Hj). destruct Hg as [Hd _ Hm _]. eapply wp_load_chunkobj; [done..|by apply Hd|done|by apply Hd|done]. Qed.

Lemma not_null_points a f o : points (maps s) a f o → (a =? 0) = false.
Proof using Hg. intros Hp. pose proof (points_pos _ _ _ _ _ (gd_maps _ _ _ _ _ Hg) Hp). apply Z.eqb_neq. lia. Qed.

Lemma is_null_points a f o : points (maps s) a f o → is_null a = false.
Proof using Hg. apply not_null_points. Qed.
Lemma nonnull_points a f o : points (maps s) a f o → not_null a = true.
Proof using Hg. intros Hp. unfold not_null. by rewrite (not_null_points _ _ _ Hp). Qed.

Lemma wp_proc_tree pp (Q : option Z → nvstate → Prop) : rb_map (proc_tree s) {[pid0 := pp]} → Q (Some pp) s → wp (on_proc_tree (rbtree_lookup pid0 IntComp)) s Q.
Proof using Hg.
  intros Hr HQ. pose proof (v_list _ _ _ (gd_vol _ _ _ _ _ Hg)) as Hl. unfold on_proc_tree. apply wp_bind, wp_gets. cbn [id]. pose proof (rbtree_lookup_ok _ _ pid0 Hr) as Hw.
  apply wp_Some in Hw as (r & tr & Eo & -> & ->). rewrite lookup_singleton_eq in Eo. apply wp_bind. eapply wp_lift; [exact Eo|]. cbn. apply wp_bind, wp_modify, wp_ret. replace (set_proc_tree (proc_tree s) s) with s; [done|].
  destruct s; cbn in *; by subst.
Qed.

Lemma wp_find_proc_obj pp (Q : Z → nvstate → Prop) : rb_map (proc_tree s) {[pid0 := pp]} → Q pp s → wp (find_proc_obj pid0) s Q.
Proof using Hg.
  intros Hr HQ. unfold find_proc_obj. apply wp_bind, wp_gets. cbn [id]. rewrite (v_list _ _ _ (gd_vol _ _ _ _ _ Hg)). cbn. apply wp_bind. by eapply wp_proc_tree.
Qed.
Lemma wp_find_process pp (Q : Z → nvstate → Prop) : rb_map (proc_tree s) {[pid0 := pp]} → Q pp s → wp (find_process pid0) s Q.
Proof using Hg.
  intros Hr HQ. unfold find_process. apply wp_bind, wp_gets. cbn [id]. rewrite (v_list _ _ _ (gd_vol _ _ _ _ _ Hg)). cbn. apply wp_bind. by eapply wp_proc_tree.
Qed.

Lemma wp_find_chunk a kk v C id (Q : Z → nvstate → Prop) :
  i_ix I !! kk = Some v → points (maps s) a fproc (mo_off kk) → vtree (trees s) I v C → Q (or_null (C !! id)) s → wp (find_chunk a id) s Q.
Proof using Hg.
  intros Hk Hp (Hi & Ht & tr & Et & HC) HQ. unfold find_chunk, is_null. rewrite (not_null_points _ _ _ Hp). apply wp_bind. eapply wp_get_mo; [done..|].
  rewrite (proj2 (Z.eqb_neq _ _) Ht). apply wp_bind. eapply wp_lookup_at; [done..|]. done.
Qed.

(** The first map, from the largest id, whose tree has the id. *)
Definition holds v id : Prop := ∃ C, vtree (trees s) I v C ∧ is_Some (C !! id).

Lemma s32_small v : v ∈ i_ix I → s32 v = v ∧ u64 v = v ∧ v ≠ 0.
Proof using Hg.
  intros Hv. pose proof (g_ix _ _ _ (gd_wf _ _ _ _ _ Hg) v Hv). pose proof (g_num _ _ _ (gd_wf _ _ _ _ _ Hg)). pose proof (gd_k _ _ _ _ _ Hg).
  unfold s32. rewrite u32_small, u64_small by (unfold is_u32, is_u64; lia). destruct (Z.ltb_spec v (2 ^ 31)); lia.
Qed.

(** One map of the traversal. *)
Lemma wp_holds a kk v id (Q : option Z → nvstate → Prop) :
  i_ix I !! kk = Some v → points (maps s) a fproc (mo_off kk) →
  (∀ o, (o = Some v ∧ holds v id) ∨ (o = None ∧ ¬ holds v id) → Q o s) →
  wp (if is_null a then mret None
      else m ← load_mmapobj a;
           if is_null (m_chunk_tree_init m) then mret None
           else chunkobj ← find_chunk a id; mret (if not_null chunkobj then Some (s32 (m_vma_id m)) else None)) s Q.
Proof using Hg.
  intros Hk Hp HQ. pose proof (list_elem_of_lookup_2 _ _ _ Hk) as Hv. unfold is_null. rewrite (not_null_points _ _ _ Hp). apply wp_bind. eapply wp_get_mo; [done..|].
  destruct (Z.eqb_spec (m_chunk_tree_init (i_mo I v)) 0) as [E|E]; [apply wp_ret, HQ; right; split; [done|]; by intros (C & [? _] & _)|].
  destruct (v_ctree _ _ _ (gd_vol _ _ _ _ _ Hg) v Hv E) as [C HC]. apply wp_bind. eapply wp_find_chunk; [done..|apply HC|]. apply wp_ret, HQ.
  destruct (g_m _ _ _ (gd_wf _ _ _ _ _ Hg) v Hv) as (Ev & _). unfold or_null. destruct (C !! id) as [x|] eqn:Ex; cbn.
  - destruct (ct_sound _ _ _ _ _ _ HC _ _ Ex) as (j & _ & Hx & _). unfold not_null. rewrite (not_null_points _ _ _ Hx). left. rewrite Ev, (proj1 (s32_small v Hv)). split; [done|].
    exists C. split; [apply HC|by rewrite Ex].
  - right. split; [done|]. intros (C' & HC' & Hs). rewrite (vtree_unique _ _ _ _ _ HC' (ct_tree _ _ _ _ _ _ HC)), Ex in Hs. by destruct Hs.
Qed.

Definition vma_post (t : tree Z) id (r : Z) s' : Prop :=
  s' = s ∧ ((∃ v a, (v, a) ∈ inord t ∧ r = v ∧ holds v id) ∨ (r = 0 ∧ ∀ v a, (v, a) ∈ inord t → ¬ holds v id)).

Lemma wp_find_vmaid fuel h u (t : tree Z) id :
  repr h u t → (length (addrs t) ≤ fuel)%nat → (∀ v a, (v, a) ∈ inord t → ∃ kk, i_ix I !! kk = Some v ∧ points (maps s) a fproc (mo_off kk)) →
  wp (find_vmaid_from_chunk fuel h (addr t) id) s (vma_post t id).
Proof using Hg.
  revert u t. induction fuel as [|fuel IH]; intros u t Ht Hf Hin; (destruct t as [|a c l v x r]; cbn [addr find_vmaid_from_chunk];
    [cbn [is_null Z.eqb]; apply wp_ret; split; [done|]; right; split; [done|]; intros v a Hx; by apply elem_of_nil in Hx|]); [cbn in Hf; lia|].
  destruct Ht as (Ha & Ea & Hl & Hr). cbn in Hf. rewrite length_app in Hf.
  assert (Hsub : ∀ t, repr h a t → (length (addrs t) ≤ fuel)%nat → (∀ v a, (v, a) ∈ inord t → ∃ kk, i_ix I !! kk = Some v ∧ points (maps s) a fproc (mo_off kk)) →
    wp (if not_null (addr t) then find_vmaid_from_chunk fuel h (addr t) id else mret 0) s (vma_post t id)).
  { intros t Ht Hft Hint. destruct t as [|b]; [apply wp_ret; split; [done|]; right; split; [done|]; intros v' a' Hx; by apply elem_of_nil in Hx|].
    destruct Ht as (Hb & Ht). unfold not_null. cbn [addr]. rewrite (proj2 (Z.eqb_neq _ _) Hb). eapply (IH _ (N b c0 t1 k0 v0 t2)); [by split|done|done]. }
  unfold is_null at 1. rewrite (proj2 (Z.eqb_neq _ _) Ha). apply wp_bind. eapply wp_lift; [exact Ea|]. cbn [right left value]. cbn [inord] in Hin.
  apply wp_bind. eapply wp_mono; [apply Hsub; [done|lia|intros; apply Hin, elem_of_app; right; by right]|]. cbn. intros ret s' [-> Hret].
  assert (Hv : (v, x) ∈ inord l ++ (v, x) :: inord r) by (apply elem_of_app; right; left). destruct (Hin _ _ Hv) as (kk & Hk & Hp).
  destruct Hret as [(v' & a' & Hin' & -> & Hh)|[-> Hno]].
  { destruct (Hin v' a') as (k' & Hk' & _); [apply elem_of_app; right; by right|]. destruct (s32_small v' (list_elem_of_lookup_2 _ _ _ Hk')) as (_ & _ & Hv0).
    unfold not_null. rewrite (proj2 (Z.eqb_neq _ _) Hv0). cbn. apply wp_ret. split; [done|]. left. exists v', a'. split_and!; [|done|done]. cbn. apply elem_of_app. right. by right. }
  cbn [not_null Z.eqb negb]. apply wp_bind. eapply wp_holds; [done..|]. intros o [[-> Hh]|[-> Hh]].
  - apply wp_ret. split; [done|]. left. exists v, x. split_and!; [done..|]. done.
  - eapply wp_mono; [apply Hsub; [done|lia|intros; apply Hin, elem_of_app; by left]|]. intros r' s' [-> Hl']. split; [done|]. destruct Hl' as [(v' & a' & Hin' & -> & Hh')|[-> Hno']].
    + left. exists v', a'. split_and!; [|done|done]. cbn. apply elem_of_app. by left.
    + right. split; [done|]. intros v' a'. cbn. rewrite elem_of_app, elem_of_cons. intros [?|[[= -> ->]|?]]; eauto.
Qed.

Context (malloc : gset Z → Z).

Lemma wp_find_mmapobj_from_chunkid pp id (Q : Z → nvstate → Prop) :
  points (maps s) pp fproc 0 →
  (∀ a v kk, i_ix I !! kk = Some v → points (maps s) a fproc (mo_off kk) → holds v id → Q a s) →
  ((∀ v, v ∈ i_ix I → ¬ holds v id) → Q 0 s) → wp (find_mmapobj_from_chunkid malloc id pp) s Q.
Proof using Hg.
  intros Hp Hyes Hno. unfold find_mmapobj_from_chunkid, is_null. rewrite (not_null_points _ _ _ Hp). apply wp_bind. eapply wp_get_proc; [done|].
  destruct (v_ptree _ _ _ (gd_vol _ _ _ _ _ Hg)) as (M & Hi & Ht & (tr & Etr & HM) & Hsound & Hall). rewrite Hi, (proj2 (Z.eqb_neq _ _) Ht). cbn [Z.eqb].
  apply wp_bind, wp_gets. cbn [Datatypes.id]. apply wp_bind. eapply wp_lift; [exact Etr|]. pose proof HM as (L & (t & Hz & _ & HL) & Hs & _ & HLM).
  assert (Hin : ∀ v a, (v, a) ∈ inord t ↔ M !! v = Some a). { intros v a. rewrite HL, <- HLM. split; [intros; apply elem_of_list_to_map; [by apply sorted_keys|done]|by apply elem_of_list_to_map_2]. }
  assert (Er : root tr = addr t) by exact (z_path _ _ _ _ Hz). rewrite Er. apply wp_bind. eapply wp_mono; [eapply wp_find_vmaid; [apply Hz| |]|].
  { pose proof (size_nodes _ _ _ _ Hz). unfold fuel_of. lia. }
  { intros v a Hva%Hin. by apply Hsound. }
  intros r s' [-> [(v & a & Hva%Hin & -> & Hh)|[-> Hn]]].
  - destruct (Hsound _ _ Hva) as (kk & Hk & Ha). destruct (s32_small v (list_elem_of_lookup_2 _ _ _ Hk)) as (_ & E64 & Hv0). rewrite (proj2 (Z.eqb_neq _ _) Hv0), E64.
    apply wp_bind. eapply wp_lookup_at; [done..|]. rewrite Hva. apply wp_ret. by eapply Hyes.
  - cbn [Z.eqb]. apply wp_ret, Hno. intros v Hv. destruct (Hall v Hv) as [a Ea]. eapply (Hn v a). by apply Hin.
Qed.

(** The search for an id that is not stale finds the valid object, or there is none. *)
Lemma holds_live v id : v ∈ i_ix I → holds v id → id ∉ st → ∃ j, live I v j ∧ c_chunkid (i_ch I v j) = id.
Proof using Hg.
  intros Hv (C' & HC' & [a Ea]) Hst. pose proof (proj1 HC') as Hi. destruct (v_ctree _ _ _ (gd_vol _ _ _ _ _ Hg) v Hv Hi) as [C HC].
  rewrite (vtree_unique _ _ _ _ _ HC' (ct_tree _ _ _ _ _ _ HC)) in Ea. destruct (ct_sound _ _ _ _ _ _ HC _ _ Ea) as (j & _ & _ & [?|?]); [done|eauto].
Qed.

Lemma live_init v j : live I v j → m_chunk_tree_init (i_mo I v) ≠ 0.
Proof using Hg. intros (Hv & Hj & _) E. pose proof (v_noinit _ _ _ (gd_vol _ _ _ _ _ Hg) v Hv E). lia. Qed.

Lemma live_holds v j : live I v j → holds v (c_chunkid (i_ch I v j)).
Proof using Hg.
  intros Hl. pose proof (live_init _ _ Hl) as Hi. destruct Hl as (Hv & Hl). destruct (v_ctree _ _ _ (gd_vol _ _ _ _ _ Hg) v Hv Hi) as [C HC].
  exists C. split; [apply HC|]. destruct (ct_complete _ _ _ _ _ _ HC j) as (a & Ea & _); [by split|eauto].
Qed.

(** A chunk found by its id. *)
Record chunk_at v j kk a x : Prop := {
  ca_live : live I v j;
  ca_ix : i_ix I !! kk = Some v;
  ca_mo : points (maps s) a fproc (mo_off kk);
  ca_ch : points (maps s) x (fmeta v) (ch_off j);
  ca_tree : ∃ C, ctree (maps s) (trees s) I st v C ∧ C !! c_chunkid (i_ch I v j) = Some x
}.

Lemma wp_search pp id (Q : Z → nvstate → Prop) :
  points (maps s) pp fproc 0 → id ∉ st →
  (∀ v j kk a x, chunk_at v j kk a x → c_chunkid (i_ch I v j) = id → Q a s) →
  ((∀ v j, live I v j → c_chunkid (i_ch I v j) ≠ id) → Q 0 s) → wp (find_mmapobj_from_chunkid malloc id pp) s Q.
Proof using Hg.
  intros Hp Hst Hyes Hno. eapply wp_find_mmapobj_from_chunkid; [done|..].
  - intros a v kk Hk Ha Hh. pose proof (list_elem_of_lookup_2 _ _ _ Hk) as Hv. destruct (holds_live v id Hv Hh Hst) as (j & Hl & Ej).
    destruct (v_ctree _ _ _ (gd_vol _ _ _ _ _ Hg) v Hv (live_init _ _ Hl)) as [C HC]. destruct (ct_complete _ _ _ _ _ _ HC j Hl) as (x & Ex & Hx).
    eapply (Hyes v j kk a x); [|done]. constructor; eauto.
  - intros Hn. apply Hno. intros v j Hl E. eapply (Hn v); [apply Hl|]. rewrite <- E. by apply live_holds.
Qed.

Lemma wp_get_chunk rqst id (Q : Z → nvstate → Prop) :
  r_pid rqst = pid0 → (if is_null (r_id rqst) then gen_id_from_str (r_var_name rqst) else u32 (r_id rqst)) = id → id ≠ 0 → id ∉ st →
  (∀ v j kk a x, chunk_at v j kk a x → c_chunkid (i_ch I v j) = id → Q x s) →
  ((∀ v j, live I v j → c_chunkid (i_ch I v j) ≠ id) → Q 0 s) → wp (get_chunk malloc rqst) s Q.
Proof using Hg.
  intros Epid Eid Hid Hst Hyes Hno. unfold get_chunk. cbv zeta. rewrite Eid, Epid. destruct proc_found as (pp & Hr & Hp & Hpp).
  apply wp_bind, wp_check; [unfold not_null; by rewrite (proj2 (Z.eqb_neq _ _) Hid)|]. apply wp_bind, wp_check; [done|]. apply wp_bind. eapply wp_find_proc_obj; [done|]. unfold is_null. rewrite (not_null_points _ _ _ Hp).
  apply wp_bind. eapply wp_search; [done..| |].
  - intros v j kk a x Hc Ej. rewrite (not_null_points _ _ _ (ca_mo _ _ _ _ _ Hc)). destruct (ca_tree _ _ _ _ _ Hc) as (C & HC & Ex).
    eapply wp_find_chunk; [apply Hc|apply Hc|apply HC|]. rewrite <- Ej, Ex. by eapply Hyes.
  - intros Hn. cbn [Z.eqb]. by apply wp_ret, Hno.
Qed.
End search.
