(* ===== verification/StoreOps.v ===== *)
(** * The object store: reading, committing, deleting, renaming *)

From stdpp Require Import strings.
From S2P Require Import Prelude Rbtree RbtreeSpec RbtreeMap Store StoreMem StoreInv.

Implicit Types (I : img) (s : nvstate) (fs : gmap string file) (v j id : Z) (st : gset Z) (c : chunkobj_s).

(** ** Changes of one object *)

Definition set_ch I v j c : img := Img (i_proc I) (i_ix I) (i_mo I) (λ v' j', if decide (v' = v ∧ j' = j) then c else i_ch I v' j') (i_by I).
Definition set_by I v (g : Z → Z) : img := Img (i_proc I) (i_ix I) (i_mo I) (i_ch I) (λ v', if decide (v' = v) then g else i_by I v').

Lemma set_ch_eq I v j c : i_ch (set_ch I v j c) v j = c.
Proof. cbn. by rewrite decide_True. Qed.
Lemma set_ch_ne I v j c v' j' : v' ≠ v ∨ j' ≠ j → i_ch (set_ch I v j c) v' j' = i_ch I v' j'.
Proof. intros Hne. cbn. rewrite decide_False; [done|naive_solver]. Qed.

Lemma set_ch_other I v j c v' j' : (v', j') ≠ (v, j) → i_ch (set_ch I v j c) v' j' = i_ch I v' j'.
Proof. intros Hne. apply set_ch_ne. destruct (decide (v' = v)); [right; congruence|by left]. Qed.

Lemma ch_off_inj j j' : ch_off j = ch_off j' → j = j'.
Proof. unfold ch_off, sizeof_chunkobj. lia. Qed.
Lemma mo_off_inj k k' : mo_off k = mo_off k' → k = k'.
Proof. unfold mo_off, sizeof_mmapobj. lia. Qed.
Lemma mo_off_pos k : 0 < mo_off k.
Proof. unfold mo_off, sizeof_mmapobj, sizeof_proc. lia. Qed.

(** A structure of a chunk, within the array or beyond its end, is written. *)
Lemma disk_fput_ch fs I v j c : disk fs I → v ∈ i_ix I → disk (fput (fmeta v) (ch_off j) (RChunk c) fs) (set_ch I v j c).
Proof.
  intros [Ds Dp Dm Df De Dt Dc Dd Db] Hv. assert (Hn : ∀ o, rec_at (fput (fmeta v) (ch_off j) (RChunk c) fs) fproc o = rec_at fs fproc o) by (intros; apply rec_fput_ne; auto with nv).
  constructor; cbn; intros; rewrite ?size_fput, ?byte_fput, ?Hn; auto.
  - destruct (decide (v0 = v ∧ o = ch_off j)) as [[-> ->]|Hne]; [rewrite rec_fput in * by (rewrite De by done; eauto); naive_solver|].
    rewrite rec_fput_ne in * by (destruct (decide (v0 = v)); [naive_solver|left; intros ?%fmeta_inj; done]). eauto.
  - case_decide as Hd; [destruct Hd as [-> ->]; rewrite rec_fput; [done|by rewrite De]|]. rewrite rec_fput_ne; [by apply Dc|].
    destruct (decide (v0 = v)) as [->|]; [right; intros ?%ch_off_inj; naive_solver|left; intros ?%fmeta_inj; done].
Qed.

Lemma disk_fset fs I v o n g : disk fs I → v ∈ i_ix I → disk (fset (fdata v) o n g fs) (set_by I v (λ i, if decide (o ≤ i < o + n) then g (i - o) else i_by I v i)).
Proof.
  intros [Ds Dp Dm Df De Dt Dc Dd Db] Hv. constructor; cbn; intros; rewrite ?size_fset, ?rec_fset in *; eauto. rewrite byte_fset by (rewrite Dd by done; eauto).
  destruct (decide (v0 = v)) as [->|Hne].
  - destruct (decide (o ≤ o0 < o + n)) as [Hr|Hr]; [by rewrite decide_True|]. rewrite decide_False by naive_solver. by apply Db.
  - rewrite decide_False by (intros [?%fdata_inj _]; done). by apply Db.
Qed.

(** Images that differ in committed sizes and bytes only. *)
Record same_objs I I' : Prop := {
  so_proc : i_proc I' = i_proc I;
  so_ix : i_ix I' = i_ix I;
  so_mo : ∀ v, i_mo I' v = i_mo I v;
  so_ch : ∀ v j, let c := i_ch I v j in let c' := i_ch I' v j in
    c_length c' = c_length c ∧ c_offset c' = c_offset c ∧ c_chunkid c' = c_chunkid c ∧ c_nv_ptr c' = c_nv_ptr c ∧ c_valid c' = c_valid c ∧ c_objname c' = c_objname c
}.

Lemma same_live I I' v j : same_objs I I' → live I' v j ↔ live I v j.
Proof. intros [_ Ei Em Ec]. unfold live. destruct (Ec v j) as (_ & _ & _ & _ & -> & _). by rewrite Ei, Em. Qed.

Lemma gwf_same n k I I' : gwf n k I → same_objs I I' → gwf n k I'.
Proof.
  intros [G1 G2 G3 G4 G5 G6 G7 G8 G9 G10 G11] Hs. assert (Hl := λ v j, same_live I I' v j Hs). destruct Hs as [Ep Ei Em Ec].
  constructor; rewrite ?Ep, ?Ei; try done.
  - intros v. rewrite Em. apply G8.
  - intros v j Hv. cbv zeta. rewrite Em. destruct (Ec v j) as (-> & -> & -> & _ & _ & ->). apply G9. by apply Hl.
  - intros v j v' j' Hv Hv'. destruct (Ec v j) as (_ & _ & -> & _). destruct (Ec v' j') as (_ & _ & -> & _). apply G10; by apply Hl.
  - intros v j j' Hv Hv'. destruct (Ec v j) as (-> & -> & _). destruct (Ec v j') as (-> & -> & _). apply G11; by apply Hl.
Qed.

Lemma ctree_same mp T I I' st v C : ctree mp T I st v C → same_objs I I' → ctree mp T I' st v C.
Proof.
  intros [H1 H2 H3] Hs. assert (Hl := λ v j, same_live I I' v j Hs). destruct Hs as [_ _ Em Ec]. constructor.
  - unfold vtree. by rewrite Em.
  - intros id a E. destruct (H2 id a E) as (j & Hj & Hp & Hor). exists j. rewrite Em. split_and!; [lia|lia|done|]. destruct Hor as [?|[Hv Ej]]; [by left|]. right. split; [by apply Hl|]. by destruct (Ec v j) as (_ & _ & -> & _).
  - intros j Hv%Hl. destruct (H3 j Hv) as (a & E & Hp). exists a. by destruct (Ec v j) as (_ & _ & -> & _).
Qed.

Lemma node_same mp vm I I' b x : node_ok mp vm I b x → i_proc I' = i_proc I → i_ix I' = i_ix I → (∀ v, i_mo I' v = i_mo I v) → node_ok mp vm I' b x.
Proof. intros [H1 H2 H3 H4 H5 H6] Ep Ei Em. constructor; rewrite ?Ep, ?Ei, ?Em; done. Qed.

Lemma vol_same s I I' st : vol s I st → same_objs I I' → vol s I' st.
Proof.
  intros [V1 V2 V3 V4 V5 V6 V7 V8 V9 V10 V11 V12 V13 V14 V15 V16] Hs. assert (Hl := λ v j, same_live I I' v j Hs). pose proof Hs as [Ep Ei Em Ec].
  constructor; rewrite ?Ep, ?Ei; try done; try (intros v; rewrite Em; auto; done).
  - destruct V5 as [M HM]. exists M. unfold ptree in *. by rewrite Ep, Ei.
  - intros v Hv. rewrite Em. intros Hi. destruct (V6 v Hv Hi) as [C HC]. exists C. by eapply ctree_same.
  - intros v j Hv%Hl. rewrite Em. destruct (Ec v j) as (_ & -> & _ & -> & _). by apply V10.
  - intros v w. rewrite !Em. apply V11.
  - destruct V13 as (N & HN & Hx & Hu). exists N. split_and!; [done| |done]. intros b x Eb. eapply node_same; eauto.
  - intros v j Hv%Hl. destruct (Ec v j) as (_ & _ & -> & _). by apply V14.
Qed.

Lemma vol_files s I st fs : vol s I st → vol (set_files fs s) I st.
Proof. intros [V1 V2 V3 V4 V5 V6 V7 V8 V9 V10 V11 V12 V13 V14 V15 V16]. constructor; assumption. Qed.

Lemma good_same n k s I I' st fs : good n k s I st → same_objs I I' → disk fs I' → maps_ok (maps s) fs → good n k (set_files fs s) I' st.
Proof. intros [Hd Hw Hm Hv Hn Hk] Hs Hd' Hm'. constructor; [done|by eapply gwf_same|done|by apply vol_files; eapply vol_same|done|done]. Qed.

Lemma vol_names s I st x : vol s I st → vol (set_objnamemap x s) I st.
Proof. intros []. constructor; assumption. Qed.
Lemma good_names n k s I st x : good n k s I st → good n k (set_objnamemap x s) I st.
Proof. intros []. constructor; [assumption..|by apply vol_names|assumption|assumption]. Qed.
Lemma good_chunkmap n k s I st x : good n k s I st → good n k (set_chunkmap x s) I st.
Proof. intros [? ? ? [] ? ?]. constructor; [assumption..| |assumption|assumption]. constructor; assumption. Qed.

(** ** What the client sees of it *)

Lemma objs_live I m v j : objs_of I m → live I v j → m !! c_chunkid (i_ch I v j) = Some (to_obj I v j).
Proof. intros Ho Hl. apply Ho. eauto. Qed.

Lemma objs_none I m id : objs_of I m → m !! id = None ↔ ∀ v j, live I v j → c_chunkid (i_ch I v j) ≠ id.
Proof.
  intros Ho. split.
  - intros Em v j Hl <-. by rewrite (objs_live _ _ _ _ Ho Hl) in Em.
  - intros Hn. destruct (m !! id) as [o|] eqn:E; [|done]. apply Ho in E as (v & j & Hl & <- & _). by destruct (Hn v j).
Qed.

Lemma objs_same n k I I' m v j :
  objs_of I m → gwf n k I → same_objs I I' → live I v j → (∀ v' j', live I v' j' → (v', j') ≠ (v, j) → to_obj I' v' j' = to_obj I v' j') →
  objs_of I' (<[c_chunkid (i_ch I v j) := to_obj I' v j]> m).
Proof.
  intros Ho Hw Hs Hl Hne id o. assert (Hl' := λ v j, same_live I I' v j Hs). rewrite lookup_insert_Some. split.
  - intros [[<- <-]|[Hid Em]]; [exists v, j; split_and!; [by apply Hl'|by destruct (so_ch _ _ Hs v j) as (_ & _ & -> & _)|done]|].
    apply Ho in Em as (v' & j' & Hv' & <- & ->). exists v', j'. split_and!; [by apply Hl'|by destruct (so_ch _ _ Hs v' j') as (_ & _ & -> & _)|]. rewrite Hne; [done..|]. intros [= -> ->]. done.
  - intros (v' & j' & Hv'%Hl' & Ei & ->). destruct (so_ch _ _ Hs v' j') as (_ & _ & Ec & _). rewrite Ec in Ei. subst id. destruct (decide ((v', j') = (v, j))) as [[= -> ->]|Hd]; [by left|].
    right. split; [intros E; apply Hd; destruct (g_uniq _ _ _ Hw _ _ _ _ Hl Hv' E) as [-> ->]; done|]. rewrite Hne by done. by apply objs_live.
Qed.

Lemma names_same om m id o o' : names_ok om m → m !! id = Some o → a_name o' = a_name o → names_ok om (<[id := o']> m).
Proof.
  intros Hn Em Ea x z. etransitivity; [apply Hn|]. apply and_iff_compat_l. split.
  - intros (i & y & Ei & Ex). destruct (decide (i = id)) as [->|]; [exists id, o'; rewrite lookup_insert_eq; split; congruence|exists i, y; by rewrite lookup_insert_ne].
  - intros (i & y & [[<- <-]|[Hne Ei]]%lookup_insert_Some & Ex); [exists id, o; split; congruence|eauto].
Qed.

(** The bytes of an object. *)
Lemma length_block g o n : 0 ≤ n → Z.of_nat (length (block g o n)) = n.
Proof. intros. unfold block. rewrite length_fmap, length_seqZ. lia. Qed.

Lemma lookup_block g o n i : 0 ≤ i < n → block g o n !! Z.to_nat i = Some (g (o + i)).
Proof. intros Hi. unfold block. rewrite list_lookup_fmap, lookup_seqZ_lt by lia. cbn. f_equal. f_equal. lia. Qed.

Lemma block_ext g g' o n : (∀ i, o ≤ i < o + n → g i = g' i) → block g o n = block g' o n.
Proof. intros He. unfold block. apply list_fmap_ext. intros i x [-> Hi]%lookup_seqZ. apply He. lia. Qed.

(** ** Operations *)

Section ops.
Context (malloc : gset Z → Z).
Hypothesis malloc_fresh : fresh_malloc malloc.
Context (mmap : gmap Z (string * Z) → Z → Z → Z).

(** An object as the client sees it, and where it is. *)
Definition at_obj n k s I st v j : Prop := good n k s I st ∧ live I v j.

Lemma nv_ptr_points n k s I st v j i :
  good n k s I st → live I v j → 0 ≤ i < c_length (i_ch I v j) → points (maps s) (c_nv_ptr (i_ch I v j) + i) (fdata v) (c_offset (i_ch I v j) + i).
Proof.
  intros Hg Hl Hi. destruct (g_c _ _ _ (gd_wf _ _ _ _ _ Hg) v j Hl) as (_ & Ho & Hlen & _). pose proof (v_nv _ _ _ (gd_vol _ _ _ _ _ Hg) v j Hl) as ->. pose proof (proj1 Hl) as Hv.
  pose proof (points_add _ _ _ _ 0 (c_offset (i_ch I v j) + i) _ (gd_maps _ _ _ _ _ Hg) (v_data _ _ _ (gd_vol _ _ _ _ _ Hg) v Hv) (d_data _ _ (gd_disk _ _ _ _ _ Hg) v Hv) ltac:(lia)) as Hp.
  by rewrite Z.add_0_l, Z.add_assoc in Hp.
Qed.

Lemma nv_ptr_not_null n k s I st v j : good n k s I st → live I v j → not_null (c_nv_ptr (i_ch I v j)) = true.
Proof.
  intros Hg Hl. destruct (g_c _ _ _ (gd_wf _ _ _ _ _ Hg) v j Hl) as (Hlen & _). pose proof (nv_ptr_points _ _ _ _ _ _ _ 0 Hg Hl ltac:(lia)) as Hp.
  unfold not_null. rewrite Z.add_0_r in Hp. by rewrite (not_null_points _ _ _ _ _ Hg _ _ _ Hp).
Qed.

Lemma wp_nv_map_read n k s I st rqst id (Q : Z * rqst_s → nvstate → Prop) :
  good n k s I st → r_pid rqst = pid0 → (if not_null (r_id rqst) then u32 (r_id rqst) else gen_id_from_str (r_var_name rqst)) = id → id ∉ st →
  (∀ v j, live I v j → c_chunkid (i_ch I v j) = id →
     let c := i_ch I v j in Q (c_nv_ptr c, Rqst (c_length c) (r_var_name rqst) (r_id rqst) (r_pid rqst) (c_nv_ptr c) (r_offset rqst) (c_commitsz c)) s) →
  ((∀ v j, live I v j → c_chunkid (i_ch I v j) ≠ id) → Q (0, Rqst (r_bytes rqst) (r_var_name rqst) (r_id rqst) (r_pid rqst) 0 (r_offset rqst) (r_commitsz rqst)) s) →
  wp (nv_map_read malloc mmap rqst) s Q.
Proof.
  intros Hg Ep Eid Hst Hyes Hno. unfold nv_map_read. cbv zeta. rewrite Eid, Ep. destruct (proc_found _ _ _ _ _ Hg) as (pp & Hr & Hp & _).
  apply wp_bind. eapply wp_find_process; [done..|]. rewrite (is_null_points _ _ _ _ _ Hg _ _ _ Hp). apply wp_bind, wp_ret, wp_bind. eapply wp_search; [done..| |].
  - intros v j kk a x Hc Ej. rewrite (is_null_points _ _ _ _ _ Hg _ _ _ (ca_mo _ _ _ _ _ _ _ _ Hc)). destruct (ca_tree _ _ _ _ _ _ _ _ Hc) as (C & HC & Ex). pose proof (ca_live _ _ _ _ _ _ _ _ Hc) as Hl.
    apply wp_bind. eapply wp_get_mo; [done|apply Hc|apply Hc|]. destruct (ct_tree _ _ _ _ _ _ HC) as (_ & _ & tr & Etr & HCr). apply wp_bind. eapply wp_lookup_at; [done..|]. rewrite <- Ej, Ex. cbn [or_null default].
    unfold or_null. cbn [default]. apply wp_bind, wp_check; [by eapply nonnull_points, Hc|]. apply wp_bind. eapply wp_get_ch; [done|apply Hl|apply Hl|apply Hc|].
    apply wp_bind, wp_check; [by eapply nv_ptr_not_null|]. destruct (g_c _ _ _ (gd_wf _ _ _ _ _ Hg) v j Hl) as (Hlen & _). apply wp_bind, wp_check; [unfold not_null; by rewrite (proj2 (Z.eqb_neq _ _)) by lia|].
    rewrite (proj2 (Z.eqb_neq _ _) (proj2 (proj2 Hl))). apply wp_ret. rewrite <- Ep. by apply Hyes.
  - intros Hn. cbn [is_null Z.eqb]. apply wp_ret. rewrite <- Ep. by apply Hno.
Qed.

Lemma named_ok var s (Q : rqst_s → nvstate → Prop) : strlen var < MAXOBJNAMELEN → Q (Rqst 0 var 0 pid0 0 0 0) s → wp (named var) s Q.
Proof. intros Hn HQ. unfold named. apply wp_bind, wp_check; [by apply Z.ltb_lt|]. by apply wp_ret. Qed.

(** A pointer to the object and its committed size, or null. *)
Lemma wp_read n k s I st var stack (Q : Z * Z → nvstate → Prop) :
  good n k s I st → strlen var < MAXOBJNAMELEN → gen_id_from_str var ∉ st →
  (∀ v j, live I v j → c_chunkid (i_ch I v j) = gen_id_from_str var → Q (c_nv_ptr (i_ch I v j), c_commitsz (i_ch I v j)) s) →
  ((∀ v j, live I v j → c_chunkid (i_ch I v j) ≠ gen_id_from_str var) → Q (0, r_commitsz stack) s) →
  wp (p_c_nvread_len malloc mmap var 0 stack) s Q.
Proof.
  intros Hg Hn Hst Hyes Hno. unfold p_c_nvread_len. cbn [Z.eqb]. apply wp_bind, wp_bind, wp_check; [by apply Z.ltb_lt|]. apply wp_ret, wp_bind. eapply wp_nv_map_read; [done..| |].
  - intros v j Hl Ej. cbn. by apply Hyes.
  - intros Hnone. cbn. by apply Hno.
Qed.

(** ** Committing *)

Lemma same_commit I v j z : same_objs I (set_ch I v j (set_c_commitsz z (i_ch I v j))).
Proof. constructor; [done..|]. intros v' j'. cbn. case_decide as Hd; [by destruct Hd as [-> ->]|done]. Qed.

Lemma wp_commit_len n k s I st m rqst id z (Q : Z → nvstate → Prop) o :
  good n k s I st → objs_of I m → names_ok (objnamemap s) m → r_pid rqst = pid0 → (if is_null (r_id rqst) then gen_id_from_str (r_var_name rqst) else u32 (r_id rqst)) = id → id ≠ 0 → id ∉ st → m !! id = Some o →
  (∀ s', map_tree s' = map_tree s → inv n k s' (<[id := Aobj (a_name o) (a_ptr o) (u32 z) (a_data o)]> m) st → Q 0 s') → wp (nv_commit_len malloc rqst z) s Q.
Proof.
  intros Hg Ho Hnm Ep Eid H0 Hst Em HQ. unfold nv_commit_len. apply wp_bind. eapply (wp_get_chunk _ _ _ _ _ Hg _ _ id); [done..| |].
  2: { intros Hnone. exfalso. by rewrite (proj2 (objs_none _ _ _ Ho) Hnone) in Em. }
  intros v j kk a x Hc Ej. pose proof (ca_live _ _ _ _ _ _ _ _ Hc) as Hl. pose proof Hl as (Hv & Hj & _). pose proof (ca_ch _ _ _ _ _ _ _ _ Hc) as Hx.
  apply wp_bind, wp_check; [by eapply nonnull_points|]. pose proof (ch_room _ _ _ _ _ Hg _ _ Hv Hj) as Hroom. pose proof (gd_disk _ _ _ _ _ Hg) as Hd.
  apply wp_bind. eapply wp_upd_chunkobj; [apply Hg|exact Hx|by apply Hd|done|by apply Hd|]. set (c' := set_c_commitsz (u32 z) (i_ch I v j)).
  assert (Hg' : good n k (set_files (fput (fmeta v) (ch_off j) (RChunk c') (files s)) s) (set_ch I v j c') st).
  { eapply good_same; [done|apply same_commit|by apply disk_fput_ch|apply maps_ok_fput, Hg]. }
  apply wp_bind. eapply (wp_get_ch _ _ _ _ _ Hg' x v j); [done|done|done|]. rewrite set_ch_eq. destruct (g_c _ _ _ (gd_wf _ _ _ _ _ Hg) v j Hl) as (Hlen & _).
  apply wp_bind, wp_check; [unfold not_null; cbn; by rewrite (proj2 (Z.eqb_neq _ _)) by lia|]. apply wp_ret, HQ; [done|]. exists (set_ch I v j c'). split; [done|].
  pose proof (objs_live _ _ _ _ Ho Hl) as El. rewrite Ej in El. assert (o = to_obj I v j) as -> by congruence. split.
  - rewrite <- Ej. replace (Aobj _ _ _ _) with (to_obj (set_ch I v j c') v j) by (unfold to_obj; rewrite set_ch_eq; done). eapply objs_same; [done|apply Hg|apply same_commit|done|].
    intros v' j' _ Hne. unfold to_obj. rewrite set_ch_ne; [done|]. destruct (decide (v' = v)) as [->|]; [right; congruence|by left].
  - eapply names_same; [exact Hnm|exact El|done].
Qed.

Lemma wp_commit n k s I st m var z (Q : unit → nvstate → Prop) o :
  good n k s I st → objs_of I m → names_ok (objnamemap s) m → strlen var < MAXOBJNAMELEN → gen_id_from_str var ≠ 0 → gen_id_from_str var ∉ st → m !! gen_id_from_str var = Some o →
  (∀ s', map_tree s' = map_tree s → inv n k s' (<[gen_id_from_str var := Aobj (a_name o) (a_ptr o) (u32 z) (a_data o)]> m) st → Q tt s') → wp (p_c_nvcommitsz malloc var z) s Q.
Proof. intros Hg Ho Hnm Hn H0 Hst Em HQ. unfold p_c_nvcommitsz. apply wp_bind, named_ok; [done|]. apply wp_bind. eapply (wp_commit_len n k s I st m _ (gen_id_from_str var)); [done..|]. intros s' Et Hi. apply wp_ret. by apply HQ. Qed.

Lemma wp_commit_id n k s I st m id z (Q : unit → nvstate → Prop) o :
  good n k s I st → objs_of I m → names_ok (objnamemap s) m → is_u32 id → id ≠ 0 → id ∉ st → m !! id = Some o →
  (∀ s', map_tree s' = map_tree s → inv n k s' (<[id := Aobj (a_name o) (a_ptr o) (u32 z) (a_data o)]> m) st → Q tt s') → wp (p_c_nvcommitsz_id malloc id z) s Q.
Proof.
  intros Hg Ho Hnm Hid H0 Hst Em HQ. unfold p_c_nvcommitsz_id. apply wp_bind. eapply (wp_commit_len n k s I st m _ id); [done|done|done|done| |done|done|done|].
  - cbn [r_id r_var_name]. unfold is_null. rewrite (proj2 (Z.eqb_neq _ _) H0). by apply u32_small.
  - intros s' Et Hi. apply wp_ret. by apply HQ.
Qed.

(** ** Storing to an object *)

Lemma same_by I v g : same_objs I (set_by I v g).
Proof. by constructor. Qed.

(** Other objects keep their bytes. *)
Lemma to_obj_apart n k I v j i b v' j' :
  gwf n k I → live I v j → 0 ≤ i < c_length (i_ch I v j) → live I v' j' → (v', j') ≠ (v, j) →
  to_obj (set_by I v (λ x, if decide (c_offset (i_ch I v j) + i ≤ x < c_offset (i_ch I v j) + i + 1) then b else i_by I v x)) v' j' = to_obj I v' j'.
Proof.
  intros Hw Hl Hi Hl' Hne. unfold to_obj. cbn. f_equal. apply block_ext. intros x Hx. case_decide as Hv; [subst v'|done]. rewrite decide_False; [done|].
  assert (j' ≠ j) as Hj by congruence. destruct (g_apart _ _ _ Hw v j' j Hl' Hl Hj); lia.
Qed.

Lemma wp_write n k s I st m var i b (Q : unit → nvstate → Prop) o :
  good n k s I st → objs_of I m → names_ok (objnamemap s) m → strlen var < MAXOBJNAMELEN → gen_id_from_str var ∉ st → m !! gen_id_from_str var = Some o → 0 ≤ i < Z.of_nat (length (a_data o)) →
  (∀ s', map_tree s' = map_tree s → inv n k s' (<[gen_id_from_str var := Aobj (a_name o) (a_ptr o) (a_commit o) (<[Z.to_nat i := b]> (a_data o))]> m) st → Q tt s') →
  wp (p ← nvread_ malloc mmap var; store_byte (p + i) b) s Q.
Proof.
  intros Hg Ho Hnm Hn Hst Em Hi HQ. apply wp_bind. unfold nvread_. apply wp_bind, named_ok; [done|]. apply wp_bind. eapply (wp_nv_map_read n k s I st _ (gen_id_from_str var)); [done..| |].
  2: { intros Hnone. exfalso. by rewrite (proj2 (objs_none _ _ _ Ho) Hnone) in Em. }
  intros v j Hl Ej. cbv zeta. apply wp_bind, wp_check; [by eapply nv_ptr_not_null|]. apply wp_ret. pose proof (objs_live _ _ _ _ Ho Hl) as El. rewrite Ej in El. assert (o = to_obj I v j) as -> by congruence.
  destruct (g_c _ _ _ (gd_wf _ _ _ _ _ Hg) v j Hl) as (Hlen & Hoff & Hend & _). cbn in Hi. rewrite length_block in Hi by lia. pose proof (nv_ptr_points _ _ _ _ _ _ _ i Hg Hl Hi) as Hp. pose proof (proj1 Hl) as Hv. pose proof (gd_disk _ _ _ _ _ Hg) as Hd.
  unfold store_byte. eapply wp_set_bytes; [apply Hg|exact Hp|exact (d_data _ _ Hd v Hv)|lia|]. apply HQ; [done|]. pose proof (disk_fset _ _ v (c_offset (i_ch I v j) + i) 1 (λ _, b) Hd Hv) as Hd'. cbn beta in Hd'.
  set (I' := set_by I v _) in Hd'. exists I'. split; [eapply good_same; [done|apply same_by|done|apply maps_ok_fset, Hg]|]. split.
  - rewrite <- Ej. replace (Aobj _ _ _ _) with (to_obj I' v j).
    { eapply objs_same; [done|apply Hg|apply same_by|done|]. intros. by eapply to_obj_apart; [apply Hg|..]. }
    unfold to_obj. cbn. f_equal. apply list_eq. intros x. rewrite decide_True by done. destruct (decide (x = Z.to_nat i)) as [->|Hx].
    + rewrite list_lookup_insert_eq by (apply Nat2Z.inj_lt; rewrite length_block; lia). rewrite lookup_block by lia. rewrite decide_True by lia. done.
    + rewrite list_lookup_insert_ne by done. destruct (decide (Z.of_nat x < c_length (i_ch I v j))) as [Hlt|Hge].
      * rewrite <- (Nat2Z.id x), !lookup_block by lia. rewrite decide_False by lia. done.
      * rewrite !lookup_ge_None_2; [done|apply Nat2Z.inj_le; rewrite length_block; lia..].
  - eapply names_same; [exact Hnm|exact El|done].
Qed.

(** ** Deleting *)

Lemma live_set_ch I v j c v' j' : live (set_ch I v j c) v' j' ↔ if decide (v' = v ∧ j' = j) then v ∈ i_ix I ∧ 0 ≤ j < m_numchunks (i_mo I v) ∧ c_valid c ≠ INVALID else live I v' j'.
Proof. unfold live. cbn. case_decide as Hd; [by destruct Hd as [-> ->]|done]. Qed.

Lemma live_dead I v j c v' j' : c_valid c = INVALID → live (set_ch I v j c) v' j' ↔ live I v' j' ∧ (v', j') ≠ (v, j).
Proof. intros Hc. rewrite live_set_ch. case_decide as Hd; [destruct Hd as [-> ->]|]; naive_solver. Qed.

(** Objects that are gone, and nothing else. *)
Lemma gwf_dead n k I v j c : gwf n k I → c_valid c = INVALID → gwf n k (set_ch I v j c).
Proof.
  intros [G1 G2 G3 G4 G5 G6 G7 G8 G9 G10 G11] Hc. assert (Hl := λ v' j', live_dead I v j c v' j' Hc).
  assert (He : ∀ v' j', (v', j') ≠ (v, j) → i_ch (set_ch I v j c) v' j' = i_ch I v' j') by (intros; by apply set_ch_other).
  constructor; try done.
  - intros v' j' [Hv Hne]%Hl. rewrite He by done. by apply G9.
  - intros v1 j1 v2 j2 [H1 Hn1]%Hl [H2 Hn2]%Hl. rewrite !He by done. by apply G10.
  - intros v1 j1 j2 [H1 Hn1]%Hl [H2 Hn2]%Hl. rewrite !He by done. by apply G11.
Qed.

(** The trees of chunks and the objects change, the maps stay. *)
Lemma vol_trees s I I' st st' T :
  vol s I st → i_proc I' = i_proc I → i_ix I' = i_ix I → i_mo I' = i_mo I → T !! p_mmapobj_tree (i_proc I) = trees s !! p_mmapobj_tree (i_proc I) →
  (∀ v, v ∈ i_ix I → m_chunk_tree_init (i_mo I v) ≠ 0 → ∃ C, ctree (maps s) T I' st' v C) →
  (∀ v j, live I' v j → c_nv_ptr (i_ch I' v j) = m_data_addr (i_mo I v) + c_offset (i_ch I' v j)) → (∀ v j, live I' v j → c_chunkid (i_ch I' v j) ∉ st') →
  vol (set_trees T s) I' st'.
Proof.
  intros [V1 V2 V3 V4 V5 V6 V7 V8 V9 V10 V11 V12 V13 V14 V15 V16] Ep Ei Em Ht Hc Hnv Hst. constructor; rewrite ?Ep, ?Ei, ?Em; try assumption.
  - destruct V5 as [M HM]. exists M. unfold ptree in *. cbn. by rewrite Ep, Ei, Ht.
  - destruct V13 as (N & HN & Hx & Hu). exists N. split_and!; [done| |done]. intros b x Eb. eapply node_same; eauto. intros. by rewrite Em.
Qed.

(** The tree of one map is replaced. *)
Lemma vtree_other s I st v w C tr :
  vol s I st → v ∈ i_ix I → m_chunk_tree_init (i_mo I v) ≠ 0 → w ∈ i_ix I → w ≠ v → vtree (trees s) I w C → vtree (<[m_chunkobj_tree (i_mo I v) := tr]> (trees s)) I w C.
Proof.
  intros Hg Hv Hi Hw Hne (Hiw & Hn & tr' & E & HC). split_and!; [done|done|]. exists tr'. split; [|done]. rewrite lookup_insert_ne; [done|].
  intros Eq. apply Hne. symmetry. by eapply (v_roots _ _ _ Hg).
Qed.

Lemma ptree_other s I st v tr :
  vol s I st → v ∈ i_ix I → m_chunk_tree_init (i_mo I v) ≠ 0 →
  <[m_chunkobj_tree (i_mo I v) := tr]> (trees s) !! p_mmapobj_tree (i_proc I) = trees s !! p_mmapobj_tree (i_proc I).
Proof. intros Hg Hv Hi. apply lookup_insert_ne. by eapply (v_root _ _ _ Hg). Qed.

Lemma good_dead n k s I st v j c :
  good n k s I st → live I v j → c_valid c = INVALID →
  good n k (set_files (fput (fmeta v) (ch_off j) (RChunk c) (files s)) s) (set_ch I v j c) ({[c_chunkid (i_ch I v j)]} ∪ st).
Proof.
  intros Hg Hl Hc. assert (Hd := λ v' j', live_dead I v j c v' j' Hc). destruct Hg as [D W Mp V ? ?].
  assert (He : ∀ v' j', (v', j') ≠ (v, j) → i_ch (set_ch I v j c) v' j' = i_ch I v' j') by (intros; by apply set_ch_other).
  constructor; [apply disk_fput_ch; [done|apply Hl]|by apply gwf_dead|by apply maps_ok_fput| |done|done]. apply vol_files.
  pose proof (vol_trees s I (set_ch I v j c) st ({[c_chunkid (i_ch I v j)]} ∪ st) (trees s) V eq_refl eq_refl eq_refl eq_refl) as Hvol. replace (set_trees (trees s) s) with s in Hvol by (by destruct s). apply Hvol.
  - intros w Hw Hi. destruct (v_ctree _ _ _ V w Hw Hi) as [C HC]. exists C. constructor; [apply HC| |].
    + intros id a E. destruct (ct_sound _ _ _ _ _ _ HC id a E) as (j' & Hj' & Hp & Hor). exists j'. split_and!; [apply Hj'|apply Hj'|done|]. destruct Hor as [?|[Hl' <-]]; [left; set_solver|].
      destruct (decide ((w, j') = (v, j))) as [[= -> ->]|Hne]; [left; set_solver|]. right. rewrite He by done. split; [by apply Hd|done].
    + intros j' [Hl' Hne]%Hd. rewrite He by done. by eapply (ct_complete _ _ _ _ _ _ HC).
  - intros w j' [Hl' Hne]%Hd. rewrite He by done. by eapply (v_nv _ _ _ V).
  - intros w j' [Hl' Hne]%Hd. rewrite He by done. rewrite elem_of_union, elem_of_singleton. intros [E|Hin]; [|by eapply (v_stale _ _ _ V)].
    apply Hne. destruct (g_uniq _ _ _ W _ _ _ _ Hl' Hl E) as [-> ->]. done.
Qed.

(** Taking an id out of the tree of its map. *)
Lemma good_untree n k s I st v id C tr :
  good n k s I ({[id]} ∪ st) → id ∉ st → v ∈ i_ix I → ctree (maps s) (trees s) I ({[id]} ∪ st) v C → rb_map tr (delete id C) →
  (∀ w, w ∈ i_ix I → w ≠ v → ¬ holds s I w id) →
  good n k (set_trees (<[m_chunkobj_tree (i_mo I v) := tr]> (trees s)) s) I st.
Proof.
  intros Hg Hst Hv HC Htr Hno. pose proof (ct_tree _ _ _ _ _ _ HC) as (Hi & Ht0 & _). pose proof Hg as [D W Mp V ? ?]. constructor; [done..| |done|done].
  assert (Hids : ∀ w j, live I w j → c_chunkid (i_ch I w j) ≠ id) by (intros w j Hl E; pose proof (v_stale _ _ _ V w j Hl); set_solver).
  eapply (vol_trees s I I ({[id]} ∪ st)); [done..|by eapply ptree_other| |by apply V|].
  - intros w Hw Hiw. destruct (decide (w = v)) as [->|Hne].
    + exists (delete id C). constructor; [split_and!; [done|done|]; exists tr; by rewrite lookup_insert_eq| |].
      * intros id' a [Hne Ea]%lookup_delete_Some. destruct (ct_sound _ _ _ _ _ _ HC _ _ Ea) as (j & Hj & Hp & Hor). exists j. split_and!; [apply Hj|apply Hj|done|]. set_solver.
      * intros j Hl. destruct (ct_complete _ _ _ _ _ _ HC j Hl) as (a & Ea & Hp). exists a. split; [|done]. rewrite lookup_delete_ne; [done|]. intros E. by apply (Hids _ _ Hl).
    + destruct (v_ctree _ _ _ V w Hw Hiw) as [C' HC']. exists C'. constructor; [by eapply vtree_other, HC'| |by apply HC'].
      intros id' a Ea. destruct (ct_sound _ _ _ _ _ _ HC' _ _ Ea) as (j & Hj & Hp & Hor). exists j. split_and!; [apply Hj|apply Hj|done|].
      destruct (decide (id' = id)) as [->|]; [|set_solver]. exfalso. apply (Hno w Hw Hne). exists C'. split; [apply HC'|by rewrite Ea].
  - intros w j Hl. pose proof (v_stale _ _ _ V w j Hl). set_solver.
Qed.

Lemma objs_dead n k I m v j c : objs_of I m → gwf n k I → live I v j → c_valid c = INVALID → objs_of (set_ch I v j c) (delete (c_chunkid (i_ch I v j)) m).
Proof.
  intros Ho Hw Hl Hc id o. assert (Hd := λ v' j', live_dead I v j c v' j' Hc).
  assert (He : ∀ v' j', (v', j') ≠ (v, j) → i_ch (set_ch I v j c) v' j' = i_ch I v' j') by (intros; by apply set_ch_other).
  rewrite lookup_delete_Some. split.
  - intros [Hid (v' & j' & Hl' & <- & ->)%Ho]. assert ((v', j') ≠ (v, j)) by congruence. exists v', j'. unfold to_obj. rewrite He by done. split_and!; [by apply Hd|done|done].
  - intros (v' & j' & [Hl' Hne]%Hd & Ei & ->). unfold to_obj in *. rewrite He in * by done. subst id. split; [|by apply (objs_live _ _ _ _ Ho)].
    intros E. apply Hne. destruct (g_uniq _ _ _ Hw _ _ _ _ Hl Hl' E) as [-> ->]. done.
Qed.

(** Names are those of objects of their id. *)
Lemma name_id n k I m id o : objs_of I m → gwf n k I → m !! id = Some o → id = gen_id_from_str (a_name o).
Proof. intros Ho Hw (v & j & Hl & <- & ->)%Ho. by destruct (g_c _ _ _ Hw v j Hl) as (_ & _ & _ & E & _). Qed.

Lemma names_delete n k om I m id o :
  objs_of I m → gwf n k I → names_ok om m → m !! id = Some o → names_ok (delete (a_name o) om) (delete id m).
Proof.
  intros Ho Hw Hn Em x z. rewrite lookup_delete_Some. split.
  - intros [Hx (-> & i & y & Ei & Ey)%Hn]. split; [done|]. exists i, y. split; [|done]. rewrite lookup_delete_ne; [done|]. intros <-. congruence.
  - intros (-> & i & y & [Hne Ei]%lookup_delete_Some & <-). split; [|apply Hn; eauto]. intros E. apply Hne.
    rewrite (name_id _ _ _ _ _ _ Ho Hw Em), (name_id _ _ _ _ _ _ Ho Hw Ei). by rewrite E.
Qed.

Lemma wp_delete n k s I st m var (Q : unit → nvstate → Prop) :
  good n k s I st → objs_of I m → names_ok (objnamemap s) m → strlen var < MAXOBJNAMELEN → gen_id_from_str var ≠ 0 → gen_id_from_str var ∉ st →
  (∀ o, m !! gen_id_from_str var = Some o → a_name o = var) →
  (∀ s', map_tree s' = map_tree s → inv n k s' (delete (gen_id_from_str var) m) st → Q tt s') → wp (nvdelete malloc var) s Q.
Proof.
  intros Hg Ho Hnm Hn H0 Hst Hname HQ. unfold nvdelete. apply wp_bind, named_ok; [done|]. apply wp_bind. unfold nv_delete. apply wp_bind, wp_check; [done|]. cbn [r_pid].
  destruct (proc_found _ _ _ _ _ Hg) as (pp & Hr & Hp & Hpp). apply wp_bind. eapply wp_find_proc_obj; [done..|]. apply wp_bind, wp_check; [by eapply nonnull_points|].
  apply wp_bind. eapply (wp_get_chunk _ _ _ _ _ Hg _ _ (gen_id_from_str var)); [done..| |].
  2: { intros Hnone. cbn [is_null Z.eqb]. apply wp_ret, wp_ret, HQ; [done|]. rewrite delete_id by (by apply (objs_none _ _ _ Ho)). by exists I. }
  intros v j kk a x Hc Ej. pose proof (ca_live _ _ _ _ _ _ _ _ Hc) as Hl. pose proof Hl as (Hv & Hj & _). pose proof (ca_ch _ _ _ _ _ _ _ _ Hc) as Hx. pose proof (gd_disk _ _ _ _ _ Hg) as Hd.
  rewrite (is_null_points _ _ _ _ _ Hg _ _ _ Hx). apply wp_bind. eapply wp_upd_chunkobj; [apply Hg|exact Hx|exact (d_meta _ _ Hd v Hv)|by eapply ch_room|by apply (d_ch _ _ Hd)|].
  set (c' := set_c_valid INVALID _). pose proof (good_dead n k s I st v j c' Hg Hl eq_refl) as Hg'. rewrite Ej in Hg'. set (s1 := set_files _ s) in *.
  apply wp_bind. eapply (wp_get_ch _ _ _ _ _ Hg' x v j); [done..|]. rewrite set_ch_eq. change (c_chunkid c') with (c_chunkid (i_ch I v j)). rewrite Ej.
  assert (Honly : ∀ w, w ∈ i_ix I → holds s I w (gen_id_from_str var) → w = v).
  { intros w Hw Hh. destruct (holds_live _ _ _ _ _ Hg w _ Hw Hh Hst) as (j' & Hl' & Ej'). by destruct (g_uniq _ _ _ (gd_wf _ _ _ _ _ Hg) _ _ _ _ Hl' Hl ltac:(congruence)) as [-> _]. }
  apply wp_bind. eapply (wp_find_mmapobj_from_chunkid _ _ _ _ _ Hg'); [exact Hp| |].
  2: { intros Hno. exfalso. apply (Hno v Hv). rewrite <- Ej. exact (live_holds _ _ _ _ _ Hg v j Hl). }
  intros a' v' k' Hk' Ha' Hh. assert (v' = v) as -> by (apply Honly; [exact (list_elem_of_lookup_2 _ _ _ Hk')|exact Hh]). rewrite (is_null_points _ _ _ _ _ Hg' _ _ _ Ha').
  apply wp_bind. eapply (wp_get_mo _ _ _ _ _ Hg'); [done..|]. destruct (v_ctree _ _ _ (gd_vol _ _ _ _ _ Hg') v Hv (live_init _ _ _ _ _ Hg _ _ Hl)) as [C HC].
  pose proof (ct_tree _ _ _ _ _ _ HC) as (Hi & Ht0 & tr & Etr & HCtr). unfold not_null. rewrite (proj2 (Z.eqb_neq _ _) Ht0). cbn [negb when]. apply wp_bind. eapply wp_remove_at; [done..|]. intros tr' Htr'.
  apply wp_bind, wp_modify, wp_ret, wp_ret, HQ; [done|]. cbn [r_var_name]. exists (set_ch I v j c').
  pose proof (good_untree _ _ _ _ _ v _ C tr' Hg' Hst Hv HC Htr') as Hg2. rewrite <- Ej. pose proof (objs_live _ _ _ _ Ho Hl) as El. split_and!.
  - apply good_names, Hg2. intros w Hw Hne Hh'. apply Hne. by apply Honly.
  - eapply objs_dead; [done|apply Hg|done|done].
  - pose proof (Hname _ ltac:(by rewrite <- Ej)) as En. cbn in En. cbn. rewrite <- En. exact (names_delete n k _ I _ _ _ Ho (gd_wf _ _ _ _ _ Hg) Hnm El).
Qed.

(** ** Renaming *)

Definition renamed dest c : chunkobj_s := set_c_valid VALID (set_c_objname dest (set_c_chunkid (gen_id_from_str dest) c)).

Lemma live_renamed I v j dest v' j' : live I v j → live (set_ch I v j (renamed dest (i_ch I v j))) v' j' ↔ live I v' j'.
Proof. intros Hl. rewrite live_set_ch. case_decide as Hd; [destruct Hd as [-> ->]|done]. unfold live, renamed, VALID, INVALID in *. cbn. intuition lia. Qed.

Lemma gen_id_u32 x : is_u32 (gen_id_from_str x).
Proof.
  unfold gen_id_from_str. assert (Hg : ∀ y h, is_u32 h → is_u32 (sdbm y h)); [|apply Hg; unfold is_u32; lia].
  induction y as [|ch y IH]; intros h Hh; cbn; [done|]. apply IH, u32_range.
Qed.

Lemma gwf_renamed n k I v j dest :
  gwf n k I → live I v j → gen_id_from_str dest ≠ 0 → (∀ v' j', live I v' j' → c_chunkid (i_ch I v' j') ≠ gen_id_from_str dest) →
  gwf n k (set_ch I v j (renamed dest (i_ch I v j))).
Proof.
  intros [G1 G2 G3 G4 G5 G6 G7 G8 G9 G10 G11] Hl H0 Hnew. assert (Hr := λ v' j', live_renamed I v j dest v' j' Hl).
  assert (Hlo : ∀ v' j', let c' := i_ch (set_ch I v j (renamed dest (i_ch I v j))) v' j' in c_length c' = c_length (i_ch I v' j') ∧ c_offset c' = c_offset (i_ch I v' j')).
  { intros v' j'. cbn. case_decide as Hd; [by destruct Hd as [-> ->]|done]. }
  constructor; try done.
  - intros v' j' Hv%Hr. cbv zeta. destruct (Hlo v' j') as [-> ->]. destruct (G9 v' j' Hv) as (? & ? & ? & ? & ? & ?). split_and!; [done..| | |]; (destruct (decide ((v', j') = (v, j))) as [[= -> ->]|Hne]; [rewrite set_ch_eq; cbn|by rewrite set_ch_other]); [done|done|apply gen_id_u32].
  - intros v1 j1 v2 j2 H1%Hr H2%Hr. destruct (decide ((v1, j1) = (v, j))) as [[= -> ->]|Hn1], (decide ((v2, j2) = (v, j))) as [[= -> ->]|Hn2]; [done|..]; rewrite ?set_ch_eq, ?set_ch_other by done; cbn.
    + intros E. by destruct (Hnew _ _ H2).
    + intros E. by destruct (Hnew _ _ H1).
    + by apply G10.
  - intros v1 j1 j2 H1%Hr H2%Hr. destruct (Hlo v1 j1) as [-> ->]. destruct (Hlo v1 j2) as [-> ->]. by apply G11.
Qed.

Lemma good_renamed n k s I st v j dest C x tr :
  good n k s I st → live I v j → ctree (maps s) (trees s) I st v C → points (maps s) x (fmeta v) (ch_off j) → rb_map tr (<[gen_id_from_str dest := x]> C) →
  gen_id_from_str dest ≠ 0 → gen_id_from_str dest ∉ st → (∀ v' j', live I v' j' → c_chunkid (i_ch I v' j') ≠ gen_id_from_str dest) →
  good n k (set_trees (<[m_chunkobj_tree (i_mo I v) := tr]> (trees s)) (set_files (fput (fmeta v) (ch_off j) (RChunk (renamed dest (i_ch I v j))) (files s)) s))
    (set_ch I v j (renamed dest (i_ch I v j))) ({[c_chunkid (i_ch I v j)]} ∪ st).
Proof.
  intros Hg Hl HC Hx Htr H0 Hst Hnew. pose proof Hg as [D W Mp V ? ?]. assert (Hr := λ v' j', live_renamed I v j dest v' j' Hl). pose proof (ct_tree _ _ _ _ _ _ HC) as (Hi & Ht0 & _).
  constructor; [apply disk_fput_ch; [done|apply Hl]|by apply gwf_renamed|by apply maps_ok_fput| |done|done].
  eapply (vol_trees _ I _ st); [by apply vol_files|done..|exact (ptree_other s I st v tr V (proj1 Hl) Hi)| | |].
  - intros w Hw Hiw. destruct (decide (w = v)) as [->|Hne].
    + exists (<[gen_id_from_str dest := x]> C). constructor; [split_and!; [done|done|]; exists tr; by rewrite lookup_insert_eq| |].
      * intros id a [[<- <-]|[Hne Ea]]%lookup_insert_Some; [exists j; split_and!; [apply Hl|apply Hl|done|]; right; split; [by apply Hr|by rewrite set_ch_eq]|].
        destruct (ct_sound _ _ _ _ _ _ HC _ _ Ea) as (j' & Hj & Hp & Hor). exists j'. split_and!; [apply Hj|apply Hj|done|]. destruct Hor as [?|[Hl' <-]]; [left; set_solver|].
        destruct (decide (j' = j)) as [->|Hj']; [left; set_solver|]. right. split; [by apply Hr|]. rewrite set_ch_ne by auto. done.
      * intros j' Hl'%Hr. destruct (decide (j' = j)) as [->|Hj']; [exists x; by rewrite set_ch_eq, lookup_insert_eq|]. rewrite set_ch_ne by auto.
        destruct (ct_complete _ _ _ _ _ _ HC j' Hl') as (a & Ea & Hp). exists a. split; [|done]. rewrite lookup_insert_ne; [done|]. intros E. by destruct (Hnew _ _ Hl').
    + destruct (v_ctree _ _ _ V w Hw Hiw) as [C' HC']. exists C'. constructor; [eapply (vtree_other s I st); [done|apply Hl|done|done|done|apply HC']| |].
      * intros id a Ea. destruct (ct_sound _ _ _ _ _ _ HC' _ _ Ea) as (j' & Hj & Hp & Hor). exists j'. split_and!; [apply Hj|apply Hj|done|]. destruct Hor as [?|[Hl' <-]]; [left; set_solver|].
        right. split; [by apply Hr|]. by rewrite set_ch_ne by auto.
      * intros j' Hl'%Hr. rewrite set_ch_ne by auto. by apply HC'.
  - intros w j' Hl'%Hr. cbn. case_decide as Hd; [destruct Hd as [-> ->]; cbn|]; by apply V.
  - intros w j' Hl'%Hr. destruct (decide ((w, j') = (v, j))) as [[= -> ->]|Hne].
    + rewrite set_ch_eq. cbn. pose proof (Hnew _ _ Hl). set_solver.
    + rewrite set_ch_other by done. rewrite elem_of_union, elem_of_singleton. intros [E|?]; [|by eapply (v_stale _ _ _ V)]. apply Hne. by destruct (g_uniq _ _ _ W _ _ _ _ Hl' Hl E) as [-> ->].
Qed.

Lemma objs_renamed n k I m v j dest :
  objs_of I m → gwf n k I → live I v j → (∀ v' j', live I v' j' → c_chunkid (i_ch I v' j') ≠ gen_id_from_str dest) →
  objs_of (set_ch I v j (renamed dest (i_ch I v j))) (<[gen_id_from_str dest := Aobj dest (a_ptr (to_obj I v j)) (a_commit (to_obj I v j)) (a_data (to_obj I v j))]> (delete (c_chunkid (i_ch I v j)) m)).
Proof.
  intros Ho Hw Hl Hnew id o. assert (Hr := λ v' j', live_renamed I v j dest v' j' Hl). set (I' := set_ch I v j _) in *. assert (Eo : Aobj dest (a_ptr (to_obj I v j)) (a_commit (to_obj I v j)) (a_data (to_obj I v j)) = to_obj I' v j) by (unfold to_obj, I'; by rewrite set_ch_eq).
  assert (Hne : ∀ v' j', (v', j') ≠ (v, j) → to_obj I' v' j' = to_obj I v' j') by (intros; unfold to_obj, I'; by rewrite set_ch_other).
  rewrite Eo, lookup_insert_Some, lookup_delete_Some. split.
  - intros [[<- <-]|(Hid & Hid' & (v' & j' & Hl' & <- & ->)%Ho)]; [exists v, j; split_and!; [by apply Hr|unfold I'; by rewrite set_ch_eq|done]|].
    assert ((v', j') ≠ (v, j)) as Hd by congruence. exists v', j'. split_and!; [by apply Hr|unfold I'; by rewrite set_ch_other|by rewrite Hne].
  - intros (v' & j' & Hl'%Hr & <- & ->). destruct (decide ((v', j') = (v, j))) as [[= -> ->]|Hd]; [left; split; [unfold I'; by rewrite set_ch_eq|done]|]. right. unfold I' at 1 2 3. rewrite set_ch_other, Hne by done.
    split_and!; [intros E; by destruct (Hnew _ _ Hl')|intros E; apply Hd; by destruct (g_uniq _ _ _ Hw _ _ _ _ Hl Hl' E) as [-> ->]|by apply objs_live].
Qed.

Lemma names_insert om m id o : names_ok om m → m !! id = None → names_ok (<[a_name o := 0]> om) (<[id := o]> m).
Proof.
  intros Hn Em x z. rewrite lookup_insert_Some. split.
  - intros [[<- <-]|[Hx (-> & i & y & Ei & Ey)%Hn]]; (split; [done|]); [exists id, o; by rewrite lookup_insert_eq|]. exists i, y. split; [|done]. rewrite lookup_insert_ne; congruence.
  - intros (-> & i & y & [[<- <-]|[Hne Ei]]%lookup_insert_Some & <-); [by left|]. destruct (decide (a_name o = a_name y)) as [E|Hx]; [by left|]. right. split; [done|]. apply Hn. eauto.
Qed.

Lemma insert_delete_twice (om : gmap string Z) x y : <[x := 0]> (delete y (<[x := 0]> om)) = <[x := 0]> (delete y om).
Proof.
  apply map_eq. intros z. destruct (decide (x = z)) as [<-|Hx]; [by rewrite !lookup_insert_eq|]. rewrite !(lookup_insert_ne _ _ _ _ Hx).
  destruct (decide (y = z)) as [<-|]; [by rewrite !lookup_delete_eq|]. by rewrite !lookup_delete_ne, lookup_insert_ne.
Qed.

Lemma wp_rename n k s I st m src dest o (Q : unit → nvstate → Prop) :
  good n k s I st → objs_of I m → names_ok (objnamemap s) m → strlen src < MAXOBJNAMELEN → strlen dest < MAXOBJNAMELEN →
  gen_id_from_str src ≠ 0 → gen_id_from_str src ∉ st → gen_id_from_str dest ≠ 0 → gen_id_from_str dest ∉ st → m !! gen_id_from_str dest = None →
  m !! gen_id_from_str src = Some o → a_name o = src →
  (∀ s', map_tree s' = map_tree s → inv n k s' (<[gen_id_from_str dest := Aobj dest (a_ptr o) (a_commit o) (a_data o)]> (delete (gen_id_from_str src) m)) ({[gen_id_from_str src]} ∪ st) → Q tt s') →
  wp (nv_renameobj malloc src dest) s Q.
Proof.
  intros Hg Ho Hnm Hn Hn' H0 Hst H0' Hst' Edest Esrc Ename HQ. pose proof (proj1 (objs_none _ _ _ Ho) Edest) as Hnew. unfold nv_renameobj. apply wp_bind, named_ok; [done|]. unfold nv_rename.
  apply wp_bind. eapply (wp_get_chunk _ _ _ _ _ Hg _ _ (gen_id_from_str src)); [done..| |]; [|intros Hnone; by rewrite (proj2 (objs_none _ _ _ Ho) Hnone) in Esrc].
  intros v j kk a x Hc Ej. pose proof (ca_live _ _ _ _ _ _ _ _ Hc) as Hl. pose proof Hl as (Hv & Hj & _). pose proof (ca_ch _ _ _ _ _ _ _ _ Hc) as Hx. pose proof (gd_disk _ _ _ _ _ Hg) as Hd.
  rewrite (is_null_points _ _ _ _ _ Hg _ _ _ Hx). destruct (proc_found _ _ _ _ _ Hg) as (pp & Hr & Hp & Hpp). cbn [r_pid]. apply wp_bind. eapply wp_find_proc_obj; [done..|]. apply wp_bind, wp_check; [by eapply nonnull_points|].
  apply wp_bind. eapply wp_get_ch; [done|done|done|exact Hx|]. rewrite Ej. apply wp_bind. eapply wp_search; [done..| |]; [|intros Hnone; by destruct (Hnone v j Hl)].
  intros v' j' kk' a' x' Hc' Ej'. destruct (g_uniq _ _ _ (gd_wf _ _ _ _ _ Hg) _ _ _ _ (ca_live _ _ _ _ _ _ _ _ Hc') Hl ltac:(congruence)) as [-> ->]. pose proof (ca_mo _ _ _ _ _ _ _ _ Hc') as Ha'. pose proof (ca_ix _ _ _ _ _ _ _ _ Hc') as Hk'.
  rewrite (is_null_points _ _ _ _ _ Hg _ _ _ Ha'). destruct (g_c _ _ _ (gd_wf _ _ _ _ _ Hg) v j Hl) as (Hlen & _). apply wp_bind. unfold not_null at 1. rewrite (proj2 (Z.eqb_neq _ _)) by lia. cbn [negb when].
  destruct (ca_tree _ _ _ _ _ _ _ _ Hc) as (C & HC & _). pose proof (ct_tree _ _ _ _ _ _ HC) as (Hi & Ht0 & tr & Etr & HCtr).
  apply wp_bind, wp_check; [by apply Z.ltb_lt|]. apply wp_bind. eapply wp_upd_chunkobj; [apply Hg|exact Hx|exact (d_meta _ _ Hd v Hv)|by eapply ch_room|by apply (d_ch _ _ Hd)|].
  set (s1 := set_files _ s). assert (Hm1 : maps_ok (maps s1) (files s1)) by apply maps_ok_fput, Hg. assert (Hd1 : disk (files s1) (set_ch I v j (renamed dest (i_ch I v j)))) by (by apply disk_fput_ch).
  apply wp_bind. unfold add_chunkobj. rewrite (is_null_points _ _ _ _ _ Hg _ _ _ Ha'). apply wp_bind. eapply wp_load_mmapobj; [exact Hm1|exact Ha'|apply Hd1|by eapply mo_room|exact (d_mo _ _ Hd1 _ _ Hk')|]. cbn [i_mo set_ch].
  apply wp_bind, wp_check; [unfold not_null; by rewrite (proj2 (Z.eqb_neq _ _) Ht0)|]. rewrite (is_null_points _ _ _ _ _ Hg _ _ _ Hx).
  apply wp_bind. eapply wp_load_chunkobj; [exact Hm1|exact Hx|exact (d_meta _ _ Hd1 v Hv)|by eapply ch_room|exact (d_ch _ _ Hd1 v j Hv Hj)|]. rewrite set_ch_eq. apply wp_bind, wp_check; [unfold not_null; cbn; by rewrite (proj2 (Z.eqb_neq _ _)) by lia|].
  apply wp_bind. eapply wp_insert_at; [done|exact Etr|exact HCtr|]. intros tr' Htr'. apply wp_bind, wp_modify, wp_ret, wp_ret, wp_bind, wp_modify, wp_modify, HQ; [done|].
  pose proof (good_renamed n k s I st v j dest C x tr' Hg Hl HC Hx Htr' H0' Hst' Hnew) as Hg'. rewrite Ej in Hg'. exists (set_ch I v j (renamed dest (i_ch I v j))).
  pose proof (objs_live _ _ _ _ Ho Hl) as El. rewrite Ej in El. assert (o = to_obj I v j) as -> by congruence. split_and!; [by apply good_names, good_names, good_names|rewrite <- Ej; eapply objs_renamed; [done|apply Hg|done|done]|].
  cbn [objnamemap set_objnamemap set_trees s1 set_files r_var_name c_objname renamed set_c_valid set_c_objname]. rewrite insert_delete_twice. eapply (names_insert _ _ _ (Aobj dest _ _ _)); [|apply lookup_delete_None; by right].
  rewrite <- Ename at 1. eapply names_delete; [done|apply Hg|done|done].
Qed.
End ops.
