(* ===== verification/StoreRecord.v ===== *)
(** * The object store: new mappings and new objects *)

From stdpp Require Import strings.
From S2P Require Import Prelude Rbtree RbtreeSpec RbtreeMap Store StoreMem StoreInv StoreOps.

Implicit Types (I : img) (s : nvstate) (fs : gmap string file) (v j id : Z) (st : gset Z) (c : chunkobj_s) (mp : gmap Z (string * Z)).

Definition set_proc I p : img := Img p (i_ix I) (i_mo I) (i_ch I) (i_by I).

(** A block of [len] bytes at [a], in one mapping of this run, that no object uses. *)
Definition avail I s (a len : Z) : Prop :=
  ∃ N b x, maptree (map_tree s) N ∧ N !! b = Some x ∧ b ≤ a ∧ a + len ≤ n_end_addr x ∧
  ∀ j, live I (n_map_id x) j → let c := i_ch I (n_map_id x) j in c_offset c + c_length c ≤ a - b ∨ a - b + len ≤ c_offset c.

Lemma maps_ok_fnew mp fs f n : maps_ok mp fs → (∀ b len, mp !! b ≠ Some (f, len)) → maps_ok mp (fnew f n fs).
Proof. intros Hm Hf. eapply maps_ok_sizes; [done|]. intros b g len E. apply size_fnew_ne. intros ->. by eapply Hf. Qed.

Lemma disk_proc fs I p : disk fs I → disk (fput fproc 0 (RProc p) fs) (set_proc I p).
Proof.
  intros [Ds Dp Dm Df De Dt Dc Dd Db]. assert (Hm : ∀ v o, rec_at (fput fproc 0 (RProc p) fs) (fmeta v) o = rec_at fs (fmeta v) o) by (intros; apply rec_fput_ne; auto with nv).
  constructor; cbn; intros; rewrite ?size_fput, ?byte_fput, ?Hm in *; eauto.
  - by rewrite rec_fput by (by rewrite Ds).
  - rewrite rec_fput_ne; [by apply Dm|right; pose proof (mo_off_pos k); lia].
  - rewrite rec_fput_ne; [by apply Df|right; pose proof (mo_off_pos (length (i_ix I))); lia].
Qed.

Lemma disk_fnew_data fs I v n : disk fs I → v ∉ i_ix I → disk (fnew (fdata v) n fs) I.
Proof.
  intros [Ds Dp Dm Df De Dt Dc Dd Db] Hv. assert (Hne : ∀ w, w ∈ i_ix I → fdata w ≠ fdata v) by (intros w Hw ->%fdata_inj; done).
  constructor; intros; rewrite ?size_fnew_ne, ?rec_fnew_ne, ?byte_fnew_ne in * by auto with nv; eauto.
Qed.

Lemma node_grow mp mp' vm vm' I I' b x :
  node_ok mp vm I b x → mp ⊆ mp' → p_num_mmaps (i_proc I) ≤ p_num_mmaps (i_proc I') → i_ix I' = i_ix I → i_mo I' = i_mo I → vm' !! n_map_id x = vm !! n_map_id x → node_ok mp' vm' I' b x.
Proof. intros [H1 H2 H3 H4 H5 H6] Hs Hn Ei Em Ev. constructor; rewrite ?Ei, ?Em; [done|lia|by eapply lookup_weaken|done|congruence|done]. Qed.

Lemma ctree_grow mp mp' T I I' st v C : ctree mp T I st v C → mp ⊆ mp' → i_ix I' = i_ix I → i_mo I' = i_mo I → i_ch I' = i_ch I → ctree mp' T I' st v C.
Proof.
  intros [H1 H2 H3] Hs Ei Em Ec. assert (Hl : ∀ w j, live I' w j ↔ live I w j) by (intros; unfold live; by rewrite Ei, Em, Ec). constructor.
  - unfold vtree. by rewrite Em.
  - intros id a Ea. destruct (H2 id a Ea) as (j & Hj & Hp & Hor). exists j. rewrite Em, Ec, Hl. split_and!; [apply Hj|apply Hj|by eapply points_mono|done].
  - intros j Hj%Hl. destruct (H3 j Hj) as (a & Ea & Hp). exists a. rewrite Ec. split; [done|by eapply points_mono].
Qed.

Section record.
Context (malloc : gset Z → Z).
Hypothesis malloc_fresh : fresh_malloc malloc.
Context (mmap : gmap Z (string * Z) → Z → Z → Z).
Hypothesis mmap_fresh : fresh_mmap mmap.

(** ** A mapping for the allocator *)

Lemma wp_insert_node s N b sz id p (Q : unit → nvstate → Prop) :
  maptree (map_tree s) N → (∀ tr, rb_map tr (<[b := MmapNode b (b + sz) id p]> N) → Q tt (set_map_tree (Some tr) s)) → wp (insert_mmapobj_node malloc b sz id p) s Q.
Proof using malloc_fresh.
  intros HN HQ. unfold insert_mmapobj_node. apply wp_bind, wp_gets, wp_bind.
  assert (Hins : ∀ s' tr, map_tree s' = Some tr → rb_map tr N → (∀ tr', set_map_tree (Some tr') s' = set_map_tree (Some tr') s) → wp (on_map_tree (rbtree_insert malloc b (MmapNode b (b + sz) id p) IntComp)) s' Q).
  { intros s' tr Et Htr He. unfold on_map_tree. apply wp_bind, wp_gets. cbn [Datatypes.id]. apply wp_bind. eapply wp_lift; [exact Et|].
    pose proof (rbtree_insert_ok malloc malloc_fresh tr N b (MmapNode b (b + sz) id p) Htr) as Hw. apply wp_Some in Hw as (r & tr' & Eo & Hr). apply wp_bind. eapply wp_lift; [exact Eo|]. cbn. apply wp_bind, wp_modify, wp_ret.
    rewrite He. destruct r. by apply HQ. }
  unfold maptree in HN. destruct (map_tree s) as [tr|] eqn:Et.
  - apply wp_ret. by eapply Hins.
  - subst N. apply wp_modify. eapply Hins; [done|apply rb_map_empty|done].
Qed.

(** The process counts a new map; its file of data is new. *)
Definition counted I : img := set_proc I (set_p_num_mmaps (p_num_mmaps (i_proc I) + 1) (i_proc I)).

Lemma vol_new_map s I st r sz tr N v :
  vol s I st → v = p_num_mmaps (i_proc I) + 1 → 0 ≤ p_num_mmaps (i_proc I) → 0 < sz < 2 ^ 32 → maps s !! r = None → (∀ w, w ∈ i_ix I → w ≠ v) →
  (∀ b x, N !! b = Some x → node_ok (maps s) (proc_vmas s) I b x) → (∀ b1 b2 x1 x2, N !! b1 = Some x1 → N !! b2 = Some x2 → n_map_id x1 = n_map_id x2 → b1 = b2) →
  rb_map tr (<[r := MmapNode r (r + sz) v pid0]> N) →
  vol (set_proc_vmas (<[v := sz]> (proc_vmas s)) (set_map_tree (Some tr) (set_maps (<[r := (fdata v, sz)]> (maps s)) s))) (counted I) st.
Proof.
  intros [V1 V2 V3 V4 V5 V6 V7 V8 V9 V10 V11 V12 V13 V14 V15 V16] Ev Hnum Hsz Hr Hix HN Hu Htr. assert (Hsub : maps s ⊆ <[r := (fdata v, sz)]> (maps s)) by (by apply insert_subseteq). constructor; try assumption; cbn [maps set_proc_vmas set_map_tree set_maps].
  - destruct V3 as (pp & Hp & Hpp). exists pp. split; [done|by eapply points_mono].
  - by eapply points_mono.
  - destruct V5 as (M & H1 & H2 & H3 & H4 & H5). exists M. split_and!; [done..| |done]. intros w a Ea. destruct (H4 w a Ea) as (kk & Hk & Hp). exists kk. split; [done|by eapply points_mono].
  - intros w Hw Hi. destruct (V6 w Hw Hi) as [C HC]. exists C. by eapply ctree_grow.
  - intros w Hw. eapply points_mono; [done|by apply V8].
  - intros w Hw. eapply points_mono; [done|by apply V9].
  - exists (<[r := MmapNode r (r + sz) v pid0]> N). split_and!; [done| |].
    { intros b x [[<- <-]|[Hne Eb]]%lookup_insert_Some.
    + constructor; cbn; [done|lia|rewrite lookup_insert_eq; do 2 f_equal; lia|lia|rewrite lookup_insert_eq; f_equal; lia|]. intros Hin. by destruct (Hix v).
    + pose proof (HN b x Eb) as Hx. eapply node_grow; [exact Hx|done|cbn; lia|done|done|]. cbn. apply lookup_insert_ne. pose proof (no_id _ _ _ _ _ Hx). lia. }
    intros b1 b2 x1 x2 [[<- <-]|[Hn1 E1]]%lookup_insert_Some [[<- <-]|[Hn2 E2]]%lookup_insert_Some Eid; [done| | |by eapply Hu]; cbn in Eid.
    + pose proof (no_id _ _ _ _ _ (HN _ _ E2)). lia.
    + pose proof (no_id _ _ _ _ _ (HN _ _ E1)). lia.
  - intros b w len [[_ E%(f_equal fst)%fdata_inj]|[Hne Eb]]%lookup_insert_Some; cbn; [lia|]. pose proof (V15 _ _ _ Eb). lia.
  - intros b w len [[_ E%(f_equal fst)]|[Hne Eb]]%lookup_insert_Some; [by destruct (fmeta_fdata w v)|]. by eapply V16.
Qed.

Lemma wp_mmap n k s I st sz (Q : Z → nvstate → Prop) :
  good n k s I st → k + 1 < 2 ^ 31 → 0 < sz < 2 ^ 32 →
  (∀ r s' N, let v := p_num_mmaps (i_proc I) + 1 in good n (k + 1) s' (counted I) st → objnamemap s' = objnamemap s → maptree (map_tree s) N → maptree (map_tree s') (<[r := MmapNode r (r + sz) v pid0]> N) →
     0 < r → maps s !! r = None → maps s' = <[r := (fdata v, sz)]> (maps s) → Q r s') → wp (_mmap malloc mmap 0 sz pid0) s Q.
Proof using malloc_fresh mmap_fresh.
  intros Hg Hk Hsz HQ. pose proof Hg as [D W Mp V ? ?]. pose proof (g_num _ _ _ W) as Hnum. unfold _mmap. apply wp_bind, wp_check; [done|]. destruct (proc_found _ _ _ _ _ Hg) as (pp & Hr & Hp & Hpp).
  apply wp_bind. eapply wp_find_proc_obj; [done..|]. rewrite (is_null_points _ _ _ _ _ Hg _ _ _ Hp). apply wp_bind, wp_ret. apply wp_bind. eapply wp_get_proc; [done..|].
  apply wp_bind, wp_check; [apply Z.ltb_lt; lia|]. cbv zeta. apply wp_bind. eapply wp_upd_proc; [done|exact Hp|apply D|done|apply D|]. set (v := p_num_mmaps (i_proc I) + 1).
  change (set_p_num_mmaps v (i_proc I)) with (i_proc (counted I)). set (s1 := set_files _ s). assert (Hix : ∀ w, w ∈ i_ix I → w ≠ v) by (intros w Hw; pose proof (g_ix _ _ _ W w Hw); lia).
  apply wp_bind, wp_modify. fold (fdata v). rewrite u32_small by (unfold is_u32; lia). change (<[fdata v := File sz ∅ (λ _, 0)]> (files s1)) with (fnew (fdata v) sz (files s1)). set (s2 := set_files _ s1).
  assert (Hm2 : maps_ok (maps s2) (files s2)). { apply maps_ok_fnew; [by apply maps_ok_fput|]. intros b len E. pose proof (v_fdata _ _ _ V _ _ _ E). lia. }
  assert (D2 : disk (files s2) (counted I)). { apply disk_fnew_data; [by apply disk_proc|]. intros Hin. by apply (Hix v). }
  apply wp_bind. unfold mmap_wrap. apply wp_bind. eapply (wp_os_mmap mmap mmap_fresh); [exact Hm2|apply size_fnew|lia|]. intros r Hrf Hr0 Hrn Hm3 Hsub. apply wp_bind, wp_check; [unfold not_null; by rewrite (proj2 (Z.eqb_neq _ _)) by lia|]. apply wp_ret.
  apply wp_bind, wp_check; [unfold not_null; by rewrite (proj2 (Z.eqb_neq _ _)) by lia|]. destruct (v_map _ _ _ V) as (N & HN & Hnodes & Huniq). apply wp_bind. eapply (wp_insert_node _ N); [exact HN|]. intros tr Htr. apply wp_bind, wp_modify, wp_ret.
  apply (HQ _ _ N); [|done|done|exact Htr|done|done|done].
  constructor; [exact D2| |exact Hm3| |done|done].
  - pose proof (g_ix _ _ _ W) as Hgi. destruct W. constructor; try assumption; cbn; [lia|]. intros w Hw. pose proof (Hgi w Hw). lia.
  - pose proof (vol_new_map s I st r sz tr N v V eq_refl ltac:(lia) Hsz Hrn Hix Hnodes Huniq Htr) as Hv. exact (vol_files _ _ _ (files s2) Hv).
Qed.

(** ** The mapping around an address *)

Lemma wp_locate s I N b x a (Q : Z * Z → nvstate → Prop) :
  maps_ok (maps s) (files s) → maptree (map_tree s) N → (∀ b x, N !! b = Some x → node_ok (maps s) (proc_vmas s) I b x) → N !! b = Some x → b ≤ a < n_end_addr x →
  Q (u32 (n_map_id x), b) s → wp (locate_mmapobj_node a) s Q.
Proof.
  intros Hm HN Hn Eb Ha HQ. unfold maptree in HN. destruct (map_tree s) as [tr|] eqn:Et; [|by subst N].
  assert (Hap : ∀ b1 x1 b2 x2, N !! b1 = Some x1 → N !! b2 = Some x2 → b1 < b2 → n_end_addr x1 ≤ b2).
  { intros b1 x1 b2 x2 E1 E2 Hlt. pose proof (Hn _ _ E1) as H1. pose proof (Hn _ _ E2) as H2. pose proof (no_len _ _ _ _ _ H2). destruct (mo_apart _ _ Hm _ _ _ _ (no_map _ _ _ _ _ H1) (no_map _ _ _ _ _ H2) ltac:(lia)); cbn in *; lia. }
  pose proof (rbtree_lookup_by tr N a CompRange (λ y, if (y.1 <? a) && (a <? n_end_addr y.2) then 0 else if y.1 <? a then 1 else if a <? y.1 then -1 else 0) HN ltac:(done)) as Hw.
  apply wp_Some in Hw as (o & tr' & Eo & -> & Ho).
  2: { intros [b1 x1] [b2 x2] E1 E2 Hlt. cbn in *. pose proof (Hap _ _ _ _ E1 E2 Hlt). pose proof (no_len _ _ _ _ _ (Hn _ _ E2)).
       destruct (Z.ltb_spec b1 a), (Z.ltb_spec a (n_end_addr x1)), (Z.ltb_spec a b1), (Z.ltb_spec b2 a), (Z.ltb_spec a (n_end_addr x2)), (Z.ltb_spec a b2); cbn; lia. }
  assert (o = Some x) as ->.
  { destruct o as [y|].
    - destruct Ho as (b' & Eb' & Hg). cbn in Hg. f_equal. pose proof (no_len _ _ _ _ _ (Hn _ _ Eb')). assert (b' ≤ a < n_end_addr y) as Hy by (destruct (Z.ltb_spec b' a), (Z.ltb_spec a (n_end_addr y)), (Z.ltb_spec a b'); cbn in Hg; lia).
      destruct (Z.lt_trichotomy b b') as [Hlt|[->|Hlt]]; [pose proof (Hap _ _ _ _ Eb Eb' Hlt); lia|congruence|pose proof (Hap _ _ _ _ Eb' Eb Hlt); lia].
    - exfalso. apply (Ho (b, x) Eb). cbn. destruct (Z.ltb_spec b a), (Z.ltb_spec a (n_end_addr x)), (Z.ltb_spec a b); cbn; lia. }
  unfold locate_mmapobj_node, on_map_tree. apply wp_bind, wp_bind, wp_gets. cbn [Datatypes.id]. apply wp_bind. eapply wp_lift; [exact Et|]. apply wp_bind. eapply wp_lift; [exact Eo|]. cbn [wp]. apply wp_bind, wp_modify, wp_ret, wp_ret.
  rewrite (no_start _ _ _ _ _ (Hn _ _ Eb)). replace (set_map_tree (Some tr) s) with s by (rewrite <- Et; by destruct s). done.
Qed.

(** ** The structure of a map *)

Definition set_mo I v (m : mmapobj_s) : img := Img (i_proc I) (i_ix I) (λ w, if decide (w = v) then m else i_mo I w) (i_ch I) (i_by I).

Lemma set_mo_eq I v m : i_mo (set_mo I v m) v = m.
Proof. cbn. by rewrite decide_True. Qed.
Lemma set_mo_ne I v m w : w ≠ v → i_mo (set_mo I v m) w = i_mo I w.
Proof. intros. cbn. by rewrite decide_False. Qed.

Lemma disk_mo fs I kk v m :
  disk fs I → NoDup (i_ix I) → i_ix I !! kk = Some v → m_length m = m_length (i_mo I v) →
  (∀ j, 0 ≤ j < m_numchunks m → rec_at fs (fmeta v) (ch_off j) = Some (RChunk (i_ch I v j))) →
  disk (fput fproc (mo_off kk) (RMmap m) fs) (set_mo I v m).
Proof.
  intros [Ds Dp Dm Df De Dt Dc Dd Db] Hnd Hk El Hch. set (fs' := fput _ _ _ _). assert (Hm : ∀ w o, rec_at fs' (fmeta w) o = rec_at fs (fmeta w) o) by (intros; apply rec_fput_ne; auto with nv).
  pose proof (lookup_lt_Some _ _ _ Hk) as Hlt. constructor; cbn; intros; unfold fs' in *; rewrite ?size_fput, ?byte_fput, ?Hm in *; eauto.
  - rewrite rec_fput_ne; [done|right]. pose proof (mo_off_pos kk). lia.
  - case_decide as Hw.
    + subst. assert (k = kk) as -> by (by eapply NoDup_lookup). rewrite rec_fput; [done|by rewrite Ds].
    + rewrite rec_fput_ne; [by apply Dm|right; intros ->%mo_off_inj; congruence].
  - rewrite rec_fput_ne; [by apply Df|right]. unfold mo_off in *. unfold sizeof_mmapobj in *. lia.
  - case_decide as Hw; [subst; by apply Hch|by apply Dc].
  - case_decide as Hw; [subst; rewrite El|]; by apply Dd.
Qed.

Definition new_map I v p m fs : img := Img p (i_ix I ++ [v]) (λ w, if decide (w = v) then m else i_mo I w) (i_ch I) (λ w, if decide (w = v) then byte_at fs (fdata v) else i_by I w).

Lemma disk_new_map fs I v p m :
  disk fs I → v ∉ i_ix I → m_numchunks m = 0 → size_at fs (fdata v) = Some (m_length m) →
  disk (fnew (fmeta v) MMAP_METADATA_SZ (fput fproc (mo_off (length (i_ix I))) (RMmap m) (fput fproc 0 (RProc p) fs))) (new_map I v p m fs).
Proof.
  intros [Ds Dp Dm Df De Dt Dc Dd Db] Hv Hn Hs. pose proof (mo_off_pos (length (i_ix I))) as Hpos. set (o := mo_off (length (i_ix I))) in *. set (fs1 := fput fproc o _ _). set (fs' := fnew _ _ _).
  assert (Hmr : ∀ w x, w ≠ v → rec_at fs' (fmeta w) x = rec_at fs (fmeta w) x) by (intros w x Hw; unfold fs', fs1; rewrite rec_fnew_ne, !rec_fput_ne by (auto with nv || (intros ?%fmeta_inj; done)); done).
  assert (Hpr : ∀ x, x ≠ 0 → x ≠ o → rec_at fs' fproc x = rec_at fs fproc x) by (intros; unfold fs', fs1; rewrite rec_fnew_ne, !rec_fput_ne by auto with nv; done).
  assert (Hsz : ∀ g, g ≠ fmeta v → size_at fs' g = size_at fs g) by (intros; unfold fs', fs1; by rewrite size_fnew_ne, !size_fput by done).
  assert (Hby : ∀ g x, g ≠ fmeta v → byte_at fs' g x = byte_at fs g x) by (intros; unfold fs', fs1; by rewrite byte_fnew_ne, !byte_fput by done).
  assert (Hin : ∀ w, w ∈ i_ix I ++ [v] → w = v ∨ (w ∈ i_ix I ∧ w ≠ v)) by (intros w; rewrite elem_of_app, list_elem_of_singleton; destruct (decide (w = v)); naive_solver).
  constructor; cbn.
  - rewrite Hsz by auto with nv. done.
  - unfold fs', fs1. rewrite rec_fnew_ne by auto with nv. rewrite rec_fput_ne by (right; lia). rewrite rec_fput; [done|by rewrite Ds].
  - intros kk w [Hk|[Hge Hk]]%lookup_app_Some.
    + rewrite decide_False by (intros ->; apply Hv; by eapply list_elem_of_lookup_2). pose proof (lookup_lt_Some _ _ _ Hk). pose proof (mo_off_pos kk). rewrite Hpr; [by apply Dm|lia|]. unfold o. intros ?%mo_off_inj. lia.
    + apply list_lookup_singleton_Some in Hk as [Hk <-]. rewrite decide_True by done. replace kk with (length (i_ix I)) by lia. fold o. unfold fs'. rewrite rec_fnew_ne by auto with nv. unfold fs1. rewrite rec_fput; [done|]. by rewrite size_fput, Ds.
  - intros x Hx. rewrite length_app in Hx. cbn in Hx. assert (o < x) by (unfold o, mo_off, sizeof_mmapobj in *; lia). rewrite Hpr by lia. apply Df. fold o. lia.
  - intros w [->|[Hw Hne]]%Hin; [apply size_fnew|]. rewrite Hsz by (intros ?%fmeta_inj; done). by apply De.
  - intros w x r [->|[Hw Hne]]%Hin; [unfold fs'; by rewrite rec_fnew|]. rewrite Hmr by done. by apply Dt.
  - intros w j [->|[Hw Hne]]%Hin; [rewrite decide_True by done; lia|]. rewrite decide_False, Hmr by done. by apply Dc.
  - intros w [->|[Hw Hne]]%Hin; rewrite Hsz by auto with nv; [by rewrite decide_True|]. rewrite decide_False by done. by apply Dd.
  - intros w x [->|[Hw Hne]]%Hin; rewrite Hby by auto with nv; [by rewrite decide_True|]. rewrite decide_False by done. by apply Db.
Qed.

(** A map that gets its trees and mappings: a new one, or one that is read from the files. *)
Lemma vol_new_mo s I st v p m by' a tr M T' mp' :
  vol s I st → v ∉ i_ix I → v ≤ p_num_mmaps (i_proc I) →
  p_mmapobj_tree p = p_mmapobj_tree (i_proc I) → p_mmapobj_initialized p = p_mmapobj_initialized (i_proc I) → p_num_mmaps p = p_num_mmaps (i_proc I) → m_numchunks m = 0 →
  (m_chunk_tree_init m ≠ 0 → m_chunkobj_tree m ≠ 0 ∧ trees s !! m_chunkobj_tree m = None ∧ T' !! m_chunkobj_tree m = Some rbtree_create) →
  maps s ⊆ mp' → (∀ b f len, mp' !! b = Some (f, len) → maps s !! b = Some (f, len) ∨ f = fmeta v ∨ f = fdata v) →
  points mp' (m_strt_addr m) (fmeta v) 0 → points mp' (m_data_addr m) (fdata v) 0 →
  ptree (maps s) (trees s) I M → T' !! p_mmapobj_tree (i_proc I) = Some tr → (∀ x y, x ≠ p_mmapobj_tree (i_proc I) → trees s !! x = Some y → T' !! x = Some y) → rb_map tr (<[v := a]> M) →
  points mp' a fproc (mo_off (length (i_ix I))) →
  (∀ N b x, maptree (map_tree s) N → N !! b = Some x → n_map_id x = v → m_data_addr m = b ∧ m_length m = n_end_addr x - b ∧ m_chunk_tree_init m ≠ 0) →
  vol (set_trees T' (set_maps mp' s)) (Img p (i_ix I ++ [v]) (λ w, if decide (w = v) then m else i_mo I w) (i_ch I) by') st.
Proof using Type.
  clear malloc_fresh mmap_fresh mmap malloc.
  intros [V1 V2 V3 V4 V5 V6 V7 V8 V9 V10 V11 V12 V13 V14 V15 V16] Hv Hnum Ept Epi Epn Hm0 Hmt Hsub Hmp Hms Hmd (H1 & H2 & (tr0 & Etr0 & HM) & H4 & H5) Etr Hother Htr Ha Hnode. set (I' := Img _ _ _ _ _).
  assert (Hin : ∀ w, w ∈ i_ix I ++ [v] → w = v ∨ (w ∈ i_ix I ∧ w ≠ v)) by (intros w; rewrite elem_of_app, list_elem_of_singleton; destruct (decide (w = v)); naive_solver).
  assert (Hmo : ∀ w, w ≠ v → i_mo I' w = i_mo I w) by (intros; cbn; by rewrite decide_False). assert (Hmv : i_mo I' v = m) by (cbn; by rewrite decide_True).
  assert (Hl : ∀ w j, live I' w j ↔ live I w j).
  { intros w j. unfold live. cbn [i_ix I']. destruct (decide (w = v)) as [->|Hne]; [rewrite Hmv; split; [lia|naive_solver]|]. rewrite (Hmo w Hne). rewrite elem_of_app, list_elem_of_singleton. naive_solver. }
  assert (Hlv : ∀ w j, live I' w j → w ≠ v) by (intros w j Hw%Hl ->; by apply Hv, Hw).
  assert (Hold : ∀ w, w ∈ i_ix I → m_chunk_tree_init (i_mo I w) ≠ 0 → is_Some (trees s !! m_chunkobj_tree (i_mo I w))). { intros w Hw Hi. destruct (V6 w Hw Hi) as [C HC]. destruct (ct_tree _ _ _ _ _ _ HC) as (_ & _ & tr' & E' & _). eauto. }
  constructor; cbn [maps set_trees set_maps trees map_tree proc_vmas]; try assumption.
  - destruct V3 as (pp & Hp & Hpp). exists pp. split; [done|by eapply points_mono].
  - by eapply points_mono.
  - exists (<[v := a]> M). unfold ptree. cbn [i_proc I' i_ix]. rewrite Ept, Epi. split_and!; [done|done|by exists tr| |].
    + intros w a' [[<- <-]|[Hne Ea]]%lookup_insert_Some; [exists (length (i_ix I)); split; [by apply list_lookup_middle|done]|].
      destruct (H4 w a' Ea) as (kk & Hk & Hp). exists kk. split; [apply lookup_app_Some; by left|by eapply points_mono].
    + intros w [->|[Hw Hne]]%Hin; [by rewrite lookup_insert_eq|]. rewrite lookup_insert_ne by done. by apply H5.
  - cbn [i_ix I']. intros w [->|[Hw Hne]]%Hin Hi.
    + rewrite Hmv in Hi. destruct (Hmt Hi) as (Ht0 & _ & Ht). exists ∅. constructor; [|done|intros j Hj; by destruct (Hlv v j)]. unfold vtree. rewrite Hmv. split_and!; [done|done|]. exists rbtree_create. split; [done|apply rb_map_empty].
    + rewrite Hmo in Hi by done. destruct (V6 w Hw Hi) as [C HC]. exists C. constructor.
      * destruct (ct_tree _ _ _ _ _ _ HC) as (Hi' & Hn' & tr' & E' & HC'). unfold vtree. rewrite Hmo by done. split_and!; [done|done|]. exists tr'. split; [|done]. apply Hother; [by apply V12|done].
      * intros id x E. destruct (ct_sound _ _ _ _ _ _ HC id x E) as (j & Hj & Hp & Hor). exists j. rewrite Hmo, Hl by done. split_and!; [apply Hj|apply Hj|by eapply points_mono|done].
      * intros j Hj%Hl. destruct (ct_complete _ _ _ _ _ _ HC j Hj) as (x & E & Hp). exists x. split; [done|by eapply points_mono].
  - intros w [->|[Hw Hne]]%Hin; [by rewrite Hmv|]. rewrite Hmo by done. by apply V7.
  - intros w [->|[Hw Hne]]%Hin; [by rewrite Hmv|]. rewrite Hmo by done. eapply points_mono; [done|by apply V8].
  - intros w [->|[Hw Hne]]%Hin; [by rewrite Hmv|]. rewrite Hmo by done. eapply points_mono; [done|by apply V9].
  - intros w j Hj. rewrite Hmo by (by eapply Hlv). apply V10. by apply Hl.
  - intros w1 w2 [->|[Hw1 Hne1]]%Hin [->|[Hw2 Hne2]]%Hin; rewrite ?Hmv, ?Hmo by done; [done| | |by apply V11]; intros Hi1 Hi2 E; exfalso.
    + destruct (Hmt Hi1) as (_ & Ht & _). destruct (Hold w2 Hw2 Hi2) as [? E']. congruence.
    + destruct (Hmt Hi2) as (_ & Ht & _). destruct (Hold w1 Hw1 Hi1) as [? E']. congruence.
  - cbn [i_proc I']. rewrite Ept. intros w [->|[Hw Hne]]%Hin; [rewrite Hmv; intros Hi; destruct (Hmt Hi) as (_ & Ht & _); congruence|rewrite Hmo by done; by apply V12].
  - destruct V13 as (N & HN & Hx & Hu). exists N. split_and!; [done| |done]. intros b x Eb. destruct (Hx b x Eb) as [N1 N2 N3 N4 N5 N6]. constructor; cbn [i_proc i_ix I']; rewrite ?Epn; [done|done|by eapply lookup_weaken|done|done|].
    intros [E|[Hw Hne]]%Hin; [|rewrite Hmo by done; by apply N6]. rewrite E, Hmv. by apply (Hnode N b x HN Eb).
  - intros w j Hj%Hl. by apply V14.
  - cbn [i_proc I']. rewrite Epn. intros b w len [Eb|[E|E%fdata_inj]]%Hmp; [by eapply V15|by destruct (fmeta_fdata v w)|lia].
  - cbn [i_ix I']. intros b w len [Eb|[E%fmeta_inj|E]]%Hmp; apply elem_of_app; [left; by eapply V16|right; apply list_elem_of_singleton; congruence|by destruct (fmeta_fdata w v)].
Qed.

(** ** Making the structure of a map *)

Lemma disk_ext fs I I' : disk fs I → i_proc I' = i_proc I → i_ix I' = i_ix I → (∀ v, i_mo I' v = i_mo I v) → (∀ v j, i_ch I' v j = i_ch I v j) → (∀ v o, i_by I' v o = i_by I v o) → disk fs I'.
Proof.
  intros [Ds Dp Dm Df De Dt Dc Dd Db] Ep Ei Em Ec Eb. constructor; intros; rewrite ?Ep, ?Ei, ?Em, ?Ec, ?Eb in *; eauto.
Qed.

Section new.
Context (I : img) (v : Z) (fs0 : gmap string file) (a : Z).
Hypothesis Hnd : NoDup (i_ix I).
Hypothesis Hv : v ∉ i_ix I.
Hypothesis Hroom : mo_off (length (i_ix I)) + sizeof_mmapobj ≤ PROC_METADAT_SZ.
Let o := mo_off (length (i_ix I)).

Lemma disk_upd_new p m m' fs :
  disk fs (new_map I v p m fs0) → m_length m' = m_length m → m_numchunks m' = m_numchunks m → disk (fput fproc o (RMmap m') fs) (new_map I v p m' fs0).
Proof using Hnd Hv.
  intros D El En. eapply disk_ext; [eapply (disk_mo _ _ (length (i_ix I)) v m' D)|done|done| |done|done].
  - cbn. apply NoDup_app. split_and!; [done| |apply NoDup_singleton]. intros x Hx ->%list_elem_of_singleton. done.
  - cbn. by apply list_lookup_middle.
  - cbn. by rewrite decide_True.
  - intros j Hj. assert (Hvin : v ∈ i_ix (new_map I v p m fs0)) by (cbn; apply elem_of_app; right; by apply list_elem_of_singleton).
    rewrite (d_ch _ _ D v j Hvin); [done|]. cbn. rewrite decide_True by done. lia.
  - intros w. cbn. by case_decide.
Qed.

Context (s : nvstate) (p : proc_s) (m : mmapobj_s).
Hypothesis Hm : maps_ok (maps s) (files s).
Hypothesis D : disk (files s) (new_map I v p m fs0).
Hypothesis Hp : points (maps s) a fproc o.

Lemma rec_new : rec_at (files s) fproc o = Some (RMmap m).
Proof using D. unfold o. rewrite (d_mo _ _ D (length (i_ix I)) v); [cbn; by rewrite decide_True|cbn; by apply list_lookup_middle]. Qed.

Lemma wp_load_new (Q : mmapobj_s → nvstate → Prop) : Q m s → wp (load_mmapobj a) s Q.
Proof using D Hm Hp Hroom. intros HQ. eapply wp_load_mmapobj; [exact Hm|exact Hp|apply D|exact Hroom|apply rec_new|done]. Qed.

Lemma wp_upd_new g (Q : unit → nvstate → Prop) :
  m_length (g m) = m_length m → m_numchunks (g m) = m_numchunks m →
  (∀ fs', disk fs' (new_map I v p (g m) fs0) → maps_ok (maps s) fs' → Q tt (set_files fs' s)) → wp (upd_mmapobj a g) s Q.
Proof using D Hm Hp Hroom Hnd Hv. intros El En HQ. eapply wp_upd_mmapobj; [exact Hm|exact Hp|apply D|exact Hroom|apply rec_new|]. apply HQ; [by eapply disk_upd_new|by apply maps_ok_fput]. Qed.
End new.

Lemma set_files_twice fs fs' s : set_files fs (set_files fs' s) = set_files fs s.
Proof. done. Qed.

(** The state that [add_mmapobj_to_proc] leaves. *)
Definition made n k s I st v b len (s' : nvstate) (a : Z) : Prop :=
  ∃ I', good (n + 1) k s' I' st ∧ i_ix I' = i_ix I ++ [v] ∧ i_ch I' = i_ch I ∧ (∀ w, w ∈ i_ix I → i_mo I' w = i_mo I w ∧ i_by I' w = i_by I w) ∧
  m_numchunks (i_mo I' v) = 0 ∧ m_data_addr (i_mo I' v) = b ∧ m_length (i_mo I' v) = len ∧ m_chunk_tree_init (i_mo I' v) = 1 ∧
  points (maps s') a fproc (mo_off (length (i_ix I))) ∧ map_tree s' = map_tree s ∧ objnamemap s' = objnamemap s.

Lemma points_insert_ne mp r x b f o : points mp b f o → mp !! r = None → points (<[r := x]> mp) b f o.
Proof. intros Hp Hr. eapply points_mono; [by apply insert_subseteq|done]. Qed.

Lemma gwf_new_map n k I v p m fs :
  gwf n k I → v ∉ i_ix I → 1 ≤ v ≤ p_num_mmaps (i_proc I) → n < MAX_RECORDS →
  p_pid p = p_pid (i_proc I) → p_pesist_mmaps p = p_pesist_mmaps (i_proc I) + 1 → p_meta_offset p = p_meta_offset (i_proc I) + sizeof_mmapobj → p_num_mmaps p = p_num_mmaps (i_proc I) →
  m_vma_id m = v → m_proc_id m = pid0 → m_numchunks m = 0 → m_meta_offset m = 0 → 0 < m_length m < 2 ^ 32 →
  gwf (n + 1) k (new_map I v p m fs).
Proof.
  intros [G1 G2 G3 G4 G5 G6 G7 G8 G9 G10 G11] Hv Hnum Hn E1 E2 E3 E4 M1 M2 M3 M4 M5.
  assert (Hin : ∀ w, w ∈ i_ix I ++ [v] → w = v ∨ (w ∈ i_ix I ∧ w ≠ v)) by (intros w; rewrite elem_of_app, list_elem_of_singleton; destruct (decide (w = v)); naive_solver).
  assert (Hl : ∀ w j, live (new_map I v p m fs) w j → live I w j ∧ w ≠ v).
  { intros w j ([->|[Hw Hne]]%Hin & Hj & Hval); [cbn in Hj; rewrite decide_True in Hj by done; lia|]. cbn in Hj. rewrite decide_False in Hj by done. done. }
  constructor; cbn.
  - congruence.
  - rewrite length_app. cbn. lia.
  - rewrite E3, G3, length_app. cbn. unfold mo_off, sizeof_mmapobj. lia.
  - rewrite length_app. cbn. lia.
  - lia.
  - apply NoDup_app. split_and!; [done| |apply NoDup_singleton]. intros x Hx ->%list_elem_of_singleton. done.
  - intros w [->|[Hw Hne]]%Hin; [lia|]. pose proof (G7 w Hw). lia.
  - intros w [->|[Hw Hne]]%Hin.
    + rewrite decide_True by done. rewrite M3, M4. pose proof (Zle_0_nat (length (i_ix I))). unfold ch_off. split_and!; [done..|lia|lia|lia|lia|lia].
    + rewrite decide_False by done. destruct (G8 w Hw) as (? & ? & ? & ? & ?). split_and!; [done..|lia|lia|done|lia|lia].
  - intros w j [Hw Hne]%Hl. rewrite decide_False by done. by apply G9.
  - intros w j w' j' [Hw _]%Hl [Hw' _]%Hl. by apply G10.
  - intros w j j' [Hw _]%Hl [Hw' _]%Hl. by apply G11.
Qed.

(** The structure of a new map, mapped at [r], with its tree at [t]. *)
Record mo_new v b len r t (m : mmapobj_s) : Prop := {
  mn_vma : m_vma_id m = v; mn_proc : m_proc_id m = pid0; mn_nc : m_numchunks m = 0; mn_off : m_meta_offset m = 0; mn_len : m_length m = len;
  mn_data : m_data_addr m = b; mn_strt : m_strt_addr m = r; mn_tree : m_chunkobj_tree m = t; mn_init : m_chunk_tree_init m = 1
}.

Lemma new_room n k s I st : good n k s I st → n < MAX_RECORDS → mo_off (length (i_ix I)) + sizeof_mmapobj ≤ PROC_METADAT_SZ.
Proof using Type. intros [_ W _ _ _ _] Hn. pose proof (g_ixn _ _ _ W). unfold MAX_RECORDS, mo_off, sizeof_proc, sizeof_mmapobj, PROC_METADAT_SZ in *. lia. Qed.

Lemma wp_create_map n k s I st v b len pp (Q : rqst_s * Z → nvstate → Prop) :
  good n k s I st → n < MAX_RECORDS → v ∉ i_ix I → 1 ≤ v ≤ p_num_mmaps (i_proc I) → points (maps s) pp fproc 0 → maps s !! b = Some (fdata v, len) →
  (∀ rq a r t m fs, let o := mo_off (length (i_ix I)) in let mp := <[r := (fmeta v, MMAP_METADATA_SZ)]> (maps s) in r_bytes rq = MMAP_METADATA_SZ → points (maps s) a fproc o → mo_new v b len r t m →
     maps s !! r = None → trees s !! t = None → t ≠ 0 → maps_ok mp fs → disk fs (new_map I v (set_p_meta_offset (u32 (o + sizeof_mmapobj)) (i_proc I)) m (files s)) →
     Q (rq, a) (set_files fs (set_trees (<[t := rbtree_create]> (trees s)) (set_maps mp s)))) →
  wp (create_mmapobj malloc mmap (Rqst len "" v pid0 0 0 0) 0 pp b) s Q.
Proof using malloc_fresh mmap_fresh.
  intros Hg Hn Hv Hvn Hpp N3 HQ. pose proof Hg as [D W Mp V ? ?]. pose proof (g_num _ _ _ W) as Hnum. pose proof (g_nd _ _ _ W) as Hnd. pose proof (new_room _ _ _ _ _ Hg Hn) as Hroom. set (o := mo_off (length (i_ix I))) in *.
  unfold create_mmapobj. apply wp_bind, wp_check; [by eapply nonnull_points|]. apply wp_bind, wp_gets. cbn [id].
  pose proof (v_start _ _ _ V) as Hst. apply wp_bind, wp_check; [by eapply nonnull_points|]. apply wp_bind. eapply wp_get_proc; [done..|]. cbv zeta. rewrite (g_moff _ _ _ W). fold o.
  set (a := proc_map_start s + o). assert (Ha : points (maps s) a fproc o). { pose proof (points_add _ _ _ _ 0 o _ Mp Hst (d_size _ _ D) ltac:(pose proof (mo_off_pos (length (i_ix I))); unfold sizeof_mmapobj in *; lia)) as Hp. by rewrite Z.add_0_l in Hp. }
  (* the process and the new structure, before the file of metadata is there *)
  apply wp_bind. eapply wp_upd_proc; [exact Mp|exact Hpp|apply D|done|apply D|]. set (p1 := set_p_meta_offset _ (i_proc I)). set (s1 := set_files _ s).
  assert (Hm1 : maps_ok (maps s1) (files s1)) by (by apply maps_ok_fput). assert (Hs1 : size_at (files s1) fproc = Some PROC_METADAT_SZ) by (cbn; rewrite size_fput; apply D). pose proof (mo_off_pos (length (i_ix I))) as Hopos. fold o in Hopos.
  apply wp_bind. eapply wp_upd_mmapobj_new; [exact Hm1|exact Ha|exact Hs1|exact Hroom|cbn; rewrite rec_fput_ne by (right; lia); by apply (d_free _ _ D)|]. cbn [r_id r_bytes r_pid]. set (m1 := set_m_ids _ _ _ _ _ _). set (s2 := set_files _ s1).
  assert (Hm2 : maps_ok (maps s2) (files s2)) by (by apply maps_ok_fput).
  apply wp_bind. eapply wp_load_mmapobj; [exact Hm2|exact Ha|exact (eq_trans (size_fput _ _ _ _ _) Hs1)|exact Hroom|exact (rec_fput fproc o (RMmap m1) (files s1) (mk_is_Some _ _ Hs1))|].
  assert (Ev : m_vma_id m1 = v) by (cbn; apply u32_small; unfold is_u32; lia). rewrite Ev. cbn [r_pid r_id set_r_bytes set_r_id r_bytes]. fold (fmeta v).
  apply wp_bind, wp_modify. change (u32 MMAP_METADATA_SZ) with MMAP_METADATA_SZ. change (<[fmeta v := File MMAP_METADATA_SZ ∅ (λ _, 0)]> (files s2)) with (fnew (fmeta v) MMAP_METADATA_SZ (files s2)). set (s3 := set_files _ s2).
  assert (Hm3 : maps_ok (maps s3) (files s3)). { apply maps_ok_fnew; [done|]. intros b' len' E. by apply Hv, (v_fmeta _ _ _ V _ _ _ E). }
  assert (Hsz : size_at (files s) (fdata v) = Some len) by (by eapply (mo_size _ _ Mp)). assert (D3 : disk (files s3) (new_map I v p1 m1 (files s))) by (by apply disk_new_map).
  (* the mapping of the file, the rest of the structure and its tree *)
  apply wp_bind. eapply (wp_os_mmap mmap mmap_fresh s3); [exact Hm3|apply size_fnew|done|]. intros r Hrf Hr0 Hrn Hm4 Hsub. set (s4 := set_maps _ s3). assert (Ha4 : points (maps s4) a fproc o) by (by eapply points_mono). assert (Hpp4 : points (maps s4) pp fproc 0) by (by eapply points_mono).
  apply wp_bind, wp_check; [by rewrite (proj2 (Z.eqb_neq _ _) Hrf)|].
  apply wp_bind. eapply (wp_upd_new I v (files s) a Hnd Hv Hroom s4 p1 m1 Hm4 D3 Ha4); [done..|]. intros fs5 D5 Hm5.
  apply wp_bind, wp_check; [apply Z.ltb_lt, strlen_fmeta; lia|].
  apply wp_bind. eapply (wp_upd_new I v (files s) a Hnd Hv Hroom (set_files fs5 s4) p1 _ Hm5 D5 Ha4); [done..|]. intros fs6 D6 Hm6. rewrite set_files_twice.
  assert (Ha0 : not_null a = true) by (by eapply nonnull_points).
  apply wp_bind. unfold init_chunk_tree. apply wp_bind, wp_check; [done|]. apply wp_bind. eapply (wp_new_tree malloc malloc_fresh). intros t Ht0 Ht. set (s7 := set_trees _ _).
  apply wp_bind. eapply (wp_upd_new I v (files s) a Hnd Hv Hroom s7 p1 _ Hm6 D6 Ha4); [done..|]. intros fs8 D8 Hm8.
  eapply (wp_upd_new I v (files s) a Hnd Hv Hroom (set_files fs8 s7) p1 _ Hm8 D8 Ha4); [done..|]. intros fs9 D9 Hm9. rewrite set_files_twice.
  apply wp_bind. eapply (wp_load_new I v (files s) a Hroom (set_files fs9 s7) p1 _ Hm9 D9 Ha4). apply wp_bind, wp_check; [cbn; unfold not_null; by rewrite (proj2 (Z.eqb_neq _ _) Ht0)|]. apply wp_ret.
  eapply (HQ _ a r t _ fs9); [done|exact Ha| |exact Hrn|exact Ht|exact Ht0|exact Hm9|exact D9]. by constructor.
Qed.

Lemma wp_add_map n k s I st v b len x N pp (Q : rqst_s * Z → nvstate → Prop) :
  good n k s I st → n < MAX_RECORDS → v ∉ i_ix I → points (maps s) pp fproc 0 →
  maptree (map_tree s) N → N !! b = Some x → n_map_id x = v → len = n_end_addr x - b →
  (∀ rq a s', r_bytes rq = MMAP_METADATA_SZ → made n k s I st v b len s' a → Q (rq, a) s') →
  wp (add_mmapobj_to_proc malloc mmap pp (Rqst len "" v pid0 0 0 0) 0 b) s Q.
Proof using malloc_fresh mmap_fresh.
  intros Hg Hn Hv Hpp HN Eb Eid Elen HQ. pose proof Hg as [D W Mp V ? ?]. destruct (v_map _ _ _ V) as (N' & HN' & Hnode & Huniq).
  assert (N' = N) as ->. { unfold maptree in *. destruct (map_tree s); [by eapply rb_map_unique|congruence]. }
  pose proof (Hnode b x Eb) as [N1 N2 N3 N4 N5 _]. rewrite Eid, <- Elen in *. pose proof (g_nd _ _ _ W) as Hnd. pose proof (new_room _ _ _ _ _ Hg Hn) as Hroom.
  unfold add_mmapobj_to_proc. apply wp_bind. eapply wp_create_map; [exact Hg|done|done|done|done|exact N3|]. cbv zeta. set (o := mo_off (length (i_ix I))) in *. intros rq a r t m5 fs9 Erq Ha [M1 M2 M3 M4 M5 M6 M7 M8 M9] Hrn Ht Ht0 Hm9 D9. set (p1 := set_p_meta_offset _ _) in *. set (s9 := set_files fs9 _). cbv beta iota.
  assert (Ha4 : points (maps s9) a fproc o) by (by apply points_insert_ne). assert (Hpp4 : points (maps s9) pp fproc 0) by (by apply points_insert_ne). assert (Hsub : maps s ⊆ maps s9) by (by apply insert_subseteq). assert (Ha0 : not_null a = true) by (by eapply nonnull_points).
  (* the tree of maps *)
  apply wp_bind, wp_check; [done|]. apply wp_bind. unfold add_mmapobj. rewrite (is_null_points _ _ _ _ _ Hg _ _ _ Ha), (is_null_points _ _ _ _ _ Hg _ _ _ Hpp). destruct (v_ptree _ _ _ V) as (M & HM). pose proof HM as (Hpi & Hpt & (tr & Etr & HMr) & _ & _).
  assert (Hlp : ∀ Q, Q p1 s9 → wp (load_proc pp) s9 Q) by (intros Q' HQ'; eapply wp_load_proc; [exact Hm9|exact Hpp4|apply D9|done|apply D9|exact HQ']).
  apply wp_bind, Hlp. change (p_mmapobj_initialized p1) with (p_mmapobj_initialized (i_proc I)). rewrite Hpi. cbn [is_null Z.eqb when]. apply wp_bind, wp_ret, wp_bind, Hlp.
  change (p_mmapobj_tree p1) with (p_mmapobj_tree (i_proc I)). apply wp_bind, wp_check; [unfold not_null; by rewrite (proj2 (Z.eqb_neq _ _) Hpt)|]. apply wp_bind. eapply (wp_load_new I v (files s) a Hroom s9 p1 _ Hm9 D9 Ha4). rewrite M1.
  apply wp_bind. eapply (wp_insert_at malloc malloc_fresh _ tr M); [cbn [trees set_files s9 set_trees]; rewrite lookup_insert_ne by congruence; exact Etr|exact HMr|]. intros tr' Htr'. set (s10 := set_trees _ _).
  apply wp_bind. eapply (wp_upd_new I v (files s) a Hnd Hv Hroom s10 p1 _ Hm9 D9 Ha4); [done..|]. intros fs11 D11 Hm11. apply wp_ret.
  apply wp_bind. eapply wp_upd_proc; [exact Hm11|exact Hpp4|apply D11|done|apply D11|]. cbn [i_proc new_map]. apply wp_ret. apply HQ; [done|].
  set (p2 := set_p_pesist_mmaps _ p1). set (m6 := set_m_proc_obj pp m5) in *. exists (new_map I v p2 m6 (files s)).
  assert (Hmv : i_mo (new_map I v p2 m6 (files s)) v = m6) by (cbn; by rewrite decide_True). rewrite !Hmv.
  split_and!; [|done|done| |done|done|done|done|done|done|done].
  - constructor; [exact (disk_proc _ _ p2 D11)| |by apply maps_ok_fput| |lia|done].
    + apply gwf_new_map; try done; [|cbn; lia]. cbn. rewrite (g_moff _ _ _ W). fold o. apply u32_small. pose proof (mo_off_pos (length (i_ix I))). unfold is_u32, PROC_METADAT_SZ, sizeof_mmapobj, o in *. lia.
    + apply (vol_files (set_trees (trees s10) (set_maps (maps s10) s))). eapply (vol_new_mo s I st v p2 m6 _ a tr' M (trees s10) (maps s10) V Hv); try done; cbn [m6 set_m_proc_obj m_chunkobj_tree m_chunk_tree_init m_strt_addr m_data_addr m_length]; rewrite ?M5, ?M6, ?M7, ?M8, ?M9.
      * lia.
      * intros _. split_and!; [done|done|]. cbn. rewrite lookup_insert_ne, lookup_insert_eq by congruence. done.
      * cbn [maps s10 s9 set_trees set_files set_maps]. intros b' f len' [[_ E%(f_equal fst)]|[_ E]]%lookup_insert_Some; auto.
      * eapply points_here; [exact Hm9|apply lookup_insert_eq].
      * eapply points_insert_ne; [|done]. by eapply points_here.
      * apply lookup_insert_eq.
      * intros x' y Hx' E. cbn. rewrite !lookup_insert_ne by congruence. done.
      * intros N' b' x' HN'' Eb' Eid'. assert (N' = N) as -> by (unfold maptree in *; destruct (map_tree s); [by eapply rb_map_unique|congruence]). pose proof (Huniq _ _ _ _ Eb Eb' ltac:(congruence)) as <-. split_and!; congruence.
  - intros w Hw. cbn. rewrite !decide_False by (intros ->; done). done.
Qed.
End record.
