(* ===== verification/StoreAdd.v ===== *)
(** * The object store: recording an object *)

From stdpp Require Import strings.
From S2P Require Import Prelude Rbtree RbtreeSpec RbtreeMap Store StoreMem StoreInv StoreOps StoreRecord.

Implicit Types (I : img) (s : nvstate) (fs : gmap string file) (v j id : Z) (st : gset Z) (c : chunkobj_s) (mp : gmap Z (string * Z)).

(** One more object at the end of the array of map [v]. *)
Section add.
Context (n k : Z) (s : nvstate) (I : img) (st : gset Z) (v : Z) (c : chunkobj_s) (m2 : mmapobj_s) (g : Z → Z).
Let m := i_mo I v.
Let nc := m_numchunks m.
Definition add_obj : img := set_mo (set_by (set_ch I v nc c) v g) v m2.

Hypothesis V : vol s I st.
Hypothesis W : gwf (n + 1) k I.
Hypothesis Hv : v ∈ i_ix I.
Hypothesis Hnc0 : 0 ≤ nc.
Hypothesis Hnc : nc ≤ n.
Hypothesis E1 : m_meta_offset m2 = ch_off (nc + 1).
Hypothesis E2 : m_numchunks m2 = nc + 1 ∧ m_vma_id m2 = m_vma_id m ∧ m_proc_id m2 = m_proc_id m ∧ m_length m2 = m_length m ∧
  m_data_addr m2 = m_data_addr m ∧ m_strt_addr m2 = m_strt_addr m ∧ m_chunkobj_tree m2 = m_chunkobj_tree m ∧ m_chunk_tree_init m2 = m_chunk_tree_init m.
Hypothesis Hc : 0 < c_length c ∧ 0 ≤ c_offset c ∧ c_offset c + c_length c ≤ m_length m ∧ c_chunkid c = gen_id_from_str (c_objname c) ∧ c_chunkid c ≠ 0 ∧ c_valid c ≠ INVALID ∧ c_nv_ptr c = m_data_addr m + c_offset c.
Hypothesis Hnew : ∀ w j, live I w j → c_chunkid (i_ch I w j) ≠ c_chunkid c.
Hypothesis Hst : c_chunkid c ∉ st.
Hypothesis Hfree : ∀ j, live I v j → c_offset (i_ch I v j) + c_length (i_ch I v j) ≤ c_offset c ∨ c_offset c + c_length c ≤ c_offset (i_ch I v j).

Lemma live_add w j : live add_obj w j ↔ live I w j ∨ (w = v ∧ j = nc).
Proof using Hnc0 Hv E2 Hc.
  unfold live. cbn. destruct (decide (w = v)) as [->|Hne]; [|rewrite (decide_False (P := w = v ∧ j = nc)) by naive_solver; naive_solver].
  destruct E2 as (-> & _). fold m. fold nc. destruct (decide (v = v ∧ j = nc)) as [[_ ->]|Hd].
  - destruct Hc as (_ & _ & _ & _ & _ & ? & _). split; [intros _; by right|]. intros _. split_and!; [done|lia|lia|done].
  - assert (j ≠ nc) by naive_solver. split; [intros (? & ? & ?); left; split_and!; [done|lia|lia|done]|intros [(? & ? & ?)|[_ ?]]; [split_and!; [done|lia|lia|done]|done]].
Qed.

Lemma ch_old w j : live I w j → i_ch add_obj w j = i_ch I w j ∧ (w, j) ≠ (v, nc).
Proof using Type.
  intros (_ & Hj & _). assert ((w, j) ≠ (v, nc)) as Hne by (intros [= -> ->]; unfold nc, m in Hj; lia). split; [|done]. exact (set_ch_other I v nc c w j Hne).
Qed.
Lemma ch_new : i_ch add_obj v nc = c.
Proof using Type. exact (set_ch_eq I v nc c). Qed.

Lemma mo_add w : let m' := i_mo add_obj w in let m := i_mo I w in
  m_numchunks m' = (if decide (w = v) then m_numchunks m + 1 else m_numchunks m) ∧ m_vma_id m' = m_vma_id m ∧ m_proc_id m' = m_proc_id m ∧ m_length m' = m_length m ∧
  m_data_addr m' = m_data_addr m ∧ m_strt_addr m' = m_strt_addr m ∧ m_chunkobj_tree m' = m_chunkobj_tree m ∧ m_chunk_tree_init m' = m_chunk_tree_init m.
Proof using E2. cbn. case_decide as Hw; [subst; exact E2|done]. Qed.

Lemma gwf_add : gwf (n + 1) k add_obj.
Proof using W Hv Hnc0 Hnc E1 E2 Hc Hnew Hfree.
  destruct W as [G1 G2 G3 G4 G5 G6 G7 G8 G9 G10 G11]. destruct Hc as (C1 & C2 & C3 & C4 & C5 & C6 & C7). constructor; try done.
  - intros w Hw. destruct (mo_add w) as (N1 & N3 & N4 & N5 & _). destruct (G8 w Hw) as (H1 & H2 & H3 & H4 & H5). cbv zeta. rewrite N1, N3, N4, N5. cbn [add_obj set_mo i_mo]. destruct (decide (w = v)) as [->|]; [|done].
    unfold nc, m in *. rewrite E1. split_and!; [done|done|lia|lia|done|lia|lia].
  - intros w j [Hl|[-> ->]]%live_add; cbv zeta; destruct (mo_add w) as (_ & _ & _ & N5 & _) || destruct (mo_add v) as (_ & _ & _ & N5 & _); rewrite N5.
    + destruct (ch_old w j Hl) as [-> _]. by apply G9.
    + rewrite ch_new. fold m. split_and!; [done..|]. rewrite C4. apply gen_id_u32.
  - intros w j w' j' [Hl|[-> ->]]%live_add [Hl'|[-> ->]]%live_add; rewrite ?ch_new, ?(proj1 (ch_old _ _ Hl)), ?(proj1 (ch_old _ _ Hl')); [by apply G10| | |done]; intros E; exfalso; [by apply (Hnew _ _ Hl)|by apply (Hnew _ _ Hl')].
  - intros w j j' [Hl|[-> ->]]%live_add [Hl'|[E ->]]%live_add Hne; rewrite ?ch_new, ?(proj1 (ch_old _ _ Hl)), ?(proj1 (ch_old _ _ Hl')); subst; [by apply G11|rewrite ch_new; by apply Hfree|destruct (Hfree j' Hl'); lia|done].
Qed.

Lemma vol_add C x tr :
  ctree (maps s) (trees s) I st v C → points (maps s) x (fmeta v) (ch_off nc) → rb_map tr (<[c_chunkid c := x]> C) →
  vol (set_trees (<[m_chunkobj_tree m := tr]> (trees s)) s) add_obj st.
Proof using V Hv Hnc0 E2 Hc Hnew Hst.
  intros HC Hx Htr. pose proof V as [V1 V2 V3 V4 V5 V6 V7 V8 V9 V10 V11 V12 V13 V14 V15 V16]. pose proof (ct_tree _ _ _ _ _ _ HC) as (Hi & Ht0 & _).
  assert (Hvt : ∀ T w C, vtree T I w C → vtree T add_obj w C). { intros T w C'. unfold vtree. destruct (mo_add w) as (_ & _ & _ & _ & _ & _ & -> & ->). done. }
  constructor; try assumption; cbn [i_ix add_obj set_mo set_by set_ch i_proc maps trees map_tree proc_vmas set_trees].
  - destruct V5 as (M & H1 & H2 & H3 & H4). exists M. split_and!; [done|done| |apply H4|apply H4]. cbn [i_proc add_obj set_mo set_by set_ch]. unfold m. by rewrite (ptree_other _ _ _ v tr V Hv Hi).
  - intros w Hw Hiw. rewrite (proj2 (proj2 (proj2 (proj2 (proj2 (proj2 (proj2 (mo_add w)))))))) in Hiw. destruct (decide (w = v)) as [->|Hne].
    + exists (<[c_chunkid c := x]> C). constructor; [apply Hvt; split_and!; [done|done|]; exists tr; by rewrite lookup_insert_eq| |].
      * intros id a [[<- <-]|[Hne Ea]]%lookup_insert_Some; destruct (mo_add v) as (-> & _); rewrite decide_True by done; fold m nc.
        { exists nc. split_and!; [lia|lia|done|]. right. split; [apply live_add; by right|by rewrite ch_new]. }
        destruct (ct_sound _ _ _ _ _ _ HC _ _ Ea) as (j & Hj & Hp & Hor). exists j. fold m nc in Hj. split_and!; [lia|lia|done|]. destruct Hor as [?|[Hl <-]]; [by left|right]. split; [apply live_add; by left|by destruct (ch_old _ _ Hl) as [-> _]].
      * intros j [Hl|[_ ->]]%live_add; [|exists x; rewrite ch_new, lookup_insert_eq; done]. destruct (ch_old _ _ Hl) as [-> _]. destruct (ct_complete _ _ _ _ _ _ HC j Hl) as (a & Ea & Hp). exists a. split; [|done].
        rewrite lookup_insert_ne; [done|]. intros E. by apply (Hnew _ _ Hl).
    + destruct (V6 w Hw Hiw) as [C' HC']. exists C'. constructor; [apply Hvt; by eapply vtree_other, HC'| |].
      * intros id a Ea. destruct (ct_sound _ _ _ _ _ _ HC' _ _ Ea) as (j & Hj & Hp & Hor). exists j. destruct (mo_add w) as (-> & _). rewrite decide_False by done. split_and!; [lia|lia|done|]. destruct Hor as [?|[Hl <-]]; [by left|right]. split; [apply live_add; by left|by destruct (ch_old _ _ Hl) as [-> _]].
      * intros j [Hl|[-> _]]%live_add; [|done]. destruct (ch_old _ _ Hl) as [-> _]. by apply HC'.
  - intros w Hw. destruct (mo_add w) as (-> & _ & _ & _ & _ & _ & _ & ->). case_decide; [subst; done|by apply V7].
  - intros w Hw. destruct (mo_add w) as (_ & _ & _ & _ & _ & -> & _). by apply V8.
  - intros w Hw. destruct (mo_add w) as (_ & _ & _ & _ & -> & _). by apply V9.
  - intros w j [Hl|[-> ->]]%live_add; [destruct (mo_add w) as (_ & _ & _ & _ & -> & _)|destruct (mo_add v) as (_ & _ & _ & _ & -> & _)]; [destruct (ch_old _ _ Hl) as [-> _]; by apply V10|]. rewrite ch_new. apply Hc.
  - intros w1 w2 Hw1 Hw2. destruct (mo_add w1) as (_ & _ & _ & _ & _ & _ & -> & ->). destruct (mo_add w2) as (_ & _ & _ & _ & _ & _ & -> & ->). by apply V11.
  - intros w Hw. destruct (mo_add w) as (_ & _ & _ & _ & _ & _ & -> & ->). by apply V12.
  - destruct V13 as (N & HN & Hx' & Hu). exists N. split_and!; [done| |done]. intros b y Eb. destruct (Hx' b y Eb) as [N1 N2 N3 N4 N5 N6]. constructor; try done. cbn [i_ix add_obj set_mo set_by set_ch].
    destruct (mo_add (n_map_id y)) as (_ & _ & _ & -> & -> & _ & _ & ->). done.
  - intros w j [Hl|[-> ->]]%live_add; [destruct (ch_old _ _ Hl) as [-> _]; by apply V14|by rewrite ch_new].
Qed.

Lemma objs_add mm :
  objs_of I mm → (∀ i, i < c_offset c ∨ c_offset c + c_length c ≤ i → g i = i_by I v i) →
  objs_of add_obj (<[c_chunkid c := Aobj (c_objname c) (c_nv_ptr c) (c_commitsz c) (block g (c_offset c) (c_length c))]> mm).
Proof using Hv Hnc0 E2 Hc Hnew Hfree.
  intros Ho Hby id o. assert (Enew : Aobj (c_objname c) (c_nv_ptr c) (c_commitsz c) (block g (c_offset c) (c_length c)) = to_obj add_obj v nc) by (unfold to_obj; rewrite ch_new; cbn; by rewrite decide_True).
  assert (Eold : ∀ w j, live I w j → to_obj add_obj w j = to_obj I w j).
  { intros w j Hl. unfold to_obj. rewrite (proj1 (ch_old _ _ Hl)). cbn. f_equal. case_decide as Hw; [subst w|done]. apply block_ext. intros i Hi. apply Hby. destruct (Hfree j Hl); lia. }
  rewrite Enew, lookup_insert_Some. split.
  - intros [[<- <-]|[Hne (w & j & Hl & <- & ->)%Ho]]; [exists v, nc; split_and!; [apply live_add; by right|by rewrite ch_new|done]|]. exists w, j. split_and!; [apply live_add; by left|by rewrite (proj1 (ch_old _ _ Hl))|by rewrite Eold].
  - intros (w & j & [Hl|[-> ->]]%live_add & <- & ->); [right|left; by rewrite ch_new]. rewrite (proj1 (ch_old _ _ Hl)), Eold by done. split; [intros E; by apply (Hnew _ _ Hl)|by apply objs_live].
Qed.
End add.

Section record.
Context (malloc : gset Z → Z).
Hypothesis malloc_fresh : fresh_malloc malloc.

(** What [nv_record_chunk] needs of the block and the name. *)
Record fits I st v (c : chunkobj_s) : Prop := {
  ft_len : 0 < c_length c < 2 ^ 32;
  ft_off : 0 ≤ c_offset c < 2 ^ 32;
  ft_end : c_offset c + c_length c ≤ m_length (i_mo I v);
  ft_id : c_chunkid c = gen_id_from_str (c_objname c);
  ft_id0 : c_chunkid c ≠ 0;
  ft_name : 0 < strlen (c_objname c) < MAXOBJNAMELEN;
  ft_new : ∀ w j, live I w j → c_chunkid (i_ch I w j) ≠ c_chunkid c;
  ft_stale : c_chunkid c ∉ st;
  ft_free : ∀ j, live I v j → c_offset (i_ch I v j) + c_length (i_ch I v j) ≤ c_offset c ∨ c_offset c + c_length c ≤ c_offset (i_ch I v j)
}.

(** The array of the objects of map [v] with [c] at its end, and zeros in the block; the number of objects is that of before. *)
Definition zero_block I v c : Z → Z := λ i, if decide (c_offset c ≤ i < c_offset c + c_length c) then 0 else i_by I v i.
Definition new_off I v : mmapobj_s := set_m_meta_offset (u32 (m_meta_offset (i_mo I v) + sizeof_chunkobj)) (i_mo I v).
Definition put_obj I v c0 c : img := set_ch (set_by (set_ch (set_mo I v (new_off I v)) v (m_numchunks (i_mo I v)) c0) v (zero_block I v c)) v (m_numchunks (i_mo I v)) c.

Lemma array_end n k s I st v : good (n + 1) k s I st → v ∈ i_ix I → m_numchunks (i_mo I v) ≤ n →
  let nc := m_numchunks (i_mo I v) in ch_off nc + sizeof_chunkobj ≤ MMAP_METADATA_SZ ∧ points (maps s) (m_strt_addr (i_mo I v) + m_meta_offset (i_mo I v)) (fmeta v) (ch_off nc).
Proof using Type.
  intros [D W Mp V HN HK] Hv Hnc. cbv zeta. destruct (g_m _ _ _ W v Hv) as (_ & _ & M3 & M4 & _). set (nc := m_numchunks _) in *. assert (Hroom : ch_off nc + sizeof_chunkobj ≤ MMAP_METADATA_SZ) by (unfold MAX_RECORDS, ch_off, sizeof_chunkobj, MMAP_METADATA_SZ in *; lia). split; [done|].
  pose proof (points_add _ _ _ _ 0 (ch_off nc) _ Mp (v_strt _ _ _ V v Hv) (d_meta _ _ D v Hv) ltac:(unfold ch_off, sizeof_chunkobj in *; lia)) as Hp. rewrite Z.add_0_l in Hp. by rewrite M4.
Qed.

Lemma wp_create_chunk n k s I st v kk a c (Q : Z → nvstate → Prop) :
  good (n + 1) k s I st → i_ix I !! kk = Some v → points (maps s) a fproc (mo_off kk) → m_numchunks (i_mo I v) ≤ n → fits I st v c →
  c = Chunkobj (c_length c) (c_offset c) (c_chunkid c) pid0 v 0 (m_data_addr (i_mo I v) + c_offset c) VALID (c_objname c) →
  (∀ fs c0, maps_ok (maps s) fs → disk fs (put_obj I v c0 c) → rec_at fs (fmeta v) (ch_off (m_numchunks (i_mo I v))) = Some (RChunk c) → Q (m_strt_addr (i_mo I v) + m_meta_offset (i_mo I v)) (set_files fs s)) →
  wp (create_chunkobj (Rqst (c_length c) (c_objname c) (c_chunkid c) pid0 (c_nv_ptr c) (c_offset c) 0) a) s Q.
Proof using Type.
  intros Hg Hk Ha Hnc [F1 F2 F3 F4 F5 F6 F7 F8 F9] Ec HQ. pose proof Hg as [D W Mp V HN HK]. pose proof (list_elem_of_lookup_2 _ _ _ Hk) as Hv. destruct (g_m _ _ _ W v Hv) as (M1 & M2 & M3 & M4 & M5). destruct (array_end _ _ _ _ _ _ Hg Hv Hnc) as [Hroom Hx].
  set (mv := i_mo I v) in *. set (nc := m_numchunks mv) in *. pose proof (mo_room _ _ _ _ _ Hg _ _ Hk) as Hmroom. pose proof (g_nd _ _ _ W) as Hnd. set (x := m_strt_addr mv + m_meta_offset mv) in *. pose proof (v_strt _ _ _ V v Hv) as Hstrt.
  unfold create_chunkobj. apply wp_bind. eapply wp_get_mo; [done..|]. fold mv. apply wp_bind, wp_check; [by eapply nonnull_points|]. cbv zeta. fold x.
  (* the end of the array *)
  apply wp_bind. eapply wp_upd_mmapobj; [exact Mp|exact Ha|apply D|exact Hmroom|exact (d_mo _ _ D _ _ Hk)|]. fold mv. change (set_m_meta_offset _ mv) with (new_off I v). set (m1 := new_off I v). set (s1 := set_files _ s).
  assert (D1 : disk (files s1) (set_mo I v m1)) by (apply disk_mo; try done; intros j Hj; by apply (d_ch _ _ D)). assert (Mp1 : maps_ok (maps s1) (files s1)) by (by apply maps_ok_fput).
  pose proof (f_equal c_nv_ptr Ec) as Env. cbn in Env. assert (Hid : is_u32 (c_chunkid c)) by (rewrite F4; apply gen_id_u32).
  (* the structure and the bytes *)
  apply wp_bind. unfold update_chunkobj. apply wp_bind, wp_check; [by eapply nonnull_points|]. apply wp_bind. eapply wp_load_mmapobj; [exact Mp1|exact Ha|apply D1|exact Hmroom|exact (d_mo _ _ D1 _ _ Hk)|]. rewrite set_mo_eq. cbv zeta. cbn [r_bytes r_offset r_id r_pid r_nv_ptr r_var_name].
  rewrite (u32_small (c_length c)), (u32_small (c_offset c)), (u32_small (c_chunkid c)) by (done || (unfold is_u32; lia)). change (m_vma_id m1) with (m_vma_id mv). rewrite M1.
  apply wp_bind. eapply wp_upd_chunkobj_any; [exact Mp1|exact Hx|exact (d_meta _ _ D1 v Hv)|exact Hroom|intros r; exact (d_type _ _ D1 v _ r Hv)|]. intros c0. set (c1 := Chunkobj _ _ _ _ _ _ _ _ _). set (s2 := set_files _ s1).
  assert (D2 : disk (files s2) (set_ch (set_mo I v m1) v nc c1)) by (by apply disk_fput_ch). assert (Mp2 : maps_ok (maps s2) (files s2)) by (by apply maps_ok_fput). assert (R2 : rec_at (files s2) (fmeta v) (ch_off nc) = Some (RChunk c1)) by (apply rec_fput; rewrite (d_meta _ _ D1 v Hv); eauto).
  assert (Hdp : points (maps s2) (c_nv_ptr c) (fdata v) (c_offset c)). { rewrite Env. pose proof (points_add _ _ _ _ 0 (c_offset c) _ Mp (v_data _ _ _ V v Hv) (d_data _ _ D v Hv) ltac:(fold mv; lia)) as Hp. by rewrite Z.add_0_l in Hp. }
  apply wp_bind. unfold memset. eapply wp_set_bytes; [exact Mp2|exact Hdp|exact (d_data _ _ D2 v Hv)|cbn; rewrite decide_True by done; exact F3|]. set (s3 := set_files _ s2).
  pose proof (disk_fset _ _ v (c_offset c) (c_length c) (λ _, 0) D2 Hv) as D3. cbn beta in D3. set (g := zero_block I v c). change (disk (files s3) (set_by (set_ch (set_mo I v m1) v nc c1) v g)) in D3. assert (Mp3 : maps_ok (maps s3) (files s3)) by (by apply maps_ok_fset).
  apply wp_bind, wp_check; [rewrite (proj2 (Z.eqb_neq _ _)) by lia; done|]. apply wp_bind, wp_check; [apply Z.ltb_lt; lia|].
  eapply wp_upd_chunkobj; [exact Mp3|exact Hx|exact (d_meta _ _ D3 v Hv)|exact Hroom|exact (eq_trans (rec_fset _ _ _ _ _ _ _) R2)|]. replace (set_c_objname (c_objname c) c1) with c by (rewrite Ec at 1; unfold c1, set_c_objname; cbn; by rewrite Env). set (s4 := set_files _ s3). apply wp_ret.
  eapply (HQ (files s4) c1); [by do 4 first [apply maps_ok_fput|apply maps_ok_fset]|by apply disk_fput_ch|]. apply rec_fput. rewrite (d_meta _ _ D3 v Hv). eauto.
Qed.

Lemma wp_add_chunk n k s I st v kk a c (Q : Z → nvstate → Prop) m :
  good (n + 1) k s I st → i_ix I !! kk = Some v → points (maps s) a fproc (mo_off kk) → m_numchunks (i_mo I v) ≤ n → m_chunk_tree_init (i_mo I v) ≠ 0 →
  objs_of I m → names_ok (objnamemap s) m → fits I st v c → c = Chunkobj (c_length c) (c_offset c) (c_chunkid c) pid0 v 0 (m_data_addr (i_mo I v) + c_offset c) VALID (c_objname c) →
  (∀ x s' I', map_tree s' = map_tree s → good (n + 1) k s' I' st → objs_of I' (<[c_chunkid c := Aobj (c_objname c) (c_nv_ptr c) 0 (replicate (Z.to_nat (c_length c)) 0)]> m) → names_ok (objnamemap s') (<[c_chunkid c := Aobj (c_objname c) (c_nv_ptr c) 0 (replicate (Z.to_nat (c_length c)) 0)]> m) →
     v ∈ i_ix I' → 0 ≤ m_numchunks (i_mo I v) < m_numchunks (i_mo I' v) → points (maps s') x (fmeta v) (ch_off (m_numchunks (i_mo I v))) → Q x s') →
  wp (add_chunk_to_mmapobj malloc a (Rqst (c_length c) (c_objname c) (c_chunkid c) pid0 (c_nv_ptr c) (c_offset c) 0)) s
    (λ chunk s', wp (upd_mmapobj a (λ m, set_m_numchunks (m_numchunks m + 1) m)) s' (λ _ s'', Q chunk s'')).
Proof using malloc_fresh.
  intros Hg Hk Ha Hnc Hi Ho Hnm Hf Ec HQ. pose proof Hf as [F1 F2 F3 F4 F5 F6 F7 F8 F9]. pose proof Hg as [D W Mp V HN HK]. pose proof (list_elem_of_lookup_2 _ _ _ Hk) as Hv. destruct (g_m _ _ _ W v Hv) as (M1 & M2 & M3 & M4 & M5). destruct (array_end _ _ _ _ _ _ Hg Hv Hnc) as [Hroom Hx].
  set (mv := i_mo I v) in *. set (nc := m_numchunks mv) in *. pose proof (mo_room _ _ _ _ _ Hg _ _ Hk) as Hmroom. pose proof (g_nd _ _ _ W) as Hnd. set (x := m_strt_addr mv + m_meta_offset mv) in *.
  pose proof (f_equal c_nv_ptr Ec) as Env. cbn in Env.
  (* the tree *)
  unfold add_chunk_to_mmapobj. apply wp_bind. eapply wp_create_chunk; [exact Hg|exact Hk|exact Ha|done|done|exact Ec|]. fold mv nc x. intros fs4 c0 Mp4 D4 R4. set (s4 := set_files fs4 s). set (m1 := new_off I v) in *. set (g := zero_block I v c) in *. change (disk (files s4) (set_ch (set_by (set_ch (set_mo I v m1) v nc c0) v g) v nc c)) in D4.
  assert (Rm4 : rec_at (files s4) fproc (mo_off kk) = Some (RMmap m1)) by (rewrite (d_mo _ _ D4 _ _ Hk); cbn; by rewrite decide_True).
  apply wp_bind, wp_check; [by eapply nonnull_points|]. apply wp_bind. unfold add_chunkobj. rewrite (is_null_points _ _ _ _ _ Hg _ _ _ Ha). apply wp_bind. eapply wp_load_mmapobj; [exact Mp4|exact Ha|apply D4|exact Hmroom|exact Rm4|].
  destruct (v_ctree _ _ _ V v Hv Hi) as (C & HC). pose proof (ct_tree _ _ _ _ _ _ HC) as (_ & Ht0 & tr & Etr & HCr). fold mv in Ht0, Etr. change (m_chunkobj_tree m1) with (m_chunkobj_tree mv). apply wp_bind, wp_check; [unfold not_null; by rewrite (proj2 (Z.eqb_neq _ _) Ht0)|].
  rewrite (is_null_points _ _ _ _ _ Hg _ _ _ Hx). apply wp_bind. eapply wp_load_chunkobj; [exact Mp4|exact Hx|exact (d_meta _ _ D4 v Hv)|exact Hroom|exact R4|]. apply wp_bind, wp_check; [unfold not_null; by rewrite (proj2 (Z.eqb_neq _ _)) by lia|].
  apply wp_bind. eapply (wp_insert_at malloc malloc_fresh); [exact Etr|exact HCr|]. intros tr' Htr'. apply wp_bind, wp_modify, wp_ret, wp_ret. set (s5 := set_objnamemap _ _).
  (* the number of objects *)
  eapply (wp_upd_mmapobj s5); [exact Mp4|exact Ha|apply D4|exact Hmroom|exact Rm4|]. cbv beta. set (m2 := set_m_numchunks _ m1). assert (Hc4 : 0 ≤ ch_off nc + sizeof_chunkobj < 2 ^ 32) by (unfold ch_off, sizeof_chunkobj, MMAP_METADATA_SZ in *; lia).
  assert (E1 : m_meta_offset m2 = ch_off (nc + 1)) by (unfold m2, m1, new_off; fold mv; cbn; rewrite M4, u32_small by done; unfold ch_off, sizeof_chunkobj; lia).
  assert (E2 : m_numchunks m2 = nc + 1 ∧ m_vma_id m2 = m_vma_id mv ∧ m_proc_id m2 = m_proc_id mv ∧ m_length m2 = m_length mv ∧ m_data_addr m2 = m_data_addr mv ∧ m_strt_addr m2 = m_strt_addr mv ∧ m_chunkobj_tree m2 = m_chunkobj_tree mv ∧ m_chunk_tree_init m2 = m_chunk_tree_init mv).
  { split_and!; done. }
  assert (Hc : 0 < c_length c ∧ 0 ≤ c_offset c ∧ c_offset c + c_length c ≤ m_length mv ∧ c_chunkid c = gen_id_from_str (c_objname c) ∧ c_chunkid c ≠ 0 ∧ c_valid c ≠ INVALID ∧ c_nv_ptr c = m_data_addr mv + c_offset c).
  { split_and!; try done; try lia. by rewrite (f_equal c_valid Ec). }
  assert (Hb : block g (c_offset c) (c_length c) = replicate (Z.to_nat (c_length c)) 0).
  { apply list_eq. intros i. destruct (decide (Z.of_nat i < c_length c)) as [Hlt|Hge].
    - rewrite lookup_replicate_2 by lia. rewrite <- (Nat2Z.id i), lookup_block by lia. unfold g, zero_block. by rewrite decide_True by lia.
    - rewrite !lookup_ge_None_2; [done|rewrite length_replicate; lia|apply Nat2Z.inj_le; rewrite length_block; lia]. }
  apply (HQ x _ (add_obj I v c m2 g)).
  - done.
  - constructor; [|exact (gwf_add n k I v c m2 g W Hv (proj1 M3) Hnc E1 E2 Hc F7 F9)|by apply maps_ok_fput| |done|done].
    + eapply disk_ext; [apply (disk_mo _ _ kk v m2 D4); [done..|cbn; by rewrite decide_True|]|done|done| | |]; [|intros w; cbn; by case_decide|intros w j; cbn; fold mv nc; by case_decide|intros w i; cbn; by case_decide].
      intros j Hj. change (0 ≤ j < nc + 1) in Hj. destruct (decide (j = nc)) as [->|Hne]; [rewrite set_ch_eq; exact R4|]. apply (d_ch _ _ D4); [done|]. cbn. rewrite decide_True by done. change (0 ≤ j < nc). lia.
    + exact (vol_files _ _ _ _ (vol_names _ _ _ _ (vol_add s I st v c m2 g V Hv (proj1 M3) E2 Hc F7 F8 C x tr' HC Hx Htr'))).
  - pose proof (objs_add I v c m2 g Hv (proj1 M3) E2 Hc F7 F9 m Ho) as Hobjs. rewrite Hb, (f_equal c_commitsz Ec) in Hobjs. apply Hobjs. intros i Hi'. unfold g, zero_block. by rewrite decide_False by lia.
  - apply (names_insert _ _ _ (Aobj (c_objname c) (c_nv_ptr c) 0 _) Hnm). by apply (objs_none _ _ _ Ho).
  - done.
  - cbn. rewrite decide_True by done. change (0 ≤ nc < nc + 1). lia.
  - exact Hx.
Qed.

Context (mmap : gmap Z (string * Z) → Z → Z → Z).
Hypothesis mmap_fresh : fresh_mmap mmap.

Lemma good_mono n n' k k' s I st : good n k s I st → n ≤ n' ≤ MAX_RECORDS → k ≤ k' < 2 ^ 31 → good n' k' s I st.
Proof.
  intros [D [G1 G2 G3 G4 G5 G6 G7 G8 G9 G10 G11] Mp V ? ?] Hn Hk. constructor; [done| |done|done|lia|lia]. constructor; try done; try lia.
  intros v Hv. destruct (G8 v Hv) as (? & ? & ? & ? & ?). split_and!; [done..|lia|lia|done|lia|lia].
Qed.

(** The structure of the map around a block: the one there is, or a new one. *)
Lemma wp_find_mmapobj n k s I st v pp (Q : Z → nvstate → Prop) :
  good n k s I st → points (maps s) pp fproc 0 →
  (∀ a kk, i_ix I !! kk = Some v → points (maps s) a fproc (mo_off kk) → Q a s) → (v ∉ i_ix I → Q 0 s) → wp (find_mmapobj malloc v pp) s Q.
Proof.
  intros Hg Hpp Hyes Hno. unfold find_mmapobj. rewrite (is_null_points _ _ _ _ _ Hg _ _ _ Hpp). apply wp_bind. eapply wp_get_proc; [done..|]. destruct (v_ptree _ _ _ (gd_vol _ _ _ _ _ Hg)) as (M & Hi & Ht & (tr & Etr & HM) & Hs & Hall).
  rewrite Hi. cbn [is_null Z.eqb]. apply wp_bind. eapply wp_lookup_at; [done..|]. apply wp_ret. destruct (M !! v) as [a|] eqn:E; cbn.
  - destruct (Hs _ _ E) as (kk & Hk & Hp). by eapply Hyes.
  - apply Hno. intros Hin. destruct (Hall v Hin) as [a E']. congruence.
Qed.

Lemma wp_map_for n k s I st m x b N pp (Q : Z * Z → nvstate → Prop) :
  good n k s I st → objs_of I m → n < MAX_RECORDS → points (maps s) pp fproc 0 → maptree (map_tree s) N → N !! b = Some x →
  (∀ bytes a s' I' kk, bytes ≠ 0 → good (n + 1) k s' I' st → objs_of I' m → i_ix I' !! kk = Some (n_map_id x) → points (maps s') a fproc (mo_off kk) → m_numchunks (i_mo I' (n_map_id x)) ≤ n →
     m_chunk_tree_init (i_mo I' (n_map_id x)) ≠ 0 → m_data_addr (i_mo I' (n_map_id x)) = b → m_length (i_mo I' (n_map_id x)) = n_end_addr x - b → map_tree s' = map_tree s → objnamemap s' = objnamemap s →
     (∀ j, live I' (n_map_id x) j → live I (n_map_id x) j ∧ i_ch I' (n_map_id x) j = i_ch I (n_map_id x) j) → Q (bytes, a) s') →
  wp (find_mmapobj malloc (n_map_id x) pp) s (λ mmapobj s',
   wp (if is_null mmapobj then
        sz ← get_vma_size (n_map_id x);
        '(lcl_rqst, mmapobj) ← add_mmapobj_to_proc malloc mmap pp (Rqst sz "" (n_map_id x) pid0 0 0 0) 0 b;
        check (not_null mmapobj);; mret (r_bytes lcl_rqst, mmapobj)
      else m ← load_mmapobj mmapobj; mret (m_length m, mmapobj)) s' Q).
Proof using malloc_fresh mmap_fresh.
  intros Hg Ho Hn Hpp HN Eb HQ. pose proof Hg as [D W Mp V ? ?]. destruct (v_map _ _ _ V) as (N' & HN' & Hnode & _).
  assert (N' = N) as -> by (unfold maptree in *; destruct (map_tree s); [by eapply rb_map_unique|congruence]). destruct (Hnode b x Eb) as [N1 N2 N3 N4 N5 N6]. set (v := n_map_id x) in *.
  eapply wp_find_mmapobj; [done..| |].
  - intros a kk Hk Ha. rewrite (is_null_points _ _ _ _ _ Hg _ _ _ Ha). apply wp_bind. eapply wp_get_mo; [done..|]. apply wp_ret. pose proof (list_elem_of_lookup_2 _ _ _ Hk) as Hv. destruct (N6 Hv) as (E1 & E2 & E3). destruct (g_m _ _ _ W v Hv) as (_ & _ & ? & _).
    eapply (HQ _ _ _ I); try done; [lia|eapply good_mono; [done|lia|lia]|lia].
  - intros Hv. cbn [is_null Z.eqb]. apply wp_bind. unfold get_vma_size. apply wp_bind, wp_gets. cbn [id]. rewrite N5. apply wp_ret. apply wp_bind. eapply (wp_add_map malloc malloc_fresh mmap mmap_fresh); [done..|].
    intros rq a s' Erq (I' & Hg' & Eix & Ech & Eold & E1 & E2 & E3 & E4 & Ha & Emt & Enm). cbv iota beta. apply wp_bind, wp_check; [by eapply nonnull_points|]. apply wp_ret.
    assert (Hl : ∀ w j, live I' w j ↔ live I w j).
    { intros w j. unfold live. rewrite Eix, Ech, elem_of_app, list_elem_of_singleton. destruct (decide (w ∈ i_ix I)) as [Hw|Hw]; [destruct (Eold w Hw) as [-> _]; naive_solver|]. split; [|naive_solver]. intros ([?| ->] & Hj & _); [done|lia]. }
    eapply (HQ _ _ _ I' (length (i_ix I))); try done; [by rewrite Erq| |rewrite Eix; by apply list_lookup_middle|pose proof (g_ixn _ _ _ W); lia|by rewrite E4|intros j Hj; rewrite Ech; split; [by apply Hl|done]].
    intros id o. rewrite (Ho id o). split; intros (w & j & Hw & <- & ->); exists w, j; [apply Hl in Hw as Hw'|apply Hl in Hw as Hw'; pose proof Hw as Hw''; apply Hl in Hw]; unfold to_obj; rewrite Ech; destruct (Eold w) as [_ ->]; (apply Hw || apply Hw') || done.
Qed.

(** A name that can be given to a new object. *)
Definition fresh_name (m : gmap Z aobj) st (name : string) : Prop :=
  0 < strlen name < MAXOBJNAMELEN ∧ gen_id_from_str name ≠ 0 ∧ m !! gen_id_from_str name = None ∧ gen_id_from_str name ∉ st.

Lemma wp_record n k s I st m rqst a (Q : Z * rqst_s → nvstate → Prop) :
  good n k s I st → objs_of I m → names_ok (objnamemap s) m → n < MAX_RECORDS → r_pid rqst = pid0 → r_id rqst = 0 → 0 < r_bytes rqst < 2 ^ 32 → fresh_name m st (r_var_name rqst) → avail I s a (r_bytes rqst) →
  (∀ s', map_tree s' = map_tree s → inv (n + 1) k s' (<[gen_id_from_str (r_var_name rqst) := Aobj (r_var_name rqst) a 0 (replicate (Z.to_nat (r_bytes rqst)) 0)]> m) st → Q (0, set_r_id (gen_id_from_str (r_var_name rqst)) rqst) s') →
  wp (nv_record_chunk malloc mmap rqst a) s Q.
Proof using malloc_fresh mmap_fresh.
  intros Hg Ho Hnm Hn Epid Eid Hlen (Hname & H0 & Hnone & Hst) (N & b & x & HN & Eb & Hba & Hend & Hfree) HQ. pose proof Hg as [D W Mp V ? ?]. pose proof (proj1 (objs_none _ _ _ Ho) Hnone) as Hnew. destruct (proc_found _ _ _ _ _ Hg) as (pp & Hr & Hpp & _).
  destruct (v_map _ _ _ V) as (N' & HN' & Hnode & _). assert (N' = N) as -> by (unfold maptree in *; destruct (map_tree s); [by eapply rb_map_unique|congruence]). pose proof (Hnode b x Eb) as [N1 N2 N3 N4 N5 N6]. pose proof (g_num _ _ _ W) as Hnum. destruct (mo_size _ _ Mp _ _ _ N3) as (Hb0 & _ & _).
  assert (Ev : u32 (n_map_id x) = n_map_id x) by (apply u32_small; unfold is_u32; lia).
  unfold nv_record_chunk. rewrite Epid. apply wp_bind, wp_gets. cbn [id]. apply wp_bind, wp_check; [apply V|]. apply wp_bind. eapply wp_find_proc_obj; [done..|]. rewrite (is_null_points _ _ _ _ _ Hg _ _ _ Hpp). apply wp_bind, wp_ret. apply wp_bind, wp_check; [by eapply nonnull_points|].
  apply wp_bind. unfold check_if_chunk_exists. apply wp_bind. eapply (wp_get_chunk _ _ _ _ _ Hg _ _ (gen_id_from_str (r_var_name rqst))); [done|by rewrite Eid|done|done|intros v j kk a' y Hc Ej; by destruct (Hnew v j (ca_live _ _ _ _ _ _ _ _ Hc))|]. intros _. cbn [is_null Z.eqb]. apply wp_ret.
  apply wp_bind. eapply (wp_locate s I N b x a); [done..|lia|]. rewrite Ev. apply wp_bind, wp_check; [unfold not_null; by rewrite (proj2 (Z.eqb_neq _ _)) by lia|]. apply wp_bind, wp_check; [unfold not_null; by rewrite (proj2 (Z.eqb_neq _ _)) by lia|].
  apply wp_bind. eapply wp_mono; [eapply (wp_map_for n k s I st m x b N pp); [done..|]|cbv beta; intros ? ? H'; apply wp_bind; exact H']. intros bytes a' s' I' kk Hbytes Hg' Ho' Hk Ha' Hnc Hinit Eda Elen Emt Enm Hlive. cbv iota beta. apply wp_bind, wp_check; [unfold not_null; by rewrite (proj2 (Z.eqb_neq _ _) Hbytes)|].
  cbv zeta. apply wp_bind, wp_check; [unfold not_null; by rewrite (proj2 (Z.eqb_neq _ _) H0)|]. cbn [r_bytes r_var_name r_pid set_r_id]. rewrite Epid. rewrite u32_small by (unfold is_u32; lia). set (v := n_map_id x) in *.
  set (c := Chunkobj (r_bytes rqst) (a - b) (gen_id_from_str (r_var_name rqst)) pid0 v 0 a VALID (r_var_name rqst)).
  apply wp_bind. eapply wp_mono; [apply (wp_add_chunk n k s' I' st v kk a' c) with (m := m) (Q := λ x s', wp (c ← load_chunkobj x; record_chunks (c_nv_ptr c) x;; mret (SUCCESS, set_r_id (gen_id_from_str (r_var_name rqst)) rqst)) s' Q)|].
  - done.
  - done.
  - done.
  - done.
  - done.
  - done.
  - by rewrite Enm.
  - constructor; cbn; [done|lia|rewrite Elen; lia|done|done|done|by apply (objs_none _ _ _ Ho')|done|]. intros j Hj. destruct (Hlive j Hj) as [Hl ->]. by apply Hfree.
  - unfold c. cbn. f_equal. rewrite Eda. lia.
  - intros y s'' I'' Emt'' Hg'' Ho'' Hnm'' Hv'' Hj Hy. apply wp_bind. eapply (wp_get_ch _ _ _ _ _ Hg''); [done|exact Hj|done|]. apply wp_bind, wp_modify, wp_ret. apply HQ; [cbn; congruence|]. exists I''. split_and!; [by apply good_chunkmap|done|done].
  - cbv beta. intros y s'' Hw. apply wp_bind. eapply wp_mono; [exact Hw|]. cbv beta. intros [] s3 Hw3. cbn [not_null is_null Z.eqb negb]. by apply wp_bind, wp_ret.
Qed.
End record.
