(* ===== verification/StoreLoad.v ===== *)
(** * The object store: starting a process

    [nvinit] builds the trees and mappings again from the files.  While it
    runs, the invariant of the running process holds for the maps and objects
    that were read already. *)

From stdpp Require Import strings.
From S2P Require Import Prelude Rbtree RbtreeSpec RbtreeMap Store StoreMem StoreInv StoreOps StoreRecord StoreAdd.

Implicit Types (I : img) (s : nvstate) (fs : gmap string file) (v j id : Z) (st : gset Z) (c : chunkobj_s) (mp : gmap Z (string * Z)).

(** ** What stays as it is in the files *)

Record same_core I I' : Prop := {
  sc_proc : p_pid (i_proc I') = p_pid (i_proc I) ∧ p_pesist_mmaps (i_proc I') = p_pesist_mmaps (i_proc I) ∧ p_meta_offset (i_proc I') = p_meta_offset (i_proc I) ∧ p_num_mmaps (i_proc I') = p_num_mmaps (i_proc I);
  sc_ix : i_ix I' = i_ix I;
  sc_mo : ∀ v, let m := i_mo I v in let m' := i_mo I' v in m_vma_id m' = m_vma_id m ∧ m_proc_id m' = m_proc_id m ∧ m_numchunks m' = m_numchunks m ∧ m_meta_offset m' = m_meta_offset m ∧ m_length m' = m_length m;
  sc_ch : ∀ v j, let c := i_ch I v j in let c' := i_ch I' v j in
    c_length c' = c_length c ∧ c_offset c' = c_offset c ∧ c_chunkid c' = c_chunkid c ∧ c_valid c' = c_valid c ∧ c_objname c' = c_objname c ∧ c_commitsz c' = c_commitsz c;
  sc_by : ∀ v, i_by I' v = i_by I v
}.

Lemma same_core_refl I : same_core I I.
Proof. by constructor. Qed.
Lemma same_core_trans I1 I2 I3 : same_core I1 I2 → same_core I2 I3 → same_core I1 I3.
Proof.
  intros [A1 A2 A3 A4 A5] [B1 B2 B3 B4 B5]. constructor; [naive_solver congruence|congruence| | |congruence].
  - intros v. destruct (A3 v) as (? & ? & ? & ? & ?), (B3 v) as (? & ? & ? & ? & ?). split_and!; congruence.
  - intros v j. destruct (A4 v j) as (? & ? & ? & ? & ? & ?), (B4 v j) as (? & ? & ? & ? & ? & ?). split_and!; congruence.
Qed.

Lemma core_live I I' v j : same_core I I' → live I' v j ↔ live I v j.
Proof. intros [_ Ei Em Ec _]. unfold live. destruct (Em v) as (_ & _ & -> & _). destruct (Ec v j) as (_ & _ & _ & -> & _). by rewrite Ei. Qed.

Lemma gwf_core n k I I' : gwf n k I → same_core I I' → gwf n k I'.
Proof.
  intros [G1 G2 G3 G4 G5 G6 G7 G8 G9 G10 G11] Hs. assert (Hl := λ v j, core_live I I' v j Hs). destruct Hs as [(E1 & E2 & E3 & E4) Ei Em Ec _].
  constructor; rewrite ?E1, ?E2, ?E3, ?E4, ?Ei; try done.
  - intros v Hv. cbv zeta. destruct (Em v) as (-> & -> & -> & -> & ->). by apply G8.
  - intros v j Hv%Hl. cbv zeta. destruct (Em v) as (_ & _ & _ & _ & ->). destruct (Ec v j) as (-> & -> & -> & _ & -> & _). by apply G9.
  - intros v j v' j' Hv%Hl Hv'%Hl. destruct (Ec v j) as (_ & _ & -> & _). destruct (Ec v' j') as (_ & _ & -> & _). by apply G10.
  - intros v j j' Hv%Hl Hv'%Hl. destruct (Ec v j) as (-> & -> & _). destruct (Ec v j') as (-> & -> & _). by apply G11.
Qed.

(** The objects are the same; their addresses may be others. *)
Definition erase (o : aobj) : aobj := Aobj (a_name o) 0 (a_commit o) (a_data o).

Lemma map_choose {A B} (R : Z → A → B → Prop) (m : gmap Z A) : (∀ i x, m !! i = Some x → ∃ y, R i x y) → ∃ m' : gmap Z B, ∀ i, option_Forall2 (R i) (m !! i) (m' !! i).
Proof.
  induction m as [|i x m Ei IH] using map_ind; intros HR; [exists ∅; intros i; rewrite !lookup_empty; constructor|].
  destruct IH as [m' Hm']; [intros j y Ej; apply HR; rewrite lookup_insert_ne by congruence; done|]. destruct (HR i x (lookup_insert_eq _ _ _)) as [y Hy]. exists (<[i := y]> m').
  intros j. destruct (decide (i = j)) as [<-|Hne]; [rewrite !lookup_insert_eq; by constructor|]. by rewrite !lookup_insert_ne.
Qed.

Lemma objs_core n k I I' m : objs_of I m → same_core I I' → gwf n k I → ∃ m', objs_of I' m' ∧ erase <$> m' = erase <$> m.
Proof.
  intros Ho Hs W. assert (Hl := λ v j, core_live I I' v j Hs). pose proof (g_uniq _ _ _ (gwf_core _ _ _ _ W Hs)) as Hu. destruct Hs as [_ _ _ Ec Eb].
  assert (Et : ∀ v j, erase (to_obj I' v j) = erase (to_obj I v j) ∧ c_chunkid (i_ch I' v j) = c_chunkid (i_ch I v j)) by (intros v j; unfold to_obj, erase; cbn; rewrite Eb; destruct (Ec v j) as (-> & -> & -> & _ & -> & ->); done).
  destruct (map_choose (λ id o o', (∃ v j, live I' v j ∧ c_chunkid (i_ch I' v j) = id ∧ o' = to_obj I' v j) ∧ erase o' = erase o) m) as [m' Hm'].
  { intros id o (v & j & Hv & <- & ->)%Ho. exists (to_obj I' v j). split; [|apply Et]. exists v, j. split_and!; [by apply Hl|apply Et|done]. }
  exists m'. split.
  - intros id o'. specialize (Hm' id). split.
    + intros E. rewrite E in Hm'. by inversion Hm' as [o ? [Hx _]|].
    + intros (v & j & Hv & <- & ->). pose proof (objs_live _ _ _ _ Ho (proj1 (Hl v j) Hv)) as E. rewrite <- (proj2 (Et v j)) in E. rewrite E in Hm'. inversion Hm' as [? o' [(v' & j' & Hv' & E' & ->) _] Ea Eo|].
      by destruct (Hu _ _ _ _ Hv' Hv E') as [-> ->].
  - apply map_eq. intros id. rewrite !lookup_fmap. destruct (Hm' id) as [o o' [_ E]|]; [by cbn; rewrite E|done].
Qed.

Definition names_img (om : gmap string Z) I : Prop := ∀ x z, om !! x = Some z ↔ z = 0 ∧ ∃ v j, live I v j ∧ c_objname (i_ch I v j) = x.

Lemma names_objs om I m : names_img om I → objs_of I m → names_ok om m.
Proof.
  intros Hn Ho x z. etransitivity; [apply Hn|]. apply and_iff_compat_l. split.
  - intros (v & j & Hl & Ex). exists (c_chunkid (i_ch I v j)), (to_obj I v j). split; [by apply objs_live|done].
  - intros (id & o & Eo & Ex). apply Ho in Eo as (v & j & Hl & _ & ->). eauto.
Qed.

Lemma names_img_ext om I I' : names_img om I → (∀ v j, live I' v j ↔ live I v j) → (∀ v j, c_objname (i_ch I' v j) = c_objname (i_ch I v j)) → names_img om I'.
Proof. intros Hn Hl Hc x z. etransitivity; [apply Hn|]. apply and_iff_compat_l. split; intros (v & j & Hv & Ex); exists v, j; [rewrite Hl, Hc|rewrite <- Hl, <- Hc]; done. Qed.

(** A structure of a map that changes in ways that do not matter to the process. *)
Lemma vol_mo s I st v m2 :
  vol s I st → v ∈ i_ix I → m_data_addr m2 = m_data_addr (i_mo I v) → m_strt_addr m2 = m_strt_addr (i_mo I v) → m_chunkobj_tree m2 = m_chunkobj_tree (i_mo I v) → m_chunk_tree_init m2 = m_chunk_tree_init (i_mo I v) →
  m_length m2 = m_length (i_mo I v) → m_numchunks (i_mo I v) ≤ m_numchunks m2 → (m_chunk_tree_init m2 = 0 → m_numchunks m2 = 0) → (∀ w j, live (set_mo I v m2) w j ↔ live I w j) →
  vol s (set_mo I v m2) st.
Proof.
  intros [V1 V2 V3 V4 V5 V6 V7 V8 V9 V10 V11 V12 V13 V14 V15 V16] Hv E1 E2 E3 E4 E5 E6 E7 Hl.
  assert (Hm : ∀ w, let m' := i_mo (set_mo I v m2) w in let m := i_mo I w in m_data_addr m' = m_data_addr m ∧ m_strt_addr m' = m_strt_addr m ∧ m_chunkobj_tree m' = m_chunkobj_tree m ∧ m_chunk_tree_init m' = m_chunk_tree_init m ∧ m_length m' = m_length m ∧ m_numchunks m ≤ m_numchunks m').
  { intros w. cbn. case_decide as Hw; [by subst|]. split_and!; done || lia. }
  constructor; try done; cbn [i_proc i_ix set_mo].
  - intros w Hw Hi. destruct (Hm w) as (_ & _ & M3 & M4 & _ & M6). rewrite M4 in Hi. destruct (V6 w Hw Hi) as [C [C1 C2 C3]]. exists C. constructor.
    + unfold vtree in *. by rewrite M3, M4.
    + intros id a Ea. destruct (C2 id a Ea) as (j & Hj & Hp & Hor). exists j. rewrite Hl. split_and!; [lia|lia|done|done].
    + intros j Hj%Hl. by apply C3.
  - intros w Hw Hi. destruct (decide (w = v)) as [->|Hne]; [rewrite set_mo_eq in *; auto|rewrite set_mo_ne in * by done; auto].
  - intros w Hw. destruct (Hm w) as (_ & -> & _). by apply V8.
  - intros w Hw. destruct (Hm w) as (-> & _). by apply V9.
  - intros w j Hj%Hl. destruct (Hm w) as (-> & _). by apply V10.
  - intros w1 w2 Hw1 Hw2. destruct (Hm w1) as (_ & _ & -> & -> & _). destruct (Hm w2) as (_ & _ & -> & -> & _). by apply V11.
  - intros w Hw. destruct (Hm w) as (_ & _ & -> & -> & _). by apply V12.
  - destruct V13 as (N & HN & Hx & Hu). exists N. split_and!; [done| |done]. intros b x Eb. destruct (Hx b x Eb) as [N1 N2 N3 N4 N5 N6]. constructor; try done. cbn [i_ix set_mo].
    destruct (Hm (n_map_id x)) as (-> & _ & _ & -> & -> & _). done.
  - intros w j Hj%Hl. by apply V14.
Qed.

(** ** The objects of one map *)

(** The first [i] maps, and of map [v] after them the first [j] objects. *)
Definition upto I (i : nat) v j : img := Img (i_proc I) (take (S i) (i_ix I)) (λ w, if decide (w = v) then set_m_numchunks j (i_mo I v) else i_mo I w) (i_ch I) (i_by I).

Record loading n k s I (i : nat) v j : Prop := {
  ld_disk : disk (files s) I;
  ld_wf : gwf n k I;
  ld_maps : maps_ok (maps s) (files s);
  ld_ix : i_ix I !! i = Some v;
  ld_vol : vol s (upto I i v j) ∅;
  ld_names : names_img (objnamemap s) (upto I i v j);
  ld_n : n ≤ MAX_RECORDS
}.

Lemma elem_take I (i : nat) w : w ∈ take i (i_ix I) → w ∈ i_ix I.
Proof. intros Hw. rewrite <- (take_drop i (i_ix I)). apply elem_of_app. by left. Qed.

Lemma upto_v I i v j : i_ix I !! i = Some v → v ∈ i_ix (upto I i v j).
Proof. intros E. change (v ∈ take (S i) (i_ix I)). apply (list_elem_of_lookup_2 _ i). by rewrite lookup_take_lt by lia. Qed.

Lemma upto_mo I i v j : i_mo (upto I i v j) v = set_m_numchunks j (i_mo I v).
Proof. cbn. by rewrite decide_True. Qed.
Lemma upto_mo_ne I i v j w : w ≠ v → i_mo (upto I i v j) w = i_mo I w.
Proof. intros. cbn. by rewrite decide_False. Qed.

(** What is read was there. *)
Lemma upto_live I i v j w j' : j ≤ m_numchunks (i_mo I v) → live (upto I i v j) w j' → live I w j' ∧ (w = v → j' < j).
Proof.
  intros Hj (Hw & Hj' & Hval). split; [|intros ->; rewrite upto_mo in Hj'; cbn in Hj'; lia]. split; [by apply (elem_take I (S i))|split; [|done]].
  destruct (decide (w = v)) as [->|Hne]; [rewrite upto_mo in Hj'; cbn in Hj'; lia|by rewrite upto_mo_ne in Hj'].
Qed.

Lemma live_upto_S I i v j w j' :
  i_ix I !! i = Some v → 0 ≤ j → live (upto I i v (j + 1)) w j' ↔ live (upto I i v j) w j' ∨ (w = v ∧ j' = j ∧ c_valid (i_ch I v j) ≠ INVALID).
Proof.
  intros Hi Hj. pose proof (upto_v I i v j Hi) as Hv. unfold live. change (i_ix (upto I i v (j + 1))) with (i_ix (upto I i v j)). destruct (decide (w = v)) as [->|Hne]; [rewrite !upto_mo|rewrite !upto_mo_ne by done; naive_solver]. cbn [set_m_numchunks m_numchunks i_ch upto].
  destruct (decide (j' = j)) as [->|Hj']; [split; [intros (_ & _ & ?); by right|intros [(_ & ? & _)|(_ & _ & ?)]; [lia|split_and!; [done|lia|lia|done]]]|].
  split; [intros (? & ? & ?); left; split_and!; [done|lia|lia|done]|intros [(? & ? & ?)|(_ & ? & _)]; [split_and!; [done|lia|lia|done]|done]].
Qed.

Lemma live_upto_core I I' i v j w j' : same_core I I' → live (upto I' i v j) w j' ↔ live (upto I i v j) w j'.
Proof.
  intros [_ Ei Em Ec _]. unfold live. change (i_ix (upto I' i v j)) with (take (S i) (i_ix I')). rewrite Ei. cbn [i_ch upto]. destruct (Ec w j') as (_ & _ & _ & -> & _).
  destruct (decide (w = v)) as [->|Hne]; [by rewrite !upto_mo|]. rewrite !upto_mo_ne by done. by destruct (Em w) as (_ & _ & -> & _).
Qed.

Section load.
Context (malloc : gset Z → Z).
Hypothesis malloc_fresh : fresh_malloc malloc.

(** The structure of a map is at the same place all the time. *)
Lemma loading_room n k s I i v j : loading n k s I i v j → mo_off i + sizeof_mmapobj ≤ PROC_METADAT_SZ.
Proof. intros [_ W _ E%lookup_lt_Some _ _ ?]. pose proof (g_ixn _ _ _ W). unfold MAX_RECORDS, mo_off, sizeof_proc, sizeof_mmapobj, PROC_METADAT_SZ in *. lia. Qed.

Lemma wp_loading_mo n k s I i v j a (Q : mmapobj_s → nvstate → Prop) : loading n k s I i v j → points (maps s) a fproc (mo_off i) → Q (i_mo I v) s → wp (load_mmapobj a) s Q.
Proof. intros Hl Ha HQ. pose proof (loading_room _ _ _ _ _ _ _ Hl). destruct Hl as [D W Mp Ei V Nm ?]. eapply wp_load_mmapobj; [exact Mp|exact Ha|apply D|done|exact (d_mo _ _ D _ _ Ei)|done]. Qed.

(** One object was passed, the structure of the map is written. *)
Record passed n k s I (i : nat) v j (a : Z) s' : Prop := {
  ps_maps : maps s' = maps s ∧ map_tree s' = map_tree s;
  ps_img : ∃ I', same_core I I' ∧ loading n k s' I' i v (j + 1) ∧ m_strt_addr (i_mo I' v) = m_strt_addr (i_mo I v) ∧ m_chunk_tree_init (i_mo I' v) = m_chunk_tree_init (i_mo I v)
}.

Lemma core_mo I v m : (let m0 := i_mo I v in m_vma_id m = m_vma_id m0 ∧ m_proc_id m = m_proc_id m0 ∧ m_numchunks m = m_numchunks m0 ∧ m_meta_offset m = m_meta_offset m0 ∧ m_length m = m_length m0) → same_core I (set_mo I v m).
Proof. intros E. constructor; [done|done| |done|done]. intros w. cbn. case_decide as Hw; [by subst|done]. Qed.

Lemma core_nv I v j z : same_core I (set_ch I v j (set_c_nv_ptr z (i_ch I v j))).
Proof. constructor; [done|done|done| |done]. intros w j'. cbn. case_decide as Hw; [by destruct Hw as [-> ->]|done]. Qed.

Lemma wp_pass_dead n k s I i v j a z (Q : unit → nvstate → Prop) :
  loading n k s I i v j → points (maps s) a fproc (mo_off i) → 0 ≤ j < m_numchunks (i_mo I v) → c_valid (i_ch I v j) = INVALID → m_chunk_tree_init (i_mo I v) ≠ 0 →
  (∀ s', passed n k s I i v j a s' → Q tt s') → wp (upd_mmapobj a (λ m, set_m_mmap_offset (m_mmap_offset m + z) m)) s Q.
Proof.
  intros Hl Ha Hj Hdead Hinit HQ. pose proof (loading_room _ _ _ _ _ _ _ Hl) as Hroom. pose proof Hl as [D W Mp Ei V Nm ?]. eapply wp_upd_mmapobj; [exact Mp|exact Ha|apply D|done|exact (d_mo _ _ D _ _ Ei)|]. cbv beta. set (m' := set_m_mmap_offset _ _).
  pose proof (list_elem_of_lookup_2 _ _ _ Ei) as Hv. apply HQ. constructor; [done|]. exists (set_mo I v m'). split_and!; [by apply core_mo| |by rewrite set_mo_eq|by rewrite set_mo_eq].
  assert (Hlive : ∀ w j', live (upto (set_mo I v m') i v (j + 1)) w j' ↔ live (upto I i v j) w j').
  { intros w j'. rewrite (live_upto_S (set_mo I v m') i v j w j' Ei), (live_upto_core I) by (lia || by apply core_mo). naive_solver. }
  constructor; [apply disk_mo; [done|apply W|done|done|intros j' Hj'; by apply (d_ch _ _ D)]|by eapply gwf_core, core_mo|by apply maps_ok_fput|done| | |done].
  - apply vol_files. eapply vol_same; [apply (vol_mo s (upto I i v j) ∅ v (set_m_numchunks (j + 1) m') V (upto_v _ _ _ _ Ei))|]; rewrite ?upto_mo; try done.
    + cbn. lia.
    + intros w j'. rewrite <- Hlive. unfold live. cbn. rewrite (decide_True (P := v = v)) by done. by destruct (decide (w = v)).
    + constructor; [done|done| |done]. intros w. cbn. rewrite (decide_True (P := v = v)) by done. by destruct (decide (w = v)).
  - eapply names_img_ext; [exact Nm|done|done].
Qed.

Lemma wp_pass_live n k s I i v j a x z (Q : unit → nvstate → Prop) :
  loading n k s I i v j → points (maps s) a fproc (mo_off i) → points (maps s) x (fmeta v) (ch_off j) → 0 ≤ j < m_numchunks (i_mo I v) → c_valid (i_ch I v j) ≠ INVALID → m_chunk_tree_init (i_mo I v) ≠ 0 →
  (∀ s', passed n k s I i v j a s' → Q tt s') →
  wp (m ← load_mmapobj a; upd_chunkobj x (set_c_nv_ptr (m_data_addr m + c_offset (i_ch I v j)));; r ← add_chunkobj malloc a x; check (r =? 0)) s
    (λ _ s', wp (upd_mmapobj a (λ m, set_m_mmap_offset (m_mmap_offset m + z) m)) s' Q).
Proof using malloc_fresh.
  intros Hl Ha Hx Hj Hval Hinit HQ. pose proof (loading_room _ _ _ _ _ _ _ Hl) as Hroom. pose proof Hl as [D W Mp Ei V Nm ?]. pose proof (list_elem_of_lookup_2 _ _ _ Ei) as Hv. assert (Hlive : live I v j) by done. destruct (g_m _ _ _ W v Hv) as (_ & _ & Hnc & _).
  assert (Hcroom : ch_off j + sizeof_chunkobj ≤ MMAP_METADATA_SZ) by (unfold MAX_RECORDS, ch_off, sizeof_chunkobj, MMAP_METADATA_SZ in *; lia).
  assert (Ha0 : is_null a = false) by (apply Z.eqb_neq; pose proof (points_pos _ _ _ _ _ Mp Ha); lia). assert (Hx0 : is_null x = false) by (apply Z.eqb_neq; pose proof (points_pos _ _ _ _ _ Mp Hx); lia).
  apply wp_bind. eapply wp_loading_mo; [done..|]. apply wp_bind. eapply wp_upd_chunkobj; [exact Mp|exact Hx|exact (d_meta _ _ D v Hv)|done|by apply (d_ch _ _ D)|]. set (c' := set_c_nv_ptr _ _). set (s1 := set_files _ s).
  assert (D1 : disk (files s1) (set_ch I v j c')) by (by apply disk_fput_ch). assert (Mp1 : maps_ok (maps s1) (files s1)) by (by apply maps_ok_fput).
  destruct (v_ctree _ _ _ V v (upto_v _ _ _ _ Ei)) as (C & HC); [by rewrite upto_mo|]. pose proof (ct_tree _ _ _ _ _ _ HC) as (_ & Ht0 & tr & Etr & HCr). rewrite upto_mo in Ht0, Etr. cbn in Ht0, Etr.
  destruct (g_c _ _ _ W v j Hlive) as (C1 & C2 & C3 & C4 & C5 & C6).
  apply wp_bind. unfold add_chunkobj. rewrite Ha0. apply wp_bind. eapply wp_load_mmapobj; [exact Mp1|exact Ha|apply D1|done|exact (d_mo _ _ D1 _ _ Ei)|]. cbn [i_mo set_ch]. apply wp_bind, wp_check; [unfold not_null; by rewrite (proj2 (Z.eqb_neq _ _) Ht0)|]. rewrite Hx0.
  apply wp_bind. eapply wp_load_chunkobj; [exact Mp1|exact Hx|exact (d_meta _ _ D1 v Hv)|done|exact (d_ch _ _ D1 v j Hv Hj)|]. rewrite set_ch_eq. apply wp_bind, wp_check; [unfold not_null; cbn; by rewrite (proj2 (Z.eqb_neq _ _)) by lia|].
  apply wp_bind. eapply (wp_insert_at malloc malloc_fresh); [exact Etr|exact HCr|]. intros tr' Htr'. apply wp_bind, wp_modify, wp_ret, wp_check; [done|]. set (s2 := set_objnamemap _ _).
  eapply (wp_upd_mmapobj s2); [exact Mp1|exact Ha|apply D1|done|exact (d_mo _ _ D1 _ _ Ei)|]. cbv beta. cbn [i_mo set_ch]. set (m' := set_m_mmap_offset _ _). apply HQ. constructor; [done|].
  set (I' := set_mo (set_ch I v j c') v m'). assert (Hcore : same_core I I') by (eapply same_core_trans; [apply core_nv|by apply core_mo]). exists I'. unfold I' at 3 4. rewrite set_mo_eq. split_and!; [done| |done|done].
  assert (Hold : ∀ w j', live (upto I i v j) w j' → live I w j' ∧ (w, j') ≠ (v, j)). { intros w j' [Hlw Hlt]%upto_live; [|lia]. split; [done|]. intros [= -> ->]. specialize (Hlt eq_refl). lia. }
  assert (HE : m_numchunks (i_mo (upto I i v j) v) = j) by (by rewrite upto_mo).
  constructor; [apply disk_mo; [done|apply W|done|done|intros j' Hj'; by apply (d_ch _ _ D1)]|by eapply gwf_core|by apply maps_ok_fput|done| | |done].
  - pose proof (vol_add s1 (upto I i v j) ∅ v c' (set_m_numchunks (j + 1) m') (i_by I v) (vol_files _ _ _ _ V) (upto_v _ _ _ _ Ei) ltac:(lia)) as HV. rewrite !upto_mo in HV. cbn [m_chunkobj_tree set_m_numchunks m_numchunks] in HV.
    apply vol_files. eapply vol_same; [apply vol_names; eapply HV; [..|exact HC|exact Hx|exact Htr']|].
    + done.
    + done.
    + intros w j' [Hlw Hne]%Hold E. apply Hne. by destruct (g_uniq _ _ _ W _ _ _ _ Hlw Hlive E) as [-> ->].
    + set_solver.
    + constructor; [done|done| |].
      * intros w. cbn. rewrite (decide_True (P := v = v)) by done. by destruct (decide (w = v)).
      * intros w j'. cbn. rewrite (decide_True (P := v = v)) by done. cbn. by destruct (decide (w = v ∧ j' = j)).
  - intros y zz. cbn [objnamemap s2 set_objnamemap set_files set_trees]. rewrite lookup_insert_Some. assert (En : ∀ w j', c_objname (i_ch (upto I' i v (j + 1)) w j') = c_objname (i_ch I w j')) by (intros w j'; change (i_ch (upto I' i v (j + 1))) with (i_ch I'); by destruct (sc_ch _ _ Hcore w j') as (_ & _ & _ & _ & -> & _)).
    assert (Hls : ∀ w j', live (upto I' i v (j + 1)) w j' ↔ live (upto I i v j) w j' ∨ (w = v ∧ j' = j)).
    { intros w j'. rewrite (live_upto_core I I') by done. rewrite (live_upto_S I i v j w j' Ei) by lia. naive_solver. }
    split.
    + intros [[<- <-]|[Hne (-> & w & j' & Hlw & Ey)%Nm]]; (split; [done|]); [exists v, j; rewrite En; split; [apply Hls; by right|done]|]. exists w, j'. rewrite En. split; [apply Hls; by left|done].
    + intros (-> & w & j' & Hlw%Hls & Ey). rewrite En in Ey. destruct Hlw as [Hlw|[-> ->]]; [|by left]. destruct (decide (c_objname c' = y)) as [E|Hne]; [by left|right]. split; [done|]. apply Nm. eauto.
Qed.

Lemma wp_restore_loop n k s I i v j a cnt :
  loading n k s I i v j → points (maps s) a fproc (mo_off i) → 0 ≤ j → j + Z.of_nat cnt = m_numchunks (i_mo I v) → (cnt ≠ 0%nat → m_chunk_tree_init (i_mo I v) ≠ 0) →
  wp (restore_loop malloc cnt a (m_strt_addr (i_mo I v) + ch_off j)) s (λ _ s', (maps s' = maps s ∧ map_tree s' = map_tree s) ∧ ∃ I', same_core I I' ∧ loading n k s' I' i v (m_numchunks (i_mo I v))).
Proof using malloc_fresh.
  revert s I j. induction cnt as [|cnt IH]; intros s I j Hl Ha Hj Hcnt Hinit; cbn [restore_loop].
  - apply wp_ret. split; [done|]. exists I. split; [apply same_core_refl|]. by replace (m_numchunks (i_mo I v)) with j by lia.
  - specialize (Hinit ltac:(done)). pose proof Hl as [D W Mp Ei V Nm ?]. pose proof (list_elem_of_lookup_2 _ _ _ Ei) as Hv. destruct (g_m _ _ _ W v Hv) as (_ & _ & Hnc & _). set (x := m_strt_addr (i_mo I v) + ch_off j).
    assert (Hcroom : ch_off j + sizeof_chunkobj ≤ MMAP_METADATA_SZ) by (unfold MAX_RECORDS, ch_off, sizeof_chunkobj, MMAP_METADATA_SZ in *; lia).
    assert (Hx : points (maps s) x (fmeta v) (ch_off j)).
    { pose proof (v_strt _ _ _ V v (upto_v _ _ _ _ Ei)) as Hs. rewrite upto_mo in Hs. pose proof (points_add _ _ _ _ 0 (ch_off j) _ Mp Hs (d_meta _ _ D v Hv) ltac:(unfold ch_off, sizeof_chunkobj in *; lia)) as Hp. by rewrite Z.add_0_l in Hp. }
    assert (Hrest : ∀ s', passed n k s I i v j a s' → wp (restore_loop malloc cnt a (x + sizeof_chunkobj)) s' (λ _ s', (maps s' = maps s ∧ map_tree s' = map_tree s) ∧ ∃ I', same_core I I' ∧ loading n k s' I' i v (m_numchunks (i_mo I v)))).
    { intros s' [[Em Et] (I' & Hc & Hl' & E1 & E2)]. replace (x + sizeof_chunkobj) with (m_strt_addr (i_mo I' v) + ch_off (j + 1)) by (rewrite E1; unfold x, ch_off, sizeof_chunkobj; lia). destruct (sc_mo _ _ Hc v) as (_ & _ & E3 & _).
      eapply wp_mono; [eapply (IH s' I' (j + 1)); [done|by rewrite Em|lia|rewrite E3; lia|by rewrite E2]|]. intros [] s'' [[Em' Et'] (I'' & Hc' & Hl'')]. split; [split; congruence|]. exists I''. split; [by eapply same_core_trans|by rewrite <- E3]. }
    apply wp_bind. eapply wp_load_chunkobj; [exact Mp|exact Hx|exact (d_meta _ _ D v Hv)|done|apply (d_ch _ _ D); [done|lia]|]. apply wp_bind. destruct (Z.eqb_spec (c_valid (i_ch I v j)) INVALID) as [Ed|Ed]; cbn [negb when].
    + apply wp_ret, wp_bind. eapply wp_pass_dead; [done|done|lia|done|done|]. done.
    + eapply wp_mono; [eapply (wp_pass_live n k s I i v j a x sizeof_chunkobj (λ _ s', wp (restore_loop malloc cnt a (x + sizeof_chunkobj)) s' _)); [done|done|done|lia|done|done|exact Hrest]|]. cbv beta. intros [] s' Hw. by apply wp_bind.
Qed.
Context (mmap : gmap Z (string * Z) → Z → Z → Z).
Hypothesis mmap_fresh : fresh_mmap mmap.


(** ** One map *)

Definition restr I (i : nat) : img := Img (i_proc I) (take i (i_ix I)) (i_mo I) (i_ch I) (i_by I).

Record ready n k s I (i : nat) pp : Prop := {
  rd_disk : disk (files s) I;
  rd_wf : gwf n k I;
  rd_maps : maps_ok (maps s) (files s);
  rd_vol : vol s (restr I i) ∅;
  rd_names : names_img (objnamemap s) (restr I i);
  rd_pp : points (maps s) pp fproc 0;
  rd_tree : map_tree s = None;
  rd_n : n ≤ MAX_RECORDS
}.

Lemma wp_existing f s (Q : bool → nvstate → Prop) n : size_at (files s) f = Some n → Q true s → wp (check_existing_map_file f) s Q.
Proof.
  intros Hs HQ. unfold check_existing_map_file. apply wp_bind, wp_gets. cbn [id]. apply wp_ret. rewrite bool_decide_true; [done|]. unfold size_at in Hs. destruct (files s !! f); [eauto|done].
Qed.

Section map.
Context (n k : Z) (I : img) (i : nat) (v a : Z).
Hypothesis W : gwf n k I.
Hypothesis Hn : n ≤ MAX_RECORDS.
Hypothesis Ei : i_ix I !! i = Some v.

Lemma map_room : mo_off i + sizeof_mmapobj ≤ PROC_METADAT_SZ.
Proof using W Hn Ei. pose proof (lookup_lt_Some _ _ _ Ei). pose proof (g_ixn _ _ _ W). unfold MAX_RECORDS, mo_off, sizeof_proc, sizeof_mmapobj, PROC_METADAT_SZ in *. lia. Qed.

Lemma wp_load_at s m (Q : mmapobj_s → nvstate → Prop) :
  maps_ok (maps s) (files s) → disk (files s) (set_mo I v m) → points (maps s) a fproc (mo_off i) → Q m s → wp (load_mmapobj a) s Q.
Proof using W Hn Ei. intros Mp D Ha HQ. eapply wp_load_mmapobj; [exact Mp|exact Ha|apply D|apply map_room|exact (d_mo _ _ D _ _ Ei)|]. by rewrite set_mo_eq. Qed.

Lemma wp_upd_at s m g (Q : unit → nvstate → Prop) :
  maps_ok (maps s) (files s) → disk (files s) (set_mo I v m) → points (maps s) a fproc (mo_off i) → m_length (g m) = m_length m → m_numchunks (g m) = m_numchunks m →
  (∀ fs', maps_ok (maps s) fs' → disk fs' (set_mo I v (g m)) → Q tt (set_files fs' s)) → wp (upd_mmapobj a g) s Q.
Proof using W Hn Ei.
  intros Mp D Ha E1 E2 HQ. eapply wp_upd_mmapobj; [exact Mp|exact Ha|apply D|apply map_room|exact (d_mo _ _ D _ _ Ei)|]. rewrite set_mo_eq. apply HQ; [by apply maps_ok_fput|].
  eapply disk_ext; [apply (disk_mo _ _ i v (g m) D); [apply W|done|by rewrite set_mo_eq|]|done|done| |done|done].
  - intros j Hj. rewrite E2 in Hj. apply (d_ch _ _ D); [by eapply list_elem_of_lookup_2|]. by rewrite set_mo_eq.
  - intros w. cbn. by case_decide.
Qed.

(** The tree of the objects, if there are any. *)
Lemma wp_maybe_tree s m (Q : unit → nvstate → Prop) :
  maps_ok (maps s) (files s) → disk (files s) (set_mo I v m) → points (maps s) a fproc (mo_off i) → m_chunk_tree_init m = 0 →
  (∀ t z T' fs', let m' := set_m_chunk_tree_init z (set_m_chunkobj_tree t m) in maps_ok (maps s) fs' → disk fs' (set_mo I v m') → (z = 0 → m_numchunks m = 0) →
    (z ≠ 0 → t ≠ 0 ∧ trees s !! t = None ∧ T' !! t = Some rbtree_create) → (∀ x y, trees s !! x = Some y → T' !! x = Some y) → Q tt (set_files fs' (set_trees T' s))) →
  wp (when (is_null (m_chunk_tree_init m) && not_null (m_numchunks m)) (init_chunk_tree malloc a)) s Q.
Proof using W Hn Ei malloc_fresh.
  intros Mp D Ha Hi HQ. rewrite Hi. unfold not_null. destruct (Z.eqb_spec (m_numchunks m) 0) as [E|E]; cbn [is_null Z.eqb negb andb when].
  - apply wp_ret. specialize (HQ (m_chunkobj_tree m) 0 (trees s) (files s)). assert (Em : set_m_chunk_tree_init 0 (set_m_chunkobj_tree (m_chunkobj_tree m) m) = m) by (clear -Hi; unfold set_m_chunk_tree_init, set_m_chunkobj_tree; destruct m; cbn in *; by rewrite Hi).
    cbv zeta in HQ. rewrite Em in HQ. replace s with (set_files (files s) (set_trees (trees s) s)) at 1 by (by destruct s). by apply HQ.
  - unfold init_chunk_tree. apply wp_bind, wp_check; [unfold not_null; apply negb_true_iff, Z.eqb_neq; pose proof (points_pos _ _ _ _ _ Mp Ha); lia|]. apply wp_bind. eapply (wp_new_tree malloc malloc_fresh). intros t Ht0 Ht. set (s' := set_trees _ s).
    apply wp_bind. eapply (wp_upd_at s' m _ _ Mp D Ha); [done..|]. intros fs1 Mp1 D1. eapply (wp_upd_at (set_files fs1 s') _ _ _ Mp1 D1 Ha); [done..|]. intros fs2 Mp2 D2. apply (HQ t 1 (trees s') fs2); [done|done|done|intros _; split_and!; [done|done|apply lookup_insert_eq]|].
    intros x y Ex. cbn. rewrite lookup_insert_ne by congruence. done.
Qed.
End map.

Lemma loaded n k s s2 I i v j pp :
  loading n k s2 I i v j → j = m_numchunks (i_mo I v) → points (maps s) pp fproc 0 → maps s ⊆ maps s2 → map_tree s2 = None → ready n k s2 I (S i) pp.
Proof.
  intros [D W Mp Ei V Nm Hn] Ej Hpp Hsub Ht. assert (Em : ∀ w, i_mo (restr I (S i)) w = i_mo (upto I i v j) w).
  { intros w. destruct (decide (w = v)) as [->|Hne]; [|by rewrite upto_mo_ne]. rewrite upto_mo, Ej. cbn. by destruct (i_mo I v). }
  constructor; [done|done|done| | |by eapply points_mono|done|done].
  - eapply vol_same; [exact V|]. constructor; [done|done|exact Em|done].
  - eapply names_img_ext; [exact Nm| |done]. intros w j'. unfold live. by rewrite Em.
Qed.

Lemma live_upto_0 I m' i v w j : i_ix I !! i = Some v → NoDup (i_ix I) → live (upto (set_mo I v m') i v 0) w j ↔ live (restr I i) w j.
Proof.
  intros Ei Hnd. assert (Hin : w ∈ take (S i) (i_ix I) ↔ w ∈ take i (i_ix I) ∨ w = v) by (rewrite (take_S_r _ _ _ Ei), elem_of_app, list_elem_of_singleton; done).
  assert (Hv : v ∉ take i (i_ix I)). { intros (i' & Hi')%list_elem_of_lookup. pose proof (lookup_lt_Some _ _ _ Hi') as Hlt. rewrite length_take in Hlt. rewrite lookup_take_lt in Hi' by lia. pose proof (NoDup_lookup _ _ _ _ Hnd Ei Hi'). lia. }
  unfold live. change (i_ix (upto (set_mo I v m') i v 0)) with (take (S i) (i_ix I)). change (i_ix (restr I i)) with (take i (i_ix I)). rewrite Hin. destruct (decide (w = v)) as [->|Hne].
  - rewrite upto_mo. cbn. split; [lia|naive_solver].
  - rewrite upto_mo_ne by done. rewrite set_mo_ne by done. cbn. naive_solver.
Qed.

Lemma vol_start s I i v m' tr M T' mp' a :
  vol s (restr I i) ∅ → map_tree s = None → i_ix I !! i = Some v → NoDup (i_ix I) → v ≤ p_num_mmaps (i_proc I) →
  (m_chunk_tree_init m' ≠ 0 → m_chunkobj_tree m' ≠ 0 ∧ trees s !! m_chunkobj_tree m' = None ∧ T' !! m_chunkobj_tree m' = Some rbtree_create) →
  maps s ⊆ mp' → (∀ b f len, mp' !! b = Some (f, len) → maps s !! b = Some (f, len) ∨ f = fmeta v ∨ f = fdata v) →
  points mp' (m_strt_addr m') (fmeta v) 0 → points mp' (m_data_addr m') (fdata v) 0 →
  ptree (maps s) (trees s) (restr I i) M → T' !! p_mmapobj_tree (i_proc I) = Some tr → (∀ x y, x ≠ p_mmapobj_tree (i_proc I) → trees s !! x = Some y → T' !! x = Some y) → rb_map tr (<[v := a]> M) →
  points mp' a fproc (mo_off i) → vol (set_trees T' (set_maps mp' s)) (upto (set_mo I v m') i v 0) ∅.
Proof.
  intros V Hmt Ei Hnd Hv Hinit Hsub Hmp Hs Hd HM Etr Hother Htr Ha. pose proof (lookup_lt_Some _ _ _ Ei) as Hlt. assert (El : length (i_ix (restr I i)) = i) by (cbn; rewrite length_take; lia).
  eapply vol_same; [eapply (vol_new_mo s (restr I i) ∅ v (i_proc I) (set_m_numchunks 0 m') (i_by I) a tr M T' mp'); try done|].
  - intros (i' & Hi')%list_elem_of_lookup. pose proof (lookup_lt_Some _ _ _ Hi') as Hlt'. rewrite El in Hlt'. cbn in Hi'. rewrite lookup_take_lt in Hi' by lia. pose proof (NoDup_lookup _ _ _ _ Hnd Ei Hi'). lia.
  - by rewrite El.
  - unfold maptree. rewrite Hmt. by intros N b x -> Eb.
  - constructor; [done| | |done].
    + cbn [i_ix upto set_mo restr]. apply take_S_r. done.
    + intros w. cbn. rewrite (decide_True (P := v = v)) by done. by case_decide.
Qed.

(** The structure is read, its files are mapped, its tree is made if it has objects. *)
Lemma wp_restore_map n k s I i v a pp :
  ready n k s I i pp → k < 2 ^ 31 → i_ix I !! i = Some v → points (maps s) a fproc (mo_off i) →
  wp (add_mmapobj malloc a pp) s (λ _ s1, wp (restore_chunk_objs malloc mmap a) s1 (λ r s2, r = 0 ∧ maps s ⊆ maps s2 ∧ ∃ I', same_core I I' ∧ ready n k s2 I' (S i) pp)).
Proof using malloc_fresh mmap_fresh.
  intros [D W Mp V Nm Hpp Hmt Hn] Hk Ei Ha. pose proof (list_elem_of_lookup_2 _ _ _ Ei) as Hv. destruct (g_m _ _ _ W v Hv) as (M1 & M2 & M3 & M4 & M5). pose proof (g_ix _ _ _ W v Hv) as Hvnum. pose proof (g_nd _ _ _ W) as Hnd. pose proof (g_num _ _ _ W) as Hnum.
  assert (Ha0 : is_null a = false) by (apply Z.eqb_neq; pose proof (points_pos _ _ _ _ _ Mp Ha); lia). assert (Hpp0 : is_null pp = false) by (apply Z.eqb_neq; pose proof (points_pos _ _ _ _ _ Mp Hpp); lia).
  assert (D0 : disk (files s) (set_mo I v (i_mo I v))). { eapply disk_ext; [exact D|done|done| |done|done]. intros w. cbn. case_decide; congruence. } set (m0 := i_mo I v) in *.
  destruct (v_ptree _ _ _ V) as (M & HM). pose proof HM as (Hpi & Hpt & (tr & Etr & HMr) & _ & _). cbn [i_proc restr] in Hpi, Hpt, Etr.
  (* the tree of maps *)
  unfold add_mmapobj. rewrite Ha0, Hpp0. assert (Hlp : ∀ Q, Q (i_proc I) s → wp (load_proc pp) s Q) by (intros Q' HQ'; eapply wp_load_proc; [exact Mp|exact Hpp|apply D|done|apply D|exact HQ']).
  apply wp_bind, Hlp. rewrite Hpi. cbn [is_null Z.eqb when]. apply wp_bind, wp_ret, wp_bind, Hlp. apply wp_bind, wp_check; [unfold not_null; by rewrite (proj2 (Z.eqb_neq _ _) Hpt)|].
  apply wp_bind. eapply (wp_load_at n k I i v a W Hn Ei s m0 _ Mp D0 Ha). rewrite M1. apply wp_bind. eapply (wp_insert_at malloc malloc_fresh); [exact Etr|exact HMr|]. intros tr' Htr'. set (s1 := set_trees _ s).
  apply wp_bind. eapply (wp_upd_at n k I i v a W Hn Ei s1 m0 _ _ Mp D0 Ha); [done..|]. intros fs1 Mp1 D1. set (m1 := set_m_proc_obj _ m0) in *. apply wp_ret.
  (* the file of metadata *)
  unfold restore_chunk_objs. apply wp_bind, wp_check; [unfold not_null, is_null in *; by rewrite Ha0|]. apply wp_bind. eapply (wp_load_at n k I i v a W Hn Ei (set_files fs1 s1) m1 _ Mp1 D1 Ha). cbv zeta. change (m_vma_id m1) with (m_vma_id m0). change (m_proc_id m1) with (m_proc_id m0). rewrite M1, M2.
  apply wp_bind. eapply (wp_upd_at n k I i v a W Hn Ei (set_files fs1 s1) m1 _ _ Mp1 D1 Ha); [done..|]. intros fs2 Mp2 D2. rewrite set_files_twice. set (m2 := set_m_chunk_tree_init 0 m1) in *.
  apply wp_bind. unfold map_to_get_chunk_list. cbn [r_pid r_id r_bytes]. fold (fmeta v). apply wp_bind. eapply (wp_existing _ (set_files fs2 s1)); [exact (d_meta _ _ D2 v Hv)|]. cbn [negb when]. apply wp_bind, wp_ret.
  apply wp_bind. eapply (wp_os_mmap mmap mmap_fresh (set_files fs2 s1)); [exact Mp2|exact (d_meta _ _ D2 v Hv)|done|]. intros r1 Hr1 Hr10 Hr1n Mp3 Hsub1. set (s3 := set_maps _ _). assert (Ha3 : points (maps s3) a fproc (mo_off i)) by (by eapply points_mono).
  eapply (wp_upd_at n k I i v a W Hn Ei s3 m2 _ _ Mp3 D2 Ha3); [done..|]. intros fs4 Mp4 D4. set (m4 := set_m_strt_addr r1 m2) in *.
  apply wp_bind. eapply (wp_load_at n k I i v a W Hn Ei (set_files fs4 s3) m4 _ Mp4 D4 Ha3). change (m_strt_addr m4) with r1. change (m_vma_id m4) with (m_vma_id m0). change (m_proc_id m4) with (m_proc_id m0). rewrite M1, M2. cbv zeta. fold (fdata v).
  apply wp_bind, wp_check; [by rewrite (proj2 (Z.eqb_neq _ _) Hr1)|]. apply wp_bind, wp_check; [unfold not_null; apply negb_true_iff, Z.eqb_neq; lia|].
  apply wp_bind. eapply (wp_upd_at n k I i v a W Hn Ei (set_files fs4 s3) m4 _ _ Mp4 D4 Ha3); [done..|]. intros fs5 Mp5 D5. rewrite set_files_twice. set (m5 := set_m_mmap_offset 0 m4) in *.
  (* the file of data *)
  pose proof (d_data _ _ D5 v Hv) as Hd5. rewrite set_mo_eq in Hd5.
  apply wp_bind. eapply (wp_existing _ (set_files fs5 s3)); [exact Hd5|]. cbn [negb].
  apply wp_bind. eapply (wp_os_mmap mmap mmap_fresh (set_files fs5 s3)); [exact Mp5|exact Hd5|apply M5|]. intros r2 Hr2 Hr20 Hr2n Mp6 Hsub2. set (s6 := set_maps _ _). assert (Ha6 : points (maps s6) a fproc (mo_off i)) by (by eapply points_mono).
  apply wp_bind. eapply (wp_upd_at n k I i v a W Hn Ei s6 m5 _ _ Mp6 D5 Ha6); [done..|]. intros fs7 Mp7 D7. set (m7 := set_m_data_addr r2 m5) in *.
  apply wp_bind, wp_check; [unfold not_null; apply negb_true_iff, Z.eqb_neq; lia|]. apply wp_bind. eapply (wp_load_at n k I i v a W Hn Ei (set_files fs7 s6) m7 _ Mp7 D7 Ha6).
  apply wp_bind. eapply (wp_maybe_tree n k I i v a W Hn Ei (set_files fs7 s6) m7 _ Mp7 D7 Ha6); [done|]. cbv zeta. intros t z T fs8 Mp8 D8 Hz0 Hz1 HT. set (m8 := set_m_chunk_tree_init z _) in *. set (s8 := set_files fs8 _).
  assert (Hl : loading n k s8 (set_mo I v m8) i v 0).
  { constructor; [done|by apply (gwf_core n k I), core_mo|done|done| | |done].
    - refine (vol_files _ _ _ _ (vol_start s I i v m8 tr' M T (maps s6) a V Hmt Ei Hnd ltac:(lia) _ _ _ _ _ HM _ _ Htr' _)).
      + intros Hz. destruct (Hz1 Hz) as (Ht0 & Ht & HTt). split_and!; [done| |done]. cbn in Ht. destruct (decide (t = p_mmapobj_tree (i_proc I))) as [->|Hne]; [by rewrite lookup_insert_eq in Ht|by rewrite lookup_insert_ne in Ht by done].
      + by etransitivity.
      + intros b f len. cbn. rewrite !lookup_insert_Some. intros [[_ [= <- <-]]|[_ [[_ [= <- <-]]|[_ E]]]]; auto.
      + eapply points_mono; [exact Hsub2|]. eapply points_here; [exact Mp3|apply lookup_insert_eq].
      + eapply points_here; [exact Mp6|apply lookup_insert_eq].
      + apply HT. apply lookup_insert_eq.
      + intros x y Hx Ex. apply HT. cbn. by rewrite lookup_insert_ne.
      + done.
    - eapply names_img_ext; [exact Nm| |done]. intros w j. by apply live_upto_0. }
  apply wp_bind. replace r1 with (m_strt_addr (i_mo (set_mo I v m8) v) + ch_off 0) by (rewrite set_mo_eq; change (m_strt_addr m8) with r1; unfold ch_off; lia).
  eapply wp_mono; [eapply (wp_restore_loop n k s8 (set_mo I v m8) i v 0 a); rewrite ?set_mo_eq; [done|done|lia|change (m_numchunks m8) with (m_numchunks m7); rewrite Z2Nat.id by apply M3; lia|intros Hc Ez; apply Hc; by rewrite (Hz0 Ez)]|].
  cbv beta. intros [] s9 [[Em9 Et9] (I9 & Hc9 & Hl9)]. assert (Hs9 : maps s ⊆ maps s9) by (rewrite Em9; by etransitivity). apply wp_ret. split_and!; [done|done|]. exists I9. split; [eapply same_core_trans; [|exact Hc9]; by apply core_mo|].
  eapply (loaded n k s); [exact Hl9| |done|done|by rewrite Et9]. by destruct (sc_mo _ _ Hc9 v) as (_ & _ & -> & _).
Qed.
End load.
