(* ===== verification/StoreStart.v ===== *)
(** * The object store: [nvinit]

    A process that starts with the files that another one left has its
    objects again: their names, their committed sizes and their bytes. *)

From stdpp Require Import strings.
From S2P Require Import Prelude Rbtree RbtreeSpec RbtreeMap Store StoreMem StoreInv StoreOps StoreRecord StoreAdd StoreLoad.

Implicit Types (I : img) (s : nvstate) (fs : gmap string file) (v j id : Z) (st : gset Z) (m : gmap Z aobj).

(** What the files hold between processes: nothing at all, or the objects [m]. *)
Definition stored (n k : Z) fs m : Prop := (size_at fs fproc = None ∧ m = ∅) ∨ ∃ I, disk fs I ∧ gwf n k I ∧ objs_of I m.

(** Nothing that an operation leaves is in memory only. *)
Lemma inv_stored n k s m st : inv n k s m st → stored n k (files s) m.
Proof. intros (I & [D W _ _ _ _] & Ho & _). right. eauto. Qed.

Section start.
Context (malloc : gset Z → Z).
Hypothesis malloc_fresh : fresh_malloc malloc.
Context (mmap : gmap Z (string * Z) → Z → Z → Z).
Hypothesis mmap_fresh : fresh_mmap mmap.

(** ** All maps *)

Lemma wp_load_loop n k cnt s I i pp :
  ready n k s I i pp → k < 2 ^ 31 → (i + cnt = length (i_ix I))%nat →
  wp (load_loop malloc mmap cnt pp (pp + mo_off i)) s (λ r s', r = true ∧ ∃ I', same_core I I' ∧ ready n k s' I' (length (i_ix I')) pp).
Proof using malloc_fresh mmap_fresh.
  revert s I i. induction cnt as [|cnt IH]; intros s I i Hr Hk Hc; cbn [load_loop].
  - apply wp_ret. split; [done|]. exists I. split; [apply same_core_refl|]. by replace (length (i_ix I)) with i by lia.
  - pose proof Hr as [D W Mp V Nm Hpp Ht Hn]. destruct (lookup_lt_is_Some_2 (i_ix I) i ltac:(lia)) as [v Ei]. pose proof (map_room n k I i v W Hn Ei) as Hroom. pose proof (mo_off_pos i).
    assert (Ha : points (maps s) (pp + mo_off i) fproc (mo_off i)). { pose proof (points_add _ _ _ _ 0 (mo_off i) _ Mp Hpp (d_size _ _ D) ltac:(unfold sizeof_mmapobj in *; lia)) as Hp. by rewrite Z.add_0_l in Hp. }
    apply wp_bind. eapply wp_mono; [by eapply wp_restore_map|]. cbv beta. intros _ s1 Hw. apply wp_bind. eapply wp_mono; [exact Hw|]. cbv beta. intros r s2 (-> & Hsub & I' & Hc' & Hr'). cbn [not_null Z.eqb negb].
    replace (pp + mo_off i + sizeof_mmapobj) with (pp + mo_off (S i)) by (unfold mo_off, sizeof_mmapobj; lia).
    eapply wp_mono; [eapply (IH s2 I' (S i) Hr' Hk); rewrite (sc_ix _ _ Hc'); lia|]. cbv beta. intros r s3 [-> (I3 & Hc3 & Hr3)]. split; [done|]. exists I3. split; [by eapply same_core_trans|done].
Qed.

(** ** The file of the process *)

Definition empty_img : img := Img (Proc pid0 0 0 0 0 0 0 0 0 sizeof_proc) [] (λ _, zero_mmapobj) (λ _ _, zero_chunkobj) (λ _ _, 0).

Lemma gwf_empty n k : 0 ≤ n → 0 ≤ k → gwf n k empty_img.
Proof. intros. constructor; cbn; try done; try (by intros v Hv%elem_of_nil); try (by intros v j (Hv%elem_of_nil & _)); [constructor|intros v j v' j' (Hv%elem_of_nil & _)|intros v j j' (Hv%elem_of_nil & _)]; done. Qed.

Lemma objs_empty : objs_of empty_img ∅.
Proof. intros id o. split; [done|]. by intros (v & j & (Hv%elem_of_nil & _) & _). Qed.

Lemma disk_empty fs r : disk (fput fproc 0 (RProc (i_proc empty_img)) (fput fproc 0 r (fnew fproc PROC_METADAT_SZ fs))) empty_img.
Proof.
  rewrite fput_fput. constructor; cbn [i_ix empty_img]; try (by intros v Hv%elem_of_nil); try (by intros v j Hv%elem_of_nil); try (by intros v j r' Hv%elem_of_nil); try done.
  - by rewrite size_fput, size_fnew.
  - apply rec_fput. by rewrite size_fnew.
  - intros o Ho. rewrite rec_fput_ne by (right; unfold mo_off, sizeof_proc in Ho; cbn in Ho; lia). apply rec_fnew.
Qed.

Lemma wp_open n k s m (Q : Z → nvstate → Prop) :
  stored n k (files s) m → 0 ≤ n → 0 ≤ k → proc_list_init s = false → maps s = ∅ →
  (∀ r fs I, 0 < r → disk fs I → gwf n k I → objs_of I m → maps_ok {[r := (fproc, PROC_METADAT_SZ)]} fs → Q r (set_proc_map_start r (set_files fs (set_maps {[r := (fproc, PROC_METADAT_SZ)]} s)))) →
  wp (create_or_load_proc_obj mmap pid0) s Q.
Proof using mmap_fresh.
  intros Hs Hn Hk Hp Hm HQ. unfold create_or_load_proc_obj, find_process. apply wp_bind, wp_bind, wp_gets. cbn [id]. rewrite Hp. cbn [negb]. apply wp_ret. cbn [not_null Z.eqb negb]. fold fproc.
  assert (Hm0 : ∀ fs, maps_ok (maps s) fs) by (rewrite Hm; by constructor). apply wp_bind, wp_bind, wp_gets. cbn [id]. apply wp_ret. destruct Hs as [[Hs ->]|(I & D & W & Ho)].
  - rewrite bool_decide_false by (unfold size_at in Hs; intros [x E]; by rewrite E in Hs). cbn [negb]. apply wp_bind, wp_bind, wp_modify. change (<[fproc := File (u32 PROC_METADAT_SZ) ∅ (λ _, 0)]> (files s)) with (fnew fproc PROC_METADAT_SZ (files s)). set (s1 := set_files _ s).
    apply wp_bind. eapply (wp_os_mmap mmap mmap_fresh s1); [apply Hm0|apply size_fnew|done|]. intros r Hrf Hr0 Hrn Hm2 Hsub. set (s2 := set_maps _ s1). apply wp_bind, wp_check; [by rewrite (proj2 (Z.eqb_neq _ _) Hrf)|].
    assert (Hr : points (maps s2) r fproc 0) by (eapply points_here; [exact Hm2|apply lookup_insert_eq]).
    apply wp_bind. eapply (wp_store_rec s2); [exact Hm2|exact Hr|apply size_fnew|done|]. apply wp_bind. unfold intialize_proc_obj. eapply (wp_upd_proc (set_files _ s2) r fproc 0 PROC_METADAT_SZ); [by apply maps_ok_fput|exact Hr|by cbn; rewrite size_fput, size_fnew|done|cbn; apply rec_fput; by rewrite size_fnew|].
    apply wp_ret, wp_bind, wp_modify, wp_ret. unfold s2, s1. cbn [maps set_files set_maps files]. rewrite Hm. apply (HQ r _ empty_img); [done|apply disk_empty|by apply gwf_empty|apply objs_empty|]. do 2 apply maps_ok_fput. cbn in Hm2. by rewrite Hm in Hm2.
  - rewrite bool_decide_true by (pose proof (d_size _ _ D) as E; unfold size_at in E; destruct (files s !! fproc); [eauto|done]). cbn [negb]. apply wp_bind, wp_bind.
    eapply (wp_os_mmap mmap mmap_fresh s); [apply Hm0|apply D|done|]. intros r Hrf Hr0 Hrn Hm2 Hsub. apply wp_bind, wp_check; [by rewrite (proj2 (Z.eqb_neq _ _) Hrf)|]. apply wp_ret, wp_bind, wp_modify, wp_ret. rewrite Hm in *.
    replace (set_maps _ s) with (set_files (files s) (set_maps {[r := (fproc, PROC_METADAT_SZ)]} s)) by (by destruct s). by apply (HQ r (files s) I).
Qed.

(** ** The whole of it *)

Lemma wp_on_proc_tree s pp (Q : unit → nvstate → Prop) :
  proc_tree s = rbtree_create → (∀ tr, rb_map tr {[pid0 := pp]} → Q tt (set_proc_tree tr s)) → wp (on_proc_tree (rbtree_insert malloc pid0 pp IntComp)) s Q.
Proof using malloc_fresh.
  intros Es HQ. unfold on_proc_tree. apply wp_bind, wp_gets. cbn [id]. rewrite Es. pose proof (rbtree_insert_ok malloc malloc_fresh _ _ pid0 pp (rb_map_empty (V := Z))) as Hw. apply wp_Some in Hw as (r & tr & Eo & Htr).
  apply wp_bind. eapply wp_lift; [exact Eo|]. cbn. apply wp_bind, wp_modify, wp_ret. destruct r. by apply HQ.
Qed.

(** No map was read yet. *)
Lemma vol_none s I r t :
  g_initialized s = true → proc_list_init s = true → rb_map (proc_tree s) {[pid0 := r]} → proc_map_start s = r → maps s = {[r := (fproc, PROC_METADAT_SZ)]} → map_tree s = None → trees s = {[t := rbtree_create]} → t ≠ 0 →
  p_mmapobj_initialized (i_proc I) = 1 → p_mmapobj_tree (i_proc I) = t → vol s (restr I 0) ∅.
Proof.
  intros H1 H2 H3 H4 H5 H6 H7 Ht H8 H9. assert (Hr : points (maps s) r fproc 0) by (rewrite H5; exists r, PROC_METADAT_SZ; split_and!; [apply lookup_singleton_eq|lia|lia|done]).
  constructor; cbn [i_ix restr take]; try done; try (by intros v Hv%elem_of_nil); try (by intros v j (Hv%elem_of_nil & _)).
  - eauto.
  - by rewrite H4.
  - exists ∅. unfold ptree. cbn [i_proc restr i_ix take]. rewrite H7, H8, H9. split_and!; [done|done| |done|by intros v Hv%elem_of_nil]. exists rbtree_create. split; [apply lookup_singleton_eq|apply rb_map_empty].
  - intros v w Hv%elem_of_nil. done.
  - exists ∅. rewrite H6. by split_and!.
  - intros b v len. rewrite H5. intros [_ E%(f_equal fst)]%lookup_singleton_Some. by destruct (fproc_fdata v).
  - intros b v len. rewrite H5. intros [_ E%(f_equal fst)]%lookup_singleton_Some. by destruct (fproc_fmeta v).
Qed.

Lemma ready_inv n k s I m pp : ready n k s I (length (i_ix I)) pp → k < 2 ^ 31 → objs_of I m → inv n k s m ∅.
Proof.
  intros [D W Mp V Nm _ _ Hn] Hk Ho. assert (Ei : i_ix (restr I (length (i_ix I))) = i_ix I) by (cbn; by rewrite firstn_all).
  exists I. split_and!; [|done|].
  - constructor; [done|done|done| |done|done]. eapply vol_same; [exact V|]. by constructor.
  - eapply names_objs; [|done]. eapply names_img_ext; [exact Nm| |done]. intros v j. unfold live. by rewrite Ei.
Qed.

Lemma wp_load_process n k s m :
  stored n k (files s) m → 0 ≤ n ≤ MAX_RECORDS → 0 ≤ k < 2 ^ 31 →
  wp (load_process malloc mmap pid0) (set_g_initialized true (restart s)) (λ _ s', map_tree s' = None ∧ ∃ m', inv n k s' m' ∅ ∧ erase <$> m' = erase <$> m).
Proof using malloc_fresh mmap_fresh.
  intros Hs Hn Hk. set (s0 := set_g_initialized true (restart s)). unfold load_process. apply wp_bind, wp_gets. cbn [id]. apply wp_bind, wp_check; [done|]. apply wp_bind. eapply (wp_open n k s0 m); [done|lia|lia|done|done|].
  intros r fs I Hr0 D W Ho Mp. set (mp := {[r := (fproc, PROC_METADAT_SZ)]}) in *. assert (Hr : points mp r fproc 0) by (eapply points_here; [exact Mp|apply lookup_singleton_eq]). assert (Hrn : r ≠ 0) by lia. cbv zeta.
  apply wp_bind. eapply wp_upd_proc; [exact Mp|exact Hr|apply D|done|apply D|]. set (p2 := set_p_tree 0 0 (i_proc I)). set (s2 := set_files _ _). assert (D2 : disk (files s2) (set_proc I p2)) by (by apply disk_proc). assert (Mp2 : maps_ok mp (files s2)) by (by apply maps_ok_fput).
  apply wp_bind. unfold add_proc_obj, is_null. rewrite (proj2 (Z.eqb_neq _ _) Hrn). apply wp_bind, wp_gets. cbn [id]. change (proc_list_init s2) with false. cbn [negb when]. apply wp_bind, wp_modify. set (s3 := set_proc_tree _ s2).
  apply wp_bind. eapply (wp_load_proc s3); [exact Mp2|exact Hr|apply D2|done|apply D2|]. change (p_pid (i_proc (set_proc I p2))) with (p_pid (i_proc I)). rewrite (g_pid _ _ _ W). apply wp_bind. eapply (wp_on_proc_tree s3); [done|]. intros ptr Hptr. set (s4 := set_proc_tree ptr s3). apply wp_ret.
  apply wp_bind. eapply (wp_load_proc s4); [exact Mp2|exact Hr|apply D2|done|apply D2|]. cbn [p_mmapobj_initialized i_proc set_proc p2 set_p_tree Z.eqb when].
  apply wp_bind. unfold initialize_mmapobj_tree. apply wp_bind, wp_check; [unfold not_null; by rewrite (proj2 (Z.eqb_neq _ _) Hrn)|]. apply wp_bind. eapply (wp_load_proc s4); [exact Mp2|exact Hr|apply D2|done|apply D2|]. cbn [p_mmapobj_tree i_proc set_proc p2 set_p_tree is_null Z.eqb when].
  apply wp_bind. eapply (wp_new_tree malloc malloc_fresh). intros t Ht0 Ht. set (s5 := set_trees _ s4). apply wp_bind, wp_check; [unfold not_null; by rewrite (proj2 (Z.eqb_neq _ _) Ht0)|].
  eapply (wp_upd_proc s5); [exact Mp2|exact Hr|apply D2|done|apply D2|]. set (p6 := set_p_tree t 1 (i_proc (set_proc I p2))). set (s6 := set_files _ s5). assert (D6 : disk (files s6) (set_proc (set_proc I p2) p6)) by (by apply disk_proc). set (I6 := set_proc _ p6) in *.
  assert (Hc6 : same_core I I6) by (by constructor). assert (Mp6 : maps_ok mp (files s6)) by (by apply maps_ok_fput). apply wp_bind. eapply (wp_load_proc s6); [exact Mp6|exact Hr|apply D6|done|apply D6|].
  assert (Hrd : ready n k s6 I6 0 r).
  { constructor; [done|by eapply gwf_core|done| | |done|done|lia]. - by apply (vol_none s6 I6 r t). - intros x z. split; [done|]. by intros (_ & v & j & (Hv%elem_of_nil & _) & _). }
  apply wp_bind. change (r + sizeof_proc) with (r + mo_off 0). change (p_pesist_mmaps (i_proc I6)) with (p_pesist_mmaps (i_proc I)). rewrite (g_pesist _ _ _ W), Nat2Z.id.
  eapply wp_mono; [apply (wp_load_loop n k _ s6 I6 0 r Hrd); [lia|done]|]. cbv beta. intros b s7 [-> (I7 & Hc7 & Hr7)]. apply wp_ret. split; [apply Hr7|]. destruct (objs_core n k I I7 m Ho (same_core_trans _ _ _ Hc6 Hc7) W) as (m' & Ho' & Em). exists m'. split; [|done]. eapply ready_inv; [exact Hr7|lia|done].
Qed.

Lemma wp_nvinit n k s m :
  stored n k (files s) m → 0 ≤ n ≤ MAX_RECORDS → 0 ≤ k < 2 ^ 31 → wp (nvinit malloc mmap) (restart s) (λ r s', r = 0 ∧ map_tree s' = None ∧ ∃ m', inv n k s' m' ∅ ∧ erase <$> m' = erase <$> m).
Proof using malloc_fresh mmap_fresh.
  intros Hs Hn Hk. unfold nvinit, nv_initialize. apply wp_bind, wp_gets. cbn [id g_initialized restart]. apply wp_bind, wp_modify. apply wp_bind. eapply wp_mono; [by eapply wp_load_process|]. cbv beta. intros _ s' Hi. by apply wp_ret.
Qed.
End start.
