(* ===== verification/StoreSystem.v ===== *)
(** * The object store: what a program may rely on

    A program calls the store and goes on with what it gets.  The abstract
    store is a finite map from ids to objects with their name, address,
    committed size and bytes.  Every run of the code is a run of the abstract
    store, also when the process ends and another one starts in between. *)

From stdpp Require Import strings sorting.
From S2P Require Import Prelude Rbtree RbtreeSpec RbtreeMap Store StoreMem StoreInv StoreOps StoreRecord StoreAdd StoreLoad StoreStart.

Implicit Types (I : img) (s : nvstate) (fs : gmap string file) (v j id : Z) (st : gset Z) (m : gmap Z aobj) (R : gmap Z Z).

(** ** Programs *)

(** A new chunk for the allocator, a new object at the address that the
    allocator chose, without and with its id as an answer, a pointer to an object and its committed size, a byte of it
    read or written, by its name or its id, the size to commit, deleting, renaming, the list of names,
    and the end of the process and the start of the next. *)
Inductive op :=
  | OMap (sz : Z) | OAlloc (name : string) (len a : Z) | OAllocId (name : string) (len a : Z) | ORead (name : string) | OLoad (name : string) (i : Z) | OLoadId (id i : Z) | OStore (name : string) (i b : Z)
  | OCommit (name : string) (z : Z) | OCommitId (id z : Z) | ODelete (name : string) | ORename (src dest : string) | OList | ORestart.

Inductive ans := AUnit | AVal (x : Z) | AObj (p c : Z) | ANames (l : list string).

Inductive prog := Halt | Call (o : op) (k : ans → prog).

Section exec.
Context (malloc : gset Z → Z) (mmap : gmap Z (string * Z) → Z → Z → Z).

Definition exec (o : op) : MN ans :=
  match o with
  | OMap sz => r ← _mmap malloc mmap 0 sz (BASEID_GET + 1); mret (AVal r)
  | OAlloc name len a => p ← p_c_nvalloc_ malloc mmap (λ _, mret a) len (Some name) 0 ""; mret (AVal p)
  | OAllocId name len a => '(p, id) ← p_c_nvalloc_id malloc mmap (λ _, mret a) len name; mret (AObj p id)
  | ORead name => '(p, c) ← p_c_nvread_len malloc mmap name 0 (Rqst 0 "" 0 0 0 0 0); mret (AObj p c)
  | OLoad name i => p ← nvread_ malloc mmap name; x ← load_byte (p + i); mret (AVal x)
  | OLoadId id i => p ← nvread_id_ malloc mmap id; x ← load_byte (p + i); mret (AVal x)
  | OStore name i b => (p ← nvread_ malloc mmap name; store_byte (p + i) b);; mret AUnit
  | OCommit name z => p_c_nvcommitsz malloc name z;; mret AUnit
  | OCommitId id z => p_c_nvcommitsz_id malloc id z;; mret AUnit
  | ODelete name => nvdelete malloc name;; mret AUnit
  | ORename src dest => nv_renameobj malloc src dest;; mret AUnit
  | OList => l ← get_object_list; mret (ANames l)
  | ORestart => modify restart;; nvinit malloc mmap;; mret AUnit
  end.

Fixpoint run (p : prog) : MN (list (op * ans)) :=
  match p with
  | Halt => mret []
  | Call o k => r ← exec o; l ← run (k r); mret ((o, r) :: l)
  end.
End exec.

(** ** The abstract store *)

(** The objects, ids whose object was renamed in this run, the chunks that this
    run mapped, how many objects and chunks there ever were. *)
Record astate := AState { objs : gmap Z aobj; stale : gset Z; regions : gmap Z Z; recs : Z; nmaps : Z }.

Definition apart (a n b n' : Z) : Prop := a + n ≤ b ∨ b + n' ≤ a.
Definition osize (o : aobj) : Z := Z.of_nat (length (a_data o)).

(** The name of an object: short, with an id, and not one that was renamed. *)
Definition known (A : astate) (name : string) (o : aobj) : Prop :=
  strlen name < MAXOBJNAMELEN ∧ gen_id_from_str name ≠ 0 ∧ gen_id_from_str name ∉ stale A ∧ objs A !! gen_id_from_str name = Some o ∧ a_name o = name.

Definition known_id (A : astate) (id : Z) (o : aobj) : Prop := is_u32 id ∧ id ≠ 0 ∧ id ∉ stale A ∧ objs A !! id = Some o.

(** The block is in one chunk, and no object has a byte of it. *)
Definition room (A : astate) (a len : Z) : Prop :=
  0 < len < 2 ^ 32 ∧ recs A < MAX_RECORDS ∧ (∃ b sz, regions A !! b = Some sz ∧ b ≤ a ∧ a + len ≤ b + sz) ∧ ∀ id x, objs A !! id = Some x → apart a len (a_ptr x) (osize x).

Definition allowed (A : astate) (o : op) : Prop :=
  match o with
  | OMap sz => 0 < sz < 2 ^ 32 ∧ nmaps A + 1 < 2 ^ 31
  | OAlloc name len a | OAllocId name len a => fresh_name (objs A) (stale A) name ∧ room A a len
  | ORead name => strlen name < MAXOBJNAMELEN ∧ gen_id_from_str name ∉ stale A
  | OLoad name i | OStore name i _ => ∃ x, known A name x ∧ 0 ≤ i < osize x
  | OLoadId id i => ∃ x, known_id A id x ∧ 0 ≤ i < osize x
  | OCommit name _ => ∃ x, known A name x
  | OCommitId id _ => ∃ x, known_id A id x
  | ODelete name => strlen name < MAXOBJNAMELEN ∧ gen_id_from_str name ≠ 0 ∧ gen_id_from_str name ∉ stale A ∧ ∀ x, objs A !! gen_id_from_str name = Some x → a_name x = name
  | ORename src dest => (∃ x, known A src x) ∧ fresh_name (objs A) (stale A) dest
  | OList | ORestart => True
  end.

Definition with_objs (A : astate) m : astate := AState m (stale A) (regions A) (recs A) (nmaps A).

Definition new_obj (A : astate) (name : string) (len a : Z) : astate :=
  AState (<[gen_id_from_str name := Aobj name a 0 (replicate (Z.to_nat len) 0)]> (objs A)) (stale A) (regions A) (recs A + 1) (nmaps A).

Inductive astep (A : astate) : op → ans → astate → Prop :=
  | SMap sz r : 0 < r → (∀ b z, regions A !! b = Some z → apart r sz b z) → (∀ id x, objs A !! id = Some x → apart r sz (a_ptr x) (osize x)) →
      astep A (OMap sz) (AVal r) (AState (objs A) (stale A) (<[r := sz]> (regions A)) (recs A) (nmaps A + 1))
  | SAlloc name len a : astep A (OAlloc name len a) (AVal a) (new_obj A name len a)
  | SAllocId name len a : astep A (OAllocId name len a) (AObj a (gen_id_from_str name)) (new_obj A name len a)
  | SRead name x : objs A !! gen_id_from_str name = Some x → astep A (ORead name) (AObj (a_ptr x) (a_commit x)) A
  | SNone name : objs A !! gen_id_from_str name = None → astep A (ORead name) (AObj 0 0) A
  | SLoad name i x b : objs A !! gen_id_from_str name = Some x → a_data x !! Z.to_nat i = Some b → astep A (OLoad name i) (AVal b) A
  | SLoadId id i x b : objs A !! id = Some x → a_data x !! Z.to_nat i = Some b → astep A (OLoadId id i) (AVal b) A
  | SStore name i b x : objs A !! gen_id_from_str name = Some x →
      astep A (OStore name i b) AUnit (with_objs A (<[gen_id_from_str name := Aobj (a_name x) (a_ptr x) (a_commit x) (<[Z.to_nat i := b]> (a_data x))]> (objs A)))
  | SCommit name z x : objs A !! gen_id_from_str name = Some x →
      astep A (OCommit name z) AUnit (with_objs A (<[gen_id_from_str name := Aobj (a_name x) (a_ptr x) (u32 z) (a_data x)]> (objs A)))
  | SCommitId id z x : objs A !! id = Some x → astep A (OCommitId id z) AUnit (with_objs A (<[id := Aobj (a_name x) (a_ptr x) (u32 z) (a_data x)]> (objs A)))
  | SDelete name : astep A (ODelete name) AUnit (with_objs A (delete (gen_id_from_str name) (objs A)))
  | SRename src dest x : objs A !! gen_id_from_str src = Some x →
      astep A (ORename src dest) AUnit (AState (<[gen_id_from_str dest := Aobj dest (a_ptr x) (a_commit x) (a_data x)]> (delete (gen_id_from_str src) (objs A))) ({[gen_id_from_str src]} ∪ stale A) (regions A) (recs A) (nmaps A))
  | SList l : Sorted String.le l → NoDup l → (∀ x, x ∈ l ↔ ∃ id o, objs A !! id = Some o ∧ a_name o = x) → astep A OList (ANames l) A
  | SRestart m : erase <$> m = erase <$> objs A → astep A ORestart AUnit (AState m ∅ ∅ (recs A) (nmaps A)).

Inductive atrace : astate → list (op * ans) → astate → Prop :=
  | TNil A : atrace A [] A
  | TCons A o r A1 l A2 : astep A o r A1 → atrace A1 l A2 → atrace A ((o, r) :: l) A2.

(** Every call is allowed, whatever the answers are. *)
Fixpoint safe (A : astate) (p : prog) : Prop :=
  match p with
  | Halt => True
  | Call o k => allowed A o ∧ ∀ r A', astep A o r A' → safe A' (k r)
  end.

(** ** The code and the abstract store *)

Definition regs (mt : option (rbtree mmapobj_nodes)) R : Prop := ∃ N, maptree mt N ∧ ∀ b sz, R !! b = Some sz → ∃ x, N !! b = Some x ∧ n_end_addr x = b + sz.

Record sys s (A : astate) : Prop := {
  sy_inv : inv (recs A) (nmaps A) s (objs A) (stale A);
  sy_regs : regs (map_tree s) (regions A);
  sy_recs : 0 ≤ recs A ≤ MAX_RECORDS;
  sy_maps : 0 ≤ nmaps A < 2 ^ 31
}.

Lemma maptree_unique mt N N' : maptree mt N → maptree mt N' → N = N'.
Proof. unfold maptree. destruct mt; [apply rb_map_unique|congruence]. Qed.

(** An object is in one mapping of its file. *)
Lemma obj_in_map n k s I st v j : good n k s I st → live I v j →
  let c := i_ch I v j in ∃ b len, maps s !! b = Some (fdata v, len) ∧ b ≤ c_nv_ptr c ∧ c_nv_ptr c + c_length c ≤ b + len ∧ m_data_addr (i_mo I v) = b.
Proof.
  intros [D W Mp V _ _] Hl. cbv zeta. destruct (v_data _ _ _ V v (proj1 Hl)) as (b & len & Eb & Ea & _). exists b, len. destruct (mo_size _ _ Mp _ _ _ Eb) as (_ & _ & Es). rewrite (d_data _ _ D v (proj1 Hl)) in Es. injection Es as Es.
  destruct (g_c _ _ _ W v j Hl) as (_ & ? & ? & _). rewrite (v_nv _ _ _ V v j Hl). split_and!; [done|lia..].
Qed.

Lemma osize_to_obj n k I v j : gwf n k I → live I v j → osize (to_obj I v j) = c_length (i_ch I v j).
Proof. intros W Hl. destruct (g_c _ _ _ W v j Hl) as (? & _). unfold osize. cbn. apply length_block. lia. Qed.

Lemma avail_regs n k s I st m R b sz a len :
  good n k s I st → objs_of I m → regs (map_tree s) R → R !! b = Some sz → b ≤ a → a + len ≤ b + sz → (∀ id x, m !! id = Some x → apart a len (a_ptr x) (osize x)) → avail I s a len.
Proof.
  intros Hg Ho (N & HN & HR) Eb Hba Hend Hap. destruct (HR b sz Eb) as (x & Ex & Ee). exists N, b, x. split_and!; [done|done|done|lia|]. intros j Hl. cbv zeta.
  pose proof (Hap _ _ (objs_live _ _ _ _ Ho Hl)) as Ha. unfold apart in Ha. rewrite (osize_to_obj _ _ _ _ _ (gd_wf _ _ _ _ _ Hg) Hl) in Ha. cbn in Ha. rewrite (v_nv _ _ _ (gd_vol _ _ _ _ _ Hg) _ _ Hl) in Ha.
  destruct (v_map _ _ _ (gd_vol _ _ _ _ _ Hg)) as (N' & HN' & Hnode & _). rewrite (maptree_unique _ _ _ HN' HN) in Hnode. destruct (no_mo _ _ _ _ _ (Hnode b x Ex) (proj1 Hl)) as (Ed & _). rewrite Ed in Ha. lia.
Qed.

Lemma regs_same s s' R : map_tree s' = map_tree s → regs (map_tree s) R → regs (map_tree s') R.
Proof. by intros ->. Qed.

Section refine.
Context (malloc : gset Z → Z).
Hypothesis malloc_fresh : fresh_malloc malloc.
Context (mmap : gmap Z (string * Z) → Z → Z → Z).
Hypothesis mmap_fresh : fresh_mmap mmap.

(** What a step of the code has to give. *)
Definition simulates (A : astate) (o : op) (s : nvstate) : Prop := wp (exec malloc mmap o) s (λ r s', ∃ A', astep A o r A' ∧ sys s' A').

Lemma exec_map A s sz : sys s A → allowed A (OMap sz) → simulates A (OMap sz) s.
Proof using malloc_fresh mmap_fresh.
  intros [(I & Hg & Ho & Hnm) Hr Hn Hk] [Hsz Hmax]. unfold simulates. cbn [exec]. fold pid0. apply wp_bind. eapply (wp_mmap malloc malloc_fresh mmap mmap_fresh); [exact Hg|lia|done|].
  intros r s' N v Hg' Enm HN HN' Hr0 Hrn Emp. apply wp_ret. pose proof (gd_maps _ _ _ _ _ Hg') as Mp'. rewrite Emp in Mp'.
  assert (Hap : ∀ b f len, maps s !! b = Some (f, len) → apart r sz b len). { intros b f len Eb. apply (mo_apart _ _ Mp' r b (fdata v, sz) (f, len)); [apply lookup_insert_eq|by rewrite lookup_insert_ne by congruence|congruence]. }
  destruct Hr as (N' & HN1 & HR). rewrite (maptree_unique _ _ _ HN1 HN) in HR. eexists. split; [apply SMap; [done| |]|constructor; cbn [objs stale regions recs nmaps]; [| |done|lia]].
  - intros b z Eb. destruct (HR b z Eb) as (x & Ex & Ee). destruct (v_map _ _ _ (gd_vol _ _ _ _ _ Hg)) as (N2 & HN2 & Hnode & _). rewrite (maptree_unique _ _ _ HN2 HN) in Hnode.
    pose proof (Hap _ _ _ (no_map _ _ _ _ _ (Hnode b x Ex))) as Hx. unfold apart in *. lia.
  - intros id x (w & j & Hl & _ & ->)%Ho. destruct (obj_in_map _ _ _ _ _ _ _ Hg Hl) as (b & len & Eb & ? & ? & _). pose proof (Hap _ _ _ Eb) as Hx. unfold apart in *. rewrite (osize_to_obj _ _ _ _ _ (gd_wf _ _ _ _ _ Hg) Hl). cbn. lia.
  - exists (counted I). split_and!; [done|exact Ho|by rewrite Enm].
  - eexists. split; [exact HN'|]. intros b z [[<- <-]|[Hne Eb]]%lookup_insert_Some; [eexists; rewrite lookup_insert_eq; split; done|].
    destruct (HR b z Eb) as (x & Ex & Ee). exists x. by rewrite lookup_insert_ne.
Qed.

(** The block is recorded as a new object. *)
Lemma wp_je_malloc A s name len a (Q : Z * rqst_s → nvstate → Prop) :
  sys s A → fresh_name (objs A) (stale A) name → room A a len →
  (∀ rqst s', r_id rqst = gen_id_from_str name → sys s' (new_obj A name len a) → not_null a = true → Q (a, rqst) s') → wp (je_malloc_ malloc mmap (λ _, mret a) (Rqst len name 0 (BASEID_GET + 1) 0 0 (u32 len))) s Q.
Proof using malloc_fresh mmap_fresh.
  intros [(I & Hg & Ho & Hnm) Hr Hn Hk] Hf (Hlen & Hmax & (b & sz & Eb & Hba & Hend) & Hap) HQ. pose proof (avail_regs _ _ _ _ _ _ _ _ _ _ _ Hg Ho Hr Eb Hba Hend Hap) as Hav.
  assert (Ha0 : not_null a = true). { destruct Hr as (N & HN & HR). destruct (HR b sz Eb) as (x & Ex & _). destruct (v_map _ _ _ (gd_vol _ _ _ _ _ Hg)) as (N' & HN' & Hnode & _). rewrite (maptree_unique _ _ _ HN' HN) in Hnode.
    destruct (mo_size _ _ (gd_maps _ _ _ _ _ Hg) _ _ _ (no_map _ _ _ _ _ (Hnode b x Ex))). apply negb_true_iff, Z.eqb_neq. lia. }
  unfold je_malloc_. cbv zeta. cbn [r_var_name r_pid r_offset r_commitsz]. rewrite (u32_small len), (proj2 (Z.eqb_neq len 0)) by (unfold is_u32; lia). apply wp_bind, wp_ret, wp_bind, wp_check; [done|]. apply wp_bind.
  eapply (wp_record malloc malloc_fresh mmap mmap_fresh); [exact Hg|exact Ho|exact Hnm|done|done|done|done|exact Hf|exact Hav|]. cbn [r_bytes r_var_name]. intros s' Emt Hi. cbv beta iota. apply wp_ret, HQ; [done| |done].
  constructor; [exact Hi|by eapply regs_same|cbn; lia|done].
Qed.

Lemma exec_alloc A s name len a : sys s A → allowed A (OAlloc name len a) → simulates A (OAlloc name len a) s.
Proof using malloc_fresh mmap_fresh.
  intros HA [Hf Hr]. unfold simulates. cbn [exec]. apply wp_bind. unfold p_c_nvalloc_. apply wp_bind, wp_bind, named_ok; [apply Hf|]. apply wp_ret, wp_bind. eapply wp_je_malloc; [done..|]. intros rqst s' _ HA' _. do 2 apply wp_ret.
  eexists. split; [apply SAlloc|done].
Qed.

Lemma exec_alloc_id A s name len a : sys s A → allowed A (OAllocId name len a) → simulates A (OAllocId name len a) s.
Proof using malloc_fresh mmap_fresh.
  intros HA [Hf Hr]. unfold simulates. cbn [exec]. apply wp_bind. unfold p_c_nvalloc_id. apply wp_bind, named_ok; [apply Hf|]. apply wp_bind. eapply wp_je_malloc; [done..|]. intros rqst s' Eid HA' Ha0. apply wp_bind, wp_check; [done|]. do 2 apply wp_ret.
  rewrite Eid, u32_small by apply gen_id_u32. eexists. split; [apply SAllocId|done].
Qed.

Lemma exec_read A s name : sys s A → allowed A (ORead name) → simulates A (ORead name) s.
Proof.
  intros HA [Hlen Hst]. pose proof HA as [(I & Hg & Ho & Hnm) _ _ _]. unfold simulates. cbn [exec]. apply wp_bind. eapply (wp_read malloc mmap); [exact Hg|done|done| |].
  - intros v j Hl Ej. apply wp_ret. exists A. split; [|done]. apply (SRead A name (to_obj I v j)). rewrite <- Ej. by apply objs_live.
  - intros Hno. apply wp_ret. exists A. split; [|done]. apply SNone. by apply (objs_none _ _ _ Ho).
Qed.

(** A byte of the object that a request finds. *)
Lemma wp_load_mapped A s rqst id x i (Q : Z → nvstate → Prop) :
  sys s A → r_pid rqst = pid0 → (if not_null (r_id rqst) then u32 (r_id rqst) else gen_id_from_str (r_var_name rqst)) = id → id ∉ stale A → objs A !! id = Some x → 0 ≤ i < osize x →
  (∀ b, a_data x !! Z.to_nat i = Some b → Q b s) →
  wp (nv_map_read malloc mmap rqst) s (λ r s', wp (check (not_null r.1)) s' (λ _ s', wp (load_byte (r.1 + i)) s' Q)).
Proof.
  intros HA Ep Eid Hst Ex Hi HQ. pose proof HA as [(I & Hg & Ho & Hnm) _ _ _]. eapply (wp_nv_map_read malloc mmap _ _ s I _ _ id); [exact Hg|done|done|done| |]; [|intros Hno; by rewrite (proj2 (objs_none _ _ _ Ho) Hno) in Ex].
  intros v j Hl Ej. cbv zeta. apply wp_check; [by eapply nv_ptr_not_null|]. pose proof (objs_live _ _ _ _ Ho Hl) as El. rewrite Ej in El. assert (x = to_obj I v j) as -> by congruence.
  rewrite (osize_to_obj _ _ _ _ _ (gd_wf _ _ _ _ _ Hg) Hl) in Hi. pose proof (nv_ptr_points _ _ _ _ _ _ _ i Hg Hl Hi) as Hp. eapply wp_load_byte; [apply Hg|exact Hp|]. apply HQ.
  cbn. rewrite lookup_block by done. by rewrite (d_by _ _ (gd_disk _ _ _ _ _ Hg) v _ (proj1 Hl)).
Qed.

Lemma exec_load A s name i : sys s A → allowed A (OLoad name i) → simulates A (OLoad name i) s.
Proof.
  intros HA (x & (Hlen & H0 & Hst & Ex & En) & Hi). unfold simulates. cbn [exec]. apply wp_bind. unfold nvread_. apply wp_bind, named_ok; [done|]. apply wp_bind.
  eapply wp_mono; [eapply (wp_load_mapped A s _ (gen_id_from_str name) x i (λ b s', ∃ A', astep A (OLoad name i) (AVal b) A' ∧ sys s' A')); [done..|]|].
  - intros b Eb. exists A. split; [by eapply SLoad|done].
  - intros [p rq] s' Hw. cbv iota. apply wp_bind. eapply wp_mono; [exact Hw|]. intros [] s'' Hw'. apply wp_ret, wp_bind. eapply wp_mono; [exact Hw'|]. intros b s3 HQ. by apply wp_ret.
Qed.

Lemma exec_load_id A s id i : sys s A → allowed A (OLoadId id i) → simulates A (OLoadId id i) s.
Proof.
  intros HA (x & (Hid & H0 & Hst & Ex) & Hi). unfold simulates. cbn [exec]. apply wp_bind. unfold nvread_id_. apply wp_bind.
  eapply wp_mono; [eapply (wp_load_mapped A s _ id x i (λ b s', ∃ A', astep A (OLoadId id i) (AVal b) A' ∧ sys s' A')); [done|done| |done|done|done|]|].
  - cbn [r_id r_var_name]. unfold not_null. rewrite (proj2 (Z.eqb_neq _ _) H0). by apply u32_small.
  - intros b Eb. exists A. split; [by eapply SLoadId|done].
  - intros [p rq] s' Hw. cbv iota. apply wp_bind. eapply wp_mono; [exact Hw|]. intros [] s'' Hw'. apply wp_ret, wp_bind. eapply wp_mono; [exact Hw'|]. intros b s3 HQ. by apply wp_ret.
Qed.

Lemma exec_store A s name i b : sys s A → allowed A (OStore name i b) → simulates A (OStore name i b) s.
Proof.
  intros [(I & Hg & Ho & Hnm) Hr Hn Hk] (x & (Hlen & H0 & Hst & Ex & En) & Hi). unfold simulates. cbn [exec]. apply wp_bind. eapply (wp_write malloc mmap); [exact Hg|exact Ho|exact Hnm|done|done|exact Ex|done|].
  intros s' Emt Hi'. apply wp_ret. eexists. split; [by apply SStore|]. constructor; [exact Hi'|by eapply regs_same|done|done].
Qed.

Lemma exec_commit A s name z : sys s A → allowed A (OCommit name z) → simulates A (OCommit name z) s.
Proof.
  intros [(I & Hg & Ho & Hnm) Hr Hn Hk] (x & (Hlen & H0 & Hst & Ex & En)). unfold simulates. cbn [exec]. apply wp_bind. eapply (wp_commit malloc); [exact Hg|exact Ho|exact Hnm|done|done|done|exact Ex|].
  intros s' Emt Hi'. apply wp_ret. eexists. split; [by apply SCommit|]. constructor; [exact Hi'|by eapply regs_same|done|done].
Qed.

Lemma exec_commit_id A s id z : sys s A → allowed A (OCommitId id z) → simulates A (OCommitId id z) s.
Proof.
  intros [(I & Hg & Ho & Hnm) Hr Hn Hk] (x & (Hid & H0 & Hst & Ex)). unfold simulates. cbn [exec]. apply wp_bind. eapply (wp_commit_id malloc); [exact Hg|exact Ho|exact Hnm|done|done|done|exact Ex|].
  intros s' Emt Hi'. apply wp_ret. eexists. split; [by apply SCommitId|]. constructor; [exact Hi'|by eapply regs_same|done|done].
Qed.

Lemma exec_delete A s name : sys s A → allowed A (ODelete name) → simulates A (ODelete name) s.
Proof using malloc_fresh.
  intros [(I & Hg & Ho & Hnm) Hr Hn Hk] (Hlen & H0 & Hst & En). unfold simulates. cbn [exec]. apply wp_bind. eapply (wp_delete malloc malloc_fresh); [exact Hg|exact Ho|exact Hnm|done|done|done|exact En|].
  intros s' Emt Hi'. apply wp_ret. eexists. split; [by apply SDelete|]. constructor; [exact Hi'|by eapply regs_same|done|done].
Qed.

Lemma exec_rename A s src dest : sys s A → allowed A (ORename src dest) → simulates A (ORename src dest) s.
Proof using malloc_fresh.
  intros [(I & Hg & Ho & Hnm) Hr Hn Hk] [(x & (Hlen & H0 & Hst & Ex & En)) (Hlen' & H0' & Hd & Hst')]. unfold simulates. cbn [exec]. apply wp_bind. eapply (wp_rename malloc malloc_fresh); [exact Hg|exact Ho|exact Hnm|done|lia|done|done|done|done|done|exact Ex|exact En|].
  intros s' Emt Hi'. apply wp_ret. eexists. split; [by apply SRename|]. constructor; [exact Hi'|by eapply regs_same|done|done].
Qed.

Lemma exec_list A s : sys s A → simulates A OList s.
Proof.
  intros HA. pose proof HA as [(I & Hg & Ho & Hnm) _ _ _]. unfold simulates. cbn [exec]. apply wp_bind. unfold get_object_list. apply wp_bind, wp_gets. apply wp_ret, wp_ret. exists A. split; [|done]. cbn [id]. apply SList.
  - apply Sorted_merge_sort. apply _.
  - rewrite merge_sort_Permutation. apply NoDup_fst_map_to_list.
  - intros x. rewrite merge_sort_Permutation, list_elem_of_fmap. split.
    + intros ([y z] & -> & (-> & id & o & E & <-)%elem_of_map_to_list%Hnm). eauto.
    + intros (id & o & E & <-). exists (a_name o, 0). split; [done|]. apply elem_of_map_to_list, Hnm. eauto.
Qed.

Lemma exec_restart A s : sys s A → simulates A ORestart s.
Proof using malloc_fresh mmap_fresh.
  intros [Hi Hr Hn Hk]. unfold simulates. cbn [exec]. apply wp_bind, wp_modify, wp_bind. eapply wp_mono; [eapply (wp_nvinit malloc malloc_fresh mmap mmap_fresh _ _ s); [by eapply inv_stored|lia|lia]|].
  cbv beta. intros r s' (_ & Emt & m' & Hi' & Em). apply wp_ret. eexists. split; [by apply SRestart|]. constructor; [exact Hi'| |done|done]. exists ∅. rewrite Emt. by split.
Qed.

Lemma exec_ok A s o : sys s A → allowed A o → simulates A o s.
Proof using malloc_fresh mmap_fresh.
  intros HA Ho. destruct o; [by apply exec_map|by apply exec_alloc|by apply exec_alloc_id|by apply exec_read|by apply exec_load|by apply exec_load_id|by apply exec_store|by apply exec_commit|by apply exec_commit_id|by apply exec_delete|by apply exec_rename|by apply exec_list|by apply exec_restart].
Qed.

Lemma run_ok p A s : sys s A → safe A p → wp (run malloc mmap p) s (λ l s', ∃ A', atrace A l A' ∧ sys s' A').
Proof using malloc_fresh mmap_fresh.
  revert A s. induction p as [|o k IH]; intros A s HA; cbn [run safe].
  - intros _. apply wp_ret. exists A. split; [constructor|done].
  - intros [Ho Hk]. apply wp_bind. eapply wp_mono; [by apply (exec_ok A s o HA Ho)|]. cbv beta. intros r s1 (A1 & Hs & HA1). apply wp_bind. eapply wp_mono; [by apply (IH r A1 s1 HA1), Hk|]. cbv beta. intros l s2 (A2 & Ht & HA2).
    apply wp_ret. exists A2. split; [by econstructor|done].
Qed.
End refine.

(** No file is there yet. *)
Definition astart : astate := AState ∅ ∅ ∅ 0 0.

(** C2 Every run of a program on the object store (mapping chunks, allocating,
    reading, writing, committing, deleting, renaming and listing objects by name or id,
    and ending the process and starting the next between calls), started without files,
    has a result, and all its answers are those of an abstract map from ids
    to objects, as long as each call is one the abstract map allows: objects keep their name, committed
    size and bytes over restarts, for every address that [malloc] and [mmap] may
    give. *)
Theorem store_refines malloc mmap p s :
  fresh_malloc malloc → fresh_mmap mmap → size_at (files s) fproc = None → safe astart p →
  ∃ l s' A', (nvinit malloc mmap;; run malloc mmap p) (restart s) = Some (l, s') ∧ atrace astart l A'.
Proof.
  intros Hm Hmm Hs Hp. assert (Hw : wp (nvinit malloc mmap;; run malloc mmap p) (restart s) (λ l _, ∃ A', atrace astart l A')).
  { apply wp_bind. eapply wp_mono; [apply (wp_nvinit malloc Hm mmap Hmm 0 0 s ∅); [by left|done|done]|]. cbv beta. intros _ s1 (_ & Emt & m' & Hi & Em).
    assert (m' = ∅) as -> by (by apply (fmap_empty_inv erase); rewrite Em, fmap_empty). eapply wp_mono; [eapply (run_ok malloc Hm mmap Hmm p astart); [|done]|cbv beta; naive_solver].
    constructor; [exact Hi| |done|done]. exists ∅. rewrite Emt. by split. }
  apply wp_Some in Hw as (l & s' & E & A' & Ht). eauto.
Qed.

(** ** A run *)

Definition bump_mmap (l : gmap Z (string * Z)) (a sz : Z) : Z := 4096 * (1 + map_fold (λ b x e, Z.max (b + x.2) e) 0 l).

Lemma bump_mmap_fresh : fresh_mmap bump_mmap.
Proof.
  intros mp a n _. assert (H : 0 ≤ map_fold (λ b x e, Z.max (b + x.2) e) 0 mp ∧ ∀ b x, mp !! b = Some x → b + x.2 ≤ map_fold (λ b x e, Z.max (b + x.2) e) 0 mp).
  { apply (map_fold_weak_ind (λ e (mp : gmap Z (string * Z)), 0 ≤ e ∧ ∀ b x, mp !! b = Some x → b + x.2 ≤ e)); [split; [done|]; by intros b x ?%lookup_empty_Some|].
    intros b x mp' e Eb [He HI]. split; [lia|]. intros b' x' [[<- <-]|[Hne E]]%lookup_insert_Some; [lia|]. specialize (HI _ _ E). lia. }
  unfold bump_mmap, MAP_FAILED. destruct H as [H0 H]. split_and!; [lia|lia|]. intros b x E _. specialize (H _ _ E). left. lia.
Qed.

Definition demo : prog :=
  Call (OMap 65536) (λ r, match r with
    | AVal b => Call (OAllocId "abc" 100 (b + 64)) (λ r, match r with
      | AObj _ id => Call (OStore "abc" 3 77) (λ _, Call (OLoadId id 3) (λ _, Call (OCommitId id 17) (λ _, Call (ORename "abc" "def") (λ _,
          Call ORestart (λ _, Call (OLoad "def" 3) (λ _, Call (ORead "def") (λ _, Call OList (λ _, Halt))))))))
      | _ => Halt
      end)
    | _ => Halt
    end).

(** The next call was allowed and is done: the object it was about is the one in the map. *)
Ltac astep_next :=
  let Hs := fresh in intros ? ? Hs; inversion Hs; subst; clear Hs; cbn [with_objs new_obj objs stale regions recs nmaps astart] in *;
  repeat match goal with E : <[?i := _]> _ !! ?i = Some _ |- _ => rewrite lookup_insert_eq in E; injection E as <- end; rewrite ?insert_insert_eq.

Lemma demo_safe : safe astart demo.
Proof.
  assert (Ha : gen_id_from_str "abc" ≠ 0) by done. assert (Hd : gen_id_from_str "def" ≠ 0) by done. assert (Had : gen_id_from_str "abc" ≠ gen_id_from_str "def") by done. pose proof (gen_id_u32 "abc") as Hau.
  assert (Hk : ∀ A name x, strlen name < MAXOBJNAMELEN → gen_id_from_str name ≠ 0 → gen_id_from_str name ∉ stale A → objs A !! gen_id_from_str name = Some x → a_name x = name → known A name x) by done.
  unfold demo. cbn [safe]. split; [done|]. astep_next. cbn [safe]. split.
  { split; [done|]. unfold room. split_and!; try done. exists r0, 65536. cbn. rewrite lookup_insert_eq. split_and!; [done|lia|lia]. }
  astep_next. cbn [safe]. split; [eexists; split; [apply Hk; [done|done|done|apply lookup_insert_eq|done]|done]|].
  astep_next. split; [eexists; split; [split_and!; [exact Hau|done|done|apply lookup_insert_eq]|done]|].
  astep_next. split; [eexists; split_and!; [exact Hau|done|done|apply lookup_insert_eq]|].
  astep_next. split; [split; [eexists; apply Hk; [done|done|done|apply lookup_insert_eq|done]|split_and!; try done; cbn; by rewrite lookup_insert_ne]|].
  astep_next. split; [done|]. astep_next. set (x3 := Aobj "def" _ _ _) in *.
  assert (Ex : erase <$> (m !! gen_id_from_str "def") = Some (erase x3)). { match goal with E : erase <$> m = _ |- _ => rewrite <- lookup_fmap, E, lookup_fmap, lookup_insert_eq; done end. }
  apply fmap_Some in Ex as (x & Ex & E). split; [exists x; split; [apply Hk; try done; by apply (f_equal a_name) in E|]|].
  - unfold osize. apply (f_equal a_data) in E. cbn in E. rewrite <- E. done.
  - astep_next. split; [done|]. intros r A _. by split.
Qed.

Lemma store_refines_witness :
  ∃ l s' A', (nvinit bump_malloc bump_mmap;; run bump_malloc bump_mmap demo) (restart (NvState ∅ ∅ ∅ None rbtree_create false 0 false ∅ ∅ ∅)) = Some (l, s') ∧ atrace astart l A'.
Proof. apply (store_refines bump_malloc bump_mmap demo); [exact bump_malloc_fresh|exact bump_mmap_fresh|reflexivity|exact demo_safe]. Defined.

Example demo_answers :
  (λ r, (r.1).*2) <$> (nvinit bump_malloc bump_mmap;; run bump_malloc bump_mmap demo) (restart (NvState ∅ ∅ ∅ None rbtree_create false 0 false ∅ ∅ ∅))
  = Some [AVal 21491617792; AObj 21491617856 807794786; AUnit; AVal 77; AUnit; AUnit; AUnit; AVal 77; AObj 88072616153152 17; ANames ["def"]].
Proof. vm_compute. reflexivity. Qed.

(** ** A name that is there already *)

(** A second object with the name of another: the bytes of the old one are
    copied to it, and then the new one is deleted, because the tree finds it under the id. *)
Definition twice : MN (Z * Z * (Z * Z) * bool * Z) :=
  nvinit bump_malloc bump_mmap;;
  b ← _mmap bump_malloc bump_mmap 0 65536 (BASEID_GET + 1);
  p ← p_c_nvalloc_ bump_malloc bump_mmap (λ _, mret b) 100 (Some "abc"%string) 0 "";
  store_byte p 1;;
  q ← p_c_nvalloc_ bump_malloc bump_mmap (λ _, mret (b + 100)) 100 (Some "abc"%string) 0 "";
  x ← load_byte q;
  store_byte q 2;;
  r ← p_c_nvread_len bump_malloc bump_mmap "abc" 0 (Rqst 0 "" 0 0 0 0 0);
  modify restart;;
  nvinit bump_malloc bump_mmap;;
  r' ← p_c_nvread_len bump_malloc bump_mmap "abc" 0 (Rqst 0 "" 0 0 0 0 0);
  y ← load_byte (r'.1);
  mret (q - p, x, r, not_null (r'.1), y).

(** The new object has the old byte, then the name has no object any more; the
    next process finds the old object, with the byte it had. *)
Example twice_answers : fst <$> twice (restart (NvState ∅ ∅ ∅ None rbtree_create false 0 false ∅ ∅ ∅)) = Some (100, 1, (0, 0), true, 1).
Proof. vm_compute. reflexivity. Qed.

(** ** Sizes of more than 32 bits *)

(** A request for 4 GiB and 7 bytes is granted; the object has 7 bytes. *)
Definition huge : MN (Z * Z) :=
  nvinit bump_malloc bump_mmap;;
  b ← _mmap bump_malloc bump_mmap 0 65536 (BASEID_GET + 1);
  p ← p_c_nvalloc_ bump_malloc bump_mmap (λ _, mret b) (2 ^ 32 + 7) (Some "abc"%string) 0 "";
  '(_, r) ← nv_map_read bump_malloc bump_mmap (Rqst 0 "abc" 0 (BASEID_GET + 1) 0 0 0);
  mret (p - b, r_bytes r).

Example huge_answers : fst <$> huge (restart (NvState ∅ ∅ ∅ None rbtree_create false 0 false ∅ ∅ ∅)) = Some (0, 7).
Proof. vm_compute. reflexivity. Qed.
